(* ===== verification/_CoqProject ===== *)
-Q . S2P
Prelude.v
Abi.v
Riscv.v
Memory.v
KState.v
KMonad.v
Spinlock.v
Kalloc.v
Vm.v
VmSpec.v
UvmSpec.v
CopySpec.v
Pages.v
UvmCopy.v
Proc.v
Printf.v
ProcSpec.v
Lottery.v
SleepSpec.v
Turn.v
Freewalk.v
VmFault.v
Isolation.v
Seq.v
PrintSpec.v
Syscall.v
Sysproc.v
SharedBuf.v
CryptSpec.v
Sleeplock.v
Bio.v
BioSpec.v
Log.v
BlockSpec.v
LogSpec.v
LogWrite.v
Crash.v
Fs.v
FsView.v
Mkfs.v
MkfsSpec.v
MkfsImage.v
FsSpec.v
Balloc.v
FileShape.v
FsWrite.v
FsCrash.v
DirWrite.v
Itrunc.v
FileApi.v
Plic.v
Console.v
Pipe.v
PipeSpec.v
File.v
Exec.v
Life.v
Sysfile.v
Virtio.v
VirtioSpec.v
Trap.v
Boot.v
User.v
Ulib.v
Uprintf.v
UserSpec.v
Utils.v
Grind.v
Tests.v
Grep.v
Umalloc.v
UmallocSpec.v
Sh.v
ShSpec.v
