(* ===== verification/Prelude.v ===== *)
(** * xv6-riscv with scheduling, memory and synchronisation enhancements

    A model of the kernel, of the user library, the shell and the utilities and
    of mkfs, translated from the C sources under src/, and what can be proved
    of it.

    ** The program

    The kernel boots on several harts (start.c, main.c), keeps physical pages
    on a free list with counters of free and allocated pages (kalloc.c), builds
    Sv39 page tables (vm.c), runs processes from a fixed table under a lottery
    scheduler (proc.c), and serves system calls (syscall.c, sysproc.c,
    sysfile.c).  Files live in a logging file system: disk driver
    (virtio_disk.c), buffer cache (bio.c), write-ahead log (log.c), blocks,
    inodes, directories and paths (fs.c), open files (file.c), pipes (pipe.c).
    The enhancements are tickets and the lottery (settickets), page counters
    (freemem, memstat), encrypt and decrypt of user memory, and a bounded
    producer/consumer buffer.

    ** The model

    [KState] is the record of everything the kernel keeps in static data,
    registers and memory; [Memory] is byte-addressed RAM.  A kernel routine is
    a function [kstate -> res A] in the monad of [KMonad]: it returns, panics,
    gives up the CPU ([Switch], with the rest of the routine), spins on a lock
    another hart holds ([Spin]), or runs out of a bound ([Unbounded]).  Machine
    integers are [Z] with their wrap-around written out ([u32], [s32], ...).
    A user program is a tree of system calls, an [itree] ([User]).  mkfs is a
    function of the host's files in an error-state monad ([Mkfs]).

    The files that hold code, with the sources they translate:
    - [Riscv]: riscv.h, memlayout.h, param.h; [Memory]: string.c; [Abi]: the
      constants of fcntl.h, stat.h and vm.h;
    - [Spinlock], [Sleeplock]: spinlock.c, sleeplock.c;
    - [Kalloc], [Vm]: kalloc.c, vm.c;
    - [Proc], [Life]: proc.c (the table, the scheduler and sleep/wakeup; then
      fork, exit and wait, which need files);
    - [Printf], [Console], [Plic]: printf.c, console.c and uart.c, plic.c;
    - [Syscall], [Sysproc], [Sysfile]: syscall.c, sysproc.c, sysfile.c;
    - [Virtio], [Bio], [Log], [Fs]: virtio_disk.c, bio.c, log.c, fs.c;
    - [Pipe], [File], [Exec], [Trap], [Boot]: pipe.c, file.c, exec.c, trap.c,
      start.c with main.c;
    - [User], [Ulib], [Uprintf], [Umalloc]: the system call stubs, ulib.c,
      printf.c and umalloc.c of user/;
    - [Utils], [Grep], [Sh]: the utilities of user/, grep.c, sh.c;
    - [Grind], [Tests]: grind.c, and forktest.c with stressfs.c;
    - [Mkfs]: mkfs/mkfs.c.

    Names are those of the sources; a loop of a routine has the routine's name
    with a suffix.

    ** Interfaces

    What is not under src/ is a parameter: the class [Layout] (where the linker
    puts the kernel's end), [Mmio] (what device registers read), [Disk] with
    its laws [DiskLaws] (a request moves a block, the contract between bio.c
    and virtio_disk.c), [Device] of [VirtioSpec] (what a virtio block device
    does with the queues), [Files] and [Break] of [UserSpec] and [UmallocSpec]
    (what the system calls promise to programs), and mkfs's host.

    ** What is proved

    - Locks and sleeping: mutual exclusion of spin locks on many harts
      ([Spinlock.Smp]); sleep and wakeup, no lost wakeup ([SleepSpec]).
    - Memory: conservation of pages ([Kalloc]); mappages ([VmSpec]); uvmalloc
      and uvmdealloc ([UvmSpec]); copies to and from user memory
      ([CopySpec]); the copy of an address space for fork ([UvmCopy]), its
      release ([Freewalk]) and lazy allocation ([VmFault]), over the facts of
      [Pages]; isolation of address spaces over any sequence of these
      operations, and that no page is lost ([Isolation]).
    - Processes: a scheduler round, the fairness of the lottery ([ProcSpec])
      and that nobody starves ([Lottery]).
    - Disk: the driver under every interleaving of callers, device and
      interrupts ([VirtioSpec]); the buffer cache ([BioSpec]); that a
      transaction is on disk completely or not at all after a crash
      ([BlockSpec], [LogSpec], [Crash]).
    - Files, reading: contents and names ([FsView], [FsSpec]).
    - Files, changing, in layers: updates of blocks inside a transaction
      ([LogWrite]); the block bitmap ([Balloc]); the shape of a file on the
      disk, kept by every change ([FileShape]); bmap, writei and iupdate
      ([FsWrite]), itrunc ([Itrunc]) and dirlink ([DirWrite]).  [FsCrash]
      puts a change between begin_op and end_op, with a crash after any disk
      write and the recovery of the next boot, and [FileApi] states the result
      as a refinement: a file is a list of bytes and a sequence of writes and
      truncations goes through the contents of the abstract file, crashes
      included.
    - Pipes are bounded queues under every interleaving of readers and writers
      ([Turn], [PipeSpec]).
    - System calls of the enhancements: the shared buffer is a bounded queue
      ([SharedBuf]); encrypt and decrypt ([CryptSpec]).
    - User space: memmove, atoi and printf ([Ulib], [UserSpec]), malloc and
      free ([UmallocSpec]), cat and wc ([Utils]), grep's matcher is a matcher
      of regular expressions ([Grep]), the shell's parser terminates, finds the
      words and reads back what is printed ([ShSpec]); grind's generator and
      its descriptors ([Grind]), forktest ([Tests]).
    - mkfs: the image is a well-formed file system with the given files
      ([MkfsSpec], [MkfsImage]).

    [Seq] has the rules for code that runs without contention, in which the
    file system theorems are stated ([PrintSpec] has those for printf);
    [VirtioSpec], [SleepSpec] and [PipeSpec] cover the points where the kernel
    gives up the CPU.

    ** Bounds

    A loop that is not structural takes a bound; [Unbounded] is the outcome
    when it is used up.  Bounds that the code determines (pages of a range,
    levels of a table, bytes of a line) are computed from the arguments and
    shown to be enough where a theorem says that a routine returns.  The
    parameters named [fuel] bound how often a routine is woken without finding
    its condition true; the theorems hold for every value of them.

    The theorems on changes of files ask that the bitmap blocks, the inode, the
    indirect block and the blocks the change touches fit in the buffer cache
    beside a log block ([FsCrash.fits]).  param.h gives the cache and the log
    the same number of blocks, so a change that fits in the cache fits in the
    log; filewrite() cuts its data into pieces that touch four blocks at most.
    Their witnesses run on a disk with one block of bitmap.

    ** Not modelled

    The assembly (entry.S, swtch.S, trampoline.S, kernelvec.S): swtch() is the
    outcome [Switch].  The output of panic(): it is the outcome [Panic].
    Weak memory, the TLB and instruction fetch.  The register accessors of
    riscv.h are one pair of operations.  defs.h has declarations
    only.  usertests.c, logstress.c and the test_*.c programs of user/ are not
    modelled: they are scripts of system calls with printed verdicts, the calls
    are modelled, and a program's own code adds nothing to them.

    The theorems on changes of files are for one process in a transaction at a
    time; begin_op() and end_op() are modelled with concurrent transactions,
    but no theorem is stated for a group commit. *)

From Stdlib Require Export ZArith Lia.
From stdpp Require Export gmap list strings numbers.
Export list_basics.list list_relations.list list_monad.list list_misc.list list_numbers.list.

Global Open Scope Z_scope.

(** ** Machine integers

    A value of a C integer type is a [Z]; [u8] ... [u64] reduce an
    unbounded result to the unsigned type and [s16], [s32] reduce it to the
    signed one, which is what RISC-V gcc does for the conversions and for
    the (wrapping) arithmetic the kernel is compiled with. *)

Definition u8 (x : Z) : Z := x mod 2 ^ 8.
Definition u16 (x : Z) : Z := x mod 2 ^ 16.
Definition u32 (x : Z) : Z := x mod 2 ^ 32.
Definition u64 (x : Z) : Z := x mod 2 ^ 64.

Definition sext (w x : Z) : Z :=
  let y := x mod 2 ^ w in if y <? 2 ^ (w - 1) then y else y - 2 ^ w.

Definition s16 (x : Z) : Z := sext 16 x.
Definition s32 (x : Z) : Z := sext 32 x.

Definition s64 (x : Z) : Z := sext 64 x.

(** C's [a % b] on signed integers truncates towards zero. *)
Definition crem (a b : Z) : Z := Z.rem a b.

(** ** Strings *)

(** The characters of a string literal. *)
Fixpoint chars (s : string) : list Z :=
  match s with
  | EmptyString => []
  | String a s' => Z.of_N (Ascii.N_of_ascii a) :: chars s'
  end.

(** The newline, for format strings. *)
Definition nl : string := String (Ascii.ascii_of_nat 10) EmptyString.

Lemma u32_range x : 0 <= u32 x < 2 ^ 32.
Proof. unfold u32. apply Z.mod_pos_bound. lia. Qed.

Lemma u64_range x : 0 <= u64 x < 2 ^ 64.
Proof. unfold u64. apply Z.mod_pos_bound. lia. Qed.

Lemma u8_range x : 0 <= u8 x < 2 ^ 8.
Proof. unfold u8. apply Z.mod_pos_bound. lia. Qed.

Lemma u32_small x : 0 <= x < 2 ^ 32 -> u32 x = x.
Proof. apply Z.mod_small. Qed.

Lemma u64_small x : 0 <= x < 2 ^ 64 -> u64 x = x.
Proof. apply Z.mod_small. Qed.

Lemma u8_small x : 0 <= x < 2 ^ 8 -> u8 x = x.
Proof. apply Z.mod_small. Qed.

Lemma sext_range w x : 0 < w -> - 2 ^ (w - 1) <= sext w x < 2 ^ (w - 1).
Proof.
  intros Hw. unfold sext.
  assert (2 ^ w = 2 * 2 ^ (w - 1)) as E.
  { rewrite <- Z.pow_succ_r by lia. f_equal. lia. }
  pose proof (Z.mod_pos_bound x (2 ^ w) ltac:(apply Z.pow_pos_nonneg; lia)).
  destruct (Z.ltb_spec (x mod 2 ^ w) (2 ^ (w - 1))); lia.
Qed.

Lemma sext_small w x : 0 < w -> - 2 ^ (w - 1) <= x < 2 ^ (w - 1) -> sext w x = x.
Proof.
  intros Hw Hx. unfold sext.
  assert (2 ^ w = 2 * 2 ^ (w - 1)) as E.
  { rewrite <- Z.pow_succ_r by lia. f_equal. lia. }
  destruct (Z.le_gt_cases 0 x).
  - rewrite Z.mod_small by lia. destruct (Z.ltb_spec x (2 ^ (w - 1))); lia.
  - assert (x mod 2 ^ w = x + 2 ^ w) as ->.
    { symmetry. apply Z.mod_unique with (-1); lia. }
    destruct (Z.ltb_spec (x + 2 ^ w) (2 ^ (w - 1))); lia.
Qed.

Lemma s32_range x : - 2 ^ 31 <= s32 x < 2 ^ 31.
Proof. apply (sext_range 32); lia. Qed.

Lemma s32_small x : - 2 ^ 31 <= x < 2 ^ 31 -> s32 x = x.
Proof. apply (sext_small 32); lia. Qed.

Lemma s32_mod x : s32 x mod 2 ^ 32 = x mod 2 ^ 32.
Proof.
  unfold s32, sext. case_match; [by rewrite Z.mod_mod|].
  rewrite <- (Z_mod_plus_full (x mod 2 ^ 32 - 2 ^ 32) 1), Z.mul_1_l, Z.sub_add. by rewrite Z.mod_mod.
Qed.

Lemma s32_eq x y : x mod 2 ^ 32 = y mod 2 ^ 32 -> s32 x = s32 y.
Proof. intros E. unfold s32, sext. by rewrite E. Qed.

Lemma s32_add x y : s32 (s32 x + y) = s32 (x + y).
Proof.
  apply s32_eq. rewrite Z.add_mod by done. rewrite s32_mod. by rewrite <- Z.add_mod by done.
Qed.

(** Filters that keep all or nothing. *)
Lemma filter_all {A} (P : A -> Prop) `{forall x, Decision (P x)} (l : list A) : (forall x, x ∈ l -> P x) -> filter P l = l.
Proof.
  induction l as [|x l IH]; intros F; [done|]. rewrite filter_cons_True by (apply F, list_elem_of_here).
  f_equal. apply IH. intros y Hy. by apply F, list_elem_of_further.
Qed.

Lemma filter_none {A} (P : A -> Prop) `{forall x, Decision (P x)} (l : list A) : (forall x, x ∈ l -> ~ P x) -> filter P l = [].
Proof.
  induction l as [|x l IH]; intros F; [done|]. rewrite filter_cons_False by (apply F, list_elem_of_here).
  apply IH. intros y Hy. by apply F, list_elem_of_further.
Qed.

(** ** Automation shared by the components

    [sys] holds the facts that close routine side conditions (ranges,
    lengths, invariants of a component); the components add theirs. *)

Create HintDb sys discriminated.

#[export] Hint Resolve u8_range u32_range u64_range s32_range : sys.

(** [bool_hyps] turns the boolean tests of the code into propositions. *)
Ltac bool_hyps :=
  repeat match goal with
  | H : (_ && _)%bool = true |- _ => apply andb_true_iff in H as [? ?]
  | H : (_ || _)%bool = false |- _ => apply orb_false_iff in H as [? ?]
  | H : negb _ = true |- _ => apply negb_true_iff in H
  | H : negb _ = false |- _ => apply negb_false_iff in H
  | H : (_ <? _) = true |- _ => apply Z.ltb_lt in H
  | H : (_ <? _) = false |- _ => apply Z.ltb_ge in H
  | H : (_ <=? _) = true |- _ => apply Z.leb_le in H
  | H : (_ <=? _) = false |- _ => apply Z.leb_gt in H
  | H : (_ =? _) = true |- _ => apply Z.eqb_eq in H
  | H : (_ =? _) = false |- _ => apply Z.eqb_neq in H
  | H : bool_decide _ = true |- _ => apply bool_decide_eq_true in H
  | H : bool_decide _ = false |- _ => apply bool_decide_eq_false in H
  end.

(** [case_if] splits on the first boolean test of the goal. *)
Ltac case_if :=
  match goal with
  | |- context [if ?b then _ else _] =>
      lazymatch type of b with
      | bool => let E := fresh "E" in destruct b eqn:E; bool_hyps
      | _ => destruct b
      end
  end.

Ltac case_if_in H :=
  match type of H with
  | context [if ?b then _ else _] =>
      lazymatch type of b with
      | bool => let E := fresh "E" in destruct b eqn:E; bool_hyps
      | _ => destruct b
      end
  end.

(** ** Lists indexed by [Z], as C arrays are *)

Definition znth {A} (d : A) (l : list A) (i : Z) : A := nth (Z.to_nat i) l d.
Definition zupd {A} (l : list A) (i : Z) (x : A) : list A := <[Z.to_nat i := x]> l.

Notation "l .[ i ]@ d" := (znth d l i) (at level 9, i at level 200, format "l .[ i ]@ d").

Lemma length_zupd {A} (l : list A) i x : length (zupd l i x) = length l.
Proof. apply length_insert. Qed.

Lemma znth_zupd_eq {A} (d : A) l i x :
  0 <= i < Z.of_nat (length l) -> znth d (zupd l i x) i = x.
Proof.
  intros H. unfold znth, zupd. rewrite nth_lookup.
  rewrite list_lookup_insert_eq by lia. done.
Qed.

Lemma znth_zupd_ne {A} (d : A) l i j x :
  0 <= i -> 0 <= j -> i <> j -> znth d (zupd l i x) j = znth d l j.
Proof.
  intros ? ? H. unfold znth, zupd. rewrite !nth_lookup.
  rewrite list_lookup_insert_ne by lia. done.
Qed.

Lemma znth_lookup {A} (d : A) l i x : l !! Z.to_nat i = Some x -> znth d l i = x.
Proof. intros H. unfold znth. by rewrite nth_lookup, H. Qed.

Lemma list_insert_twice {A} (l : list A) i x y : <[i:=x]> (<[i:=y]> l) = <[i:=x]> l.
Proof. apply list_insert_insert_eq. Qed.

(** ** Modular arithmetic on ring buffers *)

Lemma mod_succ a n : 0 < n -> (a mod n + 1) mod n = (a + 1) mod n.
Proof. intros. rewrite Z.add_mod_idemp_l by lia. done. Qed.

Lemma mod_inj_window a i j n :
  0 < n -> 0 <= i < n -> 0 <= j < n -> (a + i) mod n = (a + j) mod n -> i = j.
Proof.
  intros Hn Hi Hj E.
  assert ((a + i) - (a + j) = n * ((a + i) / n - (a + j) / n)) as D.
  { pose proof (Z.div_mod (a + i) n ltac:(lia)).
    pose proof (Z.div_mod (a + j) n ltac:(lia)). lia. }
  assert ((a + i) / n - (a + j) / n = 0) by nia. lia.
Qed.

(** ** Reflexive transitive closure of a step relation *)

Inductive star {A} (R : A -> A -> Prop) : A -> A -> Prop :=
| star_refl x : star R x x
| star_step x y z : R x y -> star R y z -> star R x z.

Lemma star_one {A} (R : A -> A -> Prop) x y : R x y -> star R x y.
Proof. eauto using @star. Qed.

Lemma star_trans {A} (R : A -> A -> Prop) x y z : star R x y -> star R y z -> star R x z.
Proof. induction 1; eauto using @star. Qed.

(** An invariant of the initial state kept by every step holds in every
    reachable state. *)
Lemma star_invariant {A} (R : A -> A -> Prop) (I : A -> Prop) :
  (forall x y, R x y -> I x -> I y) -> forall x y, star R x y -> I x -> I y.
Proof. intros HR x y. induction 1; eauto. Qed.
