(* ===== verification/Abi.v ===== *)
(** * Constants the kernel and user programs share

    kernel/fcntl.h, kernel/stat.h, kernel/vm.h and the length of a name of
    kernel/fs.h. *)

From S2P Require Import Prelude.

(** open() *)
Definition O_RDONLY : Z := 0x000.
Definition O_WRONLY : Z := 0x001.
Definition O_RDWR : Z := 0x002.
Definition O_CREATE : Z := 0x200.
Definition O_TRUNC : Z := 0x400.

(** sbrk() *)
Definition SBRK_EAGER : Z := 1.
Definition SBRK_LAZY : Z := 2.

(** The types of files. *)
Definition T_DIR : Z := 1.
Definition T_FILE : Z := 2.
Definition T_DEVICE : Z := 3.

(** The bytes of a name in a directory entry. *)
Definition DIRSIZ : nat := 14.
