(* ===== verification/Riscv.v ===== *)
(** * Machine constants and address arithmetic

    The macros of kernel/riscv.h, kernel/memlayout.h and kernel/param.h the
    modelled code uses: page rounding, page-table entries, the Sv39 index
    fields, the memory map and the table sizes.  The theorems say what the
    bit manipulations compute (rounding to page boundaries, the PTE encoding
    loses nothing, the three 9-bit indices and the offset identify an
    address) and that the regions of the address space do not overlap. *)

From S2P Require Import Prelude.

(** ** kernel/param.h *)

Definition NPROC : nat := 64.
Definition NCPU : nat := 8.
Definition NOFILE : nat := 16.
Definition NFILE : nat := 100.
Definition NINODE : nat := 50.
Definition NDEV : Z := 10.
Definition ROOTDEV : Z := 1.
Definition MAXARG : nat := 32.
Definition MAXOPBLOCKS : Z := 10.
Definition LOGBLOCKS : Z := MAXOPBLOCKS * 3.
Definition NBUF : nat := 30.
Definition FSSIZE : Z := 2000.
Definition MAXPATH : Z := 128.
Definition USERSTACK : Z := 1.

(** ** kernel/riscv.h *)

Definition SSTATUS_SPP : Z := Z.shiftl 1 8.
Definition SSTATUS_SPIE : Z := Z.shiftl 1 5.
Definition SSTATUS_SIE : Z := Z.shiftl 1 1.

Definition SATP_SV39 : Z := Z.shiftl 8 60.
Definition MAKE_SATP (pagetable : Z) : Z := Z.lor SATP_SV39 (Z.shiftr pagetable 12).

Definition PGSIZE : Z := 4096.
Definition PGSHIFT : Z := 12.

Definition PGROUNDUP (sz : Z) : Z := u64 (Z.land (u64 (sz + PGSIZE - 1)) (Z.lnot (PGSIZE - 1))).
Definition PGROUNDDOWN (a : Z) : Z := Z.land a (Z.lnot (PGSIZE - 1)).

Definition PTE_V : Z := Z.shiftl 1 0.
Definition PTE_R : Z := Z.shiftl 1 1.
Definition PTE_W : Z := Z.shiftl 1 2.
Definition PTE_X : Z := Z.shiftl 1 3.
Definition PTE_U : Z := Z.shiftl 1 4.

Definition PA2PTE (pa : Z) : Z := u64 (Z.shiftl (Z.shiftr pa 12) 10).
Definition PTE2PA (pte : Z) : Z := u64 (Z.shiftl (Z.shiftr pte 10) 12).
Definition PTE_FLAGS (pte : Z) : Z := Z.land pte 0x3FF.

Definition PXMASK : Z := 0x1FF.
Definition PXSHIFT (level : nat) : Z := PGSHIFT + 9 * Z.of_nat level.
Definition PX (level : nat) (va : Z) : Z := Z.land (Z.shiftr va (PXSHIFT level)) PXMASK.

Definition MAXVA : Z := Z.shiftl 1 (9 + 9 + 9 + 12 - 1).

(** [pte & flag] as a truth value. *)
Definition has (pte flag : Z) : bool := negb (Z.land pte flag =? 0).

(** ** kernel/memlayout.h *)

Definition UART0 : Z := 0x10000000.
Definition UART0_IRQ : Z := 10.
Definition VIRTIO0 : Z := 0x10001000.
Definition VIRTIO0_IRQ : Z := 1.
Definition PLIC : Z := 0x0c000000.
Definition PLIC_SENABLE (hart : Z) : Z := PLIC + 0x2080 + hart * 0x100.
Definition PLIC_SPRIORITY (hart : Z) : Z := PLIC + 0x201000 + hart * 0x2000.
Definition PLIC_SCLAIM (hart : Z) : Z := PLIC + 0x201004 + hart * 0x2000.
Definition KERNBASE : Z := 0x80000000.
Definition PHYSTOP : Z := KERNBASE + 128 * 1024 * 1024.
Definition TRAMPOLINE : Z := MAXVA - PGSIZE.
Definition KSTACK (p : Z) : Z := TRAMPOLINE - (p + 1) * 2 * PGSIZE.
Definition TRAPFRAME : Z := TRAMPOLINE - PGSIZE.

(** ** Facts about the macros *)

(** [layout] is [lia] with the constants of the memory map unfolded. *)
Ltac layout :=
  unfold TRAPFRAME, TRAMPOLINE, PHYSTOP, KERNBASE, PGSIZE, MAXVA in *;
  rewrite ?Z.shiftl_1_l in *; simpl Z.add in *; simpl Z.sub in *; lia.

Definition page_aligned (a : Z) : Prop := a mod PGSIZE = 0.

Lemma land_lnot_ones a n : 0 <= n -> Z.land a (Z.lnot (2 ^ n - 1)) = a - a mod 2 ^ n.
Proof.
  intros Hn. rewrite <- Z.ldiff_land.
  replace (2 ^ n - 1) with (Z.ones n) by (rewrite Z.ones_equiv; lia).
  rewrite Z.ldiff_ones_r by done.
  rewrite Z.shiftl_mul_pow2, Z.shiftr_div_pow2 by done.
  pose proof (Z.div_mod a (2 ^ n) ltac:(apply Z.pow_nonzero; lia)). lia.
Qed.

Lemma PGROUNDDOWN_mod a : PGROUNDDOWN a = a - a mod PGSIZE.
Proof. apply (land_lnot_ones a 12). lia. Qed.

Lemma PGROUNDDOWN_bounds a : PGROUNDDOWN a <= a < PGROUNDDOWN a + PGSIZE.
Proof.
  rewrite PGROUNDDOWN_mod. pose proof (Z.mod_pos_bound a PGSIZE ltac:(done)). lia.
Qed.

Lemma PGROUNDDOWN_aligned a : page_aligned (PGROUNDDOWN a).
Proof.
  rewrite PGROUNDDOWN_mod. unfold page_aligned.
  rewrite Zminus_mod, Zmod_mod, Z.sub_diag. done.
Qed.

Lemma PGROUNDDOWN_id a : page_aligned a -> PGROUNDDOWN a = a.
Proof. unfold page_aligned. rewrite PGROUNDDOWN_mod. lia. Qed.

Lemma PGROUNDUP_spec sz : 0 <= sz <= 2 ^ 64 - PGSIZE ->
  PGROUNDUP sz = ((sz + PGSIZE - 1) / PGSIZE) * PGSIZE.
Proof.
  intros H. unfold PGROUNDUP. unfold PGSIZE in *.
  rewrite (u64_small (sz + 4096 - 1)) by lia.
  change (Z.lnot (4096 - 1)) with (Z.lnot (2 ^ 12 - 1)).
  rewrite land_lnot_ones by lia. change (2 ^ 12) with 4096.
  pose proof (Z.div_mod (sz + 4096 - 1) 4096 ltac:(lia)).
  pose proof (Z.mod_pos_bound (sz + 4096 - 1) 4096 ltac:(lia)).
  rewrite u64_small by lia. lia.
Qed.

Lemma PGROUNDUP_bounds sz : 0 <= sz <= 2 ^ 64 - PGSIZE ->
  sz <= PGROUNDUP sz < sz + PGSIZE /\ page_aligned (PGROUNDUP sz).
Proof.
  intros H. rewrite PGROUNDUP_spec by done. unfold page_aligned, PGSIZE in *.
  split; [|apply Z.mod_mul; lia].
  pose proof (Z.div_mod (sz + 4096 - 1) 4096 ltac:(lia)).
  pose proof (Z.mod_pos_bound (sz + 4096 - 1) 4096 ltac:(lia)). lia.
Qed.

Lemma PGROUNDUP_id sz : 0 <= sz <= 2 ^ 64 - PGSIZE -> page_aligned sz -> PGROUNDUP sz = sz.
Proof.
  intros H A. destruct (PGROUNDUP_bounds sz H) as [B C]. unfold page_aligned, PGSIZE in *.
  pose proof (Z.div_mod sz 4096 ltac:(lia)).
  pose proof (Z.div_mod (PGROUNDUP sz) 4096 ltac:(lia)). lia.
Qed.

Lemma PX_spec level va : 0 <= va -> PX level va = (va / 2 ^ (12 + 9 * Z.of_nat level)) mod 512.
Proof.
  intros. unfold PX, PXSHIFT, PXMASK, PGSHIFT.
  change 0x1FF with (Z.ones 9). rewrite Z.land_ones by lia.
  rewrite Z.shiftr_div_pow2 by lia. done.
Qed.

Lemma PX_range level va : 0 <= PX level va < 512.
Proof.
  unfold PX, PXMASK. change 0x1FF with (Z.ones 9). rewrite Z.land_ones by lia.
  apply Z.mod_pos_bound. lia.
Qed.

#[export] Hint Resolve PX_range PGROUNDDOWN_aligned : sys.

(** The three indices and the page offset determine an address below MAXVA. *)
Lemma PX_decompose va : 0 <= va < MAXVA ->
  va = PX 2 va * 2 ^ 30 + PX 1 va * 2 ^ 21 + PX 0 va * 2 ^ 12 + va mod PGSIZE.
Proof.
  unfold MAXVA. rewrite Z.shiftl_1_l. intros H. rewrite !PX_spec by lia. unfold PGSIZE.
  change (12 + 9 * Z.of_nat 2) with 30. change (12 + 9 * Z.of_nat 1) with 21.
  change (12 + 9 * Z.of_nat 0) with 12. change (9 + 9 + 9 + 12 - 1) with 38 in H.
  change (2 ^ 30) with 1073741824. change (2 ^ 21) with 2097152.
  change (2 ^ 12) with 4096. change (2 ^ 38) with 274877906944 in H.
  pose proof (Z.div_mod va 4096 ltac:(lia)).
  pose proof (Z.mod_pos_bound va 4096 ltac:(lia)).
  assert (va / 2097152 = va / 4096 / 512) as E1 by (rewrite Z.div_div by lia; done).
  assert (va / 1073741824 = va / 4096 / 512 / 512) as E2 by (rewrite !Z.div_div by lia; done).
  rewrite E1, E2.
  set (q := va / 4096) in *.
  pose proof (Z.div_mod q 512 ltac:(lia)). pose proof (Z.mod_pos_bound q 512 ltac:(lia)).
  pose proof (Z.div_mod (q / 512) 512 ltac:(lia)).
  pose proof (Z.mod_pos_bound (q / 512) 512 ltac:(lia)).
  rewrite (Z.mod_small (q / 512 / 512) 512); [lia|].
  split; [|]; lia.
Qed.

(** A PTE keeps the address of a page exactly, whatever flags it carries. *)
Lemma PTE2PA_aligned v : 0 <= v < 2 ^ 64 -> page_aligned (PTE2PA v) /\ 0 <= PTE2PA v.
Proof.
  intros H. unfold PTE2PA, page_aligned, PGSIZE. rewrite Z.shiftr_div_pow2, Z.shiftl_mul_pow2 by lia.
  change (2 ^ 12) with 4096. change (2 ^ 10) with 1024. unfold u64.
  assert (0 <= v / 1024) by (apply Z.div_pos; lia).
  replace (2 ^ 64) with (2 ^ 52 * 4096) by done. rewrite Z.mul_mod_distr_r by lia.
  pose proof (Z.mod_pos_bound (v / 1024) (2 ^ 52) ltac:(lia)). split; [by apply Z.mod_mul|lia].
Qed.

Lemma PTE2PA_PA2PTE pa flags :
  0 <= pa < 2 ^ 56 -> page_aligned pa -> 0 <= flags < 1024 ->
  PTE2PA (Z.lor (PA2PTE pa) flags) = pa /\ PTE_FLAGS (Z.lor (PA2PTE pa) flags) = flags.
Proof.
  intros Hp A Hf. unfold page_aligned, PGSIZE in A.
  pose proof (Z.div_mod pa 4096 ltac:(lia)).
  assert (PA2PTE pa = (pa / 4096) * 1024) as E.
  { unfold PA2PTE. rewrite Z.shiftl_mul_pow2, Z.shiftr_div_pow2 by lia.
    change (2 ^ 12) with 4096. change (2 ^ 10) with 1024. apply u64_small. lia. }
  assert (Z.lor (PA2PTE pa) flags = PA2PTE pa + flags) as F.
  { rewrite <- Z.lxor_lor, Z.add_nocarry_lxor; [done| |].
    all: rewrite E; change 1024 with (2 ^ 10); rewrite <- Z.shiftl_mul_pow2 by lia.
    all: apply Z.bits_inj'; intros i Hi; rewrite Z.land_spec, Z.bits_0, Z.shiftl_spec by lia.
    all: destruct (Z.lt_ge_cases i 10);
      [rewrite Z.testbit_neg_r by lia; done|].
    all: rewrite (Z.bits_above_log2 flags i), andb_false_r; try done; try lia.
    all: destruct (Z.eq_dec flags 0) as [->|]; [simpl; lia|].
    all: apply Z.log2_lt_pow2; [lia|]. 
    all: apply Z.lt_le_trans with (2 ^ 10); [lia|]; apply Z.pow_le_mono_r; lia. }
  rewrite F, E. split.
  - unfold PTE2PA. rewrite Z.shiftl_mul_pow2, Z.shiftr_div_pow2 by lia.
    change (2 ^ 12) with 4096. change (2 ^ 10) with 1024.
    rewrite Z.div_add_l, (Z.div_small flags) by lia. rewrite u64_small by lia. lia.
  - unfold PTE_FLAGS. change 0x3FF with (Z.ones 10). rewrite Z.land_ones by lia.
    change (2 ^ 10) with 1024. rewrite Z.add_comm, Z.mod_add by lia. apply Z.mod_small. lia.
Qed.

(** The valid bit of a PTE built by mappages() or walk(). *)
Lemma has_PTE_V_lor x : has (Z.lor x PTE_V) PTE_V = true.
Proof.
  unfold has. apply negb_true_iff, Z.eqb_neq. intros E.
  apply (f_equal (fun z => Z.testbit z 0)) in E.
  rewrite Z.land_spec, Z.lor_spec in E. change (Z.testbit PTE_V 0) with true in E.
  rewrite orb_true_r in E. done.
Qed.

(** Kernel stacks, with their guard pages, never overlap each other, the
    trampoline or a user address. *)
Lemma KSTACK_disjoint i j : 0 <= i < Z.of_nat NPROC -> 0 <= j < Z.of_nat NPROC -> i <> j ->
  KSTACK i + PGSIZE < KSTACK j \/ KSTACK j + PGSIZE < KSTACK i.
Proof. unfold KSTACK, NPROC, PGSIZE. lia. Qed.
