(* ===== verification/Memory.v ===== *)
(** * Byte-addressed memory and kernel/string.c

    Physical memory is a finite map from addresses to bytes; a byte that was
    never written reads as zero.  [load]/[store] are the little-endian
    multi-byte accesses of the compiled code, and the functions of
    kernel/string.c are transcribed as loops over this memory.  The theorems
    give the effect of every routine on every address, for overlapping
    buffers too. *)

From S2P Require Import Prelude.

Abbreviation mem := (gmap Z Z).

Definition mget (m : mem) (a : Z) : Z := default 0 (m !! a).
Definition mset (m : mem) (a v : Z) : mem := <[a := u8 v]> m.

(** Every byte of the memory is a byte. *)
Definition mem_ok (m : mem) : Prop := forall a, 0 <= mget m a < 256.

Fixpoint load (n : nat) (m : mem) (a : Z) : Z :=
  match n with
  | O => 0
  | S k => mget m a + 256 * load k m (a + 1)
  end.

Fixpoint store (n : nat) (m : mem) (a v : Z) : mem :=
  match n with
  | O => m
  | S k => store k (mset m a v) (a + 1) (v / 256)
  end.

Definition load64 (m : mem) (a : Z) : Z := load 8 m a.
Definition store64 (m : mem) (a v : Z) : mem := store 8 m a v.

Fixpoint read_bytes (m : mem) (a : Z) (n : nat) : list Z :=
  match n with
  | O => []
  | S k => mget m a :: read_bytes m (a + 1) k
  end.

Fixpoint write_bytes (m : mem) (a : Z) (l : list Z) : mem :=
  match l with
  | [] => m
  | b :: l' => write_bytes (mset m a b) (a + 1) l'
  end.

(** The bytes of a C object of [n] bytes holding [v] (little endian). *)
Fixpoint bytes_of (n : nat) (v : Z) : list Z :=
  match n with
  | O => []
  | S k => u8 v :: bytes_of k (v / 256)
  end.

Fixpoint of_bytes (l : list Z) : Z :=
  match l with
  | [] => 0
  | b :: l' => b + 256 * of_bytes l'
  end.

(** ** kernel/string.c *)

Fixpoint memset (m : mem) (dst c : Z) (n : nat) : mem :=
  match n with
  | O => m
  | S k => memset (mset m dst c) (dst + 1) c k
  end.

Fixpoint memcmp (m : mem) (s1 s2 : Z) (n : nat) : Z :=
  match n with
  | O => 0
  | S k =>
      if negb (mget m s1 =? mget m s2) then mget m s1 - mget m s2
      else memcmp m (s1 + 1) (s2 + 1) k
  end.

(** The two loops of memmove(): upwards from the first byte, downwards from
    one past the last. *)
Fixpoint copy_up (m : mem) (d s : Z) (n : nat) : mem :=
  match n with
  | O => m
  | S k => copy_up (mset m d (mget m s)) (d + 1) (s + 1) k
  end.

Fixpoint copy_down (m : mem) (d s : Z) (n : nat) : mem :=
  match n with
  | O => m
  | S k => copy_down (mset m (d - 1) (mget m (s - 1))) (d - 1) (s - 1) k
  end.

Definition memmove (m : mem) (dst src : Z) (n : nat) : mem :=
  if Nat.eqb n 0 then m
  else if ((src <? dst) && (dst <? src + Z.of_nat n))%bool
  then copy_down m (dst + Z.of_nat n) (src + Z.of_nat n) n
  else copy_up m dst src n.

Definition memcpy (m : mem) (dst src : Z) (n : nat) : mem := memmove m dst src n.

Fixpoint strncmp (m : mem) (p q : Z) (n : nat) : Z :=
  match n with
  | O => 0
  | S k =>
      if (negb (mget m p =? 0) && (mget m p =? mget m q))%bool
      then strncmp m (p + 1) (q + 1) k
      else mget m p - mget m q
  end.

(** strncpy(): copy up to and including the NUL, then pad with NULs. *)
Fixpoint strncpy (m : mem) (s t : Z) (n : nat) : mem :=
  match n with
  | O => m
  | S k =>
      let c := mget m t in
      let m' := mset m s c in
      if c =? 0 then memset m' (s + 1) 0 k else strncpy m' (s + 1) (t + 1) k
  end.

(** The loop of safestrcpy() copies at most [n - 1] bytes; [*s = 0] ends it. *)
Fixpoint safestrcpy_loop (m : mem) (s t : Z) (n : nat) : mem :=
  match n with
  | O => mset m s 0
  | S k =>
      let c := mget m t in
      let m' := mset m s c in
      if c =? 0 then mset m' (s + 1) 0 else safestrcpy_loop m' (s + 1) (t + 1) k
  end.

Definition safestrcpy (m : mem) (s t n : Z) : mem :=
  if n <=? 0 then m else safestrcpy_loop m s t (Z.to_nat (n - 1)).

Fixpoint strlen_from (fuel : nat) (m : mem) (s n : Z) : Z :=
  match fuel with
  | O => n
  | S k => if mget m (s + n) =? 0 then n else strlen_from k m s (n + 1)
  end.

(** One more step than there are written bytes reaches a NUL. *)
Definition strlen (m : mem) (s : Z) : Z := strlen_from (S (size m)) m s 0.

(** ** Bytes and words *)

Lemma mget_mset m a v b : mget (mset m a v) b = if decide (a = b) then u8 v else mget m b.
Proof. unfold mget, mset. rewrite lookup_insert. by case_decide. Qed.

Lemma mget_mset_eq m a v : mget (mset m a v) a = u8 v.
Proof. rewrite mget_mset. by rewrite decide_True. Qed.

Lemma mget_mset_ne m a v b : a <> b -> mget (mset m a v) b = mget m b.
Proof. intros. rewrite mget_mset. by rewrite decide_False. Qed.

Lemma u8_byte b : 0 <= b < 256 -> u8 b = b.
Proof. apply u8_small. Qed.

Lemma mem_ok_empty : mem_ok ∅.
Proof. intros a. unfold mget. rewrite lookup_empty. simpl. lia. Qed.

Lemma mem_ok_mset m a v : mem_ok m -> mem_ok (mset m a v).
Proof.
  intros H b. rewrite mget_mset. case_decide; [|apply H].
  pose proof (u8_range v). lia.
Qed.

#[export] Hint Resolve mem_ok_empty mem_ok_mset : sys.

Lemma mem_ok_store n : forall m a v, mem_ok m -> mem_ok (store n m a v).
Proof. induction n; simpl; eauto with sys. Qed.

Lemma mem_ok_write_bytes l : forall m a, mem_ok m -> mem_ok (write_bytes m a l).
Proof. induction l; simpl; eauto with sys. Qed.

Lemma mem_ok_memset n : forall m d c, mem_ok m -> mem_ok (memset m d c n).
Proof. induction n; simpl; eauto with sys. Qed.

#[export] Hint Resolve mem_ok_store mem_ok_write_bytes mem_ok_memset : sys.

Lemma mget_store_out n : forall m a v b,
  b < a \/ a + Z.of_nat n <= b -> mget (store n m a v) b = mget m b.
Proof.
  induction n as [|n IH]; intros m a v b H; [done|]. simpl.
  rewrite IH by lia. apply mget_mset_ne. lia.
Qed.

Lemma load_ext n : forall m m' a,
  (forall b, a <= b < a + Z.of_nat n -> mget m b = mget m' b) -> load n m a = load n m' a.
Proof.
  induction n as [|n IH]; intros m m' a H; [done|]. simpl.
  rewrite (H a) by lia. f_equal. f_equal. apply IH. intros b Hb. apply H. lia.
Qed.

Lemma load_range n : forall m a, mem_ok m -> 0 <= load n m a < 256 ^ Z.of_nat n.
Proof.
  induction n as [|n IH]; intros m a H; [simpl; lia|].
  cbn [load]. rewrite Nat2Z.inj_succ, Z.pow_succ_r by lia.
  specialize (IH m (a + 1) H). pose proof (H a). lia.
Qed.

Lemma load_store_eq n : forall m a v, load n (store n m a v) a = v mod 256 ^ Z.of_nat n.
Proof.
  induction n as [|n IH]; intros m a v.
  - simpl. by rewrite Z.mod_1_r.
  - cbn [load store]. rewrite mget_store_out by lia. rewrite mget_mset_eq, IH.
    rewrite Nat2Z.inj_succ, Z.pow_succ_r by lia.
    rewrite Z.rem_mul_r by (try apply Z.pow_nonzero; try apply Z.pow_pos_nonneg; lia). done.
Qed.

Lemma load_store_ne n k m a v b :
  b + Z.of_nat k <= a \/ a + Z.of_nat n <= b -> load k (store n m a v) b = load k m b.
Proof. intros H. apply load_ext. intros c Hc. apply mget_store_out. lia. Qed.

Lemma load64_store64_eq m a v : 0 <= v < 2 ^ 64 -> load64 (store64 m a v) a = v.
Proof.
  intros H. unfold load64, store64. rewrite load_store_eq.
  change (256 ^ Z.of_nat 8) with (2 ^ 64). by apply Z.mod_small.
Qed.

Lemma load64_store64_ne m a v b :
  b + 8 <= a \/ a + 8 <= b -> load64 (store64 m a v) b = load64 m b.
Proof. intros. by apply load_store_ne. Qed.

Lemma load64_range m a : mem_ok m -> 0 <= load64 m a < 2 ^ 64.
Proof. intros H. apply (load_range 8 m a H). Qed.

Lemma load64_ext m m' a :
  (forall b, a <= b < a + 8 -> mget m b = mget m' b) -> load64 m a = load64 m' a.
Proof. intros H. by apply (load_ext 8). Qed.

Lemma mget_store64_out m a v b : b < a \/ a + 8 <= b -> mget (store64 m a v) b = mget m b.
Proof. intros. by apply (mget_store_out 8). Qed.

Lemma mem_ok_store64 m a v : mem_ok m -> mem_ok (store64 m a v).
Proof. apply mem_ok_store. Qed.

#[export] Hint Resolve load64_range mem_ok_store64 : sys.

(** ** Buffers *)

Lemma length_read_bytes n : forall m a, length (read_bytes m a n) = n.
Proof. induction n; intros; simpl; auto. Qed.

Lemma read_bytes_ext n : forall m m' a,
  (forall b, a <= b < a + Z.of_nat n -> mget m b = mget m' b) ->
  read_bytes m a n = read_bytes m' a n.
Proof.
  induction n as [|n IH]; intros m m' a H; [done|]. simpl. f_equal.
  - apply H. lia.
  - apply IH. intros b Hb. apply H. lia.
Qed.

Lemma read_bytes_map n : forall m a,
  read_bytes m a n = map (fun i => mget m (a + Z.of_nat i)) (seq 0 n).
Proof.
  induction n as [|n IH]; intros m a; [done|]. simpl. f_equal; [f_equal; lia|].
  rewrite IH, <- seq_shift, map_map. apply map_ext. intros i. f_equal. lia.
Qed.

Lemma mget_write_bytes l : forall m a b,
  mget (write_bytes m a l) b =
  if decide (a <= b < a + Z.of_nat (length l)) then u8 (nth (Z.to_nat (b - a)) l 0) else mget m b.
Proof.
  induction l as [|x l IH]; intros m a b; simpl.
  - rewrite decide_False by lia. done.
  - rewrite IH. destruct (decide (a = b)) as [->|Hne].
    + rewrite decide_False, decide_True by lia. rewrite mget_mset_eq, Z.sub_diag. done.
    + case_decide; [rewrite decide_True by lia|rewrite decide_False by lia].
      * replace (Z.to_nat (b - a)) with (S (Z.to_nat (b - (a + 1)))) by lia. done.
      * by apply mget_mset_ne.
Qed.

Lemma mget_write_bytes_out l m a b :
  b < a \/ a + Z.of_nat (length l) <= b -> mget (write_bytes m a l) b = mget m b.
Proof. intros. rewrite mget_write_bytes. by rewrite decide_False by lia. Qed.

Lemma read_write_bytes l : forall m a, Forall (fun b => 0 <= b < 256) l ->
  read_bytes (write_bytes m a l) a (length l) = l.
Proof.
  induction l as [|x l IH]; intros m a H; [done|]. inversion H; subst. simpl. f_equal.
  - rewrite mget_write_bytes_out by lia. rewrite mget_mset_eq. by apply u8_byte.
  - by apply IH.
Qed.

Lemma bytes_of_range n : forall v, Forall (fun b => 0 <= b < 256) (bytes_of n v).
Proof.
  induction n; intros; simpl; constructor; auto. pose proof (u8_range v). lia.
Qed.

Lemma length_bytes_of n : forall v, length (bytes_of n v) = n.
Proof. induction n; intros; simpl; auto. Qed.

Lemma of_bytes_of n : forall v, of_bytes (bytes_of n v) = v mod 256 ^ Z.of_nat n.
Proof.
  induction n as [|n IH]; intros v; [simpl; by rewrite Z.mod_1_r|].
  cbn [bytes_of of_bytes]. rewrite IH.
  rewrite Nat2Z.inj_succ, Z.pow_succ_r by lia.
  rewrite Z.rem_mul_r by (try apply Z.pow_nonzero; try apply Z.pow_pos_nonneg; lia). done.
Qed.

Lemma load_read_bytes n : forall m a, load n m a = of_bytes (read_bytes m a n).
Proof. induction n as [|n IH]; intros; simpl; [done|]. by rewrite IH. Qed.

(** ** What the routines of string.c compute *)

Lemma mget_memset n : forall m d c b,
  mget (memset m d c n) b = if decide (d <= b < d + Z.of_nat n) then u8 c else mget m b.
Proof.
  induction n as [|n IH]; intros m d c b; simpl.
  - by rewrite decide_False by lia.
  - rewrite IH, mget_mset. destruct (decide (d = b)) as [->|].
    + rewrite decide_False by lia. by rewrite decide_True by lia.
    + case_decide; [by rewrite decide_True by lia|by rewrite decide_False by lia].
Qed.

Lemma mget_copy_up n : forall m d s b, mem_ok m -> (d <= s \/ s + Z.of_nat n <= d) ->
  mget (copy_up m d s n) b =
  if decide (d <= b < d + Z.of_nat n) then mget m (s + (b - d)) else mget m b.
Proof.
  induction n as [|n IH]; intros m d s b Hm Hov; simpl.
  - by rewrite decide_False by lia.
  - rewrite IH; [|eauto with sys|lia]. destruct (decide (d = b)) as [->|Hne].
    + rewrite decide_False, decide_True by lia. rewrite mget_mset_eq.
      rewrite u8_byte by apply Hm. f_equal. lia.
    + case_decide; [rewrite decide_True by lia|rewrite decide_False by lia].
      * destruct (decide (d = s)) as [->|].
        -- rewrite mget_mset_ne by lia. f_equal. lia.
        -- rewrite mget_mset_ne by lia. f_equal. lia.
      * by rewrite mget_mset_ne.
Qed.

Lemma mget_copy_down n : forall m d s b, mem_ok m -> s <= d ->
  mget (copy_down m d s n) b =
  if decide (d - Z.of_nat n <= b < d) then mget m (s - (d - b)) else mget m b.
Proof.
  induction n as [|n IH]; intros m d s b Hm Hov; simpl.
  - by rewrite decide_False by lia.
  - rewrite IH; [|eauto with sys|lia]. destruct (decide (d - 1 = b)) as [<-|Hne].
    + rewrite decide_False, decide_True by lia. rewrite mget_mset_eq.
      rewrite u8_byte by apply Hm. f_equal. lia.
    + case_decide; [rewrite decide_True by lia|rewrite decide_False by lia].
      * rewrite mget_mset_ne by lia. f_equal. lia.
      * by rewrite mget_mset_ne.
Qed.

(** memmove() copies the old contents of the source even when the buffers
    overlap, and writes nothing else. *)
Lemma mget_memmove m dst src n b : mem_ok m ->
  mget (memmove m dst src n) b =
  if decide (dst <= b < dst + Z.of_nat n) then mget m (src + (b - dst)) else mget m b.
Proof.
  intros Hm. unfold memmove. destruct (Nat.eqb_spec n 0) as [->|Hn].
  - by rewrite decide_False by lia.
  - case_if.
    + rewrite mget_copy_down by (done || lia).
      case_decide; [rewrite decide_True by lia|rewrite decide_False by lia]; [|done].
      f_equal. lia.
    + apply mget_copy_up; [done|].
      destruct (Z.ltb_spec src dst); [|lia].
      apply andb_false_iff in E as [E|E]; bool_hyps; lia.
Qed.

Lemma mem_ok_memmove m dst src n : mem_ok m -> mem_ok (memmove m dst src n).
Proof. intros H b. rewrite mget_memmove by done. case_decide; apply H. Qed.

#[export] Hint Resolve mem_ok_memmove : sys.

Lemma memcmp_zero n : forall m s1 s2,
  memcmp m s1 s2 n = 0 <-> read_bytes m s1 n = read_bytes m s2 n.
Proof.
  induction n as [|n IH]; intros m s1 s2; simpl; [done|].
  destruct (Z.eqb_spec (mget m s1) (mget m s2)) as [E|E]; simpl.
  - rewrite IH, E. split; [by intros ->|congruence].
  - split; [lia|congruence].
Qed.

(** strncmp() on byte lists: what it computes from the [n] bytes it may read. *)
Fixpoint lstrncmp (n : nat) (p q : list Z) : Z :=
  match n with
  | O => 0
  | S k =>
      let a := hd 0 p in let b := hd 0 q in
      if (negb (a =? 0) && (a =? b))%bool then lstrncmp k (tl p) (tl q) else a - b
  end.

Lemma strncmp_bytes n : forall m p q,
  strncmp m p q n = lstrncmp n (read_bytes m p n) (read_bytes m q n).
Proof. induction n as [|n IH]; intros m p q; simpl; [done|]. case_if; [apply IH|done]. Qed.

(** The C string a byte list starts with: the bytes before the first NUL. *)
Fixpoint cstr (l : list Z) : list Z :=
  match l with
  | [] => []
  | b :: l' => if b =? 0 then [] else b :: cstr l'
  end.

(** strncmp(p, q, n) is zero exactly for equal strings, cut at [n] bytes. *)
Lemma lstrncmp_zero n : forall p q,
  lstrncmp n p q = 0 <-> cstr (take n p) = cstr (take n q).
Proof.
  induction n as [|n IH]; intros p q; [done|]. simpl.
  destruct p as [|a p], q as [|b q]; simpl; try done.
  - destruct (Z.eqb_spec b 0); [subst; done|]. split; [lia|done].
  - destruct (Z.eqb_spec a 0); simpl; [subst; done|]. destruct (Z.eqb_spec a 0); [lia|].
    split; [lia|done].
  - destruct (Z.eqb_spec a 0) as [->|Ha]; simpl.
    + destruct (Z.eqb_spec b 0); [subst; done|]. split; [lia|done].
    + destruct (Z.eqb_spec a b) as [<-|Hab]; simpl.
      * destruct (Z.eqb_spec a 0); [lia|]. rewrite IH. split; [by intros ->|congruence].
      * split; [lia|]. destruct (Z.eqb_spec b 0); congruence.
Qed.

(** strlen() stops at the first NUL, and there is always one to stop at. *)
Lemma strlen_from_spec fuel : forall m s n,
  0 <= n -> (exists k, n <= k < n + Z.of_nat fuel /\ mget m (s + k) = 0) ->
  let r := strlen_from fuel m s n in
  n <= r /\ mget m (s + r) = 0 /\ forall i, n <= i < r -> mget m (s + i) <> 0.
Proof.
  induction fuel as [|fuel IH]; intros m s n Hn [k [Hk Z0]]; [lia|]. simpl.
  destruct (Z.eqb_spec (mget m (s + n)) 0) as [E|E]; [repeat split; auto; lia|].
  assert (n <> k) by (intros ->; done).
  destruct (IH m s (n + 1)) as (A & B & C); [lia|exists k; split; [lia|done]|].
  repeat split; [lia|done|]. intros i Hi. destruct (decide (i = n)) as [->|]; [done|].
  apply C. lia.
Qed.

(** A memory with [size m] written bytes has a NUL in any window one wider. *)
Lemma nul_in_window (m : mem) s :
  exists k, 0 <= k < Z.of_nat (S (size m)) /\ mget m (s + k) = 0.
Proof.
  destruct (decide (Exists (fun i => mget m (s + Z.of_nat i) = 0) (seq 0 (S (size m)))))
    as [[i [Hi%elem_of_seq E]]%Exists_exists|N].
  { exists (Z.of_nat i). split; [lia|done]. }
  exfalso.
  set (keys := (fun i => s + Z.of_nat i) <$> seq 0 (S (size m))).
  assert (list_to_set keys ⊆ dom m) as Sub.
  { intros a Ha. apply elem_of_list_to_set in Ha.
    apply list_elem_of_fmap in Ha as [i [-> Hi]]. apply elem_of_seq in Hi.
    apply elem_of_dom. destruct (m !! (s + Z.of_nat i)) eqn:E; [eauto|].
    exfalso. apply N, Exists_exists. exists i. split; [by apply elem_of_seq|].
    unfold mget. by rewrite E. }
  apply subseteq_size in Sub. rewrite size_dom in Sub.
  assert (NoDup keys) as ND.
  { unfold keys. apply NoDup_fmap_2; [intros x y; lia|apply NoDup_seq]. }
  rewrite (size_list_to_set keys ND) in Sub. unfold keys in Sub.
  rewrite length_fmap, length_seq in Sub. lia.
Qed.

Lemma strlen_spec m s :
  0 <= strlen m s /\ mget m (s + strlen m s) = 0 /\
  forall i, 0 <= i < strlen m s -> mget m (s + i) <> 0.
Proof.
  destruct (nul_in_window m s) as [k [Hk E]].
  apply (strlen_from_spec (S (size m)) m s 0); [lia|]. exists k. split; [lia|done].
Qed.

(** safestrcpy() writes only [s, s + n) and always leaves a NUL in it. *)
Lemma safestrcpy_loop_spec n : forall m s t,
  (forall b, b < s \/ s + Z.of_nat n < b -> mget (safestrcpy_loop m s t n) b = mget m b) /\
  exists i, 0 <= i <= Z.of_nat n /\ mget (safestrcpy_loop m s t n) (s + i) = 0.
Proof.
  induction n as [|n IH]; intros m s t; cbn [safestrcpy_loop].
  - split.
    + intros b Hb. apply mget_mset_ne. lia.
    + exists 0. split; [lia|]. rewrite Z.add_0_r. apply mget_mset_eq.
  - destruct (Z.eqb_spec (mget m t) 0) as [E|E].
    + split.
      * intros b Hb. rewrite !mget_mset_ne by lia. done.
      * exists 1. split; [lia|]. apply mget_mset_eq.
    + destruct (IH (mset m s (mget m t)) (s + 1) (t + 1)) as [A [i [Hi B]]]. split.
      * intros b Hb. rewrite A by lia. apply mget_mset_ne. lia.
      * exists (i + 1). split; [lia|]. rewrite <- B. f_equal. lia.
Qed.

Lemma safestrcpy_terminates m s t n : 0 < n ->
  (forall b, b < s \/ s + n <= b -> mget (safestrcpy m s t n) b = mget m b) /\
  exists i, 0 <= i < n /\ mget (safestrcpy m s t n) (s + i) = 0.
Proof.
  intros Hn. unfold safestrcpy. destruct (Z.leb_spec n 0); [lia|].
  destruct (safestrcpy_loop_spec (Z.to_nat (n - 1)) m s t) as [A [i [Hi B]]].
  split; [intros b Hb; apply A; lia|]. exists i. split; [lia|done].
Qed.

(** Page-sized buffers must not be unrolled by simplification. *)
#[global] Opaque memset memmove copy_up copy_down load64 store64 read_bytes write_bytes.
