(* ===== verification/KState.v ===== *)
(** * Kernel state

    The data structures of the kernel (kernel/proc.h, file.h, fs.h, buf.h,
    sleeplock.h and the file-level structs of kalloc.c, pipe.c, log.c,
    bio.c, console.c, sysproc.c) and the record of all of them that the
    modelled code runs on.  A pointer into a fixed table ([struct proc *],
    [struct file *], [struct inode *], [struct buf *]) is the index of the
    entry; a pointer into a page is its address. *)

From S2P Require Import Prelude Riscv Memory.

#[local] Set Primitive Projections.

(** ** Wait channels and locks

    A sleep channel is the address of an object; a spin lock is named by the
    object it is embedded in. *)

(** Which sleep lock: the one of a buffer or of an inode. *)
Inductive slid := SlBuf (i : nat) | SlInode (i : nat).

Inductive chan :=
| ChProc (p : nat)
| ChTicks
| ChPipeRead (pi : Z)
| ChPipeWrite (pi : Z)
| ChLog
| ChSleeplock (l : slid)
| ChCons
| ChTx
| ChDiskFree
| ChBuf (b : nat).

Inductive lockid :=
| LPid
| LWait
| LProc (p : nat)
| LKmem
| LTicks
| LSharedbuf
| LPipe (pi : Z)
| LFtable
| LItable
| LBcache
| LLog
| LCons
| LPr
| LTx
| LVdisk
| LSleep (l : slid).

#[export] Instance slid_eq_dec : EqDecision slid.
Proof. solve_decision. Defined.
#[export] Instance chan_eq_dec : EqDecision chan.
Proof. solve_decision. Defined.
#[export] Instance lockid_eq_dec : EqDecision lockid.
Proof. solve_decision. Defined.

Definition lock_code (l : lockid) : nat * Z :=
  match l with
  | LPid => (0%nat, 0) | LWait => (1%nat, 0) | LProc p => (2%nat, Z.of_nat p)
  | LKmem => (3%nat, 0) | LTicks => (4%nat, 0) | LSharedbuf => (5%nat, 0)
  | LPipe pi => (6%nat, pi) | LFtable => (7%nat, 0) | LItable => (8%nat, 0)
  | LBcache => (9%nat, 0) | LLog => (10%nat, 0) | LCons => (11%nat, 0)
  | LPr => (12%nat, 0) | LTx => (13%nat, 0) | LVdisk => (14%nat, 0)
  | LSleep (SlBuf i) => (15%nat, Z.of_nat i)
  | LSleep (SlInode i) => (16%nat, Z.of_nat i)
  end.

Definition lock_decode (c : nat * Z) : option lockid :=
  match c with
  | (0%nat, _) => Some LPid | (1%nat, _) => Some LWait
  | (2%nat, z) => Some (LProc (Z.to_nat z))
  | (3%nat, _) => Some LKmem | (4%nat, _) => Some LTicks | (5%nat, _) => Some LSharedbuf
  | (6%nat, z) => Some (LPipe z) | (7%nat, _) => Some LFtable | (8%nat, _) => Some LItable
  | (9%nat, _) => Some LBcache | (10%nat, _) => Some LLog | (11%nat, _) => Some LCons
  | (12%nat, _) => Some LPr | (13%nat, _) => Some LTx | (14%nat, _) => Some LVdisk
  | (15%nat, z) => Some (LSleep (SlBuf (Z.to_nat z)))
  | (16%nat, z) => Some (LSleep (SlInode (Z.to_nat z)))
  | _ => None
  end.

#[export] Instance lockid_countable : Countable lockid.
Proof.
  apply (inj_countable lock_code lock_decode).
  intros [| |p| | | | | | | | | | | | |[i|i]]; simpl; rewrite ?Nat2Z.id; done.
Defined.

(** ** Processes (kernel/proc.h) *)

(** Saved registers for kernel context switches; [ctx_s] is s0 to s11. *)
Record context := mk_context {
  ctx_ra : Z;
  ctx_sp : Z;
  ctx_s : list Z;
}.

Definition set_ctx_ra (v : Z) (r : context) : context :=
  mk_context v (r.(ctx_sp)) (r.(ctx_s)).
Definition set_ctx_sp (v : Z) (r : context) : context :=
  mk_context (r.(ctx_ra)) v (r.(ctx_s)).
Definition set_ctx_s (v : list Z) (r : context) : context :=
  mk_context (r.(ctx_ra)) (r.(ctx_sp)) v.

(** The CPU executing the code: its [struct cpu], its hart id (register tp)
    and whether interrupts are enabled (sstatus.SIE). *)
Record cpu := mk_cpu {
  c_id : Z;
  c_proc : option nat;
  c_noff : Z;
  c_intena : bool;
  c_intr : bool;
}.

Definition set_c_id (v : Z) (r : cpu) : cpu :=
  mk_cpu v (r.(c_proc)) (r.(c_noff)) (r.(c_intena)) (r.(c_intr)).
Definition set_c_proc (v : option nat) (r : cpu) : cpu :=
  mk_cpu (r.(c_id)) v (r.(c_noff)) (r.(c_intena)) (r.(c_intr)).
Definition set_c_noff (v : Z) (r : cpu) : cpu :=
  mk_cpu (r.(c_id)) (r.(c_proc)) v (r.(c_intena)) (r.(c_intr)).
Definition set_c_intena (v : bool) (r : cpu) : cpu :=
  mk_cpu (r.(c_id)) (r.(c_proc)) (r.(c_noff)) v (r.(c_intr)).
Definition set_c_intr (v : bool) (r : cpu) : cpu :=
  mk_cpu (r.(c_id)) (r.(c_proc)) (r.(c_noff)) (r.(c_intena)) v.

(** Byte offsets of the fields of [struct trapframe]. *)
Definition TF_kernel_satp : Z := 0.
Definition TF_kernel_sp : Z := 8.
Definition TF_kernel_trap : Z := 16.
Definition TF_epc : Z := 24.
Definition TF_kernel_hartid : Z := 32.
Definition TF_sp : Z := 48.
Definition TF_a (n : Z) : Z := 112 + 8 * n.
Definition TF_size : nat := 288.

Inductive procstate := UNUSED | USED | SLEEPING | RUNNABLE | RUNNING | ZOMBIE.

#[export] Instance procstate_eq_dec : EqDecision procstate.
Proof. solve_decision. Defined.

(** Per-process state.  [p_parent] and [p_cwd] are table indices. *)
Record proc := mk_proc {
  p_state : procstate;
  p_chan : option chan;
  p_killed : Z;
  p_xstate : Z;
  p_pid : Z;
  p_parent : option nat;
  p_kstack : Z;
  p_sz : Z;
  p_pagetable : Z;
  p_trapframe : Z;
  p_context : context;
  p_ofile : list (option nat);
  p_cwd : option nat;
  p_tickets : Z;
  p_name : list Z;
}.

Definition set_p_state (v : procstate) (r : proc) : proc :=
  mk_proc v (r.(p_chan)) (r.(p_killed)) (r.(p_xstate)) (r.(p_pid)) (r.(p_parent)) (r.(p_kstack)) (r.(p_sz)) (r.(p_pagetable)) (r.(p_trapframe)) (r.(p_context)) (r.(p_ofile)) (r.(p_cwd)) (r.(p_tickets)) (r.(p_name)).
Definition set_p_chan (v : option chan) (r : proc) : proc :=
  mk_proc (r.(p_state)) v (r.(p_killed)) (r.(p_xstate)) (r.(p_pid)) (r.(p_parent)) (r.(p_kstack)) (r.(p_sz)) (r.(p_pagetable)) (r.(p_trapframe)) (r.(p_context)) (r.(p_ofile)) (r.(p_cwd)) (r.(p_tickets)) (r.(p_name)).
Definition set_p_killed (v : Z) (r : proc) : proc :=
  mk_proc (r.(p_state)) (r.(p_chan)) v (r.(p_xstate)) (r.(p_pid)) (r.(p_parent)) (r.(p_kstack)) (r.(p_sz)) (r.(p_pagetable)) (r.(p_trapframe)) (r.(p_context)) (r.(p_ofile)) (r.(p_cwd)) (r.(p_tickets)) (r.(p_name)).
Definition set_p_xstate (v : Z) (r : proc) : proc :=
  mk_proc (r.(p_state)) (r.(p_chan)) (r.(p_killed)) v (r.(p_pid)) (r.(p_parent)) (r.(p_kstack)) (r.(p_sz)) (r.(p_pagetable)) (r.(p_trapframe)) (r.(p_context)) (r.(p_ofile)) (r.(p_cwd)) (r.(p_tickets)) (r.(p_name)).
Definition set_p_pid (v : Z) (r : proc) : proc :=
  mk_proc (r.(p_state)) (r.(p_chan)) (r.(p_killed)) (r.(p_xstate)) v (r.(p_parent)) (r.(p_kstack)) (r.(p_sz)) (r.(p_pagetable)) (r.(p_trapframe)) (r.(p_context)) (r.(p_ofile)) (r.(p_cwd)) (r.(p_tickets)) (r.(p_name)).
Definition set_p_parent (v : option nat) (r : proc) : proc :=
  mk_proc (r.(p_state)) (r.(p_chan)) (r.(p_killed)) (r.(p_xstate)) (r.(p_pid)) v (r.(p_kstack)) (r.(p_sz)) (r.(p_pagetable)) (r.(p_trapframe)) (r.(p_context)) (r.(p_ofile)) (r.(p_cwd)) (r.(p_tickets)) (r.(p_name)).
Definition set_p_kstack (v : Z) (r : proc) : proc :=
  mk_proc (r.(p_state)) (r.(p_chan)) (r.(p_killed)) (r.(p_xstate)) (r.(p_pid)) (r.(p_parent)) v (r.(p_sz)) (r.(p_pagetable)) (r.(p_trapframe)) (r.(p_context)) (r.(p_ofile)) (r.(p_cwd)) (r.(p_tickets)) (r.(p_name)).
Definition set_p_sz (v : Z) (r : proc) : proc :=
  mk_proc (r.(p_state)) (r.(p_chan)) (r.(p_killed)) (r.(p_xstate)) (r.(p_pid)) (r.(p_parent)) (r.(p_kstack)) v (r.(p_pagetable)) (r.(p_trapframe)) (r.(p_context)) (r.(p_ofile)) (r.(p_cwd)) (r.(p_tickets)) (r.(p_name)).
Definition set_p_pagetable (v : Z) (r : proc) : proc :=
  mk_proc (r.(p_state)) (r.(p_chan)) (r.(p_killed)) (r.(p_xstate)) (r.(p_pid)) (r.(p_parent)) (r.(p_kstack)) (r.(p_sz)) v (r.(p_trapframe)) (r.(p_context)) (r.(p_ofile)) (r.(p_cwd)) (r.(p_tickets)) (r.(p_name)).
Definition set_p_trapframe (v : Z) (r : proc) : proc :=
  mk_proc (r.(p_state)) (r.(p_chan)) (r.(p_killed)) (r.(p_xstate)) (r.(p_pid)) (r.(p_parent)) (r.(p_kstack)) (r.(p_sz)) (r.(p_pagetable)) v (r.(p_context)) (r.(p_ofile)) (r.(p_cwd)) (r.(p_tickets)) (r.(p_name)).
Definition set_p_context (v : context) (r : proc) : proc :=
  mk_proc (r.(p_state)) (r.(p_chan)) (r.(p_killed)) (r.(p_xstate)) (r.(p_pid)) (r.(p_parent)) (r.(p_kstack)) (r.(p_sz)) (r.(p_pagetable)) (r.(p_trapframe)) v (r.(p_ofile)) (r.(p_cwd)) (r.(p_tickets)) (r.(p_name)).
Definition set_p_ofile (v : list (option nat)) (r : proc) : proc :=
  mk_proc (r.(p_state)) (r.(p_chan)) (r.(p_killed)) (r.(p_xstate)) (r.(p_pid)) (r.(p_parent)) (r.(p_kstack)) (r.(p_sz)) (r.(p_pagetable)) (r.(p_trapframe)) (r.(p_context)) v (r.(p_cwd)) (r.(p_tickets)) (r.(p_name)).
Definition set_p_cwd (v : option nat) (r : proc) : proc :=
  mk_proc (r.(p_state)) (r.(p_chan)) (r.(p_killed)) (r.(p_xstate)) (r.(p_pid)) (r.(p_parent)) (r.(p_kstack)) (r.(p_sz)) (r.(p_pagetable)) (r.(p_trapframe)) (r.(p_context)) (r.(p_ofile)) v (r.(p_tickets)) (r.(p_name)).
Definition set_p_tickets (v : Z) (r : proc) : proc :=
  mk_proc (r.(p_state)) (r.(p_chan)) (r.(p_killed)) (r.(p_xstate)) (r.(p_pid)) (r.(p_parent)) (r.(p_kstack)) (r.(p_sz)) (r.(p_pagetable)) (r.(p_trapframe)) (r.(p_context)) (r.(p_ofile)) (r.(p_cwd)) v (r.(p_name)).
Definition set_p_name (v : list Z) (r : proc) : proc :=
  mk_proc (r.(p_state)) (r.(p_chan)) (r.(p_killed)) (r.(p_xstate)) (r.(p_pid)) (r.(p_parent)) (r.(p_kstack)) (r.(p_sz)) (r.(p_pagetable)) (r.(p_trapframe)) (r.(p_context)) (r.(p_ofile)) (r.(p_cwd)) (r.(p_tickets)) v.

(** ** Memory allocator (kernel/kalloc.c) *)

(** The free list of pages and the page counters of the memory statistics. *)
Record kmem := mk_kmem {
  km_freelist : Z;
  km_nfree : Z;
  km_nalloc : Z;
}.

Definition set_km_freelist (v : Z) (r : kmem) : kmem :=
  mk_kmem v (r.(km_nfree)) (r.(km_nalloc)).
Definition set_km_nfree (v : Z) (r : kmem) : kmem :=
  mk_kmem (r.(km_freelist)) v (r.(km_nalloc)).
Definition set_km_nalloc (v : Z) (r : kmem) : kmem :=
  mk_kmem (r.(km_freelist)) (r.(km_nfree)) v.

(** ** Producer-consumer buffer (kernel/sysproc.c) *)

(** The shared ring buffer of the produce and consume system calls. *)
Record sharedbuf := mk_sharedbuf {
  sb_buffer : list Z;
  sb_count : Z;
  sb_in : Z;
  sb_out : Z;
  sb_initialized : Z;
  sb_produced_total : Z;
  sb_consumed_total : Z;
}.

Definition set_sb_buffer (v : list Z) (r : sharedbuf) : sharedbuf :=
  mk_sharedbuf v (r.(sb_count)) (r.(sb_in)) (r.(sb_out)) (r.(sb_initialized)) (r.(sb_produced_total)) (r.(sb_consumed_total)).
Definition set_sb_count (v : Z) (r : sharedbuf) : sharedbuf :=
  mk_sharedbuf (r.(sb_buffer)) v (r.(sb_in)) (r.(sb_out)) (r.(sb_initialized)) (r.(sb_produced_total)) (r.(sb_consumed_total)).
Definition set_sb_in (v : Z) (r : sharedbuf) : sharedbuf :=
  mk_sharedbuf (r.(sb_buffer)) (r.(sb_count)) v (r.(sb_out)) (r.(sb_initialized)) (r.(sb_produced_total)) (r.(sb_consumed_total)).
Definition set_sb_out (v : Z) (r : sharedbuf) : sharedbuf :=
  mk_sharedbuf (r.(sb_buffer)) (r.(sb_count)) (r.(sb_in)) v (r.(sb_initialized)) (r.(sb_produced_total)) (r.(sb_consumed_total)).
Definition set_sb_initialized (v : Z) (r : sharedbuf) : sharedbuf :=
  mk_sharedbuf (r.(sb_buffer)) (r.(sb_count)) (r.(sb_in)) (r.(sb_out)) v (r.(sb_produced_total)) (r.(sb_consumed_total)).
Definition set_sb_produced_total (v : Z) (r : sharedbuf) : sharedbuf :=
  mk_sharedbuf (r.(sb_buffer)) (r.(sb_count)) (r.(sb_in)) (r.(sb_out)) (r.(sb_initialized)) v (r.(sb_consumed_total)).
Definition set_sb_consumed_total (v : Z) (r : sharedbuf) : sharedbuf :=
  mk_sharedbuf (r.(sb_buffer)) (r.(sb_count)) (r.(sb_in)) (r.(sb_out)) (r.(sb_initialized)) (r.(sb_produced_total)) v.

(** ** Pipes (kernel/pipe.c) *)

(** A pipe; its page is [struct pipe], kept here as a record by page address. *)
Record pipe := mk_pipe {
  pi_data : list Z;
  pi_nread : Z;
  pi_nwrite : Z;
  pi_readopen : Z;
  pi_writeopen : Z;
}.

Definition set_pi_data (v : list Z) (r : pipe) : pipe :=
  mk_pipe v (r.(pi_nread)) (r.(pi_nwrite)) (r.(pi_readopen)) (r.(pi_writeopen)).
Definition set_pi_nread (v : Z) (r : pipe) : pipe :=
  mk_pipe (r.(pi_data)) v (r.(pi_nwrite)) (r.(pi_readopen)) (r.(pi_writeopen)).
Definition set_pi_nwrite (v : Z) (r : pipe) : pipe :=
  mk_pipe (r.(pi_data)) (r.(pi_nread)) v (r.(pi_readopen)) (r.(pi_writeopen)).
Definition set_pi_readopen (v : Z) (r : pipe) : pipe :=
  mk_pipe (r.(pi_data)) (r.(pi_nread)) (r.(pi_nwrite)) v (r.(pi_writeopen)).
Definition set_pi_writeopen (v : Z) (r : pipe) : pipe :=
  mk_pipe (r.(pi_data)) (r.(pi_nread)) (r.(pi_nwrite)) (r.(pi_readopen)) v.

(** ** Open files (kernel/file.h) *)

Inductive ftype := FD_NONE | FD_PIPE | FD_INODE | FD_DEVICE.

#[export] Instance ftype_eq_dec : EqDecision ftype.
Proof. solve_decision. Defined.

(** An entry of the open-file table. *)
Record file := mk_file {
  f_type : ftype;
  f_ref : Z;
  f_readable : Z;
  f_writable : Z;
  f_pipe : Z;
  f_ip : option nat;
  f_off : Z;
  f_major : Z;
}.

Definition set_f_type (v : ftype) (r : file) : file :=
  mk_file v (r.(f_ref)) (r.(f_readable)) (r.(f_writable)) (r.(f_pipe)) (r.(f_ip)) (r.(f_off)) (r.(f_major)).
Definition set_f_ref (v : Z) (r : file) : file :=
  mk_file (r.(f_type)) v (r.(f_readable)) (r.(f_writable)) (r.(f_pipe)) (r.(f_ip)) (r.(f_off)) (r.(f_major)).
Definition set_f_readable (v : Z) (r : file) : file :=
  mk_file (r.(f_type)) (r.(f_ref)) v (r.(f_writable)) (r.(f_pipe)) (r.(f_ip)) (r.(f_off)) (r.(f_major)).
Definition set_f_writable (v : Z) (r : file) : file :=
  mk_file (r.(f_type)) (r.(f_ref)) (r.(f_readable)) v (r.(f_pipe)) (r.(f_ip)) (r.(f_off)) (r.(f_major)).
Definition set_f_pipe (v : Z) (r : file) : file :=
  mk_file (r.(f_type)) (r.(f_ref)) (r.(f_readable)) (r.(f_writable)) v (r.(f_ip)) (r.(f_off)) (r.(f_major)).
Definition set_f_ip (v : option nat) (r : file) : file :=
  mk_file (r.(f_type)) (r.(f_ref)) (r.(f_readable)) (r.(f_writable)) (r.(f_pipe)) v (r.(f_off)) (r.(f_major)).
Definition set_f_off (v : Z) (r : file) : file :=
  mk_file (r.(f_type)) (r.(f_ref)) (r.(f_readable)) (r.(f_writable)) (r.(f_pipe)) (r.(f_ip)) v (r.(f_major)).
Definition set_f_major (v : Z) (r : file) : file :=
  mk_file (r.(f_type)) (r.(f_ref)) (r.(f_readable)) (r.(f_writable)) (r.(f_pipe)) (r.(f_ip)) (r.(f_off)) v.

(** ** Console input (kernel/console.c) *)

(** The input line buffer with its read, write and edit indices. *)
Record consbuf := mk_consbuf {
  cons_buf : list Z;
  cons_r : Z;
  cons_w : Z;
  cons_e : Z;
}.

Definition set_cons_buf (v : list Z) (r : consbuf) : consbuf :=
  mk_consbuf v (r.(cons_r)) (r.(cons_w)) (r.(cons_e)).
Definition set_cons_r (v : Z) (r : consbuf) : consbuf :=
  mk_consbuf (r.(cons_buf)) v (r.(cons_w)) (r.(cons_e)).
Definition set_cons_w (v : Z) (r : consbuf) : consbuf :=
  mk_consbuf (r.(cons_buf)) (r.(cons_r)) v (r.(cons_e)).
Definition set_cons_e (v : Z) (r : consbuf) : consbuf :=
  mk_consbuf (r.(cons_buf)) (r.(cons_r)) (r.(cons_w)) v.

(** ** Buffer cache, log and inodes (kernel/buf.h, log.c, fs.h, file.h) *)

(** A sleep lock: who holds it.  Its inner spin lock is [LSleep]. *)
Record sleeplock := mk_sleeplock {
  sl_locked : Z;
  sl_pid : Z;
}.

Definition set_sl_locked (v : Z) (r : sleeplock) : sleeplock :=
  mk_sleeplock v (r.(sl_pid)).
Definition set_sl_pid (v : Z) (r : sleeplock) : sleeplock :=
  mk_sleeplock (r.(sl_locked)) v.

(** A cached disk block; [b_prev] and [b_next] link the LRU list, on which
    index [NBUF] is the list head. *)
Record buf := mk_buf {
  b_valid : Z;
  b_disk : Z;
  b_dev : Z;
  b_blockno : Z;
  b_lock : sleeplock;
  b_refcnt : Z;
  b_prev : nat;
  b_next : nat;
  b_data : list Z;
}.

Definition set_b_valid (v : Z) (r : buf) : buf :=
  mk_buf v (r.(b_disk)) (r.(b_dev)) (r.(b_blockno)) (r.(b_lock)) (r.(b_refcnt)) (r.(b_prev)) (r.(b_next)) (r.(b_data)).
Definition set_b_disk (v : Z) (r : buf) : buf :=
  mk_buf (r.(b_valid)) v (r.(b_dev)) (r.(b_blockno)) (r.(b_lock)) (r.(b_refcnt)) (r.(b_prev)) (r.(b_next)) (r.(b_data)).
Definition set_b_dev (v : Z) (r : buf) : buf :=
  mk_buf (r.(b_valid)) (r.(b_disk)) v (r.(b_blockno)) (r.(b_lock)) (r.(b_refcnt)) (r.(b_prev)) (r.(b_next)) (r.(b_data)).
Definition set_b_blockno (v : Z) (r : buf) : buf :=
  mk_buf (r.(b_valid)) (r.(b_disk)) (r.(b_dev)) v (r.(b_lock)) (r.(b_refcnt)) (r.(b_prev)) (r.(b_next)) (r.(b_data)).
Definition set_b_lock (v : sleeplock) (r : buf) : buf :=
  mk_buf (r.(b_valid)) (r.(b_disk)) (r.(b_dev)) (r.(b_blockno)) v (r.(b_refcnt)) (r.(b_prev)) (r.(b_next)) (r.(b_data)).
Definition set_b_refcnt (v : Z) (r : buf) : buf :=
  mk_buf (r.(b_valid)) (r.(b_disk)) (r.(b_dev)) (r.(b_blockno)) (r.(b_lock)) v (r.(b_prev)) (r.(b_next)) (r.(b_data)).
Definition set_b_prev (v : nat) (r : buf) : buf :=
  mk_buf (r.(b_valid)) (r.(b_disk)) (r.(b_dev)) (r.(b_blockno)) (r.(b_lock)) (r.(b_refcnt)) v (r.(b_next)) (r.(b_data)).
Definition set_b_next (v : nat) (r : buf) : buf :=
  mk_buf (r.(b_valid)) (r.(b_disk)) (r.(b_dev)) (r.(b_blockno)) (r.(b_lock)) (r.(b_refcnt)) (r.(b_prev)) v (r.(b_data)).
Definition set_b_data (v : list Z) (r : buf) : buf :=
  mk_buf (r.(b_valid)) (r.(b_disk)) (r.(b_dev)) (r.(b_blockno)) (r.(b_lock)) (r.(b_refcnt)) (r.(b_prev)) (r.(b_next)) v.

(** The on-disk super block. *)
Record superblock := mk_superblock {
  sb_magic : Z;
  sb_size : Z;
  sb_nblocks : Z;
  sb_ninodes : Z;
  sb_nlog : Z;
  sb_logstart : Z;
  sb_inodestart : Z;
  sb_bmapstart : Z;
}.

Definition set_sb_magic (v : Z) (r : superblock) : superblock :=
  mk_superblock v (r.(sb_size)) (r.(sb_nblocks)) (r.(sb_ninodes)) (r.(sb_nlog)) (r.(sb_logstart)) (r.(sb_inodestart)) (r.(sb_bmapstart)).
Definition set_sb_size (v : Z) (r : superblock) : superblock :=
  mk_superblock (r.(sb_magic)) v (r.(sb_nblocks)) (r.(sb_ninodes)) (r.(sb_nlog)) (r.(sb_logstart)) (r.(sb_inodestart)) (r.(sb_bmapstart)).
Definition set_sb_nblocks (v : Z) (r : superblock) : superblock :=
  mk_superblock (r.(sb_magic)) (r.(sb_size)) v (r.(sb_ninodes)) (r.(sb_nlog)) (r.(sb_logstart)) (r.(sb_inodestart)) (r.(sb_bmapstart)).
Definition set_sb_ninodes (v : Z) (r : superblock) : superblock :=
  mk_superblock (r.(sb_magic)) (r.(sb_size)) (r.(sb_nblocks)) v (r.(sb_nlog)) (r.(sb_logstart)) (r.(sb_inodestart)) (r.(sb_bmapstart)).
Definition set_sb_nlog (v : Z) (r : superblock) : superblock :=
  mk_superblock (r.(sb_magic)) (r.(sb_size)) (r.(sb_nblocks)) (r.(sb_ninodes)) v (r.(sb_logstart)) (r.(sb_inodestart)) (r.(sb_bmapstart)).
Definition set_sb_logstart (v : Z) (r : superblock) : superblock :=
  mk_superblock (r.(sb_magic)) (r.(sb_size)) (r.(sb_nblocks)) (r.(sb_ninodes)) (r.(sb_nlog)) v (r.(sb_inodestart)) (r.(sb_bmapstart)).
Definition set_sb_inodestart (v : Z) (r : superblock) : superblock :=
  mk_superblock (r.(sb_magic)) (r.(sb_size)) (r.(sb_nblocks)) (r.(sb_ninodes)) (r.(sb_nlog)) (r.(sb_logstart)) v (r.(sb_bmapstart)).
Definition set_sb_bmapstart (v : Z) (r : superblock) : superblock :=
  mk_superblock (r.(sb_magic)) (r.(sb_size)) (r.(sb_nblocks)) (r.(sb_ninodes)) (r.(sb_nlog)) (r.(sb_logstart)) (r.(sb_inodestart)) v.

(** The in-memory log: [lh_block] has the first [lh_n] block numbers of the
    header. *)
Record logstate := mk_logstate {
  log_start : Z;
  log_outstanding : Z;
  log_committing : Z;
  log_dev : Z;
  lh_n : Z;
  lh_block : list Z;
}.

Definition set_log_start (v : Z) (r : logstate) : logstate :=
  mk_logstate v (r.(log_outstanding)) (r.(log_committing)) (r.(log_dev)) (r.(lh_n)) (r.(lh_block)).
Definition set_log_outstanding (v : Z) (r : logstate) : logstate :=
  mk_logstate (r.(log_start)) v (r.(log_committing)) (r.(log_dev)) (r.(lh_n)) (r.(lh_block)).
Definition set_log_committing (v : Z) (r : logstate) : logstate :=
  mk_logstate (r.(log_start)) (r.(log_outstanding)) v (r.(log_dev)) (r.(lh_n)) (r.(lh_block)).
Definition set_log_dev (v : Z) (r : logstate) : logstate :=
  mk_logstate (r.(log_start)) (r.(log_outstanding)) (r.(log_committing)) v (r.(lh_n)) (r.(lh_block)).
Definition set_lh_n (v : Z) (r : logstate) : logstate :=
  mk_logstate (r.(log_start)) (r.(log_outstanding)) (r.(log_committing)) (r.(log_dev)) v (r.(lh_block)).
Definition set_lh_block (v : list Z) (r : logstate) : logstate :=
  mk_logstate (r.(log_start)) (r.(log_outstanding)) (r.(log_committing)) (r.(log_dev)) (r.(lh_n)) v.

(** The in-memory copy of an inode. *)
Record inode := mk_inode {
  i_dev : Z;
  i_inum : Z;
  i_ref : Z;
  i_lock : sleeplock;
  i_valid : Z;
  i_type : Z;
  i_major : Z;
  i_minor : Z;
  i_nlink : Z;
  i_size : Z;
  i_addrs : list Z;
}.

Definition set_i_dev (v : Z) (r : inode) : inode :=
  mk_inode v (r.(i_inum)) (r.(i_ref)) (r.(i_lock)) (r.(i_valid)) (r.(i_type)) (r.(i_major)) (r.(i_minor)) (r.(i_nlink)) (r.(i_size)) (r.(i_addrs)).
Definition set_i_inum (v : Z) (r : inode) : inode :=
  mk_inode (r.(i_dev)) v (r.(i_ref)) (r.(i_lock)) (r.(i_valid)) (r.(i_type)) (r.(i_major)) (r.(i_minor)) (r.(i_nlink)) (r.(i_size)) (r.(i_addrs)).
Definition set_i_ref (v : Z) (r : inode) : inode :=
  mk_inode (r.(i_dev)) (r.(i_inum)) v (r.(i_lock)) (r.(i_valid)) (r.(i_type)) (r.(i_major)) (r.(i_minor)) (r.(i_nlink)) (r.(i_size)) (r.(i_addrs)).
Definition set_i_lock (v : sleeplock) (r : inode) : inode :=
  mk_inode (r.(i_dev)) (r.(i_inum)) (r.(i_ref)) v (r.(i_valid)) (r.(i_type)) (r.(i_major)) (r.(i_minor)) (r.(i_nlink)) (r.(i_size)) (r.(i_addrs)).
Definition set_i_valid (v : Z) (r : inode) : inode :=
  mk_inode (r.(i_dev)) (r.(i_inum)) (r.(i_ref)) (r.(i_lock)) v (r.(i_type)) (r.(i_major)) (r.(i_minor)) (r.(i_nlink)) (r.(i_size)) (r.(i_addrs)).
Definition set_i_type (v : Z) (r : inode) : inode :=
  mk_inode (r.(i_dev)) (r.(i_inum)) (r.(i_ref)) (r.(i_lock)) (r.(i_valid)) v (r.(i_major)) (r.(i_minor)) (r.(i_nlink)) (r.(i_size)) (r.(i_addrs)).
Definition set_i_major (v : Z) (r : inode) : inode :=
  mk_inode (r.(i_dev)) (r.(i_inum)) (r.(i_ref)) (r.(i_lock)) (r.(i_valid)) (r.(i_type)) v (r.(i_minor)) (r.(i_nlink)) (r.(i_size)) (r.(i_addrs)).
Definition set_i_minor (v : Z) (r : inode) : inode :=
  mk_inode (r.(i_dev)) (r.(i_inum)) (r.(i_ref)) (r.(i_lock)) (r.(i_valid)) (r.(i_type)) (r.(i_major)) v (r.(i_nlink)) (r.(i_size)) (r.(i_addrs)).
Definition set_i_nlink (v : Z) (r : inode) : inode :=
  mk_inode (r.(i_dev)) (r.(i_inum)) (r.(i_ref)) (r.(i_lock)) (r.(i_valid)) (r.(i_type)) (r.(i_major)) (r.(i_minor)) v (r.(i_size)) (r.(i_addrs)).
Definition set_i_size (v : Z) (r : inode) : inode :=
  mk_inode (r.(i_dev)) (r.(i_inum)) (r.(i_ref)) (r.(i_lock)) (r.(i_valid)) (r.(i_type)) (r.(i_major)) (r.(i_minor)) (r.(i_nlink)) v (r.(i_addrs)).
Definition set_i_addrs (v : list Z) (r : inode) : inode :=
  mk_inode (r.(i_dev)) (r.(i_inum)) (r.(i_ref)) (r.(i_lock)) (r.(i_valid)) (r.(i_type)) (r.(i_major)) (r.(i_minor)) (r.(i_nlink)) (r.(i_size)) v.

(** ** Devices and control registers *)

(** The only device driver in the table [devsw] is the console. *)
Inductive device := DevConsole.

(** The control and status registers the code reads or writes. *)
Inductive csr :=
| Sstatus | Sepc | Scause | Stval | Stvec | Satp | Sie | Stimecmp | Time
| Mstatus | Mepc | Medeleg | Mideleg | Mie | Menvcfg | Mcounteren | Mhartid | Pmpaddr0 | Pmpcfg0 | Tp.

#[export] Instance csr_eq_dec : EqDecision csr.
Proof. solve_decision. Defined.

(** What a virtio descriptor points to: a command header, the data of a
    buffer or a status byte. *)
Inductive vaddr := VNull | VOps (i : nat) | VData (b : nat) | VStatus (i : nat).

(** The number of virtio descriptors. *)
Definition NUM : nat := 8.

(** A virtio descriptor. *)
Record vdesc := mk_vdesc {
  vq_addr : vaddr;
  vq_len : Z;
  vq_flags : Z;
  vq_next : Z;
}.

Definition set_vq_addr (v : vaddr) (r : vdesc) : vdesc :=
  mk_vdesc v (r.(vq_len)) (r.(vq_flags)) (r.(vq_next)).
Definition set_vq_len (v : Z) (r : vdesc) : vdesc :=
  mk_vdesc (r.(vq_addr)) v (r.(vq_flags)) (r.(vq_next)).
Definition set_vq_flags (v : Z) (r : vdesc) : vdesc :=
  mk_vdesc (r.(vq_addr)) (r.(vq_len)) v (r.(vq_next)).
Definition set_vq_next (v : Z) (r : vdesc) : vdesc :=
  mk_vdesc (r.(vq_addr)) (r.(vq_len)) (r.(vq_flags)) v.

(** The driver's queues: descriptor table, available and used rings, and the
    driver's own bookkeeping of free descriptors and requests in flight. *)
Record vdisk := mk_vdisk {
  vd_desc : list vdesc;
  vd_avail_idx : Z;
  vd_avail_ring : list Z;
  vd_dev_idx : Z;
  vd_used_ring : list Z;
  vd_free : list Z;
  vd_used_idx : Z;
  vd_info_b : list (option nat);
  vd_status : list Z;
  vd_ops : list (Z * Z);
}.

Definition set_vd_desc (v : list vdesc) (r : vdisk) : vdisk :=
  mk_vdisk v (r.(vd_avail_idx)) (r.(vd_avail_ring)) (r.(vd_dev_idx)) (r.(vd_used_ring)) (r.(vd_free)) (r.(vd_used_idx)) (r.(vd_info_b)) (r.(vd_status)) (r.(vd_ops)).
Definition set_vd_avail_idx (v : Z) (r : vdisk) : vdisk :=
  mk_vdisk (r.(vd_desc)) v (r.(vd_avail_ring)) (r.(vd_dev_idx)) (r.(vd_used_ring)) (r.(vd_free)) (r.(vd_used_idx)) (r.(vd_info_b)) (r.(vd_status)) (r.(vd_ops)).
Definition set_vd_avail_ring (v : list Z) (r : vdisk) : vdisk :=
  mk_vdisk (r.(vd_desc)) (r.(vd_avail_idx)) v (r.(vd_dev_idx)) (r.(vd_used_ring)) (r.(vd_free)) (r.(vd_used_idx)) (r.(vd_info_b)) (r.(vd_status)) (r.(vd_ops)).
Definition set_vd_dev_idx (v : Z) (r : vdisk) : vdisk :=
  mk_vdisk (r.(vd_desc)) (r.(vd_avail_idx)) (r.(vd_avail_ring)) v (r.(vd_used_ring)) (r.(vd_free)) (r.(vd_used_idx)) (r.(vd_info_b)) (r.(vd_status)) (r.(vd_ops)).
Definition set_vd_used_ring (v : list Z) (r : vdisk) : vdisk :=
  mk_vdisk (r.(vd_desc)) (r.(vd_avail_idx)) (r.(vd_avail_ring)) (r.(vd_dev_idx)) v (r.(vd_free)) (r.(vd_used_idx)) (r.(vd_info_b)) (r.(vd_status)) (r.(vd_ops)).
Definition set_vd_free (v : list Z) (r : vdisk) : vdisk :=
  mk_vdisk (r.(vd_desc)) (r.(vd_avail_idx)) (r.(vd_avail_ring)) (r.(vd_dev_idx)) (r.(vd_used_ring)) v (r.(vd_used_idx)) (r.(vd_info_b)) (r.(vd_status)) (r.(vd_ops)).
Definition set_vd_used_idx (v : Z) (r : vdisk) : vdisk :=
  mk_vdisk (r.(vd_desc)) (r.(vd_avail_idx)) (r.(vd_avail_ring)) (r.(vd_dev_idx)) (r.(vd_used_ring)) (r.(vd_free)) v (r.(vd_info_b)) (r.(vd_status)) (r.(vd_ops)).
Definition set_vd_info_b (v : list (option nat)) (r : vdisk) : vdisk :=
  mk_vdisk (r.(vd_desc)) (r.(vd_avail_idx)) (r.(vd_avail_ring)) (r.(vd_dev_idx)) (r.(vd_used_ring)) (r.(vd_free)) (r.(vd_used_idx)) v (r.(vd_status)) (r.(vd_ops)).
Definition set_vd_status (v : list Z) (r : vdisk) : vdisk :=
  mk_vdisk (r.(vd_desc)) (r.(vd_avail_idx)) (r.(vd_avail_ring)) (r.(vd_dev_idx)) (r.(vd_used_ring)) (r.(vd_free)) (r.(vd_used_idx)) (r.(vd_info_b)) v (r.(vd_ops)).
Definition set_vd_ops (v : list (Z * Z)) (r : vdisk) : vdisk :=
  mk_vdisk (r.(vd_desc)) (r.(vd_avail_idx)) (r.(vd_avail_ring)) (r.(vd_dev_idx)) (r.(vd_used_ring)) (r.(vd_free)) (r.(vd_used_idx)) (r.(vd_info_b)) (r.(vd_status)) v.

(** ** The whole kernel state *)

(** One record of all the state the modelled code reads and writes.
    [k_locks] has the spin locks that are held, each with the hart that holds
    it; [k_disk] is the contents of the disk by block number, [k_dlog] the
    block writes the disk has performed, oldest first, and [k_out] the
    characters sent to the UART, newest first; [k_rx] is the input waiting in
    the UART, [k_first] the static variable of forkret(), [k_kpgtbl] the
    kernel's page table, [k_csr] the control registers of the hart and [k_mmio]
    the writes to memory-mapped control registers (address and value), newest
    first; [k_started] is the flag of main() for the other harts. *)
Record kstate := mk_kstate {
  k_cpu : cpu;
  k_locks : gmap lockid Z;
  k_mem : gmap Z Z;
  k_kmem : kmem;
  k_procs : list proc;
  k_initproc : option nat;
  k_nextpid : Z;
  k_rand : Z;
  k_ticks : Z;
  k_sharedbuf : sharedbuf;
  k_pipes : gmap Z pipe;
  k_ftable : list file;
  k_cons : consbuf;
  k_out : list Z;
  k_sb : superblock;
  k_log : logstate;
  k_bufs : list buf;
  k_itable : list inode;
  k_disk : gmap Z (list Z);
  k_dlog : list (Z * list Z);
  k_panicking : Z;
  k_tx_busy : Z;
  k_rx : list Z;
  k_first : bool;
  k_kpgtbl : Z;
  k_devsw : list (option device);
  k_csr : csr -> Z;
  k_vdisk : vdisk;
  k_mmio : list (Z * Z);
  k_started : Z;
}.

Definition set_k_cpu (v : cpu) (r : kstate) : kstate :=
  mk_kstate v (r.(k_locks)) (r.(k_mem)) (r.(k_kmem)) (r.(k_procs)) (r.(k_initproc)) (r.(k_nextpid)) (r.(k_rand)) (r.(k_ticks)) (r.(k_sharedbuf)) (r.(k_pipes)) (r.(k_ftable)) (r.(k_cons)) (r.(k_out)) (r.(k_sb)) (r.(k_log)) (r.(k_bufs)) (r.(k_itable)) (r.(k_disk)) (r.(k_dlog)) (r.(k_panicking)) (r.(k_tx_busy)) (r.(k_rx)) (r.(k_first)) (r.(k_kpgtbl)) (r.(k_devsw)) (r.(k_csr)) (r.(k_vdisk)) (r.(k_mmio)) (r.(k_started)).
Definition set_k_locks (v : gmap lockid Z) (r : kstate) : kstate :=
  mk_kstate (r.(k_cpu)) v (r.(k_mem)) (r.(k_kmem)) (r.(k_procs)) (r.(k_initproc)) (r.(k_nextpid)) (r.(k_rand)) (r.(k_ticks)) (r.(k_sharedbuf)) (r.(k_pipes)) (r.(k_ftable)) (r.(k_cons)) (r.(k_out)) (r.(k_sb)) (r.(k_log)) (r.(k_bufs)) (r.(k_itable)) (r.(k_disk)) (r.(k_dlog)) (r.(k_panicking)) (r.(k_tx_busy)) (r.(k_rx)) (r.(k_first)) (r.(k_kpgtbl)) (r.(k_devsw)) (r.(k_csr)) (r.(k_vdisk)) (r.(k_mmio)) (r.(k_started)).
Definition set_k_mem (v : gmap Z Z) (r : kstate) : kstate :=
  mk_kstate (r.(k_cpu)) (r.(k_locks)) v (r.(k_kmem)) (r.(k_procs)) (r.(k_initproc)) (r.(k_nextpid)) (r.(k_rand)) (r.(k_ticks)) (r.(k_sharedbuf)) (r.(k_pipes)) (r.(k_ftable)) (r.(k_cons)) (r.(k_out)) (r.(k_sb)) (r.(k_log)) (r.(k_bufs)) (r.(k_itable)) (r.(k_disk)) (r.(k_dlog)) (r.(k_panicking)) (r.(k_tx_busy)) (r.(k_rx)) (r.(k_first)) (r.(k_kpgtbl)) (r.(k_devsw)) (r.(k_csr)) (r.(k_vdisk)) (r.(k_mmio)) (r.(k_started)).
Definition set_k_kmem (v : kmem) (r : kstate) : kstate :=
  mk_kstate (r.(k_cpu)) (r.(k_locks)) (r.(k_mem)) v (r.(k_procs)) (r.(k_initproc)) (r.(k_nextpid)) (r.(k_rand)) (r.(k_ticks)) (r.(k_sharedbuf)) (r.(k_pipes)) (r.(k_ftable)) (r.(k_cons)) (r.(k_out)) (r.(k_sb)) (r.(k_log)) (r.(k_bufs)) (r.(k_itable)) (r.(k_disk)) (r.(k_dlog)) (r.(k_panicking)) (r.(k_tx_busy)) (r.(k_rx)) (r.(k_first)) (r.(k_kpgtbl)) (r.(k_devsw)) (r.(k_csr)) (r.(k_vdisk)) (r.(k_mmio)) (r.(k_started)).
Definition set_k_procs (v : list proc) (r : kstate) : kstate :=
  mk_kstate (r.(k_cpu)) (r.(k_locks)) (r.(k_mem)) (r.(k_kmem)) v (r.(k_initproc)) (r.(k_nextpid)) (r.(k_rand)) (r.(k_ticks)) (r.(k_sharedbuf)) (r.(k_pipes)) (r.(k_ftable)) (r.(k_cons)) (r.(k_out)) (r.(k_sb)) (r.(k_log)) (r.(k_bufs)) (r.(k_itable)) (r.(k_disk)) (r.(k_dlog)) (r.(k_panicking)) (r.(k_tx_busy)) (r.(k_rx)) (r.(k_first)) (r.(k_kpgtbl)) (r.(k_devsw)) (r.(k_csr)) (r.(k_vdisk)) (r.(k_mmio)) (r.(k_started)).
Definition set_k_initproc (v : option nat) (r : kstate) : kstate :=
  mk_kstate (r.(k_cpu)) (r.(k_locks)) (r.(k_mem)) (r.(k_kmem)) (r.(k_procs)) v (r.(k_nextpid)) (r.(k_rand)) (r.(k_ticks)) (r.(k_sharedbuf)) (r.(k_pipes)) (r.(k_ftable)) (r.(k_cons)) (r.(k_out)) (r.(k_sb)) (r.(k_log)) (r.(k_bufs)) (r.(k_itable)) (r.(k_disk)) (r.(k_dlog)) (r.(k_panicking)) (r.(k_tx_busy)) (r.(k_rx)) (r.(k_first)) (r.(k_kpgtbl)) (r.(k_devsw)) (r.(k_csr)) (r.(k_vdisk)) (r.(k_mmio)) (r.(k_started)).
Definition set_k_nextpid (v : Z) (r : kstate) : kstate :=
  mk_kstate (r.(k_cpu)) (r.(k_locks)) (r.(k_mem)) (r.(k_kmem)) (r.(k_procs)) (r.(k_initproc)) v (r.(k_rand)) (r.(k_ticks)) (r.(k_sharedbuf)) (r.(k_pipes)) (r.(k_ftable)) (r.(k_cons)) (r.(k_out)) (r.(k_sb)) (r.(k_log)) (r.(k_bufs)) (r.(k_itable)) (r.(k_disk)) (r.(k_dlog)) (r.(k_panicking)) (r.(k_tx_busy)) (r.(k_rx)) (r.(k_first)) (r.(k_kpgtbl)) (r.(k_devsw)) (r.(k_csr)) (r.(k_vdisk)) (r.(k_mmio)) (r.(k_started)).
Definition set_k_rand (v : Z) (r : kstate) : kstate :=
  mk_kstate (r.(k_cpu)) (r.(k_locks)) (r.(k_mem)) (r.(k_kmem)) (r.(k_procs)) (r.(k_initproc)) (r.(k_nextpid)) v (r.(k_ticks)) (r.(k_sharedbuf)) (r.(k_pipes)) (r.(k_ftable)) (r.(k_cons)) (r.(k_out)) (r.(k_sb)) (r.(k_log)) (r.(k_bufs)) (r.(k_itable)) (r.(k_disk)) (r.(k_dlog)) (r.(k_panicking)) (r.(k_tx_busy)) (r.(k_rx)) (r.(k_first)) (r.(k_kpgtbl)) (r.(k_devsw)) (r.(k_csr)) (r.(k_vdisk)) (r.(k_mmio)) (r.(k_started)).
Definition set_k_ticks (v : Z) (r : kstate) : kstate :=
  mk_kstate (r.(k_cpu)) (r.(k_locks)) (r.(k_mem)) (r.(k_kmem)) (r.(k_procs)) (r.(k_initproc)) (r.(k_nextpid)) (r.(k_rand)) v (r.(k_sharedbuf)) (r.(k_pipes)) (r.(k_ftable)) (r.(k_cons)) (r.(k_out)) (r.(k_sb)) (r.(k_log)) (r.(k_bufs)) (r.(k_itable)) (r.(k_disk)) (r.(k_dlog)) (r.(k_panicking)) (r.(k_tx_busy)) (r.(k_rx)) (r.(k_first)) (r.(k_kpgtbl)) (r.(k_devsw)) (r.(k_csr)) (r.(k_vdisk)) (r.(k_mmio)) (r.(k_started)).
Definition set_k_sharedbuf (v : sharedbuf) (r : kstate) : kstate :=
  mk_kstate (r.(k_cpu)) (r.(k_locks)) (r.(k_mem)) (r.(k_kmem)) (r.(k_procs)) (r.(k_initproc)) (r.(k_nextpid)) (r.(k_rand)) (r.(k_ticks)) v (r.(k_pipes)) (r.(k_ftable)) (r.(k_cons)) (r.(k_out)) (r.(k_sb)) (r.(k_log)) (r.(k_bufs)) (r.(k_itable)) (r.(k_disk)) (r.(k_dlog)) (r.(k_panicking)) (r.(k_tx_busy)) (r.(k_rx)) (r.(k_first)) (r.(k_kpgtbl)) (r.(k_devsw)) (r.(k_csr)) (r.(k_vdisk)) (r.(k_mmio)) (r.(k_started)).
Definition set_k_pipes (v : gmap Z pipe) (r : kstate) : kstate :=
  mk_kstate (r.(k_cpu)) (r.(k_locks)) (r.(k_mem)) (r.(k_kmem)) (r.(k_procs)) (r.(k_initproc)) (r.(k_nextpid)) (r.(k_rand)) (r.(k_ticks)) (r.(k_sharedbuf)) v (r.(k_ftable)) (r.(k_cons)) (r.(k_out)) (r.(k_sb)) (r.(k_log)) (r.(k_bufs)) (r.(k_itable)) (r.(k_disk)) (r.(k_dlog)) (r.(k_panicking)) (r.(k_tx_busy)) (r.(k_rx)) (r.(k_first)) (r.(k_kpgtbl)) (r.(k_devsw)) (r.(k_csr)) (r.(k_vdisk)) (r.(k_mmio)) (r.(k_started)).
Definition set_k_ftable (v : list file) (r : kstate) : kstate :=
  mk_kstate (r.(k_cpu)) (r.(k_locks)) (r.(k_mem)) (r.(k_kmem)) (r.(k_procs)) (r.(k_initproc)) (r.(k_nextpid)) (r.(k_rand)) (r.(k_ticks)) (r.(k_sharedbuf)) (r.(k_pipes)) v (r.(k_cons)) (r.(k_out)) (r.(k_sb)) (r.(k_log)) (r.(k_bufs)) (r.(k_itable)) (r.(k_disk)) (r.(k_dlog)) (r.(k_panicking)) (r.(k_tx_busy)) (r.(k_rx)) (r.(k_first)) (r.(k_kpgtbl)) (r.(k_devsw)) (r.(k_csr)) (r.(k_vdisk)) (r.(k_mmio)) (r.(k_started)).
Definition set_k_cons (v : consbuf) (r : kstate) : kstate :=
  mk_kstate (r.(k_cpu)) (r.(k_locks)) (r.(k_mem)) (r.(k_kmem)) (r.(k_procs)) (r.(k_initproc)) (r.(k_nextpid)) (r.(k_rand)) (r.(k_ticks)) (r.(k_sharedbuf)) (r.(k_pipes)) (r.(k_ftable)) v (r.(k_out)) (r.(k_sb)) (r.(k_log)) (r.(k_bufs)) (r.(k_itable)) (r.(k_disk)) (r.(k_dlog)) (r.(k_panicking)) (r.(k_tx_busy)) (r.(k_rx)) (r.(k_first)) (r.(k_kpgtbl)) (r.(k_devsw)) (r.(k_csr)) (r.(k_vdisk)) (r.(k_mmio)) (r.(k_started)).
Definition set_k_out (v : list Z) (r : kstate) : kstate :=
  mk_kstate (r.(k_cpu)) (r.(k_locks)) (r.(k_mem)) (r.(k_kmem)) (r.(k_procs)) (r.(k_initproc)) (r.(k_nextpid)) (r.(k_rand)) (r.(k_ticks)) (r.(k_sharedbuf)) (r.(k_pipes)) (r.(k_ftable)) (r.(k_cons)) v (r.(k_sb)) (r.(k_log)) (r.(k_bufs)) (r.(k_itable)) (r.(k_disk)) (r.(k_dlog)) (r.(k_panicking)) (r.(k_tx_busy)) (r.(k_rx)) (r.(k_first)) (r.(k_kpgtbl)) (r.(k_devsw)) (r.(k_csr)) (r.(k_vdisk)) (r.(k_mmio)) (r.(k_started)).
Definition set_k_sb (v : superblock) (r : kstate) : kstate :=
  mk_kstate (r.(k_cpu)) (r.(k_locks)) (r.(k_mem)) (r.(k_kmem)) (r.(k_procs)) (r.(k_initproc)) (r.(k_nextpid)) (r.(k_rand)) (r.(k_ticks)) (r.(k_sharedbuf)) (r.(k_pipes)) (r.(k_ftable)) (r.(k_cons)) (r.(k_out)) v (r.(k_log)) (r.(k_bufs)) (r.(k_itable)) (r.(k_disk)) (r.(k_dlog)) (r.(k_panicking)) (r.(k_tx_busy)) (r.(k_rx)) (r.(k_first)) (r.(k_kpgtbl)) (r.(k_devsw)) (r.(k_csr)) (r.(k_vdisk)) (r.(k_mmio)) (r.(k_started)).
Definition set_k_log (v : logstate) (r : kstate) : kstate :=
  mk_kstate (r.(k_cpu)) (r.(k_locks)) (r.(k_mem)) (r.(k_kmem)) (r.(k_procs)) (r.(k_initproc)) (r.(k_nextpid)) (r.(k_rand)) (r.(k_ticks)) (r.(k_sharedbuf)) (r.(k_pipes)) (r.(k_ftable)) (r.(k_cons)) (r.(k_out)) (r.(k_sb)) v (r.(k_bufs)) (r.(k_itable)) (r.(k_disk)) (r.(k_dlog)) (r.(k_panicking)) (r.(k_tx_busy)) (r.(k_rx)) (r.(k_first)) (r.(k_kpgtbl)) (r.(k_devsw)) (r.(k_csr)) (r.(k_vdisk)) (r.(k_mmio)) (r.(k_started)).
Definition set_k_bufs (v : list buf) (r : kstate) : kstate :=
  mk_kstate (r.(k_cpu)) (r.(k_locks)) (r.(k_mem)) (r.(k_kmem)) (r.(k_procs)) (r.(k_initproc)) (r.(k_nextpid)) (r.(k_rand)) (r.(k_ticks)) (r.(k_sharedbuf)) (r.(k_pipes)) (r.(k_ftable)) (r.(k_cons)) (r.(k_out)) (r.(k_sb)) (r.(k_log)) v (r.(k_itable)) (r.(k_disk)) (r.(k_dlog)) (r.(k_panicking)) (r.(k_tx_busy)) (r.(k_rx)) (r.(k_first)) (r.(k_kpgtbl)) (r.(k_devsw)) (r.(k_csr)) (r.(k_vdisk)) (r.(k_mmio)) (r.(k_started)).
Definition set_k_itable (v : list inode) (r : kstate) : kstate :=
  mk_kstate (r.(k_cpu)) (r.(k_locks)) (r.(k_mem)) (r.(k_kmem)) (r.(k_procs)) (r.(k_initproc)) (r.(k_nextpid)) (r.(k_rand)) (r.(k_ticks)) (r.(k_sharedbuf)) (r.(k_pipes)) (r.(k_ftable)) (r.(k_cons)) (r.(k_out)) (r.(k_sb)) (r.(k_log)) (r.(k_bufs)) v (r.(k_disk)) (r.(k_dlog)) (r.(k_panicking)) (r.(k_tx_busy)) (r.(k_rx)) (r.(k_first)) (r.(k_kpgtbl)) (r.(k_devsw)) (r.(k_csr)) (r.(k_vdisk)) (r.(k_mmio)) (r.(k_started)).
Definition set_k_disk (v : gmap Z (list Z)) (r : kstate) : kstate :=
  mk_kstate (r.(k_cpu)) (r.(k_locks)) (r.(k_mem)) (r.(k_kmem)) (r.(k_procs)) (r.(k_initproc)) (r.(k_nextpid)) (r.(k_rand)) (r.(k_ticks)) (r.(k_sharedbuf)) (r.(k_pipes)) (r.(k_ftable)) (r.(k_cons)) (r.(k_out)) (r.(k_sb)) (r.(k_log)) (r.(k_bufs)) (r.(k_itable)) v (r.(k_dlog)) (r.(k_panicking)) (r.(k_tx_busy)) (r.(k_rx)) (r.(k_first)) (r.(k_kpgtbl)) (r.(k_devsw)) (r.(k_csr)) (r.(k_vdisk)) (r.(k_mmio)) (r.(k_started)).
Definition set_k_dlog (v : list (Z * list Z)) (r : kstate) : kstate :=
  mk_kstate (r.(k_cpu)) (r.(k_locks)) (r.(k_mem)) (r.(k_kmem)) (r.(k_procs)) (r.(k_initproc)) (r.(k_nextpid)) (r.(k_rand)) (r.(k_ticks)) (r.(k_sharedbuf)) (r.(k_pipes)) (r.(k_ftable)) (r.(k_cons)) (r.(k_out)) (r.(k_sb)) (r.(k_log)) (r.(k_bufs)) (r.(k_itable)) (r.(k_disk)) v (r.(k_panicking)) (r.(k_tx_busy)) (r.(k_rx)) (r.(k_first)) (r.(k_kpgtbl)) (r.(k_devsw)) (r.(k_csr)) (r.(k_vdisk)) (r.(k_mmio)) (r.(k_started)).
Definition set_k_panicking (v : Z) (r : kstate) : kstate :=
  mk_kstate (r.(k_cpu)) (r.(k_locks)) (r.(k_mem)) (r.(k_kmem)) (r.(k_procs)) (r.(k_initproc)) (r.(k_nextpid)) (r.(k_rand)) (r.(k_ticks)) (r.(k_sharedbuf)) (r.(k_pipes)) (r.(k_ftable)) (r.(k_cons)) (r.(k_out)) (r.(k_sb)) (r.(k_log)) (r.(k_bufs)) (r.(k_itable)) (r.(k_disk)) (r.(k_dlog)) v (r.(k_tx_busy)) (r.(k_rx)) (r.(k_first)) (r.(k_kpgtbl)) (r.(k_devsw)) (r.(k_csr)) (r.(k_vdisk)) (r.(k_mmio)) (r.(k_started)).
Definition set_k_tx_busy (v : Z) (r : kstate) : kstate :=
  mk_kstate (r.(k_cpu)) (r.(k_locks)) (r.(k_mem)) (r.(k_kmem)) (r.(k_procs)) (r.(k_initproc)) (r.(k_nextpid)) (r.(k_rand)) (r.(k_ticks)) (r.(k_sharedbuf)) (r.(k_pipes)) (r.(k_ftable)) (r.(k_cons)) (r.(k_out)) (r.(k_sb)) (r.(k_log)) (r.(k_bufs)) (r.(k_itable)) (r.(k_disk)) (r.(k_dlog)) (r.(k_panicking)) v (r.(k_rx)) (r.(k_first)) (r.(k_kpgtbl)) (r.(k_devsw)) (r.(k_csr)) (r.(k_vdisk)) (r.(k_mmio)) (r.(k_started)).
Definition set_k_rx (v : list Z) (r : kstate) : kstate :=
  mk_kstate (r.(k_cpu)) (r.(k_locks)) (r.(k_mem)) (r.(k_kmem)) (r.(k_procs)) (r.(k_initproc)) (r.(k_nextpid)) (r.(k_rand)) (r.(k_ticks)) (r.(k_sharedbuf)) (r.(k_pipes)) (r.(k_ftable)) (r.(k_cons)) (r.(k_out)) (r.(k_sb)) (r.(k_log)) (r.(k_bufs)) (r.(k_itable)) (r.(k_disk)) (r.(k_dlog)) (r.(k_panicking)) (r.(k_tx_busy)) v (r.(k_first)) (r.(k_kpgtbl)) (r.(k_devsw)) (r.(k_csr)) (r.(k_vdisk)) (r.(k_mmio)) (r.(k_started)).
Definition set_k_first (v : bool) (r : kstate) : kstate :=
  mk_kstate (r.(k_cpu)) (r.(k_locks)) (r.(k_mem)) (r.(k_kmem)) (r.(k_procs)) (r.(k_initproc)) (r.(k_nextpid)) (r.(k_rand)) (r.(k_ticks)) (r.(k_sharedbuf)) (r.(k_pipes)) (r.(k_ftable)) (r.(k_cons)) (r.(k_out)) (r.(k_sb)) (r.(k_log)) (r.(k_bufs)) (r.(k_itable)) (r.(k_disk)) (r.(k_dlog)) (r.(k_panicking)) (r.(k_tx_busy)) (r.(k_rx)) v (r.(k_kpgtbl)) (r.(k_devsw)) (r.(k_csr)) (r.(k_vdisk)) (r.(k_mmio)) (r.(k_started)).
Definition set_k_kpgtbl (v : Z) (r : kstate) : kstate :=
  mk_kstate (r.(k_cpu)) (r.(k_locks)) (r.(k_mem)) (r.(k_kmem)) (r.(k_procs)) (r.(k_initproc)) (r.(k_nextpid)) (r.(k_rand)) (r.(k_ticks)) (r.(k_sharedbuf)) (r.(k_pipes)) (r.(k_ftable)) (r.(k_cons)) (r.(k_out)) (r.(k_sb)) (r.(k_log)) (r.(k_bufs)) (r.(k_itable)) (r.(k_disk)) (r.(k_dlog)) (r.(k_panicking)) (r.(k_tx_busy)) (r.(k_rx)) (r.(k_first)) v (r.(k_devsw)) (r.(k_csr)) (r.(k_vdisk)) (r.(k_mmio)) (r.(k_started)).
Definition set_k_devsw (v : list (option device)) (r : kstate) : kstate :=
  mk_kstate (r.(k_cpu)) (r.(k_locks)) (r.(k_mem)) (r.(k_kmem)) (r.(k_procs)) (r.(k_initproc)) (r.(k_nextpid)) (r.(k_rand)) (r.(k_ticks)) (r.(k_sharedbuf)) (r.(k_pipes)) (r.(k_ftable)) (r.(k_cons)) (r.(k_out)) (r.(k_sb)) (r.(k_log)) (r.(k_bufs)) (r.(k_itable)) (r.(k_disk)) (r.(k_dlog)) (r.(k_panicking)) (r.(k_tx_busy)) (r.(k_rx)) (r.(k_first)) (r.(k_kpgtbl)) v (r.(k_csr)) (r.(k_vdisk)) (r.(k_mmio)) (r.(k_started)).
Definition set_k_csr (v : csr -> Z) (r : kstate) : kstate :=
  mk_kstate (r.(k_cpu)) (r.(k_locks)) (r.(k_mem)) (r.(k_kmem)) (r.(k_procs)) (r.(k_initproc)) (r.(k_nextpid)) (r.(k_rand)) (r.(k_ticks)) (r.(k_sharedbuf)) (r.(k_pipes)) (r.(k_ftable)) (r.(k_cons)) (r.(k_out)) (r.(k_sb)) (r.(k_log)) (r.(k_bufs)) (r.(k_itable)) (r.(k_disk)) (r.(k_dlog)) (r.(k_panicking)) (r.(k_tx_busy)) (r.(k_rx)) (r.(k_first)) (r.(k_kpgtbl)) (r.(k_devsw)) v (r.(k_vdisk)) (r.(k_mmio)) (r.(k_started)).
Definition set_k_vdisk (v : vdisk) (r : kstate) : kstate :=
  mk_kstate (r.(k_cpu)) (r.(k_locks)) (r.(k_mem)) (r.(k_kmem)) (r.(k_procs)) (r.(k_initproc)) (r.(k_nextpid)) (r.(k_rand)) (r.(k_ticks)) (r.(k_sharedbuf)) (r.(k_pipes)) (r.(k_ftable)) (r.(k_cons)) (r.(k_out)) (r.(k_sb)) (r.(k_log)) (r.(k_bufs)) (r.(k_itable)) (r.(k_disk)) (r.(k_dlog)) (r.(k_panicking)) (r.(k_tx_busy)) (r.(k_rx)) (r.(k_first)) (r.(k_kpgtbl)) (r.(k_devsw)) (r.(k_csr)) v (r.(k_mmio)) (r.(k_started)).
Definition set_k_mmio (v : list (Z * Z)) (r : kstate) : kstate :=
  mk_kstate (r.(k_cpu)) (r.(k_locks)) (r.(k_mem)) (r.(k_kmem)) (r.(k_procs)) (r.(k_initproc)) (r.(k_nextpid)) (r.(k_rand)) (r.(k_ticks)) (r.(k_sharedbuf)) (r.(k_pipes)) (r.(k_ftable)) (r.(k_cons)) (r.(k_out)) (r.(k_sb)) (r.(k_log)) (r.(k_bufs)) (r.(k_itable)) (r.(k_disk)) (r.(k_dlog)) (r.(k_panicking)) (r.(k_tx_busy)) (r.(k_rx)) (r.(k_first)) (r.(k_kpgtbl)) (r.(k_devsw)) (r.(k_csr)) (r.(k_vdisk)) v (r.(k_started)).
Definition set_k_started (v : Z) (r : kstate) : kstate :=
  mk_kstate (r.(k_cpu)) (r.(k_locks)) (r.(k_mem)) (r.(k_kmem)) (r.(k_procs)) (r.(k_initproc)) (r.(k_nextpid)) (r.(k_rand)) (r.(k_ticks)) (r.(k_sharedbuf)) (r.(k_pipes)) (r.(k_ftable)) (r.(k_cons)) (r.(k_out)) (r.(k_sb)) (r.(k_log)) (r.(k_bufs)) (r.(k_itable)) (r.(k_disk)) (r.(k_dlog)) (r.(k_panicking)) (r.(k_tx_busy)) (r.(k_rx)) (r.(k_first)) (r.(k_kpgtbl)) (r.(k_devsw)) (r.(k_csr)) (r.(k_vdisk)) (r.(k_mmio)) v.

(** Addresses fixed by the linker script and the assembly files. *)
Class Layout := {
  kend : Z;           (** [end], the first address after the kernel *)
  ketext : Z;         (** [etext], the end of the kernel text *)
  ktrampoline : Z;    (** the trampoline page *)
  kuservec : Z;       (** [uservec], in the trampoline page *)
  kuserret : Z;       (** [userret], in the trampoline page *)
  kforkret : Z;       (** code address of forkret() *)
  kusertrap : Z;      (** code address of usertrap() *)
  kernelvec : Z;      (** the kernel trap vector *)
  kend_range : KERNBASE <= kend <= PHYSTOP;
}.

(** ** The state the boot loader leaves: all static data zero *)

Definition zero_context : context := mk_context 0 0 (replicate 12 0).
Definition zero_proc : proc :=
  mk_proc UNUSED None 0 0 0 None 0 0 0 0 zero_context (replicate NOFILE None) None 0 (replicate 16 0).
Definition zero_sleeplock : sleeplock := mk_sleeplock 0 0.
Definition zero_file : file := mk_file FD_NONE 0 0 0 0 None 0 0.
Definition zero_buf : buf := mk_buf 0 0 0 0 zero_sleeplock 0 0 0 (replicate 1024 0).
Definition zero_inode : inode := mk_inode 0 0 0 zero_sleeplock 0 0 0 0 0 0 (replicate 13 0).

Definition zero_vdisk : vdisk :=
  mk_vdisk (replicate NUM (mk_vdesc VNull 0 0 0)) 0 (replicate NUM 0) 0 (replicate NUM 0)
    (replicate NUM 0) 0 (replicate NUM None) (replicate NUM 0) (replicate NUM (0, 0)).

Definition bss : kstate :=
  {| k_cpu := mk_cpu 0 None 0 false false;
     k_locks := ∅;
     k_mem := ∅;
     k_kmem := mk_kmem 0 0 0;
     k_procs := replicate NPROC zero_proc;
     k_initproc := None;
     k_nextpid := 1;
     k_rand := 1;
     k_ticks := 0;
     k_sharedbuf := mk_sharedbuf (replicate 10 0) 0 0 0 0 0 0;
     k_pipes := ∅;
     k_ftable := replicate NFILE zero_file;
     k_cons := mk_consbuf (replicate 128 0) 0 0 0;
     k_out := [];
     k_sb := mk_superblock 0 0 0 0 0 0 0 0;
     k_log := mk_logstate 0 0 0 0 0 (replicate 30 0);
     k_bufs := replicate (S NBUF) zero_buf;
     k_itable := replicate NINODE zero_inode;
     k_disk := ∅;
     k_dlog := [];
     k_panicking := 0;
     k_tx_busy := 0;
     k_rx := [];
     k_first := true;
     k_kpgtbl := 0;
     k_devsw := replicate (Z.to_nat NDEV) None;
     k_csr := fun _ => 0;
     k_vdisk := zero_vdisk;
     k_mmio := [];
     k_started := 0 |}.
