(* ===== verification/KMonad.v ===== *)
(** * The monad the kernel code is written in

    A kernel routine maps the state to an outcome: it returns, it panics, it
    gives the CPU up in sched(), it spins on a lock another hart holds, or
    (only when a loop is given a bound that is too small) it runs out of its
    bound.  The outcomes [Switch] and [Spin] carry the rest of the routine,
    which goes on from the state the other threads leave when the scheduler
    switches back, or when the lock is seen free.  Notation: stdpp's
    [x ← m; k] and [m ;; k]. *)

From S2P Require Import Prelude Riscv Memory KState.

Inductive res (A : Type) :=
| Ret (a : A) (s : kstate)
| Panic (msg : string) (s : kstate)
| Switch (s : kstate) (resume : kstate -> res A)
| Spin (l : lockid) (s : kstate) (resume : kstate -> res A)
| Unbounded.

Arguments Ret {A} a s.
Arguments Panic {A} msg s.
Arguments Switch {A} s resume.
Arguments Spin {A} l s resume.
Arguments Unbounded {A}.

Definition K (A : Type) : Type := kstate -> res A.

Fixpoint res_bind {A B} (r : res A) (f : A -> K B) : res B :=
  match r with
  | Ret a s => f a s
  | Panic msg s => Panic msg s
  | Switch s k => Switch s (fun s' => res_bind (k s') f)
  | Spin l s k => Spin l s (fun s' => res_bind (k s') f)
  | Unbounded => Unbounded
  end.

#[export] Instance K_ret : MRet K := fun A a s => Ret a s.
#[export] Instance K_bind : MBind K := fun A B f m s => res_bind (m s) f.

Definition gets {A} (f : kstate -> A) : K A := fun s => Ret (f s) s.
Definition modify (f : kstate -> kstate) : K unit := fun s => Ret tt (f s).
Definition kpanic {A} (msg : string) : K A := fun s => Panic msg s.
Definition kwhen (b : bool) (m : K unit) : K unit := if b then m else mret tt.

(** A loop over the entries of a table, in index order. *)
Fixpoint kfor (idx : list nat) (body : nat -> K unit) : K unit :=
  match idx with
  | [] => mret tt
  | i :: idx' => body i ;; kfor idx' body
  end.

(** A loop over the entries of a table that a body may leave early with a
    result ([break], [return] or [goto found] in the source). *)
Fixpoint kscan {A} (idx : list nat) (body : nat -> K (option A)) : K (option A) :=
  match idx with
  | [] => mret None
  | i :: idx' =>
      r ← body i;
      match r with
      | Some a => mret (Some a)
      | None => kscan idx' body
      end
  end.

(** ** Evaluating a routine *)

Lemma bind_ret {A B} (m : K A) (f : A -> K B) s a s' :
  m s = Ret a s' -> (m ≫= f) s = f a s'.
Proof. intros H. unfold mbind, K_bind. by rewrite H. Qed.

Lemma bind_panic {A B} (m : K A) (f : A -> K B) s msg s' :
  m s = Panic msg s' -> (m ≫= f) s = Panic msg s'.
Proof. intros H. unfold mbind, K_bind. by rewrite H. Qed.

Lemma bind_switch {A B} (m : K A) (f : A -> K B) s s' k :
  m s = Switch s' k -> (m ≫= f) s = Switch s' (fun s => res_bind (k s) f).
Proof. intros H. unfold mbind, K_bind. by rewrite H. Qed.

(** A returning sequence returns at every step. *)
Lemma bind_ret_inv {A B} (m : K A) (f : A -> K B) s b s' :
  (m ≫= f) s = Ret b s' -> exists a s1, m s = Ret a s1 /\ f a s1 = Ret b s'.
Proof. unfold mbind, K_bind. destruct (m s); try done. eauto. Qed.

Lemma bind_gets {A B} (g : kstate -> A) (f : A -> K B) s : (gets g ≫= f) s = f (g s) s.
Proof. done. Qed.

Lemma bind_modify {B} (g : kstate -> kstate) (f : unit -> K B) s : (modify g ≫= f) s = f tt (g s).
Proof. done. Qed.

Lemma bind_mret {A B} (a : A) (f : A -> K B) s : ((mret a : K A) ≫= f) s = f a s.
Proof. done. Qed.

Lemma bind_bind_ret {A B C} (m : K A) (f : A -> K B) (g : B -> K C) s a s' :
  m s = Ret a s' -> ((m ≫= f) ≫= g) s = (f a ≫= g) s'.
Proof. intros H. unfold mbind, K_bind. by rewrite H. Qed.

(** A loop whose every iteration returns is a fold of the iterations. *)
Lemma kfor_fold (body : nat -> K unit) (f : nat -> kstate -> kstate) (P : kstate -> Prop) idx :
  (forall i s, i ∈ idx -> P s -> body i s = Ret tt (f i s) /\ P (f i s)) ->
  forall s, P s -> kfor idx body s = Ret tt (fold_left (fun s i => f i s) idx s)
                   /\ P (fold_left (fun s i => f i s) idx s).
Proof.
  induction idx as [|i idx IH]; intros H s Hs; simpl; [done|].
  destruct (H i s) as [E P1]; [apply list_elem_of_here|done|].
  rewrite (bind_ret _ _ _ _ _ E). apply IH; [|done]. intros j s0 Hj. apply H.
  by apply list_elem_of_further.
Qed.

(** Memory is written often enough to have rewrite rules of its own. *)
Lemma k_mem_set m s : k_mem (set_k_mem m s) = m.
Proof. done. Qed.

Lemma set_k_mem_twice m m' s : set_k_mem m (set_k_mem m' s) = set_k_mem m s.
Proof. done. Qed.

Create HintDb kspec discriminated.

(** [kstep] evaluates the first step of a sequence, with the specifications
    of [kspec] for the routines it calls. *)
Ltac kstep :=
  first
  [ rewrite bind_gets
  | rewrite bind_modify
  | rewrite bind_mret
  | erewrite bind_ret by (solve [eauto 6 with kspec])
  | erewrite bind_panic by (solve [eauto 6 with kspec]) ].

(** Look at what a returning sequence did. *)
Ltac kinv H :=
  let a := fresh "a" in let s := fresh "s" in let E := fresh "E" in
  apply bind_ret_inv in H as (a & s & E & H).
