(* ===== verification/Spinlock.v ===== *)
(** * Spin locks (kernel/spinlock.c)

    push_off()/pop_off() and acquire()/release() as the executing hart sees
    them, and [Smp]: the same routines as a machine of several harts
    interleaved at their atomic steps, with mutual exclusion.  A lock that is
    held is an entry of [k_locks] with the hart that recorded itself in
    [lk->cpu]; taking a lock another hart holds is the outcome [Spin], which
    goes on when the atomic swap finds the lock free. *)

From S2P Require Import Prelude Riscv Memory KState KMonad.

Definition cpuid : K Z := gets (fun s => s.(k_cpu).(c_id)).
Definition mycpu : K cpu := gets (fun s => s.(k_cpu)).
Definition intr_get : K bool := gets (fun s => s.(k_cpu).(c_intr)).
Definition intr_on : K unit := modify (fun s => set_k_cpu (set_c_intr true s.(k_cpu)) s).
Definition intr_off : K unit := modify (fun s => set_k_cpu (set_c_intr false s.(k_cpu)) s).

Definition initlock (lk : lockid) : K unit :=
  modify (fun s => set_k_locks (delete lk s.(k_locks)) s).

Definition holding (lk : lockid) : K bool :=
  gets (fun s => bool_decide (s.(k_locks) !! lk = Some s.(k_cpu).(c_id))).

Definition push_off : K unit :=
  old ← intr_get;
  intr_off ;;
  c ← mycpu;
  kwhen (c.(c_noff) =? 0) (modify (fun s => set_k_cpu (set_c_intena old s.(k_cpu)) s)) ;;
  modify (fun s => set_k_cpu (set_c_noff (s.(k_cpu).(c_noff) + 1) s.(k_cpu)) s).

Definition pop_off : K unit :=
  on ← intr_get;
  if on : bool then kpanic "pop_off - interruptible" else
  c ← mycpu;
  if c.(c_noff) <? 1 then kpanic "pop_off" else
  modify (fun s => set_k_cpu (set_c_noff (s.(k_cpu).(c_noff) - 1) s.(k_cpu)) s) ;;
  c' ← mycpu;
  kwhen ((c'.(c_noff) =? 0) && c'.(c_intena)) intr_on.

(** The atomic swap that finds the lock free, and the recording of the owner. *)
Definition take_lock (lk : lockid) (s : kstate) : kstate :=
  set_k_locks (<[lk := s.(k_cpu).(c_id)]> s.(k_locks)) s.

Definition acquire (lk : lockid) : K unit :=
  push_off ;;
  h ← holding lk;
  if h : bool then kpanic "acquire" else
  fun s =>
    match s.(k_locks) !! lk with
    | Some _ => Spin lk s (fun s' => Ret tt (take_lock lk s'))
    | None => Ret tt (take_lock lk s)
    end.

Definition release (lk : lockid) : K unit :=
  h ← holding lk;
  if negb h then kpanic "release" else
  modify (fun s => set_k_locks (delete lk s.(k_locks)) s) ;;
  pop_off.

(** Return the current process, or None if the CPU runs the scheduler. *)
Definition myproc : K (option nat) :=
  push_off ;;
  c ← mycpu;
  pop_off ;;
  mret c.(c_proc).

(** ** The state a hart keeps between critical sections *)

(** Interrupts are off while a spin lock is held. *)
Definition cpu_ok (c : cpu) : Prop := 0 <= c.(c_noff) /\ (0 < c.(c_noff) -> c.(c_intr) = false).

Definition push (c : cpu) : cpu :=
  set_c_noff (c.(c_noff) + 1)
    (set_c_intr false (if c.(c_noff) =? 0 then set_c_intena c.(c_intr) c else c)).

Definition pop (c : cpu) : cpu :=
  let c' := set_c_noff (c.(c_noff) - 1) c in
  if ((c'.(c_noff) =? 0) && c'.(c_intena))%bool then set_c_intr true c' else c'.

(** What a matched push_off()/pop_off() pair leaves behind: only [intena],
    which records the interrupt state at the outermost push_off(). *)
Definition settle (c : cpu) : cpu :=
  if c.(c_noff) =? 0 then set_c_intena c.(c_intr) c else c.

Definition kpush (s : kstate) : kstate := set_k_cpu (push s.(k_cpu)) s.
Definition kpop (s : kstate) : kstate := set_k_cpu (pop s.(k_cpu)) s.
Definition ksettle (s : kstate) : kstate := set_k_cpu (settle s.(k_cpu)) s.

(** The state inside, and after, a critical section of lock [lk]. *)
Definition acq (lk : lockid) (s : kstate) : kstate :=
  set_k_locks (<[lk := s.(k_cpu).(c_id)]> s.(k_locks)) (kpush s).
Definition rel (lk : lockid) (s : kstate) : kstate :=
  set_k_locks (delete lk s.(k_locks)) (kpop s).

(** [lk] can be taken now. *)
Definition lk_free (lk : lockid) (s : kstate) : Prop :=
  cpu_ok s.(k_cpu) /\ s.(k_locks) !! lk = None.

(** [lk] is held by this hart. *)
Definition lk_held (lk : lockid) (s : kstate) : Prop :=
  s.(k_locks) !! lk = Some s.(k_cpu).(c_id) /\ s.(k_cpu).(c_intr) = false
  /\ 1 <= s.(k_cpu).(c_noff).

Lemma push_off_eq s : push_off s = Ret tt (kpush s).
Proof.
  unfold push_off, intr_get, intr_off, mycpu, kwhen. repeat kstep. simpl.
  unfold kpush, push. destruct (c_noff (k_cpu s) =? 0); done.
Qed.

Lemma pop_off_eq s : c_intr (k_cpu s) = false -> 1 <= c_noff (k_cpu s) ->
  pop_off s = Ret tt (kpop s).
Proof.
  intros Hi Hn. unfold pop_off, intr_get, mycpu, kwhen. kstep. rewrite Hi. kstep.
  destruct (Z.ltb_spec (c_noff (k_cpu s)) 1); [lia|]. repeat kstep. simpl.
  unfold kpop, pop. simpl. case_if; done.
Qed.

Lemma settle_pop_push c : cpu_ok c -> pop (push c) = settle c.
Proof.
  intros [H1 H2]. unfold pop, push, settle. simpl.
  replace (c_noff c + 1 - 1) with (c_noff c) by lia.
  destruct (Z.eqb_spec (c_noff c) 0) as [E|E]; simpl.
  - destruct (c_intr c) eqn:I; simpl; unfold set_c_intena, set_c_noff, set_c_intr; simpl;
      rewrite I; f_equal; lia.
  - rewrite <- (H2 ltac:(lia)). unfold set_c_noff, set_c_intr; simpl. f_equal; lia.
Qed.

Lemma acquire_eq lk s : lk_free lk s -> acquire lk s = Ret tt (acq lk s).
Proof.
  intros [_ H]. unfold acquire, holding. rewrite (bind_ret _ _ _ _ _ (push_off_eq s)).
  kstep. change (k_locks (kpush s)) with (k_locks s).
  rewrite bool_decide_eq_false_2 by (rewrite H; done).
  change (k_locks (kpush s)) with (k_locks s). rewrite H.
  unfold acq. f_equal. f_equal. f_equal.
  unfold kpush, push. simpl. by destruct (c_noff (k_cpu s) =? 0).
Qed.

(** Taking a lock this hart already holds panics instead of deadlocking. *)
Lemma acquire_twice lk s : k_locks s !! lk = Some (c_id (k_cpu s)) ->
  acquire lk s = Panic "acquire" (kpush s).
Proof.
  intros H. unfold acquire, holding. rewrite (bind_ret _ _ _ _ _ (push_off_eq s)). kstep.
  change (k_locks (kpush s)) with (k_locks s). rewrite bool_decide_eq_true_2; [done|].
  rewrite H. f_equal. unfold kpush, push. simpl. by destruct (c_noff (k_cpu s) =? 0).
Qed.

Lemma release_eq lk s : lk_held lk s -> release lk s = Ret tt (rel lk s).
Proof.
  intros (H & Hi & Hn). unfold release, holding. kstep.
  rewrite bool_decide_eq_true_2 by done. simpl. kstep.
  rewrite pop_off_eq by done. done.
Qed.

Lemma release_not_held lk s : k_locks s !! lk <> Some (c_id (k_cpu s)) ->
  release lk s = Panic "release" s.
Proof.
  intros H. unfold release, holding. kstep. rewrite bool_decide_eq_false_2 by done. done.
Qed.

Lemma acq_held lk s : cpu_ok (k_cpu s) -> lk_held lk (acq lk s).
Proof.
  intros [H1 H2]. unfold lk_held, acq, kpush, push. simpl.
  assert (c_id (set_c_noff (c_noff (k_cpu s) + 1)
     (set_c_intr false (if c_noff (k_cpu s) =? 0 then set_c_intena (c_intr (k_cpu s)) (k_cpu s) else k_cpu s)))
     = c_id (k_cpu s)) as E by (simpl; by destruct (c_noff (k_cpu s) =? 0)).
  rewrite lookup_insert_eq. simpl in *. rewrite E. repeat split; lia.
Qed.

Lemma cpu_ok_push c : cpu_ok c -> cpu_ok (push c).
Proof. intros [H1 H2]. unfold cpu_ok, push. simpl. split; [lia|done]. Qed.

Lemma cpu_ok_settle c : cpu_ok c -> cpu_ok (settle c).
Proof. intros H. unfold settle. by destruct (c_noff c =? 0). Qed.

Lemma settle_idem c : settle (settle c) = settle c.
Proof. unfold settle. destruct (c_noff c =? 0) eqn:E; simpl; rewrite E; done. Qed.

Lemma rel_acq lk s : lk_free lk s -> rel lk (acq lk s) = ksettle s.
Proof.
  intros [H1 H2]. unfold rel, acq, kpop, kpush, ksettle, set_k_locks, set_k_cpu. simpl.
  rewrite settle_pop_push by done. by rewrite delete_insert_id.
Qed.

Lemma myproc_eq s : cpu_ok (k_cpu s) -> myproc s = Ret (c_proc (k_cpu s)) (ksettle s).
Proof.
  intros H. unfold myproc. rewrite (bind_ret _ _ _ _ _ (push_off_eq s)). unfold mycpu. kstep.
  rewrite (bind_ret _ _ _ tt (kpop (kpush s))).
  - unfold mret, K_ret, kpop, kpush. simpl. f_equal.
    + unfold push. simpl. by destruct (c_noff (k_cpu s) =? 0).
    + unfold ksettle. rewrite <- settle_pop_push by done. done.
  - apply pop_off_eq; unfold kpush, push; simpl; [done|destruct H; lia].
Qed.

Lemma lk_free_settle lk s : lk_free lk s -> lk_free lk (ksettle s).
Proof. intros [H1 H2]. split; [by apply cpu_ok_settle|done]. Qed.

Lemma ksettle_idem s : ksettle (ksettle s) = ksettle s.
Proof. unfold ksettle, set_k_cpu. simpl. by rewrite settle_idem. Qed.

#[export] Hint Resolve acquire_eq release_eq acq_held myproc_eq cpu_ok_settle lk_free_settle : kspec.

(** [crit lk s] closes a goal about a critical section of [lk] entered in
    state [s]: both sides are the same updates of the state after a matched
    acquire and release. *)
Ltac crit lk s := rewrite <- (rel_acq lk s) by assumption; reflexivity.

(** ** Harts racing for one lock

    acquire() and release() cut at the points another hart can run between:
    the atomic swap that sets [locked], the store of [lk->cpu], and in
    release() the clearing of [lk->cpu] and of [locked]. *)

Module Smp.

Inductive pc := Idle | Spinning | Swapped | Critical | Cleared | Panicked.

Record smp := mk_smp { locked : bool; lkcpu : option nat; at_pc : nat -> pc }.

Definition goto (h : nat) (p : pc) (f : nat -> pc) : nat -> pc :=
  fun g => if decide (g = h) then p else f g.

(** The test [holding()] as hart [h] evaluates it. *)
Definition holding_now (h : nat) (s : smp) : bool :=
  (locked s && bool_decide (lkcpu s = Some h))%bool.

Inductive step : smp -> smp -> Prop :=
| step_enter h s : at_pc s h = Idle -> holding_now h s = false ->
    step s (mk_smp (locked s) (lkcpu s) (goto h Spinning (at_pc s)))
| step_enter_panic h s : at_pc s h = Idle -> holding_now h s = true ->
    step s (mk_smp (locked s) (lkcpu s) (goto h Panicked (at_pc s)))
| step_swap_fail h s : at_pc s h = Spinning -> locked s = true -> step s s
| step_swap h s : at_pc s h = Spinning -> locked s = false ->
    step s (mk_smp true (lkcpu s) (goto h Swapped (at_pc s)))
| step_record h s : at_pc s h = Swapped ->
    step s (mk_smp (locked s) (Some h) (goto h Critical (at_pc s)))
| step_clear h s : at_pc s h = Critical -> holding_now h s = true ->
    step s (mk_smp (locked s) None (goto h Cleared (at_pc s)))
| step_clear_panic h s : at_pc s h = Critical -> holding_now h s = false ->
    step s (mk_smp (locked s) (lkcpu s) (goto h Panicked (at_pc s)))
| step_unlock h s : at_pc s h = Cleared ->
    step s (mk_smp false (lkcpu s) (goto h Idle (at_pc s))).

Definition init : smp := mk_smp false None (fun _ => Idle).

(** The harts between the swap that took the lock and the store that frees it. *)
Definition inside (p : pc) : bool :=
  match p with Swapped | Critical | Cleared => true | _ => false end.

Definition inv (s : smp) : Prop :=
  (forall h, at_pc s h <> Panicked) /\
  (forall g h, inside (at_pc s g) = true -> inside (at_pc s h) = true -> g = h) /\
  (forall h, inside (at_pc s h) = true -> locked s = true) /\
  (forall h, lkcpu s = Some h <-> at_pc s h = Critical).

Lemma goto_eq h p f : goto h p f h = p.
Proof. unfold goto. by rewrite decide_True. Qed.

Lemma goto_ne h p f g : g <> h -> goto h p f g = f g.
Proof. intros. unfold goto. by rewrite decide_False. Qed.

Lemma holding_critical h s : inv s -> holding_now h s = true <-> at_pc s h = Critical.
Proof.
  intros (_ & _ & L & C). unfold holding_now. rewrite andb_true_iff, bool_decide_eq_true, C.
  split; [by intros [_ ?]|]. intros E. split; [|done]. apply (L h). by rewrite E.
Qed.

(** Case analysis of [goto h p f g] for every hart [g] in sight. *)
Ltac cases_goto :=
  repeat match goal with
  | H : context [goto ?h ?p ?f ?g] |- _ =>
      unfold goto in H; destruct (decide (g = h)); subst
  | |- context [goto ?h ?p ?f ?g] => unfold goto; destruct (decide (g = h)); subst
  end.

Lemma step_inv s s' : step s s' -> inv s -> inv s'.
Proof.
  intros St I. pose proof (holding_critical) as HC.
  destruct St as [h s E N|h s E N|h s E N|h s E N|h s E|h s E N|h s E N|h s E]; try done.
  all: try (apply (HC h s I) in N; congruence).
  all: try (exfalso; apply (HC h s I) in E; congruence).
  all: destruct I as (A & B & C & D); repeat split; simpl; intros.
  all: cases_goto; simpl in *; try done; eauto.
  all: try (by apply D); try (by (exfalso; eauto)); try congruence.
  all: try match goal with
       | H : lkcpu _ = Some _ |- _ => apply D in H; try congruence
       | H : inside (at_pc _ ?g) = true, N : locked _ = false |- _ =>
           apply C in H; congruence
       end.
  all: try match goal with
       | H : inside (at_pc ?s ?g) = true, E : at_pc ?s ?h = _ |- _ =>
           assert (g = h) by (apply B; [done|by rewrite E]); congruence
       | H : at_pc ?s ?g = Critical, E : at_pc ?s ?h = _ |- _ =>
           assert (g = h) by (apply B; [by rewrite H|by rewrite E]); congruence
       end.
  all: apply (C h); by rewrite E.
Qed.



End Smp.

(** ** Properties of the routines on one hart *)

(** A critical section restores the hart: after a matched
    acquire() and release() of a free lock the lock is free, the nesting depth
    and the interrupt state are what they were, no other part of the kernel
    state changed, and inside it interrupts were off. *)
Theorem critical_section_restores lk s : lk_free lk s ->
  acquire lk s = Ret tt (acq lk s) /\
  c_intr (k_cpu (acq lk s)) = false /\
  (acquire lk ;; release lk) s = Ret tt (ksettle s) /\
  c_intr (k_cpu (ksettle s)) = c_intr (k_cpu s) /\
  c_noff (k_cpu (ksettle s)) = c_noff (k_cpu s) /\
  k_locks (ksettle s) = k_locks s /\
  set_k_cpu (k_cpu s) (ksettle s) = s.
Proof.
  intros H. pose proof (acq_held lk s (proj1 H)) as Hh.
  split; [by apply acquire_eq|]. split; [apply Hh|]. split.
  - rewrite (bind_ret _ _ _ _ _ (acquire_eq lk s H)). rewrite release_eq by done. by rewrite rel_acq.
  - unfold ksettle, settle. simpl. by destruct (c_noff (k_cpu s) =? 0).
Qed.


Lemma critical_section_restores_witness :
  lk_free LKmem bss /\ (acquire LKmem ;; release LKmem) bss = Ret tt (ksettle bss).
Proof.
  assert (lk_free LKmem bss) as F by (split; [split; simpl; lia|reflexivity]).
  split; [exact F|]. apply (critical_section_restores LKmem bss F).
Defined.
