(* ===== verification/Kalloc.v ===== *)
(** * Physical page allocator (kernel/kalloc.c)

    kalloc() and kfree() on the free list that lives in the free pages
    themselves ([struct run]), with the page counters added for the memory
    statistics.  [kmem_inv s l] says the free list of [s] is the list [l] of
    distinct, aligned pages between [end] and PHYSTOP, and that the counter of
    free pages is its length; the theorems say what each routine does to it. *)

From S2P Require Import Prelude Riscv Memory KState KMonad Spinlock.

Section Kalloc.
Context {L : Layout}.

Definition kfree (pa : Z) : K unit :=
  if (negb (pa mod PGSIZE =? 0) || (pa <? kend) || (PHYSTOP <=? pa))%bool then kpanic "kfree" else
  modify (fun s => set_k_mem (memset s.(k_mem) pa 1 (Z.to_nat PGSIZE)) s) ;;
  acquire LKmem ;;
  modify (fun s => set_k_mem (store64 s.(k_mem) pa s.(k_kmem).(km_freelist)) s) ;;
  modify (fun s => set_k_kmem (set_km_freelist pa s.(k_kmem)) s) ;;
  modify (fun s => set_k_kmem (set_km_nfree (u64 (s.(k_kmem).(km_nfree) + 1)) s.(k_kmem)) s) ;;
  release LKmem.

Definition kalloc : K Z :=
  acquire LKmem ;;
  r ← gets (fun s => s.(k_kmem).(km_freelist));
  kwhen (negb (r =? 0)) (
    modify (fun s => set_k_kmem (set_km_freelist (load64 s.(k_mem) r) s.(k_kmem)) s) ;;
    modify (fun s => set_k_kmem (set_km_nfree (u64 (s.(k_kmem).(km_nfree) - 1)) s.(k_kmem)) s) ;;
    modify (fun s => set_k_kmem (set_km_nalloc (u64 (s.(k_kmem).(km_nalloc) + 1)) s.(k_kmem)) s)) ;;
  release LKmem ;;
  kwhen (negb (r =? 0))
    (modify (fun s => set_k_mem (memset s.(k_mem) r 5 (Z.to_nat PGSIZE)) s)) ;;
  mret r.

(** The loop of freerange(); the bound is the number of whole pages left. *)
Fixpoint freerange_loop (n : nat) (p pa_end : Z) : K unit :=
  if p + PGSIZE <=? pa_end then
    match n with
    | O => fun _ => Unbounded
    | S n' => kfree p ;; freerange_loop n' (p + PGSIZE) pa_end
    end
  else mret tt.

Definition freerange (pa_start pa_end : Z) : K unit :=
  let p := PGROUNDUP pa_start in
  freerange_loop (Z.to_nat ((pa_end - p) / PGSIZE)) p pa_end.

Definition kinit : K unit :=
  initlock LKmem ;;
  modify (fun s => set_k_kmem (set_km_nfree 0 s.(k_kmem)) s) ;;
  modify (fun s => set_k_kmem (set_km_nalloc 0 s.(k_kmem)) s) ;;
  freerange kend PHYSTOP.

Definition getfreepages : K Z :=
  acquire LKmem ;;
  n ← gets (fun s => s.(k_kmem).(km_nfree));
  release LKmem ;;
  mret n.

Definition getmemstat : K (Z * Z) :=
  acquire LKmem ;;
  freepages ← gets (fun s => s.(k_kmem).(km_nfree));
  totalalloc ← gets (fun s => s.(k_kmem).(km_nalloc));
  release LKmem ;;
  mret (freepages, totalalloc).

(** ** The free list *)

Definition valid_page (a : Z) : Prop := page_aligned a /\ kend <= a < PHYSTOP.

(** The list of pages linked from [p] through the first word of each. *)
Fixpoint flist (m : mem) (p : Z) (l : list Z) : Prop :=
  match l with
  | [] => p = 0
  | a :: l' => p = a /\ flist m (load64 m a) l'
  end.

Record kmem_inv (s : kstate) (l : list Z) : Prop := {
  ki_mem : mem_ok (k_mem s);
  ki_list : flist (k_mem s) (km_freelist (k_kmem s)) l;
  ki_nodup : NoDup l;
  ki_valid : Forall valid_page l;
  ki_nfree : km_nfree (k_kmem s) = Z.of_nat (length l);
}.

Lemma valid_page_bounds a : valid_page a -> KERNBASE <= a /\ a + PGSIZE <= PHYSTOP.
Proof.
  intros [A [B C]]. pose proof kend_range as [D E]. split; [lia|].
  unfold page_aligned in A. pose proof (Z.div_mod a PGSIZE ltac:(done)).
  unfold PHYSTOP, KERNBASE, PGSIZE in *. lia.
Qed.

(** Two different aligned pages do not overlap. *)
Lemma pages_disjoint a b : page_aligned a -> page_aligned b -> a <> b ->
  a + PGSIZE <= b \/ b + PGSIZE <= a.
Proof.
  unfold page_aligned, PGSIZE. intros A B N.
  pose proof (Z.div_mod a 4096 ltac:(lia)). pose proof (Z.div_mod b 4096 ltac:(lia)). lia.
Qed.

Lemma valid_page_dec_ok a :
  valid_page a -> (negb (a mod PGSIZE =? 0) || (a <? kend) || (PHYSTOP <=? a))%bool = false.
Proof.
  intros [A B]. unfold page_aligned in A. rewrite A. simpl.
  apply orb_false_iff. split; [apply Z.ltb_ge|apply Z.leb_gt]; lia.
Qed.

Lemma flist_ext m m' l : forall p,
  (forall a, a ∈ l -> load64 m a = load64 m' a) -> flist m p l -> flist m' p l.
Proof.
  induction l as [|a l IH]; intros p H F; [done|]. destruct F as [-> F]. split; [done|].
  rewrite <- H by apply list_elem_of_here. apply IH; [|done].
  intros b Hb. apply H. by apply list_elem_of_further.
Qed.

(** A memory that agrees with [m] outside a page that is not free has the
    same free list. *)
Lemma flist_frame m m' p l pa :
  page_aligned pa -> Forall valid_page l -> pa ∉ l ->
  (forall b, b < pa \/ pa + PGSIZE <= b -> mget m' b = mget m b) ->
  flist m p l -> flist m' p l.
Proof.
  intros A V N H. apply flist_ext. intros a Ha. apply load64_ext. intros b Hb. symmetry.
  apply H. rewrite Forall_forall in V. pose proof (V a Ha) as [Aa _].
  destruct (pages_disjoint a pa Aa A) as [D|D]; [by intros ->| |]; unfold PGSIZE in *; lia.
Qed.

Lemma free_pages_bound l : NoDup l -> Forall valid_page l -> Z.of_nat (length l) <= 32768.
Proof.
  intros ND V. set (f := fun a => (a - KERNBASE) / PGSIZE).
  assert (NoDup (f <$> l)) as ND'.
  { apply NoDup_fmap_2_strong; [|done]. intros x y Hx Hy E.
    rewrite Forall_forall in V.
    destruct (V x Hx) as [Ax _], (V y Hy) as [Ay _]. unfold f, page_aligned, PGSIZE, KERNBASE in *.
    pose proof (Z.div_mod x 4096 ltac:(lia)). pose proof (Z.div_mod y 4096 ltac:(lia)).
    assert (forall z, z mod 4096 = 0 -> (z - 0x80000000) / 4096 = z / 4096 - 524288) as D.
    { intros z Hz. replace (z - 0x80000000) with (z + (-524288) * 4096) by lia.
      rewrite Z.div_add by lia. lia. }
    rewrite !D in E by done. lia. }
  assert ((f <$> l) ⊆ seqZ 0 32768) as Sub.
  { intros x Hx. apply list_elem_of_fmap in Hx as [a [-> Ha]]. apply elem_of_seqZ.
    rewrite Forall_forall in V.
    pose proof (valid_page_bounds a (V a Ha)). unfold f, KERNBASE, PHYSTOP, PGSIZE in *.
    split; [apply Z.div_pos; lia|]. apply Z.div_lt_upper_bound; unfold KERNBASE in *; lia. }
  pose proof (NoDup_submseteq _ _ ND' Sub) as SM. apply submseteq_length in SM.
  rewrite length_fmap, length_seqZ in SM. lia.
Qed.

(** ** What the routines do *)

Definition kalloc_state (a : Z) (s : kstate) : kstate :=
  set_k_mem (memset (k_mem s) a 5 (Z.to_nat PGSIZE))
    (set_k_kmem (mk_kmem (load64 (k_mem s) a) (u64 (km_nfree (k_kmem s) - 1))
                         (u64 (km_nalloc (k_kmem s) + 1))) (ksettle s)).

(** kfree() puts a page, filled with junk, in front of the free list. *)
Definition link_page (pa : Z) (s : kstate) : kstate :=
  set_k_mem (store64 (k_mem s) pa (km_freelist (k_kmem s)))
    (set_k_kmem (mk_kmem pa (u64 (km_nfree (k_kmem s) + 1)) (km_nalloc (k_kmem s))) (ksettle s)).

Definition kfree_state (pa : Z) (s : kstate) : kstate :=
  link_page pa (set_k_mem (memset (k_mem s) pa 1 (Z.to_nat PGSIZE)) s).

Lemma kalloc_none s : lk_free LKmem s -> km_freelist (k_kmem s) = 0 ->
  kalloc s = Ret 0 (ksettle s).
Proof.
  intros F E. unfold kalloc. kstep. kstep.
  change (km_freelist (k_kmem (acq LKmem s))) with (km_freelist (k_kmem s)). rewrite E. simpl.
  unfold kwhen. simpl. kstep. erewrite bind_ret by (apply release_eq, acq_held, F). kstep.
  unfold mret, K_ret. f_equal. crit LKmem s.
Qed.

Lemma kalloc_some s a : lk_free LKmem s -> km_freelist (k_kmem s) = a -> a <> 0 ->
  kalloc s = Ret a (kalloc_state a s).
Proof.
  intros F E N. unfold kalloc. kstep. kstep.
  change (km_freelist (k_kmem (acq LKmem s))) with (km_freelist (k_kmem s)). rewrite E.
  destruct (Z.eqb_spec a 0); [lia|]. unfold kwhen. simpl.
  erewrite bind_ret by (repeat kstep; reflexivity).
  erewrite bind_ret by (apply release_eq; pose proof (acq_held LKmem s (proj1 F)); done).
  kstep. unfold mret, K_ret, kalloc_state. f_equal. crit LKmem s.
Qed.

Lemma link_page_eq s pa : lk_free LKmem s ->
  (acquire LKmem ;;
   modify (fun s => set_k_mem (store64 s.(k_mem) pa s.(k_kmem).(km_freelist)) s) ;;
   modify (fun s => set_k_kmem (set_km_freelist pa s.(k_kmem)) s) ;;
   modify (fun s => set_k_kmem (set_km_nfree (u64 (s.(k_kmem).(km_nfree) + 1)) s.(k_kmem)) s) ;;
   release LKmem) s = Ret tt (link_page pa s).
Proof.
  intros F. repeat kstep. rewrite release_eq by (pose proof (acq_held LKmem s (proj1 F)); done).
  unfold link_page. f_equal. crit LKmem s.
Qed.

Lemma kfree_eq s pa : lk_free LKmem s -> valid_page pa ->
  kfree pa s = Ret tt (kfree_state pa s).
Proof.
  intros F V. unfold kfree. rewrite valid_page_dec_ok by done. kstep. by apply link_page_eq.
Qed.

Lemma kfree_bad s pa : ~ valid_page pa -> kfree pa s = Panic "kfree" s.
Proof.
  intros V. unfold kfree. case_if; [done|]. exfalso. apply V.
  unfold valid_page, page_aligned. lia.
Qed.

Lemma kalloc_inv s a l : kmem_inv s (a :: l) ->
  kmem_inv (kalloc_state a s) l /\ valid_page a /\ (a ∉ l) /\
  (forall b, b < a \/ a + PGSIZE <= b -> mget (k_mem (kalloc_state a s)) b = mget (k_mem s) b).
Proof.
  intros [M F ND V N]. inversion V as [|x y Va Vl]; subst. apply NoDup_cons in ND as [Na ND].
  assert (forall b, b < a \/ a + PGSIZE <= b ->
          mget (memset (k_mem s) a 5 (Z.to_nat PGSIZE)) b = mget (k_mem s) b) as Fr.
  { intros b Hb. rewrite mget_memset, decide_False; [done|]. unfold PGSIZE in *. lia. }
  split; [|done]. destruct F as [E F]. split; simpl.
  - apply mem_ok_memset, M.
  - eapply flist_frame; [apply Va|done|done|exact Fr|done].
  - done.
  - done.
  - rewrite N. pose proof (free_pages_bound l ND Vl) as B. simpl length. rewrite u64_small; lia.
Qed.

Lemma kfree_inv s pa l : kmem_inv s l -> valid_page pa -> pa ∉ l ->
  kmem_inv (kfree_state pa s) (pa :: l) /\
  (forall b, b < pa \/ pa + PGSIZE <= b -> mget (k_mem (kfree_state pa s)) b = mget (k_mem s) b).
Proof.
  intros [M F ND V N] Vp Np.
  assert (forall b, b < pa \/ pa + PGSIZE <= b ->
     mget (k_mem (kfree_state pa s)) b = mget (k_mem s) b) as Fr.
  { intros b Hb. simpl. rewrite mget_store64_out by (unfold PGSIZE in *; lia).
    rewrite mget_memset, decide_False; [done|]. unfold PGSIZE in *. lia. }
  split; [|done]. split.
  - simpl. apply mem_ok_store64, mem_ok_memset, M.
  - split; [done|].
    assert (load64 (k_mem (kfree_state pa s)) pa = km_freelist (k_kmem s)) as ->.
    { apply load64_store64_eq. destruct l as [|a l]; simpl in F.
      - rewrite F. lia.
      - destruct F as [-> _]. inversion V as [|? ? Va]; subst.
        apply valid_page_bounds in Va. layout. }
    eapply flist_frame; [apply Vp|done|done|exact Fr|done].
  - by apply NoDup_cons.
  - by constructor.
  - simpl. rewrite N. pose proof (free_pages_bound l ND V). rewrite u64_small; lia.
Qed.

Lemma lk_free_kalloc_state lk a s : lk_free lk s -> lk_free lk (kalloc_state a s).
Proof. intros H. apply (lk_free_settle lk s H). Qed.

Lemma lk_free_kfree_state lk a s : lk_free lk s -> lk_free lk (kfree_state a s).
Proof. intros H. apply (lk_free_settle lk s H). Qed.

Lemma lk_free_set_mem lk m s : lk_free lk s -> lk_free lk (set_k_mem m s).
Proof. done. Qed.

(** Writes that keep the links of the free pages keep the free list. *)
Lemma kmem_inv_set_mem m s l : kmem_inv s l -> mem_ok m ->
  (forall a, a ∈ l -> load64 m a = load64 (k_mem s) a) -> kmem_inv (set_k_mem m s) l.
Proof.
  intros [M F ND V N] Hm E. split; try done. eapply flist_ext; [|exact F].
  intros a Ha. symmetry. by apply E.
Qed.

(** The head of the free list is a page, never the null pointer. *)
Lemma kmem_head s a l : kmem_inv s (a :: l) -> km_freelist (k_kmem s) = a /\ a <> 0.
Proof.
  intros [_ F _ V _]. destruct F as [E _]. split; [done|]. inversion V as [|? ? Va]; subst.
  apply valid_page_bounds in Va. layout.
Qed.

(** kalloc() as its callers use it. *)
Lemma kalloc_spec s l : lk_free LKmem s -> kmem_inv s l ->
  (l = [] /\ kalloc s = Ret 0 (ksettle s)) \/
  (exists a l', l = a :: l' /\ a <> 0 /\ kalloc s = Ret a (kalloc_state a s) /\
     kmem_inv (kalloc_state a s) l').
Proof.
  intros F I. destruct l as [|a l].
  - left. split; [done|]. apply kalloc_none; [done|apply I].
  - right. destruct (kmem_head s a l I) as [E N]. exists a, l. split; [done|]. split; [done|].
    split; [by apply kalloc_some|]. by apply kalloc_inv.
Qed.

(** ** Boot: every page of RAM above the kernel becomes free *)

Fixpoint pages_from (p : Z) (n : nat) : list Z :=
  match n with
  | O => []
  | S n' => p :: pages_from (p + PGSIZE) n'
  end.

Definition npages : nat := Z.to_nat ((PHYSTOP - PGROUNDUP kend) / PGSIZE).
Definition all_pages : list Z := pages_from (PGROUNDUP kend) npages.

Lemma elem_of_pages_from n : forall p a,
  a ∈ pages_from p n <-> exists i, 0 <= i < Z.of_nat n /\ a = p + i * PGSIZE.
Proof.
  induction n as [|n IH]; intros p a; simpl.
  - rewrite elem_of_nil. split; [done|]. intros (i & H & _). lia.
  - rewrite elem_of_cons, IH. split.
    + intros [->|(i & Hi & ->)]; [exists 0|exists (i + 1)]; lia.
    + intros (i & Hi & ->). destruct (decide (i = 0)) as [->|]; [left; lia|].
      right. exists (i - 1). lia.
Qed.

Lemma length_pages_from n : forall p, length (pages_from p n) = n.
Proof. induction n; intros; simpl; auto. Qed.

Lemma NoDup_pages_from n : forall p, NoDup (pages_from p n).
Proof.
  induction n as [|n IH]; intros p; simpl; [apply NoDup_nil_2|].
  apply NoDup_cons_2; [|apply IH]. rewrite elem_of_pages_from.
  intros (i & Hi & E). unfold PGSIZE in E. lia.
Qed.

Lemma kend_rounded : kend <= PGROUNDUP kend <= PHYSTOP /\ page_aligned (PGROUNDUP kend) /\
  PGROUNDUP kend < kend + PGSIZE.
Proof.
  pose proof kend_range. destruct (PGROUNDUP_bounds kend) as [A B]; [layout|].
  split; [|split; [done|apply A]]. split; [lia|]. unfold page_aligned in B.
  pose proof (Z.div_mod (PGROUNDUP kend) PGSIZE ltac:(done)). layout.
Qed.

Lemma npages_spec : Z.of_nat npages * PGSIZE = PHYSTOP - PGROUNDUP kend.
Proof.
  destruct kend_rounded as (A & B & C). unfold npages, page_aligned in *.
  pose proof (Z.div_mod (PGROUNDUP kend) PGSIZE ltac:(done)).
  pose proof (Z.div_mod (PHYSTOP - PGROUNDUP kend) PGSIZE ltac:(done)).
  assert ((PHYSTOP - PGROUNDUP kend) mod PGSIZE = 0) as E.
  { rewrite Zminus_mod, B. done. }
  rewrite Z2Nat.id; [lia|]. apply Z.div_pos; [lia|done].
Qed.

(** The free pages are exactly the aligned pages from [end] to PHYSTOP. *)
Lemma elem_of_all_pages a : a ∈ all_pages <-> valid_page a.
Proof.
  unfold all_pages. rewrite elem_of_pages_from. destruct kend_rounded as (A & B & C).
  pose proof npages_spec as N. unfold valid_page, page_aligned in *. split.
  - intros (i & Hi & ->). split; [rewrite Z.add_mod, B, Z.mod_mul by done; done|].
    unfold PGSIZE in *. nia.
  - intros [Ha Hb]. exists ((a - PGROUNDUP kend) / PGSIZE).
    pose proof (Z.div_mod a PGSIZE ltac:(done)).
    pose proof (Z.div_mod (PGROUNDUP kend) PGSIZE ltac:(done)).
    assert ((a - PGROUNDUP kend) mod PGSIZE = 0) as E by (rewrite Zminus_mod, Ha, B; done).
    pose proof (Z.div_mod (a - PGROUNDUP kend) PGSIZE ltac:(done)). rewrite E in *.
    unfold PGSIZE in *. split; [split|]; lia.
Qed.

Lemma freerange_loop_spec n : forall p s l,
  lk_free LKmem s -> kmem_inv s l ->
  (forall a, a ∈ pages_from p n -> valid_page a /\ a ∉ l) ->
  PHYSTOP - PGSIZE < p + Z.of_nat n * PGSIZE <= PHYSTOP ->
  exists s', freerange_loop n p PHYSTOP s = Ret tt s' /\ lk_free LKmem s' /\
    kmem_inv s' (rev (pages_from p n) ++ l) /\ km_nalloc (k_kmem s') = km_nalloc (k_kmem s).
Proof.
  induction n as [|n IH]; intros p s l F I V E; cbn [freerange_loop].
  - destruct (Z.leb_spec (p + PGSIZE) PHYSTOP); [lia|]. exists s. done.
  - destruct (Z.leb_spec (p + PGSIZE) PHYSTOP); [|unfold PGSIZE in *; lia].
    destruct (V p) as [Vp Np]; [apply list_elem_of_here|].
    rewrite (bind_ret _ _ _ _ _ (kfree_eq s p F Vp)).
    destruct (kfree_inv s p l I Vp Np) as [I' _].
    destruct (IH (p + PGSIZE) (kfree_state p s) (p :: l)) as (s' & R & F' & I2 & N); try done.
    + by apply lk_free_kfree_state.
    + intros a Ha. destruct (V a) as [Va Na]; [by apply list_elem_of_further|].
      split; [done|]. intros [->|]%elem_of_cons; [|done].
      pose proof (NoDup_pages_from (S n) p) as ND. by inversion ND.
    + unfold PGSIZE in *. lia.
    + exists s'. split; [done|]. split; [done|]. split; [|by rewrite N].
      simpl. by rewrite <- app_assoc.
Qed.

Lemma kinit_spec s : cpu_ok (k_cpu s) -> mem_ok (k_mem s) -> km_freelist (k_kmem s) = 0 ->
  exists s', kinit s = Ret tt s' /\ lk_free LKmem s' /\
    kmem_inv s' (rev all_pages) /\ km_nalloc (k_kmem s') = 0.
Proof.
  intros Ck M F. unfold kinit, initlock. repeat kstep.
  set (s0 := set_k_kmem _ _). unfold freerange.
  destruct kend_rounded as (A & B & C). pose proof npages_spec as N.
  destruct (freerange_loop_spec npages (PGROUNDUP kend) s0 []) as (s' & R & F' & I & NA).
  - split; [done|]. apply lookup_delete_eq.
  - split; simpl; try done. constructor.
  - intros a Ha. split; [by apply elem_of_all_pages|apply not_elem_of_nil].
  - layout.
  - exists s'. rewrite app_nil_r in I. done.
Qed.

(** ** The allocator and its clients

    Clients call kalloc() and kfree() the pages they were given, and write to
    the pages they hold; [held] is the multiset of pages handed out and not
    returned, [n] the number of successful kalloc() calls. *)

Record astate := mk_astate { a_k : kstate; a_held : list Z; a_count : Z }.

Inductive astep : astate -> astate -> Prop :=
| astep_alloc s s' h n a : kalloc s = Ret a s' -> a <> 0 ->
    astep (mk_astate s h n) (mk_astate s' (a :: h) (n + 1))
| astep_fail s s' h n : kalloc s = Ret 0 s' -> astep (mk_astate s h n) (mk_astate s' h n)
| astep_free s s' h1 h2 n a : kfree a s = Ret tt s' ->
    astep (mk_astate s (h1 ++ a :: h2) n) (mk_astate s' (h1 ++ h2) n)
| astep_write s h n a m : a ∈ h -> mem_ok m ->
    (forall b, b < a \/ a + PGSIZE <= b -> mget m b = mget (k_mem s) b) ->
    astep (mk_astate s h n) (mk_astate (set_k_mem m s) h n).

Definition ainv (x : astate) : Prop :=
  exists l, kmem_inv (a_k x) l /\ lk_free LKmem (a_k x) /\ (l ++ a_held x) ≡ₚ all_pages /\
    km_nalloc (k_kmem (a_k x)) = u64 (a_count x).

Lemma NoDup_all_pages : NoDup all_pages.
Proof. apply NoDup_pages_from. Qed.

Lemma ainv_held_valid s h l a : kmem_inv s l -> (l ++ h) ≡ₚ all_pages -> a ∈ h ->
  valid_page a /\ a ∉ l.
Proof.
  intros I P H. split.
  - apply elem_of_all_pages. rewrite <- P. apply elem_of_app. by right.
  - pose proof NoDup_all_pages as ND. rewrite <- P in ND. apply NoDup_app in ND as (_ & D & _).
    intros Hl. by apply (D a Hl).
Qed.

Lemma astep_ainv x y : astep x y -> ainv x -> ainv y.
Proof.
  intros St (l & I & F & P & N). destruct St as [s s' h n a R Na|s s' h n R|s s' h1 h2 n a R|s h n a m Ha M Fr];
    simpl in *.
  - destruct (kalloc_spec s l F I) as [[-> E]|(b & l' & -> & Nb & E & I')]; [congruence|].
    rewrite E in R. injection R as <- <-. exists l'. split; [done|].
    split; [by apply lk_free_kalloc_state|]. split.
    + rewrite <- P. simpl. by rewrite Permutation_middle.
    + simpl. rewrite N. unfold u64. by rewrite Z.add_mod_idemp_l.
  - destruct (kalloc_spec s l F I) as [[-> E]|(b & l' & -> & Nb & E & I')]; [|congruence].
    rewrite E in R. injection R as <-. exists [].
    split; [by destruct I; split|]. split; [by apply lk_free_settle|done].
  - destruct (ainv_held_valid s (h1 ++ a :: h2) l a I P) as [V D]; [set_solver|].
    rewrite (kfree_eq s a F V) in R. injection R as <-. exists (a :: l).
    split; [by apply kfree_inv|]. split; [by apply lk_free_kfree_state|]. split; [|done].
    rewrite <- P. simpl. by rewrite <- !Permutation_middle.
  - destruct (ainv_held_valid s h l a I P Ha) as [V D]. exists l. split; [|done].
    destruct I as [M0 L0 ND0 V0 N0]. split; try done.
    simpl. eapply flist_frame; [apply V|done|done|exact Fr|done].
Qed.

(** C11 In every state the clients can reach after boot, each page of RAM is
    either on the free list or held by exactly one client, so no page is lost
    or handed out twice; the free-page counter is the number of free pages;
    the allocation counter is the number of successful kalloc() calls modulo
    2^64; kalloc() returns and kfree() of a held page returns (neither panics). *)
Theorem kalloc_conservation s x : cpu_ok (k_cpu s) -> mem_ok (k_mem s) ->
  km_freelist (k_kmem s) = 0 ->
  (exists s', kinit s = Ret tt s' /\ star astep (mk_astate s' [] 0) x) ->
  exists free,
    flist (k_mem (a_k x)) (km_freelist (k_kmem (a_k x))) free /\
    (free ++ a_held x) ≡ₚ all_pages /\ NoDup (free ++ a_held x) /\
    km_nfree (k_kmem (a_k x)) = Z.of_nat npages - Z.of_nat (length (a_held x)) /\
    km_nalloc (k_kmem (a_k x)) = u64 (a_count x) /\
    (exists r s', kalloc (a_k x) = Ret r s') /\
    (forall a, a ∈ a_held x -> exists s', kfree a (a_k x) = Ret tt s').
Proof.
  intros C M E (s' & R & St). destruct (kinit_spec s C M E) as (s1 & R1 & F & I & N).
  rewrite R1 in R. injection R as <-.
  assert (ainv x) as (l & I' & F' & P & N').
  { apply (star_invariant astep ainv astep_ainv _ _ St). exists (rev all_pages).
    split; [done|]. split; [done|]. simpl. rewrite app_nil_r, <- Permutation_rev. done. }
  exists l. split; [apply I'|]. split; [done|]. split; [rewrite P; apply NoDup_all_pages|].
  pose proof (Permutation_length P) as Len. unfold all_pages in Len.
  rewrite length_app, length_pages_from in Len.
  split; [rewrite (ki_nfree _ _ I'); lia|]. split; [done|]. split.
  - destruct (kalloc_spec _ _ F' I') as [[_ K1]|(b & l' & _ & _ & K1 & _)]; eauto.
  - intros a Ha. destruct (ainv_held_valid _ _ _ _ I' P Ha) as [V _]. eauto using kfree_eq.
Qed.

End Kalloc.

(** A layout with the kernel image ending below the last four pages of RAM. *)
Definition small_layout : Layout :=
  {| kend := PHYSTOP - 16 * 4096; ketext := KERNBASE + 0x8000; ktrampoline := KERNBASE + 0x7000;
     kuservec := KERNBASE + 0x7000; kuserret := KERNBASE + 0x709a; kforkret := KERNBASE + 0x1a00;
     kusertrap := KERNBASE + 0x1c00; kernelvec := KERNBASE + 0x5000;
     kend_range := ltac:(unfold PHYSTOP, KERNBASE; lia) |}.

(** Sixteen pages at boot; after one kalloc() fifteen are free and one is held. *)
Lemma kalloc_conservation_witness :
  exists x, length (a_held x) = 1%nat /\ a_count x = 1 /\
    km_nfree (k_kmem (a_k x)) = 15 /\ km_nalloc (k_kmem (a_k x)) = 1.
Proof.
  assert (cpu_ok (k_cpu bss)) as C by (split; simpl; lia).
  destruct (@kinit_spec small_layout bss C mem_ok_empty eq_refl) as (s & R & F & I & N).
  destruct (@kalloc_spec small_layout s _ F I) as [[E _]|(a & l & E & Na & Ra & I')].
  { apply (f_equal length) in E. vm_compute in E. discriminate E. }
  set (x := mk_astate (kalloc_state a s) [a] (0 + 1)).
  destruct (@kalloc_conservation small_layout bss x C mem_ok_empty eq_refl)
    as (free & _ & _ & _ & Nf & Nc & _).
  { exists s. split; [exact R|]. apply star_one. by apply astep_alloc. }
  exists x. split; [reflexivity|]. split; [reflexivity|].
  rewrite Nf, Nc. split; reflexivity.
Defined.
