(* ===== verification/Vm.v ===== *)
(** * Virtual memory (kernel/vm.c), the code

    Page tables are pages of the byte memory holding 512 64-bit PTEs, walked
    and changed by the same loads and stores as in the source.  A loop that
    steps through an address range is bounded by the number of pages of the
    range; VmSpec shows the bounds are never reached. *)

From S2P Require Import Prelude Riscv Memory KState KMonad Spinlock Kalloc.

Definition kload (a : Z) : K Z := gets (fun s => load64 s.(k_mem) a).
(** A dereference that the source does not guard: address 0 is not mapped. *)
Definition kderef (a : Z) : K Z := if a =? 0 then kpanic "kerneltrap" else kload a.
Definition kstore (a v : Z) : K unit := modify (fun s => set_k_mem (store64 s.(k_mem) a v) s).
Definition kmemset (a c : Z) (n : nat) : K unit :=
  modify (fun s => set_k_mem (memset s.(k_mem) a c n) s).
Definition kmemmove (dst src : Z) (n : nat) : K unit :=
  modify (fun s => set_k_mem (memmove s.(k_mem) dst src n) s).
Definition kread (a : Z) (n : nat) : K (list Z) := gets (fun s => read_bytes s.(k_mem) a n).
Definition kwrite (a : Z) (l : list Z) : K unit :=
  modify (fun s => set_k_mem (write_bytes s.(k_mem) a l) s).

Definition PGBYTES : nat := Z.to_nat PGSIZE.

(** The process running on this CPU; with none, [myproc()->...] is a load
    from a null pointer, which traps in the kernel. *)
Definition curproc : K (nat * proc) :=
  o ← myproc;
  match o with
  | None => kpanic "kerneltrap"
  | Some i => p ← gets (fun s => nth i s.(k_procs) zero_proc); mret (i, p)
  end.

Definition setproc (i : nat) (p : proc) : K unit :=
  modify (fun s => set_k_procs (<[i := p]> s.(k_procs)) s).

Definition unbounded {A} : K A := fun _ => Unbounded.

Section Vm.
Context {L : Layout}.

Fixpoint walk_from (level : nat) (pagetable va : Z) (alloc : bool) : K Z :=
  match level with
  | O => mret (pagetable + 8 * PX 0 va)
  | S l =>
      let pte := pagetable + 8 * PX level va in
      v ← kload pte;
      if has v PTE_V then walk_from l (PTE2PA v) va alloc
      else if negb alloc then mret 0
      else
        p ← kalloc;
        if p =? 0 then mret 0 else
        kmemset p 0 PGBYTES ;;
        kstore pte (Z.lor (PA2PTE p) PTE_V) ;;
        walk_from l p va alloc
  end.

Definition walk (pagetable va : Z) (alloc : bool) : K Z :=
  if MAXVA <=? va then kpanic "walk" else walk_from 2 pagetable va alloc.

Definition walkaddr (pagetable va : Z) : K Z :=
  if MAXVA <=? va then mret 0 else
  pte ← walk pagetable va false;
  if pte =? 0 then mret 0 else
  v ← kload pte;
  if negb (has v PTE_V) then mret 0 else
  if negb (has v PTE_U) then mret 0 else
  mret (PTE2PA v).

Fixpoint mappages_loop (n : nat) (pagetable a last pa perm : Z) : K Z :=
  match n with
  | O => unbounded
  | S n' =>
      pte ← walk pagetable a true;
      if pte =? 0 then mret (-1) else
      v ← kload pte;
      if has v PTE_V then kpanic "mappages: remap" else
      kstore pte (Z.lor (Z.lor (PA2PTE pa) perm) PTE_V) ;;
      if a =? last then mret 0
      else mappages_loop n' pagetable (u64 (a + PGSIZE)) last (u64 (pa + PGSIZE)) perm
  end.

Definition mappages (pagetable va size pa perm : Z) : K Z :=
  if negb (va mod PGSIZE =? 0) then kpanic "mappages: va not aligned" else
  if negb (size mod PGSIZE =? 0) then kpanic "mappages: size not aligned" else
  if size =? 0 then kpanic "mappages: size" else
  mappages_loop (Z.to_nat (size / PGSIZE)) pagetable va (u64 (va + size - PGSIZE)) pa perm.

Definition kvmmap (kpgtbl va pa sz perm : Z) : K unit :=
  r ← mappages kpgtbl va sz pa perm;
  if negb (r =? 0) then kpanic "kvmmap" else mret tt.

Definition uvmcreate : K Z :=
  pagetable ← kalloc;
  if pagetable =? 0 then mret 0 else
  kmemset pagetable 0 PGBYTES ;;
  mret pagetable.

Fixpoint uvmunmap_loop (n : nat) (pagetable a stop : Z) (do_free : bool) : K unit :=
  if a <? stop then
    match n with
    | O => unbounded
    | S n' =>
        pte ← walk pagetable a false;
        (if pte =? 0 then mret tt else
         v ← kload pte;
         if negb (has v PTE_V) then mret tt else
         kwhen do_free (kfree (PTE2PA v)) ;;
         kstore pte 0) ;;
        uvmunmap_loop n' pagetable (u64 (a + PGSIZE)) stop do_free
    end
  else mret tt.

Definition uvmunmap (pagetable va npages : Z) (do_free : bool) : K unit :=
  if negb (va mod PGSIZE =? 0) then kpanic "uvmunmap: not aligned" else
  uvmunmap_loop (Z.to_nat npages) pagetable va (u64 (va + npages * PGSIZE)) do_free.

Definition uvmdealloc (pagetable oldsz newsz : Z) : K Z :=
  if oldsz <=? newsz then mret oldsz else
  (if PGROUNDUP newsz <? PGROUNDUP oldsz then
     let npages := s32 ((PGROUNDUP oldsz - PGROUNDUP newsz) / PGSIZE) in
     uvmunmap pagetable (PGROUNDUP newsz) (u64 npages) true
   else mret tt) ;;
  mret newsz.

Fixpoint uvmalloc_loop (n : nat) (pagetable a oldsz newsz xperm : Z) : K Z :=
  if a <? newsz then
    match n with
    | O => unbounded
    | S n' =>
        mem ← kalloc;
        if mem =? 0 then uvmdealloc pagetable a oldsz ;; mret 0 else
        kmemset mem 0 PGBYTES ;;
        r ← mappages pagetable a PGSIZE mem (Z.lor (Z.lor PTE_R PTE_U) xperm);
        if negb (r =? 0) then
          kfree mem ;;
          uvmdealloc pagetable a oldsz ;;
          mret 0
        else uvmalloc_loop n' pagetable (u64 (a + PGSIZE)) oldsz newsz xperm
    end
  else mret newsz.

Definition uvmalloc (pagetable oldsz newsz xperm : Z) : K Z :=
  if newsz <? oldsz then mret oldsz else
  let oldsz' := PGROUNDUP oldsz in
  uvmalloc_loop (Z.to_nat ((newsz - oldsz') / PGSIZE + 1)) pagetable oldsz' oldsz' newsz xperm.

(** freewalk() recurses on the levels of the table, three for Sv39. *)
Fixpoint freewalk_from (level : nat) (pagetable : Z) : K unit :=
  kfor (seq 0 512) (fun i =>
    pte ← kload (pagetable + 8 * Z.of_nat i);
    if (has pte PTE_V && negb (has pte (Z.lor (Z.lor PTE_R PTE_W) PTE_X)))%bool then
      match level with
      | O => unbounded
      | S l => freewalk_from l (PTE2PA pte)
      end ;;
      kstore (pagetable + 8 * Z.of_nat i) 0
    else if has pte PTE_V then kpanic "freewalk: leaf"
    else mret tt) ;;
  kfree pagetable.

Definition freewalk (pagetable : Z) : K unit := freewalk_from 2 pagetable.

Definition uvmfree (pagetable sz : Z) : K unit :=
  kwhen (0 <? sz) (uvmunmap pagetable 0 (PGROUNDUP sz / PGSIZE) true) ;;
  freewalk pagetable.

Fixpoint uvmcopy_loop (n : nat) (old new sz i : Z) : K Z :=
  if i <? sz then
    match n with
    | O => unbounded
    | S n' =>
        pte ← walk old i false;
        if pte =? 0 then uvmcopy_loop n' old new sz (u64 (i + PGSIZE)) else
        v ← kload pte;
        if negb (has v PTE_V) then uvmcopy_loop n' old new sz (u64 (i + PGSIZE)) else
        let pa := PTE2PA v in
        let flags := PTE_FLAGS v in
        mem ← kalloc;
        if mem =? 0 then uvmunmap new 0 (i / PGSIZE) true ;; mret (-1) else
        kmemmove mem pa PGBYTES ;;
        r ← mappages new i PGSIZE mem flags;
        if negb (r =? 0) then
          kfree mem ;;
          uvmunmap new 0 (i / PGSIZE) true ;;
          mret (-1)
        else uvmcopy_loop n' old new sz (u64 (i + PGSIZE))
    end
  else mret 0.

Definition uvmcopy (old new sz : Z) : K Z :=
  uvmcopy_loop (Z.to_nat (sz / PGSIZE + 1)) old new sz 0.

Definition uvmclear (pagetable va : Z) : K unit :=
  pte ← walk pagetable va false;
  if pte =? 0 then kpanic "uvmclear" else
  v ← kload pte;
  kstore pte (Z.land v (u64 (Z.lnot PTE_U))).

Definition ismapped (pagetable va : Z) : K bool :=
  pte ← walk pagetable va false;
  if pte =? 0 then mret false else
  v ← kload pte;
  mret (has v PTE_V).

Definition vmfault (pagetable va : Z) (read : bool) : K Z :=
  '(_, p) ← curproc;
  if p.(p_sz) <=? va then mret 0 else
  let va := PGROUNDDOWN va in
  b ← ismapped pagetable va;
  if b : bool then mret 0 else
  mem ← kalloc;
  if mem =? 0 then mret 0 else
  kmemset mem 0 PGBYTES ;;
  r ← mappages p.(p_pagetable) va PGSIZE mem (Z.lor (Z.lor PTE_W PTE_U) PTE_R);
  if negb (r =? 0) then kfree mem ;; mret 0
  else mret mem.

(** copyout(): the kernel buffer [src, src + len) is the list of its bytes. *)
Fixpoint copyout_loop (fuel : nat) (pagetable dstva : Z) (src : list Z) : K Z :=
  match src with
  | [] => mret 0
  | _ =>
    match fuel with
    | O => unbounded
    | S fuel' =>
      let va0 := PGROUNDDOWN dstva in
      if MAXVA <=? va0 then mret (-1) else
      pa ← walkaddr pagetable va0;
      pa0 ← (if pa =? 0 then vmfault pagetable va0 false else mret pa);
      if pa0 =? 0 then mret (-1) else
      pte ← walk pagetable va0 false;
      v ← kderef pte;
      if negb (has v PTE_W) then mret (-1) else
      let n := Z.to_nat (Z.min (PGSIZE - (dstva - va0)) (Z.of_nat (length src))) in
      kwrite (pa0 + (dstva - va0)) (take n src) ;;
      copyout_loop fuel' pagetable (u64 (va0 + PGSIZE)) (drop n src)
    end
  end.

Definition copyout (pagetable dstva : Z) (src : list Z) : K Z :=
  copyout_loop (length src) pagetable dstva src.

(** The loop of copyin(): the bytes it has stored at dst when it returns, and
    whether it returns 0. *)
Fixpoint copyin_loop (fuel : nat) (pagetable srcva : Z) (len : nat) : K (list Z * bool) :=
  match len with
  | O => mret ([], true)
  | _ =>
    match fuel with
    | O => unbounded
    | S fuel' =>
      let va0 := PGROUNDDOWN srcva in
      pa ← walkaddr pagetable va0;
      pa0 ← (if pa =? 0 then vmfault pagetable va0 false else mret pa);
      if pa0 =? 0 then mret ([], false) else
      let n := Z.to_nat (Z.min (PGSIZE - (srcva - va0)) (Z.of_nat len)) in
      bs ← kread (pa0 + (srcva - va0)) n;
      '(rest, ok) ← copyin_loop fuel' pagetable (u64 (va0 + PGSIZE)) (len - n)%nat;
      mret (bs ++ rest, ok)
    end
  end.

Definition copyin_part (pagetable srcva : Z) (len : nat) : K (list Z * bool) :=
  copyin_loop len pagetable srcva len.

(** copyin() for callers that drop the bytes when it fails: None is -1. *)
Definition copyin (pagetable srcva : Z) (len : nat) : K (option (list Z)) :=
  '(bs, ok) ← copyin_part pagetable srcva len;
  mret (if ok : bool then Some bs else None).

(** The inner loop of copyinstr(): the bytes before a NUL among [n] bytes at
    [p], and whether there was one. *)
Fixpoint scan_str (m : mem) (p : Z) (n : nat) : list Z * bool :=
  match n with
  | O => ([], false)
  | S n' =>
      if mget m p =? 0 then ([], true)
      else let '(l, g) := scan_str m (p + 1) n' in (mget m p :: l, g)
  end.

(** copyinstr(): the string without its NUL, or None for -1. *)
Fixpoint copyinstr_loop (fuel : nat) (pagetable srcva : Z) (max : nat) : K (option (list Z)) :=
  match max with
  | O => mret None
  | _ =>
    match fuel with
    | O => unbounded
    | S fuel' =>
      let va0 := PGROUNDDOWN srcva in
      pa0 ← walkaddr pagetable va0;
      if pa0 =? 0 then mret None else
      let n := Z.to_nat (Z.min (PGSIZE - (srcva - va0)) (Z.of_nat max)) in
      '(l, got_null) ← gets (fun s => scan_str s.(k_mem) (pa0 + (srcva - va0)) n);
      if got_null : bool then mret (Some l) else
      rest ← copyinstr_loop fuel' pagetable (u64 (va0 + PGSIZE)) (max - n)%nat;
      mret (match rest with Some r => Some (l ++ r) | None => None end)
    end
  end.

Definition copyinstr (pagetable srcva : Z) (max : nat) : K (option (list Z)) :=
  copyinstr_loop max pagetable srcva max.

End Vm.
