(* ===== verification/VmSpec.v ===== *)
(** * Virtual memory, what walk() and mappages() do

    [forest m G] says that the page-table pages recorded in [G] form, in
    memory [m], three-level Sv39 trees: [G] maps a root, a level and the
    address bits above that level to the page that holds that directory.  The
    pages are distinct, so a store to one entry changes no other.  [vmok] adds
    the free list, disjoint from the trees.  The theorems give walk(),
    mappages() and walkaddr() in terms of [pte_of m r va], the leaf PTE of an
    address. *)

From S2P Require Import Prelude Riscv Memory KState KMonad Spinlock Kalloc Vm.

(** ** Walking, as a function of memory *)

Fixpoint mwalk (level : nat) (m : mem) (pt va : Z) : option Z :=
  match level with
  | O => Some (pt + 8 * PX 0 va)
  | S l =>
      let v := load64 m (pt + 8 * PX level va) in
      if has v PTE_V then mwalk l m (PTE2PA v) va else None
  end.

(** The leaf PTE of [va] in the table rooted at [pt]; 0 where the table has no
    leaf directory. *)
Definition pte_of (m : mem) (pt va : Z) : Z :=
  match mwalk 2 m pt va with
  | Some a => load64 m a
  | None => 0
  end.

(** The bits of [va] above the index of level [l]. *)
Definition pfx (l : nat) (va : Z) : Z := va / 2 ^ (21 + 9 * Z.of_nat l).

Definition in_page (a b : Z) : Prop := a <= b < a + PGSIZE.

Abbreviation tables := (gmap (Z * nat * Z) Z).

Definition dir_entry (v : Z) (o : option Z) : Prop :=
  match o with
  | Some c => v = Z.lor (PA2PTE c) PTE_V
  | None => has v PTE_V = false
  end.

Record forest (m : mem) (G : tables) : Prop := {
  fo_root r l p a : G !! (r, l, p) = Some a -> G !! (r, 2%nat, 0) = Some r;
  fo_page k a : G !! k = Some a -> page_aligned a /\ 0 < a < 2 ^ 56;
  fo_inj k k' a : G !! k = Some a -> G !! k' = Some a -> k = k';
  fo_level r l p a : G !! (r, l, p) = Some a -> (l <= 2)%nat;
  fo_up r l p a : G !! (r, l, p) = Some a -> (l < 2)%nat -> is_Some (G !! (r, S l, p / 512));
  fo_dir r l p a i : G !! (r, S l, p) = Some a -> 0 <= i < 512 ->
    dir_entry (load64 m (a + 8 * i)) (G !! (r, l, p * 512 + i));
  fo_low r l p a : G !! (r, l, p) = Some a -> 0 <= p * 2 ^ (21 + 9 * Z.of_nat l) < MAXVA;
}.

Lemma pfx_succ l va : 0 <= va -> pfx (S l) va = pfx l va / 512.
Proof.
  intros H. unfold pfx. rewrite Z.div_div by (try apply Z.pow_nonzero; try apply Z.pow_pos_nonneg; lia).
  f_equal. change 512 with (2 ^ 9). rewrite <- Z.pow_add_r by lia. f_equal. lia.
Qed.

Lemma pfx_split l va : 0 <= va -> pfx l va = pfx (S l) va * 512 + PX (S l) va.
Proof.
  intros H. rewrite pfx_succ, PX_spec by done. unfold pfx.
  replace (12 + 9 * Z.of_nat (S l)) with (21 + 9 * Z.of_nat l) by lia.
  pose proof (Z.div_mod (va / 2 ^ (21 + 9 * Z.of_nat l)) 512 ltac:(lia)). lia.
Qed.

Lemma pfx_top va : 0 <= va < MAXVA -> pfx 2 va = 0.
Proof.
  intros H. unfold pfx. apply Z.div_small. split; [lia|].
  change (2 ^ (21 + 9 * Z.of_nat 2)) with (2 ^ 39). unfold MAXVA in H. rewrite Z.shiftl_1_l in H.
  change (9 + 9 + 9 + 12 - 1) with 38 in H. lia.
Qed.

Lemma pfx_low l va : 0 <= va < MAXVA -> 0 <= pfx l va * 2 ^ (21 + 9 * Z.of_nat l) < MAXVA.
Proof.
  intros H. unfold pfx. assert (0 < 2 ^ (21 + 9 * Z.of_nat l)) as Hp by (apply Z.pow_pos_nonneg; lia).
  pose proof (Z.mul_div_le va _ Hp). pose proof (Z.div_pos va _ ltac:(lia) Hp). nia.
Qed.

(** A directory entry that points to a table. *)
Lemma dir_pte c : page_aligned c -> 0 < c < 2 ^ 56 ->
  has (Z.lor (PA2PTE c) PTE_V) PTE_V = true /\ PTE2PA (Z.lor (PA2PTE c) PTE_V) = c /\
  0 <= Z.lor (PA2PTE c) PTE_V < 2 ^ 64.
Proof.
  intros A B. split; [apply has_PTE_V_lor|].
  destruct (PTE2PA_PA2PTE c PTE_V) as [C D]; [lia|done|change PTE_V with 1; lia|].
  split; [done|]. split.
  - apply Z.lor_nonneg. split; [apply u64_range|done].
  - destruct (decide (Z.lor (PA2PTE c) PTE_V = 0)) as [->|N]; [lia|].
    apply Z.log2_lt_cancel. rewrite Z.log2_lor by (apply u64_range || done).
    change (Z.log2 (2 ^ 64)) with 64. change (Z.log2 PTE_V) with 0.
    pose proof (u64_range (Z.shiftl (Z.shiftr c 12) 10)) as R. fold (PA2PTE c) in R.
    destruct (decide (PA2PTE c = 0)) as [->|]; [simpl; lia|].
    pose proof (Z.log2_lt_pow2 (PA2PTE c) 64 ltac:(lia)). lia.
Qed.

Section Spec.
Context {L : Layout}.

Lemma up_chain m G r va a : forest m G -> 0 <= va -> G !! (r, 0%nat, pfx 0 va) = Some a ->
  forall l, (l <= 2)%nat -> is_Some (G !! (r, l, pfx l va)).
Proof.
  intros F Hv H. induction l as [|l IH]; intros Hl; [by eexists|].
  destruct IH as [c Hc]; [lia|]. rewrite pfx_succ by done. by eapply (fo_up m G F).
Qed.

Lemma mwalk_spec m G r va : forest m G -> 0 <= va < MAXVA ->
  forall l pt, (l <= 2)%nat -> G !! (r, l, pfx l va) = Some pt ->
  mwalk l m pt va = (fun t => t + 8 * PX 0 va) <$> (G !! (r, 0%nat, pfx 0 va)).
Proof.
  intros F Hv. induction l as [|l IH]; intros pt Hl E; [by rewrite E|].
  pose proof (fo_dir m G F r l (pfx (S l) va) pt (PX (S l) va) E (PX_range _ _)) as D.
  rewrite <- pfx_split in D by lia. cbn [mwalk].
  destruct (G !! (r, l, pfx l va)) as [c|] eqn:Ec; simpl in D.
  - destruct (fo_page m G F _ _ Ec) as [A B]. destruct (dir_pte c A B) as (V & P & _).
    rewrite D, V, P. apply IH; [lia|done].
  - rewrite D. destruct (G !! (r, 0%nat, pfx 0 va)) eqn:E0; [|done].
    destruct (up_chain m G r va _ F ltac:(lia) E0 l) as [x Hx]; [lia|congruence].
Qed.

(** The leaf PTE of [va], read off the tables. *)
Lemma pte_of_forest m G r va : forest m G -> G !! (r, 2%nat, 0) = Some r -> 0 <= va < MAXVA ->
  mwalk 2 m r va = (fun t => t + 8 * PX 0 va) <$> (G !! (r, 0%nat, pfx 0 va)).
Proof.
  intros F R Hv. apply (mwalk_spec m G r va F Hv 2 r); [lia|]. by rewrite pfx_top.
Qed.

Lemma walk_from_noalloc l : forall pt va s,
  walk_from l pt va false s = Ret (default 0 (mwalk l (k_mem s) pt va)) s.
Proof.
  induction l as [|l IH]; intros pt va s; [done|]. cbn [walk_from mwalk]. unfold kload. kstep.
  case_if; [apply IH|done].
Qed.

Lemma walk_noalloc pt va s : 0 <= va < MAXVA ->
  walk pt va false s = Ret (default 0 (mwalk 2 (k_mem s) pt va)) s.
Proof.
  intros H. unfold walk. destruct (Z.leb_spec MAXVA va); [lia|]. apply walk_from_noalloc.
Qed.

(** ** Growing a table *)

Record vmok (s : kstate) (G : tables) (fl : list Z) : Prop := {
  vo_lock : lk_free LKmem s;
  vo_kmem : kmem_inv s fl;
  vo_forest : forest (k_mem s) G;
  vo_disj k a : G !! k = Some a -> a ∉ fl;
}.

(** The rest of the kernel state is untouched. *)
Definition only_vm (s s' : kstate) : Prop :=
  s' = set_k_mem (k_mem s') (set_k_kmem (k_kmem s') (set_k_cpu (k_cpu s') s)) /\
  (k_cpu s' = k_cpu s \/ k_cpu s' = settle (k_cpu s)).

(** [b] lies outside the page tables and the free pages. *)
Definition outside (G : tables) (fl : list Z) (b : Z) : Prop :=
  (forall k a, G !! k = Some a -> ~ in_page a b) /\ (forall a, a ∈ fl -> ~ in_page a b).

(** Nothing is lost: a page that was free is free, one of the pages [ps], or a
    page table; there are no new roots. *)
Definition kept (G : tables) (fl : list Z) (G' : tables) (fl' ps : list Z) : Prop :=
  (forall a, a ∈ fl -> a ∈ ps \/ a ∈ fl' \/ exists k, G' !! k = Some a) /\
  (forall r, G' !! (r, 2%nat, 0) = Some r -> G !! (r, 2%nat, 0) = Some r).

Lemma kept_refl G fl : kept G fl G fl [].
Proof. split; auto. Qed.

Lemma kept_trans G fl G1 fl1 G2 fl2 ps qs : G1 ⊆ G2 -> kept G fl G1 fl1 ps -> kept G1 fl1 G2 fl2 qs -> kept G fl G2 fl2 (ps ++ qs).
Proof.
  intros Hs [A1 A2] [B1 B2]. split; [|auto]. intros a [Ha|[Ha|[k Ha]]]%A1; [left; apply elem_of_app; by left| |right; right; exists k; by eapply lookup_weaken].
  destruct (B1 a Ha) as [H|H]; [left; apply elem_of_app; by right|by right].
Qed.

(** [s'], [G'], [fl'] extend [s], [G], [fl]: the tables grew with pages taken
    from the front of the free list, and no byte outside them changed. *)
Record vmext (s : kstate) (G : tables) (fl : list Z) (s' : kstate) (G' : tables) (fl' : list Z) : Prop := {
  ve_ok : vmok s' G' fl';
  ve_sub : G ⊆ G';
  ve_used : exists used, fl = used ++ fl' /\
    forall k a, G' !! k = Some a -> G !! k = Some a \/ (G !! k = None /\ a ∈ used);
  ve_rest : only_vm s s';
  ve_frame b : outside G fl b -> mget (k_mem s') b = mget (k_mem s) b;
  ve_kept : kept G fl G' fl' [];
}.

(** The new directories are empty and no leaf PTE changed. *)
Record grown (s : kstate) (G : tables) (fl : list Z) (s' : kstate) (G' : tables) (fl' : list Z) : Prop := {
  gr_ext : vmext s G fl s' G' fl';
  gr_leaf r p a i : G' !! (r, 0%nat, p) = Some a -> 0 <= i < 512 ->
    load64 (k_mem s') (a + 8 * i) =
    match G !! (r, 0%nat, p) with Some a => load64 (k_mem s) (a + 8 * i) | None => 0 end;
}.

Lemma only_vm_refl s : only_vm s s.
Proof. split; [done|by left]. Qed.

Lemma only_vm_trans s1 s2 s3 : only_vm s1 s2 -> only_vm s2 s3 -> only_vm s1 s3.
Proof.
  intros [A B] [C D]. split.
  - rewrite C at 1. rewrite A at 1. done.
  - destruct B as [B|B], D as [D|D]; rewrite D, ?B, ?settle_idem; auto.
Qed.

Lemma only_vm_set_mem m s : only_vm s (set_k_mem m s).
Proof. split; [done|by left]. Qed.

Lemma only_vm_link pa s : only_vm s (link_page pa s).
Proof. split; [done|by right]. Qed.

Lemma only_vm_kfree pa s : only_vm s (kfree_state pa s).
Proof. eapply only_vm_trans; [apply only_vm_set_mem|apply only_vm_link]. Qed.

Lemma only_vm_lock lk s s' : only_vm s s' -> lk_free lk s -> lk_free lk s'.
Proof.
  intros [A B] [C D]. rewrite A. split; [|done]. simpl. destruct B as [->| ->]; [done|].
  by apply cpu_ok_settle.
Qed.

Lemma vmext_refl s G fl : vmok s G fl -> vmext s G fl s G fl.
Proof. intros V. split; try done; [|apply only_vm_refl|apply kept_refl]. exists []. auto. Qed.

Lemma vmext_trans s G fl s1 G1 fl1 s2 G2 fl2 :
  vmext s G fl s1 G1 fl1 -> vmext s1 G1 fl1 s2 G2 fl2 -> vmext s G fl s2 G2 fl2.
Proof.
  intros [A1 A2 (u1 & Au & Ak) A4 A6 A7] [B1 B2 (u2 & Bu & Bk) B4 B6 B7]. split; try done.
  - by transitivity G1.
  - exists (u1 ++ u2). split; [by rewrite Au, Bu, app_assoc|]. intros k a E.
    destruct (Bk k a E) as [E1|[E1 U]].
    + destruct (Ak k a E1) as [?|[? ?]]; [by left|]. right. split; [done|]. apply elem_of_app. by left.
    + right. split; [|apply elem_of_app; by right].
      destruct (G !! k) eqn:EG; [|done]. pose proof (lookup_weaken _ _ _ _ EG A2). congruence.
  - eapply only_vm_trans; eauto.
  - intros b O. rewrite B6, A6; try done. destruct O as [O1 O2]. split.
    + intros k a E. destruct (Ak k a E) as [?|[_ ?]]; [by eapply O1|]. apply O2. rewrite Au.
      apply elem_of_app. by left.
    + intros a Ha. apply O2. rewrite Au. apply elem_of_app. by right.
  - by eapply (kept_trans G fl G1 fl1 G2 fl2 [] []).
Qed.

Lemma grown_refl s G fl : vmok s G fl -> grown s G fl s G fl.
Proof. intros V. split; [by apply vmext_refl|]. intros r p a i E _. by rewrite E. Qed.

Lemma grown_trans s G fl s1 G1 fl1 s2 G2 fl2 :
  grown s G fl s1 G1 fl1 -> grown s1 G1 fl1 s2 G2 fl2 -> grown s G fl s2 G2 fl2.
Proof.
  intros [A A5] [B B5]. split; [by eapply vmext_trans|]. intros r p a i E Hi.
  rewrite (B5 r p a i E Hi). destruct (G1 !! (r, 0%nat, p)) as [a1|] eqn:E1; [by apply A5|].
  destruct (G !! (r, 0%nat, p)) as [a0|] eqn:E0; [|done].
  pose proof (lookup_weaken _ _ _ _ E0 (ve_sub _ _ _ _ _ _ A)). congruence.
Qed.

(** ** Adding a directory *)

(** Entries of page-table pages: two are the same word or do not overlap. *)
Lemma slots_disjoint a b i j : page_aligned a -> page_aligned b ->
  0 <= i < 512 -> 0 <= j < 512 -> (a <> b \/ i <> j) ->
  a + 8 * i + 8 <= b + 8 * j \/ b + 8 * j + 8 <= a + 8 * i.
Proof.
  intros A B Hi Hj [N|N]; [|destruct (decide (a = b)) as [->|]; [lia|]].
  all: destruct (pages_disjoint a b A B) as [D|D]; try done; unfold PGSIZE in D; lia.
Qed.

Lemma valid_page_phys a : valid_page a -> page_aligned a /\ 0 < a < 2 ^ 56.
Proof. intros V. split; [apply V|]. apply valid_page_bounds in V. layout. Qed.

Section AddDir.
Variables (s : kstate) (G : tables) (fl : list Z) (r p pt i a : Z) (l : nat).
Hypothesis OK : vmok s G (a :: fl).
Hypothesis PT : G !! (r, S l, p) = Some pt.
Hypothesis IX : 0 <= i < 512.
Hypothesis NEW : G !! (r, l, p * 512 + i) = None.
Hypothesis LOW : 0 <= (p * 512 + i) * 2 ^ (21 + 9 * Z.of_nat l) < MAXVA.

Let s' : kstate :=
  set_k_mem (store64 (memset (k_mem (kalloc_state a s)) a 0 PGBYTES) (pt + 8 * i)
               (Z.lor (PA2PTE a) PTE_V)) (kalloc_state a s).
Let G' : tables := <[(r, l, p * 512 + i) := a]> G.

Lemma add_dir_fresh k : G !! k <> Some a.
Proof. intros E. apply (vo_disj s G _ OK k a E). apply list_elem_of_here. Qed.

Lemma add_dir_valid : valid_page a.
Proof. destruct (vo_kmem _ _ _ OK) as [_ _ _ V _]. by inversion V. Qed.

Lemma add_dir_frame b : ~ in_page a b -> (b < pt + 8 * i \/ pt + 8 * i + 8 <= b) ->
  mget (k_mem s') b = mget (k_mem s) b.
Proof.
  intros A B. unfold s'. cbn [k_mem set_k_mem]. rewrite mget_store64_out by done.
  rewrite mget_memset. unfold in_page in A. rewrite decide_False by (unfold PGBYTES, PGSIZE in *; lia).
  apply (kalloc_inv s a fl (vo_kmem _ _ _ OK)). lia.
Qed.

Lemma add_dir_apart : a <> pt.
Proof. intros E. apply (add_dir_fresh (r, S l, p)). by rewrite E. Qed.

Lemma add_dir_zero j : 0 <= j < 512 -> load64 (k_mem s') (a + 8 * j) = 0.
Proof.
  intros Hj. unfold s'. cbn [k_mem set_k_mem].
  destruct (fo_page _ _ (vo_forest _ _ _ OK) _ _ PT) as [A _].
  rewrite load64_store64_ne.
  - rewrite (load64_ext _ ∅); [reflexivity|]. intros b Hb. rewrite mget_memset.
    rewrite decide_True by (unfold PGBYTES, PGSIZE; lia). done.
  - apply slots_disjoint; try done; [apply add_dir_valid|left; apply add_dir_apart].
Qed.

Lemma add_dir_slot : load64 (k_mem s') (pt + 8 * i) = Z.lor (PA2PTE a) PTE_V.
Proof.
  apply load64_store64_eq. destruct (valid_page_phys a add_dir_valid) as [A B].
  by apply (dir_pte a A B).
Qed.

(** Every other entry of every table keeps its value. *)
Lemma add_dir_other k b j : G !! k = Some b -> 0 <= j < 512 -> (k <> (r, S l, p) \/ j <> i) ->
  load64 (k_mem s') (b + 8 * j) = load64 (k_mem s) (b + 8 * j).
Proof.
  intros E Hj N. destruct (fo_page _ _ (vo_forest _ _ _ OK) _ _ E) as [B _].
  destruct (fo_page _ _ (vo_forest _ _ _ OK) _ _ PT) as [A _].
  assert (b <> pt \/ j <> i) as N'.
  { destruct N as [N|N]; [|by right]. left. intros ->. apply N.
    by apply (fo_inj _ _ (vo_forest _ _ _ OK) _ _ pt). }
  destruct (slots_disjoint b pt j i B A Hj IX N') as [D|D].
  all: destruct (pages_disjoint a b (proj1 add_dir_valid) B) as [P|P];
    [intros Eb; apply (add_dir_fresh k); by rewrite Eb| |].
  all: apply load64_ext; intros c Hc; apply add_dir_frame;
    [unfold in_page; unfold PGSIZE in *; lia|lia].
Qed.

Lemma add_dir_forest : forest (k_mem s') G'.
Proof.
  pose proof (vo_forest _ _ _ OK) as F. destruct (valid_page_phys a add_dir_valid) as [Pa Ba].
  assert (l < 2)%nat as Hl by (pose proof (fo_level _ _ F _ _ _ _ PT); lia).
  split; unfold G'.
  - intros r0 l0 p0 a0 E. rewrite lookup_insert_ne by (intros [= ? ? ?]; lia).
    apply lookup_insert_Some in E as [[[= <- <- <-] _]|[_ E]]; eauto using fo_root.
  - intros k a0 E. apply lookup_insert_Some in E as [[_ <-]|[_ E]]; [done|].
    by apply (fo_page _ _ F k).
  - intros k k' a0 E E'. apply lookup_insert_Some in E as [[<- Ea]|[_ E]];
      apply lookup_insert_Some in E' as [[<- Ea']|[_ E']]; try done.
    + exfalso. apply (add_dir_fresh k'). by rewrite Ea.
    + exfalso. apply (add_dir_fresh k). by rewrite Ea'.
    + by apply (fo_inj _ _ F k k' a0).
  - intros r0 l0 p0 a0 E. apply lookup_insert_Some in E as [[[= <- <- <-] _]|[_ E]]; [lia|].
    by apply (fo_level _ _ F r0 l0 p0 a0).
  - intros r0 l0 p0 a0 E Hl0. apply lookup_insert_Some in E as [[[= <- <- <-] _]|[_ E]].
    + replace ((p * 512 + i) / 512) with p by (rewrite Z.div_add_l, Z.div_small; lia).
      rewrite lookup_insert_ne by (intros [= ?]; lia). eauto.
    + destruct (fo_up _ _ F r0 l0 p0 a0 E Hl0) as [c Hc].
      destruct (decide ((r, l, p * 512 + i) = (r0, S l0, p0 / 512))) as [->|N].
      * rewrite lookup_insert_eq. eauto.
      * rewrite lookup_insert_ne by done. eauto.
  - intros r0 l0 p0 a0 j E Hj. apply lookup_insert_Some in E as [[[= <- El <-] <-]|[N E]].
    + rewrite add_dir_zero by done. rewrite lookup_insert_ne by (intros [= ?]; lia).
      destruct (G !! (r, l0, (p * 512 + i) * 512 + j)) as [c|] eqn:Ec; [|done].
      destruct (fo_up _ _ F _ _ _ _ Ec ltac:(lia)) as [d Hd].
      rewrite Z.div_add_l, Z.div_small, Z.add_0_r, <- El in Hd by lia. congruence.
    + destruct (decide ((r0, S l0, p0) = (r, S l, p) /\ j = i)) as [[[= -> -> ->] ->]|N'].
      * replace a0 with pt by congruence. rewrite lookup_insert_eq, add_dir_slot. done.
      * assert ((r0, S l0, p0) <> (r, S l, p) \/ j <> i) as N2.
        { destruct (decide (j = i)); [left; tauto|by right]. }
        rewrite (add_dir_other _ _ _ E Hj N2).
        rewrite lookup_insert_ne; [by apply (fo_dir _ _ F r0 l0 p0 a0 j)|].
        intros [= <- <- Eq]. apply N'. assert (p0 = p) as -> by lia. split; [done|lia].
  - intros r0 l0 p0 a0 E. apply lookup_insert_Some in E as [[[= <- <- <-] _]|[_ E]]; [done|].
    by apply (fo_low _ _ F r0 l0 p0 a0).
Qed.

Lemma add_dir_grown : grown s G (a :: fl) s' G' fl.
Proof.
  destruct (kalloc_inv s a fl (vo_kmem _ _ _ OK)) as (I & V & Na & _).
  pose proof (vo_forest _ _ _ OK) as F. split; [split|].
  - split.
    + apply lk_free_set_mem, lk_free_kalloc_state, OK.
    + apply kmem_inv_set_mem; [exact I|apply mem_ok_store64, mem_ok_memset, I|].
      intros b Hb. apply load64_ext. intros c Hc.
      pose proof (ki_valid _ _ I) as Vl. rewrite Forall_forall in Vl. pose proof (Vl b Hb) as [Ab _].
      destruct (fo_page _ _ F _ _ PT) as [At _].
      assert (b <> pt).
      { intros Eb. apply (vo_disj _ _ _ OK _ _ PT). rewrite <- Eb. by apply list_elem_of_further. }
      assert (b <> a) by (intros Eb; apply Na; by rewrite <- Eb).
      rewrite mget_store64_out.
      * rewrite mget_memset, decide_False; [done|].
        destruct (pages_disjoint a b (proj1 V) Ab) as [D|D]; [done| |];
          unfold PGBYTES, PGSIZE in *; lia.
      * destruct (pages_disjoint pt b At Ab) as [D|D]; [done| |]; unfold PGSIZE in *; lia.
    + apply add_dir_forest.
    + intros k c E. unfold G' in E. apply lookup_insert_Some in E as [[_ <-]|[_ E]]; [done|].
      intros Hc. apply (vo_disj _ _ _ OK _ _ E). by apply list_elem_of_further.
  - by apply insert_subseteq.
  - exists [a]. split; [done|]. intros k c E. unfold G' in E.
    apply lookup_insert_Some in E as [[<- <-]|[_ E]]; [|by left].
    right. split; [done|]. apply list_elem_of_here.
  - split; [reflexivity|by right].
  - intros b [O1 O2]. apply add_dir_frame; [apply O2, list_elem_of_here|].
    specialize (O1 _ _ PT). unfold in_page, PGSIZE in O1. lia.
  - split.
    + intros c [->|Hc]%elem_of_cons; [|by auto]. right. right. exists (r, l, p * 512 + i). apply lookup_insert_eq.
    + intros r0 E. unfold G' in E. apply lookup_insert_Some in E as [[[= -> -> E0] _]|[_ E]]; [|done].
      pose proof (fo_level _ _ F _ _ _ _ PT). lia.
  - intros r0 p0 b j E Hj. unfold G' in E. apply lookup_insert_Some in E as [[[= <- El <-] <-]|[N E]].
    + rewrite <- El, NEW. by apply add_dir_zero.
    + rewrite E. apply (add_dir_other _ _ _ E Hj). by left.
Qed.

End AddDir.

(** ** walk() *)

(** walk() with [alloc] set either finds or builds the leaf directory of [va],
    or runs out of memory; nothing else of the mapping changes. *)
Lemma walk_from_alloc r va : 0 <= va < MAXVA -> forall l s G fl pt,
  vmok s G fl -> (l <= 2)%nat -> G !! (r, l, pfx l va) = Some pt ->
  exists x s' G' fl', walk_from l pt va true s = Ret x s' /\ grown s G fl s' G' fl' /\
    ((x = 0 /\ fl' = [] /\ (length fl < l)%nat) \/
     (exists t, G' !! (r, 0%nat, pfx 0 va) = Some t /\ x = t + 8 * PX 0 va /\
        (length fl <= length fl' + l)%nat)).
Proof.
  intros Hv. induction l as [|l IH]; intros s G fl pt OK Hl E.
  { exists (pt + 8 * PX 0 va), s, G, fl. split; [done|]. split; [by apply grown_refl|]. right.
    exists pt. split; [done|]. split; [done|lia]. }
  cbn [walk_from]. unfold kload. kstep.
  pose proof (vo_forest _ _ _ OK) as F.
  pose proof (fo_dir _ _ F r l (pfx (S l) va) pt (PX (S l) va) E (PX_range _ _)) as D.
  rewrite <- pfx_split in D by lia.
  destruct (G !! (r, l, pfx l va)) as [c|] eqn:Ec; simpl in D.
  - destruct (fo_page _ _ F _ _ Ec) as [A B]. destruct (dir_pte c A B) as (V & P & _).
    rewrite D, V, P.
    destruct (IH s G fl c OK) as (x & s2 & G2 & fl2 & R2 & Gr2 & Res); [lia|done|].
    exists x, s2, G2, fl2. split; [exact R2|]. split; [done|].
    destruct Res as [(? & ? & ?)|(t & ? & ? & ?)]; [left|right; exists t]; split_and!; (done || lia).
  - rewrite D. cbn [negb].
    destruct (kalloc_spec s fl (vo_lock _ _ _ OK) (vo_kmem _ _ _ OK))
      as [[-> R]|(a & fl' & -> & Na & R & I)].
    + rewrite (bind_ret _ _ _ _ _ R). exists 0, (ksettle s), G, []. split; [done|].
      split; [|left; split_and!; (done || simpl; lia)].
      split; [|intros r0 p0 b i E0 _; by rewrite E0].
      destruct OK as [O1 O2 O3 O4]. split; try done.
      * split; try done; [by apply lk_free_settle|by destruct O2; split].
      * exists []. auto.
      * split; [done|by right].
      * apply kept_refl.
    + rewrite (bind_ret _ _ _ _ _ R). destruct (Z.eqb_spec a 0); [done|].
      unfold kmemset, kstore. kstep. kstep. rewrite k_mem_set, set_k_mem_twice.
      pose proof (pfx_split l va ltac:(lia)) as Sp.
      assert (G !! (r, l, pfx (S l) va * 512 + PX (S l) va) = None) as New by (by rewrite <- Sp).
      pose proof (add_dir_grown s G fl' r (pfx (S l) va) pt (PX (S l) va) a l OK E (PX_range _ _) New) as Gr.
      rewrite <- Sp in Gr. specialize (Gr (pfx_low l va Hv)).
      destruct (IH _ _ fl' a (ve_ok _ _ _ _ _ _ (gr_ext _ _ _ _ _ _ Gr))) as (x & s2 & G2 & fl2 & R2 & Gr2 & Res);
        [lia|apply lookup_insert_eq|].
      exists x, s2, G2, fl2. split; [exact R2|]. split; [by eapply grown_trans|]. simpl.
      destruct Res as [(? & ? & ?)|(t & ? & ? & ?)]; [left|right; exists t]; split_and!; (done || lia).
Qed.

Lemma walk_alloc r va s G fl : vmok s G fl -> G !! (r, 2%nat, 0) = Some r -> 0 <= va < MAXVA ->
  exists x s' G' fl', walk r va true s = Ret x s' /\ grown s G fl s' G' fl' /\
    ((x = 0 /\ fl' = [] /\ (length fl < 2)%nat) \/
     (exists t, G' !! (r, 0%nat, pfx 0 va) = Some t /\ x = t + 8 * PX 0 va /\
        (length fl <= length fl' + 2)%nat)).
Proof.
  intros OK R Hv. unfold walk. destruct (Z.leb_spec MAXVA va); [lia|].
  apply (walk_from_alloc r va Hv 2 s G fl r OK); [lia|]. by rewrite pfx_top.
Qed.

Lemma pte_of_eq m G r va : forest m G -> G !! (r, 2%nat, 0) = Some r -> 0 <= va < MAXVA ->
  pte_of m r va = match G !! (r, 0%nat, pfx 0 va) with
                  | Some t => load64 m (t + 8 * PX 0 va)
                  | None => 0
                  end.
Proof.
  intros F R Hv. unfold pte_of. rewrite (pte_of_forest m G r va F R Hv).
  by destruct (G !! (r, 0%nat, pfx 0 va)).
Qed.

(** Growing a table changes no leaf PTE of any table. *)
Lemma grown_pte_of s G fl s' G' fl' r va : grown s G fl s' G' fl' -> vmok s G fl ->
  G !! (r, 2%nat, 0) = Some r -> 0 <= va < MAXVA ->
  pte_of (k_mem s') r va = pte_of (k_mem s) r va.
Proof.
  intros Gr OK R Hv. pose proof (lookup_weaken _ _ _ _ R (ve_sub _ _ _ _ _ _ (gr_ext _ _ _ _ _ _ Gr))) as R'.
  rewrite (pte_of_eq _ _ _ _ (vo_forest _ _ _ OK) R Hv).
  rewrite (pte_of_eq _ _ _ _ (vo_forest _ _ _ (ve_ok _ _ _ _ _ _ (gr_ext _ _ _ _ _ _ Gr))) R' Hv).
  destruct (G' !! (r, 0%nat, pfx 0 va)) as [t|] eqn:E.
  - rewrite (gr_leaf _ _ _ _ _ _ Gr _ _ _ _ E (PX_range _ _)).
    by destruct (G !! (r, 0%nat, pfx 0 va)).
  - destruct (G !! (r, 0%nat, pfx 0 va)) eqn:E0; [|done].
    pose proof (lookup_weaken _ _ _ _ E0 (ve_sub _ _ _ _ _ _ (gr_ext _ _ _ _ _ _ Gr))). congruence.
Qed.

(** ** Writing a leaf PTE *)

Lemma vpn_eq va va' : 0 <= va -> 0 <= va' ->
  (pfx 0 va = pfx 0 va' /\ PX 0 va = PX 0 va') <-> va / PGSIZE = va' / PGSIZE.
Proof.
  intros H H'. assert (forall v, 0 <= v -> v / PGSIZE = pfx 0 v * 512 + PX 0 v) as D.
  { intros v Hv. rewrite PX_spec by done. unfold pfx.
    change (2 ^ (21 + 9 * Z.of_nat 0)) with 2097152. change (2 ^ (12 + 9 * Z.of_nat 0)) with PGSIZE.
    replace 2097152 with (PGSIZE * 512) by done. rewrite <- Z.div_div by (unfold PGSIZE; lia).
    pose proof (Z.div_mod (v / PGSIZE) 512 ltac:(lia)). lia. }
  rewrite !D by done. pose proof (PX_range 0 va). pose proof (PX_range 0 va'). lia.
Qed.

Lemma set_leaf s G fl r va t v :
  vmok s G fl -> G !! (r, 0%nat, pfx 0 va) = Some t -> 0 <= va < MAXVA -> 0 <= v < 2 ^ 64 ->
  let s' := set_k_mem (store64 (k_mem s) (t + 8 * PX 0 va) v) s in
  vmext s G fl s' G fl /\
  forall r' va', G !! (r', 2%nat, 0) = Some r' -> 0 <= va' < MAXVA ->
    pte_of (k_mem s') r' va' =
    if decide (r' = r /\ va' / PGSIZE = va / PGSIZE) then v else pte_of (k_mem s) r' va'.
Proof.
  intros OK E Hv Hw s'. pose proof (vo_forest _ _ _ OK) as F.
  destruct (fo_page _ _ F _ _ E) as [At _].
  assert (forall k b j, G !! k = Some b -> 0 <= j < 512 -> (k <> (r, 0%nat, pfx 0 va) \/ j <> PX 0 va) ->
    load64 (k_mem s') (b + 8 * j) = load64 (k_mem s) (b + 8 * j)) as Other.
  { intros k b j Ek Hj N. destruct (fo_page _ _ F _ _ Ek) as [Ab _].
    apply load64_store64_ne. apply slots_disjoint; try done; [apply PX_range|].
    destruct N as [N|N]; [|by right]. left. intros ->. apply N. by apply (fo_inj _ _ F k _ t). }
  assert (forest (k_mem s') G) as F'.
  { split; [apply F|apply F|apply F|apply F|apply F| |apply F].
    intros r0 l p a i Ea Hi. rewrite (Other _ _ _ Ea Hi); [by apply (fo_dir _ _ F)|by left]. }
  split.
  - split; try done.
    + split; [apply lk_free_set_mem, OK| |done|apply OK].
      apply kmem_inv_set_mem; [apply OK|apply mem_ok_store64, OK|].
      intros a Ha. apply load64_store64_ne. pose proof (PX_range 0 va).
      pose proof (ki_valid _ _ (vo_kmem _ _ _ OK)) as V. rewrite Forall_forall in V.
      destruct (pages_disjoint a t (proj1 (V a Ha)) At) as [D|D]; unfold PGSIZE in *; try lia.
      intros ->. by apply (vo_disj _ _ _ OK _ _ E).
    + exists []. auto.
    + split; [done|by left].
    + intros b [O _]. apply mget_store64_out. specialize (O _ _ E).
      pose proof (PX_range 0 va). unfold in_page, PGSIZE in O. lia.
    + apply kept_refl.
  - intros r' va' R' Hv'. rewrite (pte_of_eq _ _ _ _ F' R' Hv'), (pte_of_eq _ _ _ _ F R' Hv').
    case_decide as C.
    + destruct C as [-> C]. apply vpn_eq in C as [C1 C2]; [|lia|lia].
      rewrite C1, C2, E. by apply load64_store64_eq.
    + destruct (G !! (r', 0%nat, pfx 0 va')) as [t'|] eqn:E'; [|done].
      apply (Other _ _ _ E' (PX_range _ _)).
      destruct (decide (PX 0 va' = PX 0 va)) as [Ep|]; [|by right]. left.
      intros [= -> Ef]. apply C. split; [done|]. apply vpn_eq; try lia; done.
Qed.

(** ** mappages() *)

(** The PTE mappages() installs for a page. *)
Definition leaf_pte (pa perm : Z) : Z := Z.lor (Z.lor (PA2PTE pa) perm) PTE_V.

Lemma leaf_pte_spec pa perm : page_aligned pa -> 0 <= pa < 2 ^ 56 -> 0 <= perm < 1024 ->
  0 <= leaf_pte pa perm < 2 ^ 64 /\ has (leaf_pte pa perm) PTE_V = true /\
  PTE2PA (leaf_pte pa perm) = pa /\ PTE_FLAGS (leaf_pte pa perm) = Z.lor perm PTE_V.
Proof.
  intros A B C. unfold leaf_pte. rewrite <- Z.lor_assoc.
  assert (0 <= Z.lor perm PTE_V < 1024) as D.
  { split; [apply Z.lor_nonneg; split; [lia|done]|].
    destruct (decide (Z.lor perm PTE_V = 0)) as [->|N]; [lia|].
    assert (0 <= Z.lor perm PTE_V) by (apply Z.lor_nonneg; split; [lia|done]).
    apply Z.log2_lt_cancel. rewrite Z.log2_lor by (lia || done).
    change (Z.log2 1024) with 10. change (Z.log2 PTE_V) with 0.
    destruct (decide (perm = 0)) as [->|]; [simpl; lia|].
    pose proof (Z.log2_lt_pow2 perm 10 ltac:(lia)). lia. }
  destruct (PTE2PA_PA2PTE pa (Z.lor perm PTE_V) B A D) as [E1 E2].
  split; [|split; [rewrite Z.lor_assoc; apply has_PTE_V_lor|done]].
  pose proof (u64_range (Z.shiftl (Z.shiftr pa 12) 10)) as R. fold (PA2PTE pa) in R.
  assert (0 <= Z.lor (PA2PTE pa) (Z.lor perm PTE_V)) by (apply Z.lor_nonneg; lia).
  split; [done|]. destruct (decide (Z.lor (PA2PTE pa) (Z.lor perm PTE_V) = 0)) as [->|N]; [lia|].
  apply Z.log2_lt_cancel. rewrite Z.log2_lor by lia. change (Z.log2 (2 ^ 64)) with 64.
  apply Z.max_lub_lt.
  - destruct (decide (PA2PTE pa = 0)) as [->|]; [simpl; lia|]. apply Z.log2_lt_pow2; lia.
  - destruct (decide (Z.lor perm PTE_V = 0)) as [->|]; [simpl; lia|]. apply Z.log2_lt_pow2; lia.
Qed.

(** What the mapping of table [r] is after [k] pages at [va] were mapped to
    consecutive pages from [pa]. *)
Definition mapped (m m' : mem) (G : tables) (r va pa perm : Z) (k : nat) : Prop :=
  forall r' va', G !! (r', 2%nat, 0) = Some r' -> 0 <= va' < MAXVA ->
  pte_of m' r' va' =
  if decide (r' = r /\ va <= va' < va + Z.of_nat k * PGSIZE)
  then leaf_pte (pa + (PGROUNDDOWN va' - va)) perm
  else pte_of m r' va'.

Lemma page_window va va' : page_aligned va -> 0 <= va -> 0 <= va' ->
  va' / PGSIZE = va / PGSIZE <-> va <= va' < va + PGSIZE.
Proof.
  unfold page_aligned, PGSIZE. intros A B C.
  pose proof (Z.div_mod va 4096 ltac:(lia)). pose proof (Z.div_mod va' 4096 ltac:(lia)).
  pose proof (Z.mod_pos_bound va' 4096 ltac:(lia)). lia.
Qed.

Lemma PGROUNDDOWN_window va va' : page_aligned va -> va <= va' < va + PGSIZE -> PGROUNDDOWN va' = va.
Proof.
  intros A B. rewrite PGROUNDDOWN_mod. unfold page_aligned, PGSIZE in *.
  pose proof (Z.div_mod va 4096 ltac:(lia)). pose proof (Z.div_mod va' 4096 ltac:(lia)).
  pose proof (Z.mod_pos_bound va' 4096 ltac:(lia)). lia.
Qed.

Lemma page_aligned_add a : page_aligned a -> page_aligned (a + PGSIZE).
Proof. unfold page_aligned. intros H. rewrite Z.add_mod, H by done. done. Qed.

(** One iteration of mappages(): the page at [a] is mapped, or memory ran out
    and no PTE changed. *)
Lemma map_page r perm s G fl a pa :
  vmok s G fl -> G !! (r, 2%nat, 0) = Some r -> 0 <= perm < 1024 ->
  page_aligned a -> 0 <= a < MAXVA -> page_aligned pa -> 0 <= pa < 2 ^ 56 ->
  has (pte_of (k_mem s) r a) PTE_V = false ->
  exists x s1 G' fl', walk r a true s = Ret x s1 /\
    ((x = 0 /\ fl' = [] /\ (length fl < 2)%nat /\ vmext s G fl s1 G' fl' /\ mapped (k_mem s) (k_mem s1) G r a pa perm 0) \/
     (x <> 0 /\ has (load64 (k_mem s1) x) PTE_V = false /\ (length fl <= length fl' + 2)%nat /\
      let s2 := set_k_mem (store64 (k_mem s1) x (leaf_pte pa perm)) s1 in
      vmext s G fl s2 G' fl' /\ mapped (k_mem s) (k_mem s2) G r a pa perm 1)).
Proof.
  intros OK R Hp Aa Ha Ap Hpa U.
  destruct (walk_alloc r a s G fl OK R Ha) as (x & s1 & G' & fl' & W & Gr & Res).
  pose proof (ve_ok _ _ _ _ _ _ (gr_ext _ _ _ _ _ _ Gr)) as OK1.
  assert (forall r' va', G !! (r', 2%nat, 0) = Some r' -> 0 <= va' < MAXVA ->
    pte_of (k_mem s1) r' va' = pte_of (k_mem s) r' va') as P1
    by (intros; by eapply grown_pte_of).
  exists x, s1, G', fl'. split; [done|]. destruct Res as [(-> & -> & Hl)|(t & E & -> & Hl)].
  - left. split; [done|]. split; [done|]. split; [done|]. split; [apply Gr|].
    intros r' va' R' Hv'. rewrite decide_False by (unfold PGSIZE; lia). by apply P1.
  - right. destruct (fo_page _ _ (vo_forest _ _ _ OK1) _ _ E) as [_ Ht].
    pose proof (PX_range 0 a) as Rx. split; [lia|].
    pose proof (lookup_weaken _ _ _ _ R (ve_sub _ _ _ _ _ _ (gr_ext _ _ _ _ _ _ Gr))) as R1.
    pose proof (pte_of_eq _ _ _ _ (vo_forest _ _ _ OK1) R1 Ha) as Q. rewrite E in Q.
    split; [rewrite <- Q, (P1 _ _ R Ha); done|]. split; [done|].
    destruct (leaf_pte_spec pa perm Ap Hpa Hp) as (Lr & _).
    destruct (set_leaf s1 G' fl' r a t (leaf_pte pa perm) OK1 E Ha Lr) as [X S].
    split; [eapply vmext_trans; [apply Gr|exact X]|]. intros r' va' R' Hv'.
    rewrite S; [|by eapply lookup_weaken; [|apply Gr]|done].
    rewrite (P1 _ _ R' Hv'). change (Z.of_nat 1 * PGSIZE) with PGSIZE.
    destruct (decide (r' = r /\ a <= va' < a + PGSIZE)) as [[-> C]|N].
    + rewrite decide_True
        by (split; [done|apply (page_window a va' Aa ltac:(lia) ltac:(lia)); done]).
      f_equal. rewrite (PGROUNDDOWN_window a va') by done. lia.
    + rewrite decide_False; [done|]. intros [-> C]. apply N. split; [done|].
      by apply (page_window a va' Aa ltac:(lia) ltac:(lia)).
Qed.

Lemma mappages_loop_spec r perm : 0 <= perm < 1024 -> forall n s G fl a pa,
  vmok s G fl -> G !! (r, 2%nat, 0) = Some r -> page_aligned a -> page_aligned pa ->
  0 <= a -> a + Z.of_nat n * PGSIZE <= MAXVA -> 0 <= pa -> pa + Z.of_nat n * PGSIZE <= 2 ^ 56 ->
  (0 < n)%nat ->
  (forall va, a <= va < a + Z.of_nat n * PGSIZE -> has (pte_of (k_mem s) r va) PTE_V = false) ->
  exists x s' G' fl' k,
    mappages_loop n r a (a + (Z.of_nat n - 1) * PGSIZE) pa perm s = Ret x s' /\
    vmext s G fl s' G' fl' /\ mapped (k_mem s) (k_mem s') G r a pa perm k /\
    ((x = 0 /\ k = n /\ (length fl <= length fl' + 2 * n)%nat) \/
     (x = -1 /\ (k < n)%nat /\ fl' = [] /\ (length fl < 2 * n)%nat)).
Proof.
  intros Hp. induction n as [|n IH]; intros s G fl a pa OK R Aa Ap Ha Hm Hpa Hpm Hn U; [lia|].
  assert (0 <= a < MAXVA) as Ha' by (unfold PGSIZE in *; lia).
  assert (0 <= pa < 2 ^ 56) as Hpa' by (unfold PGSIZE in *; lia).
  cbn [mappages_loop].
  destruct (map_page r perm s G fl a pa OK R Hp Aa Ha' Ap Hpa') as (x & s1 & G' & fl' & W & Res);
    [apply U; unfold PGSIZE; lia|].
  rewrite (bind_ret _ _ _ _ _ W). destruct Res as [(-> & -> & Hl & X & M)|(Nx & V & Hl & X & M)].
  { exists (-1), s1, G', [], 0%nat. split; [done|]. split; [done|]. split; [done|].
    right. split_and!; (done || lia). }
  destruct (Z.eqb_spec x 0); [done|]. unfold kload, kstore. kstep. rewrite V. kstep.
  fold (leaf_pte pa perm). set (s2 := set_k_mem _ s1) in *.
  destruct (Z.eqb_spec a (a + (Z.of_nat (S n) - 1) * PGSIZE)) as [E|E].
  { assert (n = 0%nat) as -> by (unfold PGSIZE in *; lia).
    exists 0, s2, G', fl', 1%nat. split; [done|]. split; [done|]. split; [done|]. left. split_and!; (done || lia). }
  assert (MAXVA < 2 ^ 64) as BV by done.
  rewrite !u64_small by (unfold PGSIZE in *; lia).
  pose proof (lookup_weaken _ _ _ _ R (ve_sub _ _ _ _ _ _ X)) as R2.
  destruct (IH s2 G' fl' (a + PGSIZE) (pa + PGSIZE)) as (y & s3 & G3 & fl3 & k & W3 & X3 & M3 & Res);
    try done; try (by apply page_aligned_add); try (unfold PGSIZE in *; lia).
  { exact (ve_ok _ _ _ _ _ _ X). }
  { intros va Hva. rewrite (M r va R) by (unfold PGSIZE in *; lia).
    rewrite decide_False by (unfold PGSIZE in *; lia). apply U. unfold PGSIZE in *. lia. }
  replace (a + PGSIZE + (Z.of_nat n - 1) * PGSIZE) with (a + (Z.of_nat (S n) - 1) * PGSIZE) in W3
    by (unfold PGSIZE; lia).
  exists y, s3, G3, fl3, (S k). split; [done|]. split; [by eapply vmext_trans|].
  split; [|destruct Res as [(-> & -> & Hl3)|(-> & Hk & -> & Hl3)]; [left|right]; split_and!; (done || simpl in *; lia)].
  intros r' va' R' Hv'. rewrite (M3 r' va') by (try done; by eapply lookup_weaken; [|apply X]).
  rewrite (M r' va' R' Hv').
  destruct (decide (r' = r /\ a <= va' < a + Z.of_nat (S k) * PGSIZE)) as [[-> C]|N].
  - destruct (decide (va' < a + PGSIZE)).
    + rewrite decide_False by (unfold PGSIZE in *; lia). rewrite decide_True by (unfold PGSIZE in *; lia). done.
    + rewrite decide_True by (unfold PGSIZE in *; lia). f_equal. lia.
  - rewrite !decide_False; [done| |]; intros [-> C]; apply N; split; try done; unfold PGSIZE in *; lia.
Qed.

(** walkaddr() translates exactly the pages mapped valid and for the user. *)
Definition uaddr (m : mem) (r va : Z) : Z :=
  let v := pte_of m r va in
  if (has v PTE_V && has v PTE_U)%bool then PTE2PA v else 0.

Lemma has_0 f : has 0 f = false.
Proof. unfold has. by rewrite Z.land_0_l. Qed.

Lemma walkaddr_eq r va s G fl : vmok s G fl -> G !! (r, 2%nat, 0) = Some r -> 0 <= va < MAXVA ->
  walkaddr r va s = Ret (uaddr (k_mem s) r va) s.
Proof.
  intros OK R Hv. unfold walkaddr, uaddr. destruct (Z.leb_spec MAXVA va); [lia|].
  rewrite (bind_ret _ _ _ _ _ (walk_noalloc r va s Hv)).
  rewrite (pte_of_eq _ _ _ _ (vo_forest _ _ _ OK) R Hv).
  rewrite (pte_of_forest _ _ _ _ (vo_forest _ _ _ OK) R Hv).
  destruct (G !! (r, 0%nat, pfx 0 va)) as [t|] eqn:E; simpl; [|done].
  destruct (fo_page _ _ (vo_forest _ _ _ OK) _ _ E) as [_ Ht]. pose proof (PX_range 0 va).
  destruct (Z.eqb_spec (t + 8 * PX 0 va) 0); [lia|]. unfold kload. kstep.
  destruct (has _ PTE_V); [|done]. by destruct (has _ PTE_U).
Qed.

(** ** Writes that miss the page tables *)

Lemma forest_agree m m' G : forest m G ->
  (forall k a b, G !! k = Some a -> in_page a b -> mget m' b = mget m b) ->
  forest m' G /\
  forall r va, G !! (r, 2%nat, 0) = Some r -> 0 <= va < MAXVA -> pte_of m' r va = pte_of m r va.
Proof.
  intros F A.
  assert (forall k a i, G !! k = Some a -> 0 <= i < 512 -> load64 m' (a + 8 * i) = load64 m (a + 8 * i)) as E.
  { intros k a i Ek Hi. apply load64_ext. intros b Hb. apply (A k a b Ek). unfold in_page, PGSIZE. lia. }
  assert (forest m' G) as F'.
  { split; try apply F. intros r l p a i Ea Hi. rewrite (E _ _ _ Ea Hi). by apply (fo_dir _ _ F). }
  split; [done|]. intros r va R Hv. rewrite (pte_of_eq _ _ _ _ F' R Hv), (pte_of_eq _ _ _ _ F R Hv).
  destruct (G !! (r, 0%nat, pfx 0 va)) as [t|] eqn:Et; [|done]. apply (E _ _ _ Et), PX_range.
Qed.

Lemma not_in_other_page a b c : page_aligned a -> page_aligned b -> a <> b -> in_page b c -> ~ in_page a c.
Proof.
  intros A B N H. unfold in_page in *. destruct (pages_disjoint a b A B N); lia.
Qed.

(** Freeing a page that is no table keeps the tables. *)
Lemma vm_kfree s G fl pa : vmok s G fl -> valid_page pa -> pa ∉ fl ->
  (forall k, G !! k <> Some pa) ->
  kfree pa s = Ret tt (kfree_state pa s) /\ vmok (kfree_state pa s) G (pa :: fl) /\
  only_vm s (kfree_state pa s) /\
  (forall b, ~ in_page pa b -> mget (k_mem (kfree_state pa s)) b = mget (k_mem s) b) /\
  (forall r va, G !! (r, 2%nat, 0) = Some r -> 0 <= va < MAXVA ->
     pte_of (k_mem (kfree_state pa s)) r va = pte_of (k_mem s) r va).
Proof.
  intros OK V N T. destruct (kfree_inv s pa fl (vo_kmem _ _ _ OK) V N) as [I Fr].
  assert (forall b, ~ in_page pa b -> mget (k_mem (kfree_state pa s)) b = mget (k_mem s) b) as Fr'.
  { intros b Hb. apply Fr. unfold in_page in Hb. lia. }
  destruct (forest_agree (k_mem s) (k_mem (kfree_state pa s)) G (vo_forest _ _ _ OK)) as [F P].
  { intros k a b Ek Hb. apply Fr'.
    destruct (fo_page _ _ (vo_forest _ _ _ OK) _ _ Ek) as [Aa _].
    apply (not_in_other_page pa a b (proj1 V) Aa); [|done]. intros ->. by apply (T k). }
  split; [by apply kfree_eq; [apply OK|]|]. split; [|split; [apply only_vm_kfree|by split]].
  split; [by apply lk_free_kfree_state, OK|done|done|].
  intros k a Ek [->|H]%elem_of_cons; [by apply (T k)|]. by apply (vo_disj _ _ _ OK k a).
Qed.

(** ** uvmunmap() *)

(** The physical pages mapped in [n] pages of table [r] from [va]. *)
Fixpoint mapped_pages (m : mem) (r va : Z) (n : nat) : list Z :=
  match n with
  | O => []
  | S n' =>
      let v := pte_of m r va in
      (if has v PTE_V then [PTE2PA v] else []) ++ mapped_pages m r (va + PGSIZE) n'
  end.

(** The mapped pages are data: distinct allocated pages that are not tables. *)
Record owned (G : tables) (fl : list Z) (us : list Z) : Prop := {
  ow_nodup : NoDup us;
  ow_valid : Forall valid_page us;
  ow_free a : a ∈ us -> a ∉ fl;
  ow_table a k : a ∈ us -> G !! k <> Some a;
}.

Lemma mapped_pages_ext m m' r n : forall va,
  (forall va', va <= va' < va + Z.of_nat n * PGSIZE -> pte_of m' r va' = pte_of m r va') ->
  mapped_pages m' r va n = mapped_pages m r va n.
Proof.
  induction n as [|n IH]; intros va H; [done|]. cbn [mapped_pages].
  rewrite (H va) by (unfold PGSIZE; lia). f_equal. apply IH. intros va' Hv. apply H.
  unfold PGSIZE in *. lia.
Qed.

(** Mapping [va] away: the PTE is zero, and with [do_free] its page is free. *)
Lemma unmap_page s G fl r va do_free :
  vmok s G fl -> G !! (r, 2%nat, 0) = Some r -> 0 <= va < MAXVA ->
  has (pte_of (k_mem s) r va) PTE_V = true ->
  (do_free = true -> let pa := PTE2PA (pte_of (k_mem s) r va) in
     valid_page pa /\ (pa ∉ fl) /\ forall k, G !! k <> Some pa) ->
  exists a s', mwalk 2 (k_mem s) r va = Some a /\ a <> 0 /\
    (kwhen do_free (kfree (PTE2PA (load64 (k_mem s) a))) ;; kstore a 0) s = Ret tt s' /\
    vmok s' G (if do_free then PTE2PA (pte_of (k_mem s) r va) :: fl else fl) /\ only_vm s s' /\
    (forall r' va', G !! (r', 2%nat, 0) = Some r' -> 0 <= va' < MAXVA ->
       pte_of (k_mem s') r' va' =
       if decide (r' = r /\ va' / PGSIZE = va / PGSIZE) then 0 else pte_of (k_mem s) r' va') /\
    (forall b, outside G fl b -> (do_free = true -> ~ in_page (PTE2PA (pte_of (k_mem s) r va)) b) ->
       mget (k_mem s') b = mget (k_mem s) b).
Proof.
  intros OK R Hv V D. pose proof (vo_forest _ _ _ OK) as F.
  pose proof (pte_of_eq _ _ _ _ F R Hv) as Q. rewrite Q in V, D |- *.
  destruct (G !! (r, 0%nat, pfx 0 va)) as [t|] eqn:E; [|by rewrite has_0 in V].
  exists (t + 8 * PX 0 va). destruct (fo_page _ _ F _ _ E) as [_ Ht]. pose proof (PX_range 0 va).
  assert (mwalk 2 (k_mem s) r va = Some (t + 8 * PX 0 va)) as W
    by (by rewrite (pte_of_forest _ _ _ _ F R Hv), E).
  destruct do_free; unfold kwhen.
  - destruct (D eq_refl) as (Va & Na & Ta).
    destruct (vm_kfree s G fl _ OK Va Na Ta) as (K1 & OK1 & O1 & Fr1 & P1).
    destruct (set_leaf _ G _ r va t 0 OK1 E Hv ltac:(lia)) as [X S].
    eexists. split; [done|]. split; [lia|].
    split; [rewrite (bind_ret _ _ _ _ _ K1); reflexivity|].
    split; [apply X|]. split; [eapply only_vm_trans; [exact O1|apply X]|]. split.
    + intros r' va' R' Hv'. rewrite S, P1 by done. done.
    + intros b Ob Nb. rewrite (ve_frame _ _ _ _ _ _ X).
      * apply Fr1, Nb, eq_refl.
      * destruct Ob as [Ob1 Ob2]. split; [done|]. intros a [->|Ha]%elem_of_cons; [by apply Nb|by apply Ob2].
  - destruct (set_leaf s G fl r va t 0 OK E Hv ltac:(lia)) as [X S].
    eexists. split; [done|]. split; [lia|]. split; [rewrite bind_mret; reflexivity|].
    split; [apply X|]. split; [apply X|]. split; [done|]. intros b Ob _. by apply (ve_frame _ _ _ _ _ _ X).
Qed.

(** What uvmunmap() does to [n] pages from [a]: the PTEs that were valid are
    zero, no other PTE changed, and the pages they mapped went back to the
    free list when [do_free] is set. *)
Record unmapped (do_free : bool) (s s' : kstate) (G : tables) (fl : list Z) (r a : Z) (n : nat) : Prop := {
  um_ok : vmok s' G (if do_free then rev (mapped_pages (k_mem s) r a n) ++ fl else fl);
  um_rest : only_vm s s';
  um_pte r' va : G !! (r', 2%nat, 0) = Some r' -> 0 <= va < MAXVA ->
    pte_of (k_mem s') r' va =
    if decide (r' = r /\ a <= va < a + Z.of_nat n * PGSIZE /\ has (pte_of (k_mem s) r va) PTE_V = true)
    then 0 else pte_of (k_mem s) r' va;
  um_frame b : outside G fl b ->
    (forall pa, do_free = true -> pa ∈ mapped_pages (k_mem s) r a n -> ~ in_page pa b) ->
    mget (k_mem s') b = mget (k_mem s) b;
}.

Definition unmap_one (r a : Z) (do_free : bool) : K unit :=
  pte ← walk r a false;
  if pte =? 0 then mret tt else
  v ← kload pte;
  if negb (has v PTE_V) then mret tt else
  kwhen do_free (kfree (PTE2PA v)) ;;
  kstore pte 0.

Lemma pte_of_page m G r va va' : forest m G -> G !! (r, 2%nat, 0) = Some r ->
  page_aligned va -> 0 <= va -> va + PGSIZE <= MAXVA -> va <= va' < va + PGSIZE ->
  pte_of m r va' = pte_of m r va.
Proof.
  intros F R A H1 H2 H3. assert (0 <= va < MAXVA) by (unfold PGSIZE in *; lia).
  assert (0 <= va' < MAXVA) by lia.
  rewrite !(pte_of_eq _ _ _ _ F R) by lia.
  assert (pfx 0 va' = pfx 0 va /\ PX 0 va' = PX 0 va) as [-> ->]; [|done].
  apply vpn_eq; [lia|lia|]. rewrite page_window by (done || lia). lia.
Qed.

Lemma unmap_one_spec s G fl r a do_free :
  vmok s G fl -> G !! (r, 2%nat, 0) = Some r -> page_aligned a -> 0 <= a -> a + PGSIZE <= MAXVA ->
  (do_free = true -> owned G fl (mapped_pages (k_mem s) r a 1)) ->
  exists s', unmap_one r a do_free s = Ret tt s' /\ unmapped do_free s s' G fl r a 1.
Proof.
  intros OK R A H0 H1 D. pose proof (vo_forest _ _ _ OK) as F.
  assert (0 <= a < MAXVA) as Ha by (unfold PGSIZE in *; lia).
  pose proof (fun va' => pte_of_page (k_mem s) G r a va' F R A H0 H1) as PG.
  destruct (has (pte_of (k_mem s) r a) PTE_V) eqn:V.
  - destruct (unmap_page s G fl r a do_free OK R Ha V) as (x & s' & W & Nx & E & OK' & O & P & Fr).
    { intros Hd. specialize (D Hd). cbn [mapped_pages] in D. rewrite V in D. simpl in D.
      destruct D as [_ D2 D3 D4]. split; [by apply Forall_inv in D2|].
      split; [apply D3, list_elem_of_here|intros k; apply D4, list_elem_of_here]. }
    exists s'. split.
    { unfold unmap_one. rewrite (bind_ret _ _ _ _ _ (walk_noalloc r a s Ha)), W. simpl.
      destruct (Z.eqb_spec x 0); [done|]. unfold kload. kstep.
      unfold pte_of in V. rewrite W in V. by rewrite V. }
    split; cbn [mapped_pages]; rewrite ?V; simpl; [done|done| |].
    + intros r' va R' Hv. rewrite (P r' va R' Hv). apply decide_ext.
      rewrite (page_window a va A H0) by lia. split; [|intros (-> & ? & _); split; [done|lia]].
      intros (-> & ?). split; [done|]. split; [lia|]. by rewrite PG.
    + intros b Ob Nb. apply Fr; [done|]. intros Hd. apply Nb; [done|apply list_elem_of_here].
  - exists s. split.
    { unfold unmap_one. rewrite (bind_ret _ _ _ _ _ (walk_noalloc r a s Ha)).
      destruct (Z.eqb_spec (default 0 (mwalk 2 (k_mem s) r a)) 0) as [|N]; [done|].
      unfold kload. kstep. unfold pte_of in V. destruct (mwalk 2 (k_mem s) r a); [|done].
      simpl. by rewrite V. }
    split; cbn [mapped_pages]; rewrite ?V; simpl; [by destruct do_free|apply only_vm_refl| |done].
    intros r' va R' Hv. destruct (decide _) as [(-> & B & Vb)|]; [|done].
    rewrite PG in Vb by lia. congruence.
Qed.

Lemma owned_cons_r G fl us pa : owned G fl (us ++ pa) -> owned G (rev us ++ fl) pa.
Proof.
  intros [A B C D]. apply NoDup_app in A as (A1 & A2 & A3). apply Forall_app in B as [B1 B2].
  split; try done.
  - intros a Ha [E|E]%elem_of_app; [|by eapply C; [apply elem_of_app; right|]].
    apply (A2 a); [|done]. by apply list_elem_of_In, in_rev, list_elem_of_In.
  - intros a k Ha. apply D, elem_of_app. by right.
Qed.

Lemma owned_app_l G fl us pa : owned G fl (us ++ pa) -> owned G fl us.
Proof.
  intros [A B C D]. apply NoDup_app in A as (A1 & A2 & A3). apply Forall_app in B as [B1 B2].
  split; try done; intros; [apply C|apply D]; apply elem_of_app; by left.
Qed.

Lemma unmapped_cons do_free s s1 s2 G fl r a n : forest (k_mem s) G -> G !! (r, 2%nat, 0) = Some r ->
  0 <= a -> a + Z.of_nat (S n) * PGSIZE <= MAXVA ->
  unmapped do_free s s1 G fl r a 1 ->
  unmapped do_free s1 s2 G (if do_free then rev (mapped_pages (k_mem s) r a 1) ++ fl else fl)
    r (a + PGSIZE) n ->
  unmapped do_free s s2 G fl r a (S n).
Proof.
  intros F R H0 H1 [A1 A2 A3 A4] [B1 B2 B3 B4].
  assert (mapped_pages (k_mem s1) r (a + PGSIZE) n = mapped_pages (k_mem s) r (a + PGSIZE) n) as E.
  { apply mapped_pages_ext. intros va Hv. rewrite A3 by (done || unfold PGSIZE in *; lia).
    rewrite decide_False; [done|]. unfold PGSIZE in *. lia. }
  assert (mapped_pages (k_mem s) r a (S n) =
          mapped_pages (k_mem s) r a 1 ++ mapped_pages (k_mem s) r (a + PGSIZE) n) as E'.
  { cbn [mapped_pages]. by rewrite app_nil_r. }
  rewrite E in B1, B4. split.
  - rewrite E'. destruct do_free; [|done]. by rewrite rev_app_distr, <- app_assoc.
  - by eapply only_vm_trans.
  - intros r' va R' Hv. rewrite B3 by done.
    destruct (decide (r' = r)) as [->|]; [|rewrite !decide_False by tauto; rewrite A3 by done;
      by rewrite decide_False by tauto].
    rewrite A3 by done. unfold PGSIZE in *. destruct (decide (va < a + 4096)).
    + rewrite decide_False by lia. apply decide_ext.
      split; intros (? & ? & ?); split_and!; (done || lia).
    + rewrite (decide_False (P := r = r /\ a <= va < a + Z.of_nat 1 * 4096 /\ _)) by lia.
      apply decide_ext. split; intros (? & ? & ?); split_and!; (done || lia).
  - intros b Ob Nb. rewrite B4, A4; try done.
    + intros pa Hd Hp. apply Nb; [done|]. rewrite E'. apply elem_of_app. by left.
    + destruct do_free; [|done]. destruct Ob as [O1 O2]. split; [done|].
      intros x [Hx|Hx]%elem_of_app; [|by apply O2]. apply Nb; [done|]. rewrite E'.
      apply elem_of_app. left. by apply list_elem_of_In, in_rev, list_elem_of_In.
    + intros pa Hd Hp. apply Nb; [done|]. rewrite E'. apply elem_of_app. by right.
Qed.

Lemma uvmunmap_loop_spec r do_free G : G !! (r, 2%nat, 0) = Some r -> forall n s fl a,
  vmok s G fl -> page_aligned a -> 0 <= a -> a + Z.of_nat n * PGSIZE <= MAXVA ->
  (do_free = true -> owned G fl (mapped_pages (k_mem s) r a n)) ->
  exists s', uvmunmap_loop n r a (a + Z.of_nat n * PGSIZE) do_free s = Ret tt s' /\
    unmapped do_free s s' G fl r a n.
Proof.
  intros R. induction n as [|n IH]; intros s fl a OK A H0 H1 D.
  - exists s. replace (a + Z.of_nat 0 * PGSIZE) with a by lia. simpl. rewrite Z.ltb_irrefl.
    split; [done|]. split; simpl; [by destruct do_free|apply only_vm_refl| |done].
    intros. rewrite decide_False; [done|]. lia.
  - assert (mapped_pages (k_mem s) r a (S n) =
            mapped_pages (k_mem s) r a 1 ++ mapped_pages (k_mem s) r (a + PGSIZE) n) as E'.
    { cbn [mapped_pages]. by rewrite app_nil_r. }
    rewrite E' in D.
    destruct (unmap_one_spec s G fl r a do_free OK R A H0) as (s1 & E1 & U1).
    { unfold PGSIZE in *. lia. } { intros Hd. eapply owned_app_l, D, Hd. }
    destruct (IH s1 (if do_free then rev (mapped_pages (k_mem s) r a 1) ++ fl else fl) (a + PGSIZE))
      as (s2 & E2 & U2).
    + apply U1. + by apply page_aligned_add. + unfold PGSIZE; lia. + unfold PGSIZE in *; lia.
    + intros Hd. specialize (D Hd). apply owned_cons_r in D. rewrite Hd.
      rewrite (mapped_pages_ext (k_mem s) (k_mem s1)); [done|]. intros va Hv.
      rewrite (um_pte _ _ _ _ _ _ _ _ U1) by (done || unfold PGSIZE in *; lia).
      rewrite decide_False; [done|]. unfold PGSIZE in *. lia.
    + exists s2. split; [|by eapply unmapped_cons; [apply OK| | | | |]].
      cbn [uvmunmap_loop]. destruct (Z.ltb_spec a (a + Z.of_nat (S n) * PGSIZE)); [|unfold PGSIZE in *; lia].
      replace (a + Z.of_nat (S n) * PGSIZE) with (a + PGSIZE + Z.of_nat n * PGSIZE) by (unfold PGSIZE; lia).
      assert (u64 (a + PGSIZE) = a + PGSIZE) as -> by (apply u64_small; layout).
      transitivity ((unmap_one r a do_free ;;
        uvmunmap_loop n r (a + PGSIZE) (a + PGSIZE + Z.of_nat n * PGSIZE) do_free) s).
      { unfold unmap_one. pose proof (walk_noalloc r a s ltac:(unfold PGSIZE in *; lia)) as Ew.
        by rewrite (bind_bind_ret _ _ _ _ _ _ Ew), (bind_ret _ _ _ _ _ Ew). }
      by rewrite (bind_ret _ _ _ _ _ E1).
Qed.

(** ** A fresh zeroed page, and a new table *)

Definition zeroed (a : Z) (s : kstate) : kstate :=
  set_k_mem (memset (k_mem (kalloc_state a s)) a 0 PGBYTES) (kalloc_state a s).

Definition zero_page (m : mem) (a : Z) : Prop := forall b, in_page a b -> mget m b = 0.

Lemma only_vm_kalloc a s : only_vm s (kalloc_state a s).
Proof. split; [done|by right]. Qed.

Lemma vm_agree s m G fl : vmok s G fl -> mem_ok m ->
  (forall a b, (a ∈ fl \/ exists k, G !! k = Some a) -> in_page a b -> mget m b = mget (k_mem s) b) ->
  vmok (set_k_mem m s) G fl /\
  forall r va, G !! (r, 2%nat, 0) = Some r -> 0 <= va < MAXVA -> pte_of m r va = pte_of (k_mem s) r va.
Proof.
  intros OK M A. destruct (forest_agree (k_mem s) m G (vo_forest _ _ _ OK)) as [F P].
  { intros k a b E. apply A. right. eauto. }
  split; [|done]. destruct OK as [O1 O2 O3 O4]. split; [by apply lk_free_set_mem| |done|done].
  apply kmem_inv_set_mem; [done|done|]. intros a Ha. apply load64_ext. intros b Hb.
  apply (A a); [by left|]. unfold in_page, PGSIZE. lia.
Qed.

Lemma vm_zalloc s G a fl : vmok s G (a :: fl) ->
  vmok (zeroed a s) G fl /\ only_vm s (zeroed a s) /\ valid_page a /\ (a ∉ fl) /\ (forall k, G !! k <> Some a) /\
  zero_page (k_mem (zeroed a s)) a /\
  (forall b, ~ in_page a b -> mget (k_mem (zeroed a s)) b = mget (k_mem s) b) /\
  (forall r va, G !! (r, 2%nat, 0) = Some r -> 0 <= va < MAXVA ->
     pte_of (k_mem (zeroed a s)) r va = pte_of (k_mem s) r va).
Proof.
  intros OK. destruct (kalloc_inv s a fl (vo_kmem _ _ _ OK)) as (I & V & N & Fr).
  assert (forall k, G !! k <> Some a) as T
    by (intros k E; apply (vo_disj _ _ _ OK k a E), list_elem_of_here).
  assert (forall b, ~ in_page a b -> mget (k_mem (zeroed a s)) b = mget (k_mem s) b) as Fr'.
  { intros b Hb. unfold zeroed. rewrite k_mem_set, mget_memset.
    unfold in_page in Hb. rewrite decide_False by (unfold PGBYTES, PGSIZE in *; lia). apply Fr. lia. }
  assert (forall c b, c <> a -> page_aligned c -> in_page c b -> ~ in_page a b) as NA
    by (intros c b Nc Ac; apply not_in_other_page; [apply V|done|congruence]).
  destruct (forest_agree (k_mem s) (k_mem (zeroed a s)) G (vo_forest _ _ _ OK)) as [F P].
  { intros k c b E Hb. apply Fr'. apply (NA c b); [intros ->; by apply (T k)| |done].
    apply (fo_page _ _ (vo_forest _ _ _ OK) _ _ E). }
  split.
  { split; [| |done|intros k c E Hc; apply (vo_disj _ _ _ OK k c E); by apply list_elem_of_further].
    - apply lk_free_set_mem, lk_free_kalloc_state, OK.
    - apply kmem_inv_set_mem; [done|apply mem_ok_memset, I|]. intros c Hc. apply load64_ext. intros b Hb.
      assert (in_page c b) as Hb' by (unfold in_page, PGSIZE; lia).
      rewrite mget_memset, decide_False; [done|].
      pose proof (ki_valid _ _ I) as VL. rewrite Forall_forall in VL.
      assert (c <> a) as Nc by (intros ->; done).
      pose proof (NA c b Nc (proj1 (VL c Hc)) Hb') as X. unfold in_page in X.
      unfold PGBYTES, PGSIZE in *. lia. }
  split; [eapply only_vm_trans; [apply only_vm_kalloc|apply only_vm_set_mem]|].
  split; [done|]. split; [done|]. split; [done|]. split; [|done].
  intros b Hb. unfold zeroed. rewrite k_mem_set, mget_memset. unfold in_page in Hb.
  rewrite decide_True by (unfold PGBYTES, PGSIZE in *; lia). done.
Qed.

(** uvmcreate(): a table with no mapping. *)
Lemma uvmcreate_spec s G fl : vmok s G fl ->
  (fl = [] /\ uvmcreate s = Ret 0 (ksettle s)) \/
  (exists a fl', fl = a :: fl' /\ uvmcreate s = Ret a (zeroed a s) /\ a <> 0 /\
     vmok (zeroed a s) (<[(a, 2%nat, 0) := a]> G) fl' /\ only_vm s (zeroed a s) /\
     (forall k, G !! k <> Some a) /\
     (forall va, 0 <= va < MAXVA -> pte_of (k_mem (zeroed a s)) a va = 0) /\
     (forall r va, G !! (r, 2%nat, 0) = Some r -> 0 <= va < MAXVA ->
        pte_of (k_mem (zeroed a s)) r va = pte_of (k_mem s) r va)).
Proof.
  intros OK. unfold uvmcreate.
  destruct (kalloc_spec s fl (vo_lock _ _ _ OK) (vo_kmem _ _ _ OK)) as [[-> R]|(a & fl' & -> & Na & R & I)].
  { left. split; [done|]. by rewrite (bind_ret _ _ _ _ _ R). }
  right. exists a, fl'. split; [done|]. rewrite (bind_ret _ _ _ _ _ R).
  destruct (Z.eqb_spec a 0); [done|].
  split; [unfold kmemset, zeroed; kstep; reflexivity|]. split; [done|].
  destruct (vm_zalloc s G a fl' OK) as (OK' & O & V & N & T & Z0 & Fr & P).
  assert (forall l p, G !! (a, l, p) = None) as NR.
  { intros l p. destruct (G !! (a, l, p)) eqn:E; [|done].
    apply (fo_root _ _ (vo_forest _ _ _ OK)) in E. by destruct (T (a, 2%nat, 0)). }
  assert (forall i, 0 <= i < 512 -> load64 (k_mem (zeroed a s)) (a + 8 * i) = 0) as L0.
  { intros i Hi. rewrite (load64_ext _ ∅); [reflexivity|]. intros b Hb. rewrite Z0; [done|].
    unfold in_page, PGSIZE. lia. }
  assert (forest (k_mem (zeroed a s)) (<[(a, 2%nat, 0) := a]> G)) as F.
  { destruct (vo_forest _ _ _ OK') as [F1 F2 F3 F4 F5 F6 F7]. split.
    - intros r l p b [[E1 E2]|[E1 E2]]%lookup_insert_Some; [injection E1 as <- <- <-; apply lookup_insert_eq|].
      apply F1 in E2. destruct (decide (r = a)) as [->|]; [by rewrite NR in E2|].
      by rewrite lookup_insert_ne by congruence.
    - intros k b [[E1 E2]|[E1 E2]]%lookup_insert_Some; [subst b; by apply valid_page_phys|by eapply F2].
    - intros k k' b [[E1 E2]|[E1 E2]]%lookup_insert_Some [[E3 E4]|[E3 E4]]%lookup_insert_Some; subst; try done.
      + by destruct (T k').
      + by destruct (T k).
      + by eapply F3.
    - intros r l p b [[E1 E2]|[E1 E2]]%lookup_insert_Some; [by injection E1 as <- <- <-|by eapply F4].
    - intros r l p b [[E1 E2]|[E1 E2]]%lookup_insert_Some Hl; [injection E1 as <- <- <-; lia|].
      apply lookup_insert_is_Some'. right. by eapply F5.
    - intros r l p b i [[E1 E2]|[E1 E2]]%lookup_insert_Some Hi.
      + injection E1 as <- <- <-. subst b. rewrite lookup_insert_ne by congruence. rewrite NR. simpl.
        rewrite L0 by done. done.
      + destruct (decide (r = a)) as [->|]; [by rewrite NR in E2|].
        rewrite lookup_insert_ne by congruence. by apply F6.
    - intros r l p b [[E1 E2]|[E1 E2]]%lookup_insert_Some; [by injection E1 as <- <- <-|by eapply F7]. }
  split; [|split; [done|split; [done|split; [|done]]]].
  - destruct OK' as [O1 O2 O3 O4]. split; try done.
    intros k b [[E1 E2]|[E1 E2]]%lookup_insert_Some; [by subst b|by apply (O4 k)].
  - intros va Hv. rewrite (pte_of_eq _ _ _ _ F); [|apply lookup_insert_eq|done].
    rewrite lookup_insert_ne by congruence. by rewrite NR.
Qed.

Lemma has_leaf k pa perm : 0 < k < 10 -> has (leaf_pte pa perm) (2 ^ k) = has perm (2 ^ k).
Proof.
  intros Hk. unfold has, leaf_pte, PA2PTE, u64. do 2 f_equal.
  apply Z.bits_inj'. intros n Hn. rewrite !Z.land_spec, !Z.lor_spec.
  change PTE_V with (2 ^ 0). rewrite !Z.pow2_bits_eqb by lia.
  destruct (Z.eqb_spec k n) as [<-|]; [|by rewrite !andb_false_r].
  rewrite Z.mod_pow2_bits_low by lia. rewrite Z.shiftl_spec_low by lia.
  destruct (Z.eqb_spec 0 k); [lia|]. by rewrite orb_false_r.
Qed.

Lemma has_leaf_U pa perm : has (leaf_pte pa perm) PTE_U = has perm PTE_U.
Proof. by apply (has_leaf 4). Qed.

Lemma has_leaf_W pa perm : has (leaf_pte pa perm) PTE_W = has perm PTE_W.
Proof. by apply (has_leaf 2). Qed.

Lemma u64_mappages_last va n : 0 <= va -> (0 < n)%nat -> va + Z.of_nat n * PGSIZE <= MAXVA ->
  u64 (va + Z.of_nat n * PGSIZE - PGSIZE) = va + (Z.of_nat n - 1) * PGSIZE.
Proof. intros. assert (MAXVA < 2 ^ 64) by done. rewrite u64_small by (unfold PGSIZE in *; lia). unfold PGSIZE. lia. Qed.

Lemma mappages_spec n r va pa perm s G fl :
  vmok s G fl -> G !! (r, 2%nat, 0) = Some r -> 0 <= perm < 1024 -> (0 < n)%nat ->
  page_aligned va -> page_aligned pa -> 0 <= va -> va + Z.of_nat n * PGSIZE <= MAXVA ->
  0 <= pa -> pa + Z.of_nat n * PGSIZE <= 2 ^ 56 ->
  (forall va', va <= va' < va + Z.of_nat n * PGSIZE -> has (pte_of (k_mem s) r va') PTE_V = false) ->
  exists x s' G' fl' k,
    mappages r va (Z.of_nat n * PGSIZE) pa perm s = Ret x s' /\
    vmext s G fl s' G' fl' /\ mapped (k_mem s) (k_mem s') G r va pa perm k /\
    ((x = 0 /\ k = n /\ (length fl <= length fl' + 2 * n)%nat) \/
     (x = -1 /\ (k < n)%nat /\ fl' = [] /\ (length fl < 2 * n)%nat)).
Proof.
  intros OK R Hp Hn Av Ap H0 H1 H2 H3 U. unfold mappages. rewrite Av. simpl negb. cbv iota.
  rewrite Z.mod_mul by done. simpl negb. cbv iota.
  destruct (Z.eqb_spec (Z.of_nat n * PGSIZE) 0); [unfold PGSIZE in *; lia|].
  rewrite Z.div_mul, Nat2Z.id by done. rewrite u64_mappages_last by done.
  by apply mappages_loop_spec.
Qed.

(** C10 mappages() installs exactly the mapping it is asked for: on
    success the [n] pages from [va] translate (walk, and walkaddr when PTE_U is
    given) to the consecutive physical pages from [pa] with the permissions
    [perm]; no other PTE of this or of any other page table changes, the new
    directories come off the free list, and no byte outside the page tables
    and free pages is written.  It fails only when the free list runs out, which
    two free pages for each page mapped exclude, and then the PTEs set before
    the failure are a prefix of the range. *)
Theorem mappages_correct n r va pa perm s G fl :
  vmok s G fl -> G !! (r, 2%nat, 0) = Some r -> 0 <= perm < 1024 -> (0 < n)%nat ->
  page_aligned va -> page_aligned pa -> 0 <= va -> va + Z.of_nat n * PGSIZE <= MAXVA ->
  0 <= pa -> pa + Z.of_nat n * PGSIZE <= 2 ^ 56 ->
  (forall va', va <= va' < va + Z.of_nat n * PGSIZE -> has (pte_of (k_mem s) r va') PTE_V = false) ->
  exists x s' G' fl' k,
    mappages r va (Z.of_nat n * PGSIZE) pa perm s = Ret x s' /\
    vmext s G fl s' G' fl' /\ mapped (k_mem s) (k_mem s') G r va pa perm k /\
    ((x = 0 /\ k = n /\ (length fl <= length fl' + 2 * n)%nat) \/
     (x = -1 /\ (k < n)%nat /\ fl' = [] /\ (length fl < 2 * n)%nat)) /\
    (forall va', va <= va' < va + Z.of_nat k * PGSIZE ->
       walkaddr r va' s' = Ret (if has perm PTE_U then pa + (PGROUNDDOWN va' - va) else 0) s').
Proof.
  intros OK R Hp Hn Av Ap H0 H1 H2 H3 U.
  destruct (mappages_spec n r va pa perm s G fl) as (x & s' & G' & fl' & k & E & X & M & Res); try done.
  exists x, s', G', fl', k. split; [done|]. split; [done|]. split; [done|]. split; [done|].
  intros va' Hv. assert (0 <= va' < MAXVA) as Hv' by (unfold PGSIZE in *; lia).
  rewrite (walkaddr_eq r va' s' G' fl' (ve_ok _ _ _ _ _ _ X)); [|by eapply lookup_weaken; [|apply X]|done].
  unfold uaddr. rewrite (M r va' R Hv'), decide_True by done. rewrite has_leaf_U.
  assert (page_aligned (pa + (PGROUNDDOWN va' - va)) /\ 0 <= pa + (PGROUNDDOWN va' - va) < 2 ^ 56) as [A B].
  { rewrite PGROUNDDOWN_mod. unfold page_aligned in *.
    pose proof (Z.div_mod va' PGSIZE ltac:(done)). pose proof (Z.div_mod va PGSIZE ltac:(done)).
    pose proof (Z.div_mod pa PGSIZE ltac:(done)).
    replace (pa + (va' - va' mod PGSIZE - va)) with ((pa / PGSIZE + va' / PGSIZE - va / PGSIZE) * PGSIZE) by lia.
    split; [by apply Z.mod_mul|]. pose proof (Z.mod_pos_bound va' PGSIZE ltac:(done)).
    unfold PGSIZE in *. lia. }
  destruct (leaf_pte_spec _ perm A B Hp) as (_ & -> & -> & _). by destruct (has perm PTE_U).
Qed.

End Spec.

(** After kinit() with sixteen pages, uvmcreate() gives an empty table. *)
Lemma boot_forest : exists s G fl r, @vmok small_layout s G fl /\ G !! (r, 2%nat, 0) = Some r /\
  length fl = 15%nat /\ (forall va, 0 <= va < MAXVA -> pte_of (k_mem s) r va = 0) /\
  (forall k a, G !! k = Some a -> @valid_page small_layout a).
Proof.
  assert (cpu_ok (k_cpu bss)) as C by (split; simpl; lia).
  destruct (@kinit_spec small_layout bss C mem_ok_empty eq_refl) as (s & R & F & I & N).
  assert (@vmok small_layout s ∅ (rev (@all_pages small_layout))) as OK0
    by (split; [exact F|exact I| |]; [split|]; intros; by rewrite lookup_empty in *).
  destruct (@uvmcreate_spec small_layout s ∅ (rev (@all_pages small_layout)) OK0)
    as [[E _]|(a & fl & E & _ & _ & OK & _ & _ & P & _)].
  - apply (f_equal length) in E. vm_compute in E. discriminate E.
  - exists (@zeroed a s), (<[(a, 2%nat, 0) := a]> ∅), fl, a. split; [done|]. split; [apply lookup_insert_eq|].
    assert (length (rev (@all_pages small_layout)) = 16%nat) as N16 by (vm_compute; reflexivity).
    rewrite E in N16. split; [by injection N16|]. split; [done|].
    intros k b [[_ <-]|[_ Eb]]%lookup_insert_Some; [|by rewrite lookup_empty in Eb].
    pose proof (ki_valid _ _ I) as V. rewrite E in V. by inversion V.
Qed.

Lemma boot_table : exists s G fl r, @vmok small_layout s G fl /\ G !! (r, 2%nat, 0) = Some r /\
  length fl = 15%nat /\ (forall va, 0 <= va < MAXVA -> pte_of (k_mem s) r va = 0).
Proof. destruct boot_forest as (s & G & fl & r & OK & R & Hl & P & _). exists s, G, fl, r. auto. Qed.

Lemma mappages_correct_witness : exists s r s',
  mappages r 0x4000 (Z.of_nat 2 * PGSIZE) 0x80100000 (Z.lor PTE_R PTE_U) s = Ret 0 s' /\
  walkaddr r 0x5123 s' = Ret 0x80101000 s'.
Proof.
  destruct boot_table as (s & G & fl & r & OK & R & Hl & P).
  destruct (@mappages_correct small_layout 2 r 0x4000 0x80100000 (Z.lor PTE_R PTE_U) s G fl)
    as (x & s' & G' & fl' & k & E & _ & _ & Res & W); try done; [lia| |].
  { intros va' Hv. rewrite P; [done|]. assert (0x8000 < MAXVA) by done. unfold PGSIZE in *. lia. }
  destruct Res as [(-> & -> & _)|(_ & _ & _ & Hn)]; [|lia].
  exists s, r, s'. split; [exact E|]. exact (W 0x5123 ltac:(unfold PGSIZE; lia)).
Defined.
