(* ===== verification/UvmSpec.v ===== *)
(** * User address spaces (kernel/vm.c), what the code does

    uvmunmap(), uvmdealloc() and uvmalloc() over the page-table forest of
    VmSpec: what they map and unmap, which pages they take from and give back
    to the allocator, and what they leave alone. *)

From S2P Require Import Prelude Riscv Memory KState KMonad Spinlock Kalloc Vm VmSpec.

Section Uvm.
Context {L : Layout}.

Lemma MAXVA_lt : MAXVA < 2 ^ 38 + 1.
Proof. done. Qed.

Lemma uvmunmap_spec r do_free s G fl a n :
  vmok s G fl -> G !! (r, 2%nat, 0) = Some r -> page_aligned a -> 0 <= a ->
  a + Z.of_nat n * PGSIZE <= MAXVA ->
  (do_free = true -> owned G fl (mapped_pages (k_mem s) r a n)) ->
  exists s', uvmunmap r a (Z.of_nat n) do_free s = Ret tt s' /\ unmapped do_free s s' G fl r a n.
Proof.
  intros OK R A H0 H1 D. unfold uvmunmap. rewrite A. cbn [negb Z.eqb]. rewrite Nat2Z.id.
  pose proof MAXVA_lt. rewrite u64_small by (unfold PGSIZE in *; lia).
  by apply uvmunmap_loop_spec.
Qed.

(** The number of pages between two sizes. *)
Definition upages (newsz oldsz : Z) : nat := Z.to_nat ((PGROUNDUP oldsz - PGROUNDUP newsz) / PGSIZE).

Lemma upages_spec newsz oldsz : 0 <= newsz <= oldsz -> oldsz <= MAXVA ->
  PGROUNDUP newsz + Z.of_nat (upages newsz oldsz) * PGSIZE = PGROUNDUP oldsz /\
  PGROUNDUP oldsz <= MAXVA /\ 0 <= PGROUNDUP newsz /\ page_aligned (PGROUNDUP newsz).
Proof.
  intros H1 H2. pose proof MAXVA_lt. unfold upages.
  destruct (PGROUNDUP_bounds newsz) as [B1 A1]; [unfold PGSIZE; lia|].
  destruct (PGROUNDUP_bounds oldsz) as [B2 A2]; [unfold PGSIZE; lia|].
  assert (page_aligned MAXVA) as A3 by done. unfold page_aligned, PGSIZE in *.
  pose proof (Z.div_mod (PGROUNDUP newsz) 4096 ltac:(lia)).
  pose proof (Z.div_mod (PGROUNDUP oldsz) 4096 ltac:(lia)).
  pose proof (Z.div_mod MAXVA 4096 ltac:(lia)).
  replace (PGROUNDUP oldsz - PGROUNDUP newsz) with
    ((PGROUNDUP oldsz / 4096 - PGROUNDUP newsz / 4096) * 4096) by lia.
  rewrite Z.div_mul by lia. lia.
Qed.

Lemma unmapped_none do_free s G fl r a : vmok s G fl -> unmapped do_free s s G fl r a 0.
Proof.
  intros OK. split; simpl; [by destruct do_free|apply only_vm_refl| |done].
  intros. rewrite decide_False; [done|]. lia.
Qed.

Lemma uvmdealloc_spec r s G fl oldsz newsz :
  vmok s G fl -> G !! (r, 2%nat, 0) = Some r -> 0 <= newsz <= oldsz -> oldsz <= MAXVA ->
  owned G fl (mapped_pages (k_mem s) r (PGROUNDUP newsz) (upages newsz oldsz)) ->
  exists s', uvmdealloc r oldsz newsz s = Ret newsz s' /\
  unmapped true s s' G fl r (PGROUNDUP newsz) (upages newsz oldsz).
Proof.
  intros OK R H1 H2 D. destruct (upages_spec newsz oldsz H1 H2) as (E & B & B0 & A).
  unfold uvmdealloc. destruct (Z.leb_spec oldsz newsz).
  { assert (oldsz = newsz) as -> by lia. exists s. split; [done|].
    unfold upages. rewrite Z.sub_diag. by apply unmapped_none. }
  destruct (Z.ltb_spec (PGROUNDUP newsz) (PGROUNDUP oldsz)).
  - destruct (uvmunmap_spec r true s G fl (PGROUNDUP newsz) (upages newsz oldsz)) as (s' & Es & U);
      [done|done|done|done|lia|done|].
    exists s'. split; [|done]. erewrite bind_ret; [reflexivity|]. rewrite <- Es. f_equal.
    assert (0 <= (PGROUNDUP oldsz - PGROUNDUP newsz) / PGSIZE < 2 ^ 31) as Hq.
    { pose proof MAXVA_lt. unfold PGSIZE in *. split; [apply Z.div_pos; lia|].
      apply Z.div_lt_upper_bound; lia. }
    unfold upages. rewrite Z2Nat.id, s32_small, u64_small by lia. done.
  - exists s. split; [done|]. replace (upages newsz oldsz) with 0%nat by (unfold PGSIZE in *; lia).
    by apply unmapped_none.
Qed.

(** ** One page of uvmalloc() *)

(** The tables [G'] extend [G] with pages of [used]. *)
Definition more_tables (G G' : tables) (used : list Z) : Prop :=
  G ⊆ G' /\ forall k a, G' !! k = Some a -> G !! k = Some a \/ (G !! k = None /\ a ∈ used).

(** [f] is [s] with the first free page, [p], taken and filled with [c]. *)
Record filled (s : kstate) (G : tables) (p : Z) (fl : list Z) (f : kstate) (c : Z -> Z) : Prop := {
  fi_ok : vmok f G fl;
  fi_rest : only_vm s f;
  fi_valid : valid_page p;
  fi_fresh : p ∉ fl;
  fi_table k : G !! k <> Some p;
  fi_bytes b : in_page p b -> mget (k_mem f) b = c b;
  fi_frame b : ~ in_page p b -> mget (k_mem f) b = mget (k_mem s) b;
  fi_pte r va : G !! (r, 2%nat, 0) = Some r -> 0 <= va < MAXVA -> pte_of (k_mem f) r va = pte_of (k_mem s) r va;
}.

Lemma filled_zeroed s G p fl : vmok s G (p :: fl) -> filled s G p fl (zeroed p s) (fun _ => 0).
Proof. intros OK. destruct (vm_zalloc s G p fl OK) as (? & ? & ? & ? & ? & ? & ? & ?). by split. Qed.

Lemma map_filled s G p fl f c r a perm :
  filled s G p fl f c -> G !! (r, 2%nat, 0) = Some r -> page_aligned a -> 0 <= a -> a + PGSIZE <= MAXVA ->
  0 <= perm < 1024 -> (forall va, a <= va < a + PGSIZE -> has (pte_of (k_mem s) r va) PTE_V = false) ->
  exists x s' G' fl' used, mappages r a PGSIZE p perm f = Ret x s' /\
    vmok s' G' fl' /\ fl = used ++ fl' /\ more_tables G G' used /\ only_vm s s' /\
    (forall k, G' !! k <> Some p) /\ valid_page p /\ (p ∉ fl) /\ (forall b, in_page p b -> mget (k_mem s') b = c b) /\
    (forall b, outside G (p :: fl) b -> mget (k_mem s') b = mget (k_mem s) b) /\
    (forall r' va, G !! (r', 2%nat, 0) = Some r' -> 0 <= va < MAXVA ->
       pte_of (k_mem s') r' va =
       if decide (x = 0 /\ r' = r /\ a <= va < a + PGSIZE) then leaf_pte p perm
       else pte_of (k_mem s) r' va) /\ kept G fl G' fl' [] /\
    ((x = 0 /\ (length fl <= length fl' + 2)%nat) \/ (x = -1 /\ fl' = [] /\ (length fl < 2)%nat)).
Proof.
  intros [OK1 O1 V N T Z0 Fr P] R A H0 H1 Hp U.
  assert (0 <= a < MAXVA) as Ha by (unfold PGSIZE in *; lia).
  destruct (valid_page_phys p V) as [Ap Bp].
  destruct (mappages_spec 1 r a p perm f G fl OK1 R Hp ltac:(lia) A Ap H0)
    as (x & s' & G' & fl' & k & E & X & M & Res); [lia|lia|unfold page_aligned, PGSIZE in *|
      intros va Hv; rewrite P by (done || unfold PGSIZE in *; lia); apply U; lia|].
  { destruct (valid_page_bounds p V). unfold PHYSTOP, KERNBASE, PGSIZE in *. lia. }
  destruct (ve_used _ _ _ _ _ _ X) as (used & Eu & Ku).
  exists x, s', G', fl', used. split; [exact E|]. split; [apply X|]. split; [done|].
  split; [split; [apply X|done]|]. split; [eapply only_vm_trans; [exact O1|apply X]|].
  split. { intros k' Ek. destruct (Ku k' p Ek) as [Ek'|[_ Hu]]; [by apply (T k')|].
           apply N. rewrite Eu. apply elem_of_app. by left. }
  split; [done|]. split; [done|].
  assert (forall b, in_page p b -> outside G fl b) as Op.
  { intros b Hb. split.
    - intros k' q Ek. apply (not_in_other_page q p b); [apply (fo_page _ _ (vo_forest _ _ _ OK1) _ _ Ek)|done| |done].
      intros ->. by apply (T k').
    - intros q Hq. pose proof (ki_valid _ _ (vo_kmem _ _ _ OK1)) as VL. rewrite Forall_forall in VL.
      apply (not_in_other_page q p b); [by apply VL|done|by intros ->|done]. }
  split. { intros b Hb. rewrite (ve_frame _ _ _ _ _ _ X b (Op b Hb)). by apply Z0. }
  split. { intros b [O2 O3]. rewrite (ve_frame _ _ _ _ _ _ X b).
           - apply Fr, O3, list_elem_of_here.
           - split; [done|]. intros q Hq. by apply O3, list_elem_of_further. }
  split; [|split; [apply X|destruct Res as [(-> & _ & ?)|(-> & _ & -> & ?)]; [left|right]; split_and!; (done || lia)]].
  intros r' va R' Hv. rewrite (M r' va R' Hv). destruct Res as [(-> & -> & _)|(-> & Hk & -> & _)].
  - change (Z.of_nat 1 * PGSIZE) with PGSIZE.
    destruct (decide (r' = r /\ a <= va < a + PGSIZE)) as [[-> Hw]|Nw].
    + rewrite decide_True by done. rewrite (PGROUNDDOWN_window a va A Hw). f_equal. lia.
    + rewrite decide_False by tauto. by apply P.
  - rewrite !decide_False by (intros ?; destruct_and?; unfold PGSIZE in *; lia). by apply P.
Qed.

(** ** uvmalloc() *)

Lemma more_tables_refl G : more_tables G G [].
Proof. split; [done|]. auto. Qed.

Lemma more_tables_trans G G1 G2 u u1 : more_tables G G1 u -> more_tables G1 G2 u1 -> more_tables G G2 (u ++ u1).
Proof.
  intros [A1 A2] [B1 B2]. split; [by transitivity G1|]. intros k a E.
  destruct (B2 k a E) as [E1|[E1 U]].
  - destruct (A2 k a E1) as [?|[? ?]]; [by left|right]. split; [done|]. apply elem_of_app. by left.
  - right. split; [|apply elem_of_app; by right].
    destruct (G !! k) eqn:EG; [|done]. pose proof (lookup_weaken _ _ _ _ EG A1). congruence.
Qed.

(** [s] is [s0] with [length ps] fresh zeroed pages [ps] mapped from [start]
    on with permissions [perm] in table [r]. *)
Record alloced (s0 : kstate) (G0 : tables) (fl0 : list Z) (r start perm : Z)
    (s : kstate) (G : tables) (fl ps : list Z) : Prop := {
  al_ok : vmok s G fl;
  al_used : exists used, fl0 ≡ₚ used ++ ps ++ fl /\ more_tables G0 G used;
  al_rest : only_vm s0 s;
  al_pte r' va : G0 !! (r', 2%nat, 0) = Some r' -> 0 <= va < MAXVA ->
    pte_of (k_mem s) r' va =
    if decide (r' = r /\ start <= va < start + Z.of_nat (length ps) * PGSIZE)
    then leaf_pte (nth (Z.to_nat ((va - start) / PGSIZE)) ps 0) perm
    else pte_of (k_mem s0) r' va;
  al_zero p : p ∈ ps -> zero_page (k_mem s) p;
  al_frame b : outside G0 fl0 b -> mget (k_mem s) b = mget (k_mem s0) b;
  al_kept : kept G0 fl0 G fl ps;
}.

Lemma alloced_refl s G fl r start perm : vmok s G fl -> alloced s G fl r start perm s G fl [].
Proof.
  intros OK. split; [done| |apply only_vm_refl| | |done|apply kept_refl].
  - exists []. split; [done|apply more_tables_refl].
  - intros. rewrite decide_False; [done|]. simpl. lia.
  - intros p H. by apply not_elem_of_nil in H.
Qed.

Lemma al_owned s0 G0 fl0 r start perm s G fl ps : vmok s0 G0 fl0 ->
  alloced s0 G0 fl0 r start perm s G fl ps -> owned G fl ps.
Proof.
  intros OK0 [OK (used & Pm & Mt) _ _ _ _ _].
  pose proof (ki_nodup _ _ (vo_kmem _ _ _ OK0)) as ND. rewrite Pm in ND.
  pose proof (ki_valid _ _ (vo_kmem _ _ _ OK0)) as VL. rewrite Pm in VL.
  apply NoDup_app in ND as (N1 & N2 & N3). apply NoDup_app in N3 as (N4 & N5 & N6).
  split; [done|by rewrite !Forall_app in VL; destruct VL as (_ & ? & _)|done|].
  intros a k Ha Ek. destruct (proj2 Mt k a Ek) as [E0|[_ Hu]].
  - apply (vo_disj _ _ _ OK0 k a E0). rewrite Pm, !elem_of_app. auto.
  - apply (N2 a Hu). apply elem_of_app. by left.
Qed.

Lemma al_mapped_pages s0 G0 fl0 r start perm s G fl ps : vmok s0 G0 fl0 -> 0 <= perm < 1024 ->
  G0 !! (r, 2%nat, 0) = Some r -> page_aligned start -> 0 <= start ->
  start + Z.of_nat (length ps) * PGSIZE <= MAXVA ->
  alloced s0 G0 fl0 r start perm s G fl ps ->
  mapped_pages (k_mem s) r start (length ps) = ps.
Proof.
  intros OK0 Hp R A H0 H1 AL. pose proof (al_owned _ _ _ _ _ _ _ _ _ _ OK0 AL) as OW.
  pose proof (al_pte _ _ _ _ _ _ _ _ _ _ AL r) as P.
  assert (forall j qs, (j + length qs = length ps)%nat -> drop j ps = qs ->
    mapped_pages (k_mem s) r (start + Z.of_nat j * PGSIZE) (length qs) = qs) as G1.
  { intros j qs. revert j. induction qs as [|q qs IH]; intros j Hj Hd; [done|]. simpl in Hj.
    assert (ps !! j = Some q) as Hq by (rewrite <- (Nat.add_0_r j), <- lookup_drop, Hd; done).
    cbn [length mapped_pages].
    rewrite (P (start + Z.of_nat j * PGSIZE) R) by (unfold PGSIZE in *; lia).
    rewrite decide_True by (split; [done|unfold PGSIZE in *; lia]).
    replace (start + Z.of_nat j * PGSIZE - start) with (Z.of_nat j * PGSIZE) by lia.
    rewrite Z.div_mul, Nat2Z.id by done. rewrite (nth_lookup_Some _ _ _ _ Hq).
    assert (valid_page q) as Vq.
    { pose proof (ow_valid _ _ _ OW) as VL. rewrite Forall_forall in VL. apply VL.
      by eapply list_elem_of_lookup_2. }
    destruct (valid_page_phys q Vq) as [Aq Bq].
    destruct (leaf_pte_spec q perm Aq ltac:(lia) Hp) as (_ & -> & -> & _). simpl. f_equal.
    replace (start + Z.of_nat j * PGSIZE + PGSIZE) with (start + Z.of_nat (S j) * PGSIZE) by lia.
    apply IH; [lia|]. rewrite <- Nat.add_1_r, <- drop_drop, Hd. done. }
  specialize (G1 0%nat ps eq_refl eq_refl). by rewrite Z.add_0_r in G1.
Qed.

Lemma outside_owned s G fl us p b : vmok s G fl -> owned G fl us -> p ∈ us -> in_page p b -> outside G fl b.
Proof.
  intros OK [W1 W2 W3 W4] Hp Hb. rewrite Forall_forall in W2.
  pose proof (ki_valid _ _ (vo_kmem _ _ _ OK)) as VL. rewrite Forall_forall in VL.
  split; intros c.
  - intros a E. apply (not_in_other_page a p b); [apply (fo_page _ _ (vo_forest _ _ _ OK) _ _ E)|by apply W2| |done].
    intros ->. by apply (W4 p c).
  - intros Hc. apply (not_in_other_page c p b); [by apply VL|by apply W2| |done]. intros ->. by apply (W3 p).
Qed.

Lemma al_outside s0 G0 fl0 r start perm s G fl ps b :
  alloced s0 G0 fl0 r start perm s G fl ps -> outside G0 fl0 b -> outside G fl b.
Proof.
  intros [_ (used & Pm & Mt) _ _ _ _ _] [O1 O2]. split.
  - intros k a E. destruct (proj2 Mt k a E) as [E0|[_ Hu]]; [by apply (O1 k)|].
    apply O2. rewrite Pm. apply elem_of_app. by left.
  - intros a Ha. apply O2. rewrite Pm, !elem_of_app. auto.
Qed.

(** The state after one more page, mapped or not. *)
Lemma alloced_step s0 G0 fl0 r start perm s G p fl ps s' G' fl' used b :
  vmok s0 G0 fl0 -> alloced s0 G0 fl0 r start perm s G (p :: fl) ps -> 0 <= start -> page_aligned start ->
  vmok s' G' fl' -> more_tables G G' used -> only_vm s s' ->
  (forall c, outside G (p :: fl) c -> mget (k_mem s') c = mget (k_mem s) c) ->
  (b = true -> zero_page (k_mem s') p) -> kept G (p :: fl) G' fl' (if b then [p] else []) ->
  let qs := ps ++ (if b then [p] else []) in
  p :: fl ≡ₚ used ++ (if b then [p] else []) ++ fl' ->
  (forall r' va, G !! (r', 2%nat, 0) = Some r' -> 0 <= va < MAXVA ->
     pte_of (k_mem s') r' va =
     if decide (b = true /\ r' = r /\ start + Z.of_nat (length ps) * PGSIZE <= va
                < start + Z.of_nat (length ps) * PGSIZE + PGSIZE)
     then leaf_pte p perm else pte_of (k_mem s) r' va) ->
  alloced s0 G0 fl0 r start perm s' G' fl' qs.
Proof.
  intros OK0 AL Hs As OK' Mt O Fr Zp Kp qs Pm P. pose proof (al_owned _ _ _ _ _ _ _ _ _ _ OK0 AL) as OW.
  pose proof (fun c => al_outside _ _ _ _ _ _ _ _ _ _ c AL) as Out.
  destruct AL as [OK (u0 & Pm0 & Mt0) O0 P0 Z0 Fr0 Kp0]. split.
  - done.
  - exists (u0 ++ used). split; [|by eapply more_tables_trans].
    rewrite Pm0, Pm. unfold qs. rewrite <- !app_assoc. f_equiv.
    rewrite !app_assoc. f_equiv. rewrite (Permutation_app_comm ps used), <- app_assoc. done.
  - by eapply only_vm_trans.
  - intros r' va R' Hv. rewrite P by (done || by eapply lookup_weaken; [|apply Mt0]). rewrite P0 by done.
    unfold qs. rewrite length_app. destruct b.
    + cbn [length]. destruct (decide (r' = r)) as [->|Nr]; [|rewrite !decide_False by tauto; done].
      destruct (decide (start + Z.of_nat (length ps) * PGSIZE <= va
                        < start + Z.of_nat (length ps) * PGSIZE + PGSIZE)) as [Hw|Hw].
      * rewrite decide_True by done. rewrite decide_True by (split; [done|unfold PGSIZE in *; lia]).
        f_equal. replace ((va - start) / PGSIZE) with (Z.of_nat (length ps)).
        2: { apply Z.div_unique with (va - start - Z.of_nat (length ps) * PGSIZE);
             unfold PGSIZE in *; lia. }
        rewrite Nat2Z.id, app_nth2, Nat.sub_diag by lia. done.
      * rewrite decide_False by tauto.
        destruct (decide (start <= va < start + Z.of_nat (length ps) * PGSIZE)) as [Hi|Hi].
        -- rewrite !decide_True by (split; [done|unfold PGSIZE in *; lia]). f_equal.
           rewrite app_nth1; [done|]. apply Nat2Z.inj_lt.
           rewrite Z2Nat.id by (apply Z.div_pos; unfold PGSIZE; lia).
           apply Z.div_lt_upper_bound; unfold PGSIZE in *; lia.
        -- rewrite !decide_False by (unfold PGSIZE in *; lia). done.
    + rewrite (decide_False (P := false = true /\ _)) by (intros [? _]; done).
      cbn [length]. rewrite Nat.add_0_r, app_nil_r. done.
  - intros q [Hq|Hq]%elem_of_app.
    + intros c Hc. rewrite Fr by (by eapply outside_owned). by apply (Z0 q Hq).
    + destruct b; [|by apply not_elem_of_nil in Hq]. apply list_elem_of_singleton in Hq as ->. by apply Zp.
  - intros c Hc. rewrite Fr by (by apply Out). by apply Fr0.
  - unfold qs. eapply kept_trans; [apply Mt|done|done].
Qed.

(** The mapping of every table is as before (a PTE that was invalid may now be
    zero); the tables may have grown by pages of the free list. *)
Record aborted (s0 : kstate) (G0 : tables) (fl0 : list Z) (s : kstate) : Prop := {
  ab_tables : exists G fl used, vmok s G fl /\ fl0 ≡ₚ used ++ fl /\ more_tables G0 G used /\ kept G0 fl0 G fl [];
  ab_rest : only_vm s0 s;
  ab_pte r va : G0 !! (r, 2%nat, 0) = Some r -> 0 <= va < MAXVA ->
    pte_of (k_mem s) r va = pte_of (k_mem s0) r va \/
    (has (pte_of (k_mem s0) r va) PTE_V = false /\ pte_of (k_mem s) r va = 0);
  ab_frame b : outside G0 fl0 b -> mget (k_mem s) b = mget (k_mem s0) b;
}.

Lemma PGROUNDUP_sub a b : page_aligned a -> page_aligned b -> 0 <= a <= b -> b <= MAXVA ->
  PGROUNDUP a = a /\ upages a b = Z.to_nat ((b - a) / PGSIZE).
Proof.
  intros A B H1 H2. pose proof MAXVA_lt. unfold upages.
  rewrite !PGROUNDUP_id by (done || unfold PGSIZE; lia). done.
Qed.

(** Pages that are given back are free again. *)
Lemma kept_rev G0 fl0 G fl ps : kept G0 fl0 G fl ps -> kept G0 fl0 G (rev ps ++ fl) [].
Proof.
  intros [A B]. split; [|done]. intros a Ha. right. rewrite elem_of_app. destruct (A a Ha) as [H|[H|H]]; [|auto..].
  left. left. by apply list_elem_of_In, in_rev; rewrite rev_involutive; apply list_elem_of_In.
Qed.

(** The page [p] is taken off the free list, and mapped or given back. *)
Lemma kept_cons G p fl G' fl' : kept G fl G' fl' [] -> kept G (p :: fl) G' fl' [p] /\ kept G (p :: fl) G' (p :: fl') [].
Proof.
  intros [A B]. split; split; try done; intros a [->|Ha]%elem_of_cons; rewrite ?elem_of_cons; auto.
  all: destruct (A a Ha) as [H|[H|H]]; [by apply elem_of_nil in H|auto..].
Qed.

Lemma alloced_rollback s0 G0 fl0 r start perm s G fl ps :
  vmok s0 G0 fl0 -> alloced s0 G0 fl0 r start perm s G fl ps -> 0 <= perm < 1024 ->
  G0 !! (r, 2%nat, 0) = Some r -> page_aligned start -> 0 <= start ->
  start + Z.of_nat (length ps) * PGSIZE <= MAXVA ->
  (forall va, start <= va < start + Z.of_nat (length ps) * PGSIZE ->
     has (pte_of (k_mem s0) r va) PTE_V = false) ->
  exists s', uvmdealloc r (start + Z.of_nat (length ps) * PGSIZE) start s = Ret start s' /\
    aborted s0 G0 fl0 s'.
Proof.
  intros OK0 AL Hp R A H0 H1 U. pose proof (al_owned _ _ _ _ _ _ _ _ _ _ OK0 AL) as OW.
  pose proof (al_mapped_pages _ _ _ _ _ _ _ _ _ _ OK0 Hp R A H0 H1 AL) as Em.
  pose proof (fun c => al_outside _ _ _ _ _ _ _ _ _ _ c AL) as Out.
  destruct AL as [OK (u0 & Pm0 & Mt0) O0 P0 Z0 Fr0 Kp0].
  pose proof (lookup_weaken _ _ _ _ R (proj1 Mt0)) as R1.
  set (stop := start + Z.of_nat (length ps) * PGSIZE) in *.
  assert (page_aligned stop) as As.
  { unfold stop, page_aligned in *. by rewrite Z.mod_add. }
  destruct (PGROUNDUP_sub start stop A As) as [E1 E2]; [unfold stop, PGSIZE; lia|done|].
  assert (upages start stop = length ps) as E3.
  { rewrite E2. unfold stop. replace (_ - start) with (Z.of_nat (length ps) * PGSIZE) by lia.
    rewrite Z.div_mul by done. lia. }
  destruct (uvmdealloc_spec r s G fl stop start OK R1) as (s' & E & [D1 D2 D3 D4]).
  - unfold stop, PGSIZE; lia. - done. - by rewrite E1, E3, Em.
  - rewrite E1, E3, Em in *. exists s'. split; [done|]. split.
    + exists G, (rev ps ++ fl), u0. split; [exact D1|]. split; [|split; [done|by apply kept_rev]].
      rewrite Pm0. do 2 f_equiv. apply Permutation_rev.
    + by eapply only_vm_trans.
    + intros r' va R' Hv. rewrite D3 by (done || by eapply lookup_weaken; [|apply Mt0]).
      destruct (decide (r' = r /\ start <= va < stop)) as [[-> Hw]|Nw].
      * right. split; [by apply U|]. rewrite decide_True; [done|]. split; [done|]. split; [done|].
        rewrite P0 by done. rewrite decide_True by done.
        assert (nth (Z.to_nat ((va - start) / PGSIZE)) ps 0 ∈ ps) as Hin.
        { apply list_elem_of_In, nth_In, Nat2Z.inj_lt.
          rewrite Z2Nat.id by (apply Z.div_pos; unfold PGSIZE; lia).
          apply Z.div_lt_upper_bound; unfold PGSIZE in *; lia. }
        pose proof (ow_valid _ _ _ OW) as VL. rewrite Forall_forall in VL.
        destruct (valid_page_phys _ (VL _ Hin)) as [Aq Bq].
        by destruct (leaf_pte_spec _ perm Aq ltac:(lia) Hp) as (_ & -> & _).
      * left. rewrite decide_False by tauto. rewrite P0 by done. by rewrite decide_False.
    + intros b Hb. rewrite D4; [by apply Fr0|by apply Out|].
      intros pa _ Hpa. destruct Hb as [_ O2]. apply O2. rewrite Pm0, !elem_of_app. auto.
Qed.

Lemma vmok_settle s G fl : vmok s G fl -> vmok (ksettle s) G fl.
Proof.
  intros [O1 O2 O3 O4]. split; [by apply lk_free_settle| |done|done].
  by destruct O2 as [M F ND V N]; split.
Qed.

Lemma only_vm_settle s : only_vm s (ksettle s).
Proof. split; [done|by right]. Qed.

Lemma alloced_settle s0 G0 fl0 r start perm s G fl ps :
  alloced s0 G0 fl0 r start perm s G fl ps -> alloced s0 G0 fl0 r start perm (ksettle s) G fl ps.
Proof.
  intros [OK U O P Z0 Fr Kp]. split; try done; [by apply vmok_settle|].
  eapply only_vm_trans; [done|apply only_vm_settle].
Qed.

Lemma uvmalloc_loop_spec r start newsz xperm s0 G0 fl0 :
  let perm := Z.lor (Z.lor PTE_R PTE_U) xperm in
  vmok s0 G0 fl0 -> G0 !! (r, 2%nat, 0) = Some r -> page_aligned start -> 0 <= start -> 0 <= perm < 1024 ->
  forall m fuel s G fl ps,
  alloced s0 G0 fl0 r start perm s G fl ps -> (m <= fuel)%nat ->
  let a := start + Z.of_nat (length ps) * PGSIZE in
  a + Z.of_nat m * PGSIZE <= MAXVA -> newsz <= a + Z.of_nat m * PGSIZE ->
  (m = 0%nat \/ a + (Z.of_nat m - 1) * PGSIZE < newsz) ->
  (forall va, start <= va < a + Z.of_nat m * PGSIZE -> has (pte_of (k_mem s0) r va) PTE_V = false) ->
  exists x s', uvmalloc_loop fuel r a start newsz xperm s = Ret x s' /\
    ((x = newsz /\ exists G' fl' qs, length qs = (length ps + m)%nat /\
        alloced s0 G0 fl0 r start perm s' G' fl' qs) \/
     (x = 0 /\ aborted s0 G0 fl0 s' /\ (length fl < 3 * m)%nat)).
Proof.
  intros perm OK0 R A H0 Hp. induction m as [|m IH]; intros fuel s G fl ps AL Hf a H1 H2 H3 U.
  { exists newsz, s. split; [|left; split; [done|]; exists G, fl, ps; split; [lia|done]].
    destruct fuel; cbn [uvmalloc_loop]; destruct (Z.ltb_spec a newsz); (lia || done). }
  destruct fuel as [|fuel]; [lia|]. cbn [uvmalloc_loop].
  destruct (Z.ltb_spec a newsz); [|unfold PGSIZE in *; lia].
  assert (a + PGSIZE <= MAXVA) as Ha by (unfold PGSIZE in *; lia).
  assert (0 <= a) as Ha0 by (unfold a, PGSIZE; lia).
  assert (page_aligned a) as Aa by (unfold a, page_aligned in *; by rewrite Z.mod_add).
  assert (forall va, start <= va < a -> has (pte_of (k_mem s0) r va) PTE_V = false) as U0
    by (intros va Hv; apply U; unfold PGSIZE in *; lia).
  pose proof (al_ok _ _ _ _ _ _ _ _ _ _ AL) as OK.
  destruct (al_used _ _ _ _ _ _ _ _ _ _ AL) as (u0 & _ & Mt0).
  pose proof (lookup_weaken _ _ _ _ R (proj1 Mt0)) as R1.
  destruct (kalloc_spec s fl (vo_lock _ _ _ OK) (vo_kmem _ _ _ OK))
    as [[-> Ek]|(p & fl1 & -> & Np & Ek & _)]; rewrite (bind_ret _ _ _ _ _ Ek).
  { destruct (alloced_rollback _ _ _ _ _ _ _ _ _ _ OK0 (alloced_settle _ _ _ _ _ _ _ _ _ _ AL) Hp R A H0)
      as (s' & E & Ab); [unfold a, PGSIZE in *; lia|done|].
    exists 0, s'. split; [|right; split_and!; (done || simpl; lia)]. simpl. fold a in E. by rewrite (bind_ret _ _ _ _ _ E). }
  destruct (Z.eqb_spec p 0); [done|]. unfold kmemset. kstep. fold (zeroed p s).
  destruct (map_filled s G p fl1 (zeroed p s) (fun _ => 0) r a perm (filled_zeroed _ _ _ _ OK) R1 Aa Ha0 Ha Hp)
    as (x & s1 & G1 & fl2 & used & E1 & OK1 & Efl & Mt1 & O1 & T1 & V1 & N1 & Z1 & Fr1 & P1 & Kp & Res).
  { intros va Hv. rewrite (al_pte _ _ _ _ _ _ _ _ _ _ AL) by (done || lia).
    rewrite decide_False by (unfold a in *; lia). apply U. unfold PGSIZE in *; lia. }
  fold perm. rewrite (bind_ret _ _ _ _ _ E1). destruct Res as [[-> Hl]|(-> & -> & Hl)]; cbn [negb Z.eqb].
  - rewrite u64_small by (pose proof MAXVA_lt; lia).
    destruct (IH fuel s1 G1 fl2 (ps ++ [p])) as (x & s' & E & Post).
    + apply (alloced_step s0 G0 fl0 r start perm s G p fl1 ps s1 G1 fl2 used true); try done.
      * by apply kept_cons.
      * rewrite Efl. simpl. by rewrite Permutation_middle.
      * intros r' va R' Hv. rewrite P1 by done. apply decide_ext. fold a. tauto.
    + lia.
    + rewrite length_app. simpl. unfold a, PGSIZE in *. lia.
    + rewrite length_app. simpl. unfold a, PGSIZE in *. lia.
    + rewrite length_app. simpl. unfold a, PGSIZE in *. lia.
    + rewrite length_app. simpl. intros va Hv. apply U. unfold a, PGSIZE in *. lia.
    + rewrite length_app in *. simpl in *.
      replace (start + Z.of_nat (length ps + 1) * PGSIZE) with (a + PGSIZE) in E by (unfold a, PGSIZE; lia).
      exists x, s'. split; [done|]. destruct Post as [(-> & G' & fl' & qs & Hq & AL')|(-> & Ab & Hl')];
        [left|right; split_and!; (done || lia)].
      split; [done|]. exists G', fl', qs. split; [lia|done].
  - destruct (vm_kfree s1 G1 [] p OK1 V1) as (Kf & OK2 & O2 & Fr2 & P2); [apply not_elem_of_nil|done|].
    rewrite (bind_ret _ _ _ _ _ Kf).
    assert (alloced s0 G0 fl0 r start perm (kfree_state p s1) G1 [p] (ps ++ [])) as AL2.
    { apply (alloced_step s0 G0 fl0 r start perm s G p fl1 ps (kfree_state p s1) G1 [p] used false); try done.
      - by eapply only_vm_trans.
      - intros c [Hc1 Hc2]. rewrite Fr2 by (apply Hc2, list_elem_of_here). by apply Fr1.
      - by apply (kept_cons G p fl1 G1 []).
      - rewrite Efl, app_nil_r. simpl. by rewrite Permutation_cons_append.
      - intros r' va R' Hv. rewrite P2 by (done || by eapply lookup_weaken; [|apply Mt1]).
        rewrite P1 by done. rewrite !decide_False by (intros (? & _); (done || lia)). done. }
    rewrite app_nil_r in AL2.
    destruct (alloced_rollback _ _ _ _ _ _ _ _ _ _ OK0 AL2 Hp R A H0)
      as (s' & E & Ab); [unfold a, PGSIZE in *; lia|done|].
    fold a in E. rewrite (bind_ret _ _ _ _ _ E). exists 0, s'.
    split; [done|]. right. split_and!; (done || simpl; lia).
Qed.

Lemma uvmalloc_spec r oldsz newsz xperm s G fl :
  let perm := Z.lor (Z.lor PTE_R PTE_U) xperm in
  vmok s G fl -> G !! (r, 2%nat, 0) = Some r -> 0 <= perm < 1024 -> 0 <= oldsz <= newsz -> newsz <= MAXVA ->
  (forall va, PGROUNDUP oldsz <= va < PGROUNDUP newsz -> has (pte_of (k_mem s) r va) PTE_V = false) ->
  exists x s', uvmalloc r oldsz newsz xperm s = Ret x s' /\
    ((x = newsz /\ exists G' fl' ps, length ps = upages oldsz newsz /\
        alloced s G fl r (PGROUNDUP oldsz) perm s' G' fl' ps) \/
     (x = 0 /\ aborted s G fl s' /\ (length fl < 3 * upages oldsz newsz)%nat)).
Proof.
  intros perm OK R Hp H1 H2 U. destruct (upages_spec oldsz newsz H1 H2) as (E & B & B0 & A).
  unfold uvmalloc. destruct (Z.ltb_spec newsz oldsz); [lia|]. pose proof MAXVA_lt.
  destruct (PGROUNDUP_bounds newsz) as [Bn An]; [unfold PGSIZE; lia|].
  set (start := PGROUNDUP oldsz) in *. set (n := upages oldsz newsz) in *.
  destruct (uvmalloc_loop_spec r start newsz xperm s G fl OK R A B0 Hp n
    (Z.to_nat ((newsz - start) / PGSIZE + 1)) s G fl []) as (x & s' & Ex & Post).
  - by apply alloced_refl.
  - destruct (decide (n = 0%nat)); [lia|]. apply Nat2Z.inj_le.
    assert (Z.of_nat n - 1 <= (newsz - start) / PGSIZE)
      by (apply Z.div_le_lower_bound; unfold PGSIZE in *; lia). lia.
  - simpl. lia.
  - simpl. lia.
  - destruct (decide (n = 0%nat)); [by left|right]. simpl. unfold PGSIZE in *. lia.
  - simpl. intros va Hv. apply U. lia.
  - simpl in Ex. rewrite Z.add_0_r in Ex. exists x, s'. split; [done|exact Post].
Qed.

Lemma uvmdealloc_round r oldsz newsz s x s' : 0 <= newsz < oldsz -> oldsz <= MAXVA ->
  uvmdealloc r (PGROUNDUP oldsz) (PGROUNDUP newsz) s = Ret x s' ->
  uvmdealloc r oldsz newsz s = Ret newsz s'.
Proof.
  intros H1 H2. pose proof MAXVA_lt.
  destruct (PGROUNDUP_bounds newsz) as [Bn An]; [unfold PGSIZE; lia|].
  destruct (PGROUNDUP_bounds oldsz) as [Bo Ao]; [unfold PGSIZE; lia|].
  unfold uvmdealloc. rewrite (PGROUNDUP_id (PGROUNDUP newsz)) by (done || unfold PGSIZE in *; lia).
  rewrite (PGROUNDUP_id (PGROUNDUP oldsz)) by (done || unfold PGSIZE in *; lia).
  destruct (Z.leb_spec oldsz newsz); [lia|].
  destruct (Z.ltb_spec (PGROUNDUP newsz) (PGROUNDUP oldsz)); destruct (Z.leb_spec (PGROUNDUP oldsz) (PGROUNDUP newsz));
    try lia; intros E; [|by injection E as _ <-].
  kinv E. injection E as _ <-. by rewrite (bind_ret _ _ _ _ _ E0).
Qed.

(** C17 uvmalloc() is all or nothing: it returns the new size with
    every page of the new range mapped to its own zero-filled page taken from
    the free list, readable by the user and with [xperm], or it returns 0 with
    the translations of every page table as before the call and every page it
    took, other than empty directories, free again.  With three free pages for
    each page of the range it succeeds. *)
Theorem uvmalloc_all_or_nothing r oldsz newsz xperm s G fl :
  let perm := Z.lor (Z.lor PTE_R PTE_U) xperm in
  vmok s G fl -> G !! (r, 2%nat, 0) = Some r -> 0 <= perm < 1024 -> 0 <= oldsz <= newsz -> newsz <= MAXVA ->
  (forall va, PGROUNDUP oldsz <= va < PGROUNDUP newsz -> has (pte_of (k_mem s) r va) PTE_V = false) ->
  exists x s', uvmalloc r oldsz newsz xperm s = Ret x s' /\
    ((x = newsz /\ exists G' fl' ps, length ps = upages oldsz newsz /\ NoDup ps /\
        alloced s G fl r (PGROUNDUP oldsz) perm s' G' fl' ps) \/
     (x = 0 /\ aborted s G fl s' /\ (length fl < 3 * upages oldsz newsz)%nat)).
Proof.
  intros perm OK R Hp H1 H2 U.
  destruct (uvmalloc_spec r oldsz newsz xperm s G fl OK R Hp H1 H2 U) as (x & s' & E & Res).
  exists x, s'. split; [done|]. destruct Res as [(-> & G' & fl' & ps & Hl & AL)|Ab]; [left|by right].
  split; [done|]. exists G', fl', ps. split; [done|]. split; [|done].
  apply (al_owned _ _ _ _ _ _ _ _ _ _ OK AL).
Qed.

(** uvmdealloc() undoes uvmalloc(): growing a process from
    [oldsz] to [newsz] and shrinking it back returns [oldsz] and restores the
    translations of every page table and the free pages, up to their order and
    the directories that stay allocated. *)
Theorem uvmdealloc_undoes_uvmalloc r oldsz newsz xperm s G fl s1 :
  0 <= Z.lor (Z.lor PTE_R PTE_U) xperm < 1024 ->
  vmok s G fl -> G !! (r, 2%nat, 0) = Some r -> 0 <= oldsz < newsz -> newsz <= MAXVA ->
  (forall va, PGROUNDUP oldsz <= va < PGROUNDUP newsz -> has (pte_of (k_mem s) r va) PTE_V = false) ->
  uvmalloc r oldsz newsz xperm s = Ret newsz s1 ->
  exists s2, uvmdealloc r newsz oldsz s1 = Ret oldsz s2 /\ aborted s G fl s2.
Proof.
  intros Hp OK R H1 H2 U E0.
  destruct (upages_spec oldsz newsz ltac:(lia) H2) as (Eu & B & B0 & A).
  destruct (uvmalloc_spec r oldsz newsz xperm s G fl OK R Hp ltac:(lia) H2 U) as (x & s' & E & Res).
  rewrite E0 in E. injection E as -> ->. destruct Res as [(_ & G' & fl' & ps & Hl & AL)|(? & _)]; [|lia].
  rewrite <- Eu, <- Hl in B, U.
  destruct (alloced_rollback _ _ _ _ _ _ _ _ _ _ OK AL Hp R A B0 B U) as (s2 & E2 & Ab).
  exists s2. split; [|done]. rewrite Hl, Eu in E2. by eapply uvmdealloc_round.
Qed.

End Uvm.

Lemma uvmalloc_all_or_nothing_witness : exists s r s',
  @uvmalloc small_layout r 0x123 0x2345 PTE_W s = Ret 0x2345 s'.
Proof.
  destruct boot_table as (s & G & fl & r & OK & R & Hl & P).
  destruct (@uvmalloc_all_or_nothing small_layout r 0x123 0x2345 PTE_W s G fl OK R)
    as (x & s' & E & Res); try done.
  - intros va Hv. rewrite P; [done|].
    change (PGROUNDUP 0x123) with 0x1000 in Hv. change (PGROUNDUP 0x2345) with 0x3000 in Hv.
    assert (0x3000 < MAXVA) by done. lia.
  - exists s, r, s'. destruct Res as [(-> & _)|(_ & _ & Hn)]; [exact E|].
    change (upages 0x123 0x2345) with 2%nat in Hn. lia.
Defined.

Lemma uvmdealloc_undoes_uvmalloc_witness : exists s r s1 s2,
  @uvmalloc small_layout r 0x123 0x2345 PTE_W s = Ret 0x2345 s1 /\
  @uvmdealloc small_layout r 0x2345 0x123 s1 = Ret 0x123 s2.
Proof.
  destruct boot_table as (s & G & fl & r & OK & R & Hl & P).
  assert (forall va, PGROUNDUP 0x123 <= va < PGROUNDUP 0x2345 -> has (pte_of (k_mem s) r va) PTE_V = false) as U.
  { intros va Hv. rewrite P; [done|].
    change (PGROUNDUP 0x123) with 0x1000 in Hv. change (PGROUNDUP 0x2345) with 0x3000 in Hv.
    assert (0x3000 < MAXVA) by done. lia. }
  destruct (@uvmalloc_spec small_layout r 0x123 0x2345 PTE_W s G fl OK R)
    as (x & s1 & E & Res); try done.
  destruct Res as [(-> & _)|(_ & _ & Hn)]; [|change (upages 0x123 0x2345) with 2%nat in Hn; lia].
  destruct (@uvmdealloc_undoes_uvmalloc small_layout r 0x123 0x2345 PTE_W s G fl s1) as (s2 & E2 & _); try done.
  exists s, r, s1, s2. auto.
Defined.
