(* ===== verification/CopySpec.v ===== *)
(** * Copies between kernel and user memory (kernel/vm.c)

    copyin(), copyout() and copyinstr() over a range of user addresses that is
    mapped: the bytes at the physical addresses the page table gives. *)

From S2P Require Import Prelude Riscv Memory KState KMonad Spinlock Kalloc Vm VmSpec UvmSpec.

(** The physical address of a user address, and the user bytes at [va]. *)
Definition utrans (m : mem) (r va : Z) : Z := uaddr m r va + va mod PGSIZE.

Definition uread (m : mem) (r va : Z) (n : nat) : list Z :=
  map (fun i => mget m (utrans m r (va + Z.of_nat i))) (seq 0 n).

Lemma map_seq_shift {A} (f : nat -> A) k : forall n, map f (seq n k) = map (fun i => f (n + i)%nat) (seq 0 k).
Proof.
  induction k as [|k IH]; intros n; [done|]. simpl. rewrite Nat.add_0_r. f_equal.
  rewrite (IH (S n)), <- seq_shift, map_map. apply map_ext. intros i. f_equal. lia.
Qed.

Lemma uread_app m r va n k : uread m r va (n + k) = uread m r va n ++ uread m r (va + Z.of_nat n) k.
Proof.
  unfold uread. rewrite seq_app, map_app. f_equal. simpl. rewrite map_seq_shift.
  apply map_ext. intros i. do 2 f_equal. lia.
Qed.

Section Copy.
Context {L : Layout}.

Lemma page_down_range va : 0 <= va < MAXVA -> 0 <= PGROUNDDOWN va /\ PGROUNDDOWN va + PGSIZE <= MAXVA.
Proof.
  intros H. pose proof (PGROUNDDOWN_bounds va) as B. pose proof (PGROUNDDOWN_aligned va) as A.
  assert (page_aligned MAXVA) as AM by done. unfold page_aligned, PGSIZE in *.
  pose proof (Z.div_mod (PGROUNDDOWN va) 4096 ltac:(lia)). pose proof (Z.div_mod MAXVA 4096 ltac:(lia)). lia.
Qed.

Lemma pte_of_down m G r va : forest m G -> G !! (r, 2%nat, 0) = Some r -> 0 <= va < MAXVA ->
  pte_of m r (PGROUNDDOWN va) = pte_of m r va.
Proof.
  intros F R H. destruct (page_down_range va H). symmetry.
  apply (pte_of_page m G); (done || lia || apply PGROUNDDOWN_aligned || apply PGROUNDDOWN_bounds).
Qed.

Lemma uaddr_page m G r va va' : forest m G -> G !! (r, 2%nat, 0) = Some r ->
  0 <= va < MAXVA -> PGROUNDDOWN va <= va' < PGROUNDDOWN va + PGSIZE ->
  uaddr m r va' = uaddr m r va.
Proof.
  intros F R H1 H2. destruct (page_down_range va H1).
  unfold uaddr. rewrite (pte_of_page m G r (PGROUNDDOWN va) va')
    by (done || lia || apply PGROUNDDOWN_aligned). by rewrite (pte_of_down m G).
Qed.

(** The bytes of a range inside one page are contiguous. *)
Lemma utrans_chunk m G r va i : forest m G -> G !! (r, 2%nat, 0) = Some r ->
  0 <= va < MAXVA -> 0 <= i -> va + i < PGROUNDDOWN va + PGSIZE ->
  utrans m r (va + i) = uaddr m r va + (va - PGROUNDDOWN va) + i.
Proof.
  intros F R H1 H2 H3. pose proof (PGROUNDDOWN_bounds va) as B. unfold utrans.
  rewrite (uaddr_page m G r va (va + i)) by (done || lia).
  rewrite PGROUNDDOWN_mod in *. replace ((va + i) mod PGSIZE) with (va mod PGSIZE + i); [lia|].
  pose proof (Z.div_mod va PGSIZE ltac:(done)). pose proof (Z.mod_pos_bound va PGSIZE ltac:(done)).
  apply Z.mod_unique with (va / PGSIZE); [left; lia|lia].
Qed.

Lemma uread_chunk m G r va n : forest m G -> G !! (r, 2%nat, 0) = Some r ->
  0 <= va < MAXVA -> va + Z.of_nat n <= PGROUNDDOWN va + PGSIZE ->
  uread m r va n = read_bytes m (uaddr m r va + (va - PGROUNDDOWN va)) n.
Proof.
  intros F R H1 H2. rewrite read_bytes_map. unfold uread. apply map_ext_in. intros i Hi.
  apply in_seq in Hi. by rewrite (utrans_chunk m G) by (done || lia).
Qed.

(** The chunk of [len] bytes at [va] that lies in its first page. *)
Definition chunk (va : Z) (len : nat) : nat :=
  Z.to_nat (Z.min (PGSIZE - (va - PGROUNDDOWN va)) (Z.of_nat len)).

Lemma chunk_spec va len : 0 <= va -> va + Z.of_nat len <= MAXVA -> (0 < len)%nat ->
  (0 < chunk va len <= len)%nat /\ va + Z.of_nat (chunk va len) <= PGROUNDDOWN va + PGSIZE /\
  0 <= PGROUNDDOWN va < MAXVA /\ u64 (PGROUNDDOWN va + PGSIZE) = PGROUNDDOWN va + PGSIZE /\
  ((chunk va len < len)%nat -> PGROUNDDOWN va + PGSIZE = va + Z.of_nat (chunk va len)).
Proof.
  intros H1 H2 H3. pose proof (PGROUNDDOWN_bounds va) as B. unfold chunk. pose proof MAXVA_lt.
  pose proof (PGROUNDDOWN_aligned va) as A.
  assert (0 <= PGROUNDDOWN va).
  { unfold page_aligned, PGSIZE in *. pose proof (Z.div_mod (PGROUNDDOWN va) 4096 ltac:(lia)). lia. }
  rewrite u64_small by (unfold PGSIZE in *; lia). unfold PGSIZE in *. lia.
Qed.

Lemma copyin_loop_spec r : forall fuel va len s G fl,
  vmok s G fl -> G !! (r, 2%nat, 0) = Some r -> 0 <= va -> va + Z.of_nat len <= MAXVA -> (len <= fuel)%nat ->
  (forall v, va <= v < va + Z.of_nat len -> uaddr (k_mem s) r v <> 0) ->
  copyin_loop fuel r va len s = Ret (uread (k_mem s) r va len, true) s.
Proof.
  induction fuel as [|fuel IH]; intros va len s G fl OK R H1 H2 H3 U.
  { assert (len = 0%nat) as -> by lia. done. }
  destruct len as [|len]; [done|]. set (ln := S len) in *.
  destruct (chunk_spec va ln H1 H2 ltac:(lia)) as (C1 & C2 & C3 & C4 & C5).
  pose proof (vo_forest _ _ _ OK) as F. pose proof (PGROUNDDOWN_bounds va) as B.
  assert (0 <= va < MAXVA) as Hv by lia.
  cbn [copyin_loop]. unfold ln at 1. rewrite (bind_ret _ _ _ _ _ (walkaddr_eq r _ s G fl OK R C3)).
  rewrite (uaddr_page (k_mem s) G r va (PGROUNDDOWN va)) by (done || lia).
  destruct (Z.eqb_spec (uaddr (k_mem s) r va) 0); [by destruct (U va); [lia|]|]. kstep.
  destruct (Z.eqb_spec (uaddr (k_mem s) r va) 0); [done|].
  fold (chunk va ln). unfold kread. kstep.
  rewrite <- (uread_chunk (k_mem s) G) by (done || lia). rewrite C4.
  assert (uread (k_mem s) r va ln =
          uread (k_mem s) r va (chunk va ln) ++ uread (k_mem s) r (va + Z.of_nat (chunk va ln)) (ln - chunk va ln)) as ->.
  { rewrite <- uread_app. f_equal. lia. }
  destruct (decide (chunk va ln < ln)%nat) as [Hlt|Hge].
  - rewrite (C5 Hlt). erewrite bind_ret; [|apply (IH _ _ _ G fl); (done || lia || intros v Hv'; apply U; lia)].
    reflexivity.
  - replace (ln - chunk va ln)%nat with 0%nat by lia. 
    assert (forall a, copyin_loop fuel r a 0 s = Ret ([], true) s) as E0 by (by destruct fuel).
    by rewrite (bind_ret _ _ _ _ _ (E0 _)).
Qed.

Lemma copyin_eq r va len s G fl :
  vmok s G fl -> G !! (r, 2%nat, 0) = Some r -> 0 <= va -> va + Z.of_nat len <= MAXVA ->
  (forall v, va <= v < va + Z.of_nat len -> uaddr (k_mem s) r v <> 0) ->
  copyin r va len s = Ret (Some (uread (k_mem s) r va len)) s.
Proof.
  intros. unfold copyin, copyin_part. erewrite bind_ret; [|apply (copyin_loop_spec r _ _ _ _ G fl); (done || lia)].
  reflexivity.
Qed.

(** A range of user addresses that copyout() may write: mapped for the user
    and writable, to distinct data pages. *)
Record writable (s : kstate) (G : tables) (fl : list Z) (r va : Z) (n : nat) : Prop := {
  wr_low : 0 <= va;
  wr_high : va + Z.of_nat n <= MAXVA;
  wr_user v : va <= v < va + Z.of_nat n -> uaddr (k_mem s) r v <> 0;
  wr_write v : va <= v < va + Z.of_nat n -> has (pte_of (k_mem s) r v) PTE_W = true;
  wr_data v a : va <= v < va + Z.of_nat n -> (a ∈ fl \/ exists k, G !! k = Some a) -> uaddr (k_mem s) r v <> a;
  wr_inj v v' : va <= v < va + Z.of_nat n -> va <= v' < va + Z.of_nat n ->
    uaddr (k_mem s) r v = uaddr (k_mem s) r v' -> v / PGSIZE = v' / PGSIZE;
}.

Lemma uaddr_aligned m G r v : mem_ok m -> forest m G -> G !! (r, 2%nat, 0) = Some r -> 0 <= v < MAXVA ->
  page_aligned (uaddr m r v).
Proof.
  intros M F R H. unfold uaddr. case_if; [|done]. apply PTE2PA_aligned.
  rewrite (pte_of_eq _ _ _ _ F R H). destruct (G !! (r, 0%nat, pfx 0 v)); [by apply load64_range|lia].
Qed.

(** A byte of the range is in its page, and distinct bytes are distinct. *)
Lemma utrans_in_page m r v : in_page (uaddr m r v) (utrans m r v).
Proof. unfold in_page, utrans. pose proof (Z.mod_pos_bound v PGSIZE ltac:(done)). lia. Qed.

Lemma utrans_inj s G fl r va n v v' : vmok s G fl -> G !! (r, 2%nat, 0) = Some r -> writable s G fl r va n ->
  va <= v < va + Z.of_nat n -> va <= v' < va + Z.of_nat n ->
  utrans (k_mem s) r v = utrans (k_mem s) r v' -> v = v'.
Proof.
  intros OK R W H H' E. pose proof (wr_low _ _ _ _ _ _ W). pose proof (wr_high _ _ _ _ _ _ W).
  pose proof (ki_mem _ _ (vo_kmem _ _ _ OK)) as M. pose proof (vo_forest _ _ _ OK) as F.
  pose proof (uaddr_aligned _ _ _ v M F R ltac:(lia)) as A.
  pose proof (uaddr_aligned _ _ _ v' M F R ltac:(lia)) as A'.
  assert (uaddr (k_mem s) r v = uaddr (k_mem s) r v') as Eu.
  { destruct (decide (uaddr (k_mem s) r v = uaddr (k_mem s) r v')) as [|N]; [done|exfalso].
    apply (not_in_other_page _ _ (utrans (k_mem s) r v') A A' N); [apply utrans_in_page|].
    rewrite <- E. apply utrans_in_page. }
  pose proof (wr_inj _ _ _ _ _ _ W v v' H H' Eu) as Ev. unfold utrans in E.
  pose proof (Z.div_mod v PGSIZE ltac:(done)). pose proof (Z.div_mod v' PGSIZE ltac:(done)). lia.
Qed.

(** A write to user data leaves the tables, the free list and so the
    translations as they are. *)
Lemma vm_user_write s G fl r va n m : vmok s G fl -> G !! (r, 2%nat, 0) = Some r -> writable s G fl r va n ->
  mem_ok m ->
  (forall b, (forall v, va <= v < va + Z.of_nat n -> b <> utrans (k_mem s) r v) -> mget m b = mget (k_mem s) b) ->
  vmok (set_k_mem m s) G fl /\
  forall r' v, G !! (r', 2%nat, 0) = Some r' -> 0 <= v < MAXVA -> pte_of m r' v = pte_of (k_mem s) r' v.
Proof.
  intros OK R W M Fr. apply vm_agree; [done|done|]. intros a b Ha Hb. apply Fr. intros v Hv ->.
  pose proof (wr_low _ _ _ _ _ _ W). pose proof (wr_high _ _ _ _ _ _ W).
  pose proof (uaddr_aligned _ _ _ v (ki_mem _ _ (vo_kmem _ _ _ OK)) (vo_forest _ _ _ OK) R ltac:(lia)) as A.
  assert (page_aligned a) as Aa.
  { destruct Ha as [Ha|[k Ha]]; [|by apply (fo_page _ _ (vo_forest _ _ _ OK) _ _ Ha)].
    pose proof (ki_valid _ _ (vo_kmem _ _ _ OK)) as VL. rewrite Forall_forall in VL. by apply VL. }
  apply (not_in_other_page (uaddr (k_mem s) r v) a (utrans (k_mem s) r v) A Aa); [|done|apply utrans_in_page].
  by apply (wr_data _ _ _ _ _ _ W v a).
Qed.

(** What copyout() leaves in memory. *)
Definition written (m m' : mem) (r va : Z) (src : list Z) : Prop :=
  (forall i, (i < length src)%nat -> mget m' (utrans m r (va + Z.of_nat i)) = u8 (nth i src 0)) /\
  (forall b, (forall v, va <= v < va + Z.of_nat (length src) -> b <> utrans m r v) -> mget m' b = mget m b).

Lemma walk_deref {A} r va s G fl (k : Z -> K A) : vmok s G fl -> G !! (r, 2%nat, 0) = Some r -> 0 <= va < MAXVA ->
  has (pte_of (k_mem s) r va) PTE_V = true ->
  (pte ← walk r va false; v ← kderef pte; k v) s = k (pte_of (k_mem s) r va) s.
Proof.
  intros OK R H V. pose proof (vo_forest _ _ _ OK) as F. pose proof (PX_range 0 va).
  rewrite (bind_ret _ _ _ _ _ (walk_noalloc r va s H)).
  rewrite (pte_of_eq _ _ _ _ F R H) in V |- *. rewrite (pte_of_forest _ _ _ _ F R H).
  destruct (G !! (r, 0%nat, pfx 0 va)) as [t|] eqn:E; [|by rewrite has_0 in V]. simpl.
  destruct (fo_page _ _ F _ _ E) as [_ Ht]. unfold kderef.
  destruct (Z.eqb_spec (t + 8 * PX 0 va) 0); [lia|]. unfold kload. by kstep.
Qed.

Lemma writable_sub s G fl r va n va' n' : writable s G fl r va n -> va <= va' ->
  va' + Z.of_nat n' <= va + Z.of_nat n -> writable s G fl r va' n'.
Proof.
  intros [W1 W2 W3 W4 W5 W6] H1 H2. split; [lia|lia| | | |].
  - intros v H. apply W3. lia.
  - intros v H. apply W4. lia.
  - intros v a H. apply W5. lia.
  - intros v v' H H'. apply W6; lia.
Qed.

Lemma writable_mem s G fl r va n m : writable s G fl r va n -> G !! (r, 2%nat, 0) = Some r ->
  (forall v, 0 <= v < MAXVA -> pte_of m r v = pte_of (k_mem s) r v) ->
  writable (set_k_mem m s) G fl r va n.
Proof.
  intros [W1 W2 W3 W4 W5 W6] R P.
  assert (forall v, va <= v < va + Z.of_nat n -> uaddr m r v = uaddr (k_mem s) r v) as U
    by (intros v H; unfold uaddr; by rewrite P by lia).
  split; rewrite ?k_mem_set; [done|done| | | |].
  - intros v H. rewrite U by done. by apply W3.
  - intros v H. rewrite P by lia. by apply W4.
  - intros v a H. rewrite U by done. by apply W5.
  - intros v v' H H'. rewrite !U by done. by apply W6.
Qed.

(** The write of one chunk. *)
Lemma written_chunk s G fl r va src : vmok s G fl -> G !! (r, 2%nat, 0) = Some r -> 0 <= va < MAXVA ->
  va + Z.of_nat (length src) <= PGROUNDDOWN va + PGSIZE ->
  written (k_mem s) (write_bytes (k_mem s) (uaddr (k_mem s) r va + (va - PGROUNDDOWN va)) src) r va src.
Proof.
  intros OK R H1 H2. pose proof (vo_forest _ _ _ OK) as F. split.
  - intros i Hi. rewrite (utrans_chunk _ G) by (done || lia). rewrite mget_write_bytes, decide_True by lia.
    do 2 f_equal. lia.
  - intros b Hb. rewrite mget_write_bytes, decide_False; [done|]. intros Hin.
    set (base := uaddr (k_mem s) r va + (va - PGROUNDDOWN va)) in *.
    apply (Hb (va + (b - base))); [lia|]. rewrite (utrans_chunk _ G) by (done || lia). fold base. lia.
Qed.

Lemma written_app s G fl r va l1 l2 m1 m2 : vmok s G fl -> G !! (r, 2%nat, 0) = Some r ->
  writable s G fl r va (length (l1 ++ l2)) ->
  (forall v, 0 <= v < MAXVA -> pte_of m1 r v = pte_of (k_mem s) r v) ->
  written (k_mem s) m1 r va l1 -> written m1 m2 r (va + Z.of_nat (length l1)) l2 ->
  written (k_mem s) m2 r va (l1 ++ l2).
Proof.
  intros OK R W P [A1 A2] [B1 B2]. rewrite length_app in *.
  pose proof (wr_low _ _ _ _ _ _ W). pose proof (wr_high _ _ _ _ _ _ W).
  assert (forall v, 0 <= v < MAXVA -> utrans m1 r v = utrans (k_mem s) r v) as U
    by (intros v Hv; unfold utrans, uaddr; by rewrite P).
  split; rewrite length_app.
  - intros i Hi. destruct (decide (i < length l1)%nat).
    + rewrite B2; [rewrite A1, app_nth1 by lia; done|]. intros v Hv. rewrite U by lia. intros E.
      apply (utrans_inj s G fl r va _ _ _ OK R W) in E; lia.
    + rewrite app_nth2 by lia. specialize (B1 (i - length l1)%nat ltac:(lia)).
      replace (va + Z.of_nat (length l1) + Z.of_nat (i - length l1)) with (va + Z.of_nat i) in B1 by lia.
      by rewrite U in B1 by lia.
  - intros b Hb. rewrite B2, A2; [done| |].
    + intros v Hv. apply Hb. lia.
    + intros v Hv. rewrite U by lia. apply Hb. lia.
Qed.

Lemma copyout_loop_spec r G fl : G !! (r, 2%nat, 0) = Some r -> forall fuel src va s,
  vmok s G fl -> writable s G fl r va (length src) -> (length src <= fuel)%nat ->
  exists m', copyout_loop fuel r va src s = Ret 0 (set_k_mem m' s) /\ mem_ok m' /\
    written (k_mem s) m' r va src.
Proof.
  intros R. induction fuel as [|fuel IH]; intros src va s OK W Hf.
  { destruct src; [|simpl in Hf; lia]. exists (k_mem s). split; [done|]. split; [apply (vo_kmem _ _ _ OK)|].
    split; [simpl; lia|done]. }
  destruct src as [|x src']; [exists (k_mem s); split; [done|]; split; [apply (vo_kmem _ _ _ OK)|split; [simpl; lia|done]]|].
  set (src := x :: src') in *.
  pose proof (wr_low _ _ _ _ _ _ W) as H1. pose proof (wr_high _ _ _ _ _ _ W) as H2.
  assert (0 < length src)%nat as H3 by (simpl; lia).
  destruct (chunk_spec va (length src) H1 H2 H3) as (C1 & C2 & C3 & C4 & C5).
  pose proof (vo_forest _ _ _ OK) as F. pose proof (PGROUNDDOWN_bounds va) as B.
  assert (0 <= va < MAXVA) as Hv by lia.
  pose proof (wr_user _ _ _ _ _ _ W va ltac:(lia)) as U.
  pose proof (pte_of_down (k_mem s) G r va F R Hv) as EP.
  cbn [copyout_loop]. unfold src at 1. destruct (Z.leb_spec MAXVA (PGROUNDDOWN va)); [lia|].
  rewrite (bind_ret _ _ _ _ _ (walkaddr_eq r _ s G fl OK R C3)).
  rewrite (uaddr_page (k_mem s) G r va (PGROUNDDOWN va)) by (done || lia).
  destruct (Z.eqb_spec (uaddr (k_mem s) r va) 0) as [|N0]; [done|]. kstep.
  destruct (Z.eqb_spec (uaddr (k_mem s) r va) 0) as [|_]; [done|].
  rewrite (walk_deref r _ s G fl _ OK R C3).
  2: { rewrite EP. unfold uaddr in U. by destruct (has (pte_of (k_mem s) r va) PTE_V). }
  rewrite EP, (wr_write _ _ _ _ _ _ W va) by lia. cbn [negb].
  fold (chunk va (length src)). set (n := chunk va (length src)) in *. unfold kwrite. kstep. rewrite C4.
  assert (length (take n src) = n) as Ln by (rewrite length_take; lia).
  pose proof (written_chunk s G fl r va (take n src) OK R Hv ltac:(lia)) as W1.
  set (m1 := write_bytes _ _ _) in *.
  assert (mem_ok m1) as M1 by (apply mem_ok_write_bytes, (vo_kmem _ _ _ OK)).
  destruct (vm_user_write s G fl r va n m1 OK R) as [OK1 P1]; [by eapply writable_sub; [exact W|lia|lia]|done| |].
  { intros b Hb. apply W1. by rewrite Ln. }
  destruct (decide (n < length src)%nat) as [Hlt|Hge].
  - rewrite (C5 Hlt).
    destruct (IH (drop n src) (va + Z.of_nat n) (set_k_mem m1 s) OK1) as (m2 & E2 & M2 & W2).
    + apply writable_mem; [|done|by intros; apply P1]. rewrite length_drop.
      eapply writable_sub; [exact W|lia|lia].
    + rewrite length_drop. lia.
    + exists m2. split; [exact E2|]. split; [done|]. rewrite <- (take_drop n src).
      apply (written_app s G fl r va _ _ m1); try done; [by rewrite take_drop|by intros; apply P1|].
      by rewrite Ln.
  - exists m1. rewrite (drop_ge src n) by lia. split; [by destruct fuel|]. split; [done|].
    by rewrite (take_ge src n) in W1 by lia.
Qed.

(** What was written is what is read back. *)
Lemma written_uread m m' r va src : (forall v, va <= v < va + Z.of_nat (length src) -> uaddr m' r v = uaddr m r v) ->
  Forall (fun b => 0 <= b < 256) src -> written m m' r va src -> uread m' r va (length src) = src.
Proof.
  intros U Hb [Wr _]. apply nth_ext with 0 0; [unfold uread; by rewrite length_map, length_seq|].
  unfold uread. rewrite length_map, length_seq. intros i Hi.
  rewrite (nth_indep _ 0 (mget m' (utrans m' r (va + Z.of_nat 0)))) by (by rewrite length_map, length_seq).
  rewrite (map_nth (fun i => mget m' (utrans m' r (va + Z.of_nat i)))), seq_nth by done. simpl.
  unfold utrans. rewrite U by lia. fold (utrans m r (va + Z.of_nat i)).
  rewrite Wr by done. apply u8_byte. rewrite Forall_forall in Hb.
  apply Hb, list_elem_of_In, nth_In, Hi.
Qed.

(** C16 copyout() followed by copyin() is the identity: over a user
    range that is mapped and writable the first returns 0, the second reads
    back the bytes written, and no other byte of memory, and so no page table
    and no free page, has changed.  copyin() changes nothing at all. *)
Theorem copyout_copyin r va src s G fl :
  vmok s G fl -> G !! (r, 2%nat, 0) = Some r -> writable s G fl r va (length src) ->
  Forall (fun b => 0 <= b < 256) src ->
  exists s', copyout r va src s = Ret 0 s' /\ s' = set_k_mem (k_mem s') s /\ vmok s' G fl /\
    (forall b, (forall v, va <= v < va + Z.of_nat (length src) -> b <> utrans (k_mem s) r v) ->
       mget (k_mem s') b = mget (k_mem s) b) /\
    (forall r' v, G !! (r', 2%nat, 0) = Some r' -> 0 <= v < MAXVA ->
       pte_of (k_mem s') r' v = pte_of (k_mem s) r' v) /\
    copyin r va (length src) s' = Ret (Some src) s'.
Proof.
  intros OK R W Hb.
  destruct (copyout_loop_spec r G fl R (length src) src va s OK W ltac:(lia)) as (m & E & M & Wr).
  destruct (vm_user_write s G fl r va (length src) m OK R W M (proj2 Wr)) as [OK1 P1].
  exists (set_k_mem m s). split; [done|]. split; [done|]. split; [done|]. split; [apply Wr|]. split; [done|].
  pose proof (wr_low _ _ _ _ _ _ W) as H1. pose proof (wr_high _ _ _ _ _ _ W) as H2.
  assert (forall v, va <= v < va + Z.of_nat (length src) -> uaddr m r v = uaddr (k_mem s) r v) as U
    by (intros v Hv; unfold uaddr; rewrite P1 by (done || lia); done).
  rewrite (copyin_eq r _ _ _ G fl) by (done || lia ||
    (intros v Hv; rewrite k_mem_set, U by done; by apply (wr_user _ _ _ _ _ _ W))).
  do 2 f_equal. rewrite k_mem_set. by apply (written_uread (k_mem s)).
Qed.

(** The page of [va] is mapped for the user, without write permission. *)
Definition readonly (m : gmap Z Z) (r va : Z) : Prop := uaddr m r va <> 0 /\ has (pte_of m r va) PTE_W = false.

(** C36 copyout() never writes through a mapping that is not
    writable for the user: when the page at [dstva] is user text (valid and
    user, without PTE_W), it returns -1 and the whole kernel state, memory
    included, is unchanged. *)
Theorem copyout_readonly r va src s G fl :
  vmok s G fl -> G !! (r, 2%nat, 0) = Some r -> 0 <= va < MAXVA -> src <> [] ->
  readonly (k_mem s) r va -> copyout r va src s = Ret (-1) s.
Proof.
  intros OK R Hv Ns [U NW]. destruct src as [|x src]; [done|]. unfold copyout. cbn [length copyout_loop].
  pose proof (vo_forest _ _ _ OK) as F. pose proof (PGROUNDDOWN_bounds va) as B.
  destruct (chunk_spec va 1 ltac:(lia) ltac:(lia) ltac:(lia)) as (_ & _ & C3 & _ & _).
  pose proof (pte_of_down (k_mem s) G r va F R Hv) as EP.
  destruct (Z.leb_spec MAXVA (PGROUNDDOWN va)); [lia|].
  rewrite (bind_ret _ _ _ _ _ (walkaddr_eq r _ s G fl OK R C3)).
  rewrite (uaddr_page (k_mem s) G r va (PGROUNDDOWN va)) by (done || lia).
  destruct (Z.eqb_spec (uaddr (k_mem s) r va) 0) as [|N0]; [done|]. kstep.
  destruct (Z.eqb_spec (uaddr (k_mem s) r va) 0) as [|_]; [done|].
  rewrite (walk_deref r _ s G fl _ OK R C3).
  - by rewrite EP, NW.
  - rewrite EP. unfold uaddr in U. by destruct (has (pte_of (k_mem s) r va) PTE_V).
Qed.

(** Where the pages uvmalloc() maps are. *)
Lemma alloced_uaddr s0 G0 fl0 r start perm s G fl ps v :
  vmok s0 G0 fl0 -> alloced s0 G0 fl0 r start perm s G fl ps -> 0 <= perm < 1024 ->
  G0 !! (r, 2%nat, 0) = Some r -> 0 <= start -> start + Z.of_nat (length ps) * PGSIZE <= MAXVA ->
  has perm PTE_U = true -> start <= v < start + Z.of_nat (length ps) * PGSIZE ->
  exists p, ps !! Z.to_nat ((v - start) / PGSIZE) = Some p /\
    uaddr (k_mem s) r v = p /\ has (pte_of (k_mem s) r v) PTE_W = has perm PTE_W /\ valid_page p.
Proof.
  intros OK0 AL Hp R H0 H1 HU Hv. pose proof (al_owned _ _ _ _ _ _ _ _ _ _ OK0 AL) as OW.
  assert (Z.to_nat ((v - start) / PGSIZE) < length ps)%nat as Hi.
  { apply Nat2Z.inj_lt. rewrite Z2Nat.id by (apply Z.div_pos; unfold PGSIZE; lia).
    apply Z.div_lt_upper_bound; unfold PGSIZE in *; lia. }
  apply lookup_lt_is_Some in Hi as [p Hi]. exists p. split; [done|].
  unfold uaddr. rewrite (al_pte _ _ _ _ _ _ _ _ _ _ AL r v R) by lia.
  rewrite decide_True by (split; [done|lia]). rewrite (nth_lookup_Some _ _ _ _ Hi).
  pose proof (ow_valid _ _ _ OW) as VL. rewrite Forall_forall in VL.
  pose proof (VL p (list_elem_of_lookup_2 _ _ _ Hi)) as Vp. destruct (valid_page_phys p Vp) as [Ap Bp].
  destruct (leaf_pte_spec p perm Ap ltac:(lia) Hp) as (_ & -> & -> & _).
  by rewrite has_leaf_U, has_leaf_W, HU.
Qed.

(** The pages uvmalloc() maps with PTE_W are writable for the user. *)
Lemma alloced_writable s0 G0 fl0 r start perm s G fl ps va n :
  vmok s0 G0 fl0 -> alloced s0 G0 fl0 r start perm s G fl ps -> 0 <= perm < 1024 ->
  G0 !! (r, 2%nat, 0) = Some r -> page_aligned start -> 0 <= start ->
  start + Z.of_nat (length ps) * PGSIZE <= MAXVA ->
  has perm PTE_U = true -> has perm PTE_W = true ->
  start <= va -> va + Z.of_nat n <= start + Z.of_nat (length ps) * PGSIZE ->
  writable s G fl r va n.
Proof.
  intros OK0 AL Hp R A H0 H1 HU HW H2 H3. pose proof (al_owned _ _ _ _ _ _ _ _ _ _ OK0 AL) as OW.
  assert (forall v, va <= v < va + Z.of_nat n -> exists p, ps !! Z.to_nat ((v - start) / PGSIZE) = Some p /\
    uaddr (k_mem s) r v = p /\ has (pte_of (k_mem s) r v) PTE_W = true /\ p <> 0) as D.
  { intros v Hv. destruct (alloced_uaddr _ _ _ _ _ _ _ _ _ _ v OK0 AL Hp R H0 H1 HU ltac:(lia)) as (p & E & U & Wp & Vp).
    exists p. rewrite Wp, HW. split; [done|]. split; [done|]. split; [done|].
    destruct (valid_page_phys p Vp). lia. }
  split; [lia|lia| | | |].
  - intros v Hv. destruct (D v Hv) as (p & _ & -> & _ & ?). done.
  - intros v Hv. by destruct (D v Hv) as (p & _ & _ & ? & _).
  - intros v a Hv Ha E. destruct (D v Hv) as (p & Hi & Ep & _ & _). rewrite Ep in E. subst a.
    apply list_elem_of_lookup_2 in Hi.
    destruct Ha as [Ha|[k Ha]]; [by apply (ow_free _ _ _ OW p)|by apply (ow_table _ _ _ OW p k)].
  - intros v v' Hv Hv' E. destruct (D v Hv) as (p & Hi & Ep & _ & _).
    destruct (D v' Hv') as (p' & Hi' & Ep' & _ & _). rewrite Ep, Ep' in E. subst p'.
    pose proof (NoDup_lookup _ _ _ _ (ow_nodup _ _ _ OW) Hi Hi') as Ei.
    unfold page_aligned, PGSIZE in *. pose proof (Z.div_mod start 4096 ltac:(lia)).
    assert ((v - start) / 4096 = (v' - start) / 4096) as Eq.
    { apply Z2Nat.inj; [apply Z.div_pos; lia|apply Z.div_pos; lia|done]. }
    pose proof (Z.div_mod (v - start) 4096 ltac:(lia)). pose proof (Z.div_mod (v' - start) 4096 ltac:(lia)).
    pose proof (Z.mod_pos_bound (v - start) 4096 ltac:(lia)). pose proof (Z.mod_pos_bound (v' - start) 4096 ltac:(lia)).
    pose proof (Z.div_mod v 4096 ltac:(lia)). pose proof (Z.div_mod v' 4096 ltac:(lia)).
    pose proof (Z.mod_pos_bound v 4096 ltac:(lia)). pose proof (Z.mod_pos_bound v' 4096 ltac:(lia)). lia.
Qed.
End Copy.

(** Three pages of a fresh process, at 0. *)
Lemma user_pages xperm : 0 <= Z.lor (Z.lor PTE_R PTE_U) xperm < 1024 -> exists s0 G0 fl0 r s G fl ps,
  @vmok small_layout s0 G0 fl0 /\ G0 !! (r, 2%nat, 0) = Some r /\ G !! (r, 2%nat, 0) = Some r /\ length ps = 3%nat /\
  @alloced small_layout s0 G0 fl0 r 0 (Z.lor (Z.lor PTE_R PTE_U) xperm) s G fl ps /\
  (forall k a, G !! k = Some a -> @valid_page small_layout a).
Proof.
  intros Hx. destruct boot_forest as (s & G & fl & r & OK & R & Hl & P & V).
  destruct (@uvmalloc_spec small_layout r 0 0x3000 xperm s G fl OK R Hx) as (x & s1 & E & Res); [done|done| |].
  { intros va Hv. rewrite P; [done|].
    change (PGROUNDUP 0) with 0 in Hv. change (PGROUNDUP 0x3000) with 0x3000 in Hv.
    assert (0x3000 < MAXVA) by done. lia. }
  destruct Res as [(-> & G' & fl' & ps & Hp & AL)|(_ & _ & Hn)]; [|change (upages 0 0x3000) with 3%nat in Hn; lia].
  exists s, G, fl, r, s1, G', fl', ps. split; [done|]. split; [done|].
  destruct (al_used _ _ _ _ _ _ _ _ _ _ AL) as (u & Pm & Mt).
  split; [by eapply lookup_weaken; [|apply Mt]|]. split; [exact Hp|]. split; [exact AL|].
  intros k a Ek. destruct (proj2 Mt k a Ek) as [E0|[_ Hu]]; [by eapply V|].
  pose proof (ki_valid _ _ (vo_kmem _ _ _ OK)) as VL. rewrite Forall_forall in VL. apply VL.
  rewrite Pm. apply elem_of_app. by left.
Qed.

(** A copy that crosses a page boundary. *)
Lemma copyout_copyin_witness : exists s r s',
  @copyout small_layout r 0xFFE [1; 2; 3; 4; 5] s = Ret 0 s' /\
  @copyin small_layout r 0xFFE 5 s' = Ret (Some [1; 2; 3; 4; 5]) s'.
Proof.
  destruct (user_pages PTE_W) as (s0 & G0 & fl0 & r & s & G & fl & ps & OK0 & R0 & R & Hl & AL & _); [done|].
  assert (writable s G fl r 0xFFE 5) as W.
  { apply (@alloced_writable small_layout _ _ _ _ _ _ _ _ _ _ _ _ OK0 AL); try done; rewrite Hl; done. }
  destruct (@copyout_copyin small_layout r 0xFFE [1; 2; 3; 4; 5] s G fl
    (al_ok _ _ _ _ _ _ _ _ _ _ AL) R W) as (s' & E & _ & _ & _ & _ & E').
  { by repeat constructor. }
  exists s, r, s'. auto.
Defined.

Lemma copyout_readonly_witness : exists s r, @copyout small_layout r 0x10 [7] s = Ret (-1) s.
Proof.
  destruct (user_pages PTE_X) as (s0 & G0 & fl0 & r & s & G & fl & ps & OK0 & R0 & R & Hl & AL & _); [done|].
  pose proof (@al_owned small_layout _ _ _ _ _ _ _ _ _ _ OK0 AL) as OW.
  pose proof (al_pte _ _ _ _ _ _ _ _ _ _ AL r 0x10 R0 ltac:(done)) as Ep.
  rewrite decide_True in Ep by (rewrite Hl; done). change (Z.to_nat _) with 0%nat in Ep.
  destruct ps as [|p ps]; [done|]. simpl nth in Ep.
  destruct (valid_page_phys p (Forall_inv (ow_valid _ _ _ OW))) as [Ap Bp].
  destruct (leaf_pte_spec p (Z.lor (Z.lor PTE_R PTE_U) PTE_X) Ap ltac:(lia) ltac:(done)) as (_ & V & P & _).
  exists s, r. apply (@copyout_readonly small_layout r 0x10 [7] s G fl (al_ok _ _ _ _ _ _ _ _ _ _ AL) R); try done. split.
  - unfold uaddr. rewrite Ep, V, P, has_leaf_U. simpl. lia.
  - rewrite Ep. by rewrite has_leaf_W.
Defined.
