(* ===== verification/Pages.v ===== *)
(** * The pages of an address space (kernel/vm.c)

    Facts about [mapped_pages], the user pages a range of addresses is mapped
    to, and about who owns them, shared by the theorems on fork, exit and
    isolation. *)

From S2P Require Import Prelude Riscv Memory KState KMonad Spinlock Kalloc Vm VmSpec UvmSpec CopySpec.

Section MappedPages.
Context {L : Layout}.

(** ** Mapped pages *)

Lemma mapped_pages_app m r n k : forall va,
  mapped_pages m r va (n + k) = mapped_pages m r va n ++ mapped_pages m r (va + Z.of_nat n * PGSIZE) k.
Proof.
  induction n as [|n IH]; intros va; [by rewrite Z.add_0_r|]. cbn [mapped_pages Nat.add]. rewrite IH, <- app_assoc. do 3 f_equal. lia.
Qed.

(** A PTE that is not valid may change to another that is not. *)
Lemma mapped_pages_same m m' r n : forall va,
  (forall v, va <= v < va + Z.of_nat n * PGSIZE -> pte_of m' r v = pte_of m r v \/
     (has (pte_of m r v) PTE_V = false /\ has (pte_of m' r v) PTE_V = false)) ->
  mapped_pages m' r va n = mapped_pages m r va n.
Proof.
  induction n as [|n IH]; intros va H; [done|]. cbn [mapped_pages]. rewrite IH by (intros v Hv; apply H; unfold PGSIZE in *; lia).
  destruct (H va) as [->|[-> ->]]; [unfold PGSIZE; lia|done..].
Qed.

Lemma mapped_pages_none m r n : forall va, (forall v, va <= v < va + Z.of_nat n * PGSIZE -> has (pte_of m r v) PTE_V = false) -> mapped_pages m r va n = [].
Proof.
  induction n as [|n IH]; intros va H; [done|]. cbn [mapped_pages]. rewrite H by (unfold PGSIZE; lia). cbn [app].
  apply IH. intros v Hv. apply H. unfold PGSIZE in *. lia.
Qed.

(** One more page is mapped. *)
Lemma mapped_pages_add m m' r va n a p : page_aligned va -> page_aligned a -> va <= a < va + Z.of_nat n * PGSIZE ->
  has (pte_of m r a) PTE_V = false -> has (pte_of m' r a) PTE_V = true -> PTE2PA (pte_of m' r a) = p ->
  (forall v, va <= v < va + Z.of_nat n * PGSIZE -> ~ a <= v < a + PGSIZE -> pte_of m' r v = pte_of m r v) ->
  mapped_pages m' r va n ≡ₚ p :: mapped_pages m r va n.
Proof.
  intros A Aa Ha V V' Ep H. assert (exists i, (i < n)%nat /\ a = va + Z.of_nat i * PGSIZE) as (i & Hi & ->).
  { exists (Z.to_nat ((a - va) / PGSIZE)). unfold page_aligned, PGSIZE in *. Z.div_mod_to_equations. lia. }
  replace n with (i + (1 + (n - S i)))%nat in * by lia. set (k := (n - S i)%nat) in *. rewrite !mapped_pages_app. cbn [mapped_pages].
  rewrite V, V', Ep. cbn [app]. rewrite (mapped_pages_same m m' r i) by (intros v Hv; left; apply H; unfold PGSIZE in *; lia).
  rewrite (mapped_pages_same m m' r k) by (intros v Hv; left; apply H; unfold PGSIZE in *; lia). by rewrite Permutation_middle.
Qed.

Section Pages.
Variables (m : mem) (G : tables) (r : Z).
Hypothesis F : forest m G.
Hypothesis R : G !! (r, 2%nat, 0) = Some r.

Lemma first_page va v : 0 <= va -> page_aligned va -> va <= v < va + PGSIZE -> v < MAXVA -> pte_of m r v = pte_of m r va.
Proof.
  intros H0 A Hv Hm. apply (pte_of_page m G r va v F R); try done. assert (page_aligned MAXVA) as B by done.
  assert (va < MAXVA) by lia. unfold page_aligned, PGSIZE in *. Z.div_mod_to_equations. lia.
Qed.

Lemma mapped_pages_in n : forall va v, 0 <= va -> page_aligned va -> va <= v < va + Z.of_nat n * PGSIZE -> v < MAXVA ->
  has (pte_of m r v) PTE_V = true -> PTE2PA (pte_of m r v) ∈ mapped_pages m r va n.
Proof.
  induction n as [|n IH]; intros va v H0 A Hv Hm V; [lia|]. cbn [mapped_pages]. apply elem_of_app.
  destruct (decide (v < va + PGSIZE)).
  - left. rewrite <- (first_page va v) by (done || lia). rewrite V. apply list_elem_of_here.
  - right. apply IH; [unfold PGSIZE; lia|by apply page_aligned_add|unfold PGSIZE in *; lia|done|done].
Qed.

Lemma mapped_pages_inj n : forall va v v', 0 <= va -> page_aligned va -> NoDup (mapped_pages m r va n) ->
  va <= v < va + Z.of_nat n * PGSIZE -> va <= v' < va + Z.of_nat n * PGSIZE -> v < MAXVA -> v' < MAXVA ->
  has (pte_of m r v) PTE_V = true -> has (pte_of m r v') PTE_V = true ->
  PTE2PA (pte_of m r v) = PTE2PA (pte_of m r v') -> v / PGSIZE = v' / PGSIZE.
Proof.
  assert (forall n va v v', 0 <= va -> page_aligned va -> NoDup (mapped_pages m r va (S n)) ->
    va <= v < va + PGSIZE -> va + PGSIZE <= v' < va + Z.of_nat (S n) * PGSIZE -> v < MAXVA -> v' < MAXVA ->
    has (pte_of m r v) PTE_V = true -> has (pte_of m r v') PTE_V = true -> PTE2PA (pte_of m r v) <> PTE2PA (pte_of m r v')) as X.
  { intros k va v v' H0 A N Hv Hv' Hm Hm' V V' E. cbn [mapped_pages] in N. rewrite <- (first_page va v), V in N by (done || lia).
    cbn [app] in N. apply NoDup_cons in N as [N _]. apply N. rewrite E. apply mapped_pages_in; try done; [unfold PGSIZE; lia|by apply page_aligned_add|unfold PGSIZE in *; lia]. }
  induction n as [|n IH]; intros va v v' H0 A N Hv Hv' Hm Hm' V V' E; [lia|].
  destruct (decide (v < va + PGSIZE)), (decide (v' < va + PGSIZE)).
  - unfold page_aligned, PGSIZE in *. Z.div_mod_to_equations. lia.
  - exfalso. apply (X n va v v'); try done; lia.
  - exfalso. apply (X n va v' v); try done; lia.
  - apply (IH (va + PGSIZE)); try done; [unfold PGSIZE; lia|by apply page_aligned_add| |unfold PGSIZE in *; lia..].
    cbn [mapped_pages] in N. by apply NoDup_app in N as (_ & _ & N).
Qed.

End Pages.

(** ** Ownership *)

Lemma owned_perm G fl us us' : us ≡ₚ us' -> owned G fl us -> owned G fl us'.
Proof.
  intros H [A B C D]. split; [by rewrite <- H|by rewrite <- H|intros a; rewrite <- H; apply C|intros a k; rewrite <- H; apply D].
Qed.

Lemma owned_more s G fl us used ps G' fl' : vmok s G fl -> owned G fl us -> fl ≡ₚ used ++ ps ++ fl' -> more_tables G G' used ->
  owned G' fl' (us ++ ps).
Proof.
  intros OK [A B C D] Hp [_ Mt]. pose proof (ki_nodup _ _ (vo_kmem _ _ _ OK)) as N. rewrite Hp in N.
  pose proof (ki_valid _ _ (vo_kmem _ _ _ OK)) as Vl. rewrite Hp in Vl. rewrite !Forall_app in Vl. destruct Vl as (_ & Vp & _).
  apply NoDup_app in N as (_ & N1 & N). apply NoDup_app in N as (N2 & N3 & _).
  assert (forall a, a ∈ us -> (a ∉ used) /\ (a ∉ ps) /\ (a ∉ fl')) as Hu.
  { intros a Ha. apply C in Ha. rewrite Hp, !elem_of_app in Ha. tauto. }
  split.
  - apply NoDup_app. split; [done|]. split; [|done]. intros a Ha. by apply Hu.
  - apply Forall_app. done.
  - intros a [Ha|Ha]%elem_of_app; [by apply Hu|by apply N3].
  - intros a k [Ha|Ha]%elem_of_app Ek; destruct (Mt k a Ek) as [E0|[_ E0]].
    + exact (D a k Ha E0).
    + by destruct (Hu a Ha).
    + apply (vo_disj _ _ _ OK k a E0). rewrite Hp, !elem_of_app. auto.
    + apply (N1 a E0). apply elem_of_app. by left.
Qed.

(** A page that kalloc() returns and that is filled before it is used. *)
Lemma filled_kalloc s G p fl m c : vmok s G (p :: fl) -> mem_ok m ->
  (forall b, ~ in_page p b -> mget m b = mget (k_mem s) b) -> (forall b, in_page p b -> mget m b = c b) ->
  filled s G p fl (set_k_mem m (kalloc_state p s)) c.
Proof.
  intros OK M Fr C. destruct (vm_zalloc s G p fl OK) as (OK1 & O1 & V & N & T & _ & Fr1 & P1).
  destruct (vm_agree (zeroed p s) m G fl OK1 M) as [OK2 P2].
  { intros a b Ha Hb. rewrite Fr1, Fr; [done|..]; apply (not_in_other_page p a b); try done; try apply V.
    all: try (destruct Ha as [Ha|[k Ha]]; [|by apply (fo_page _ _ (vo_forest _ _ _ OK) _ _ Ha)];
      pose proof (ki_valid _ _ (vo_kmem _ _ _ OK1)) as VL; rewrite Forall_forall in VL; by apply VL).
    all: intros ->; destruct Ha as [Ha|[k Ha]]; [done|by apply (T k)]. }
  split; try done.
  - eapply only_vm_trans; [apply only_vm_kalloc|apply only_vm_set_mem].
  - intros r va R Hv. rewrite k_mem_set, P2, P1 by done. done.
Qed.

End MappedPages.
