(* ===== verification/UvmCopy.v ===== *)
(** * Copying an address space (uvmcopy() of kernel/vm.c)

    What fork() does to memory: the child's table maps, page by page, fresh
    pages with the contents and the permissions of the parent's, or everything
    is given back. *)

From S2P Require Import Prelude Riscv Memory KState KMonad Spinlock Kalloc Vm VmSpec UvmSpec CopySpec Pages.

Lemma PTE_FLAGS_range v : 0 <= PTE_FLAGS v < 1024.
Proof. unfold PTE_FLAGS. change 0x3FF with (Z.ones 10). rewrite Z.land_ones by lia. apply Z.mod_pos_bound. lia. Qed.

Lemma has_FLAGS k v : 0 <= k < 10 -> has (PTE_FLAGS v) (2 ^ k) = has v (2 ^ k).
Proof.
  intros Hk. unfold has, PTE_FLAGS. do 2 f_equal. apply Z.bits_inj'. intros n Hn. rewrite !Z.land_spec. rewrite !Z.pow2_bits_eqb by lia.
  destruct (Z.eqb_spec k n) as [<-|]; [|by rewrite !andb_false_r]. change 0x3FF with (Z.ones 10).
  rewrite Z.ones_spec_low by lia. by rewrite !andb_true_r.
Qed.

(** The PTE of the copy keeps the parent's flags. *)
Lemma leaf_FLAGS k p v : 0 < k < 10 -> has (leaf_pte p (PTE_FLAGS v)) (2 ^ k) = has v (2 ^ k).
Proof. intros Hk. rewrite has_leaf by done. apply has_FLAGS. lia. Qed.

Section Copy.
Context {L : Layout}.
Variables (old new : Z) (s0 : kstate) (G0 : tables) (fl0 : list Z).
Hypothesis OK0 : vmok s0 G0 fl0.
Hypothesis Ro : G0 !! (old, 2%nat, 0) = Some old.
Hypothesis Rn : G0 !! (new, 2%nat, 0) = Some new.
Hypothesis Ne : old <> new.

(** The child's table maps nothing below [top]. *)
Variable top : Z.
Hypothesis Top : top <= MAXVA.
Hypothesis Empty : forall va, 0 <= va < top -> has (pte_of (k_mem s0) new va) PTE_V = false.

(** The parent's pages below page [i], and the parent's PTE of an address. *)
Definition theirs (i : nat) : list Z := mapped_pages (k_mem s0) old 0 i.
Definition pte0 (va : Z) : Z := pte_of (k_mem s0) old va.
Definition slot (va : Z) : nat := length (theirs (Z.to_nat (va / PGSIZE))).

(** The first [i] pages are copied to the pages [ps]. *)
Record copied (i : nat) (s : kstate) (G : tables) (fl ps : list Z) : Prop := {
  co_ok : vmok s G fl;
  co_used : exists used, fl0 ≡ₚ used ++ ps ++ fl /\ more_tables G0 G used;
  co_rest : only_vm s0 s;
  co_len : length ps = length (theirs i);
  co_pte r va : G0 !! (r, 2%nat, 0) = Some r -> 0 <= va < MAXVA ->
    pte_of (k_mem s) r va =
    if decide (r = new /\ va < Z.of_nat i * PGSIZE /\ has (pte0 va) PTE_V = true)
    then leaf_pte (nth (slot va) ps 0) (PTE_FLAGS (pte0 va))
    else pte_of (k_mem s0) r va;
  co_data k p q b : theirs i !! k = Some p -> ps !! k = Some q -> 0 <= b < PGSIZE ->
    mget (k_mem s) (q + b) = mget (k_mem s0) (p + b);
  co_frame b : outside G0 fl0 b -> mget (k_mem s) b = mget (k_mem s0) b;
  co_kept : kept G0 fl0 G fl ps;
}.

Lemma copied_0 : copied 0 s0 G0 fl0 [].
Proof.
  split; try done.
  - exists []. split; [done|apply more_tables_refl].
  - apply only_vm_refl.
  - intros r va R Hv. rewrite decide_False; [done|]. lia.
  - apply kept_refl.
Qed.

(** The next page of the parent, and where it goes. *)
Lemma theirs_S i : theirs (S i) = theirs i ++ (if has (pte0 (Z.of_nat i * PGSIZE)) PTE_V then [PTE2PA (pte0 (Z.of_nat i * PGSIZE))] else []).
Proof.
  unfold theirs. rewrite <- Nat.add_1_r, mapped_pages_app. cbn [mapped_pages]. rewrite app_nil_r, Z.add_0_l. done.
Qed.

Lemma slot_page i va : Z.of_nat i * PGSIZE <= va < Z.of_nat (S i) * PGSIZE -> slot va = length (theirs i).
Proof.
  intros H. unfold slot. do 2 f_equal. replace (va / PGSIZE) with (Z.of_nat i); [lia|]. unfold PGSIZE in *. Z.div_mod_to_equations. lia.
Qed.

Lemma slot_lookup i va : 0 <= va < Z.of_nat i * PGSIZE -> has (pte0 va) PTE_V = true -> va < MAXVA ->
  theirs i !! slot va = Some (PTE2PA (pte0 va)).
Proof.
  intros H V Hm. assert (exists j, (j < i)%nat /\ Z.of_nat j * PGSIZE <= va < Z.of_nat (S j) * PGSIZE) as (j & Hj & Hw).
  { exists (Z.to_nat (va / PGSIZE)). unfold PGSIZE in *. Z.div_mod_to_equations. lia. }
  rewrite (slot_page j va Hw).
  assert (theirs i = theirs (S j) ++ mapped_pages (k_mem s0) old (0 + Z.of_nat (S j) * PGSIZE) (i - S j)) as ->.
  { unfold theirs. rewrite <- mapped_pages_app. f_equal. lia. }
  assert (pte0 (Z.of_nat j * PGSIZE) = pte0 va) as Ep.
  { symmetry. apply (first_page (k_mem s0) G0 old (vo_forest _ _ _ OK0) Ro); [unfold PGSIZE; lia| |unfold PGSIZE in *; lia|done].
    unfold page_aligned. apply Z.mod_mul. done. }
  rewrite theirs_S, Ep, V, <- app_assoc. cbn [app]. by rewrite list_lookup_middle.
Qed.

Lemma slot_lt i va : 0 <= va < Z.of_nat i * PGSIZE -> has (pte0 va) PTE_V = true -> va < MAXVA -> (slot va < length (theirs i))%nat.
Proof. intros H V Hm. eapply lookup_lt_Some, slot_lookup; done. Qed.

Lemma copied_owned i s G fl ps : copied i s G fl ps -> owned G fl ps.
Proof.
  intros [OK (used & Pm & Mt) _ _ _ _ _ _].
  pose proof (owned_more s0 G0 fl0 [] used ps G fl OK0) as W. cbn [app] in W. apply W; [|done|done].
  split; [apply NoDup_nil_2|apply Forall_nil_2|by intros ? ?%elem_of_nil|by intros ? ? ?%elem_of_nil].
Qed.

(** The child's pages are the copies. *)
Lemma copied_pages i s G fl ps : Z.of_nat i * PGSIZE <= top -> copied i s G fl ps -> mapped_pages (k_mem s) new 0 i = ps.
Proof.
  intros Hi C. pose proof (copied_owned _ _ _ _ _ C) as OW. destruct C as [_ _ _ Hl P _ _ _].
  assert (forall j, (j <= i)%nat -> mapped_pages (k_mem s) new 0 j = take (length (theirs j)) ps) as X.
  { induction j as [|j IH]; intros Hj; [done|]. rewrite <- Nat.add_1_r, mapped_pages_app, IH by lia. rewrite Nat.add_1_r, theirs_S, length_app.
    cbn [mapped_pages]. rewrite app_nil_r, Z.add_0_l. set (va := Z.of_nat j * PGSIZE).
    assert (0 <= va < top) as Hv by (unfold va, PGSIZE in *; lia). rewrite P by (done || lia).
    destruct (has (pte0 va) PTE_V) eqn:V.
    - assert (slot va = length (theirs j)) as Es by (apply slot_page; unfold va, PGSIZE; lia).
      assert (slot va < length ps)%nat as Hs by (rewrite Hl; apply slot_lt; [unfold va, PGSIZE in *; lia|done|lia]).
      rewrite decide_True by (split; [done|]; split; [unfold va, PGSIZE in *; lia|done]). rewrite Es in *.
      destruct (lookup_lt_is_Some_2 _ _ Hs) as [p Hp]. rewrite (nth_lookup_Some _ _ _ _ Hp).
      pose proof (ow_valid _ _ _ OW) as VL. rewrite Forall_forall in VL.
      destruct (valid_page_phys p (VL p (list_elem_of_lookup_2 _ _ _ Hp))) as [Ap Bp].
      destruct (leaf_pte_spec p (PTE_FLAGS (pte0 va)) Ap ltac:(lia) (PTE_FLAGS_range _)) as (_ & -> & -> & _).
      cbn [length]. rewrite Nat.add_1_r. symmetry. by apply take_S_r.
    - rewrite decide_False by (intros (_ & _ & ?); congruence). rewrite (Empty va Hv). cbn [length]. by rewrite Nat.add_0_r, app_nil_r. }
  rewrite X by lia. rewrite <- Hl. apply take_ge. lia.
Qed.

Lemma copied_outside i s G fl ps b : copied i s G fl ps -> outside G0 fl0 b -> outside G fl b.
Proof.
  intros [_ (used & Pm & Mt) _ _ _ _ _ _] [O1 O2]. split.
  - intros k a E. destruct (proj2 Mt k a E) as [E0|[_ Hu]]; [by apply (O1 k)|]. apply O2. rewrite Pm. apply elem_of_app. by left.
  - intros a Ha. apply O2. rewrite Pm, !elem_of_app. auto.
Qed.

Lemma copied_settle i s G fl ps : copied i s G fl ps -> copied i (ksettle s) G fl ps.
Proof. intros [OK U O Hl P D Fr Kp]. split; try done; [by apply vmok_settle|]. eapply only_vm_trans; [done|apply only_vm_settle]. Qed.

(** The parent's pages stay as they were. *)
Lemma theirs_outside i b p : owned G0 fl0 (theirs i) -> p ∈ theirs i -> in_page p b -> outside G0 fl0 b.
Proof. intros. by eapply outside_owned. Qed.

(** A page the parent does not have is skipped. *)
Lemma copied_skip i s G fl ps : Z.of_nat (S i) * PGSIZE <= MAXVA -> has (pte0 (Z.of_nat i * PGSIZE)) PTE_V = false ->
  copied i s G fl ps -> copied (S i) s G fl ps.
Proof.
  intros Hi V [OK U O Hl P D Fr Kp]. assert (theirs (S i) = theirs i) as E by (by rewrite theirs_S, V, app_nil_r).
  split; rewrite ?E; try done. intros r va R Hv. rewrite P by done. apply decide_ext. split; intros (-> & Hw & V1); split_and!; try done; [unfold PGSIZE in *; lia|].
  destruct (decide (va < Z.of_nat i * PGSIZE)); [done|]. exfalso.
  assert (pte0 va = pte0 (Z.of_nat i * PGSIZE)) as E1; [|congruence].
  apply (first_page (k_mem s0) G0 old (vo_forest _ _ _ OK0) Ro); [unfold PGSIZE; lia| |unfold PGSIZE in *; lia|lia].
  unfold page_aligned. by apply Z.mod_mul.
Qed.

(** The state after the page [p] is filled and mapped for page [i] of the
    parent, or filled and given back. *)
Lemma copied_step i s G p fl ps s' G' fl' used b :
  copied i s G (p :: fl) ps -> Z.of_nat (S i) * PGSIZE <= MAXVA -> has (pte0 (Z.of_nat i * PGSIZE)) PTE_V = true ->
  vmok s' G' fl' -> more_tables G G' used -> only_vm s s' ->
  (forall c, outside G (p :: fl) c -> mget (k_mem s') c = mget (k_mem s) c) ->
  (b = true -> forall c, 0 <= c < PGSIZE -> mget (k_mem s') (p + c) = mget (k_mem s0) (PTE2PA (pte0 (Z.of_nat i * PGSIZE)) + c)) ->
  kept G (p :: fl) G' fl' (if b then [p] else []) -> p :: fl ≡ₚ used ++ (if b then [p] else []) ++ fl' ->
  (forall r va, G !! (r, 2%nat, 0) = Some r -> 0 <= va < MAXVA ->
     pte_of (k_mem s') r va =
     if decide (b = true /\ r = new /\ Z.of_nat i * PGSIZE <= va < Z.of_nat i * PGSIZE + PGSIZE)
     then leaf_pte p (PTE_FLAGS (pte0 (Z.of_nat i * PGSIZE))) else pte_of (k_mem s) r va) ->
  copied (if b then S i else i) s' G' fl' (ps ++ (if b then [p] else [])).
Proof.
  intros C Hi V OK' Mt O Fr Dp Kp Pm P. pose proof (copied_owned _ _ _ _ _ C) as OW.
  pose proof (fun c => copied_outside _ _ _ _ _ c C) as Out.
  destruct C as [OK (u0 & Pm0 & Mt0) O0 Hl P0 D0 Fr0 Kp0].
  assert (forall r va, G0 !! (r, 2%nat, 0) = Some r -> 0 <= va < MAXVA -> pte_of (k_mem s') r va = _) as P'
    by (intros r va R Hv; apply P; [by eapply lookup_weaken; [|apply Mt0]|exact Hv]).
  assert (forall k q c, ps !! k = Some q -> 0 <= c < PGSIZE -> mget (k_mem s') (q + c) = mget (k_mem s) (q + c)) as Dold.
  { intros k q c Hq Hc. apply Fr. eapply outside_owned; [done|done|by eapply list_elem_of_lookup_2|]. unfold in_page. lia. }
  assert (exists used, fl0 ≡ₚ used ++ (ps ++ (if b then [p] else [])) ++ fl' /\ more_tables G0 G' used) as Us.
  { exists (u0 ++ used). split; [|by eapply more_tables_trans]. rewrite Pm0, Pm, <- !app_assoc. f_equiv.
    rewrite !app_assoc. f_equiv. by rewrite (Permutation_app_comm ps used), <- app_assoc. }
  assert (kept G0 fl0 G' fl' (ps ++ (if b then [p] else []))) as Kp' by (eapply kept_trans; [apply Mt|done|done]).
  destruct b.
  - split; [done|done|by eapply only_vm_trans|by rewrite theirs_S, V, !length_app, Hl| | |intros c Hc; rewrite Fr by (by apply Out); by apply Fr0|done].
    + intros r va R Hv. rewrite P', P0 by done.
      destruct (decide (r = new)) as [->|Nr]; [|by rewrite !decide_False by tauto].
      destruct (decide (Z.of_nat i * PGSIZE <= va < Z.of_nat i * PGSIZE + PGSIZE)) as [Hw|Hw].
      * assert (pte0 va = pte0 (Z.of_nat i * PGSIZE)) as Ev.
        { apply (first_page (k_mem s0) G0 old (vo_forest _ _ _ OK0) Ro); [unfold PGSIZE; lia|unfold page_aligned; by apply Z.mod_mul|done|lia]. }
        rewrite decide_True by done. rewrite decide_True by (rewrite Ev; split_and!; (done || unfold PGSIZE in *; lia)).
        rewrite Ev, (slot_page i va) by (unfold PGSIZE in *; lia). rewrite <- Hl, app_nth2, Nat.sub_diag by lia. done.
      * rewrite decide_False by tauto.
        destruct (decide (va < Z.of_nat i * PGSIZE /\ has (pte0 va) PTE_V = true)) as [[Hlt Hv1]|Hn].
        -- rewrite !decide_True by (split_and!; (done || unfold PGSIZE in *; lia)). rewrite app_nth1; [done|]. rewrite Hl. apply slot_lt; (done || lia).
        -- rewrite !decide_False; [done|intros (_ & ? & ?); apply Hn; split; (done || unfold PGSIZE in *; lia)|tauto].
    + intros k p0 q c H1 H2 Hc. rewrite theirs_S, V in H1. apply lookup_app_Some in H2 as [H2|[Hk H2]].
      * rewrite lookup_app_l in H1 by (rewrite <- Hl; by eapply lookup_lt_Some). rewrite (Dold k q c) by done. by apply (D0 k).
      * rewrite lookup_app_r in H1 by lia. rewrite <- Hl in H1. apply list_lookup_singleton_Some in H2 as [E0 <-].
        rewrite E0 in H1. injection H1 as <-. by apply Dp.
  - rewrite app_nil_r in *. split; [done|done|by eapply only_vm_trans|done| | |intros c Hc; rewrite Fr by (by apply Out); by apply Fr0|done].
    + intros r va R Hv. rewrite P' by done. rewrite decide_False by (intros [? _]; done). by apply P0.
    + intros k p0 q c H1 H2 Hc. rewrite (Dold k q c) by done. by apply (D0 k).
Qed.

(** Giving the copies back. *)
Lemma copied_rollback i s G fl ps : copied i s G fl ps -> Z.of_nat i * PGSIZE <= top ->
  exists s', uvmunmap new 0 (Z.of_nat i * PGSIZE / PGSIZE) true s = Ret tt s' /\ aborted s0 G0 fl0 s'.
Proof.
  intros C Hi. pose proof (copied_owned _ _ _ _ _ C) as OW. pose proof (copied_pages _ _ _ _ _ Hi C) as Em.
  pose proof (fun c => copied_outside _ _ _ _ _ c C) as Out. destruct C as [OK (u0 & Pm0 & Mt0) O0 Hl P0 D0 Fr0 Kp0].
  rewrite Z.div_mul by done.
  destruct (uvmunmap_spec new true s G fl 0 i OK) as (s' & E & [D1 D2 D3 D4]);
    [by eapply lookup_weaken; [|apply Mt0]|done|done|lia|by rewrite Em|].
  rewrite Em in *. exists s'. split; [done|]. split.
  - exists G, (rev ps ++ fl), u0. split; [exact D1|]. split; [|split; [done|by apply kept_rev]]. rewrite Pm0. do 2 f_equiv. apply Permutation_rev.
  - by eapply only_vm_trans.
  - intros r va R Hv. rewrite D3 by (done || by eapply lookup_weaken; [|apply Mt0]). rewrite !P0 by done.
    destruct (decide (r = new)) as [->|Nr]; [|left; by rewrite !decide_False by tauto].
    destruct (decide (va < Z.of_nat i * PGSIZE /\ has (pte0 va) PTE_V = true)) as [[Hw V]|Nw].
    + right. split; [apply Empty; lia|]. rewrite (decide_True (P := new = new /\ va < _ /\ _)) by done. rewrite decide_True; [done|].
      split; [done|]. split; [lia|]. assert (slot va < length ps)%nat as Hs by (rewrite Hl; apply slot_lt; (done || lia)).
      pose proof (ow_valid _ _ _ OW) as VL. rewrite Forall_forall in VL.
      destruct (valid_page_phys _ (VL _ (proj2 (list_elem_of_In _ _) (nth_In ps 0 Hs)))) as [Aq Bq].
      by destruct (leaf_pte_spec _ (PTE_FLAGS (pte0 va)) Aq ltac:(lia) (PTE_FLAGS_range _)) as (_ & -> & _).
    + left. rewrite (decide_False (P := new = new /\ va < _ /\ _)) by tauto. rewrite decide_False; [done|].
      intros (_ & ? & V1). rewrite Empty in V1 by lia. done.
  - intros b Hb. rewrite D4; [by apply Fr0|by apply Out|]. intros pa _ Hpa. destruct Hb as [_ O2]. apply O2. rewrite Pm0, !elem_of_app. auto.
Qed.

(** How uvmcopy() reads a PTE of the parent: a page with no PTE and a page
    with one that is not valid are skipped alike. *)
Lemma walk_skip {A} i s G fl ps (skip : K A) (k : Z -> K A) : copied i s G fl ps -> 0 <= Z.of_nat i * PGSIZE < MAXVA ->
  (pte ← walk old (Z.of_nat i * PGSIZE) false;
   if pte =? 0 then skip else v ← kload pte; if negb (has v PTE_V) then skip else k v) s =
  (if has (pte0 (Z.of_nat i * PGSIZE)) PTE_V then k (pte0 (Z.of_nat i * PGSIZE)) else skip) s.
Proof.
  intros [OK (u0 & _ & Mt0) _ _ P0 _ _ _] H. set (va := Z.of_nat i * PGSIZE) in *. pose proof (vo_forest _ _ _ OK) as F. pose proof (PX_range 0 va).
  pose proof (lookup_weaken _ _ _ _ Ro (proj1 Mt0)) as R1. rewrite (bind_ret _ _ _ _ _ (walk_noalloc old va s H)).
  specialize (P0 old va Ro H). rewrite decide_False in P0 by tauto. fold (pte0 va) in P0. rewrite <- P0.
  rewrite (pte_of_eq _ _ _ _ F R1 H), (pte_of_forest _ _ _ _ F R1 H).
  destruct (G !! (old, 0%nat, pfx 0 va)) as [t|] eqn:E; [|by rewrite has_0]. simpl.
  destruct (fo_page _ _ F _ _ E) as [_ Ht]. destruct (Z.eqb_spec (t + 8 * PX 0 va) 0); [lia|].
  unfold kload. kstep. by destruct (has (load64 _ _) PTE_V).
Qed.

(** ** The loop *)

(** The part of the loop's body after the parent's PTE [v] is found valid. *)
Definition copy_one (va v : Z) (next : K Z) : K Z :=
  mem ← kalloc;
  if mem =? 0 then uvmunmap new 0 (va / PGSIZE) true ;; mret (-1) else
  kmemmove mem (PTE2PA v) PGBYTES ;;
  r ← mappages new va PGSIZE mem (PTE_FLAGS v);
  if negb (r =? 0) then kfree mem ;; uvmunmap new 0 (va / PGSIZE) true ;; mret (-1)
  else next.

(** kalloc() and memmove() make a page with the contents of the parent's. *)
Lemma copy_page i s G p fl ps pa : copied i s G (p :: fl) ps -> owned G0 fl0 (theirs (S i)) -> pa ∈ theirs (S i) ->
  filled s G p fl (set_k_mem (memmove (k_mem (kalloc_state p s)) p pa PGBYTES) (kalloc_state p s)) (fun b => mget (k_mem s0) (pa + (b - p))).
Proof.
  intros C OWN Hpa. pose proof (co_ok _ _ _ _ _ C) as OK. pose proof (ki_mem _ _ (vo_kmem _ _ _ OK)) as M.
  pose proof (mem_ok_memset (Z.to_nat PGSIZE) (k_mem s) p 5 M) as M1. destruct (kalloc_inv s p fl (vo_kmem _ _ _ OK)) as (_ & Vp & _ & _).
  assert (forall b, ~ in_page p b -> mget (k_mem (kalloc_state p s)) b = mget (k_mem s) b) as Fr.
  { intros b Hb. simpl. rewrite mget_memset, decide_False; [done|]. unfold in_page, PGSIZE in *. lia. }
  apply filled_kalloc; [done|by apply mem_ok_memmove|..]; intros b Hb; rewrite mget_memmove by done.
  - rewrite decide_False by (unfold in_page, PGBYTES, PGSIZE in *; lia). by apply Fr.
  - rewrite decide_True by (unfold in_page, PGBYTES, PGSIZE in *; lia).
    assert (in_page pa (pa + (b - p))) as Hin by (unfold in_page in *; lia). pose proof (theirs_outside (S i) _ _ OWN Hpa Hin) as Out.
    rewrite Fr; [by apply (co_frame _ _ _ _ _ C)|]. destruct (copied_outside _ _ _ _ _ _ C Out) as [_ O2]. apply O2, list_elem_of_here.
Qed.

Lemma copy_one_spec i s G fl ps next : copied i s G fl ps -> Z.of_nat (S i) * PGSIZE <= top ->
  owned G0 fl0 (theirs (S i)) -> has (pte0 (Z.of_nat i * PGSIZE)) PTE_V = true ->
  let body := copy_one (Z.of_nat i * PGSIZE) (pte0 (Z.of_nat i * PGSIZE)) next in
  (exists s' G' fl' p, body s = next s' /\ copied (S i) s' G' fl' (ps ++ [p]) /\ (length fl <= length fl' + 3)%nat) \/
  (exists s', body s = Ret (-1) s' /\ aborted s0 G0 fl0 s' /\ (length fl < 3)%nat).
Proof.
  intros C Hi OWN V body. unfold body, copy_one. clear body. set (va := Z.of_nat i * PGSIZE) in *. pose proof (co_ok _ _ _ _ _ C) as OK.
  assert (page_aligned va) as Aa by (by apply Z.mod_mul). assert (0 <= va /\ va + PGSIZE <= top) as [Ha0 Ha] by (unfold va, PGSIZE in *; lia).
  assert (Z.of_nat i * PGSIZE <= top) as Hi0 by (unfold PGSIZE in *; lia).
  destruct (co_used _ _ _ _ _ C) as (u0 & _ & Mt0). pose proof (lookup_weaken _ _ _ _ Rn (proj1 Mt0)) as R1.
  destruct (kalloc_spec s fl (vo_lock _ _ _ OK) (vo_kmem _ _ _ OK)) as [[-> Ek]|(p & fl1 & -> & Np & Ek & _)]; rewrite (bind_ret _ _ _ _ _ Ek).
  { destruct (copied_rollback _ _ _ _ _ (copied_settle _ _ _ _ _ C) Hi0) as (s' & E & Ab). right. exists s'. split; [|split; [done|cbn; lia]].
    simpl. fold va in E. by rewrite (bind_ret _ _ _ _ _ E). }
  destruct (Z.eqb_spec p 0); [done|]. unfold kmemmove. kstep. set (pa := PTE2PA (pte0 va)).
  assert (pa ∈ theirs (S i)) as Hpa by (rewrite theirs_S; fold va; rewrite V; apply elem_of_app; right; apply list_elem_of_here).
  pose proof (copy_page i s G p fl1 ps pa C OWN Hpa) as FI.
  destruct (map_filled s G p fl1 _ _ new va (PTE_FLAGS (pte0 va)) FI R1 Aa Ha0 ltac:(lia) (PTE_FLAGS_range _))
    as (x & s1 & G1 & fl2 & used & E1 & OK1 & Efl & Mt1 & O1 & T1 & V1 & N1 & Z1 & Fr1 & P1 & Kp & Res).
  { intros v Hv. rewrite (co_pte _ _ _ _ _ C) by (done || lia). rewrite decide_False by (unfold va in *; lia). apply Empty. lia. }
  rewrite (bind_ret _ _ _ _ _ E1). destruct Res as [[-> Hl]|(-> & -> & Hl)]; cbn [negb Z.eqb].
  - left. exists s1, G1, fl2, p. split; [done|]. split; [|cbn; lia].
    apply (copied_step i s G p fl1 ps s1 G1 fl2 used true C ltac:(lia) V); try done.
    + intros _ c Hc. rewrite Z1 by (unfold in_page; lia). f_equal. fold va pa. lia.
    + by apply kept_cons.
    + rewrite Efl. simpl. by rewrite Permutation_middle.
    + intros r v R Hv. rewrite P1 by done. apply decide_ext. fold va. tauto.
  - destruct (vm_kfree s1 G1 [] p OK1 V1) as (Kf & OK2 & O2 & Fr2 & P2); [apply not_elem_of_nil|done|].
    rewrite (bind_ret _ _ _ _ _ Kf).
    assert (copied i (kfree_state p s1) G1 [p] (ps ++ [])) as C2.
    { apply (copied_step i s G p fl1 ps (kfree_state p s1) G1 [p] used false C ltac:(lia) V); try done.
      - by eapply only_vm_trans.
      - intros c [Hc1 Hc2]. rewrite Fr2 by (apply Hc2, list_elem_of_here). by apply Fr1.
      - by apply (kept_cons G p fl1 G1 []).
      - rewrite Efl, app_nil_r. simpl. by rewrite Permutation_cons_append.
      - intros r v R Hv. rewrite P2, P1 by (done || by eapply lookup_weaken; [|apply Mt1]).
        rewrite !decide_False by (intros [? _]; done). done. }
    destruct (copied_rollback _ _ _ _ _ C2 Hi0) as (s' & E & Ab). right. exists s'. split; [|split; [done|cbn; lia]]. fold va in E. by rewrite (bind_ret _ _ _ _ _ E).
Qed.

Lemma uvmcopy_loop_spec sz N : owned G0 fl0 (theirs N) -> forall k fuel i s G fl ps,
  (i + k = N)%nat -> (k <= fuel)%nat -> Z.of_nat N * PGSIZE <= top -> sz <= Z.of_nat N * PGSIZE ->
  (k = 0%nat \/ (Z.of_nat N - 1) * PGSIZE < sz) -> copied i s G fl ps ->
  exists x s', uvmcopy_loop fuel old new sz (Z.of_nat i * PGSIZE) s = Ret x s' /\
    ((x = 0 /\ exists G' fl' qs, copied N s' G' fl' qs) \/ (x = -1 /\ aborted s0 G0 fl0 s' /\ (length fl < 3 * k)%nat)).
Proof.
  intros OWN k. induction k as [|k IH]; intros fuel i s G fl ps Hi Hf HN Hs Hk C.
  { exists 0, s. replace i with N in * by lia. split; [|left; eauto].
    destruct fuel; cbn [uvmcopy_loop]; destruct (Z.ltb_spec (Z.of_nat N * PGSIZE) sz); (lia || done). }
  destruct fuel as [|fuel]; [lia|]. cbn [uvmcopy_loop]. assert (Z.of_nat (S i) * PGSIZE <= top) as Hi1 by (unfold PGSIZE in *; lia).
  destruct (Z.ltb_spec (Z.of_nat i * PGSIZE) sz); [|unfold PGSIZE in *; lia].
  rewrite u64_small by (pose proof MAXVA_lt; unfold PGSIZE in *; lia).
  replace (Z.of_nat i * PGSIZE + PGSIZE) with (Z.of_nat (S i) * PGSIZE) by (unfold PGSIZE; lia).
  set (next := uvmcopy_loop fuel old new sz (Z.of_nat (S i) * PGSIZE)).
  pose proof (walk_skip i s G fl ps next (fun v => copy_one (Z.of_nat i * PGSIZE) v next) C ltac:(unfold PGSIZE in *; lia)) as W.
  unfold copy_one at 1 in W. rewrite W. clear W.
  destruct (has (pte0 (Z.of_nat i * PGSIZE)) PTE_V) eqn:V; cycle 1.
  { destruct (IH fuel (S i) s G fl ps) as (x & s' & E & [Post|(? & ? & ?)]); try (done || lia); [apply copied_skip; (done || lia)|eauto 8..].
    exists x, s'. split; [done|]. right. split_and!; (done || lia). }
  destruct (copy_one_spec i s G fl ps next C Hi1) as [(s1 & G1 & fl1 & p & -> & C1 & Hl)|(s1 & -> & Ab & Hl)]; [|done|..].
  - replace N with (S i + k)%nat in OWN by lia. unfold theirs in OWN. rewrite mapped_pages_app in OWN. by apply owned_app_l in OWN.
  - destruct (IH fuel (S i) s1 G1 fl1 (ps ++ [p])) as (x & s' & E & [Post|(? & ? & ?)]); try (done || lia); [eauto 8..|].
    exists x, s'. split; [done|]. right. split_and!; (done || lia).
  - exists (-1), s1. split; [done|]. right. split_and!; (done || lia).
Qed.

(** The pages of the parent that uvmcopy() looks at. *)
Lemma uvmcopy_spec sz : 0 <= sz -> PGROUNDUP sz <= top -> sz <= MAXVA -> owned G0 fl0 (theirs (upages 0 sz)) ->
  exists x s', uvmcopy old new sz s0 = Ret x s' /\
    ((x = 0 /\ exists G fl ps, copied (upages 0 sz) s' G fl ps) \/ (x = -1 /\ aborted s0 G0 fl0 s' /\ (length fl0 < 3 * upages 0 sz)%nat)).
Proof.
  intros H Ht Hm OWN. destruct (upages_spec 0 sz) as (E & B & _ & _); [lia|lia|]. change (PGROUNDUP 0) with 0 in E. rewrite Z.add_0_l in E.
  pose proof MAXVA_lt. destruct (PGROUNDUP_bounds sz) as [B1 _]; [unfold PGSIZE; lia|].
  unfold uvmcopy. apply (uvmcopy_loop_spec sz (upages 0 sz) OWN (upages 0 sz) _ 0 s0 G0 fl0 []); try (done || lia).
  - unfold PGSIZE in *. Z.div_mod_to_equations. lia.
  - apply copied_0.
Qed.

End Copy.

Section Property.
Context {L : Layout}.

(** C18 uvmcopy() either copies or gives back.  Given a parent whose pages
    below its size are its own, and a child that maps nothing there: uvmcopy()
    returns 0 or -1.  If 0, each page is mapped in the child exactly if it is in
    the parent, with the same PTE flags, at a page taken from the free list
    that holds the same bytes, and the parent still maps and holds what it did.
    If -1, there were fewer free pages than three for each page, every
    translation of every table is as before, and every page taken is either
    free again or a page table of the child. *)
Theorem uvmcopy_copies old new sz s G fl :
  vmok s G fl -> G !! (old, 2%nat, 0) = Some old -> G !! (new, 2%nat, 0) = Some new -> old <> new ->
  0 <= sz <= MAXVA -> owned G fl (mapped_pages (k_mem s) old 0 (upages 0 sz)) ->
  (forall va, 0 <= va < PGROUNDUP sz -> has (pte_of (k_mem s) new va) PTE_V = false) ->
  exists x s', uvmcopy old new sz s = Ret x s' /\ only_vm s s' /\
    ((x = 0 /\ forall va, 0 <= va < PGROUNDUP sz ->
        let v := pte_of (k_mem s) old va in let v' := pte_of (k_mem s') new va in
        pte_of (k_mem s') old va = v /\ (forall k, 0 <= k < 10 -> has v PTE_V = true \/ k = 0 -> has v' (2 ^ k) = has v (2 ^ k)) /\
        (has v PTE_V = true -> PTE2PA v' ∈ fl /\ forall b, 0 <= b < PGSIZE ->
           mget (k_mem s') (PTE2PA v' + b) = mget (k_mem s) (PTE2PA v + b) /\
           mget (k_mem s') (PTE2PA v + b) = mget (k_mem s) (PTE2PA v + b))) \/
     (x = -1 /\ aborted s G fl s' /\ (length fl < 3 * upages 0 sz)%nat)).
Proof.
  intros OK Ro Rn Ne Hs OWN Emp. destruct (upages_spec 0 sz) as (E & B & _ & _); [lia|lia|]. change (PGROUNDUP 0) with 0 in E.
  destruct (uvmcopy_spec old new s G fl OK Ro Rn Ne (PGROUNDUP sz) B Emp sz) as (x & s' & Er & Res); [lia|lia|lia|done|].
  exists x, s'. split; [done|]. destruct Res as [(-> & G' & fl' & ps & C)|(-> & Ab & Hl)]; [|split; [apply Ab|by right]].
  split; [apply C|]. left. split; [done|]. intros va Hv v v'. pose proof (co_pte _ _ _ _ _ _ _ _ _ _ C) as P.
  assert (v' = if decide (has v PTE_V = true) then leaf_pte (nth (slot old s va) ps 0) (PTE_FLAGS v) else pte_of (k_mem s) new va) as Ev.
  { unfold v'. rewrite P by (done || lia). apply decide_ext. unfold v, pte0. split; [tauto|]. intros. split_and!; (done || lia). }
  split; [unfold v; rewrite P by (done || lia); rewrite decide_False by tauto; done|].
  destruct (decide (has v PTE_V = true)) as [V|V].
  2: { split; [|done]. intros k Hk [? | ->]; [done|]. change (2 ^ 0) with PTE_V. rewrite Ev, Emp by lia. symmetry. by destruct (has v PTE_V). }
  assert (slot old s va < length ps)%nat as Hi.
  { rewrite (co_len _ _ _ _ _ _ _ _ _ _ C). apply (slot_lt old s G fl OK Ro); (done || lia). }
  destruct (lookup_lt_is_Some_2 _ _ Hi) as [q Hq]. rewrite (nth_lookup_Some _ _ _ _ Hq) in Ev.
  assert (theirs old s (upages 0 sz) !! slot old s va = Some (PTE2PA v)) as Hp by (apply (slot_lookup old s G fl OK Ro); (done || lia)).
  destruct (co_used _ _ _ _ _ _ _ _ _ _ C) as (used & Pm & _). pose proof (list_elem_of_lookup_2 _ _ _ Hq) as Hin.
  assert (q ∈ fl) as Hf by (rewrite Pm, !elem_of_app; auto).
  pose proof (ki_valid _ _ (vo_kmem _ _ _ OK)) as VL. rewrite Forall_forall in VL. destruct (valid_page_phys q (VL q Hf)) as [Aq Bq].
  destruct (leaf_pte_spec q (PTE_FLAGS v) Aq ltac:(lia) (PTE_FLAGS_range _)) as (_ & LV & LP & _). rewrite Ev, LP.
  split; [|intros _; split; [done|intros b Hb; split]].
  - intros k Hk _. destruct (decide (k = 0)) as [->|]; [change (2 ^ 0) with PTE_V; congruence|]. apply leaf_FLAGS. lia.
  - by apply (co_data _ _ _ _ _ _ _ _ _ _ C (slot old s va)).
  - apply (co_frame _ _ _ _ _ _ _ _ _ _ C). eapply (theirs_outside old s G fl OK); [done|by eapply list_elem_of_lookup_2|unfold in_page; lia].
Qed.

End Property.

#[local] Existing Instance small_layout.

(** A parent with three pages and a fresh child. *)
Lemma parent_and_child : exists s G fl old new, @vmok small_layout s G fl /\ G !! (old, 2%nat, 0) = Some old /\ G !! (new, 2%nat, 0) = Some new /\
  old <> new /\ owned G fl (mapped_pages (k_mem s) old 0 3) /\ has (pte_of (k_mem s) old 0x1000) PTE_V = true /\
  forall va, 0 <= va < 0x3000 -> has (pte_of (k_mem s) new va) PTE_V = false.
Proof.
  destruct boot_forest as (s0 & G0 & fl0 & new & OK0 & R0 & L0 & P0 & _).
  destruct (@uvmcreate_spec small_layout s0 G0 fl0 OK0) as [[E _]|(old & fl1 & Hf & _ & _ & OK1 & _ & Nt & Pn & Po)]; [rewrite E in L0; discriminate L0|].
  set (G1 := <[(old, 2%nat, 0) := old]> G0) in *. set (s1 := zeroed old s0) in *. rewrite Hf in L0. injection L0 as L0.
  assert (old <> new) as Ne by (intros ->; by apply (Nt (new, 2%nat, 0))).
  assert (G1 !! (old, 2%nat, 0) = Some old) as Ro by apply lookup_insert_eq. assert (G1 !! (new, 2%nat, 0) = Some new) as Rn.
  { unfold G1. rewrite lookup_insert_ne; [done|]. intros [= ?]. done. }
  destruct (@uvmalloc_spec small_layout old 0 0x3000 PTE_W s1 G1 fl1 OK1 Ro) as (x & s & E & Res); [done|done|done| |].
  { change (PGROUNDUP 0) with 0. change (PGROUNDUP 0x3000) with 0x3000. intros va Hv. assert (0x3000 < MAXVA) by done. rewrite Pn by lia. apply has_0. }
  change (upages 0 0x3000) with 3%nat in Res. change (PGROUNDUP 0) with 0 in Res. destruct Res as [(_ & G & fl & ps & Hp & AL)|(_ & _ & Hn)]; [|lia].
  destruct (al_used _ _ _ _ _ _ _ _ _ _ AL) as (u & Pm & Mt). exists s, G, fl, old, new. split; [apply AL|].
  split; [by eapply lookup_weaken; [|apply Mt]|]. split; [by eapply lookup_weaken; [|apply Mt]|]. split; [done|].
  pose proof (al_pte _ _ _ _ _ _ _ _ _ _ AL) as P. assert (0x3000 < MAXVA) by done. split; [|split].
  - rewrite <- Hp, (al_mapped_pages s1 G1 fl1 old 0 (Z.lor (Z.lor PTE_R PTE_U) PTE_W) s G fl ps); try (done || lia); [|rewrite Hp; done].
    by apply (al_owned _ _ _ _ _ _ _ _ _ _ OK1 AL).
  - destruct (alloced_uaddr _ _ _ _ _ _ _ _ _ _ 0x1000 OK1 AL) as (p & _ & U & _ & Vp); [done|done|lia|rewrite Hp; done|done|rewrite Hp; done|].
    unfold uaddr in U. destruct (has (pte_of (k_mem s) old 0x1000) PTE_V); [done|]. cbn [andb] in U. destruct (valid_page_phys p Vp). lia.
  - intros va Hv. rewrite P by (done || lia). rewrite decide_False by (intros [? _]; done). unfold s1. rewrite Po by (done || lia). rewrite P0 by lia. apply has_0.
Qed.

Lemma uvmcopy_copies_witness : exists s old new x s',
  has (pte_of (k_mem s) old 0x1000) PTE_V = true /\ @uvmcopy small_layout old new 0x3000 s = Ret x s' /\
  (x = -1 \/ (x = 0 /\ mget (k_mem s') (PTE2PA (pte_of (k_mem s') new 0x1000) + 5) = mget (k_mem s) (PTE2PA (pte_of (k_mem s) old 0x1000) + 5))).
Proof.
  destruct parent_and_child as (s & G & fl & old & new & OK & Ro & Rn & Ne & W & V & Emp).
  destruct (@uvmcopy_copies small_layout old new 0x3000 s G fl OK Ro Rn Ne) as (x & s' & E & _ & Res); [done|exact W|exact Emp|].
  exists s, old, new, x, s'. split; [exact V|]. split; [exact E|]. destruct Res as [(-> & H)|(-> & _)]; [right|left; reflexivity].
  split; [reflexivity|]. destruct (H 0x1000 ltac:(done)) as (_ & _ & D). destruct (D V) as [_ D']. apply (D' 5). done.
Defined.
