(* ===== verification/Proc.v ===== *)
(** * Processes (kernel/proc.c), the code

    The process table, process creation and release, sleep and wakeup, the
    switch to the scheduler and the lottery scheduler.  swtch() gives the CPU
    up: the outcome [Switch] carries the rest of the thread.  fork and exit,
    which call the file system, are in Life. *)

From S2P Require Import Prelude Riscv Memory KState KMonad Spinlock Kalloc Vm.

Definition getproc (i : nat) : K proc := gets (fun s => nth i s.(k_procs) zero_proc).
Definition updproc (i : nat) (f : proc -> proc) : K unit :=
  modify (fun s => set_k_procs (<[i := f (nth i s.(k_procs) zero_proc)]> s.(k_procs)) s).

(** All the entries of the process table, in order. *)
Definition all_procs : list nat := seq 0 NPROC.

(** The linear congruential generator: [rand_state] is an unsigned long, the
    result is truncated to int. *)
Definition random : K Z :=
  modify (fun s => set_k_rand (u64 (s.(k_rand) * 1664525 + 1013904223)) s) ;;
  gets (fun s => s32 s.(k_rand)).

Definition procinit : K unit :=
  initlock LPid ;;
  initlock LWait ;;
  kfor all_procs (fun i =>
    initlock (LProc i) ;;
    updproc i (set_p_state UNUSED) ;;
    updproc i (set_p_kstack (KSTACK (Z.of_nat i)))).

Definition allocpid : K Z :=
  acquire LPid ;;
  pid ← gets (fun s => s.(k_nextpid));
  modify (fun s => set_k_nextpid (s32 (s.(k_nextpid) + 1)) s) ;;
  release LPid ;;
  mret pid.

(** ** Giving up the CPU *)

(** swtch(): other threads run until this one is switched back to. *)
Definition swtch : K unit := fun s => Switch s (fun s' => Ret tt s').

Definition sched : K unit :=
  '(i, p) ← curproc;
  h ← holding (LProc i);
  if negb h then kpanic "sched p->lock" else
  c ← mycpu;
  if negb (c.(c_noff) =? 1) then kpanic "sched locks" else
  if bool_decide (p.(p_state) = RUNNING) then kpanic "sched RUNNING" else
  on ← intr_get;
  if on : bool then kpanic "sched interruptible" else
  c' ← mycpu;
  let intena := c'.(c_intena) in
  swtch ;;
  modify (fun s => set_k_cpu (set_c_intena intena s.(k_cpu)) s).

Definition yield : K unit :=
  '(i, _) ← curproc;
  acquire (LProc i) ;;
  updproc i (set_p_state RUNNABLE) ;;
  sched ;;
  release (LProc i).

Definition sleep (ch : chan) (lk : lockid) : K unit :=
  '(i, _) ← curproc;
  acquire (LProc i) ;;
  release lk ;;
  updproc i (set_p_chan (Some ch)) ;;
  updproc i (set_p_state SLEEPING) ;;
  sched ;;
  updproc i (set_p_chan None) ;;
  release (LProc i) ;;
  acquire lk.

Definition wakeup (ch : chan) : K unit :=
  kfor all_procs (fun i =>
    me ← myproc;
    kwhen (negb (bool_decide (me = Some i)))
      (acquire (LProc i) ;;
       p ← getproc i;
       kwhen (bool_decide (p.(p_state) = SLEEPING) && bool_decide (p.(p_chan) = Some ch))
         (updproc i (set_p_state RUNNABLE)) ;;
       release (LProc i))).

Definition kkill (pid : Z) : K Z :=
  r ← kscan all_procs (fun i =>
    acquire (LProc i) ;;
    p ← getproc i;
    if p.(p_pid) =? pid then
      updproc i (set_p_killed 1) ;;
      kwhen (bool_decide (p.(p_state) = SLEEPING)) (updproc i (set_p_state RUNNABLE)) ;;
      release (LProc i) ;;
      mret (Some 0)
    else
      release (LProc i) ;;
      mret None);
  mret (default (-1) r).

Definition setkilled (i : nat) : K unit :=
  acquire (LProc i) ;;
  updproc i (set_p_killed 1) ;;
  release (LProc i).

Definition killed (i : nat) : K Z :=
  acquire (LProc i) ;;
  p ← getproc i;
  release (LProc i) ;;
  mret p.(p_killed).

(** ** The lottery scheduler

    One round of the loop in scheduler(). *)

(** Part 1: count the tickets of the runnable processes. *)
Fixpoint count_tickets (idx : list nat) (total_tickets : Z) : K Z :=
  match idx with
  | [] => mret total_tickets
  | i :: idx' =>
      acquire (LProc i) ;;
      p ← getproc i;
      let total := if bool_decide (p.(p_state) = RUNNABLE)
                   then s32 (total_tickets + p.(p_tickets)) else total_tickets in
      release (LProc i) ;;
      count_tickets idx' total
  end.

(** Part 2: run the first process whose cumulated tickets pass [winner]; the
    result says whether one was found. *)
Fixpoint run_winner (idx : list nat) (winner counter : Z) : K bool :=
  match idx with
  | [] => mret false
  | i :: idx' =>
      acquire (LProc i) ;;
      p ← getproc i;
      if bool_decide (p.(p_state) = RUNNABLE) then
        let counter := s32 (counter + p.(p_tickets)) in
        if winner <? counter then
          updproc i (set_p_state RUNNING) ;;
          modify (fun s => set_k_cpu (set_c_proc (Some i) s.(k_cpu)) s) ;;
          swtch ;;
          modify (fun s => set_k_cpu (set_c_proc None s.(k_cpu)) s) ;;
          release (LProc i) ;;
          mret true
        else
          release (LProc i) ;;
          run_winner idx' winner counter
      else
        release (LProc i) ;;
        run_winner idx' winner counter
  end.

Definition scheduler_round : K unit :=
  intr_on ;;
  intr_off ;;
  total_tickets ← count_tickets all_procs 0;
  if 0 <? total_tickets then
    r ← random;
    let winner := crem r total_tickets in
    run_winner all_procs winner 0 ;;
    mret tt
  else mret tt.

(** scheduler() never returns; [n] rounds of it. *)
Fixpoint scheduler_rounds (n : nat) : K unit :=
  match n with
  | O => unbounded
  | S n' => scheduler_round ;; scheduler_rounds n'
  end.

Definition scheduler (n : nat) : K unit :=
  modify (fun s => set_k_cpu (set_c_proc None s.(k_cpu)) s) ;;
  scheduler_rounds n.

(** ** Creating and freeing processes *)

Section Proc.
Context {L : Layout}.

Definition proc_mapstacks (kpgtbl : Z) : K unit :=
  kfor all_procs (fun i =>
    pa ← kalloc;
    if pa =? 0 then kpanic "kalloc" else
    kvmmap kpgtbl (KSTACK (Z.of_nat i)) pa PGSIZE (Z.lor PTE_R PTE_W)).

Definition proc_pagetable (i : nat) : K Z :=
  pagetable ← uvmcreate;
  if pagetable =? 0 then mret 0 else
  r ← mappages pagetable TRAMPOLINE PGSIZE ktrampoline (Z.lor PTE_R PTE_X);
  if r <? 0 then uvmfree pagetable 0 ;; mret 0 else
  p ← getproc i;
  r ← mappages pagetable TRAPFRAME PGSIZE p.(p_trapframe) (Z.lor PTE_R PTE_W);
  if r <? 0 then
    uvmunmap pagetable TRAMPOLINE 1 false ;;
    uvmfree pagetable 0 ;;
    mret 0
  else mret pagetable.

Definition proc_freepagetable (pagetable sz : Z) : K unit :=
  uvmunmap pagetable TRAMPOLINE 1 false ;;
  uvmunmap pagetable TRAPFRAME 1 false ;;
  uvmfree pagetable sz.

Definition freeproc (i : nat) : K unit :=
  p ← getproc i;
  kwhen (negb (p.(p_trapframe) =? 0)) (kfree p.(p_trapframe)) ;;
  updproc i (set_p_trapframe 0) ;;
  kwhen (negb (p.(p_pagetable) =? 0)) (proc_freepagetable p.(p_pagetable) p.(p_sz)) ;;
  updproc i (fun p =>
    set_p_state UNUSED (set_p_xstate 0 (set_p_killed 0 (set_p_chan None
      (set_p_name (<[0%nat := 0]> p.(p_name)) (set_p_parent None (set_p_pid 0
        (set_p_sz 0 (set_p_pagetable 0 p))))))))).

Definition allocproc : K (option nat) :=
  f ← kscan all_procs (fun i =>
    acquire (LProc i) ;;
    p ← getproc i;
    if bool_decide (p.(p_state) = UNUSED) then mret (Some i)
    else release (LProc i) ;; mret None);
  match f with
  | None => mret None
  | Some i =>
      pid ← allocpid;
      updproc i (set_p_pid pid) ;;
      updproc i (set_p_tickets 10) ;;
      updproc i (set_p_state USED) ;;
      tf ← kalloc;
      updproc i (set_p_trapframe tf) ;;
      if tf =? 0 then freeproc i ;; release (LProc i) ;; mret None else
      pt ← proc_pagetable i;
      updproc i (set_p_pagetable pt) ;;
      if pt =? 0 then freeproc i ;; release (LProc i) ;; mret None else
      p ← getproc i;
      updproc i (set_p_context (mk_context kforkret (u64 (p.(p_kstack) + PGSIZE)) (replicate 12 0))) ;;
      mret (Some i)
  end.

Definition growproc (n : Z) : K Z :=
  '(i, p) ← curproc;
  let sz := p.(p_sz) in
  if 0 <? n then
    if TRAPFRAME <? u64 (sz + n) then mret (-1) else
    sz' ← uvmalloc p.(p_pagetable) sz (u64 (sz + n)) PTE_W;
    if sz' =? 0 then mret (-1) else
    updproc i (set_p_sz sz') ;;
    mret 0
  else
    sz' ← (if n <? 0 then uvmdealloc p.(p_pagetable) sz (u64 (sz + n)) else mret sz);
    updproc i (set_p_sz sz') ;;
    mret 0.

(** ** Parents and children *)

Definition reparent (i : nat) : K unit :=
  kfor all_procs (fun j =>
    pp ← getproc j;
    if bool_decide (pp.(p_parent) = Some i) then
      ip ← gets (fun s => s.(k_initproc));
      updproc j (set_p_parent ip) ;;
      match ip with
      | Some init => wakeup (ChProc init)
      | None => mret tt
      end
    else mret tt).

(** One scan of the table in kwait(): [inl r] is a return of [r], [inr b]
    whether the caller has children. *)
Fixpoint kwait_scan (idx : list nat) (i : nat) (addr : Z) (havekids : bool) : K (Z + bool) :=
  match idx with
  | [] => mret (inr havekids)
  | j :: idx' =>
      pp ← getproc j;
      if bool_decide (pp.(p_parent) = Some i) then
        acquire (LProc j) ;;
        pp ← getproc j;
        if bool_decide (pp.(p_state) = ZOMBIE) then
          let pid := pp.(p_pid) in
          p ← getproc i;
          r ← (if addr =? 0 then mret 0
               else copyout p.(p_pagetable) addr (bytes_of 4 pp.(p_xstate)));
          if r <? 0 then
            release (LProc j) ;;
            release LWait ;;
            mret (inl (-1))
          else
            freeproc j ;;
            release (LProc j) ;;
            release LWait ;;
            mret (inl pid)
        else
          release (LProc j) ;;
          kwait_scan idx' i addr true
      else kwait_scan idx' i addr havekids
  end.

(** The loop of kwait(); [n] bounds how often it sleeps. *)
Fixpoint kwait_loop (n : nat) (i : nat) (addr : Z) : K Z :=
  match n with
  | O => unbounded
  | S n' =>
      r ← kwait_scan all_procs i addr false;
      match r with
      | inl x => mret x
      | inr havekids =>
          k ← (if havekids : bool then killed i else mret 1);
          if negb (k =? 0) then release LWait ;; mret (-1)
          else
            sleep (ChProc i) LWait ;;
            kwait_loop n' i addr
      end
  end.

Definition kwait (n : nat) (addr : Z) : K Z :=
  '(i, _) ← curproc;
  acquire LWait ;;
  kwait_loop n i addr.

(** ** Copies to and from user or kernel memory *)

(** Kernel-side data are byte lists; a kernel address as the other side of the
    copy is an address of memory. *)
Definition either_copyout (user_dst : bool) (dst : Z) (src : list Z) : K Z :=
  me ← myproc;
  if user_dst then
    match me with
    | Some i => p ← getproc i; copyout p.(p_pagetable) dst src
    | None => kpanic "kerneltrap"
    end
  else kwrite dst src ;; mret 0.

(** either_copyin(): the bytes stored at dst and whether it returns 0. *)
Definition either_copyin (user_src : bool) (src : Z) (len : nat) : K (list Z * bool) :=
  me ← myproc;
  if user_src then
    match me with
    | Some i => p ← getproc i; copyin_part p.(p_pagetable) src len
    | None => kpanic "kerneltrap"
    end
  else bs ← kread src len; mret (bs, true).

End Proc.
