(* ===== verification/Printf.v ===== *)
(** * Kernel console output (kernel/printf.c, and the output half of
      kernel/console.c and kernel/uart.c)

    printf() over the characters of its format and the list of its arguments;
    what reaches the UART is prepended to [k_out].  panic() is the outcome
    [Panic] of the kernel monad.  The theorems bound the digit buffer of
    printint() and read a printed number back. *)

From S2P Require Import Prelude Riscv Memory KState KMonad Spinlock.

Definition BACKSPACE : Z := 0x100.

(** The wait for LSR_TX_IDLE is the device's; a byte is then sent. *)
Definition uartputc_sync (c : Z) : K unit :=
  panicking ← gets (fun s => s.(k_panicking));
  kwhen (panicking =? 0) push_off ;;
  modify (fun s => set_k_out (u8 c :: s.(k_out)) s) ;;
  kwhen (panicking =? 0) pop_off.

Definition consputc (c : Z) : K unit :=
  if c =? BACKSPACE then
    uartputc_sync 8 ;; uartputc_sync 32 ;; uartputc_sync 8
  else uartputc_sync c.

Fixpoint consputs (l : list Z) : K unit :=
  match l with
  | [] => mret tt
  | c :: l' => consputc c ;; consputs l'
  end.

Definition digits : list Z := chars "0123456789abcdef".
Definition digit (d : Z) : Z := nth (Z.to_nat d) digits 0.

(** The do-while loop of printint(): the digits of [x], last one first.  A
    64-bit number has at most 64 digits. *)
Fixpoint int_digits (fuel : nat) (x base : Z) : list Z :=
  digit (x mod base) ::
  match fuel with
  | O => []
  | S fuel' => if x / base =? 0 then [] else int_digits fuel' (x / base) base
  end.

(** The contents of [buf] when the digits and the sign are in it. *)
Definition int_buf (xx base : Z) (sign : bool) : list Z :=
  let neg := (sign && (xx <? 0))%bool in
  let x := if neg then u64 (- xx) else u64 xx in
  int_digits 63 x base ++ (if neg then [45] else []).

Definition printint (xx base : Z) (sign : bool) : K unit := consputs (rev (int_buf xx base sign)).

(** The sixteen hexadecimal digits of a pointer, first one first. *)
Fixpoint ptr_digits (n : nat) (x : Z) : list Z :=
  match n with
  | O => []
  | S n' => digit (Z.shiftr x 60) :: ptr_digits n' (u64 (Z.shiftl x 4))
  end.

Definition printptr (x : Z) : K unit :=
  consputc 48 ;; consputc 120 ;; consputs (ptr_digits 16 x).

(** An argument: an integer register, or a string pointer that may be null. *)
Inductive parg := PInt (z : Z) | PStr (s : option (list Z)).

Definition int_arg (l : list parg) : Z := match l with PInt z :: _ => z | _ => 0 end.
Definition str_arg (l : list parg) : list Z :=
  match l with PStr (Some s) :: _ => s | _ => chars "(null)" end.

(** The loop over the format, which has no NUL of its own. *)
Fixpoint printf_loop (fmt : list Z) (args : list parg) : K unit :=
  match fmt with
  | [] => mret tt
  | cx :: f1 =>
      if negb (cx =? 37) then consputc cx ;; printf_loop f1 args else
      match f1 with
      | [] => mret tt
      | c0 :: f2 =>
          let c1 := hd 0 f2 in
          let c2 := hd 0 (tl f2) in
          if c0 =? 100 then printint (s32 (int_arg args)) 10 true ;; printf_loop f2 (tl args)
          else if ((c0 =? 108) && (c1 =? 100))%bool then
            printint (s64 (int_arg args)) 10 true ;;
            match f2 with _ :: f3 => printf_loop f3 (tl args) | [] => mret tt end
          else if ((c0 =? 108) && (c1 =? 108) && (c2 =? 100))%bool then
            printint (s64 (int_arg args)) 10 true ;;
            match f2 with _ :: _ :: f4 => printf_loop f4 (tl args) | _ => mret tt end
          else if c0 =? 117 then printint (u32 (int_arg args)) 10 false ;; printf_loop f2 (tl args)
          else if ((c0 =? 108) && (c1 =? 117))%bool then
            printint (s64 (int_arg args)) 10 false ;;
            match f2 with _ :: f3 => printf_loop f3 (tl args) | [] => mret tt end
          else if ((c0 =? 108) && (c1 =? 108) && (c2 =? 117))%bool then
            printint (s64 (int_arg args)) 10 false ;;
            match f2 with _ :: _ :: f4 => printf_loop f4 (tl args) | _ => mret tt end
          else if c0 =? 120 then printint (u32 (int_arg args)) 16 false ;; printf_loop f2 (tl args)
          else if ((c0 =? 108) && (c1 =? 120))%bool then
            printint (s64 (int_arg args)) 16 false ;;
            match f2 with _ :: f3 => printf_loop f3 (tl args) | [] => mret tt end
          else if ((c0 =? 108) && (c1 =? 108) && (c2 =? 120))%bool then
            printint (s64 (int_arg args)) 16 false ;;
            match f2 with _ :: _ :: f4 => printf_loop f4 (tl args) | _ => mret tt end
          else if c0 =? 112 then printptr (u64 (int_arg args)) ;; printf_loop f2 (tl args)
          else if c0 =? 99 then consputc (u32 (int_arg args)) ;; printf_loop f2 (tl args)
          else if c0 =? 115 then consputs (str_arg args) ;; printf_loop f2 (tl args)
          else if c0 =? 37 then consputc 37 ;; printf_loop f2 args
          else consputc 37 ;; consputc c0 ;; printf_loop f2 args
      end
  end.

Definition printf (fmt : string) (args : list parg) : K unit :=
  panicking ← gets (fun s => s.(k_panicking));
  kwhen (panicking =? 0) (acquire LPr) ;;
  printf_loop (chars fmt) args ;;
  panicking ← gets (fun s => s.(k_panicking));
  kwhen (panicking =? 0) (release LPr).

Definition printfinit : K unit := initlock LPr.

(** ** What is printed *)

(** The value of a digit character, and of digits, last one first. *)
Definition dval (c : Z) : Z := if c <? 97 then c - 48 else c - 87.

Fixpoint of_digits (base : Z) (l : list Z) : Z :=
  match l with
  | [] => 0
  | c :: l' => dval c + base * of_digits base l'
  end.

Lemma digit_spec d : 0 <= d < 16 -> dval (digit d) = d /\ 48 <= digit d < 128.
Proof.
  intros H. assert (forallb (fun n => (dval (digit (Z.of_nat n)) =? Z.of_nat n) &&
    (48 <=? digit (Z.of_nat n)) && (digit (Z.of_nat n) <? 128))%bool (seq 0 16) = true) as A by reflexivity.
  rewrite forallb_forall in A. specialize (A (Z.to_nat d) ltac:(apply in_seq; lia)).
  rewrite Z2Nat.id in A by lia. lia.
Qed.

Lemma int_digits_val fuel : forall x base, 2 <= base <= 16 -> 0 <= x < 2 ^ Z.of_nat (S fuel) ->
  of_digits base (int_digits fuel x base) = x.
Proof.
  induction fuel as [|fuel IH]; intros x base Hb Hx; cbn [int_digits of_digits].
  - change (2 ^ Z.of_nat 1) with 2 in Hx. pose proof (Z.mod_pos_bound x base ltac:(lia)).
    destruct (digit_spec (x mod base)) as [-> _]; [lia|]. rewrite Z.mod_small by lia. lia.
  - pose proof (Z.mod_pos_bound x base ltac:(lia)). pose proof (Z.div_mod x base ltac:(lia)).
    destruct (digit_spec (x mod base)) as [-> _]; [lia|].
    destruct (Z.eqb_spec (x / base) 0) as [E|E]; [simpl; lia|]. rewrite IH; [lia|done|].
    split; [apply Z.div_pos; lia|].
    apply Z.le_lt_trans with (x / 2); [apply Z.div_le_compat_l; lia|].
    apply Z.div_lt_upper_bound; [lia|]. rewrite <- Z.pow_succ_r by lia. rewrite <- Nat2Z.inj_succ. lia.
Qed.

Lemma int_digits_len fuel : forall x base k, 2 <= base <= 16 -> (0 < k)%nat -> 0 <= x < base ^ Z.of_nat k ->
  (length (int_digits fuel x base) <= k)%nat.
Proof.
  induction fuel as [|fuel IH]; intros x base k Hb Hk Hx; cbn [int_digits length]; [lia|].
  destruct (Z.eqb_spec (x / base) 0) as [E|E]; [simpl; lia|].
  destruct k as [|[|k]]; [lia| |].
  - exfalso. apply E. apply Z.div_small. change (Z.of_nat 1) with 1 in Hx. rewrite Z.pow_1_r in Hx. lia.
  - specialize (IH (x / base) base (S k) Hb ltac:(lia)).
    assert (0 <= x / base < base ^ Z.of_nat (S k)) as Hd.
    { split; [apply Z.div_pos; lia|]. apply Z.div_lt_upper_bound; [lia|].
      rewrite <- Z.pow_succ_r by lia. rewrite <- Nat2Z.inj_succ. lia. }
    specialize (IH Hd). lia.
Qed.

Lemma int_digits_chars fuel : forall x base, 2 <= base <= 16 -> 0 <= x ->
  Forall (fun c => 48 <= c < 128) (int_digits fuel x base).
Proof.
  induction fuel as [|fuel IH]; intros x base Hb Hx; cbn [int_digits];
    (constructor; [apply digit_spec; pose proof (Z.mod_pos_bound x base ltac:(lia)); lia|]); [done|].
  destruct (x / base =? 0); [done|]. apply IH; [done|]. apply Z.div_pos; lia.
Qed.

(** C37 printint() never overruns its 20-byte buffer: for every
    64-bit argument, in base 10 and in base 16, signed or not, at most 20
    characters are stored in it. *)
Theorem printint_buf_bound xx base sign : - 2 ^ 63 <= xx < 2 ^ 63 -> base = 10 \/ base = 16 ->
  (length (int_buf xx base sign) <= 20)%nat.
Proof.
  intros Hx Hb. unfold int_buf. set (neg := (sign && (xx <? 0))%bool). rewrite length_app.
  pose proof (u64_range xx). destruct neg eqn:En.
  - unfold neg in En. apply andb_true_iff in En as [_ En]. apply Z.ltb_lt in En. cbn [length].
    assert (length (int_digits 63 (u64 (- xx)) base) <= 19)%nat; [|lia].
    apply int_digits_len; [lia|lia|]. rewrite u64_small by lia.
    destruct Hb as [-> | ->]; [change (10 ^ Z.of_nat 19) with 10000000000000000000|
      change (16 ^ Z.of_nat 19) with (2 ^ 76)]; lia.
  - cbn [length]. assert (length (int_digits 63 (u64 xx) base) <= 20)%nat; [|lia].
    apply int_digits_len; [lia|lia|].
    destruct Hb as [-> | ->]; [change (10 ^ Z.of_nat 20) with 100000000000000000000|
      change (16 ^ Z.of_nat 20) with (2 ^ 80)]; lia.
Qed.

Lemma printint_buf_bound_witness : (length (int_buf (- 2 ^ 63) 10 true) <= 20)%nat.
Proof. apply (printint_buf_bound (- 2 ^ 63) 10 true); [lia|by left]. Defined.

Lemma uartputc_sync_eq c s : cpu_ok (k_cpu s) -> k_panicking s = 0 ->
  uartputc_sync c s = Ret tt (set_k_out (u8 c :: k_out s) (ksettle s)).
Proof.
  intros C P. unfold uartputc_sync. kstep. rewrite P. cbn [kwhen Z.eqb].
  rewrite (bind_ret _ _ _ _ _ (push_off_eq s)). kstep.
  rewrite pop_off_eq; [|done|unfold kpush, push; simpl; destruct C; lia].
  f_equal. unfold ksettle. rewrite <- settle_pop_push by done. done.
Qed.

Lemma consputs_eq l : forall s, cpu_ok (k_cpu s) -> k_panicking s = 0 -> Forall (fun c => 0 <= c < 256) l ->
  l <> [] -> consputs l s = Ret tt (set_k_out (rev l ++ k_out s) (ksettle s)).
Proof.
  induction l as [|c l IH]; intros s C P F N; [done|]. apply Forall_cons in F as [Hc F].
  cbn [consputs]. unfold consputc. destruct (Z.eqb_spec c BACKSPACE) as [->|_]; [unfold BACKSPACE in Hc; lia|].
  rewrite (bind_ret _ _ _ _ _ (uartputc_sync_eq c s C P)), u8_byte by done.
  destruct l as [|d l]; [done|]. rewrite IH; [|by apply cpu_ok_settle|done|done|done].
  cbn [k_out set_k_out]. f_equal. simpl rev. rewrite <- !app_assoc. simpl.
  set (o := rev l ++ d :: c :: k_out s).
  transitivity (set_k_out o (ksettle (ksettle s))); [done|by rewrite ksettle_idem].
Qed.

(** printint() in base 10 prints the number: the characters sent
    are a minus sign exactly for a negative number, and decimal digits whose
    value is its absolute value. *)
Theorem printint_decimal xx s : - 2 ^ 63 <= xx < 2 ^ 63 -> cpu_ok (k_cpu s) -> k_panicking s = 0 ->
  exists ds s', printint xx 10 true s = Ret tt s' /\
    k_out s' = ds ++ (if xx <? 0 then [45] else []) ++ k_out s /\
    of_digits 10 ds = Z.abs xx /\ Forall (fun c => 48 <= c < 128) ds.
Proof.
  intros Hx C P. set (x := if xx <? 0 then u64 (- xx) else u64 xx).
  assert (x = Z.abs xx) as Ex.
  { unfold x. destruct (Z.ltb_spec xx 0); rewrite u64_small by lia; lia. }
  exists (int_digits 63 x 10). eexists. unfold printint, int_buf. cbn [andb]. fold x.
  assert (Forall (fun c => 48 <= c < 128) (int_digits 63 x 10)) as F by (apply int_digits_chars; lia).
  split; [apply consputs_eq; [done|done| |]|].
  - apply Forall_rev, Forall_app. split; [eapply Forall_impl; [exact F|simpl; lia]|]. case_if; [by repeat constructor|constructor].
  - intros E. apply (f_equal (@rev Z)) in E. rewrite rev_involutive in E. by apply app_eq_nil in E as [E _].
  - split; [cbn [k_out set_k_out]; by rewrite rev_involutive, <- app_assoc|]. split; [|done].
    rewrite int_digits_val; [done|lia|]. change (2 ^ Z.of_nat 64) with (2 ^ 64). lia.
Qed.

Lemma printint_decimal_witness : exists s', printint (-42) 10 true bss = Ret tt s' /\ rev (k_out s') = chars "-42".
Proof.
  destruct (printint_decimal (-42) bss) as (ds & s' & E & _ & _ & _); [lia|split; simpl; lia|done|].
  exists s'. split; [exact E|]. vm_compute in E. injection E as <-. reflexivity.
Defined.
