(* ===== verification/ProcSpec.v ===== *)
(** * Processes (kernel/proc.c), what the code does

    wakeup() as a map over the process table, the two halves of sleep(), the
    lottery draw and what a scheduling round does with it. *)

From S2P Require Import Prelude Riscv Memory KState KMonad Spinlock Kalloc Vm Proc.

(** ** Tables updated entry by entry *)

Lemma insert_nth_id {A} (l : list A) i d : <[i := nth i l d]> l = l.
Proof.
  destruct (decide (i < length l)%nat) as [H|H].
  - apply list_insert_id. rewrite nth_lookup.
    destruct (l !! i) eqn:E; [done|apply lookup_ge_None in E; lia].
  - apply list_insert_ge. lia.
Qed.

Lemma fold_insert_imap {A} (g : nat -> A -> A) d (l : list A) :
  fold_left (fun l i => <[i := g i (nth i l d)]> l) (seq 0 (length l)) l = imap g l.
Proof.
  apply list_eq. intros j. rewrite list_lookup_imap.
  assert (forall n k l', (n + k = length l)%nat -> length l' = length l ->
    (forall j, (n <= j)%nat -> l' !! j = l !! j) -> (forall j, (j < n)%nat -> l' !! j = g j <$> l !! j) ->
    fold_left (fun l i => <[i := g i (nth i l d)]> l) (seq n k) l' !! j = g j <$> l !! j) as H.
  { intros n k. revert n. induction k as [|k IH]; intros n l' Hn Hl H1 H2.
    - simpl. destruct (decide (j < n)%nat); [by apply H2|].
      rewrite H1 by lia. rewrite (proj2 (lookup_ge_None l j)) by lia. done.
    - cbn [seq fold_left]. apply IH; [lia|by rewrite length_insert| |].
      + intros i Hi. rewrite list_lookup_insert_ne by lia. apply H1. lia.
      + intros i Hi. destruct (decide (i = n)) as [->|].
        * rewrite list_lookup_insert_eq by lia. rewrite nth_lookup, H1 by lia.
          destruct (l !! n) eqn:E; [done|]. apply lookup_ge_None in E. lia.
        * rewrite list_lookup_insert_ne by lia. apply H2. lia. }
  apply (H 0%nat); [done|done|done|lia].
Qed.

Lemma nth_imap {A} (g : nat -> A -> A) (l : list A) i d : (i < length l)%nat ->
  nth i (imap g l) d = g i (nth i l d).
Proof.
  intros H. rewrite !nth_lookup, list_lookup_imap.
  destruct (l !! i) eqn:E; [done|]. apply lookup_ge_None in E. lia.
Qed.

(** ** wakeup() *)

(** Every process lock this hart needs can be taken. *)
Definition plocks_free (s : kstate) : Prop :=
  cpu_ok (k_cpu s) /\ forall i, c_proc (k_cpu s) <> Some i -> k_locks s !! LProc i = None.

Definition sleeping_on (ch : chan) (p : proc) : bool :=
  (bool_decide (p.(p_state) = SLEEPING) && bool_decide (p.(p_chan) = Some ch))%bool.

Definition wake (ch : chan) (p : proc) : proc :=
  if sleeping_on ch p then set_p_state RUNNABLE p else p.

Definition wake_all (me : option nat) (ch : chan) (ps : list proc) : list proc :=
  imap (fun i p => if bool_decide (me = Some i) then p else wake ch p) ps.

Lemma wakeup_body ch i s : plocks_free s ->
  (me ← myproc;
   kwhen (negb (bool_decide (me = Some i)))
     (acquire (LProc i) ;;
      p ← getproc i;
      kwhen (bool_decide (p.(p_state) = SLEEPING) && bool_decide (p.(p_chan) = Some ch))
        (updproc i (set_p_state RUNNABLE)) ;;
      release (LProc i))) s =
  Ret tt (set_k_procs (<[i := (if bool_decide (c_proc (k_cpu s) = Some i) then id else wake ch)
                                (nth i (k_procs s) zero_proc)]> (k_procs s)) (ksettle s)).
Proof.
  intros [C F]. rewrite (bind_ret _ _ _ _ _ (myproc_eq s C)).
  destruct (bool_decide_reflect (c_proc (k_cpu s) = Some i)) as [E|E]; simpl.
  - unfold id. by rewrite insert_nth_id.
  - assert (lk_free (LProc i) (ksettle s)) as Fi by (split; [by apply cpu_ok_settle|by apply F]).
    pose proof (ksettle_idem s) as Id. change (k_procs s) with (k_procs (ksettle s)).
    set (s1 := ksettle s) in *. clearbody s1. clear E F C.
    kstep. unfold getproc, updproc, kwhen. kstep. unfold wake.
    change (k_procs (acq (LProc i) s1)) with (k_procs s1).
    fold (sleeping_on ch (nth i (k_procs s1) zero_proc)).
    destruct (sleeping_on ch _); kstep; rewrite release_eq by (apply acq_held, Fi); f_equal;
      rewrite ?insert_nth_id;
      match goal with |- _ = set_k_procs ?x s1 =>
        transitivity (set_k_procs x (ksettle s1)); [crit (LProc i) s1|by rewrite Id] end.
Qed.

Lemma c_proc_settle c : c_proc (settle c) = c_proc c.
Proof. unfold settle. by destruct (c_noff c =? 0). Qed.

Lemma plocks_free_settle s : plocks_free s -> plocks_free (ksettle s).
Proof.
  intros [C F]. split; [by apply cpu_ok_settle|]. unfold ksettle. simpl. rewrite c_proc_settle. done.
Qed.

Lemma wakeup_spec ch s : plocks_free s -> length (k_procs s) = NPROC ->
  wakeup ch s = Ret tt (set_k_procs (wake_all (c_proc (k_cpu s)) ch (k_procs s)) (ksettle s)).
Proof.
  intros F Hl. unfold wakeup, wake_all, all_procs. rewrite <- (fold_insert_imap _ zero_proc), Hl.
  set (g := fun i p => if bool_decide (c_proc (k_cpu s) = Some i) then p else wake ch p).
  assert (forall idx s1, plocks_free s1 -> c_proc (k_cpu s1) = c_proc (k_cpu s) -> idx <> [] ->
    kfor idx (fun i => me ← myproc;
      kwhen (negb (bool_decide (me = Some i)))
       (acquire (LProc i) ;; p ← getproc i;
        kwhen (bool_decide (p.(p_state) = SLEEPING) && bool_decide (p.(p_chan) = Some ch))
          (updproc i (set_p_state RUNNABLE)) ;; release (LProc i))) s1 =
    Ret tt (set_k_procs (fold_left (fun l i => <[i := g i (nth i l zero_proc)]> l) idx (k_procs s1)) (ksettle s1))) as H.
  { induction idx as [|i idx IH]; intros s1 F1 M1 N; [done|]. cbn [kfor fold_left].
    rewrite (bind_ret _ _ _ _ _ (wakeup_body ch i s1 F1)), M1.
    replace ((if bool_decide (c_proc (k_cpu s) = Some i) then id else wake ch) (nth i (k_procs s1) zero_proc))
      with (g i (nth i (k_procs s1) zero_proc)) by (unfold g; by case_bool_decide).
    destruct idx as [|j idx]; [done|]. rewrite IH; [|by apply plocks_free_settle| |done].
    - cbn [k_procs set_k_procs]. f_equal. set (l := fold_left _ _ _).
      transitivity (set_k_procs l (ksettle (ksettle s1))); [done|by rewrite ksettle_idem].
    - simpl. by rewrite c_proc_settle. }
  by apply H.
Qed.

(** ** The lottery *)

(** The tickets a process takes part with. *)
Definition tickets (p : proc) : Z := if bool_decide (p.(p_state) = RUNNABLE) then p.(p_tickets) else 0.

Definition total (ps : list proc) : Z := foldr (fun p a => tickets p + a) 0 ps.

(** The entry, counted from [i], whose cumulated tickets first pass [winner]. *)
Fixpoint pick (ps : list proc) (winner counter : Z) (i : nat) : option nat :=
  match ps with
  | [] => None
  | p :: ps' =>
      if (bool_decide (p.(p_state) = RUNNABLE) && (winner <? counter + tickets p))%bool then Some i
      else pick ps' winner (counter + tickets p) (S i)
  end.

(** sys_settickets() and allocproc() keep every process at one ticket or more. *)
Definition tickets_ok (ps : list proc) : Prop :=
  Forall (fun p => p.(p_state) = RUNNABLE -> 1 <= p.(p_tickets)) ps /\ total ps < 2 ^ 31.

Lemma tickets_nonneg p ps : tickets_ok ps -> p ∈ ps -> 0 <= tickets p.
Proof.
  intros [F _] Hp. rewrite Forall_forall in F. unfold tickets. case_bool_decide; [|done].
  specialize (F p Hp H). lia.
Qed.

Lemma total_nonneg ps : Forall (fun p => p.(p_state) = RUNNABLE -> 1 <= p.(p_tickets)) ps -> 0 <= total ps.
Proof.
  induction 1 as [|p ps H _ IH]; simpl; [lia|]. unfold tickets. case_bool_decide as E; [specialize (H E)|]; lia.
Qed.

(** A draw in [counter, counter + total) picks an entry, and the draws that
    pick entry [i] are those of an interval as long as its tickets. *)
Lemma pick_interval ps : Forall (fun p => p.(p_state) = RUNNABLE -> 1 <= p.(p_tickets)) ps ->
  forall w c i j, c <= w ->
  pick ps w c i = Some j <->
  (i <= j < i + length ps)%nat /\
  c + total (take (j - i) ps) <= w < c + total (take (j - i) ps) + tickets (nth (j - i) ps zero_proc).
Proof.
  induction 1 as [|p ps H F IH]; intros w c i j Hw; [simpl; split; [done|lia]|].
  cbn [pick length]. pose proof (total_nonneg ps F) as Tn.
  assert (0 <= tickets p) as Tp by (unfold tickets; case_bool_decide as E; [specialize (H E)|]; lia).
  destruct (bool_decide (p_state p = RUNNABLE) && (w <? c + tickets p))%bool eqn:E.
  - apply andb_true_iff in E as [E1 E2]. apply Z.ltb_lt in E2. split.
    + intros [= <-]. rewrite Nat.sub_diag. simpl. lia.
    + intros [B1 B2]. f_equal. destruct (decide (i = j)) as [|Nij]; [done|exfalso].
      replace (j - i)%nat with (S (j - S i)) in B2 by lia. simpl in B2.
      assert (0 <= total (take (j - S i) ps)) by (apply total_nonneg, Forall_take, F). lia.
  - assert (c + tickets p <= w) as Hc.
    { apply andb_false_iff in E as [E|E]; [|by apply Z.ltb_ge in E].
      unfold tickets. rewrite E. lia. }
    rewrite (IH w (c + tickets p) (S i) j Hc). split.
    + intros [B1 B2]. replace (j - i)%nat with (S (j - S i)) by lia. simpl. lia.
    + intros [B1 B2]. destruct (decide (i = j)) as [<-|Nij].
      { rewrite Nat.sub_diag in B2. simpl in B2. lia. }
      replace (j - i)%nat with (S (j - S i)) in B2 by lia. simpl in B2. lia.
Qed.

Lemma total_app ps qs : total (ps ++ qs) = total ps + total qs.
Proof. induction ps as [|p ps IH]; simpl; [done|]. rewrite IH. lia. Qed.

(** How many of the draws [0 .. n-1] the predicate holds for. *)
Definition draws (n : Z) (f : Z -> bool) : nat :=
  length (filter (fun w => f w = true) (seqZ 0 n)).

Lemma draws_interval n lo len f : 0 <= lo -> 0 <= len -> lo + len <= n ->
  (forall w, 0 <= w < n -> f w = true <-> lo <= w < lo + len) -> Z.of_nat (draws n f) = len.
Proof.
  intros H1 H2 H3 Hf. unfold draws.
  assert (seqZ 0 n = seqZ 0 lo ++ seqZ lo len ++ seqZ (lo + len) (n - lo - len)) as ->.
  { replace n with (lo + (len + (n - lo - len))) at 1 by lia. rewrite seqZ_app by lia.
    rewrite seqZ_app by lia. do 2 f_equal; f_equal; lia. }
  rewrite !filter_app, !length_app.
  assert (filter (fun w => f w = true) (seqZ 0 lo) = []) as ->.
  { apply filter_none. intros w Hw. apply elem_of_seqZ in Hw. rewrite Hf by lia. lia. }
  assert (filter (fun w => f w = true) (seqZ (lo + len) (n - lo - len)) = []) as ->.
  { apply filter_none. intros w Hw. apply elem_of_seqZ in Hw. rewrite Hf by lia. lia. }
  assert (filter (fun w => f w = true) (seqZ lo len) = seqZ lo len) as ->.
  { apply filter_all. intros w Hw. apply elem_of_seqZ in Hw. rewrite Hf by lia. lia. }
  simpl. rewrite length_seqZ. lia.
Qed.

(** ** A scheduling round *)

Lemma kpush_settle s : kpush (ksettle s) = kpush s.
Proof.
  unfold kpush, ksettle, push, settle. simpl. destruct (c_noff (k_cpu s) =? 0) eqn:E; simpl; rewrite E; done.
Qed.

Lemma acquire_settle lk s : acquire lk (ksettle s) = acquire lk s.
Proof.
  unfold acquire. rewrite (bind_ret _ _ _ _ _ (push_off_eq (ksettle s))).
  rewrite (bind_ret _ _ _ _ _ (push_off_eq s)). by rewrite kpush_settle.
Qed.

(** No process lock is held: the scheduler's own state. *)
Record idle (s : kstate) : Prop := {
  id_cpu : cpu_ok (k_cpu s);
  id_settled : ksettle s = s;
  id_locks i : k_locks s !! LProc i = None;
}.

Lemma acq_rel_idle i s : idle s -> rel (LProc i) (acq (LProc i) s) = s.
Proof. intros [C E F]. rewrite rel_acq; [done|]. split; [done|apply F]. Qed.

Lemma count_tickets_spec ps : forall pre s t, idle s -> k_procs s = pre ++ ps ->
  Forall (fun p => p.(p_state) = RUNNABLE -> 1 <= p.(p_tickets)) ps -> 0 <= t -> t + total ps < 2 ^ 31 ->
  count_tickets (seq (length pre) (length ps)) t s = Ret (t + total ps) s.
Proof.
  induction ps as [|p ps IH]; intros pre s t I E F Ht Hm.
  { simpl. rewrite Z.add_0_r. done. }
  inversion F as [|? ? H F']; subst. pose proof (total_nonneg ps F') as Tn.
  cbn [length seq count_tickets].
  assert (lk_free (LProc (length pre)) s) as Fl by (split; apply I).
  rewrite (bind_ret _ _ _ _ _ (acquire_eq _ s Fl)). unfold getproc. kstep.
  change (k_procs (acq (LProc (length pre)) s)) with (k_procs s).
  assert (nth (length pre) (k_procs s) zero_proc = p) as -> by (rewrite E, app_nth2, Nat.sub_diag by lia; done).
  rewrite (bind_ret _ _ _ _ _ (release_eq _ _ (acq_held _ s (id_cpu _ I)))), acq_rel_idle by done.
  cbn [total foldr] in Hm |- *. fold (total ps) in *.
  assert ((if bool_decide (p_state p = RUNNABLE) then s32 (t + p_tickets p) else t) = t + tickets p) as ->.
  { unfold tickets in *. case_bool_decide as B; [|lia]. specialize (H B). apply s32_small. lia. }
  specialize (IH (pre ++ [p]) s (t + tickets p) I). rewrite length_app in IH. simpl in IH.
  replace (length pre + 1)%nat with (S (length pre)) in IH by lia. rewrite IH.
  - f_equal. lia.
  - rewrite E, <- app_assoc. done.
  - done.
  - unfold tickets in *. case_bool_decide as B; [specialize (H B)|]; lia.
  - lia.
Qed.

(** The state in which process [i] starts to run: its lock is held by the
    scheduler, it is RUNNING and it is the CPU's current process. *)
Definition dispatched (i : nat) (s : kstate) : kstate :=
  let s1 := acq (LProc i) s in
  let s2 := set_k_procs (<[i := set_p_state RUNNING (nth i (k_procs s) zero_proc)]> (k_procs s)) s1 in
  set_k_cpu (set_c_proc (Some i) (k_cpu s2)) s2.

(** What the scheduler does when process [i] switches back. *)
Definition after_run (i : nat) (s : kstate) : kstate :=
  rel (LProc i) (set_k_cpu (set_c_proc None (k_cpu s)) s).

Definition runs (o : option nat) (s : kstate) (r : res bool) : Prop :=
  match o with
  | Some i => exists k, r = Switch (dispatched i s) k /\
      forall s2, lk_held (LProc i) s2 -> k s2 = Ret true (after_run i s2)
  | None => r = Ret false s
  end.

Lemma run_winner_spec ps : forall pre s w c, idle s -> k_procs s = pre ++ ps ->
  Forall (fun p => p.(p_state) = RUNNABLE -> 1 <= p.(p_tickets)) ps -> 0 <= c -> c + total ps < 2 ^ 31 ->
  runs (pick ps w c (length pre)) s (run_winner (seq (length pre) (length ps)) w c s).
Proof.
  induction ps as [|p ps IH]; intros pre s w c I E F Hc Hm; [done|].
  inversion F as [|? ? H F']; subst. pose proof (total_nonneg ps F') as Tn.
  assert (k_procs s = (pre ++ [p]) ++ ps) as E' by (rewrite E, <- app_assoc; done).
  cbn [total foldr] in Hm. fold (total ps) in *.
  pose proof (IH (pre ++ [p]) s w (c + tickets p) I E' F') as Next.
  rewrite length_app in Next. simpl in Next. rewrite Nat.add_1_r in Next.
  set (i := length pre) in *.
  assert (lk_free (LProc i) s) as Fl by (split; apply I).
  assert (nth i (k_procs s) zero_proc = p) as En by (unfold i; rewrite E, app_nth2, Nat.sub_diag by lia; done).
  assert (lk_held (LProc i) (acq (LProc i) s)) as Hd by (apply acq_held, I).
  cbn [length seq run_winner pick]. rewrite (bind_ret _ _ _ _ _ (acquire_eq _ s Fl)).
  unfold getproc. kstep. change (k_procs (acq (LProc i) s)) with (k_procs s). rewrite En.
  case_bool_decide as B; simpl andb.
  - specialize (H B). assert (tickets p = p_tickets p) as Tp by (unfold tickets; by rewrite bool_decide_eq_true_2).
    rewrite s32_small by lia. rewrite Tp in *. destruct (Z.ltb_spec w (c + p_tickets p)).
    + unfold updproc. kstep. kstep. erewrite bind_switch by reflexivity.
      eexists. split.
      * unfold dispatched. rewrite <- En. reflexivity.
      * intros s2 Hh. cbn [res_bind]. kstep.
        by erewrite bind_ret by (apply release_eq; exact Hh).
    + rewrite (bind_ret _ _ _ _ _ (release_eq _ _ Hd)), acq_rel_idle by done. apply Next; lia.
  - assert (tickets p = 0) as Tp by (unfold tickets; by rewrite bool_decide_eq_false_2).
    rewrite (bind_ret _ _ _ _ _ (release_eq _ _ Hd)), acq_rel_idle by done.
    rewrite Tp in *. rewrite Z.add_0_r in *. apply Next; lia.
Qed.

(** The next value of the generator, as random() returns it. *)
Definition next_rand (s : kstate) : Z := s32 (u64 (k_rand s * 1664525 + 1013904223)).

Lemma random_eq s :
  random s = Ret (next_rand s) (set_k_rand (u64 (k_rand s * 1664525 + 1013904223)) s).
Proof. done. Qed.

(** The state a round draws from: interrupts off, the generator advanced. *)
Definition drawn (s : kstate) : kstate :=
  set_k_rand (u64 (k_rand s * 1664525 + 1013904223)) (ksettle (set_k_cpu (set_c_intr false (k_cpu s)) s)).

Record at_scheduler (s : kstate) : Prop := {
  as_noff : c_noff (k_cpu s) = 0;
  as_locks i : k_locks s !! LProc i = None;
  as_procs : length (k_procs s) = NPROC;
  as_tickets : tickets_ok (k_procs s);
}.

Lemma at_scheduler_idle s : at_scheduler s -> idle (drawn s).
Proof.
  intros [A1 A2 A3 A4]. unfold drawn. set (v := u64 _). set (s1 := set_k_cpu _ s). split; [| |done].
  2: { transitivity (set_k_rand v (ksettle (ksettle s1))); [done|by rewrite ksettle_idem]. }
  cbn [k_cpu set_k_rand]. apply cpu_ok_settle. split; simpl; lia.
Qed.

(** The first acquire() of the round settles the CPU state. *)
Lemma count_settle idx t s : idx <> [] -> count_tickets idx t (ksettle s) = count_tickets idx t s.
Proof.
  destruct idx as [|i idx]; [done|]. intros _. cbn [count_tickets].
  unfold mbind at 1 4, K_bind at 1 4. by rewrite acquire_settle.
Qed.

Lemma count_all s : idle (ksettle s) -> length (k_procs s) = NPROC -> tickets_ok (k_procs s) ->
  count_tickets all_procs 0 s = Ret (total (k_procs s)) (ksettle s).
Proof.
  intros I Hl [F T]. rewrite <- count_settle by done.
  pose proof (count_tickets_spec (k_procs s) [] (ksettle s) 0 I eq_refl F ltac:(lia) ltac:(lia)) as C.
  rewrite Hl in C. exact C.
Qed.

Lemma run_all s w : idle s -> length (k_procs s) = NPROC -> tickets_ok (k_procs s) ->
  runs (pick (k_procs s) w 0 0) s (run_winner all_procs w 0 s).
Proof.
  intros I Hl [F T]. pose proof (run_winner_spec (k_procs s) [] s w 0 I eq_refl F ltac:(lia) ltac:(lia)) as R.
  rewrite Hl in R. exact R.
Qed.

Lemma scheduler_round_spec s : at_scheduler s -> 0 < total (k_procs s) ->
  match pick (k_procs s) (crem (next_rand s) (total (k_procs s))) 0 0 with
  | Some i => exists k, scheduler_round s = Switch (dispatched i (drawn s)) k /\
      forall s2, lk_held (LProc i) s2 -> k s2 = Ret tt (after_run i s2)
  | None => scheduler_round s = Ret tt (drawn s)
  end.
Proof.
  intros A Ht. pose proof (at_scheduler_idle s A) as I. destruct A as [A1 A2 A3 A4].
  unfold scheduler_round, intr_on, intr_off. kstep. kstep.
  set (s1 := set_k_cpu _ _).
  assert (idle (ksettle s1)) as I1.
  { destruct I as [I1 I2 I3]. split; [done|apply ksettle_idem|done]. }
  rewrite (bind_ret _ _ _ _ _ (count_all s1 I1 A3 A4)). change (k_procs s1) with (k_procs s).
  destruct (Z.ltb_spec 0 (total (k_procs s))); [|lia].
  rewrite (bind_ret _ _ _ _ _ (random_eq _)). change (next_rand (ksettle s1)) with (next_rand s).
  change (set_k_rand _ (ksettle s1)) with (drawn s).
  pose proof (run_all (drawn s) (crem (next_rand s) (total (k_procs s))) I A3 A4) as Rw.
  unfold runs in Rw. change (k_procs (drawn s)) with (k_procs s) in Rw.
  destruct (pick _ _ 0 0) as [i|].
  - destruct Rw as (k & E & Hk). rewrite (bind_switch _ _ _ _ _ E). eexists. split; [done|].
    intros s2 H2. simpl. by rewrite (Hk s2 H2).
  - by rewrite (bind_ret _ _ _ _ _ Rw).
Qed.

Lemma pick_some ps : Forall (fun p => p.(p_state) = RUNNABLE -> 1 <= p.(p_tickets)) ps ->
  forall w c i, c <= w < c + total ps -> exists j, pick ps w c i = Some (i + j)%nat /\ (j < length ps)%nat /\
    p_state (nth j ps zero_proc) = RUNNABLE.
Proof.
  induction 1 as [|p ps H F IH]; intros w c i Hw; [simpl in Hw; lia|].
  cbn [total foldr] in Hw. fold (total ps) in Hw. cbn [pick].
  destruct (bool_decide (p_state p = RUNNABLE) && (w <? c + tickets p))%bool eqn:E.
  - apply andb_true_iff in E as [E1 _]. apply bool_decide_eq_true in E1.
    exists 0%nat. rewrite Nat.add_0_r. split; [done|]. split; [simpl; lia|done].
  - assert (c + tickets p <= w) as Hc.
    { apply andb_false_iff in E as [E|E]; [|by apply Z.ltb_ge in E]. unfold tickets. rewrite E. lia. }
    destruct (IH w (c + tickets p) (S i) ltac:(lia)) as (j & Ej & Hj & R).
    exists (S j). rewrite Ej. split; [f_equal; lia|]. split; [simpl; lia|done].
Qed.

Lemma pick_first ps : Forall (fun p => p.(p_state) = RUNNABLE -> 1 <= p.(p_tickets)) ps -> 0 < total ps ->
  forall w c i, w <= c -> exists j, pick ps w c i = Some (i + j)%nat /\ (j < length ps)%nat /\
    p_state (nth j ps zero_proc) = RUNNABLE /\
    forall h, (h < j)%nat -> p_state (nth h ps zero_proc) <> RUNNABLE.
Proof.
  induction 1 as [|p ps H F IH]; intros Ht w c i Hw; [simpl in Ht; lia|].
  cbn [pick]. case_bool_decide as B; simpl andb.
  - specialize (H B). assert (tickets p = p_tickets p) as Tp by (unfold tickets; by rewrite bool_decide_eq_true_2).
    rewrite Tp. destruct (Z.ltb_spec w (c + p_tickets p)); [|lia].
    exists 0%nat. rewrite Nat.add_0_r. split; [done|]. split; [simpl; lia|]. split; [done|lia].
  - assert (tickets p = 0) as Tp by (unfold tickets; by rewrite bool_decide_eq_false_2).
    cbn [total foldr] in Ht. fold (total ps) in Ht. rewrite Tp in *.
    destruct (IH ltac:(lia) w (c + 0) (S i) ltac:(lia)) as (j & E & Hj & R & N).
    exists (S j). rewrite E. split; [f_equal; lia|]. split; [simpl; lia|]. split; [done|].
    intros [|h] Hh; [done|]. apply N. lia.
Qed.


(** C27 A scheduling round with runnable processes switches to one of
    them, made RUNNING with its lock held and as the current process, and
    releases the lock when the process switches back; for a draw that is not
    negative it is the process whose ticket was drawn. *)
Theorem scheduler_round_runs s : at_scheduler s -> 0 < total (k_procs s) ->
  exists i k, scheduler_round s = Switch (dispatched i (drawn s)) k /\ (i < NPROC)%nat /\
    p_state (nth i (k_procs s) zero_proc) = RUNNABLE /\
    (0 <= next_rand s ->
     let ticket := next_rand s mod total (k_procs s) in
     let before := total (take i (k_procs s)) in
     before <= ticket < before + tickets (nth i (k_procs s) zero_proc)) /\
    (forall s2, lk_held (LProc i) s2 -> k s2 = Ret tt (after_run i s2)).
Proof.
  intros A Ht. pose proof (scheduler_round_spec s A Ht) as Sp. destruct A as [A1 A2 A3 [F T]].
  set (w := crem (next_rand s) (total (k_procs s))) in *.
  assert (w < total (k_procs s)) as Hw by (pose proof (Z.rem_bound_abs (next_rand s) (total (k_procs s))); unfold w, crem; lia).
  assert (exists i, pick (k_procs s) w 0 0 = Some i /\ (i < NPROC)%nat /\
    p_state (nth i (k_procs s) zero_proc) = RUNNABLE) as (i & E & Hi & R).
  { destruct (decide (w <= 0)).
    - destruct (pick_first (k_procs s) F Ht w 0 0 ltac:(lia)) as (j & E & Hj & R & _). exists j.
      split; [done|]. split; [lia|done].
    - destruct (pick_some (k_procs s) F w 0 0) as (j & E & Hj & R); [lia|]. exists j.
      split; [done|]. split; [lia|done]. }
  rewrite E in Sp. destruct Sp as (k & Es & Hk). exists i, k.
  split; [done|]. split; [done|]. split; [done|]. split; [|done]. intros Hr. simpl.
  apply (pick_interval (k_procs s) F) in E.
  - rewrite Nat.sub_0_r in E. unfold w, crem in E. rewrite Z.rem_mod_nonneg in E by lia. lia.
  - unfold w, crem. by apply Z.rem_nonneg; [lia|].
Qed.

(** C40 When random() is negative, which its truncation to int makes
    it for every state of the generator with bit 31 set, the round runs the
    first runnable process of the table whatever the tickets are. *)
Theorem scheduler_negative_draw s : at_scheduler s -> 0 < total (k_procs s) -> next_rand s < 0 ->
  exists i k, scheduler_round s = Switch (dispatched i (drawn s)) k /\
    p_state (nth i (k_procs s) zero_proc) = RUNNABLE /\
    forall h, (h < i)%nat -> p_state (nth h (k_procs s) zero_proc) <> RUNNABLE.
Proof.
  intros A Ht Hr. pose proof (scheduler_round_spec s A Ht) as Sp. destruct A as [A1 A2 A3 [F T]].
  assert (crem (next_rand s) (total (k_procs s)) <= 0) as Hw by (unfold crem; apply Z.rem_nonpos; lia).
  destruct (pick_first (k_procs s) F Ht _ 0 0 Hw) as (j & E & Hj & R & N). simpl in E.
  rewrite E in Sp. destruct Sp as (k & Es & _). exists j, k. auto.
Qed.

(** Two runnable processes, with 10 and 30 tickets, in entries 2 and 5. *)
Definition demo_procs : list proc :=
  <[2%nat := set_p_tickets 10 (set_p_state RUNNABLE zero_proc)]>
    (<[5%nat := set_p_tickets 30 (set_p_state RUNNABLE zero_proc)]> (replicate NPROC zero_proc)).

Lemma demo_tickets : tickets_ok demo_procs.
Proof.
  split; [|vm_compute; done]. unfold demo_procs. repeat apply Forall_insert; try done.
  by apply Forall_replicate.
Qed.

Definition demo (r : Z) : kstate := set_k_rand r (set_k_procs demo_procs bss).

Lemma demo_at_scheduler r : at_scheduler (demo r).
Proof. split; [done|intros; apply lookup_empty|done|apply demo_tickets]. Qed.


Lemma scheduler_round_runs_witness : exists k, scheduler_round (demo 1) = Switch (dispatched 5 (drawn (demo 1))) k.
Proof.
  destruct (scheduler_round_runs (demo 1) (demo_at_scheduler 1)) as (i & k & E & Hi & R & Hd & _).
  { vm_compute. reflexivity. }
  assert (i = 5%nat) as ->.
  { specialize (Hd ltac:(vm_compute; done)). destruct (decide (i = 2%nat)) as [->|]; [destruct Hd as [_ Hd]; vm_compute in Hd; discriminate Hd|].
    unfold demo, demo_procs in R. cbn [k_procs set_k_rand set_k_procs] in R.
    destruct (decide (i = 5%nat)) as [->|]; [done|exfalso].
    rewrite nth_lookup, !list_lookup_insert_ne in R by done.
    destruct (replicate NPROC zero_proc !! i) eqn:Ei; [|done].
    apply lookup_replicate in Ei as [-> _]. done. }
  exists k. exact E.
Defined.

Lemma scheduler_negative_draw_witness :
  next_rand (demo 1000) = -1616538073 /\
  exists k, scheduler_round (demo 1000) = Switch (dispatched 2 (drawn (demo 1000))) k.
Proof.
  split; [reflexivity|].
  destruct (scheduler_negative_draw (demo 1000) (demo_at_scheduler 1000)) as (i & k & E & R & N).
  { vm_compute. reflexivity. } { vm_compute. reflexivity. }
  assert (i = 2%nat) as ->.
  { destruct (decide (i < 2)%nat) as [H|H].
    - exfalso. destruct i as [|[|i]]; [vm_compute in R; discriminate R|vm_compute in R; discriminate R|lia].
    - destruct (decide (i = 2%nat)); [done|]. exfalso. apply (N 2%nat); [lia|]. vm_compute. reflexivity. }
  exists k. exact E.
Defined.
