(* ===== verification/Lottery.v ===== *)
(** * The lottery over time (kernel/proc.c)

    random() is a linear congruential generator.  Its low 32 bits, the only
    ones the scheduler looks at, run through all 2^32 values before they
    repeat; so a runnable process cannot be passed over for ever, whatever
    the seed is and although half of the draws ignore the tickets. *)

From S2P Require Import Prelude Riscv Memory KState KMonad Spinlock Kalloc Vm Proc ProcSpec.

(** ** The period of a linear congruential generator modulo a power of two *)

Section Period.
Context (a c : Z).
Hypothesis a_mod : a mod 4 = 1.
Hypothesis c_odd : Z.odd c = true.

Definition lcg (x : Z) : Z := a * x + c.

(** [1 + a + ... + a^(n-1)]. *)
Fixpoint geo (n : nat) : Z := match n with O => 0 | S n' => 1 + a * geo n' end.

Lemma geo_pow n : geo n * (a - 1) = a ^ Z.of_nat n - 1.
Proof. induction n as [|n IH]; [done|]. rewrite Nat2Z.inj_succ, Z.pow_succ_r by lia. cbn [geo]. nia. Qed.

Lemma geo_add n m : geo (n + m) = geo n + a ^ Z.of_nat n * geo m.
Proof.
  induction n as [|n IH]; [cbn [Nat.add geo]; lia|]. rewrite Nat2Z.inj_succ, Z.pow_succ_r by lia. cbn [Nat.add geo]. rewrite IH. ring.
Qed.

Lemma lcg_iter n x : Nat.iter n lcg x = a ^ Z.of_nat n * x + c * geo n.
Proof.
  induction n as [|n IH]; [cbn; lia|]. rewrite Nat2Z.inj_succ, Z.pow_succ_r by lia. cbn [Nat.iter geo]. unfold Nat.iter in *. cbn.
  rewrite IH. unfold lcg. ring.
Qed.

Lemma lcg_moves n x : Nat.iter n lcg x - x = geo n * ((a - 1) * x + c).
Proof. rewrite lcg_iter. pose proof (geo_pow n). nia. Qed.

Lemma a_pow m : (a ^ Z.of_nat m) mod 4 = 1.
Proof.
  induction m as [|m IH]; [done|]. rewrite Nat2Z.inj_succ, Z.pow_succ_r by lia. by rewrite Zmult_mod, a_mod, IH.
Qed.

Lemma geo_parity n : Z.odd (geo n) = Nat.odd n.
Proof.
  assert (Z.odd a = true) as Oa by (apply Z.odd_spec; exists (2 * (a / 4)); pose proof (Z.div_mod a 4); lia).
  induction n as [|n IH]; [done|]. rewrite Nat.odd_succ, <- Nat.negb_odd, <- IH. cbn [geo]. by rewrite Z.odd_add, Z.odd_mul, Oa.
Qed.

Lemma odd_divide x : Z.odd x = true -> forall k y, (2 ^ Z.of_nat k | x * y) -> (2 ^ Z.of_nat k | y).
Proof.
  intros Ox. induction k as [|k IH]; intros y H; [apply Z.divide_1_l|]. rewrite Nat2Z.inj_succ, Z.pow_succ_r in * by lia.
  assert (Z.even y = true) as Ey.
  { destruct H as [z Hz]. rewrite <- Z.negb_odd. apply (f_equal Z.odd) in Hz. rewrite !Z.odd_mul, Ox in Hz. cbn in Hz. rewrite andb_false_r in Hz. by rewrite Hz. }
  apply Z.even_spec in Ey as [y' ->]. apply Z.mul_divide_mono_l, IH.
  replace (x * (2 * y')) with (2 * (x * y')) in H by ring. by apply Z.mul_divide_cancel_l in H.
Qed.

Lemma geo_divide : forall k n, (2 ^ Z.of_nat k | geo n) -> (2 ^ Z.of_nat k | Z.of_nat n).
Proof.
  induction k as [|k IH]; intros n H; [apply Z.divide_1_l|]. rewrite Nat2Z.inj_succ, Z.pow_succ_r in * by lia.
  assert (Nat.even n = true) as En.
  { rewrite <- Nat.negb_odd, <- geo_parity. destruct H as [z ->]. rewrite !Z.odd_mul. cbn. by rewrite andb_false_r. }
  apply Nat.even_spec in En as [m ->]. rewrite Nat2Z.inj_mul. apply Z.mul_divide_mono_l, IH.
  replace (2 * m)%nat with (m + m)%nat in H by lia. rewrite geo_add in H.
  pose proof (a_pow m) as Am. pose proof (Z.div_mod (a ^ Z.of_nat m) 4) as D. set (u := a ^ Z.of_nat m) in *.
  replace (geo m + u * geo m) with (2 * ((2 * (u / 4) + 1) * geo m)) in H by nia.
  apply Z.mul_divide_cancel_l in H; [|done]. eapply odd_divide; [|exact H]. apply Z.odd_spec. by exists (u / 4).
Qed.

(** The values of a period are all different. *)
Lemma lcg_distinct k x n m : (n < m)%nat -> Z.of_nat m - Z.of_nat n < 2 ^ Z.of_nat k ->
  Nat.iter n lcg x mod 2 ^ Z.of_nat k <> Nat.iter m lcg x mod 2 ^ Z.of_nat k.
Proof.
  intros Hn Hm E. set (y := Nat.iter n lcg x) in *. replace m with ((m - n) + n)%nat in E by lia. rewrite Nat.iter_add in E. fold y in E.
  symmetry in E. apply Z.cong_iff_0 in E. apply Z.mod_divide in E; [|lia]. rewrite lcg_moves, Z.mul_comm in E.
  apply odd_divide, geo_divide in E.
  - apply Z.divide_pos_le in E; lia.
  - rewrite Z.odd_add, Z.odd_mul, c_odd. assert (Z.odd (a - 1) = false) as ->; [|done].
    rewrite <- Z.negb_even. apply negb_false_iff, Z.even_spec. exists (2 * (a / 4)). pose proof (Z.div_mod a 4). lia.
Qed.

(** So each of the [2^k] residues is one of them. *)
Lemma lcg_reaches k x y : 0 <= y < 2 ^ Z.of_nat k ->
  exists n, (Z.of_nat n < 2 ^ Z.of_nat k) /\ Nat.iter n lcg x mod 2 ^ Z.of_nat k = y.
Proof.
  intros Hy. set (M := 2 ^ Z.of_nat k) in *. set (l := map (fun n => Nat.iter n lcg x mod M) (seq 0 (Z.to_nat M))).
  assert (l ≡ₚ seqZ 0 M) as Pm.
  { apply submseteq_length_Permutation.
    - apply NoDup_submseteq.
      + apply NoDup_alt. intros i j v Hi Hj. unfold l in *. rewrite list_lookup_fmap in Hi, Hj.
        apply fmap_Some in Hi as (i' & Hi & Ev). apply fmap_Some in Hj as (j' & Hj & Ev'). apply lookup_seq in Hi as [-> Hi], Hj as [-> Hj].
        destruct (Nat.lt_trichotomy i j) as [L|[L|L]]; [|done|]; exfalso.
        * apply (lcg_distinct k x i j L); [fold M; lia|]. exact (eq_trans (eq_sym Ev) Ev').
        * apply (lcg_distinct k x j i L); [fold M; lia|]. exact (eq_trans (eq_sym Ev') Ev).
      + intros v Hv. apply list_elem_of_fmap in Hv as (i & -> & _). apply elem_of_seqZ. pose proof (Z.mod_pos_bound (Nat.iter i lcg x) M). lia.
    - unfold l. by rewrite length_map, length_seq, length_seqZ. }
  assert (y ∈ l) as Hl by (rewrite Pm; apply elem_of_seqZ; lia).
  apply list_elem_of_fmap in Hl as (n & -> & Hn). apply elem_of_seq in Hn. exists n. split; [lia|done].
Qed.
End Period.

(** ** Rounds *)

Definition next_state (r : Z) : Z := u64 (r * 1664525 + 1013904223).

Lemma next_state_low n r : Nat.iter n next_state r mod 2 ^ 32 = Nat.iter n (lcg 1664525 1013904223) r mod 2 ^ 32.
Proof.
  induction n as [|n IH]; [done|]. rewrite !Nat.iter_succ. unfold next_state at 1, lcg at 1, u64.
  rewrite (Z.mod_mod_divide _ (2 ^ 64) (2 ^ 32)) by by exists (2 ^ 32).
  rewrite <- (Z.add_mod_idemp_l (_ * 1664525)), <- Z.mul_mod_idemp_l, IH, Z.mul_mod_idemp_l, Z.add_mod_idemp_l by lia. f_equal. ring.
Qed.

(** Every value of the low 32 bits comes up within 2^32 draws. *)
Lemma rand_reaches r y : 0 <= y < 2 ^ 31 -> exists n, (Z.of_nat n < 2 ^ 32) /\ s32 (Nat.iter (S n) next_state r) = y.
Proof.
  intros Hy. destruct (lcg_reaches 1664525 1013904223 eq_refl eq_refl 32 (lcg 1664525 1013904223 r) y) as (n & Hn & E); [lia|].
  exists n. split; [done|]. rewrite <- Nat.iter_succ_r in E. change (2 ^ Z.of_nat 32) with (2 ^ 32) in E. rewrite <- next_state_low in E.
  rewrite (s32_eq _ y); [apply s32_small; lia|]. by rewrite E, Z.mod_small by lia.
Qed.

(** One round of the scheduler: a process is dispatched, switches back with
    its lock held, and the scheduler goes on.  Meanwhile the generator is left
    alone and every entry takes part with the tickets it had. *)
Definition turn (i : nat) (s s' : kstate) : Prop :=
  exists k s2, scheduler_round s = Switch (dispatched i (drawn s)) k /\ lk_held (LProc i) s2 /\ k s2 = Ret tt s' /\
    k_rand s2 = k_rand (drawn s) /\ map tickets (k_procs s') = map tickets (k_procs s) /\ at_scheduler s'.

Lemma turn_pick i s s' : at_scheduler s -> 0 < total (k_procs s) -> turn i s s' ->
  pick (k_procs s) (crem (next_rand s) (total (k_procs s))) 0 0 = Some i /\ k_rand s' = next_state (k_rand s) /\
  map tickets (k_procs s') = map tickets (k_procs s) /\ at_scheduler s'.
Proof.
  intros A Ht (k & s2 & E & Hd & Ek & Er & Em & A'). pose proof (scheduler_round_spec s A Ht) as Sp.
  destruct (pick _ _ 0 0) as [j|].
  - destruct Sp as (k' & E' & Hk). rewrite E in E'.
    assert (Some i = Some j) as Ei by exact (f_equal (fun r => match r with Switch x _ => c_proc (k_cpu x) | _ => None end) E').
    assert (k = k') as -> by exact (f_equal (fun r => match r with Switch _ x => x | _ => k end) E').
    injection Ei as <-. rewrite Hk in Ek by done. assert (s' = after_run i s2) as -> by congruence. done.
  - rewrite E in Sp. done.
Qed.

Lemma total_split ps i : Forall (fun p => p.(p_state) = RUNNABLE -> 1 <= p.(p_tickets)) ps -> (i < length ps)%nat ->
  0 <= total (take i ps) /\ total (take i ps) + tickets (nth i ps zero_proc) <= total ps.
Proof.
  intros F Hi. split; [apply total_nonneg, Forall_take, F|].
  assert (ps = take i ps ++ nth i ps zero_proc :: drop (S i) ps) as E .
  { symmetry. apply take_drop_middle. rewrite nth_lookup. by destruct (lookup_lt_is_Some_2 ps i Hi) as [p ->]. }
  pose proof (total_nonneg (drop (S i) ps) (Forall_drop _ _ _ F)). rewrite E at 3. rewrite total_app. cbn [total foldr]. fold (total (drop (S i) ps)). lia.
Qed.

Lemma total_map ps ps' : map tickets ps = map tickets ps' -> total ps = total ps'.
Proof.
  intros E. assert (forall l, total l = foldr Z.add 0 (map tickets l)) as H.
  { induction l as [|p l IH]; [done|]. cbn [total foldr map]. by rewrite <- IH. }
  by rewrite !H, E.
Qed.

(** The states of the rounds. *)
Lemma turns_state (s : nat -> kstate) (who : nat -> nat) : at_scheduler (s 0%nat) -> 0 < total (k_procs (s 0%nat)) ->
  (forall n, turn (who n) (s n) (s (S n))) ->
  forall n, at_scheduler (s n) /\ map tickets (k_procs (s n)) = map tickets (k_procs (s 0%nat)) /\
    k_rand (s n) = Nat.iter n next_state (k_rand (s 0%nat)).
Proof.
  intros A Ht T. induction n as [|n (An & Mn & Rn)]; [done|].
  destruct (turn_pick _ _ _ An ltac:(by rewrite (total_map _ _ Mn)) (T n)) as (_ & R & M & A'). rewrite Nat.iter_succ, <- Rn, R, M. done.
Qed.

(** C13 No process starves.  As long as the runnable processes keep
    their tickets and each one that is dispatched comes back, every runnable
    process of the table is dispatched within 2^32 rounds, whatever the state
    of the generator was. *)
Theorem no_starvation (s : nat -> kstate) (who : nat -> nat) i : at_scheduler (s 0%nat) ->
  (forall n, turn (who n) (s n) (s (S n))) -> p_state (nth i (k_procs (s 0%nat)) zero_proc) = RUNNABLE ->
  exists n, Z.of_nat n < 2 ^ 32 /\ who n = i.
Proof.
  intros A T Hr. set (ps := k_procs (s 0%nat)) in *. pose proof (as_tickets _ A) as [F Hm]. pose proof (as_procs _ A) as Lp. fold ps in F, Hm, Lp.
  assert (i < length ps)%nat as Hi.
  { destruct (decide (i < length ps)%nat); [done|]. rewrite nth_overflow in Hr by lia. done. }
  assert (1 <= tickets (nth i ps zero_proc)) as Ti.
  { unfold tickets. rewrite bool_decide_eq_true_2 by done. rewrite Forall_forall in F. apply F; [|done]. apply list_elem_of_In, nth_In, Hi. }
  destruct (total_split ps i F Hi) as (B0 & B1).
  destruct (rand_reaches (k_rand (s 0%nat)) (total (take i ps))) as (n & Hn & E); [lia|]. exists n. split; [done|].
  destruct (turns_state s who A ltac:(fold ps; lia) T n) as (An & Mn & Rn). fold ps in Mn.
  destruct (turn_pick _ _ _ An ltac:(rewrite (total_map _ _ Mn); lia) (T n)) as (Pk & _).
  unfold next_rand in Pk. fold (next_state (k_rand (s n))) in Pk. rewrite Rn, <- Nat.iter_succ, E, (total_map _ _ Mn) in Pk.
  unfold crem in Pk. rewrite Z.rem_small in Pk by lia. apply (pick_interval _ (proj1 (as_tickets _ An))) in Pk; [|lia]. rewrite Nat.sub_0_r in Pk.
  destruct Pk as [Lw Pk]. set (w := who n) in *. clearbody w. apply (f_equal length) in Mn as Ln. rewrite !length_map in Ln.
  rewrite (total_map _ (take w ps)) in Pk by (by rewrite <- !firstn_map, Mn).
  assert (tickets (nth w (k_procs (s n)) zero_proc) = tickets (nth w ps zero_proc)) as Ew by (by rewrite <- (map_nth tickets (k_procs (s n))), <- (map_nth tickets ps), Mn).
  rewrite Ew in Pk. assert (Some w = Some i) as Ej; [|congruence].
  transitivity (pick ps (total (take i ps)) 0 0); [symmetry|]; apply (pick_interval _ F); rewrite ?Nat.sub_0_r; lia.
Qed.

(** Two processes with 10 and 30 tickets that always come back. *)
Definition demo_rand (n : nat) : Z := Nat.iter n next_state 1.
Definition demo_who (n : nat) : nat := default 0%nat (pick demo_procs (crem (next_rand (demo (demo_rand n))) 40) 0 0).

Lemma demo_turn n : turn (demo_who n) (demo (demo_rand n)) (demo (demo_rand (S n))).
Proof.
  set (r := demo_rand n). assert (demo_rand (S n) = next_state r) as -> by apply Nat.iter_succ.
  pose proof (scheduler_round_spec (demo r) (demo_at_scheduler r) ltac:(vm_compute; done)) as Sp.
  change (total (k_procs (demo r))) with 40 in Sp. change (k_procs (demo r)) with demo_procs in Sp. unfold demo_who. fold r.
  destruct (pick _ _ 0 0) as [i|] eqn:E.
  - destruct Sp as (k & Er & Hk). set (s' := demo (next_state r)).
    set (s2 := set_k_cpu (set_c_proc (Some i) (k_cpu (acq (LProc i) s'))) (acq (LProc i) s')).
    assert (lk_free (LProc i) s') as Fl by (split; [by split|apply lookup_empty]).
    assert (lk_held (LProc i) s2) as Hd by (apply (acq_held (LProc i) s'), Fl).
    exists k, s2. split_and!; [done|done| |done..|apply demo_at_scheduler]. rewrite Hk by done. f_equal.
    change (after_run i s2) with (rel (LProc i) (acq (LProc i) s')). by rewrite rel_acq.
  - exfalso. destruct demo_tickets as [F _]. assert (total demo_procs = 40) as Et by reflexivity. set (w := crem _ 40) in *.
    assert (w < 40) as Hw by (pose proof (Z.rem_bound_abs (next_rand (demo r)) 40); unfold w, crem; lia).
    destruct (decide (w <= 0)).
    + destruct (pick_first demo_procs F ltac:(lia) w 0 0 ltac:(lia)) as (j & Ej & _). congruence.
    + destruct (pick_some demo_procs F w 0 0 ltac:(lia)) as (j & Ej & _). congruence.
Qed.

Lemma no_starvation_witness : exists n, Z.of_nat n < 2 ^ 32 /\ demo_who n = 5%nat.
Proof.
  apply (no_starvation (fun n => demo (demo_rand n)) demo_who 5); [apply demo_at_scheduler|apply demo_turn|reflexivity].
Defined.
