(* ===== verification/SleepSpec.v ===== *)
(** * sleep() and wakeup() (kernel/proc.c)

    The two halves of sleep(), before and after the switch, and the machine of
    a sleeper and a waker interleaved at every lock operation, in which no
    wakeup is lost. *)

From S2P Require Import Prelude Riscv Memory KState KMonad Spinlock Kalloc Vm Proc ProcSpec.

Lemma ksettle_nested s : c_noff (k_cpu s) <> 0 -> ksettle s = s.
Proof. intros H. unfold ksettle, settle. by destruct (Z.eqb_spec (c_noff (k_cpu s)) 0). Qed.

Lemma c_id_settle c : c_id (settle c) = c_id c.
Proof. unfold settle. by destruct (c_noff c =? 0). Qed.

Lemma curproc_eq s i : cpu_ok (k_cpu s) -> c_proc (k_cpu s) = Some i ->
  curproc s = Ret (i, nth i (k_procs s) zero_proc) (ksettle s).
Proof.
  intros C E. unfold curproc. rewrite (bind_ret _ _ _ _ _ (myproc_eq s C)), E. by kstep.
Qed.

(** The state in which a thread that sleeps on [ch] gives up the CPU: it is
    SLEEPING on [ch], [lk] is free and its own lock is held. *)
Definition asleep (ch : chan) (lk : lockid) (i : nat) (s : kstate) : kstate :=
  set_k_procs (<[i := set_p_state SLEEPING (set_p_chan (Some ch) (nth i (k_procs s) zero_proc))]> (k_procs s))
    (set_k_locks (delete lk (<[LProc i := c_id (k_cpu s)]> (k_locks s))) s).

(** The state in which it goes on, when the scheduler switches back in [s]. *)
Definition awake (lk : lockid) (i : nat) (intena : bool) (s : kstate) : kstate :=
  acq lk (rel (LProc i)
    (set_k_procs (<[i := set_p_chan None (nth i (k_procs s) zero_proc)]> (k_procs s))
      (set_k_cpu (set_c_intena intena (k_cpu s)) s))).

(** A thread runs with one lock held, as before sleep() and sched(). *)
Record one_lock (lk : lockid) (i : nat) (s : kstate) : Prop := {
  ol_held : lk_held lk s;
  ol_noff : c_noff (k_cpu s) = 1;
  ol_proc : c_proc (k_cpu s) = Some i;
  ol_index : (i < length (k_procs s))%nat;
}.

Lemma one_lock_cpu_ok lk i s : one_lock lk i s -> cpu_ok (k_cpu s).
Proof. intros [(_ & H & _) N _ _]. split; [lia|done]. Qed.

Lemma one_lock_settled lk i s : one_lock lk i s -> ksettle s = s.
Proof. intros [_ N _ _]. apply ksettle_nested. lia. Qed.

Lemma sched_spec i s : one_lock (LProc i) i s -> p_state (nth i (k_procs s) zero_proc) <> RUNNING ->
  sched s = Switch s (fun s' => Ret tt (set_k_cpu (set_c_intena (c_intena (k_cpu s)) (k_cpu s')) s')).
Proof.
  intros O N. pose proof (one_lock_cpu_ok _ _ _ O) as C. pose proof (one_lock_settled _ _ _ O) as Se.
  destruct O as [(H1 & H2 & H3) Hn Hp Hi]. unfold sched.
  rewrite (bind_ret _ _ _ _ _ (curproc_eq s i C Hp)), Se. unfold holding, mycpu, intr_get. kstep.
  rewrite bool_decide_eq_true_2 by done. cbn [negb]. kstep. rewrite Hn. change (1 =? 1) with true; cbn [negb].
  rewrite bool_decide_eq_false_2 by done. cbv iota. kstep. rewrite H2. cbv iota. kstep. done.
Qed.

Lemma sched_needs_lock i s : cpu_ok (k_cpu s) -> c_proc (k_cpu s) = Some i ->
  k_locks s !! LProc i <> Some (c_id (k_cpu s)) -> sched s = Panic "sched p->lock" (ksettle s).
Proof.
  intros C Hp H. unfold sched. rewrite (bind_ret _ _ _ _ _ (curproc_eq s i C Hp)). unfold holding. kstep.
  rewrite bool_decide_eq_false_2; [done|]. unfold ksettle. simpl. by rewrite c_id_settle.
Qed.

Lemma sleep_spec ch lk i s : one_lock lk i s -> k_locks s !! LProc i = None -> lk <> LProc i ->
  exists k, sleep ch lk s = Switch (asleep ch lk i s) k /\
    forall s2, one_lock (LProc i) i s2 -> k_locks s2 !! lk = None ->
      k s2 = Ret tt (awake lk i (c_intena (k_cpu s)) s2).
Proof.
  intros O F N. pose proof (one_lock_cpu_ok _ _ _ O) as C. pose proof (one_lock_settled _ _ _ O) as Se.
  destruct O as [(H1 & H2 & H3) Hn Hp Hi]. unfold sleep.
  rewrite (bind_ret _ _ _ _ _ (curproc_eq s i C Hp)), Se.
  rewrite (bind_ret _ _ _ _ _ (acquire_eq _ s (conj C F))).
  set (a := acq (LProc i) s).
  assert (c_id (k_cpu a) = c_id (k_cpu s)) as Eid by (unfold a, acq, kpush, push; simpl; by destruct (c_noff (k_cpu s) =? 0)).
  assert (lk_held lk a) as Ha.
  { split; [|split; [done|unfold a, acq, kpush, push; simpl; lia]]. rewrite Eid. unfold a, acq. simpl.
    by rewrite lookup_insert_ne. }
  rewrite (bind_ret _ _ _ _ _ (release_eq lk a Ha)). unfold updproc. kstep. kstep.
  match goal with |- context [(sched ≫= ?f) ?x] => set (k1 := f); set (sx := x) end.
  assert (sx = asleep ch lk i s) as ->.
  { assert (rel lk a = set_k_locks (delete lk (<[LProc i := c_id (k_cpu s)]> (k_locks s))) s) as Er.
    { unfold rel, a, acq, kpush, kpop, set_k_locks, set_k_cpu. cbn [k_cpu k_locks k_mem k_kmem k_procs].
      rewrite settle_pop_push by done. unfold settle. by rewrite Hn. }
    unfold sx. rewrite Er. unfold asleep. cbn [k_procs set_k_procs set_k_locks].
    rewrite list_insert_insert_eq, nth_lookup, list_lookup_insert_eq by done. done. }
  assert (one_lock (LProc i) i (asleep ch lk i s)) as O1.
  { split; [|done|done|simpl; by rewrite length_insert]. split; [|done]. simpl.
    rewrite lookup_delete_ne by done. apply lookup_insert_eq. }
  rewrite (bind_switch _ _ _ _ _ (sched_spec i _ O1 ltac:(simpl; rewrite nth_lookup, list_lookup_insert_eq by done; done))).
  eexists. split; [done|]. intros s2 [G1 Gn Gp Gi] F2. cbn [res_bind]. unfold k1. kstep.
  erewrite bind_ret by (apply release_eq; exact G1).
  rewrite acquire_eq; [done|]. split.
  - destruct G1 as (J1 & J2 & J3). unfold rel, kpop, pop. simpl. rewrite Gn. simpl.
    split; [by case_if|]. case_if; simpl; lia.
  - simpl. rewrite lookup_delete_ne by done. done.
Qed.

(** sleep() gives up the condition lock and falls asleep without a
    gap a wakeup could be lost in: it switches away with the condition lock
    free only once the process is SLEEPING on the channel, and with the process
    lock, which wakeup() takes, still held.  Any later wakeup() on the channel
    by another process makes it RUNNABLE, and when it is switched back to,
    sleep() returns with the condition lock held, the process lock free and no
    channel. *)
Theorem sleep_wakeup ch lk i s : one_lock lk i s -> k_locks s !! LProc i = None -> lk <> LProc i ->
  exists k s1, sleep ch lk s = Switch s1 k /\
    k_locks s1 !! lk = None /\ k_locks s1 !! LProc i = Some (c_id (k_cpu s)) /\
    sleeping_on ch (nth i (k_procs s1) zero_proc) = true /\
    (forall s', plocks_free s' -> length (k_procs s') = NPROC -> c_proc (k_cpu s') <> Some i ->
       nth i (k_procs s') zero_proc = nth i (k_procs s1) zero_proc -> (i < NPROC)%nat ->
       exists s'', wakeup ch s' = Ret tt s'' /\ p_state (nth i (k_procs s'') zero_proc) = RUNNABLE) /\
    (forall s2, one_lock (LProc i) i s2 -> k_locks s2 !! lk = None ->
       exists s3, k s2 = Ret tt s3 /\ lk_held lk s3 /\ k_locks s3 !! LProc i = None /\
         p_chan (nth i (k_procs s3) zero_proc) = None).
Proof.
  intros O F N. destruct (sleep_spec ch lk i s O F N) as (k & E & Hk).
  exists k, (asleep ch lk i s). split; [done|].
  assert (nth i (k_procs (asleep ch lk i s)) zero_proc =
          set_p_state SLEEPING (set_p_chan (Some ch) (nth i (k_procs s) zero_proc))) as Ea.
  { simpl. by rewrite nth_lookup, list_lookup_insert_eq by apply O. }
  split; [apply lookup_delete_eq|]. split.
  { simpl. rewrite lookup_delete_ne by done. apply lookup_insert_eq. }
  assert (sleeping_on ch (nth i (k_procs (asleep ch lk i s)) zero_proc) = true) as Sl.
  { rewrite Ea. unfold sleeping_on. simpl. by rewrite !bool_decide_eq_true_2. }
  split; [done|]. split.
  - intros s' P Hl Hc En Hi. eexists. split; [by apply wakeup_spec|].
    cbn [k_procs set_k_procs]. unfold wake_all. rewrite nth_imap by lia.
    rewrite bool_decide_eq_false_2 by done. unfold wake. rewrite En, Sl. done.
  - intros s2 O2 F2. exists (awake lk i (c_intena (k_cpu s)) s2). split; [by apply Hk|].
    destruct O2 as [(G1 & G2 & G3) Gn Gp Gi].
    split; [apply acq_held|].
    + unfold rel, kpop, pop. simpl. rewrite Gn. simpl. split; [by case_if|]. case_if; simpl; lia.
    + split; [|unfold awake; simpl; by rewrite nth_lookup, list_lookup_insert_eq by done].
      unfold awake, acq, rel. simpl. rewrite lookup_insert_ne by done. apply lookup_delete_eq.
Qed.

(** ** No lost wakeup

    One thread waits for a condition as every caller of sleep() does,
    [while(!cond) sleep(chan, lk)], and any number of threads set the condition
    and call wakeup(chan), all with [lk] held.  Steps are single lock
    operations and state changes of sleep() and wakeup(), of any thread in any
    order. *)

Module Handoff.

Inductive who := Sleeper | Waker (n : nat).

Inductive spc :=
| SOut          (** not holding [lk] *)
| STest         (** holds [lk], tests the condition *)
| SBoth         (** in sleep(), acquired p->lock *)
| SReleased     (** released [lk] *)
| SMarked       (** p->chan and p->state set, about to switch *)
| SOff          (** switched out, the scheduler released p->lock *)
| SBack.        (** switched back to, p->lock held *)

Inductive wpc :=
| WOut
| WIn           (** holds [lk] *)
| WSet          (** made the condition true, about to call wakeup() *)
| WLocked       (** in wakeup(), acquired p->lock *)
| WDone.        (** released p->lock *)

Record st := mk_st {
  cond : bool;
  lk : option who;
  pl : option who;
  pstate : procstate;
  sp : spc;
  wp : nat -> wpc;
}.

#[export] Instance who_eq_dec : EqDecision who.
Proof. solve_decision. Defined.

Definition wgoto (n : nat) (p : wpc) (f : nat -> wpc) : nat -> wpc :=
  fun m => if decide (m = n) then p else f m.

Inductive step : st -> st -> Prop :=
| s_lock c p ps w : step (mk_st c None p ps SOut w) (mk_st c (Some Sleeper) p ps STest w)
| s_proceed p ps w : step (mk_st true (Some Sleeper) p ps STest w) (mk_st false None p ps SOut w)
| s_sleep ps w : step (mk_st false (Some Sleeper) None ps STest w) (mk_st false (Some Sleeper) (Some Sleeper) ps SBoth w)
| s_release c p ps w : step (mk_st c (Some Sleeper) p ps SBoth w) (mk_st c None p ps SReleased w)
| s_mark c l p ps w : step (mk_st c l p ps SReleased w) (mk_st c l p SLEEPING SMarked w)
| s_switch c l ps w : step (mk_st c l (Some Sleeper) ps SMarked w) (mk_st c l None ps SOff w)
| s_run c l w : step (mk_st c l None RUNNABLE SOff w) (mk_st c l (Some Sleeper) RUNNING SBack w)
| s_return c l ps w : step (mk_st c l (Some Sleeper) ps SBack w) (mk_st c l None ps SOut w)
| w_lock n c p ps s w : w n = WOut ->
    step (mk_st c None p ps s w) (mk_st c (Some (Waker n)) p ps s (wgoto n WIn w))
| w_set n c l p ps s w : w n = WIn ->
    step (mk_st c l p ps s w) (mk_st true l p ps s (wgoto n WSet w))
| w_leave n c p ps s w : w n = WIn ->
    step (mk_st c (Some (Waker n)) p ps s w) (mk_st c None p ps s (wgoto n WOut w))
| w_lock_p n c l ps s w : w n = WSet ->
    step (mk_st c l None ps s w) (mk_st c l (Some (Waker n)) ps s (wgoto n WLocked w))
| w_wake n c l ps s w : w n = WLocked ->
    step (mk_st c l (Some (Waker n)) ps s w)
         (mk_st c l None (if decide (ps = SLEEPING) then RUNNABLE else ps) s (wgoto n WDone w))
| w_unlock n c p ps s w : w n = WDone ->
    step (mk_st c (Some (Waker n)) p ps s w) (mk_st c None p ps s (wgoto n WOut w)).

Definition init : st := mk_st false None None RUNNING SOut (fun _ => WOut).

(** A waker that set the condition and has not yet looked at the sleeper. *)
Definition pending (x : st) : Prop := exists n, wp x n = WSet \/ wp x n = WLocked.

Record inv (x : st) : Prop := {
  iv_slk : lk x = Some Sleeper <-> (sp x = STest \/ sp x = SBoth);
  iv_wlk n : lk x = Some (Waker n) <-> wp x n <> WOut;
  iv_spl : pl x = Some Sleeper <-> (sp x = SBoth \/ sp x = SReleased \/ sp x = SMarked \/ sp x = SBack);
  iv_wpl n : pl x = Some (Waker n) <-> wp x n = WLocked;
  iv_marked : sp x = SMarked -> pstate x = SLEEPING;
  iv_off : sp x = SOff -> pstate x = SLEEPING \/ pstate x = RUNNABLE;
  iv_both : sp x = SBoth -> cond x = false;
  iv_cond : cond x = true -> (sp x = SReleased \/ sp x = SMarked \/ (sp x = SOff /\ pstate x = SLEEPING)) -> pending x;
}.

Lemma wgoto_eq n p f : wgoto n p f n = p.
Proof. unfold wgoto. by rewrite decide_True. Qed.

Lemma wgoto_ne n p f m : m <> n -> wgoto n p f m = f m.
Proof. intros. unfold wgoto. by rewrite decide_False. Qed.

(** A pending waker stays pending when another one moves. *)
Lemma pending_wgoto c l p ps s w c' l' p' ps' s' n q : pending (mk_st c l p ps s w) ->
  w n <> WSet -> w n <> WLocked -> pending (mk_st c' l' p' ps' s' (wgoto n q w)).
Proof.
  intros [m Hm] A B. exists m. simpl in *. rewrite wgoto_ne; [done|]. intros ->. tauto.
Qed.

Lemma pending_same c l p ps s w c' l' p' ps' s' : pending (mk_st c l p ps s w) ->
  pending (mk_st c' l' p' ps' s' w).
Proof. done. Qed.

Lemma inv_init : inv init.
Proof. split; simpl; try done; intuition congruence. Qed.

Ltac hand :=
  repeat match goal with
  | |- context [wgoto ?n ?q ?w ?m] =>
      destruct (decide (m = n)) as [->|]; [rewrite (wgoto_eq n q w)|rewrite (wgoto_ne n q w m) by done]
  end;
  try (intuition congruence).

Lemma inv_step x y : inv x -> step x y -> inv y.
Proof.
  intros [A1 A2 A3 A4 A5 A6 A7 A8] S. destruct S; simpl in *.
  all: try (match goal with H : ?w ?n = _ |- _ => pose proof (A2 n); pose proof (A4 n); rewrite H in * end).
  all: split; simpl; try done;
    try (intros m; pose proof (A2 m); pose proof (A4 m); hand; fail); try (hand; fail).
  - intros Hc Hs. eapply pending_wgoto; [by apply A8|congruence|congruence].
  - intros _ _. exists n. left. apply wgoto_eq.
  - intros Hc Hs. eapply pending_wgoto; [by apply A8|congruence|congruence].
  - intros _ _. exists n. right. apply wgoto_eq.
  - destruct (decide (ps = SLEEPING)); intuition congruence.
  - intros Hc Hs. exfalso. destruct (decide (ps = SLEEPING)); intuition congruence.
  - intros Hc Hs. eapply pending_wgoto; [by apply A8|congruence|congruence].
Qed.


End Handoff.

(** Process 4 about to sleep on the clock, with the ticks lock held. *)
Definition ticks_sleeper : kstate :=
  set_k_locks {[LTicks := 0]} (set_k_cpu (mk_cpu 0 (Some 4%nat) 1 true false) bss).

Lemma sleep_wakeup_witness : exists k s1,
  sleep ChTicks LTicks ticks_sleeper = Switch s1 k /\
  sleeping_on ChTicks (nth 4 (k_procs s1) zero_proc) = true.
Proof.
  destruct (sleep_wakeup ChTicks LTicks 4 ticks_sleeper) as (k & s1 & E & _ & _ & Sl & _ & _).
  - split; [|done|done|vm_compute; lia]. split; [apply lookup_singleton_eq|]. split; [done|simpl; lia].
  - apply lookup_singleton_ne. done.
  - done.
  - exists k, s1. auto.
Defined.
