(* ===== verification/Turn.v ===== *)
(** * Critical sections that sleep

    Code that runs with one spin lock held and may give it up in sleep(), as
    the disk driver and pipes do: the states inside and outside the section, a
    process that has its turn in it, and how a turn is suspended and resumed. *)

From S2P Require Import Prelude Riscv Memory KState KMonad Spinlock Kalloc Vm Proc ProcSpec SleepSpec.

(** A lock that is not the lock of a process. *)
Class SectionLock (lk : lockid) : Prop := section_lock i : lk <> LProc i.

Section Turn.
Context {lk : lockid} {SL : SectionLock lk}.

Record in_section (s : kstate) : Prop := {
  in_held : lk_held lk s;
  in_free : plocks_free s;
  in_len : length (k_procs s) = NPROC;
}.

Record out_section (s : kstate) : Prop := {
  ou_lock : k_locks s !! lk = None;
  ou_free : plocks_free s;
  ou_len : length (k_procs s) = NPROC;
}.

Record turn (i : nat) (s : kstate) : Prop := {
  tu_inside : in_section s;
  tu_one : one_lock lk i s;
  tu_free : k_locks s !! LProc i = None;
}.

(** The scheduler has switched back to process [i], and the lock is free. *)
Definition back (i : nat) (s : kstate) : Prop :=
  one_lock (LProc i) i s /\ k_locks s !! lk = None.

(** Process [i] runs outside all critical sections. *)
Record at_large (i : nat) (s : kstate) : Prop := {
  re_out : out_section s;
  re_noff : c_noff (k_cpu s) = 0;
  re_proc : c_proc (k_cpu s) = Some i;
  re_free : k_locks s !! LProc i = None;
  re_lt : (i < NPROC)%nat;
}.

Lemma inside_settled s : in_section s -> ksettle s = s.
Proof. intros [(_ & _ & H) _ _]. apply ksettle_nested. lia. Qed.

Lemma inside_frame s s' : k_cpu s' = k_cpu s -> k_locks s' = k_locks s -> length (k_procs s') = length (k_procs s) ->
  in_section s -> in_section s'.
Proof. intros H1 H2 H3 [I1 I2 I3]. split; [unfold lk_held|unfold plocks_free|]; rewrite ?H1, ?H2, ?H3; done. Qed.

Lemma outside_acq s : out_section s -> in_section (acq lk s).
Proof.
  intros [H1 [H2 H3] H4]. split; [by apply acq_held| |done]. split; [by apply cpu_ok_push|]. intros i Hi.
  unfold acq. cbn [k_locks set_k_locks]. rewrite lookup_insert_ne by apply SL. apply H3.
  intros E. apply Hi. cbn. unfold push. by destruct (c_noff (k_cpu s) =? 0).
Qed.

(** ** wakeup() with the lock held *)

Definition wk (ch : chan) (s : kstate) : kstate := set_k_procs (wake_all (c_proc (k_cpu s)) ch (k_procs s)) s.

Lemma wakeup_inside ch s : in_section s -> wakeup ch s = Ret tt (wk ch s).
Proof. intros I. rewrite wakeup_spec by apply I. by rewrite inside_settled. Qed.

Lemma wk_len ch s : length (k_procs (wk ch s)) = length (k_procs s).
Proof. unfold wk, wake_all. cbn. apply length_imap. Qed.

Lemma inside_wk ch s : in_section s -> in_section (wk ch s).
Proof. apply inside_frame; [done|done|apply wk_len]. Qed.

(** ** A turn *)

Lemma turn_frame i s s' : k_cpu s' = k_cpu s -> k_locks s' = k_locks s -> length (k_procs s') = length (k_procs s) ->
  turn i s -> turn i s'.
Proof.
  intros H1 H2 H3 [I [O1 O2 O3 O4] F]. split; [by apply (inside_frame s)| |by rewrite H2].
  split; [apply (inside_frame s s' H1 H2 H3 I)|by rewrite H1|by rewrite H1|lia].
Qed.

Lemma turn_awake i ie s : back i s -> plocks_free s -> length (k_procs s) = NPROC -> turn i (awake lk i ie s).
Proof.
  intros [[(H1 & H2 & H3) Hn Hp Hi] Hv] [Hc Hf] Hl. unfold awake. set (s1 := rel (LProc i) _).
  assert (c_noff (k_cpu s1) = 0 /\ c_proc (k_cpu s1) = Some i /\ cpu_ok (k_cpu s1)) as (N1 & P1 & K1).
  { unfold s1, rel, kpop, pop, cpu_ok. cbn. rewrite Hn. cbn. destruct ie; cbn; rewrite ?Hn; split_and!; try done; lia. }
  assert (forall l, l <> LProc i -> k_locks s1 !! l = k_locks s !! l) as Lk by (intros l N; apply (lookup_delete_ne (k_locks s)); done).
  assert (k_locks s1 !! LProc i = None) as Li by apply lookup_delete_eq. pose proof (SL i) as Ni.
  assert (out_section s1) as Ho.
  { split; [by rewrite Lk| |cbn; by rewrite length_insert]. split; [done|]. intros j Hj. rewrite Lk; [|congruence]. apply Hf. congruence. }
  split; [by apply outside_acq| |cbn; rewrite lookup_insert_ne by done; exact Li].
  split; [apply (outside_acq s1 Ho)| | |].
  - change (c_noff (k_cpu s1) + 1 = 1). lia.
  - change (c_proc (push (k_cpu s1)) = Some i). unfold push. rewrite N1. exact P1.
  - cbn. rewrite length_insert. done.
Qed.

(** sleep() in a turn: the rest of the call goes on from [awake]. *)
Lemma turn_sleep {B C} ch i s (m : K B) (f : B -> K C) : turn i s ->
  exists k, ((sleep ch lk ;; m) ≫= f) s = Switch (asleep ch lk i s) k /\
    exists ie, forall s2, back i s2 -> k s2 = (m ≫= f) (awake lk i ie s2).
Proof.
  intros [I O F]. destruct (sleep_spec ch lk i s O F) as (k & X & Hk); [apply SL|].
  rewrite (bind_switch _ _ _ _ _ (bind_switch _ _ _ _ _ X)). eexists. split; [done|].
  exists (c_intena (k_cpu s)). intros s2 [B1 B2]. by rewrite Hk.
Qed.

Lemma ready_turn i s : at_large i s -> turn i (acq lk s).
Proof.
  intros [Ro Rn Rp Rf Rl]. split; [by apply outside_acq| |cbn; rewrite lookup_insert_ne; [done|apply SL]].
  split; [by apply outside_acq|change (c_noff (k_cpu s) + 1 = 1); lia| |cbn; rewrite (ou_len _ Ro); done].
  change (c_proc (push (k_cpu s)) = Some i). unfold push. by destruct (c_noff (k_cpu s) =? 0).
Qed.

End Turn.
Arguments in_section : clear implicits.
Arguments out_section : clear implicits.
Arguments turn : clear implicits.
Arguments back : clear implicits.
Arguments at_large : clear implicits.
