(* ===== verification/Freewalk.v ===== *)
(** * Freeing an address space (kernel/vm.c, kernel/proc.c)

    freewalk() returns exactly the pages of one page table to the allocator
    and leaves every other table as it was; uvmfree() returns the user pages as
    well; proc_pagetable() and proc_freepagetable() set up and take down the
    page table of a process. *)

From S2P Require Import Prelude Riscv Memory KState KMonad Spinlock Kalloc Vm VmSpec UvmSpec CopySpec Pages Proc.

(** The pages of the table rooted at [r] below the entry [p] of level [l], in
    the order freewalk() frees them. *)
Fixpoint subtree (G : tables) (r : Z) (l : nat) (p : Z) : list Z :=
  match G !! (r, l, p) with
  | None => []
  | Some a =>
      match l with
      | O => []
      | S l' => concat (map (fun i => subtree G r l' (p * 512 + Z.of_nat i)) (seq 0 512))
      end ++ [a]
  end.

Lemma subtree_key G r l : forall p t, t ∈ subtree G r l p ->
  exists l' p', (l' <= l)%nat /\ G !! (r, l', p') = Some t /\ p' / 512 ^ Z.of_nat (l - l') = p.
Proof.
  induction l as [|l IH]; intros p t; cbn [subtree]; destruct (G !! (r, _, p)) as [a|] eqn:E; try by intros ?%elem_of_nil.
  - cbn [app]. intros ->%list_elem_of_singleton. exists 0%nat, p. split; [done|]. split; [done|]. apply Z.div_1_r.
  - intros [H|H]%elem_of_app.
    + apply list_elem_of_In, in_concat in H as (ts & (i & <- & Hi)%in_map_iff & Ht). apply in_seq in Hi. apply list_elem_of_In, IH in Ht as (l' & p' & Hl & Hg & Hp).
      exists l', p'. split; [lia|]. split; [done|]. replace (S l - l')%nat with (S (l - l')) by lia.
      rewrite Nat2Z.inj_succ, Z.pow_succ_r, Z.mul_comm, <- Z.div_div, Hp by lia. Z.div_mod_to_equations. lia.
    + apply list_elem_of_singleton in H as ->. exists (S l), p. split; [done|]. split; [done|]. rewrite Nat.sub_diag. apply Z.div_1_r.
Qed.

Lemma NoDup_concat_map {A} (f : nat -> list A) n : forall i, (forall k, i <= k < i + n -> NoDup (f k))%nat ->
  (forall k k' t, (i <= k < i + n)%nat -> (i <= k' < i + n)%nat -> t ∈ f k -> t ∈ f k' -> k = k') -> NoDup (concat (map f (seq i n))).
Proof.
  induction n as [|n IH]; intros i N D; [apply NoDup_nil_2|]. cbn [seq map concat]. apply NoDup_app. split; [apply N; lia|]. split.
  - intros t Ht H. apply list_elem_of_In, in_concat in H as (ts & (k & <- & Hk)%in_map_iff & Hk'). apply in_seq in Hk.
    apply list_elem_of_In in Hk'. specialize (D i k t ltac:(lia) ltac:(lia) Ht Hk'). lia.
  - apply IH; [intros k Hk; apply N; lia|]. intros k k' t Hk Hk'. apply D; lia.
Qed.

Lemma subtree_nodup m G r l : forest m G -> forall p, NoDup (subtree G r l p).
Proof.
  intros F. induction l as [|l IH]; intros p; cbn [subtree]; destruct (G !! (r, _, p)) as [a|] eqn:E; try apply NoDup_nil_2.
  - apply NoDup_singleton.
  - apply NoDup_app. split; [|split; [|apply NoDup_singleton]].
    + apply NoDup_concat_map; [intros; apply IH|]. intros k k' t _ _ (l1 & p1 & H1 & G1 & E1)%subtree_key (l2 & p2 & H2 & G2 & E2)%subtree_key.
      pose proof (fo_inj _ _ F _ _ _ G1 G2) as [= -> ->]. lia.
    + intros t H ->%list_elem_of_singleton. apply list_elem_of_In, in_concat in H as (ts & (k & <- & _)%in_map_iff & Hk).
      apply list_elem_of_In in Hk. apply subtree_key in Hk as (l1 & p1 & H1 & G1 & _). pose proof (fo_inj _ _ F _ _ _ G1 E) as [= -> _]. lia.
Qed.

Lemma PGROUNDUP_le sz a : page_aligned a -> 0 <= sz <= a -> a < MAXVA -> PGROUNDUP sz <= a.
Proof.
  intros A H Hm. pose proof MAXVA_lt. destruct (PGROUNDUP_bounds sz) as [B C]; [unfold PGSIZE; lia|].
  unfold page_aligned, PGSIZE in *. Z.div_mod_to_equations. lia.
Qed.

Section Freewalk.
Context {L : Layout}.

(** The pages [ts] are in use and still hold what [m0] says. *)
Record ready (m0 : mem) (s : kstate) (fl ts : list Z) : Prop := {
  re_lock : lk_free LKmem s;
  re_kmem : kmem_inv s fl;
  re_used t : t ∈ ts -> t ∉ fl;
  re_same t b : t ∈ ts -> in_page t b -> mget (k_mem s) b = mget m0 b;
}.

(** The pages [ts] are freed, and only bytes of the pages [ws] change. *)
Record freed (s s' : kstate) (fl ts ws : list Z) : Prop := {
  fr_lock : lk_free LKmem s';
  fr_kmem : kmem_inv s' (rev ts ++ fl);
  fr_rest : only_vm s s';
  fr_frame b : (forall t, t ∈ ws -> ~ in_page t b) -> mget (k_mem s') b = mget (k_mem s) b;
}.

Lemma freed_trans s s1 s2 fl t1 t2 ws : freed s s1 fl t1 ws -> freed s1 s2 (rev t1 ++ fl) t2 ws -> freed s s2 fl (t1 ++ t2) ws.
Proof.
  intros [A1 A2 A3 A4] [B1 B2 B3 B4]. split; [done| |by eapply only_vm_trans|].
  - by rewrite rev_app_distr, <- app_assoc.
  - intros b Hb. rewrite B4 by done. by apply A4.
Qed.

Lemma freed_kfree m0 s fl t : ready m0 s fl [t] -> valid_page t -> kfree t s = Ret tt (kfree_state t s) /\ freed s (kfree_state t s) fl [t] [t].
Proof.
  intros [A1 A2 A3 A4] V. split; [by apply kfree_eq|]. destruct (kfree_inv s t fl A2 V) as [I Fr]; [apply A3, list_elem_of_here|].
  split; [by apply lk_free_kfree_state|done|apply only_vm_kfree|]. intros b Hb. apply Fr. specialize (Hb t (list_elem_of_here _ _)). unfold in_page in Hb. lia.
Qed.

(** One entry of a table, given what is done with the table it points to. *)
Definition walk_entry (rec : Z -> K unit) (a : Z) (i : nat) : K unit :=
  pte ← kload (a + 8 * Z.of_nat i);
  if (has pte PTE_V && negb (has pte (Z.lor (Z.lor PTE_R PTE_W) PTE_X)))%bool then
    rec (PTE2PA pte) ;;
    kstore (a + 8 * Z.of_nat i) 0
  else if has pte PTE_V then kpanic "freewalk: leaf"
  else mret tt.

Lemma freewalk_from_eq l a : freewalk_from l a =
  (kfor (seq 0 512) (walk_entry (match l with O => fun _ => unbounded | S l' => freewalk_from l' end) a) ;; kfree a).
Proof. by destruct l. Qed.

Lemma dir_no_leaf c : page_aligned c -> 0 < c < 2 ^ 56 -> has (Z.lor (PA2PTE c) PTE_V) (Z.lor (Z.lor PTE_R PTE_W) PTE_X) = false.
Proof.
  intros A B. unfold has. apply negb_false_iff, Z.eqb_eq, Z.bits_inj'. intros n Hn. rewrite Z.land_spec, Z.lor_spec, Z.bits_0.
  destruct (decide (n < 10)) as [Hl|Hl].
  - unfold PA2PTE, u64. rewrite Z.mod_pow2_bits_low, Z.shiftl_spec_low by lia. cbn [orb].
    rewrite <- Z.land_spec. change (Z.land _ _) with 0. apply Z.bits_0.
  - rewrite (Z.bits_above_log2 (Z.lor (Z.lor PTE_R PTE_W) PTE_X)); [by rewrite andb_false_r|done|]. change (Z.log2 _) with 3. lia.
Qed.

Lemma ready_sub m0 s fl ts us : (forall t, t ∈ us -> t ∈ ts) -> ready m0 s fl ts -> ready m0 s fl us.
Proof. intros H [R1 R2 R3 R4]. split; [done|done|intros t Ht; by apply R3, H|intros t b Ht; by apply R4, H]. Qed.

Section Entries.
Variables (m0 : mem) (a : Z) (rec : Z -> K unit) (sub : nat -> list Z).
Hypothesis Va : valid_page a.
Hypothesis Sa : forall i t, (i < 512)%nat -> t ∈ sub i -> page_aligned t /\ t <> a.

(** What an entry is: not valid, or a table that [rec] frees. *)
Hypothesis Entry : forall i, (i < 512)%nat ->
  (has (load64 m0 (a + 8 * Z.of_nat i)) PTE_V = false /\ sub i = []) \/
  (exists c, load64 m0 (a + 8 * Z.of_nat i) = Z.lor (PA2PTE c) PTE_V /\ page_aligned c /\ 0 < c < 2 ^ 56 /\
     forall s fl, ready m0 s fl (sub i) -> exists s', rec c s = Ret tt s' /\ freed s s' fl (sub i) (sub i)).

Lemma walk_entry_spec i s fl : (i < 512)%nat -> ready m0 s fl (sub i) -> a ∉ fl ->
  (forall b, a + 8 * Z.of_nat i <= b < a + PGSIZE -> mget (k_mem s) b = mget m0 b) ->
  exists s', walk_entry rec a i s = Ret tt s' /\ freed s s' fl (sub i) (a :: sub i) /\
    (forall b, a + 8 * Z.of_nat (S i) <= b < a + PGSIZE -> mget (k_mem s') b = mget m0 b).
Proof.
  intros Hi R Na Hb. pose proof (proj1 Va) as Aa. unfold walk_entry, kload. kstep.
  assert (load64 (k_mem s) (a + 8 * Z.of_nat i) = load64 m0 (a + 8 * Z.of_nat i)) as -> by (apply load64_ext; intros b Hr; apply Hb; unfold PGSIZE; lia).
  destruct (Entry i Hi) as [(-> & Es)|(c & -> & Ac & Bc & Rec)].
  - exists s. split; [done|]. rewrite Es. split; [|intros; apply Hb; lia]. destruct R as [R1 R2 _ _]. split; [done|done|apply only_vm_refl|done].
  - destruct (dir_pte c Ac Bc) as (-> & -> & _). rewrite dir_no_leaf by done. cbn [negb andb].
    destruct (Rec s fl R) as (s1 & E1 & [F1 F2 F3 F4]). rewrite (bind_ret _ _ _ _ _ E1). unfold kstore, modify.
    assert (forall b, in_page a b -> mget (k_mem s1) b = mget (k_mem s) b) as Ka.
    { intros b Hp. apply F4. intros t Ht. destruct (Sa i t Hi Ht) as [At Nt]. by apply (not_in_other_page t a b). }
    pose proof (ki_valid _ _ F2) as Vl. rewrite Forall_forall in Vl.
    eexists. split; [reflexivity|]. split.
    + split; [done| |eapply only_vm_trans; [done|apply only_vm_set_mem]|].
      * apply kmem_inv_set_mem; [done|apply mem_ok_store64, F2|]. intros t Ht. apply load64_store64_ne.
        assert (t <> a) as Nt.
        { intros ->. apply elem_of_app in Ht as [Ht|Ht]; [|done]. apply list_elem_of_In, in_rev, list_elem_of_In in Ht. by destruct (Sa i a Hi Ht). }
        destruct (Vl t Ht) as [At _]. unfold page_aligned, PGSIZE in *. Z.div_mod_to_equations. lia.
      * intros b Hw. rewrite k_mem_set. specialize (Hw a (list_elem_of_here _ _)) as Hwa. unfold in_page, PGSIZE in Hwa.
        rewrite mget_store64_out by lia. apply F4. intros t Ht. apply Hw. by apply list_elem_of_further.
    + intros b Hr. rewrite k_mem_set, mget_store64_out by lia. rewrite Ka by (unfold in_page; lia). apply Hb. lia.
Qed.

Lemma walk_entries n : forall i s fl, (i + n = 512)%nat -> ready m0 s fl (concat (map sub (seq i n))) -> a ∉ fl ->
  NoDup (concat (map sub (seq i n))) ->
  (forall b, a + 8 * Z.of_nat i <= b < a + PGSIZE -> mget (k_mem s) b = mget m0 b) ->
  exists s', kfor (seq i n) (walk_entry rec a) s = Ret tt s' /\ freed s s' fl (concat (map sub (seq i n))) (a :: concat (map sub (seq i n))).
Proof.
  induction n as [|n IH]; intros i s fl Hi R Na N Hb.
  { exists s. split; [done|]. destruct R as [R1 R2 _ _]. split; [done|done|apply only_vm_refl|done]. }
  pose proof (proj1 Va) as Aa. cbn [seq map concat kfor] in *. set (rest := concat (map sub (seq (S i) n))) in *. apply NoDup_app in N as (N1 & N2 & N3).
  destruct (walk_entry_spec i s fl) as (s1 & E1 & F1 & B1); [lia| |done|done|].
  { destruct R as [R1 R2 R3 R4]. split; [done|done|intros t Ht; apply R3, elem_of_app; by left|intros t b Ht; apply R4, elem_of_app; by left]. }
  rewrite (bind_ret _ _ _ _ _ E1).
  assert (forall t, t ∈ rest -> page_aligned t /\ t <> a) as Sr.
  { intros t (ts & (k & <- & Hk)%in_map_iff & Ht)%list_elem_of_In%in_concat. apply in_seq in Hk. apply (Sa k); [lia|by apply list_elem_of_In]. }
  destruct (IH (S i) s1 (rev (sub i) ++ fl)) as (s2 & E2 & F2); [lia| | |done|done|].
  - split; [apply F1|apply F1| |].
    + intros t Ht [H|H]%elem_of_app.
      * apply list_elem_of_In, in_rev, list_elem_of_In in H. by apply (N2 t).
      * revert H. apply (re_used _ _ _ _ R), elem_of_app. by right.
    + intros t b Ht Hp. destruct (Sr t Ht) as [At Nt]. rewrite (fr_frame _ _ _ _ _ F1); [by apply (re_same _ _ _ _ R t), Hp; apply elem_of_app; right|].
      intros t' [->|Ht']%elem_of_cons; [apply (not_in_other_page a t b); (done || congruence)|].
      apply (not_in_other_page t' t b); [apply (Sa i t'); [lia|done]|done| |done]. intros ->. by apply (N2 t).
  - intros [H|H]%elem_of_app; [|done]. apply list_elem_of_In, in_rev, list_elem_of_In in H. by destruct (Sa i a ltac:(lia) H).
  - exists s2. split; [done|]. eapply freed_trans.
    + destruct F1 as [F11 F12 F13 F14]. split; [done..|]. intros b Hw. apply F14. intros t Ht. apply Hw. rewrite elem_of_cons, elem_of_app in *. tauto.
    + destruct F2 as [F11 F12 F13 F14]. split; [done..|]. intros b Hw. apply F14. intros t Ht. apply Hw. rewrite elem_of_cons, elem_of_app in *. tauto.
Qed.

Lemma walk_table s fl : let ts := concat (map sub (seq 0 512)) ++ [a] in ready m0 s fl ts -> NoDup ts ->
  exists s', (kfor (seq 0 512) (walk_entry rec a) ;; kfree a) s = Ret tt s' /\ freed s s' fl ts ts.
Proof.
  intros ts R N. unfold ts in *. clear ts. set (cs := concat (map sub (seq 0 512))) in *. apply NoDup_app in N as (N1 & N2 & _).
  assert (a ∈ cs ++ [a]) as Ha by (apply elem_of_app; right; apply list_elem_of_here).
  destruct (walk_entries 512 0 s fl eq_refl) as (s1 & E1 & F1); fold cs; try done.
  - eapply ready_sub; [|exact R]. intros t Ht. apply elem_of_app. by left.
  - by apply (re_used _ _ _ _ R).
  - intros b Hb. apply (re_same _ _ _ _ R a b Ha). unfold in_page. lia.
  - rewrite (bind_ret _ _ _ _ _ E1). fold cs in F1. destruct (freed_kfree (k_mem s1) s1 (rev cs ++ fl) a) as [E2 F2].
    + split; [apply F1|apply F1| |done]. intros t ->%list_elem_of_singleton [H|H]%elem_of_app; [|by apply (re_used _ _ _ _ R a)].
      apply list_elem_of_In, in_rev, list_elem_of_In in H. apply (N2 a H), list_elem_of_here.
    + done.
    + exists (kfree_state a s1). split; [done|]. eapply freed_trans.
      * destruct F1 as [F11 F12 F13 F14]. split; [done..|]. intros b Hw. apply F14. intros t Ht. apply Hw.
        apply elem_of_cons in Ht as [->|Ht]; [done|]. apply elem_of_app. by left.
      * destruct F2 as [F11 F12 F13 F14]. split; [done..|]. intros b Hw. apply F14. intros t ->%list_elem_of_singleton. by apply Hw.
Qed.

End Entries.

Section Walk.
Variables (m0 : mem) (G : tables) (r : Z).
Hypothesis F : forest m0 G.
Hypothesis Valid : forall k a, G !! k = Some a -> valid_page a.

(** No leaf of the table is mapped. *)
Hypothesis Clear : forall p a i, G !! (r, 0%nat, p) = Some a -> 0 <= i < 512 -> has (load64 m0 (a + 8 * i)) PTE_V = false.

(** The entries of a table, as freewalk() finds them. *)
Lemma subtree_none l p : G !! (r, l, p) = None -> subtree G r l p = [].
Proof. intros E. destruct l; cbn [subtree]; by rewrite E. Qed.

Lemma freewalk_from_spec l : forall p a s fl, G !! (r, l, p) = Some a -> ready m0 s fl (subtree G r l p) ->
  exists s', freewalk_from l a s = Ret tt s' /\ freed s s' fl (subtree G r l p) (subtree G r l p).
Proof.
  induction l as [|l IH]; intros p a s fl E R; pose proof (Valid _ _ E) as Va; pose proof (fun k => subtree_nodup m0 G r k F p) as N;
    rewrite freewalk_from_eq; [specialize (N 0%nat)|specialize (N (S l))]; cbn [subtree] in *; rewrite E in *.
  - change ([] ++ [a]) with (concat (map (fun _ : nat => @nil Z) (seq 0 512)) ++ [a]) in *. apply (walk_table m0 a (fun _ => unbounded) (fun _ => [])); try done.
    + intros i t _ Ht. by apply elem_of_nil in Ht.
    + intros i Hi. left. split; [|done]. apply (Clear p); [done|lia].
  - apply (walk_table m0 a (freewalk_from l) (fun i => subtree G r l (p * 512 + Z.of_nat i))); try done.
    + intros i t _ Ht. apply subtree_key in Ht as (l' & p' & Hl & Ht & _). split; [apply (Valid _ _ Ht)|].
      intros ->. pose proof (fo_inj _ _ F _ _ _ Ht E) as [= -> _]. lia.
    + intros i Hi. pose proof (fo_dir _ _ F r l p a (Z.of_nat i) E ltac:(lia)) as D.
      destruct (G !! (r, l, p * 512 + Z.of_nat i)) as [c|] eqn:Ec; cbn [dir_entry] in D; [right|left].
      * exists c. destruct (fo_page _ _ F _ _ Ec) as [Ac Bc]. split; [done|]. split; [done|]. split; [done|]. intros s1 fl1. by apply IH.
      * split; [done|by apply subtree_none].
Qed.

Lemma subtree_up l p a t : (l < 2)%nat -> G !! (r, l, p) = Some a -> t ∈ subtree G r l p -> t ∈ subtree G r (S l) (p / 512).
Proof.
  intros Hl E Ht. destruct (fo_up _ _ F r l p a E Hl) as [c Ec]. cbn [subtree]. rewrite Ec. apply elem_of_app. left.
  apply list_elem_of_In, in_concat. exists (subtree G r l p). split; [|by apply list_elem_of_In]. apply in_map_iff. exists (Z.to_nat (p mod 512)).
  pose proof (Z.mod_pos_bound p 512 ltac:(lia)). split; [f_equal; Z.div_mod_to_equations; lia|apply in_seq; lia].
Qed.

(** Every page of the table is freed. *)
Lemma subtree_all l p a : G !! (r, l, p) = Some a -> a ∈ subtree G r 2 0.
Proof.
  assert (forall n l p c, (l + n = 2)%nat -> G !! (r, l, p) = Some c -> forall t, t ∈ subtree G r l p -> t ∈ subtree G r 2 0) as X.
  { induction n as [|n IH]; intros k q c Hk E t Ht.
    - replace k with 2%nat in * by lia. pose proof (fo_low _ _ F _ _ _ _ E) as Hq.
      change (2 ^ (21 + 9 * Z.of_nat 2)) with (2 ^ 39) in Hq. change MAXVA with (2 ^ 38) in Hq. replace q with 0 in Ht by lia. done.
    - destruct (fo_up _ _ F r k q c E ltac:(lia)) as [d Ed]. apply (IH (S k) (q / 512) d); [lia|done|]. apply (subtree_up k q c); (done || lia). }
  intros E. pose proof (fo_level _ _ F _ _ _ _ E). apply (X (2 - l)%nat l p a); [lia|done|]. destruct l; cbn [subtree]; rewrite E; apply elem_of_app; right; apply list_elem_of_here.
Qed.

End Walk.

(** The tables other than those of root [r]. *)
Definition without (r : Z) (G : tables) : tables := filter (fun kv => kv.1.1.1 <> r) G.

Lemma lookup_without r G r' l p a : without r G !! (r', l, p) = Some a <-> G !! (r', l, p) = Some a /\ r' <> r.
Proof. unfold without. rewrite map_lookup_filter_Some. done. Qed.

Lemma without_sub r G : without r G ⊆ G.
Proof. apply map_filter_subseteq. Qed.

Lemma without_ne r G r' l p : r' <> r -> without r G !! (r', l, p) = G !! (r', l, p).
Proof.
  intros Ne. destruct (G !! (r', l, p)) as [a|] eqn:E; [by apply lookup_without|].
  destruct (without r G !! (r', l, p)) eqn:E'; [|done]. apply lookup_without in E' as [? _]. congruence.
Qed.

Lemma forest_without m G r : forest m G -> forest m (without r G).
Proof.
  intros F. split.
  - intros r' l p a [E Ne]%lookup_without. rewrite without_ne by done. by eapply fo_root.
  - intros [[r' l] p] a [E Ne]%lookup_without. by eapply fo_page.
  - intros [[r1 l1] p1] [[r2 l2] p2] a [E1 _]%lookup_without [E2 _]%lookup_without. by eapply fo_inj.
  - intros r' l p a [E Ne]%lookup_without. by eapply fo_level.
  - intros r' l p a [E Ne]%lookup_without Hl. rewrite without_ne by done. by eapply fo_up.
  - intros r' l p a i [E Ne]%lookup_without Hi. rewrite without_ne by done. by eapply fo_dir.
  - intros r' l p a [E Ne]%lookup_without. by eapply fo_low.
Qed.

(** ** freewalk() *)

(** The tables and the free list after the table of [r] is freed. *)
Record released (s s' : kstate) (G : tables) (fl : list Z) (r : Z) (ts : list Z) : Prop := {
  rl_ok : vmok s' (without r G) (rev ts ++ fl);
  rl_rest : only_vm s s';
  rl_pte r' va : r' <> r -> G !! (r', 2%nat, 0) = Some r' -> 0 <= va < MAXVA -> pte_of (k_mem s') r' va = pte_of (k_mem s) r' va;
  rl_frame b : outside G fl b -> mget (k_mem s') b = mget (k_mem s) b;
  rl_tables t : t ∈ ts <-> exists l p, G !! (r, l, p) = Some t;
}.

Lemma freewalk_spec s G fl r : vmok s G fl -> (forall k a, G !! k = Some a -> valid_page a) -> G !! (r, 2%nat, 0) = Some r ->
  (forall va, 0 <= va < MAXVA -> has (pte_of (k_mem s) r va) PTE_V = false) ->
  exists s', freewalk r s = Ret tt s' /\ released s s' G fl r (subtree G r 2 0).
Proof.
  intros OK Val R Emp. pose proof (vo_forest _ _ _ OK) as F.
  assert (forall t, t ∈ subtree G r 2 0 <-> exists l p, G !! (r, l, p) = Some t) as Ts.
  { intros t. split; [intros (l & p & _ & E & _)%subtree_key; eauto|]. intros (l & p & E). by apply (subtree_all (k_mem s) G r F l p). }
  destruct (freewalk_from_spec (k_mem s) G r F Val) with (l := 2%nat) (p := 0) (a := r) (s := s) (fl := fl) as (s' & E & [F1 F2 F3 F4]); [|done| |].
  - intros p a i Ea Hi. pose proof (fo_low _ _ F _ _ _ _ Ea) as Hl. change (2 ^ (21 + 9 * Z.of_nat 0)) with (2 ^ 21) in Hl.
    assert (0 <= p * 2 ^ 21 + i * 2 ^ 12 < MAXVA) as Hv by (change MAXVA with (2 ^ 38) in *; lia).
    specialize (Emp _ Hv). rewrite (pte_of_eq _ _ _ _ F R Hv) in Emp.
    replace (pfx 0 (p * 2 ^ 21 + i * 2 ^ 12)) with p in Emp; [rewrite Ea in Emp; replace (PX 0 (p * 2 ^ 21 + i * 2 ^ 12)) with i in Emp; [done|]|].
    + unfold PX, PXSHIFT, PXMASK, PGSHIFT. rewrite Z.shiftr_div_pow2 by lia. change 0x1FF with (Z.ones 9). rewrite Z.land_ones by lia.
      change (12 + 9 * Z.of_nat 0) with 12. Z.div_mod_to_equations. lia.
    + unfold pfx. change (2 ^ (21 + 9 * Z.of_nat 0)) with (2 ^ 21). Z.div_mod_to_equations. lia.
  - split; [apply OK|apply OK| |done]. intros t (l & p & Et)%Ts. by apply (vo_disj _ _ _ OK _ _ Et).
  - exists s'. split; [done|]. assert (forall r' l p a b, G !! (r', l, p) = Some a -> r' <> r -> in_page a b -> mget (k_mem s') b = mget (k_mem s) b) as Fr.
    { intros r' l p a b Ea Ne Hb. apply F4. intros t (l' & p' & Et)%Ts. apply (not_in_other_page t a b); [apply (Val _ _ Et)|apply (Val _ _ Ea)| |done].
      intros ->. by pose proof (fo_inj _ _ F _ _ _ Ea Et) as [= ->]. }
    destruct (forest_agree (k_mem s) (k_mem s') (without r G) (forest_without _ _ _ F)) as [F' P].
    { intros [[r' l] p] a b [Ea Ne]%lookup_without. by apply (Fr r' l p). }
    split; [|done| | |done].
    + split; [done|done|done|]. intros [[r' l] p] a [Ea Ne]%lookup_without [H|H]%elem_of_app; [|by apply (vo_disj _ _ _ OK _ _ Ea)].
      apply list_elem_of_In, in_rev, list_elem_of_In, Ts in H as (l' & p' & H). by pose proof (fo_inj _ _ F _ _ _ Ea H) as [= ->].
    + intros r' va Ne R' Hv. apply P; [by rewrite without_ne|done].
    + intros b [O1 _]. apply F4. intros t (l & p & Et)%Ts. by apply (O1 (r, l, p)).
Qed.

(** ** uvmfree() *)

(** The table of [r] and the user pages [us] are given back. *)
Record dropped (s s' : kstate) (G : tables) (fl : list Z) (r : Z) (us ts : list Z) : Prop := {
  dr_ok : vmok s' (without r G) (rev ts ++ rev us ++ fl);
  dr_rest : only_vm s s';
  dr_pte r' va : r' <> r -> G !! (r', 2%nat, 0) = Some r' -> 0 <= va < MAXVA -> pte_of (k_mem s') r' va = pte_of (k_mem s) r' va;
  dr_frame b : outside G fl b -> (forall u, u ∈ us -> ~ in_page u b) -> mget (k_mem s') b = mget (k_mem s) b;
  dr_tables t : t ∈ ts <-> exists l p, G !! (r, l, p) = Some t;
}.

Lemma unmapped_released s s1 s2 G fl r n ts : let us := mapped_pages (k_mem s) r 0 n in
  unmapped true s s1 G fl r 0 n -> released s1 s2 G (rev us ++ fl) r ts -> dropped s s2 G fl r us ts.
Proof.
  intros us [U1 U2 U3 U4] [R1 R2 R3 R4 R5]. split; [done|by eapply only_vm_trans| | |done].
  - intros r' va Ne R Hv. rewrite R3, U3 by done. rewrite decide_False by tauto. done.
  - intros b [O1 O2] Hu. rewrite R4; [apply U4; [done|]|].
    + intros pa _. apply Hu.
    + split; [done|]. intros a [H|H]%elem_of_app; [apply Hu|by apply O2]. by apply list_elem_of_In, in_rev, list_elem_of_In in H.
Qed.

Section Free.
Variables (G : tables) (r : Z).
Hypothesis Valid : forall k a, G !! k = Some a -> valid_page a.
Hypothesis R : G !! (r, 2%nat, 0) = Some r.

Lemma uvmfree_spec s fl sz : vmok s G fl -> 0 <= sz <= MAXVA ->
  let us := mapped_pages (k_mem s) r 0 (upages 0 sz) in
  owned G fl us -> (forall va, PGROUNDUP sz <= va < MAXVA -> has (pte_of (k_mem s) r va) PTE_V = false) ->
  exists s' ts, uvmfree r sz s = Ret tt s' /\ dropped s s' G fl r us ts.
Proof.
  intros OK Hs us OW Ab. destruct (upages_spec 0 sz) as (E & B & B0 & A); [lia|lia|]. change (PGROUNDUP 0) with 0 in *.
  assert (exists s1, kwhen (0 <? sz) (uvmunmap r 0 (PGROUNDUP sz / PGSIZE) true) s = Ret tt s1 /\ unmapped true s s1 G fl r 0 (upages 0 sz)) as (s1 & E1 & U).
  { destruct (Z.ltb_spec 0 sz).
    - rewrite <- E, Z.add_0_l, Z.div_mul by done. apply uvmunmap_spec; (done || lia).
    - assert (sz = 0) as -> by lia. exists s. split; [done|]. by apply unmapped_none. }
  destruct (freewalk_spec s1 G (rev us ++ fl) r (um_ok _ _ _ _ _ _ _ _ U) Valid R) as (s2 & E2 & Rl).
  { intros va Hv. rewrite (um_pte _ _ _ _ _ _ _ _ U) by done. destruct (decide _) as [?|Nd]; [apply has_0|].
    destruct (has (pte_of (k_mem s) r va) PTE_V) eqn:V; [|done]. destruct (decide (va < PGROUNDUP sz)); [|rewrite <- V; apply Ab; lia].
    exfalso. apply Nd. split_and!; (done || lia). }
  exists s2, (subtree G r 2 0). unfold uvmfree. rewrite (bind_ret _ _ _ _ _ E1). split; [exact E2|]. by eapply unmapped_released.
Qed.

(** Dropping mappings that belong to nobody. *)
Lemma unmap_kept s fl a : vmok s G fl -> page_aligned a -> 0 <= a -> a + PGSIZE <= MAXVA ->
  exists s', uvmunmap r a 1 false s = Ret tt s' /\ vmok s' G fl /\ only_vm s s' /\
    (forall r' va, G !! (r', 2%nat, 0) = Some r' -> 0 <= va < MAXVA -> pte_of (k_mem s') r' va = pte_of (k_mem s) r' va \/
       (r' = r /\ a <= va < a + PGSIZE /\ has (pte_of (k_mem s') r' va) PTE_V = false)) /\
    (forall va, a <= va < a + PGSIZE -> has (pte_of (k_mem s') r va) PTE_V = false) /\
    (forall b, outside G fl b -> mget (k_mem s') b = mget (k_mem s) b).
Proof.
  intros OK A H0 H1. destruct (uvmunmap_spec r false s G fl a 1 OK R A H0) as (s' & E & [U1 U2 U3 U4]); [unfold PGSIZE in *; lia|done|].
  change (Z.of_nat 1) with 1 in *. exists s'. split; [exact E|]. split; [done|]. split; [done|]. split; [|split].
  - intros r' va R' Hv. rewrite U3 by done. destruct (decide _) as [(-> & Hw & _)|?]; [right|by left]. split; [done|]. split; [unfold PGSIZE in *; lia|apply has_0].
  - intros va Hv. rewrite U3 by (done || lia). destruct (decide _) as [?|Nd]; [apply has_0|].
    destruct (has (pte_of (k_mem s) r va) PTE_V); [|done]. exfalso. apply Nd. split_and!; (done || unfold PGSIZE in *; lia).
  - intros b Hb. by apply U4.
Qed.

(** Unmapping pages at the top first changes nothing of what uvmfree() does. *)
Lemma proc_freepagetable_spec s fl sz : vmok s G fl -> 0 <= sz <= TRAPFRAME ->
  let us := mapped_pages (k_mem s) r 0 (upages 0 sz) in
  owned G fl us -> (forall va, PGROUNDUP sz <= va < TRAPFRAME -> has (pte_of (k_mem s) r va) PTE_V = false) ->
  exists s' ts, proc_freepagetable r sz s = Ret tt s' /\ dropped s s' G fl r us ts.
Proof.
  intros OK Hs us OW Ab. unfold proc_freepagetable.
  destruct (unmap_kept s fl TRAMPOLINE OK) as (s1 & E1 & OK1 & O1 & P1 & N1 & F1); [done..|]. rewrite (bind_ret _ _ _ _ _ E1).
  destruct (unmap_kept s1 fl TRAPFRAME OK1) as (s2 & E2 & OK2 & O2 & P2 & N2 & F2); [done..|]. rewrite (bind_ret _ _ _ _ _ E2).
  assert (TRAPFRAME + PGSIZE = TRAMPOLINE /\ TRAMPOLINE + PGSIZE = MAXVA) as [T1 T2] by done.
  assert (forall va, 0 <= va < TRAPFRAME -> pte_of (k_mem s2) r va = pte_of (k_mem s) r va) as P.
  { intros va Hv. destruct (P2 r va R) as [->|(_ & ? & _)]; [unfold PGSIZE in *; lia| |lia].
    destruct (P1 r va R) as [->|(_ & ? & _)]; [unfold PGSIZE in *; lia|done|unfold PGSIZE in *; lia]. }
  destruct (upages_spec 0 sz) as (E & B & B0 & A); [lia|unfold PGSIZE in *; lia|]. change (PGROUNDUP 0) with 0 in *.
  assert (PGROUNDUP sz <= TRAPFRAME) as Hr.
  { apply PGROUNDUP_le; (done || lia). }
  assert (0 <= PGROUNDUP sz) as Hz by (unfold PGSIZE in *; lia).
  assert (mapped_pages (k_mem s2) r 0 (upages 0 sz) = us) as Eu.
  { apply mapped_pages_same. intros v Hv. left. apply P. lia. }
  destruct (uvmfree_spec s2 fl sz OK2) as (s3 & ts & E3 & [D1 D2 D3 D4 D5]); [unfold PGSIZE in *; lia|by rewrite Eu| |].
  { intros va Hv. destruct (decide (va < TRAPFRAME)); [rewrite P by lia; apply Ab; lia|].
    destruct (decide (va < TRAMPOLINE)); [apply N2; lia|]. destruct (P2 r va R) as [->|(_ & _ & ?)]; [lia|apply N1; lia|done]. }
  rewrite Eu in *. exists s3, ts. split; [done|]. split; [done| | | |done].
  - eapply only_vm_trans; [|exact D2]. by eapply only_vm_trans.
  - intros r' va Ne R' Hv. rewrite D3 by done. destruct (P2 r' va R' Hv) as [->|(? & _)]; [|done]. by destruct (P1 r' va R' Hv) as [->|(? & _)].
  - intros b Hb Hu. rewrite D4, F2 by done. by apply F1.
Qed.

End Free.

(** ** proc_pagetable() *)

Lemma owned_nil G fl : owned G fl [].
Proof. split; [apply NoDup_nil_2|apply Forall_nil_2|by intros ? ?%elem_of_nil|by intros ? ? ?%elem_of_nil]. Qed.

Lemma more_valid s G fl G' fl' used : vmok s G fl -> (forall k a, G !! k = Some a -> valid_page a) -> fl ≡ₚ used ++ fl' -> more_tables G G' used ->
  forall k a, G' !! k = Some a -> valid_page a.
Proof.
  intros OK V Pm Mt k a E. destruct (proj2 Mt k a E) as [E0|[_ Hu]]; [by eapply V|].
  pose proof (ki_valid _ _ (vo_kmem _ _ _ OK)) as VL. rewrite Forall_forall in VL. apply VL. rewrite Pm. apply elem_of_app. by left.
Qed.

(** Building a new table and giving it back leaves the others as they were. *)
Lemma undo_table s G fl s2 G2 fl2 used a s3 ts : vmok s G fl -> fl ≡ₚ used ++ fl2 -> more_tables G G2 used -> (forall l p, G !! (a, l, p) = None) ->
  vmok s2 G2 fl2 -> only_vm s s2 -> kept (<[(a, 2%nat, 0) := a]> G) fl G2 fl2 [] -> (forall b, outside G fl b -> mget (k_mem s2) b = mget (k_mem s) b) ->
  (forall r va, G !! (r, 2%nat, 0) = Some r -> 0 <= va < MAXVA -> pte_of (k_mem s2) r va = pte_of (k_mem s) r va) ->
  dropped s2 s3 G2 fl2 a [] ts -> aborted s G fl s3.
Proof.
  intros OK Pm Mt Na OK2 O2 [Kp1 Kp2] F2 P2 [D1 D2 D3 D4 D5]. pose proof (ki_nodup _ _ (vo_kmem _ _ _ OK)) as N. rewrite Pm in N. apply NoDup_app in N as (N & Nd & _).
  pose proof (ki_nodup _ _ (vo_kmem _ _ _ D1)) as Nt. apply NoDup_app in Nt as (Nt & _ & _). rewrite <- Permutation_rev in Nt.
  assert (forall t, t ∈ ts -> t ∈ used) as Tu.
  { intros t (l & p & E)%D5. destruct (proj2 Mt _ _ E) as [E0|[_ ?]]; [by rewrite Na in E0|done]. }
  assert (used ≡ₚ list_difference used ts ++ ts) as Ps.
  { apply NoDup_Permutation; [done| |].
    - apply NoDup_app. split; [by apply NoDup_list_difference|]. split; [|done]. intros x Hx. by apply list_elem_of_difference in Hx as [_ ?].
    - intros x. rewrite elem_of_app, list_elem_of_difference. split; [intros; destruct (decide (x ∈ ts)); auto|intros [[? _]|?]; auto]. }
  split.
  - exists (without a G2), (rev ts ++ fl2), (list_difference used ts). split; [exact D1|]. split.
    + rewrite Pm, Ps at 1. rewrite <- app_assoc. do 2 f_equiv. apply Permutation_rev.
    + split; [|split].
      2: { intros x [Hx|[Hx|[[[r l] p] Hx]]]%Kp1; [by apply elem_of_nil in Hx|right; left; apply elem_of_app; by right|]. right.
           destruct (decide (r = a)) as [->|Ne]; [|right; exists (r, l, p); by apply lookup_without].
           left. apply elem_of_app. left. apply list_elem_of_In. apply (proj1 (in_rev _ _)). apply list_elem_of_In, D5. eauto. }
      2: { intros r [E Ne]%lookup_without. apply Kp2 in E. rewrite lookup_insert_ne in E; [done|]. congruence. }
      split; [apply map_subseteq_spec; intros [[r l] p] b E; apply lookup_without; split; [by eapply lookup_weaken; [|apply Mt]|intros ->; by rewrite Na in E]|].
      intros [[r l] p] b [E Ne]%lookup_without. destruct (proj2 Mt _ _ E) as [?|[? Hu]]; [by left|right]. split; [done|].
      apply list_elem_of_difference. split; [done|]. intros (l' & p' & E')%D5. by pose proof (fo_inj _ _ (vo_forest _ _ _ OK2) _ _ _ E E') as [= ->].
  - by eapply only_vm_trans.
  - intros r va R Hv. left. rewrite D3; [by apply P2| |by eapply lookup_weaken; [|apply Mt]|done]. intros ->. by rewrite Na in R.
  - intros b Hb. rewrite D4; [by apply F2| |by intros ? ?%elem_of_nil]. destruct Hb as [B1 B2]. split.
    + intros k c E. destruct (proj2 Mt k c E) as [E0|[_ Hu]]; [by apply (B1 k)|]. apply B2. rewrite Pm. apply elem_of_app. by left.
    + intros c Hc. apply B2. rewrite Pm. apply elem_of_app. by right.
Qed.

(** mappages() of one page. *)
Lemma map_one r va pa perm s G fl : vmok s G fl -> G !! (r, 2%nat, 0) = Some r -> 0 <= perm < 1024 -> page_aligned va -> 0 <= va -> va + PGSIZE <= MAXVA ->
  page_aligned pa -> 0 <= pa -> pa + PGSIZE <= 2 ^ 56 -> (forall va', va <= va' < va + PGSIZE -> has (pte_of (k_mem s) r va') PTE_V = false) ->
  exists x s' G' fl' used, mappages r va PGSIZE pa perm s = Ret x s' /\ vmok s' G' fl' /\ fl ≡ₚ used ++ fl' /\ more_tables G G' used /\ only_vm s s' /\
    (forall b, outside G fl b -> mget (k_mem s') b = mget (k_mem s) b) /\ kept G fl G' fl' [] /\ (x = 0 \/ x = -1) /\
    (forall r' va', G !! (r', 2%nat, 0) = Some r' -> 0 <= va' < MAXVA ->
       pte_of (k_mem s') r' va' = if decide (x = 0 /\ r' = r /\ va <= va' < va + PGSIZE) then leaf_pte pa perm else pte_of (k_mem s) r' va').
Proof.
  intros OK R Hp Av H0 H1 Ap H2 H3 U.
  destruct (mappages_spec 1 r va pa perm s G fl OK R Hp ltac:(lia) Av Ap H0) as (x & s' & G' & fl' & k & E & X & M & Res);
    [unfold PGSIZE in *; lia|done|unfold PGSIZE in *; lia|intros va' Hv; apply U; unfold PGSIZE in *; lia|].
  destruct (ve_used _ _ _ _ _ _ X) as (used & -> & Ku). exists x, s', G', fl', used. split; [exact E|]. split; [apply X|]. split; [done|].
  split; [split; [apply X|done]|]. split; [apply X|]. split; [apply X|]. split; [apply X|].
  destruct Res as [(-> & -> & _)|(-> & Hk & _)]; (split; [auto|]); intros r' va' R' Hv; rewrite (M r' va' R' Hv).
  - destruct (decide (r' = r /\ va <= va' < va + PGSIZE)) as [[-> Hw]|Nw].
    + rewrite !decide_True by (split_and!; (done || unfold PGSIZE in *; lia)). rewrite (PGROUNDDOWN_window va va' Av Hw). f_equal. lia.
    + rewrite !decide_False; [done|tauto|]. intros [? ?]. apply Nw. split; [done|unfold PGSIZE in *; lia].
  - rewrite !decide_False; [done|by intros [? _]|]. intros [_ ?]. unfold PGSIZE in *. lia.
Qed.

(** A new table [r] that maps only the trampoline and the trapframe [tf]. *)
Record created (s : kstate) (G : tables) (fl : list Z) (tf r : Z) (s' : kstate) (G' : tables) (fl' : list Z) : Prop := {
  cr_ok : vmok s' G' fl';
  cr_used : exists used, fl ≡ₚ used ++ fl' /\ more_tables G G' used;
  cr_rest : only_vm s s';
  cr_new l p : G !! (r, l, p) = None;
  cr_root : G' !! (r, 2%nat, 0) = Some r;
  cr_pte r' va : G !! (r', 2%nat, 0) = Some r' -> 0 <= va < MAXVA -> pte_of (k_mem s') r' va = pte_of (k_mem s) r' va;
  cr_own va : 0 <= va < MAXVA -> pte_of (k_mem s') r va =
    if decide (TRAMPOLINE <= va) then leaf_pte ktrampoline (Z.lor PTE_R PTE_X)
    else if decide (TRAPFRAME <= va) then leaf_pte tf (Z.lor PTE_R PTE_W) else 0;
  cr_frame b : outside G fl b -> mget (k_mem s') b = mget (k_mem s) b;
  cr_kept : kept (<[(r, 2%nat, 0) := r]> G) fl G' fl' [];
}.

(** What the kernel's layout and allocator say about the two pages. *)
Definition page_ok (pa : Z) : Prop := page_aligned pa /\ 0 <= pa /\ pa + PGSIZE <= 2 ^ 56.

(** The states while the table [r] is built, starting from [s]. *)
Record building (s : kstate) (G : tables) (fl : list Z) (r : Z) (s' : kstate) (G' : tables) (fl' : list Z) : Prop := {
  bu_ok : vmok s' G' fl';
  bu_valid k a : G' !! k = Some a -> valid_page a;
  bu_used : exists used, fl ≡ₚ used ++ fl' /\ more_tables G G' used;
  bu_rest : only_vm s s';
  bu_root : G' !! (r, 2%nat, 0) = Some r;
  bu_pte r' va : G !! (r', 2%nat, 0) = Some r' -> 0 <= va < MAXVA -> pte_of (k_mem s') r' va = pte_of (k_mem s) r' va;
  bu_frame b : outside G fl b -> mget (k_mem s') b = mget (k_mem s) b;
  bu_kept : kept (<[(r, 2%nat, 0) := r]> G) fl G' fl' [];
}.

Lemma more_outside G fl G' fl' used b : fl ≡ₚ used ++ fl' -> more_tables G G' used -> outside G fl b -> outside G' fl' b.
Proof.
  intros Pm Mt [B1 B2]. split.
  - intros k c E. destruct (proj2 Mt k c E) as [E0|[_ Hu]]; [by apply (B1 k)|]. apply B2. rewrite Pm. apply elem_of_app. by left.
  - intros c Hc. apply B2. rewrite Pm. apply elem_of_app. by right.
Qed.

Lemma building_step s G fl r s1 G1 fl1 s2 G2 fl2 used : vmok s G fl -> (forall k a, G !! k = Some a -> valid_page a) -> (forall l p, G !! (r, l, p) = None) ->
  building s G fl r s1 G1 fl1 -> vmok s2 G2 fl2 -> kept G1 fl1 G2 fl2 [] -> fl1 ≡ₚ used ++ fl2 -> more_tables G1 G2 used -> only_vm s1 s2 ->
  (forall b, outside G1 fl1 b -> mget (k_mem s2) b = mget (k_mem s1) b) ->
  (forall r' va, r' <> r -> G1 !! (r', 2%nat, 0) = Some r' -> 0 <= va < MAXVA -> pte_of (k_mem s2) r' va = pte_of (k_mem s1) r' va) ->
  building s G fl r s2 G2 fl2.
Proof.
  intros OK V Nr [B1 B2 (u & Pu & Mu) B4 B5 B6 B7 B8] OK2 Kp Pm Mt O Fr P. split; [done| | |by eapply only_vm_trans|by eapply lookup_weaken; [|apply Mt]| | |].
  - exact (more_valid s1 G1 fl1 G2 fl2 used B1 B2 Pm Mt).
  - exists (u ++ used). split; [by rewrite Pu, Pm, app_assoc|by eapply more_tables_trans].
  - intros r' va R Hv. rewrite P; [by apply B6| |by eapply lookup_weaken; [|apply Mu]|done]. intros ->. by rewrite Nr in R.
  - intros b Hb. rewrite Fr by (by eapply more_outside). by apply B7.
  - eapply (kept_trans _ _ G1 fl1 _ _ [] []); [apply Mt|done|done].
Qed.

(** Giving up while building. *)
Lemma building_undo s G fl r s1 G1 fl1 : vmok s G fl -> (forall l p, G !! (r, l, p) = None) -> building s G fl r s1 G1 fl1 ->
  (forall va, 0 <= va < MAXVA -> has (pte_of (k_mem s1) r va) PTE_V = false) ->
  exists s', uvmfree r 0 s1 = Ret tt s' /\ aborted s G fl s'.
Proof.
  intros OK Nr [B1 B2 (u & Pu & Mu) B4 B5 B6 B7 B8] Emp.
  destruct (uvmfree_spec G1 r B2 B5 s1 fl1 0 B1) as (s' & ts & E & D); [done|apply owned_nil|intros va Hv; apply Emp; change (PGROUNDUP 0) with 0 in Hv; lia|].
  exists s'. split; [done|]. by eapply undo_table.
Qed.

Lemma create_building s G fl : vmok s G fl -> (forall k a, G !! k = Some a -> valid_page a) ->
  (uvmcreate s = Ret 0 (ksettle s) /\ aborted s G fl (ksettle s)) \/
  (exists a s1 G1 fl1, uvmcreate s = Ret a s1 /\ a <> 0 /\ (forall l p, G !! (a, l, p) = None) /\ building s G fl a s1 G1 fl1 /\
     forall va, 0 <= va < MAXVA -> pte_of (k_mem s1) a va = 0).
Proof.
  intros OK V. destruct (uvmcreate_spec s G fl OK) as [[_ E]|(a & fl1 & Hf & E & Na & OK1 & O & Nt & Pn & Po)]; [left|right].
  - split; [done|]. split; [|apply only_vm_settle|by left|done]. exists G, fl, []. split; [by apply vmok_settle|]. split; [done|split; [apply more_tables_refl|apply kept_refl]].
  - assert (forall l p, G !! (a, l, p) = None) as Nr.
    { intros l p. destruct (G !! (a, l, p)) eqn:Ea; [|done]. apply (fo_root _ _ (vo_forest _ _ _ OK)) in Ea. by destruct (Nt (a, 2%nat, 0)). }
    assert (more_tables G (<[(a, 2%nat, 0) := a]> G) [a]) as Mt.
    { split; [by apply insert_subseteq|]. intros k b [[<- <-]|[? ?]]%lookup_insert_Some; [right|by left]. split; [done|apply list_elem_of_here]. }
    exists a, (zeroed a s), (<[(a, 2%nat, 0) := a]> G), fl1. split; [done|]. split; [done|]. split; [done|]. split; [|done].
    split; [done|apply (more_valid s G fl _ fl1 [a] OK V); [by rewrite Hf|exact Mt]|exists [a]; split; [by rewrite Hf|done]|done|apply lookup_insert_eq|done| |].
    2: { split; [|done]. intros c. rewrite Hf. intros [->|Hc]%elem_of_cons; [|by auto]. right. right. exists (a, 2%nat, 0). apply lookup_insert_eq. }
    intros b [_ Hb]. subst fl. destruct (vm_zalloc s G a fl1 OK) as (_ & _ & _ & _ & _ & _ & Fr & _). apply Fr, Hb, list_elem_of_here.
Qed.

Lemma procs_only_vm s s' : only_vm s s' -> k_procs s' = k_procs s.
Proof. intros [E _]. by rewrite E. Qed.

Lemma proc_pagetable_spec i s G fl : vmok s G fl -> (forall k a, G !! k = Some a -> valid_page a) -> page_ok ktrampoline ->
  let tf := p_trapframe (nth i (k_procs s) zero_proc) in page_ok tf ->
  exists x s', proc_pagetable i s = Ret x s' /\
    ((x = 0 /\ aborted s G fl s') \/ (x <> 0 /\ exists G' fl', created s G fl tf x s' G' fl')).
Proof.
  intros OK V (T1 & T2 & T3) tf (F1 & F2 & F3). unfold proc_pagetable.
  destruct (create_building s G fl OK V) as [[E Ab]|(a & s1 & G1 & fl1 & E & Na & Nr & B1 & P1)]; rewrite (bind_ret _ _ _ _ _ E).
  { exists 0, (ksettle s). split; [done|by left]. }
  destruct (Z.eqb_spec a 0); [done|]. assert (TRAPFRAME + PGSIZE = TRAMPOLINE /\ TRAMPOLINE + PGSIZE = MAXVA /\ 0 <= TRAPFRAME) as (X1 & X2 & X3) by done.
  destruct (map_one a TRAMPOLINE ktrampoline (Z.lor PTE_R PTE_X) s1 G1 fl1 (bu_ok _ _ _ _ _ _ _ B1) (bu_root _ _ _ _ _ _ _ B1))
    as (x & s2 & G2 & fl2 & u2 & E2 & OK2 & Pm2 & Mt2 & O2 & Fr2 & Kp2 & Hx & P2); [done..|intros va Hv; rewrite P1 by lia; apply has_0|].
  assert (building s G fl a s2 G2 fl2) as B2.
  { eapply (building_step s G fl a s1 G1 fl1); try done. intros r' va Ne R Hv. rewrite P2 by done. by rewrite decide_False by tauto. }
  rewrite (bind_ret _ _ _ _ _ E2). pose proof (bu_root _ _ _ _ _ _ _ B1) as R1. destruct Hx as [-> | ->].
  2: { destruct (building_undo s G fl a s2 G2 fl2 OK Nr B2) as (s3 & E3 & Ab).
       - intros va Hv. rewrite P2 by done. rewrite decide_False by (by intros [? _]). rewrite P1 by done. apply has_0.
       - exists 0, s3. change (-1 <? 0) with true. cbv iota. rewrite (bind_ret _ _ _ _ _ E3). split; [done|by left]. }
  change (0 <? 0) with false. cbv iota. unfold getproc. kstep. rewrite (procs_only_vm _ _ (bu_rest _ _ _ _ _ _ _ B2)). fold tf.
  pose proof (bu_root _ _ _ _ _ _ _ B2) as R2.
  destruct (map_one a TRAPFRAME tf (Z.lor PTE_R PTE_W) s2 G2 fl2 OK2 R2) as (x & s3 & G3 & fl3 & u3 & E3 & OK3 & Pm3 & Mt3 & O3 & Fr3 & Kp3 & Hx & P3); [done..| |].
  { intros va Hv. rewrite P2 by (done || lia). rewrite decide_False by lia. rewrite P1 by lia. apply has_0. }
  assert (building s G fl a s3 G3 fl3) as B3.
  { eapply (building_step s G fl a s2 G2 fl2); try done. intros r' va Ne R Hv. rewrite P3 by done. by rewrite decide_False by tauto. }
  rewrite (bind_ret _ _ _ _ _ E3). destruct Hx as [-> | ->].
  2: { destruct (unmap_kept G3 a (bu_root _ _ _ _ _ _ _ B3) s3 fl3 TRAMPOLINE OK3) as (s4 & E4 & OK4 & O4 & P4 & N4 & Fr4); [done..|].
       assert (building s G fl a s4 G3 fl3) as B4.
       { eapply (building_step s G fl a s3 G3 fl3 s4 G3 fl3 []); try done; [apply kept_refl|apply more_tables_refl|]. intros r' va Ne R Hv. by destruct (P4 r' va R Hv) as [?|[? _]]. }
       destruct (building_undo s G fl a s4 G3 fl3 OK Nr B4) as (s5 & E5 & Ab).
       - intros va Hv. destruct (decide (TRAMPOLINE <= va)); [apply N4; lia|]. destruct (P4 a va (bu_root _ _ _ _ _ _ _ B3) Hv) as [->|(_ & _ & ?)]; [|done].
         rewrite P3, P2, P1 by done. rewrite !decide_False by lia. apply has_0.
       - exists 0, s5. change (-1 <? 0) with true. cbv iota. rewrite (bind_ret _ _ _ _ _ E4), (bind_ret _ _ _ _ _ E5). split; [done|by left]. }
  change (0 <? 0) with false. cbv iota. exists a, s3. split; [done|]. right. split; [done|]. exists G3, fl3.
  destruct B3 as [C1 C2 C3 C4 C5 C6 C7 C8]. split; try done. intros va Hv. rewrite P3, P2, P1 by done.
  destruct (decide (TRAMPOLINE <= va)); [rewrite decide_False by lia; rewrite decide_True by lia; done|]. rewrite (decide_False (P := _ /\ _ /\ TRAMPOLINE <= _ < _)) by lia.
  destruct (decide (TRAPFRAME <= va)); [rewrite decide_True by lia; done|]. rewrite decide_False by lia. done.
Qed.

End Freewalk.
