(* ===== verification/VmFault.v ===== *)
(** * Lazy allocation (vmfault() of kernel/vm.c)

    What a page fault below the size of the running process does: a zeroed
    page is mapped where there was none, or nothing changes. *)

From S2P Require Import Prelude Riscv Memory KState KMonad Spinlock Kalloc Vm VmSpec UvmSpec CopySpec Pages Proc ProcSpec SleepSpec.

Section Fault.
Context {L : Layout}.

Lemma ismapped_eq r va s G fl : vmok s G fl -> G !! (r, 2%nat, 0) = Some r -> 0 <= va < MAXVA ->
  ismapped r va s = Ret (has (pte_of (k_mem s) r va) PTE_V) s.
Proof.
  intros OK R H. pose proof (vo_forest _ _ _ OK) as F. pose proof (PX_range 0 va). unfold ismapped.
  rewrite (bind_ret _ _ _ _ _ (walk_noalloc r va s H)), (pte_of_eq _ _ _ _ F R H), (pte_of_forest _ _ _ _ F R H).
  destruct (G !! (r, 0%nat, pfx 0 va)) as [t|] eqn:E; [|by rewrite has_0]. simpl.
  destruct (fo_page _ _ F _ _ E) as [_ Ht]. destruct (Z.eqb_spec (t + 8 * PX 0 va) 0); [lia|]. unfold kload. by kstep.
Qed.

Lemma aborted_settle s G fl : vmok s G fl -> aborted s G fl (ksettle s).
Proof.
  intros OK. split; [|apply only_vm_settle|by left|done].
  exists G, fl, []. split; [by apply vmok_settle|]. split; [done|split; [apply more_tables_refl|apply kept_refl]].
Qed.

(** The permissions vmfault() maps with. *)
Definition fault_perm : Z := Z.lor (Z.lor PTE_W PTE_U) PTE_R.

(** A page mapped for an address, or given back. *)
Lemma fault_page r va s G fl : vmok s G fl -> G !! (r, 2%nat, 0) = Some r -> page_aligned va -> 0 <= va -> va + PGSIZE <= MAXVA ->
  (forall v, va <= v < va + PGSIZE -> has (pte_of (k_mem s) r v) PTE_V = false) ->
  exists x s', (mem ← kalloc;
    if mem =? 0 then mret 0 else
    kmemset mem 0 PGBYTES ;;
    r ← mappages r va PGSIZE mem fault_perm;
    if negb (r =? 0) then kfree mem ;; mret 0 else mret mem) s = Ret x s' /\
    ((x = 0 /\ aborted s G fl s') \/ (x <> 0 /\ exists G' fl', alloced s G fl r va fault_perm s' G' fl' [x])).
Proof.
  intros OK R A H0 H1 U.
  destruct (kalloc_spec s fl (vo_lock _ _ _ OK) (vo_kmem _ _ _ OK)) as [[-> Ek]|(p & fl1 & -> & Np & Ek & _)]; rewrite (bind_ret _ _ _ _ _ Ek).
  { exists 0, (ksettle s). split; [done|]. left. split; [done|by apply aborted_settle]. }
  destruct (Z.eqb_spec p 0); [done|]. unfold kmemset. kstep. fold (zeroed p s).
  destruct (map_filled s G p fl1 (zeroed p s) (fun _ => 0) r va fault_perm (filled_zeroed _ _ _ _ OK) R A H0 H1 ltac:(done) U)
    as (x & s1 & G1 & fl2 & used & E1 & OK1 & Efl & Mt1 & O1 & T1 & V1 & N1 & Z1 & Fr1 & P1 & Kp & Res).
  rewrite (bind_ret _ _ _ _ _ E1). destruct Res as [[-> _]|(-> & -> & _)]; cbn [negb Z.eqb].
  - exists p, s1. split; [done|]. right. split; [done|]. exists G1, fl2.
    apply (alloced_step s G (p :: fl1) r va fault_perm s G p fl1 [] s1 G1 fl2 used true); try done.
    + by apply alloced_refl.
    + by apply kept_cons.
    + rewrite Efl. simpl. by rewrite Permutation_middle.
    + intros r' v R' Hv. rewrite P1 by done. apply decide_ext. change (Z.of_nat (length [])) with 0. rewrite Z.mul_0_l, Z.add_0_r. tauto.
  - destruct (vm_kfree s1 G1 [] p OK1 V1) as (Kf & OK2 & O2 & Fr2 & P2); [apply not_elem_of_nil|done|]. rewrite (bind_ret _ _ _ _ _ Kf).
    exists 0, (kfree_state p s1). split; [done|]. left. split; [done|]. split.
    + exists G1, [p], used. split; [done|]. split; [rewrite Efl, app_nil_r; by rewrite Permutation_cons_append|]. split; [done|by apply (kept_cons G p fl1 G1 [])].
    + by eapply only_vm_trans.
    + intros r' v R' Hv. left. rewrite P2 by (done || by eapply lookup_weaken; [|apply Mt1]). rewrite P1 by done. by rewrite decide_False by (by intros [? _]).
    + intros b [B1 B2]. rewrite Fr2 by (apply B2, list_elem_of_here). by apply Fr1.
Qed.

(** The table and the size of the process that runs. *)
Definition running (s : kstate) (r sz : Z) : Prop :=
  exists i, c_proc (k_cpu s) = Some i /\ p_pagetable (nth i (k_procs s) zero_proc) = r /\ p_sz (nth i (k_procs s) zero_proc) = sz.

Lemma vmfault_spec r sz va rd s G fl : vmok s G fl -> G !! (r, 2%nat, 0) = Some r -> running s r sz -> 0 <= va -> sz <= MAXVA ->
  exists x s', vmfault r va rd s = Ret x s' /\
    ((x = 0 /\ aborted s G fl s') \/
     (x <> 0 /\ va < sz /\ has (pte_of (k_mem s) r va) PTE_V = false /\ exists G' fl', alloced s G fl r (PGROUNDDOWN va) fault_perm s' G' fl' [x])).
Proof.
  intros OK R (i & Hi & <- & <-) Hv Hs. unfold vmfault.
  rewrite (bind_ret _ _ _ _ _ (curproc_eq s i (proj1 (vo_lock _ _ _ OK)) Hi)). set (p := nth i (k_procs s) zero_proc) in *.
  destruct (Z.leb_spec (p_sz p) va). { exists 0, (ksettle s). split; [done|]. left. split; [done|by apply aborted_settle]. }
  destruct (page_down_range va) as [D1 D2]; [lia|]. pose proof (vo_forest _ _ _ OK) as F.
  assert (0 <= PGROUNDDOWN va < MAXVA) as D3 by (unfold PGSIZE in *; lia).
  rewrite (bind_ret _ _ _ _ _ (ismapped_eq _ (PGROUNDDOWN va) (ksettle s) G fl (vmok_settle _ _ _ OK) R D3)). change (k_mem (ksettle s)) with (k_mem s).
  rewrite (pte_of_down _ _ _ _ F R) by lia. destruct (has (pte_of (k_mem s) (p_pagetable p) va) PTE_V) eqn:V.
  { exists 0, (ksettle s). split; [done|]. left. split; [done|by apply aborted_settle]. }
  pose proof (PGROUNDDOWN_aligned va) as A.
  destruct (fault_page (p_pagetable p) (PGROUNDDOWN va) (ksettle s) G fl (vmok_settle _ _ _ OK) R A D1 D2) as (x & s' & E & Res).
  { intros v Hw. change (k_mem (ksettle s)) with (k_mem s). rewrite (first_page _ G _ F R (PGROUNDDOWN va) v) by (done || lia). by rewrite (pte_of_down _ _ _ _ F R) by lia. }
  fold fault_perm. exists x, s'. split; [exact E|]. destruct Res as [(-> & [B1 B2 B3 B4])|(Hx & G' & fl' & [C1 C2 C3 C4 C5 C6 C7])]; [left|right].
  - split; [done|]. split; [done|by eapply only_vm_trans; [apply only_vm_settle|]|done|done].
  - split; [done|]. split; [done|]. split; [done|]. exists G', fl'. split; try done. by eapply only_vm_trans; [apply only_vm_settle|].
Qed.

End Fault.
