(* ===== verification/Isolation.v ===== *)
(** * Address spaces are kept apart (kernel/vm.c, kernel/proc.c)

    Any sequence of the operations by which the address spaces of processes
    come into being, grow, shrink, are copied, filled on a page fault, written
    and freed, on any number of them.  Each operation is the kernel's routine;
    the invariant says that every mapped user page belongs to one place of one
    address space, and is neither a page table nor free. *)

From S2P Require Import Prelude Riscv Memory KState KMonad Spinlock Kalloc Vm VmSpec UvmSpec CopySpec Pages UvmCopy Proc Freewalk VmFault.

(** An address space: its page table and its size (p->pagetable, p->sz). *)
Record space := mk_space { sp_root : Z; sp_size : Z }.

Definition no_space : space := mk_space 0 0.

Inductive op :=
| Create (i : nat)                       (** proc_pagetable(&proc[i]) in allocproc() and kexec() *)
| Grow (k : nat) (newsz xperm : Z)       (** uvmalloc() in growproc() and kexec() *)
| Shrink (k : nat) (newsz : Z)           (** uvmdealloc() in growproc() *)
| Extend (k : nat) (newsz : Z)           (** p->sz grows in sys_sbrk(), without pages *)
| Copy (k j : nat)                       (** uvmcopy() in kfork() *)
| Fault (k : nat) (va : Z) (rd : bool)   (** vmfault() in usertrap() *)
| Write (k : nat) (va : Z) (src : list Z) (** copyout() *)
| Free (k : nat).                        (** proc_freepagetable() in freeproc() and kexec() *)

Section Isolation.
Context {L : Layout}.

Definition run_op (o : op) (sp : list space) : K (list space) :=
  match o with
  | Create i =>
      r ← proc_pagetable i;
      mret (if r =? 0 then sp else sp ++ [mk_space r 0])
  | Grow k newsz xperm =>
      let x := nth k sp no_space in
      n ← uvmalloc (sp_root x) (sp_size x) newsz xperm;
      mret (if n =? 0 then sp else <[k := mk_space (sp_root x) n]> sp)
  | Shrink k newsz =>
      let x := nth k sp no_space in
      n ← uvmdealloc (sp_root x) (sp_size x) newsz;
      mret (<[k := mk_space (sp_root x) n]> sp)
  | Extend k newsz => mret (<[k := mk_space (sp_root (nth k sp no_space)) newsz]> sp)
  | Copy k j =>
      let x := nth k sp no_space in
      r ← uvmcopy (sp_root x) (sp_root (nth j sp no_space)) (sp_size x);
      mret (if r =? 0 then <[j := mk_space (sp_root (nth j sp no_space)) (sp_size x)]> sp else sp)
  | Fault k va rd =>
      vmfault (sp_root (nth k sp no_space)) va rd ;;
      mret sp
  | Write k va src =>
      copyout (sp_root (nth k sp no_space)) va src ;;
      mret sp
  | Free k =>
      let x := nth k sp no_space in
      proc_freepagetable (sp_root x) (sp_size x) ;;
      mret (delete k sp)
  end.

(** What the kernel's callers guarantee. *)
Definition ok_op (o : op) (s : kstate) (sp : list space) : Prop :=
  match o with
  | Create i => page_ok ktrampoline /\ page_ok (p_trapframe (nth i (k_procs s) zero_proc))
  | Grow k newsz xperm => (k < length sp)%nat /\ 0 <= newsz <= TRAPFRAME /\ 0 <= Z.lor (Z.lor PTE_R PTE_U) xperm < 1024
  | Shrink k newsz => (k < length sp)%nat /\ 0 <= newsz
  | Extend k newsz => (k < length sp)%nat /\ sp_size (nth k sp no_space) <= newsz <= TRAPFRAME
  | Copy k j => (k < length sp)%nat /\ (j < length sp)%nat /\ k <> j /\ sp_size (nth j sp no_space) = 0
  | Fault k va rd => (k < length sp)%nat /\ 0 <= va /\ running s (sp_root (nth k sp no_space)) (sp_size (nth k sp no_space))
  | Write k va src => (k < length sp)%nat /\ 0 <= va /\ va + Z.of_nat (length src) <= MAXVA /\
      forall v, va <= v < va + Z.of_nat (length src) ->
        uaddr (k_mem s) (sp_root (nth k sp no_space)) v <> 0 /\
        has (pte_of (k_mem s) (sp_root (nth k sp no_space)) v) PTE_W = true
  | Free k => (k < length sp)%nat
  end.

(** The user pages of an address space. *)
Definition pages (m : mem) (x : space) : list Z := mapped_pages m (sp_root x) 0 (upages 0 (sp_size x)).

(** Nothing is mapped between the size and the trapframe, and what is mapped
    from there on is not for the user. *)
Record space_ok (m : mem) (G : tables) (x : space) : Prop := {
  so_root : G !! (sp_root x, 2%nat, 0) = Some (sp_root x);
  so_size : 0 <= sp_size x <= TRAPFRAME;
  so_above va : PGROUNDUP (sp_size x) <= va < TRAPFRAME -> has (pte_of m (sp_root x) va) PTE_V = false;
  so_top va : TRAPFRAME <= va < MAXVA -> has (pte_of m (sp_root x) va) PTE_U = false;
}.

Record spaces (s : kstate) (sp : list space) (G : tables) (fl : list Z) : Prop := {
  ss_vm : vmok s G fl;
  ss_valid k a : G !! k = Some a -> valid_page a;
  ss_ok x : x ∈ sp -> space_ok (k_mem s) G x;
  ss_roots : NoDup (map sp_root sp);
  ss_owned : owned G fl (sp ≫= pages (k_mem s));
  ss_all a : a ∈ all_pages -> (a ∈ sp ≫= pages (k_mem s)) \/ a ∈ fl \/ exists k, G !! k = Some a;
  ss_rooted r : G !! (r, 2%nat, 0) = Some r -> r ∈ map sp_root sp;
}.

Lemma TRAPFRAME_range : 0 <= TRAPFRAME /\ TRAPFRAME + PGSIZE + PGSIZE = MAXVA /\ page_aligned TRAPFRAME.
Proof. done. Qed.

(** The pages below a size. *)
Lemma size_pages sz : 0 <= sz <= TRAPFRAME -> Z.of_nat (upages 0 sz) * PGSIZE = PGROUNDUP sz /\ PGROUNDUP sz <= TRAPFRAME /\ sz <= PGROUNDUP sz /\ sz <= MAXVA /\ TRAPFRAME < MAXVA.
Proof.
  intros H. destruct TRAPFRAME_range as (T0 & T1 & T2). assert (TRAPFRAME < MAXVA) as T3 by (unfold PGSIZE in *; lia).
  destruct (upages_spec 0 sz) as (E & _); [lia|lia|]. change (PGROUNDUP 0) with 0 in E. pose proof MAXVA_lt.
  destruct (PGROUNDUP_bounds sz) as [B _]; [unfold PGSIZE; lia|]. split; [lia|]. split; [by apply PGROUNDUP_le|lia].
Qed.

(** Address spaces whose translations do not change. *)
Lemma space_ok_same m m' G G' x : G' !! (sp_root x, 2%nat, 0) = Some (sp_root x) ->
  (forall v, 0 <= v < MAXVA -> pte_of m' (sp_root x) v = pte_of m (sp_root x) v \/
     (has (pte_of m (sp_root x) v) PTE_V = false /\ pte_of m' (sp_root x) v = 0)) ->
  space_ok m G x -> space_ok m' G' x /\ pages m' x = pages m x.
Proof.
  intros Hs H [R S A U]. destruct (size_pages _ S) as (E & B & B1 & B2 & B3). destruct TRAPFRAME_range as (T0 & _ & _).
  split; [split; [done|done|..]|].
  - intros va Hv. destruct (H va) as [->|[_ ->]]; [lia|by apply A|apply has_0].
  - intros va Hv. destruct (H va) as [->|[_ ->]]; [lia|by apply U|apply has_0].
  - apply mapped_pages_same. intros v Hv. destruct (H v) as [->|[? ->]]; [lia|by left|right]. split; [done|apply has_0].
Qed.

(** ** The operations keep the invariant *)

Lemma elem_of_rev {A} (l : list A) x : x ∈ rev l <-> x ∈ l.
Proof. rewrite !list_elem_of_In. symmetry. apply in_rev. Qed.

Lemma bind_ext {A B} (f g : A -> list B) l : (forall x, x ∈ l -> f x = g x) -> l ≫= f = l ≫= g.
Proof.
  intros H. induction l as [|x l IH]; [done|]. change (f x ++ (l ≫= f) = g x ++ (l ≫= g)).
  rewrite H by apply list_elem_of_here. f_equal. apply IH. intros y Hy. by apply H, list_elem_of_further.
Qed.

Lemma nth_split_at {A} (l : list A) k d y : (k < length l)%nat ->
  exists l1 l2, l = l1 ++ nth k l d :: l2 /\ <[k := y]> l = l1 ++ y :: l2.
Proof.
  intros H. destruct (lookup_lt_is_Some_2 l k H) as [x E]. rewrite (nth_lookup_Some _ _ _ _ E).
  exists (take k l), (drop (S k) l). split; [by rewrite take_drop_middle|]. apply insert_take_drop. done.
Qed.

(** All address spaces keep their translations. *)
Lemma same_spaces s s' sp G G' fl fl' used : spaces s sp G fl -> vmok s' G' fl' -> fl ≡ₚ used ++ fl' -> more_tables G G' used ->
  (forall r v, G !! (r, 2%nat, 0) = Some r -> 0 <= v < MAXVA -> pte_of (k_mem s') r v = pte_of (k_mem s) r v \/
     (has (pte_of (k_mem s) r v) PTE_V = false /\ pte_of (k_mem s') r v = 0)) ->
  (forall k a, G' !! k = Some a -> valid_page a) /\ (forall x, x ∈ sp -> space_ok (k_mem s') G' x) /\
  sp ≫= pages (k_mem s') = sp ≫= pages (k_mem s) /\ owned G' fl' (sp ≫= pages (k_mem s)).
Proof.
  intros [V Vl O N W _ _] V' Hp Mt H.
  assert (forall x, x ∈ sp -> space_ok (k_mem s') G' x /\ pages (k_mem s') x = pages (k_mem s) x) as Hx.
  { intros x Hx. apply (space_ok_same _ _ G); [by eapply lookup_weaken; [apply (O x Hx)|apply Mt]| |by apply O]. intros v Hv. apply H; [by apply O|done]. }
  split; [exact (more_valid s G fl G' fl' used V Vl Hp Mt)|]. split; [intros x Hi; by apply Hx|]. split; [apply bind_ext; intros x Hi; by apply Hx|].
  rewrite <- (app_nil_r (sp ≫= _)). by apply (owned_more s G fl _ used []).
Qed.

Lemma spaces_same s s' sp G G' fl fl' used : spaces s sp G fl -> vmok s' G' fl' -> fl ≡ₚ used ++ fl' -> more_tables G G' used -> kept G fl G' fl' [] ->
  (forall r v, G !! (r, 2%nat, 0) = Some r -> 0 <= v < MAXVA -> pte_of (k_mem s') r v = pte_of (k_mem s) r v \/
     (has (pte_of (k_mem s) r v) PTE_V = false /\ pte_of (k_mem s') r v = 0)) ->
  spaces s' sp G' fl'.
Proof.
  intros S V' Hp Mt [K1 K2] H. destruct (same_spaces s s' sp G G' fl fl' used S V' Hp Mt H) as (Vl & O & Ep & W). destruct S as [_ _ _ N _ A Rt].
  split; [done|done|done|done|by rewrite Ep| |intros r Hr; by apply Rt, K2]. rewrite Ep.
  intros a [?|[Hf|[k Hk]]]%A; [by left| |right; right; exists k; by eapply lookup_weaken; [|apply Mt]].
  right. destruct (K1 a Hf) as [Hn|?]; [by apply elem_of_nil in Hn|done].
Qed.

Lemma spaces_aborted s s' sp G fl : spaces s sp G fl -> aborted s G fl s' -> exists G' fl', spaces s' sp G' fl'.
Proof. intros S [(G' & fl' & used & V & Pm & Mt & Kp) _ P _]. exists G', fl'. by apply (spaces_same s s' sp G G' fl fl' used). Qed.

Lemma space_owned s sp G fl x : spaces s sp G fl -> x ∈ sp -> owned G fl (pages (k_mem s) x).
Proof.
  intros S (l & Hl)%elem_of_Permutation. apply (owned_app_l _ _ _ (l ≫= pages (k_mem s))).
  refine (owned_perm _ _ _ _ _ (ss_owned _ _ _ _ S)). by rewrite Hl.
Qed.

(** A translated user address lies in one of the space's pages. *)
Lemma user_page s sp G fl x va : spaces s sp G fl -> x ∈ sp -> 0 <= va < MAXVA -> uaddr (k_mem s) (sp_root x) va <> 0 ->
  has (pte_of (k_mem s) (sp_root x) va) PTE_V = true /\ va < PGROUNDUP (sp_size x) /\
  uaddr (k_mem s) (sp_root x) va = PTE2PA (pte_of (k_mem s) (sp_root x) va) /\ uaddr (k_mem s) (sp_root x) va ∈ pages (k_mem s) x.
Proof.
  intros S Hx Hv Hu. pose proof (ss_ok _ _ _ _ S x Hx) as [R Hs Ab Up]. unfold uaddr in *. destruct (size_pages _ Hs) as (E & _).
  destruct (has (pte_of (k_mem s) (sp_root x) va) PTE_V) eqn:V; [|done]. destruct (has _ PTE_U) eqn:U; [|done]. cbn [andb] in *.
  assert (va < PGROUNDUP (sp_size x)) as Hl.
  { destruct (decide (va < PGROUNDUP (sp_size x))); [done|]. destruct (decide (va < TRAPFRAME)); [rewrite Ab in V by lia; done|].
    rewrite Up in U by lia. done. }
  split; [done|]. split; [done|]. split; [done|].
  apply (mapped_pages_in _ G _ (vo_forest _ _ _ (ss_vm _ _ _ _ S)) R); [lia|done|lia|lia|done].
Qed.

Lemma user_owned s sp G fl x va : spaces s sp G fl -> x ∈ sp -> 0 <= va < MAXVA -> uaddr (k_mem s) (sp_root x) va <> 0 ->
  (uaddr (k_mem s) (sp_root x) va ∉ fl) /\ forall k, G !! k <> Some (uaddr (k_mem s) (sp_root x) va).
Proof.
  intros S Hx Hv Hu. destruct (user_page _ _ _ _ _ _ S Hx Hv Hu) as (_ & _ & _ & Hi).
  assert (uaddr (k_mem s) (sp_root x) va ∈ sp ≫= pages (k_mem s)) as Hb by (apply list_elem_of_bind; eauto).
  destruct (ss_owned _ _ _ _ S) as [_ _ W3 W4]. split; [by apply W3|intros k; by apply W4].
Qed.

Lemma same_space s sp G fl x va va' : spaces s sp G fl -> x ∈ sp -> 0 <= va < MAXVA -> 0 <= va' < MAXVA ->
  uaddr (k_mem s) (sp_root x) va <> 0 -> uaddr (k_mem s) (sp_root x) va = uaddr (k_mem s) (sp_root x) va' -> va / PGSIZE = va' / PGSIZE.
Proof.
  intros S Hx Hv Hv' Hu Eu. assert (uaddr (k_mem s) (sp_root x) va' <> 0) as Hu' by congruence.
  destruct (user_page _ _ _ _ _ _ S Hx Hv Hu) as (V & L1 & E1 & _). destruct (user_page _ _ _ _ _ _ S Hx Hv' Hu') as (V' & L1' & E1' & _).
  pose proof (ss_ok _ _ _ _ S x Hx) as [R Hs _ _]. destruct (size_pages _ Hs) as (E & _).
  apply (mapped_pages_inj (k_mem s) G (sp_root x) (vo_forest _ _ _ (ss_vm _ _ _ _ S)) R (upages 0 (sp_size x)) 0); try done; [|lia|lia|lia|lia|congruence].
  pose proof (ow_nodup _ _ _ (ss_owned _ _ _ _ S)) as N. apply elem_of_Permutation in Hx as [l Hl]. rewrite Hl in N.
  by apply NoDup_app in N as (N & _).
Qed.

Lemma bind_inj {A B} (f : A -> list B) l : NoDup (l ≫= f) -> forall i j x y b, l !! i = Some x -> l !! j = Some y -> b ∈ f x -> b ∈ f y -> i = j.
Proof.
  induction l as [|z l IH]; intros N i j x y b Hi Hj Hx Hy; [done|]. change (NoDup (f z ++ l ≫= f)) in N. apply NoDup_app in N as (_ & N1 & N2).
  assert (forall k w, l !! k = Some w -> b ∈ f w -> b ∈ l ≫= f) as Hb by (intros k w Hk Hw; apply list_elem_of_bind; exists w; split; [done|by eapply list_elem_of_lookup_2]).
  destruct i as [|i], j as [|j]; cbn in Hi, Hj; [done|..].
  - injection Hi as ->. exfalso. by apply (N1 b), (Hb j y).
  - injection Hj as ->. exfalso. by apply (N1 b), (Hb i x).
  - f_equal. by apply (IH N2 i j x y b).
Qed.

(** The byte a user sees at an address. *)
Definition view (m : mem) (r va : Z) : option Z :=
  let pa := uaddr m r va in if pa =? 0 then None else Some (mget m (pa + va mod PGSIZE)).

(** The table an operation works on. *)
Definition target (o : op) (sp : list space) : option Z :=
  match o with
  | Create _ => None
  | Copy _ k | Grow k _ _ | Shrink k _ | Extend k _ | Fault k _ _ | Write k _ _ | Free k => Some (sp_root (nth k sp no_space))
  end.

(** What is not written, and translated as before, is seen as before. *)
Lemma view_same s s' sp G fl t : spaces s sp G fl ->
  (forall r v, Some r <> t -> G !! (r, 2%nat, 0) = Some r -> 0 <= v < MAXVA -> pte_of (k_mem s') r v = pte_of (k_mem s) r v \/
     (has (pte_of (k_mem s) r v) PTE_V = false /\ pte_of (k_mem s') r v = 0)) ->
  (forall b, outside G fl b -> (forall x u, x ∈ sp -> t = Some (sp_root x) -> u ∈ pages (k_mem s) x -> ~ in_page u b) -> mget (k_mem s') b = mget (k_mem s) b) ->
  forall y va, y ∈ sp -> Some (sp_root y) <> t -> 0 <= va < MAXVA -> view (k_mem s') (sp_root y) va = view (k_mem s) (sp_root y) va.
Proof.
  intros S P F y va Hy Ht Hv. pose proof (so_root _ _ _ (ss_ok _ _ _ _ S y Hy)) as R. unfold view.
  assert (uaddr (k_mem s') (sp_root y) va = uaddr (k_mem s) (sp_root y) va) as ->.
  { unfold uaddr. destruct (P (sp_root y) va Ht R Hv) as [->|[-> ->]]; [done|]. by rewrite has_0. }
  destruct (Z.eqb_spec (uaddr (k_mem s) (sp_root y) va) 0) as [|Hu]; [done|]. f_equal.
  destruct (user_page _ _ _ _ _ _ S Hy Hv Hu) as (_ & _ & _ & Hp). set (p := uaddr (k_mem s) (sp_root y) va) in *.
  assert (in_page p (p + va mod PGSIZE)) as Hb by (unfold in_page; pose proof (Z.mod_pos_bound va PGSIZE ltac:(done)); lia).
  pose proof (space_owned _ _ _ _ _ S Hy) as W. apply F; [by apply (outside_owned s G fl (pages (k_mem s) y) p); [apply S|..]|].
  intros x u Hx -> Hu'. pose proof (ss_owned _ _ _ _ S) as Wa. pose proof (ow_valid _ _ _ Wa) as Vl. rewrite Forall_forall in Vl.
  assert (forall z q, z ∈ sp -> q ∈ pages (k_mem s) z -> page_aligned q) as Al by (intros z q Hz Hq; apply Vl, list_elem_of_bind; eauto).
  apply (not_in_other_page u p); [by apply (Al x)|by apply (Al y)| |done]. intros ->. apply list_elem_of_lookup in Hx as [i Hi], Hy as [j Hj].
  apply Ht. by rewrite (bind_inj _ _ (ow_nodup _ _ _ Wa) i j x y p Hi Hj Hu' Hp) in Hi; rewrite Hi in Hj; injection Hj as ->.
Qed.

Lemma view_aborted s s' sp G fl t : spaces s sp G fl -> aborted s G fl s' ->
  forall y va, y ∈ sp -> Some (sp_root y) <> t -> 0 <= va < MAXVA -> view (k_mem s') (sp_root y) va = view (k_mem s) (sp_root y) va.
Proof. intros S [_ _ P F]. apply (view_same s s' sp G fl); [done|intros r v _; apply P|intros b Hb _; by apply F]. Qed.

(** An operation that is allowed returns, keeps the invariant, and changes
    what is seen in no other address space. *)
Definition keeps (o : op) : Prop := forall s sp G fl, spaces s sp G fl -> ok_op o s sp ->
  exists sp' s' G' fl', run_op o sp s = Ret sp' s' /\ spaces s' sp' G' fl' /\
    forall y va, y ∈ sp -> Some (sp_root y) <> target o sp -> 0 <= va < MAXVA -> view (k_mem s') (sp_root y) va = view (k_mem s) (sp_root y) va.

Lemma keeps_aborted s s' sp G fl t (X : K (list space)) : spaces s sp G fl -> aborted s G fl s' -> X s = Ret sp s' ->
  exists sp' s' G' fl', X s = Ret sp' s' /\ spaces s' sp' G' fl' /\
    forall y va, y ∈ sp -> Some (sp_root y) <> t -> 0 <= va < MAXVA -> view (k_mem s') (sp_root y) va = view (k_mem s) (sp_root y) va.
Proof.
  intros S Ab E. destruct (spaces_aborted _ _ _ _ _ S Ab) as (G' & fl' & S'). exists sp, s', G', fl'. split; [done|]. split; [done|]. by apply (view_aborted s s' sp G fl).
Qed.


Lemma create_spec i : keeps (Create i).
Proof.
  intros s sp G fl S (T & Tf). cbn [run_op].
  destruct (proc_pagetable_spec i s G fl (ss_vm _ _ _ _ S) (ss_valid _ _ _ _ S) T Tf) as (r & s' & E & [(-> & Ab)|(Hr & G' & fl' & C)]).
  { apply (keeps_aborted s s' sp G fl); [done|done|]. by rewrite (bind_ret _ _ _ _ _ E). }
  rewrite (bind_ret _ _ _ _ _ E). destruct (Z.eqb_spec r 0); [done|]. destruct C as [C1 (used & C2 & Mt) C3 C4 C5 C6 C7 C8 [K1 K2]].
  destruct (same_spaces s s' sp G G' fl fl' used S C1 C2 Mt) as (Vl1 & O1 & Ep & W1); [intros; left; by apply C6|].
  destruct TRAPFRAME_range as (T0 & T1 & T2).
  assert (forall va, 0 <= va < MAXVA -> has (pte_of (k_mem s') r va) PTE_U = false) as Un.
  { intros va Hv. rewrite C7 by done. destruct (decide _); [by rewrite has_leaf_U|]. destruct (decide _); [by rewrite has_leaf_U|apply has_0]. }
  eexists _, s', G', fl'. split; [done|]. split; [|apply (view_same s s' sp G fl); [done|intros r' v _ R' Hv; left; by apply C6|intros b Hb _; by apply C8]].
  assert ((sp ++ [mk_space r 0]) ≫= pages (k_mem s') = sp ≫= pages (k_mem s)) as Ep' by (rewrite bind_app, Ep; cbn; by rewrite !app_nil_r).
  split; [done|done| | |by rewrite Ep'|rewrite Ep'|].
  - intros x [Hx|Hx]%elem_of_app; [by apply O1|]. apply list_elem_of_singleton in Hx as ->. split; cbn [sp_root sp_size]; [done|lia| |].
    + intros va Hv. change (PGROUNDUP 0) with 0 in Hv. rewrite C7 by (unfold PGSIZE in *; lia).
      rewrite !decide_False; [apply has_0|lia|unfold TRAPFRAME, PGSIZE in *; lia].
    + intros va Hv. apply Un. lia.
  - rewrite map_app. apply NoDup_app. split; [apply S|]. split; [|apply NoDup_singleton]. intros r' (x & -> & Hx)%list_elem_of_fmap Hr'.
    apply list_elem_of_singleton in Hr'. cbn in Hr'. pose proof (so_root _ _ _ (ss_ok _ _ _ _ S x Hx)) as Rx. by rewrite Hr', C4 in Rx.
  - intros a [?|[Hf|[k Hk]]]%(ss_all _ _ _ _ S); [by left| |right; right; exists k; by eapply lookup_weaken; [|apply Mt]].
    right. destruct (K1 a Hf) as [Hn|?]; [by apply elem_of_nil in Hn|done].
  - intros r' Hr'. rewrite map_app, elem_of_app. apply K2, lookup_insert_Some in Hr' as [[[= <-] _]|[_ Hr']]; [right; apply list_elem_of_here|left; by apply (ss_rooted _ _ _ _ S)].
Qed.

(** One address space, [x], becomes [x']; the others keep their translations. *)
Lemma spaces_update s s' l1 x x' l2 G G' fl fl' ps us : spaces s (l1 ++ x :: l2) G fl -> vmok s' G' fl' ->
  (forall k a, G' !! k = Some a -> valid_page a) -> G ⊆ G' -> sp_root x' = sp_root x ->
  (forall r v, r <> sp_root x -> G !! (r, 2%nat, 0) = Some r -> 0 <= v < MAXVA -> pte_of (k_mem s') r v = pte_of (k_mem s) r v) ->
  space_ok (k_mem s') G' x' -> pages (k_mem s') x' ≡ₚ us ->
  owned G' fl' (((l1 ++ l2) ≫= pages (k_mem s)) ++ us) ->
  kept G fl G' fl' ps -> (forall p, p ∈ ps -> p ∈ us) -> (forall p, p ∈ pages (k_mem s) x -> p ∈ us \/ p ∈ fl') -> spaces s' (l1 ++ x' :: l2) G' fl'.
Proof.
  intros [V Vl O N W A Rt] V' Vl' Hs Hr H Ox Hu W' [K1 K2] Hps Hus.
  assert (forall y, y ∈ l1 ++ l2 -> sp_root y <> sp_root x /\ y ∈ l1 ++ x :: l2) as Ho.
  { intros y Hy. rewrite <- Permutation_middle in N. rewrite <- Permutation_middle. split; [|by apply list_elem_of_further].
    cbn [map] in N. apply NoDup_cons in N as [N _]. intros E. apply N. rewrite <- E. by apply list_elem_of_fmap_2. }
  assert (forall y, y ∈ l1 ++ l2 -> space_ok (k_mem s') G' y /\ pages (k_mem s') y = pages (k_mem s) y) as Hy.
  { intros y Hy. destruct (Ho y Hy) as [Ne Hi]. apply (space_ok_same _ _ G); [by eapply lookup_weaken; [apply (O y Hi)|]| |by apply O].
    intros v Hv. left. apply H; try done. by apply O. }
  assert ((l1 ++ x' :: l2) ≫= pages (k_mem s') ≡ₚ ((l1 ++ l2) ≫= pages (k_mem s)) ++ us) as Ep.
  { rewrite <- (bind_ext (pages (k_mem s')) (pages (k_mem s)) (l1 ++ l2)) by (intros y Hi; by apply Hy). rewrite !bind_app.
    change ((x' :: l2) ≫= pages (k_mem s')) with (pages (k_mem s') x' ++ (l2 ≫= pages (k_mem s'))). rewrite Hu, <- app_assoc. f_equiv. apply Permutation_app_comm. }
  split; [done|done| | | | |].
  - intros y. rewrite <- Permutation_middle. intros [->|Hi]%elem_of_cons; [done|by apply Hy].
  - by rewrite map_app in *; cbn [map] in *; rewrite Hr.
  - by refine (owned_perm _ _ _ _ _ W').
  - intros a. rewrite Ep, elem_of_app. intros [Ha|[Hf|[k Hk]]]%A; [|destruct (K1 a Hf) as [?|?]; auto|right; right; exists k; by eapply lookup_weaken].
    rewrite <- Permutation_middle in Ha. cbn [mbind list_bind] in Ha. apply elem_of_app in Ha as [Ha|Ha]; [|by auto]. destruct (Hus a Ha); auto.
  - intros r Hr'. apply K2, Rt in Hr'. rewrite map_app in *. cbn [map] in *. by rewrite Hr.
Qed.

Lemma spaces_pages s l1 x l2 G fl : spaces s (l1 ++ x :: l2) G fl ->
  owned G fl (((l1 ++ l2) ≫= pages (k_mem s)) ++ pages (k_mem s) x).
Proof.
  intros [_ _ _ _ W _ _].
  revert W. apply owned_perm. rewrite !bind_app. change ((x :: l2) ≫= pages (k_mem s)) with (pages (k_mem s) x ++ (l2 ≫= pages (k_mem s))).
  rewrite <- app_assoc. f_equiv. apply Permutation_app_comm.
Qed.

Lemma pages_split m r n1 n2 : 0 <= n1 <= n2 -> n2 <= MAXVA ->
  pages m (mk_space r n2) = pages m (mk_space r n1) ++ mapped_pages m r (PGROUNDUP n1) (upages n1 n2).
Proof.
  intros H1 H2. unfold pages. cbn [sp_root sp_size].
  destruct (upages_spec 0 n1) as (E1 & _); [lia|lia|]. destruct (upages_spec 0 n2) as (E2 & _); [lia|lia|].
  destruct (upages_spec n1 n2) as (E3 & _); [lia|lia|]. change (PGROUNDUP 0) with 0 in *.
  replace (upages 0 n2) with (upages 0 n1 + upages n1 n2)%nat by (unfold PGSIZE in *; lia).
  rewrite mapped_pages_app. do 2 f_equal. lia.
Qed.

(** Where the [k]-th address space is. *)
Lemma at_index s sp G fl k y : spaces s sp G fl -> (k < length sp)%nat -> let x := nth k sp no_space in
  space_ok (k_mem s) G x /\ x = mk_space (sp_root x) (sp_size x) /\ <[k := x]> sp = sp /\
  exists l1 l2, sp = l1 ++ x :: l2 /\ <[k := y]> sp = l1 ++ y :: l2 /\ delete k sp = l1 ++ l2.
Proof.
  intros Sp H x. assert (sp !! k = Some x) as E. { unfold x. rewrite nth_lookup. by destruct (lookup_lt_is_Some_2 sp k H) as [? ->]. }
  split; [apply (ss_ok _ _ _ _ Sp), (list_elem_of_lookup_2 _ _ _ E)|]. split; [by destruct x|]. split; [by apply list_insert_id|].
  exists (take k sp), (drop (S k) sp). split; [by rewrite take_drop_middle|]. split; [by apply insert_take_drop|apply delete_take_drop].
Qed.

Lemma grow_spec k newsz xperm : keeps (Grow k newsz xperm).
Proof.
  intros s sp G fl S (Hk & Hn & Hp). cbn [run_op].
  destruct (at_index s sp G fl k (mk_space (sp_root (nth k sp no_space)) newsz) S Hk) as ([R Hs Ab Up] & Ex & Ei & l1 & l2 & E1 & E2 & _).
  set (x := nth k sp no_space) in *. set (r := sp_root x) in *. set (sz := sp_size x) in *.
  destruct (size_pages _ Hs) as (C1 & C2 & C3 & C4 & C5). destruct (size_pages _ Hn) as (D1 & D2 & D3 & D4 & _).
  destruct (Z.ltb_spec newsz sz) as [Hlt|Hge].
  { assert (uvmalloc r sz newsz xperm s = Ret sz s) as Eu by (unfold uvmalloc; destruct (Z.ltb_spec newsz sz); [done|lia]).
    rewrite (bind_ret _ _ _ _ _ Eu). exists sp, s, G, fl. split; [|done]. rewrite <- Ex, Ei. by destruct (sz =? 0). }
  destruct (upages_spec sz newsz) as (B1 & B2 & B3 & B4); [lia|lia|]. assert (PGROUNDUP sz <= PGROUNDUP newsz) as B5 by (unfold PGSIZE in *; lia).
  destruct (uvmalloc_spec r sz newsz xperm s G fl (ss_vm _ _ _ _ S) R Hp) as (n & s' & Eu & [(-> & G' & fl' & ps & Hl & Al)|(-> & Ab' & _)]);
    [lia|lia|intros va Hv; apply Ab; lia|..].
  2: { apply (keeps_aborted s s' sp G fl); [done|done|]. by rewrite (bind_ret _ _ _ _ _ Eu). }
  rewrite (bind_ret _ _ _ _ _ Eu).
  destruct (al_used _ _ _ _ _ _ _ _ _ _ Al) as (used & Pm & Mt). pose proof (al_pte _ _ _ _ _ _ _ _ _ _ Al) as P.
  exists (<[k := mk_space r newsz]> sp), s', G', fl'. split.
  { destruct (Z.eqb_spec newsz 0) as [Ez|_]; [|done]. assert (newsz = sz) as -> by lia. by rewrite <- Ex, Ei. }
  split; [|apply (view_same s s' sp G fl); [done|intros r' v Nr R' Hv; left; rewrite P by done; rewrite decide_False; [done|intros [-> _]; by apply Nr]|intros b Hb _; by apply Al]].
  rewrite E2. pose proof (more_valid _ _ _ _ _ _ (ss_vm _ _ _ _ S) (ss_valid _ _ _ _ S) Pm Mt) as Vl. rewrite E1 in S.
  apply (spaces_update s s' l1 x (mk_space r newsz) l2 G G' fl fl' ps (pages (k_mem s) x ++ ps) S); try done.
  - apply Al.
  - apply Mt.
  - intros r' v Ne R' Hv. rewrite P by done. rewrite decide_False; [done|]. by intros [? _].
  - split; cbn [sp_root sp_size]; [by eapply lookup_weaken; [exact R|apply Mt]|done|..]; intros va Hv;
      (rewrite P by (done || lia)); (rewrite decide_False by (rewrite Hl; intros [_ ?]; lia)); [apply Ab; lia|by apply Up].
  - rewrite (pages_split _ r sz newsz) by lia. f_equiv.
    + rewrite Ex. fold r sz. unfold pages. rewrite (mapped_pages_same (k_mem s)); [done|]. intros v Hv. cbn [sp_root sp_size] in *. left.
      rewrite P by (done || lia). rewrite decide_False; [done|]. intros [_ ?]. lia.
    + rewrite <- Hl, (al_mapped_pages s G fl r (PGROUNDUP sz) (Z.lor (Z.lor PTE_R PTE_U) xperm) s' G' fl' ps); try done; [apply S|lia].
  - rewrite app_assoc. apply (owned_more s G fl _ used); [apply S|by apply spaces_pages|done|done].
  - apply Al.
  - intros p Hq. apply elem_of_app. by right.
  - intros p Hq. left. apply elem_of_app. by left.
Qed.

Lemma shrink_spec k newsz : keeps (Shrink k newsz).
Proof.
  intros s sp G fl S (Hk & Hn). cbn [run_op].
  destruct (at_index s sp G fl k (mk_space (sp_root (nth k sp no_space)) newsz) S Hk) as ([R Hs Ab Up] & Ex & Ei & l1 & l2 & E1 & E2 & _).
  set (x := nth k sp no_space) in *. set (r := sp_root x) in *. set (sz := sp_size x) in *. destruct (size_pages _ Hs) as (C1 & C2 & C3 & C4 & C5).
  destruct (Z.leb_spec sz newsz) as [Hge|Hlt].
  { assert (uvmdealloc r sz newsz s = Ret sz s) as Eu by (unfold uvmdealloc; destruct (Z.leb_spec sz newsz); [done|lia]).
    rewrite (bind_ret _ _ _ _ _ Eu). exists sp, s, G, fl. split; [|done]. by rewrite <- Ex, Ei. }
  destruct (size_pages newsz) as (D1 & D2 & D3 & D4 & _); [lia|].
  destruct (upages_spec newsz sz) as (B1 & B2 & B3 & B4); [lia|lia|]. rewrite E1 in S. pose proof (spaces_pages _ _ _ _ _ _ S) as W.
  rewrite Ex in W. fold r sz in W. rewrite (pages_split _ r newsz sz) in W by lia.
  set (gone := mapped_pages (k_mem s) r (PGROUNDUP newsz) (upages newsz sz)) in *.
  assert (owned G fl (gone ++ ((l1 ++ l2) ≫= pages (k_mem s)) ++ pages (k_mem s) (mk_space r newsz))) as W2.
  { revert W. apply owned_perm. rewrite app_assoc. apply Permutation_app_comm. }
  destruct (uvmdealloc_spec r s G fl sz newsz (ss_vm _ _ _ _ S) R) as (s' & Eu & [U1 U2 U3 U4]); [lia|lia|by apply owned_app_l in W2|].
  fold gone in U1. rewrite (bind_ret _ _ _ _ _ Eu). exists (<[k := mk_space r newsz]> sp), s', G, (rev gone ++ fl). split; [done|].
  split; [rewrite E2|rewrite <- E1 in S; apply (view_same s s' sp G fl); [done|intros r' v Nr R' Hv; left; rewrite U3 by done; rewrite decide_False; [done|intros [-> _]; by apply Nr]|]].
  2: { intros b Hb Hg. apply U4; [done|]. intros pa _ Hpa. apply (Hg x pa); [rewrite E1, <- Permutation_middle; apply list_elem_of_here|done|].
       rewrite Ex. fold r sz. rewrite (pages_split _ r newsz sz) by lia. apply elem_of_app. by right. }
  apply (spaces_update s s' l1 x (mk_space r newsz) l2 G G fl (rev gone ++ fl) [] (pages (k_mem s) (mk_space r newsz)) S); try done.
  - apply S.
  - intros r' v Ne R' Hv. rewrite U3 by done. rewrite decide_False; [done|]. by intros [? _].
  - split; cbn [sp_root sp_size]; [done|lia|..]; intros va Hv; rewrite U3 by (done || lia); destruct (decide _) as [?|Nd]; try apply has_0; [|by apply Up].
    destruct (has (pte_of (k_mem s) r va) PTE_V) eqn:V; [|done].
    destruct (decide (va < PGROUNDUP sz)); [exfalso; apply Nd; split; [done|split; [lia|done]]|]. rewrite <- V. apply Ab. lia.
  - unfold pages. rewrite (mapped_pages_same (k_mem s)); [done|]. intros v Hv. cbn [sp_root sp_size] in *. left.
    rewrite U3 by (done || lia). rewrite decide_False; [done|]. intros (_ & ? & _). lia.
  - by apply owned_cons_r.
  - split; [|done]. intros a Ha. right. left. apply elem_of_app. by right.
  - by intros p Hq%elem_of_nil.
  - intros p. rewrite Ex. fold r sz. rewrite (pages_split _ r newsz sz) by lia. intros [Hq|Hq]%elem_of_app; [by left|right]. apply elem_of_app. left.
    apply list_elem_of_In. apply (proj1 (in_rev _ _)). by apply list_elem_of_In.
Qed.

Lemma extend_spec k newsz : keeps (Extend k newsz).
Proof.
  intros s sp G fl S (Hk & Hn). cbn [run_op].
  destruct (at_index s sp G fl k (mk_space (sp_root (nth k sp no_space)) newsz) S Hk) as ([R Hs Ab Up] & Ex & Ei & l1 & l2 & E1 & E2 & _).
  set (x := nth k sp no_space) in *. set (r := sp_root x) in *. set (sz := sp_size x) in *. destruct (size_pages _ Hs) as (C1 & C2 & C3 & C4 & C5).
  destruct (size_pages newsz) as (D1 & D2 & D3 & D4 & _); [lia|]. destruct (upages_spec sz newsz) as (B1 & B2 & B3 & B4); [lia|lia|].
  assert (PGROUNDUP sz <= PGROUNDUP newsz) as B5 by (unfold PGSIZE in *; lia).
  exists (<[k := mk_space r newsz]> sp), s, G, fl. split; [done|]. split; [|done]. rewrite E2. rewrite E1 in S.
  apply (spaces_update s s l1 x (mk_space r newsz) l2 G G fl fl [] (pages (k_mem s) x) S); try done.
  - apply S.
  - apply S.
  - split; cbn [sp_root sp_size]; [done|lia| |done]. intros va Hv. apply Ab. lia.
  - rewrite (pages_split _ r sz newsz) by lia. rewrite (mapped_pages_none _ r), app_nil_r; [by rewrite Ex|]. intros v Hv. apply Ab. lia.
  - by apply spaces_pages.
  - apply kept_refl.
  - by intros p Hq%elem_of_nil.
  - by left.
Qed.

Lemma copy_spec k j : keeps (Copy k j).
Proof.
  intros s sp G fl S (Hk & Hj & Ne & Hz). cbn [run_op].
  destruct (at_index s sp G fl k no_space S Hk) as ([R Hs _ _] & _ & _ & _ & _ & _).
  destruct (at_index s sp G fl j (mk_space (sp_root (nth j sp no_space)) (sp_size (nth k sp no_space))) S Hj) as ([R' Hs' Ab' Up'] & _ & _ & l1 & l2 & E1 & E2 & _).
  assert (nth k sp no_space ∈ sp) as Hx by (apply list_elem_of_In, nth_In, Hk).
  set (x := nth k sp no_space) in *. set (y := nth j sp no_space) in *. rewrite Hz in *. change (PGROUNDUP 0) with 0 in Ab'.
  destruct (size_pages _ Hs) as (C1 & C2 & C3 & C4 & C5).
  assert (sp_root x <> sp_root y) as Nr.
  { intros E. apply Ne. pose proof (ss_roots _ _ _ _ S) as N.
    apply (NoDup_lookup _ _ _ (sp_root x) N); rewrite list_lookup_fmap; [|rewrite E]; apply fmap_Some; [exists x|exists y]; split; try done;
      unfold x, y; rewrite nth_lookup; [by destruct (lookup_lt_is_Some_2 sp k Hk) as [? ->]|by destruct (lookup_lt_is_Some_2 sp j Hj) as [? ->]]. }
  destruct (uvmcopy_spec (sp_root x) (sp_root y) s G fl (ss_vm _ _ _ _ S) R R' Nr TRAPFRAME ltac:(lia) Ab' (sp_size x)) as (n & s' & E & Res);
    [lia|lia|lia|by apply (space_owned s sp)|].
  destruct Res as [(-> & G' & fl' & ps & C)|(-> & Ab & _)].
  2: { apply (keeps_aborted s s' sp G fl); [done|done|]. by rewrite (bind_ret _ _ _ _ _ E). }
  rewrite (bind_ret _ _ _ _ _ E). cbn [Z.eqb].
  exists (<[j := mk_space (sp_root y) (sp_size x)]> sp), s', G', fl'. split; [done|].
  destruct (co_used _ _ _ _ _ _ _ _ _ _ C) as (used & Pm & Mt). pose proof (co_pte _ _ _ _ _ _ _ _ _ _ C) as P.
  split; [|apply (view_same s s' sp G fl); [done|intros r v Nv R0 Hv; left; rewrite P by done; rewrite decide_False; [done|intros [-> _]; by apply Nv]|intros b Hb _; by apply C]].
  rewrite E2.
  pose proof (more_valid _ _ _ _ _ _ (ss_vm _ _ _ _ S) (ss_valid _ _ _ _ S) Pm Mt) as Vl. pose proof (ss_vm _ _ _ _ S) as V. rewrite E1 in S.
  apply (spaces_update s s' l1 y (mk_space (sp_root y) (sp_size x)) l2 G G' fl fl' ps ps S); try done.
  - apply C.
  - apply Mt.
  - intros r v Nv Rv Hv. rewrite P by done. by rewrite decide_False by tauto.
  - split; cbn [sp_root sp_size]; [by eapply lookup_weaken; [exact R'|apply Mt]|done|..]; intros va Hv; rewrite P by (done || lia);
      (rewrite decide_False by (intros (_ & ? & _); lia)); [apply Ab'; lia|by apply Up'].
  - unfold pages. cbn [sp_root sp_size]. rewrite (copied_pages (sp_root x) (sp_root y) s G fl V R R' TRAPFRAME ltac:(lia) Ab' (upages 0 (sp_size x)) s' G' fl' ps ltac:(lia) C). done.
  - pose proof (spaces_pages _ _ _ _ _ _ S) as W. unfold pages at 2 in W. rewrite Hz in W. change (upages 0 0) with 0%nat in W. cbn [mapped_pages] in W.
    rewrite app_nil_r in W. by apply (owned_more s G fl _ used).
  - apply C.
  - intros p. unfold pages. rewrite Hz. change (upages 0 0) with 0%nat. by intros Hq%elem_of_nil.
Qed.

Lemma fault_spec k va rd : keeps (Fault k va rd).
Proof.
  intros s sp G fl S (Hk & Hv & Run). cbn [run_op].
  destruct (at_index s sp G fl k (nth k sp no_space) S Hk) as ([R Hs Ab Up] & _ & _ & l1 & l2 & E1 & E2 & _).
  set (x := nth k sp no_space) in *. destruct (size_pages _ Hs) as (C1 & C2 & C3 & C4 & C5).
  destruct (vmfault_spec (sp_root x) (sp_size x) va rd s G fl (ss_vm _ _ _ _ S) R Run Hv C4) as (n & s' & E & Res).
  destruct Res as [(-> & Ab')|(Hn & Hlt & Nv & G' & fl' & Al)].
  { apply (keeps_aborted s s' sp G fl); [done|done|]. by rewrite (bind_ret _ _ _ _ _ E). }
  rewrite (bind_ret _ _ _ _ _ E). exists sp, s', G', fl'. split; [done|].
  destruct (al_used _ _ _ _ _ _ _ _ _ _ Al) as (used & Pm & Mt). pose proof (al_pte _ _ _ _ _ _ _ _ _ _ Al) as P. cbn [length] in P. change (Z.of_nat 1) with 1 in P. rewrite Z.mul_1_l in P.
  split; [|apply (view_same s s' sp G fl); [done|intros r v Nr R' Hw; left; rewrite P by done; rewrite decide_False; [done|intros [-> _]; by apply Nr]|intros b Hb _; by apply Al]].
  pose proof (more_valid _ _ _ _ _ _ (ss_vm _ _ _ _ S) (ss_valid _ _ _ _ S) Pm Mt) as Vl. pose proof (ss_vm _ _ _ _ S) as V. rewrite E1 in S |- *.
  pose proof (PGROUNDDOWN_aligned va) as A. pose proof (PGROUNDDOWN_bounds va) as B0.
  assert (0 <= PGROUNDDOWN va /\ PGROUNDDOWN va + PGSIZE <= PGROUNDUP (sp_size x)) as [B1 B2].
  { pose proof MAXVA_lt. destruct (PGROUNDUP_bounds (sp_size x)) as [_ A']; [unfold PGSIZE in *; lia|]. unfold page_aligned, PGSIZE in *. Z.div_mod_to_equations. lia. }
  assert (forall v, PGROUNDDOWN va <= v < PGROUNDDOWN va + PGSIZE -> v < MAXVA -> pte_of (k_mem s') (sp_root x) v = leaf_pte n fault_perm) as Pn.
  { intros v Hw Hm. rewrite P by (done || lia). rewrite decide_True by done. f_equal. rewrite Z.div_small by lia. done. }
  pose proof (Forall_inv (ow_valid _ _ _ (al_owned _ _ _ _ _ _ _ _ _ _ V Al))) as Vn. destruct (valid_page_phys n Vn) as [An Bn].
  destruct (leaf_pte_spec n fault_perm An ltac:(lia) ltac:(done)) as (_ & LV & LP & _).
  apply (spaces_update s s' l1 x x l2 G G' fl fl' [n] (pages (k_mem s) x ++ [n]) S); try done.
  - apply Al.
  - apply Mt.
  - intros r v Nr Rv Hw. rewrite P by done. by rewrite decide_False by tauto.
  - split; [by eapply lookup_weaken; [exact R|apply Mt]|done|..]; intros v Hw; rewrite P by (done || lia); (rewrite decide_False by lia); [apply Ab; lia|by apply Up].
  - rewrite <- Permutation_cons_append. apply (mapped_pages_add (k_mem s) (k_mem s') (sp_root x) 0 _ (PGROUNDDOWN va)); try done; rewrite ?Pn by lia; try done; [lia| |].
    + by rewrite (pte_of_down _ G) by (apply V || done || lia).
    + intros v Hw Hn'. rewrite P by (done || lia). by rewrite decide_False by tauto.
  - rewrite app_assoc. apply (owned_more s G fl _ used); [done|by apply spaces_pages|done|done].
  - apply Al.
  - intros p Hq. apply elem_of_app. by right.
  - intros p Hq. left. apply elem_of_app. by left.
Qed.

Lemma write_spec k va src : keeps (Write k va src).
Proof.
  intros s sp G fl S (Hk & Hv & Hm & Hw). cbn [run_op]. set (x := nth k sp no_space) in *.
  assert (x ∈ sp) as Hx by (apply list_elem_of_In, nth_In, Hk).
  pose proof (so_root _ _ _ (ss_ok _ _ _ _ S x Hx)) as R. pose proof (ss_vm _ _ _ _ S) as V.
  assert (writable s G fl (sp_root x) va (length src)) as W.
  { split; [done|done|intros v Hr; by apply Hw..| |].
    - intros v a Hr Ha E. destruct (user_owned s sp G fl x v S Hx) as [N1 N2]; [lia|by apply Hw|]. rewrite E in N1, N2.
      destruct Ha as [Ha|[q Ha]]; [done|]. by apply (N2 q).
    - intros v v' Hr Hr' E. apply (same_space s sp G fl x); try done; [lia|lia|by apply Hw]. }
  destruct (copyout_loop_spec (sp_root x) G fl R (length src) src va s V W) as (m' & Ec & Mo & Wr); [lia|].
  destruct (vm_user_write s G fl (sp_root x) va (length src) m' V R W Mo (proj2 Wr)) as [V' P].
  unfold copyout. rewrite (bind_ret _ _ _ _ _ Ec). exists sp, (set_k_mem m' s), G, fl. split; [done|]. split.
  - apply (spaces_same s (set_k_mem m' s) sp G G fl fl []); try done; [by apply more_tables_refl|by apply kept_refl|]. intros r v Hr Hv'. left. by apply P.
  - apply (view_same s (set_k_mem m' s) sp G fl); [done|intros r v _ Hr Hv'; left; by apply P|]. intros b _ Hg. apply (proj2 Wr). intros v Hr ->.
    destruct (user_page s sp G fl x v S Hx) as (_ & _ & _ & Hp); [lia|by apply Hw|]. apply (Hg x _ Hx eq_refl Hp). apply utrans_in_page.
Qed.

Lemma free_spec k : keeps (Free k).
Proof.
  intros s sp G fl S Hk. cbn [run_op].
  destruct (at_index s sp G fl k no_space S Hk) as ([R Hs Ab Up] & _ & _ & l1 & l2 & E1 & _ & E2).
  assert (nth k sp no_space ∈ sp) as Hx by (apply list_elem_of_In, nth_In, Hk). set (x := nth k sp no_space) in *.
  destruct (proc_freepagetable_spec G (sp_root x) (ss_valid _ _ _ _ S) R s fl (sp_size x) (ss_vm _ _ _ _ S) Hs (space_owned _ _ _ _ _ S Hx) Ab)
    as (s' & ts & E & [D1 D2 D3 D4 D5]). rewrite (bind_ret _ _ _ _ _ E).
  fold (pages (k_mem s) x) in D1. set (us := pages (k_mem s) x) in *.
  exists (delete k sp), s', (without (sp_root x) G), (rev ts ++ rev us ++ fl). split; [done|].
  split; [|apply (view_same s s' sp G fl); [done|intros r v Nr R' Hv; left; apply D3; [intros ->; by apply Nr|done|done]|]].
  2: { intros b Hb Hg. apply D4; [done|]. intros u Hu. by apply (Hg x u). }
  rewrite E2. rewrite E1 in S.
  pose proof (spaces_pages _ _ _ _ _ _ S) as W. fold us in W. destruct S as [V Vl O N _ A Rt].
  rewrite <- Permutation_middle in N. cbn [map] in N. apply NoDup_cons in N as [N1 N2].
  assert (forall y, y ∈ l1 ++ l2 -> space_ok (k_mem s') (without (sp_root x) G) y /\ pages (k_mem s') y = pages (k_mem s) y) as Hy.
  { intros y Hy. assert (sp_root y <> sp_root x) as Ne by (intros Ey; apply N1; rewrite <- Ey; by apply list_elem_of_fmap_2).
    assert (space_ok (k_mem s) G y) as Oy by (apply O; rewrite <- Permutation_middle; by apply list_elem_of_further).
    apply (space_ok_same (k_mem s) (k_mem s') G); [rewrite without_ne by done; apply Oy| |done]. intros v Hv. left. apply D3; [done|apply Oy|done]. }
  assert ((l1 ++ l2) ≫= pages (k_mem s') = (l1 ++ l2) ≫= pages (k_mem s)) as Ep by (apply bind_ext; intros y Hi; by apply Hy).
  split; [done| |intros y Hi; by apply Hy|done|rewrite Ep..|].
  - intros [[r l] p] a [Ea _]%lookup_without. by apply (Vl (r, l, p)).
  - destruct W as [W1 W2 W3 W4]. apply NoDup_app in W1 as (W1 & W5 & _).
    rewrite Forall_app in W2. split; [done|by destruct W2|..].
    + intros a Ha Hi. assert (a ∈ ((l1 ++ l2) ≫= pages (k_mem s)) ++ us) as Ha' by (apply elem_of_app; by left).
      rewrite !elem_of_app in Hi. destruct Hi as [Hi|[Hi|Hi]]; [..|by apply (W3 a)].
      * apply list_elem_of_In, in_rev, list_elem_of_In, D5 in Hi as (l & p & Hi). by apply (W4 a (sp_root x, l, p)).
      * apply list_elem_of_In, in_rev, list_elem_of_In in Hi. by apply (W5 a).
    + intros a [[r l] p] Ha [Ea _]%lookup_without. apply (W4 a (r, l, p)); [apply elem_of_app; by left|done].
  - intros a [Ha|[Ha|[[[r l] p] Ha]]]%A.
    + rewrite <- Permutation_middle in Ha. apply elem_of_app in Ha as [Ha|Ha]; [|by left]. right. left. rewrite !elem_of_app, (elem_of_rev us). auto.
    + right. left. rewrite !elem_of_app. auto.
    + right. destruct (decide (r = sp_root x)) as [->|Ne]; [left; rewrite !elem_of_app, elem_of_rev; left; apply D5; eauto|right; exists (r, l, p); by apply lookup_without].
  - intros r [Hr Ne]%lookup_without. apply Rt in Hr. rewrite <- Permutation_middle in Hr. cbn [map] in Hr. by apply elem_of_cons in Hr as [?|?].
Qed.

Lemma op_spec o : keeps o.
Proof. destruct o; [apply create_spec|apply grow_spec|apply shrink_spec|apply extend_spec|apply copy_spec|apply fault_spec|apply write_spec|apply free_spec]. Qed.

(** The states that sequences of operations reach, starting after kinit(). *)
Inductive reach : kstate -> list space -> Prop :=
| reach_boot s0 s : cpu_ok (k_cpu s0) -> mem_ok (k_mem s0) -> km_freelist (k_kmem s0) = 0 -> kinit s0 = Ret tt s -> reach s []
| reach_op o s sp s' sp' : reach s sp -> ok_op o s sp -> run_op o sp s = Ret sp' s' -> reach s' sp'.

Lemma kinit_vmok s0 s : cpu_ok (k_cpu s0) -> mem_ok (k_mem s0) -> km_freelist (k_kmem s0) = 0 -> kinit s0 = Ret tt s -> vmok s ∅ (rev all_pages).
Proof.
  intros C M Z0 E. destruct (kinit_spec s0 C M Z0) as (s' & E' & F & I & _). rewrite E in E'. injection E' as <-.
  split; [exact F|exact I| |]; [split|]; intros; by rewrite lookup_empty in *.
Qed.

Lemma reach_spaces s sp : reach s sp -> exists G fl, spaces s sp G fl.
Proof.
  induction 1 as [s0 s C M Z0 E0|o s sp s' sp' H (G & fl & S) Ho E].
  - exists ∅, (rev all_pages). split; [by apply (kinit_vmok s0)|intros k a; by rewrite lookup_empty|by intros ? ?%elem_of_nil|constructor| |intros a Ha; right; left; by apply elem_of_rev|intros r; by rewrite lookup_empty].
    split; cbn; [apply NoDup_nil_2|apply Forall_nil_2|by intros ? ?%elem_of_nil|by intros ? ? ?%elem_of_nil].
  - destruct (op_spec o s sp G fl S Ho) as (sp2 & s2 & G' & fl' & E2 & S2 & _). rewrite E in E2. injection E2 as <- <-. by exists G', fl'.
Qed.

(** C5 Address spaces stay apart.  After any sequence of the kernel's
    operations on the address spaces of processes (made by proc_pagetable(),
    grown, shrunk, extended without pages, copied for fork, filled on a page
    fault, written, freed), failing ones included, every allowed next operation
    returns and changes no byte that another address space sees; the page
    tables and the free list are well formed; and two user addresses are
    translated to the same physical page only if they are in the same page of
    the same address space, which is never a page table nor a free page. *)
Theorem spaces_isolated s sp : reach s sp ->
  (forall o, ok_op o s sp -> exists sp' s', run_op o sp s = Ret sp' s' /\
     forall y va, y ∈ sp -> Some (sp_root y) <> target o sp -> 0 <= va < MAXVA -> view (k_mem s') (sp_root y) va = view (k_mem s) (sp_root y) va) /\
  exists G fl, vmok s G fl /\
    forall i j x y va va', sp !! i = Some x -> sp !! j = Some y -> 0 <= va < MAXVA -> 0 <= va' < MAXVA ->
      uaddr (k_mem s) (sp_root x) va <> 0 ->
      (uaddr (k_mem s) (sp_root x) va = uaddr (k_mem s) (sp_root y) va' -> i = j /\ va / PGSIZE = va' / PGSIZE) /\
      (uaddr (k_mem s) (sp_root x) va ∉ fl) /\ forall k, G !! k <> Some (uaddr (k_mem s) (sp_root x) va).
Proof.
  intros (G & fl & S)%reach_spaces. split.
  - intros o Ho. destruct (op_spec o s sp G fl S Ho) as (sp' & s' & _ & _ & E & _ & V). eauto.
  - exists G, fl. split; [apply S|]. intros i j x y va va' Hi Hj Hv Hv' Hu.
    pose proof (list_elem_of_lookup_2 _ _ _ Hi) as Hx. pose proof (list_elem_of_lookup_2 _ _ _ Hj) as Hy.
    split; [|by apply (user_owned s sp)]. intros E. assert (i = j) as <-.
    { apply (bind_inj (pages (k_mem s)) sp (ow_nodup _ _ _ (ss_owned _ _ _ _ S)) i j x y (uaddr (k_mem s) (sp_root x) va)); try done.
      - by apply (user_page s sp G fl x).
      - rewrite E. apply (user_page s sp G fl y); try done. congruence. }
    split; [done|]. assert (x = y) as <- by congruence. by apply (same_space s sp G fl x).
Qed.

(** The pages of the page tables. *)
Definition table_pages (G : tables) : list Z := (map_to_list G).*2.

Lemma elem_of_table_pages G a : a ∈ table_pages G <-> exists k, G !! k = Some a.
Proof.
  unfold table_pages. rewrite list_elem_of_fmap. split; [intros ([k b] & -> & H); exists k; by apply elem_of_map_to_list in H|].
  intros (k & H). exists (k, a). split; [done|by apply elem_of_map_to_list].
Qed.

Lemma NoDup_table_pages m G : forest m G -> NoDup (table_pages G).
Proof.
  intros F. apply NoDup_fmap_2_strong; [|apply NoDup_map_to_list]. intros [k a] [k' a'] H H' E. cbn in E. subst a'.
  apply elem_of_map_to_list in H, H'. by rewrite (fo_inj _ _ F _ _ _ H H').
Qed.

(** C6 No page is lost.  After any such sequence, the free pages, the
    page-table pages and the user pages of the address spaces are, each once,
    the pages that the kernel was given at boot, and every page table belongs
    to an address space; so when the last address space is freed all the pages
    are free again and the allocator's counter says so. *)
Theorem spaces_no_leak s sp : reach s sp ->
  exists G fl, vmok s G fl /\ fl ++ table_pages G ++ (sp ≫= pages (k_mem s)) ≡ₚ all_pages /\
    (forall r l p a, G !! (r, l, p) = Some a -> exists x, x ∈ sp /\ sp_root x = r) /\
    (sp = [] -> fl ≡ₚ all_pages /\ km_nfree (k_kmem s) = Z.of_nat npages).
Proof.
  intros (G & fl & [V Vl O N [W1 W2 W3 W4] A Rt])%reach_spaces. exists G, fl. split; [done|]. pose proof (vo_forest _ _ _ V) as F.
  assert (forall r l p a, G !! (r, l, p) = Some a -> exists x, x ∈ sp /\ sp_root x = r) as Hr.
  { intros r l p a E. apply (fo_root _ _ F), Rt in E. apply list_elem_of_fmap in E as (x & -> & ?). eauto. }
  assert (fl ++ table_pages G ++ (sp ≫= pages (k_mem s)) ≡ₚ all_pages) as P.
  { apply NoDup_Permutation; [|apply NoDup_all_pages|].
    - apply NoDup_app. split; [apply V|]. split; [|apply NoDup_app; split; [by eapply NoDup_table_pages|split; [|done]]].
      + intros a Ha [[k Hk]%elem_of_table_pages|Hu]%elem_of_app; [by apply (vo_disj _ _ _ V k a)|by apply (W3 a)].
      + intros a [k Hk]%elem_of_table_pages Ha. by apply (W4 a k).
    - intros a. rewrite elem_of_all_pages, !elem_of_app, elem_of_table_pages. split.
      + intros [Ha|[[k Hk]|Ha]]; [|by apply (Vl k)|].
        * pose proof (ki_valid _ _ (vo_kmem _ _ _ V)) as VL. rewrite Forall_forall in VL. by apply VL.
        * rewrite Forall_forall in W2. by apply W2.
      + intros Ha. apply elem_of_all_pages, A in Ha. tauto. }
  split; [done|]. split; [done|]. intros ->. assert (table_pages G = []) as Et.
  { destruct (table_pages G) as [|a l] eqn:E; [done|]. assert (a ∈ table_pages G) as Ha by (rewrite E; apply list_elem_of_here).
    apply elem_of_table_pages in Ha as ([[r l'] p] & Hk). apply Hr in Hk as (x & Hx & _). by apply elem_of_nil in Hx. }
  rewrite Et in P. cbn in P. rewrite app_nil_r in P. split; [done|]. rewrite (ki_nfree _ _ (vo_kmem _ _ _ V)), P. unfold all_pages. by rewrite length_pages_from.
Qed.

(** ** Running a sequence *)

Definition page_okb (pa : Z) : bool := ((pa mod PGSIZE =? 0) && (0 <=? pa) && (pa + PGSIZE <=? 2 ^ 56))%bool.

Definition ok_opb (o : op) (s : kstate) (sp : list space) : bool :=
  match o with
  | Create i => page_okb ktrampoline && page_okb (p_trapframe (nth i (k_procs s) zero_proc))
  | Grow k newsz xperm => (k <? length sp)%nat && (0 <=? newsz) && (newsz <=? TRAPFRAME) &&
      (0 <=? Z.lor (Z.lor PTE_R PTE_U) xperm) && (Z.lor (Z.lor PTE_R PTE_U) xperm <? 1024)
  | Shrink k newsz => (k <? length sp)%nat && (0 <=? newsz)
  | Extend k newsz => (k <? length sp)%nat && (sp_size (nth k sp no_space) <=? newsz) && (newsz <=? TRAPFRAME)
  | Copy k j => (k <? length sp)%nat && (j <? length sp)%nat && negb (k =? j)%nat && (sp_size (nth j sp no_space) =? 0)
  | Fault k va rd => (k <? length sp)%nat && (0 <=? va) &&
      match c_proc (k_cpu s) with
      | Some i => (p_pagetable (nth i (k_procs s) zero_proc) =? sp_root (nth k sp no_space)) && (p_sz (nth i (k_procs s) zero_proc) =? sp_size (nth k sp no_space))
      | None => false
      end
  | Write k va src => (k <? length sp)%nat && (0 <=? va) && (va + Z.of_nat (length src) <=? MAXVA) &&
      forallb (fun i => let v := va + Z.of_nat i in let r := sp_root (nth k sp no_space) in
        negb (uaddr (k_mem s) r v =? 0) && has (pte_of (k_mem s) r v) PTE_W) (seq 0 (length src))
  | Free k => (k <? length sp)%nat
  end%bool.

Lemma ok_opb_ok o s sp : ok_opb o s sp = true -> ok_op o s sp.
Proof.
  destruct o; cbn [ok_op ok_opb]; unfold page_okb, page_ok, page_aligned;
    repeat (rewrite andb_true_iff || rewrite Nat.ltb_lt || rewrite Z.leb_le || rewrite Z.ltb_lt || rewrite Z.eqb_eq || rewrite negb_true_iff || rewrite Nat.eqb_neq); try tauto.
  - intros [H1 H2]. split; [tauto|]. split; [tauto|]. destruct (c_proc (k_cpu s)) as [i|] eqn:E; [|done]. apply andb_true_iff in H2 as [A B]; apply Z.eqb_eq in A, B. by exists i.
  - intros [H1 H2]. split; [tauto|]. split; [tauto|]. split; [tauto|]. intros v Hv. rewrite forallb_forall in H2.
    specialize (H2 (Z.to_nat (v - va))). rewrite in_seq, Z2Nat.id in H2 by lia. replace (va + (v - va)) with v in H2 by lia.
    destruct (proj1 (andb_true_iff _ _) (H2 ltac:(lia))) as [A B]. apply negb_true_iff, Z.eqb_neq in A. done.
Qed.

(** A sequence of allowed operations. *)
Fixpoint run_ops (os : list op) (sp : list space) (s : kstate) : option (list space * kstate) :=
  match os with
  | [] => Some (sp, s)
  | o :: os' =>
      if ok_opb o s sp then
        match run_op o sp s with
        | Ret sp' s' => run_ops os' sp' s'
        | _ => None
        end
      else None
  end.

Lemma run_ops_reach os : forall sp s sp' s', reach s sp -> run_ops os sp s = Some (sp', s') -> reach s' sp'.
Proof.
  induction os as [|o os IH]; intros sp s sp' s' R; cbn [run_ops]; [by intros [= <- <-]|].
  destruct (ok_opb o s sp) eqn:Ok; [|done]. destruct (run_op o sp s) as [sp1 s1| | | |] eqn:E; try done. apply IH. eapply reach_op; [done|by apply ok_opb_ok|done].
Qed.

End Isolation.

#[local] Existing Instance small_layout.

(** A parent with one page, its copy, and a write to the copy. *)
Definition demo : kstate := set_k_procs (replicate 64 (set_p_trapframe (KERNBASE + 0x6000) zero_proc)) bss.

Definition demo_run (os : list op) (P : list space -> kstate -> bool) : bool :=
  match kinit demo with
  | Ret _ s => match run_ops os [] s with Some (sp, s') => P sp s' | None => false end
  | _ => false
  end.

Lemma demo_run_reach os P : demo_run os P = true -> exists sp s, reach s sp /\ P sp s = true.
Proof.
  unfold demo_run. intros H. destruct (kinit demo) as [[] s| | | |] eqn:E; try discriminate H.
  destruct (run_ops os [] s) as [[sp s']|] eqn:E1; [|discriminate H]. exists sp, s'. split; [|exact H].
  apply (run_ops_reach os [] s); [|exact E1]. apply (reach_boot demo); [split; simpl; lia|exact mem_ok_empty|reflexivity|exact E].
Qed.

Lemma demo_fork : exists sp s, reach s sp /\ exists x y, sp = [x; y] /\ sp_root x <> sp_root y /\ ok_op (Write 1 5 [7]) s sp /\
  view (k_mem s) (sp_root x) 5 = Some 0 /\ exists s', run_ops [Free 0; Free 0] sp s = Some ([], s').
Proof.
  destruct (demo_run_reach [Create 0; Create 1; Grow 0 0x1000 PTE_W; Copy 0 1]
    (fun sp s => match sp with
       | [x; y] => negb (sp_root x =? sp_root y) && ok_opb (Write 1 5 [7]) s sp && bool_decide (view (k_mem s) (sp_root x) 5 = Some 0) &&
           match run_ops [Free 0; Free 0] sp s with Some ([], _) => true | _ => false end
       | _ => false
       end)%bool) as (sp & s & R & H); [vm_compute; reflexivity|].
  exists sp, s. split; [exact R|]. destruct sp as [|x [|y [|? ?]]]; try discriminate H. exists x, y. split; [reflexivity|].
  apply andb_true_iff in H as [[[H1 H2]%andb_true_iff H3]%andb_true_iff H4]. split; [by apply Z.eqb_neq, negb_true_iff|]. split; [by apply ok_opb_ok|]. split; [exact (bool_decide_eq_true_1 _ H3)|].
  destruct (run_ops [Free 0; Free 0] [x; y] s) as [[[|? ?] s']|]; [|discriminate H4..]. exists s'. reflexivity.
Qed.

Lemma spaces_isolated_witness : exists s x y sp' s', reach s [x; y] /\ run_op (Write 1 5 [7]) [x; y] s = Ret sp' s' /\ view (k_mem s') (sp_root x) 5 = Some 0.
Proof.
  destruct demo_fork as (sp & s & R & x & y & -> & Ne & Ok & V & _).
  destruct (spaces_isolated s [x; y] R) as [H _]. destruct (H (Write 1 5 [7]) Ok) as (sp' & s' & E & W).
  exists s, x, y, sp', s'. split; [exact R|]. split; [exact E|]. rewrite W; [exact V|apply list_elem_of_here|intros [= ?]; contradiction|split; [lia|reflexivity]].
Defined.

(** Two processes come and go. *)
Lemma demo_exit : exists s, reach s [].
Proof.
  destruct demo_fork as (sp & s & R & x & y & _ & _ & _ & _ & s' & E). exists s'. exact (run_ops_reach _ sp s [] s' R E).
Qed.

Lemma spaces_no_leak_witness : exists s, reach s [] /\ km_nfree (k_kmem s) = 16.
Proof.
  destruct demo_exit as (s & R). exists s. split; [exact R|]. destruct (spaces_no_leak s [] R) as (G & fl & _ & _ & _ & H). exact (proj2 (H eq_refl)).
Defined.
