(* ===== verification/Seq.v ===== *)
(** * Uncontended runs of kernel code

    The rules by which code runs on one hart when the spin locks it takes are
    free: [does H m s a H' s'] says that [m], started in [s] with the spin
    locks [H] held, returns [a] in [s'] with [H'] held.  The bookkeeping of the
    hart (nesting depth, interrupt state, which locks are held) is kept out of
    [s], and so is the process table, where wakeup() may make sleeping
    processes runnable. *)

From S2P Require Import Prelude Riscv Memory KState KMonad Spinlock Kalloc Vm Proc ProcSpec SleepSpec.

Section Seq.
Variables (me : nat) (pid : Z).

(** The hart runs process [me] and is outside all critical sections. *)
Record calm (s : kstate) : Prop := {
  calm_noff : c_noff (k_cpu s) = 0;
  calm_intena : c_intena (k_cpu s) = c_intr (k_cpu s);
  calm_proc : c_proc (k_cpu s) = Some me;
}.

(** Process tables in which [me] has process id [pid]. *)
Definition goodp (P : list proc) : Prop :=
  length P = NPROC /\ (me < NPROC)%nat /\ p_pid (nth me P zero_proc) = pid.

Definition held (H : list lockid) (id : Z) : gmap lockid Z := foldr (fun lk m => <[lk := id]> m) ∅ H.

(** The state [s] with process table [P] and the locks [H] held. *)
Definition at_ (H : list lockid) (P : list proc) (s : kstate) : kstate :=
  set_k_procs P (set_k_locks (held H (c_id (k_cpu s))) (set_k_cpu (Nat.iter (length H) push (k_cpu s)) s)).

Definition does {A} (H : list lockid) (m : K A) (s : kstate) (a : A) (H' : list lockid) (s' : kstate) : Prop :=
  calm s -> k_cpu s' = k_cpu s /\
  forall P, goodp P -> exists P', goodp P' /\ m (at_ H P s) = Ret a (at_ H' P' s').

Lemma calm_cpu s s' : k_cpu s' = k_cpu s -> calm s -> calm s'.
Proof. intros E [? ? ?]. split; by rewrite E. Qed.

Lemma does_ret {A} H (a : A) s : does H (mret a) s a H s.
Proof. intros C. split; [done|]. intros P G. by exists P. Qed.

Lemma does_bind {A B} H H1 H2 (m : K A) (k : A -> K B) s s1 s2 a b :
  does H m s a H1 s1 -> does H1 (k a) s1 b H2 s2 -> does H (m ≫= k) s b H2 s2.
Proof.
  intros D1 D2 C. destruct (D1 C) as [E1 R1]. destruct (D2 (calm_cpu _ _ E1 C)) as [E2 R2].
  split; [congruence|]. intros P G. destruct (R1 P G) as (P1 & G1 & X1). destruct (R2 P1 G1) as (P2 & G2 & X2).
  exists P2. split; [done|]. by rewrite (bind_ret _ _ _ _ _ X1).
Qed.

Lemma does_gets {A} H (g : kstate -> A) s : (forall P, g (at_ H P s) = g s) -> does H (gets g) s (g s) H s.
Proof. intros E C. split; [done|]. intros P G. exists P. unfold gets. by rewrite E. Qed.

Lemma does_modify H (g : kstate -> kstate) s :
  (forall P, g (at_ H P s) = at_ H P (g s)) -> k_cpu (g s) = k_cpu s -> does H (modify g) s tt H (g s).
Proof. intros E1 E2 C. split; [done|]. intros P G. exists P. unfold modify. by rewrite E1. Qed.

(** ** Locks *)

Lemma iter_push n c : c_noff c = 0 ->
  let c' := Nat.iter n push c in
  c_noff c' = Z.of_nat n /\ c_id c' = c_id c /\ c_proc c' = c_proc c /\ cpu_ok c'.
Proof.
  intros H. induction n as [|n IH]; cbn [Nat.iter].
  { change (Nat.iter 0 push c) with c. split; [done|]. do 2 (split; [done|]). split; [lia|intros; lia]. }
  change (Nat.iter (S n) push c) with (push (Nat.iter n push c)).
  set (x := Nat.iter n push c) in *. clearbody x. destruct IH as (I1 & I2 & I3 & I4).
  split; [unfold push; simpl; lia|]. split; [|split; [|by apply cpu_ok_push]];
    unfold push; simpl; destruct (c_noff x =? 0); done.
Qed.

Lemma held_lookup H id lk : held H id !! lk = if decide (lk ∈ H) then Some id else None.
Proof.
  induction H as [|x H IH]; [done|]. cbn [held foldr]. fold (held H id).
  destruct (decide (lk = x)) as [->|N].
  - rewrite lookup_insert_eq, decide_True; [done|]. apply list_elem_of_here.
  - rewrite lookup_insert_ne, IH by done. apply decide_ext. rewrite elem_of_cons. tauto.
Qed.

Lemma at_settle H P s : calm s -> ksettle (at_ H P s) = at_ H P s.
Proof.
  intros C. unfold ksettle, at_, set_k_cpu, set_k_procs, set_k_locks. simpl. f_equal. unfold settle.
  destruct (iter_push (length H) (k_cpu s) (calm_noff s C)) as (I1 & _). simpl in I1. rewrite I1.
  destruct H as [|x H]; [|done]. change (Nat.iter (length []) push (k_cpu s)) with (k_cpu s).
  change (Z.of_nat (length []) =? 0) with true. cbv iota. rewrite <- (calm_intena s C). done.
Qed.

Lemma at_free lk H P s : calm s -> (lk ∉ H) -> lk_free lk (at_ H P s).
Proof.
  intros C N. split; [apply iter_push, calm_noff, C|]. simpl. by rewrite held_lookup, decide_False.
Qed.

Lemma acq_put lk m c P s :
  acq lk (set_k_procs P (set_k_locks m (set_k_cpu c s))) =
  set_k_procs P (set_k_locks (<[lk := c_id c]> m) (set_k_cpu (push c) s)).
Proof. reflexivity. Qed.

Lemma at_acq lk H P s : calm s -> acq lk (at_ H P s) = at_ (lk :: H) P s.
Proof.
  intros C. unfold at_ at 1. rewrite acq_put.
  destruct (iter_push (length H) (k_cpu s) (calm_noff s C)) as (_ & E & _). rewrite E. reflexivity.
Qed.

Lemma does_acquire lk H s : (lk ∉ H) -> does H (acquire lk) s tt (lk :: H) s.
Proof.
  intros N C. split; [done|]. intros P G. exists P. split; [done|].
  rewrite acquire_eq by (by apply at_free). by rewrite at_acq.
Qed.

Lemma does_release lk H s : (lk ∉ H) -> does (lk :: H) (release lk) s tt H s.
Proof.
  intros N C. split; [done|]. intros P G. exists P. split; [done|]. rewrite <- at_acq by done.
  pose proof (at_free lk H P s C N) as F. rewrite release_eq by (apply acq_held, F).
  rewrite rel_acq by done. by rewrite at_settle.
Qed.

Lemma does_myproc H s : does H myproc s (Some me) H s.
Proof.
  intros C. split; [done|]. intros P G. exists P. split; [done|].
  destruct (iter_push (length H) (k_cpu s) (calm_noff s C)) as (_ & _ & I3 & I4).
  rewrite myproc_eq by done. rewrite at_settle by done. f_equal. simpl in *. rewrite I3. apply C.
Qed.

Lemma does_curproc {B} H H' (k : nat * proc -> K B) s b s' :
  (forall p, p_pid p = pid -> does H (k (me, p)) s b H' s') -> does H (curproc ≫= k) s b H' s'.
Proof.
  intros D C. split; [apply (D (set_p_pid pid zero_proc)); done|]. intros P G.
  assert (curproc (at_ H P s) = Ret (me, nth me P zero_proc) (at_ H P s)) as E.
  { destruct (iter_push (length H) (k_cpu s) (calm_noff s C)) as (_ & _ & I3 & I4).
    rewrite (curproc_eq _ me) by (try done; simpl in *; rewrite I3; apply C). by rewrite at_settle. }
  rewrite (bind_ret _ _ _ _ _ E). apply (D (nth me P zero_proc)); [apply G|done|done].
Qed.

Lemma wake_pid ch p : p_pid (wake ch p) = p_pid p.
Proof. unfold wake. by case_match. Qed.

Lemma goodp_wake ch P : goodp P -> goodp (wake_all (Some me) ch P).
Proof.
  intros (G1 & M & G2). split; [unfold wake_all; by rewrite length_imap|]. split; [done|]. unfold wake_all.
  rewrite nth_imap by lia. case_bool_decide; [done|]. by rewrite wake_pid.
Qed.

Lemma does_wakeup ch H s : (forall j, LProc j ∉ H) -> does H (wakeup ch) s tt H s.
Proof.
  intros N C. split; [done|]. intros P G. exists (wake_all (Some me) ch P). split; [by apply goodp_wake|].
  destruct (iter_push (length H) (k_cpu s) (calm_noff s C)) as (_ & _ & I3 & I4).
  rewrite wakeup_spec; [|split; [done|]; intros j _; apply (at_free (LProc j)); [done|apply N]|apply G].
  rewrite at_settle by done. simpl in *. rewrite I3, (calm_proc s C). done.
Qed.

(** ** Loops and conditionals *)

Lemma does_kwhen (b : bool) H (m : K unit) s s' :
  (b = true -> does H m s tt H s') -> (b = false -> s' = s) -> does H (kwhen b m) s tt H s'.
Proof.
  intros D1 D2. destruct b; unfold kwhen; [by apply D1|]. rewrite D2 by done. apply does_ret.
Qed.

(** A loop whose body takes [I i] to [I (S i)]. *)
Lemma does_kfor (I : nat -> kstate -> Prop) H (body : nat -> K unit) n : forall k s,
  (forall i s, (k <= i < k + n)%nat -> I i s -> exists s', does H (body i) s tt H s' /\ I (S i) s') ->
  I k s -> exists s', does H (kfor (seq k n) body) s tt H s' /\ I (k + n)%nat s'.
Proof.
  induction n as [|n IH]; intros k s Hb Hk.
  - exists s. split; [apply does_ret|]. by rewrite Nat.add_0_r.
  - destruct (Hb k s ltac:(lia) Hk) as (s1 & D1 & I1).
    destruct (IH (S k) s1) as (s2 & D2 & I2); [intros i s' Hi; apply Hb; lia|done|].
    exists s2. split; [|by replace (k + S n)%nat with (S k + n)%nat by lia].
    cbn [seq kfor]. eapply does_bind; [exact D1|exact D2].
Qed.

(** An uncontended run is a run. *)
Lemma does_run {A} (m : K A) s a s' : does [] m s a [] s' -> calm s -> goodp (k_procs s) -> k_locks s = ∅ ->
  exists P, goodp P /\ m s = Ret a (set_k_procs P (set_k_locks ∅ s')).
Proof.
  intros D C G E. destruct (D C) as [E1 R]. destruct (R _ G) as (P & G1 & X). exists P. split; [done|].
  assert (at_ [] (k_procs s) s = s) as E2.
  { unfold at_. simpl. rewrite <- E. reflexivity. }
  rewrite E2 in X. rewrite X. unfold at_. simpl. rewrite E1. unfold set_k_cpu. simpl. by rewrite <- E1.
Qed.

End Seq.

(** [dgo] runs the steps whose effect is read off the code. *)
Ltac dstep :=
  first
  [ eapply does_bind; [apply does_ret|]
  | eapply does_bind; [apply does_gets; reflexivity|]
  | eapply does_bind; [apply does_modify; reflexivity|]
  | eapply does_bind; [apply does_acquire; set_solver|]
  | eapply does_bind; [apply does_release; set_solver|] ].
