(* ===== verification/PrintSpec.v ===== *)
(** * Output of the kernel in an uncontended run

    printf() returns, and has an effect on the characters sent only. *)

From S2P Require Import Prelude Riscv Memory KState KMonad Spinlock Kalloc Vm Proc ProcSpec SleepSpec Seq Printf.

Section Print.
Variables (me : nat) (pid : Z).
#[local] Abbreviation does := (does me pid).

Lemma does_uartputc H c s : does H (uartputc_sync c) s tt H (set_k_out (u8 c :: k_out s) s).
Proof.
  intros C. split; [done|]. intros P G. exists P. split; [done|].
  destruct (iter_push (length H) (k_cpu s) (calm_noff me s C)) as (I1 & _ & _ & I4).
  pose proof (at_settle me H P s C) as St.
  change (at_ H P (set_k_out (u8 c :: k_out s) s)) with (set_k_out (u8 c :: k_out (at_ H P s)) (at_ H P s)).
  assert (cpu_ok (k_cpu (at_ H P s))) as Ok by done.
  set (x := at_ H P s) in *. clearbody x.
  destruct (Z.eqb_spec (k_panicking x) 0) as [E|E].
  - rewrite uartputc_sync_eq by done. by rewrite St.
  - unfold uartputc_sync. kstep. apply Z.eqb_neq in E as ->. done.
Qed.

(** Routines that only print. *)
Definition prints (H : list lockid) (m : K unit) : Prop := forall s, exists o, does H m s tt H (set_k_out o s).

Lemma prints_ret H : prints H (mret tt).
Proof. intros s. exists (k_out s). apply does_ret. Qed.

Lemma prints_bind H (m1 m2 : K unit) : prints H m1 -> prints H m2 -> prints H (m1 ;; m2).
Proof.
  intros P1 P2 s. destruct (P1 s) as [o1 D1]. destruct (P2 (set_k_out o1 s)) as [o2 D2].
  exists o2. eapply does_bind; [exact D1|exact D2].
Qed.

Lemma prints_consputc H c : prints H (consputc c).
Proof.
  assert (forall c, prints H (uartputc_sync c)) as U by (intros d s; eexists; apply does_uartputc).
  unfold consputc. destruct (c =? BACKSPACE); auto using prints_bind.
Qed.

Lemma prints_consputs H l : prints H (consputs l).
Proof. induction l as [|c l IH]; simpl; auto using prints_ret, prints_bind, prints_consputc. Qed.

Create HintDb prints discriminated.
#[local] Hint Resolve prints_ret prints_bind prints_consputc prints_consputs : prints.

Lemma prints_loop H : forall n fmt args, (length fmt <= n)%nat -> prints H (printf_loop fmt args).
Proof.
  induction n as [|n IH]; intros fmt args Hn; [destruct fmt; [apply prints_ret|simpl in Hn; lia]|].
  destruct fmt as [|cx f1]; [apply prints_ret|]. simpl in Hn. cbn [printf_loop].
  assert (forall f a, (length f <= length f1)%nat -> prints H (printf_loop f a)) as R by (intros; apply IH; lia).
  destruct (negb (cx =? 37)); [auto with prints|].
  destruct f1 as [|c0 f2]; [apply prints_ret|].
  assert (forall a, prints H (match f2 with _ :: f3 => printf_loop f3 a | [] => mret tt end)) as R1
    by (intros a; destruct f2; [apply prints_ret|apply R; simpl; lia]).
  assert (forall a, prints H (match f2 with _ :: _ :: f4 => printf_loop f4 a | _ => mret tt end)) as R2
    by (intros a; destruct f2 as [|? [|]]; [apply prints_ret|apply prints_ret|apply R; simpl; lia]).
  assert (forall a, prints H (printf_loop f2 a)) as R3 by (intros a; apply R; simpl; lia).
  assert (forall x b g, prints H (printint x b g)) as Pi by (intros; apply prints_consputs).
  assert (forall x, prints H (printptr x)) as Pp by (intros; unfold printptr; auto with prints).
  repeat match goal with |- prints _ (if ?b then _ else _) => destruct b end; auto 6 with prints.
Qed.

Lemma prints_printf H fmt args : (LPr ∉ H) -> prints H (printf fmt args).
Proof.
  intros N s. unfold printf.
  destruct (prints_loop (if k_panicking s =? 0 then LPr :: H else H) _ (chars fmt) args (Nat.le_refl _) s) as [o D1].
  exists o. eapply does_bind; [by apply does_gets|]. destruct (k_panicking s =? 0) eqn:E; unfold kwhen.
  - eapply does_bind; [by apply does_acquire|]. eapply does_bind; [exact D1|].
    eapply does_bind; [by apply (does_gets _ _ _ (fun s => s.(k_panicking)))|].
    change (k_panicking (set_k_out o s)) with (k_panicking s). rewrite E. by apply does_release.
  - eapply does_bind; [apply does_ret|]. eapply does_bind; [exact D1|].
    eapply does_bind; [by apply (does_gets _ _ _ (fun s => s.(k_panicking)))|].
    change (k_panicking (set_k_out o s)) with (k_panicking s). rewrite E. apply does_ret.
Qed.

End Print.
