(* ===== verification/Syscall.v ===== *)
(** * System call arguments (kernel/syscall.c)

    The registers of the trap frame are arguments of a system call; addresses
    are read through the page table of the calling process.  The dispatch
    table is in Dispatch. *)

From S2P Require Import Prelude Riscv Memory KState KMonad Spinlock Kalloc Vm Proc.

Section Syscall.
Context {L : Layout}.

Definition fetchaddr (addr : Z) : K (option Z) :=
  '(_, p) ← curproc;
  if ((p.(p_sz) <=? addr) || (p.(p_sz) <? u64 (addr + 8)))%bool then mret None else
  r ← copyin p.(p_pagetable) addr 8;
  mret (match r with Some bs => Some (of_bytes bs) | None => None end).

(** fetchstr(): the string copied to the buffer, whose length is the result;
    None is -1. *)
Definition fetchstr (addr : Z) (max : nat) : K (option (list Z)) :=
  '(_, p) ← curproc;
  copyinstr p.(p_pagetable) addr max.

Definition argraw (n : Z) : K Z :=
  '(_, p) ← curproc;
  if ((0 <=? n) && (n <=? 5))%bool then kload (p.(p_trapframe) + TF_a n)
  else kpanic "argraw".

Definition argint (n : Z) : K Z := v ← argraw n; mret (s32 v).
Definition argaddr (n : Z) : K Z := argraw n.

Definition argstr (n : Z) (max : nat) : K (option (list Z)) :=
  addr ← argaddr n;
  fetchstr addr max.

End Syscall.
