(* ===== verification/Sysproc.v ===== *)
(** * System calls on processes, memory and the shared buffer
      (kernel/sysproc.c), the code

    The result of a system call is the 64-bit value stored in register a0: a
    C result of -1 is [u64 (-1)].  sys_fork() and sys_exit(), which need the
    file system, are in Life. *)

From S2P Require Import Prelude Abi Riscv Memory KState KMonad Spinlock Kalloc Vm Proc Syscall.

Definition ENCRYPT_KEY : Z := 0x5A.
Definition BUFFER_SIZE : Z := 10.

Section Sysproc.
Context {L : Layout}.

Definition sys_getpid : K Z :=
  '(_, p) ← curproc;
  mret (u64 p.(p_pid)).

(** [n] bounds how often the caller sleeps. *)
Definition sys_wait (n : nat) : K Z :=
  p ← argaddr 0;
  r ← kwait n p;
  mret (u64 r).

Definition sys_sbrk : K Z :=
  n ← argint 0;
  t ← argint 1;
  '(i, p) ← curproc;
  let addr := p.(p_sz) in
  if ((t =? SBRK_EAGER) || (n <? 0))%bool then
    r ← growproc n;
    if r <? 0 then mret (u64 (-1)) else mret addr
  else
    if u64 (addr + n) <? addr then mret (u64 (-1)) else
    if TRAPFRAME <? u64 (addr + n) then mret (u64 (-1)) else
    '(i, _) ← curproc;
    updproc i (fun p => set_p_sz (u64 (p.(p_sz) + n)) p) ;;
    mret addr.

(** The loop of sys_pause(); [fuel] bounds how often it sleeps. *)
Fixpoint pause_loop (fuel : nat) (ticks0 n : Z) : K Z :=
  t ← gets (fun s => s.(k_ticks));
  if u32 (t - ticks0) <? u32 n then
    match fuel with
    | O => unbounded
    | S fuel' =>
        '(i, _) ← curproc;
        k ← killed i;
        if negb (k =? 0) then release LTicks ;; mret (u64 (-1)) else
        sleep ChTicks LTicks ;;
        pause_loop fuel' ticks0 n
    end
  else release LTicks ;; mret 0.

Definition sys_pause (fuel : nat) : K Z :=
  n ← argint 0;
  let n := if n <? 0 then 0 else n in
  acquire LTicks ;;
  ticks0 ← gets (fun s => s.(k_ticks));
  pause_loop fuel ticks0 n.

Definition sys_kill : K Z :=
  pid ← argint 0;
  r ← kkill pid;
  mret (u64 r).

Definition sys_uptime : K Z :=
  acquire LTicks ;;
  xticks ← gets (fun s => s.(k_ticks));
  release LTicks ;;
  mret (u64 xticks).

Definition sys_settickets : K Z :=
  n ← argint 0;
  let n := if n <? 1 then 1 else n in
  '(i, _) ← curproc;
  acquire (LProc i) ;;
  '(j, _) ← curproc;
  updproc j (set_p_tickets n) ;;
  '(k, _) ← curproc;
  release (LProc k) ;;
  mret 0.

Definition sys_freemem : K Z :=
  n ← getfreepages;
  mret (u64 (n * PGSIZE)).

Definition sys_memstat : K Z :=
  freepages_addr ← argaddr 0;
  totalalloc_addr ← argaddr 1;
  '(freepages, totalalloc) ← getmemstat;
  '(_, p) ← curproc;
  r ← copyout p.(p_pagetable) freepages_addr (bytes_of 8 freepages);
  if r <? 0 then mret (u64 (-1)) else
  r ← copyout p.(p_pagetable) totalalloc_addr (bytes_of 8 totalalloc);
  if r <? 0 then mret (u64 (-1)) else
  mret 0.

(** ** The XOR cipher *)

Definition xor_bytes (buf : list Z) : list Z := map (fun b => Z.lxor b ENCRYPT_KEY) buf.

(** The loop of sys_encrypt(), in chunks of 512 bytes; [fuel] bounds the
    chunks, of which a length of at most 4096 has eight. *)
Fixpoint encrypt_loop (fuel : nat) (pagetable addr len processed : Z) : K Z :=
  if processed <? len then
    match fuel with
    | O => unbounded
    | S fuel' =>
        let chunk := if 512 <? len - processed then 512 else len - processed in
        buf ← copyin pagetable (u64 (addr + processed)) (Z.to_nat chunk);
        match buf with
        | None => mret (u64 (-1))
        | Some buf =>
            r ← copyout pagetable (u64 (addr + processed)) (xor_bytes buf);
            if r <? 0 then mret (u64 (-1)) else
            encrypt_loop fuel' pagetable addr len (processed + chunk)
        end
    end
  else mret (u64 len).

Definition sys_encrypt : K Z :=
  addr ← argaddr 0;
  len ← argint 1;
  if ((len <=? 0) || (4096 <? len))%bool then mret (u64 (-1)) else
  '(_, p) ← curproc;
  encrypt_loop 8 p.(p_pagetable) addr len 0.

Definition sys_decrypt : K Z := sys_encrypt.

(** ** The shared producer-consumer buffer *)

Definition upd_sharedbuf (f : sharedbuf -> sharedbuf) : K unit :=
  modify (fun s => set_k_sharedbuf (f s.(k_sharedbuf)) s).

Definition sys_buffer_init : K Z :=
  acquire LSharedbuf ;;
  kfor (seq 0 (Z.to_nat BUFFER_SIZE)) (fun i => upd_sharedbuf (fun b => set_sb_buffer (<[i := 0]> b.(sb_buffer)) b)) ;;
  upd_sharedbuf (set_sb_count 0) ;;
  upd_sharedbuf (set_sb_in 0) ;;
  upd_sharedbuf (set_sb_out 0) ;;
  upd_sharedbuf (set_sb_produced_total 0) ;;
  upd_sharedbuf (set_sb_consumed_total 0) ;;
  upd_sharedbuf (set_sb_initialized 1) ;;
  release LSharedbuf ;;
  mret 0.

Definition sys_produce : K Z :=
  item ← argint 0;
  acquire LSharedbuf ;;
  b ← gets (fun s => s.(k_sharedbuf));
  if b.(sb_initialized) =? 0 then release LSharedbuf ;; mret (u64 (-2)) else
  if BUFFER_SIZE <=? b.(sb_count) then release LSharedbuf ;; mret (u64 (-1)) else
  upd_sharedbuf (fun b => set_sb_buffer (<[Z.to_nat b.(sb_in) := item]> b.(sb_buffer)) b) ;;
  upd_sharedbuf (fun b => set_sb_in (crem (b.(sb_in) + 1) BUFFER_SIZE) b) ;;
  upd_sharedbuf (fun b => set_sb_count (s32 (b.(sb_count) + 1)) b) ;;
  upd_sharedbuf (fun b => set_sb_produced_total (s32 (b.(sb_produced_total) + 1)) b) ;;
  release LSharedbuf ;;
  mret 0.

Definition sys_consume : K Z :=
  item_addr ← argaddr 0;
  acquire LSharedbuf ;;
  b ← gets (fun s => s.(k_sharedbuf));
  if b.(sb_initialized) =? 0 then release LSharedbuf ;; mret (u64 (-2)) else
  if b.(sb_count) <=? 0 then release LSharedbuf ;; mret (u64 (-1)) else
  item ← gets (fun s => nth (Z.to_nat s.(k_sharedbuf).(sb_out)) s.(k_sharedbuf).(sb_buffer) 0);
  upd_sharedbuf (fun b => set_sb_out (crem (b.(sb_out) + 1) BUFFER_SIZE) b) ;;
  upd_sharedbuf (fun b => set_sb_count (s32 (b.(sb_count) - 1)) b) ;;
  upd_sharedbuf (fun b => set_sb_consumed_total (s32 (b.(sb_consumed_total) + 1)) b) ;;
  release LSharedbuf ;;
  '(_, p) ← curproc;
  r ← copyout p.(p_pagetable) item_addr (bytes_of 4 item);
  if r <? 0 then mret (u64 (-3)) else
  mret 0.

Definition sys_buffer_status : K Z :=
  count_addr ← argaddr 0;
  produced_addr ← argaddr 1;
  consumed_addr ← argaddr 2;
  acquire LSharedbuf ;;
  b ← gets (fun s => s.(k_sharedbuf));
  release LSharedbuf ;;
  '(_, p) ← curproc;
  r ← copyout p.(p_pagetable) count_addr (bytes_of 4 b.(sb_count));
  if r <? 0 then mret (u64 (-1)) else
  r ← copyout p.(p_pagetable) produced_addr (bytes_of 4 b.(sb_produced_total));
  if r <? 0 then mret (u64 (-1)) else
  r ← copyout p.(p_pagetable) consumed_addr (bytes_of 4 b.(sb_consumed_total));
  if r <? 0 then mret (u64 (-1)) else
  mret 0.

End Sysproc.
