(* ===== verification/SharedBuf.v ===== *)
(** * The producer-consumer buffer (kernel/sysproc.c), what the code does

    sys_buffer_init(), sys_produce() and sys_consume() implement a bounded
    FIFO queue: [ring] relates the ring buffer to the queue, and each call is
    one operation of the queue under the buffer's lock. *)

From S2P Require Import Prelude Riscv Memory KState KMonad Spinlock Kalloc Vm Proc ProcSpec SleepSpec Syscall Sysproc.

(** ** Calls made by a process *)

Record in_call (i : nat) (s : kstate) : Prop := {
  ic_cpu : cpu_ok (k_cpu s);
  ic_proc : c_proc (k_cpu s) = Some i;
}.

(** The argument registers of the calling process. *)
Definition arg (i : nat) (s : kstate) (n : Z) : Z :=
  load64 (k_mem s) (p_trapframe (nth i (k_procs s) zero_proc) + TF_a n).

Lemma in_call_settle i s : in_call i s -> in_call i (ksettle s).
Proof. intros [A B]. split; [by apply cpu_ok_settle|]. simpl. by rewrite c_proc_settle. Qed.

Lemma argraw_eq i s n : in_call i s -> 0 <= n <= 5 -> argraw n s = Ret (arg i s n) (ksettle s).
Proof.
  intros [A B] H. unfold argraw. rewrite (bind_ret _ _ _ _ _ (curproc_eq s i A B)).
  destruct (Z.leb_spec 0 n); [|lia]. destruct (Z.leb_spec n 5); [|lia]. done.
Qed.

Lemma argint_eq i s n : in_call i s -> 0 <= n <= 5 -> argint n s = Ret (s32 (arg i s n)) (ksettle s).
Proof. intros A H. unfold argint. by rewrite (bind_ret _ _ _ _ _ (argraw_eq i s n A H)). Qed.

(** ** The queue *)

(** [ring b q]: the buffer holds the items of [q], oldest first. *)
Record ring (b : sharedbuf) (q : list Z) : Prop := {
  rg_init : sb_initialized b <> 0;
  rg_size : length (sb_buffer b) = 10%nat;
  rg_out : 0 <= sb_out b < 10;
  rg_count : sb_count b = Z.of_nat (length q);
  rg_cap : (length q <= 10)%nat;
  rg_in : sb_in b = (sb_out b + Z.of_nat (length q)) mod 10;
  rg_items j : (j < length q)%nat ->
    sb_buffer b !! Z.to_nat ((sb_out b + Z.of_nat j) mod 10) = q !! j;
}.

(** The effect of the three calls on the buffer. *)
Definition init_buf (b : sharedbuf) : sharedbuf := mk_sharedbuf (replicate 10 0) 0 0 0 1 0 0.

Definition produce_buf (item : Z) (b : sharedbuf) : sharedbuf :=
  mk_sharedbuf (<[Z.to_nat b.(sb_in) := item]> b.(sb_buffer)) (s32 (b.(sb_count) + 1))
    (crem (b.(sb_in) + 1) BUFFER_SIZE) b.(sb_out) b.(sb_initialized)
    (s32 (b.(sb_produced_total) + 1)) b.(sb_consumed_total).

Definition consume_buf (b : sharedbuf) : sharedbuf :=
  mk_sharedbuf b.(sb_buffer) (s32 (b.(sb_count) - 1)) b.(sb_in) (crem (b.(sb_out) + 1) BUFFER_SIZE)
    b.(sb_initialized) b.(sb_produced_total) (s32 (b.(sb_consumed_total) + 1)).

Lemma ring_init b : ring (init_buf b) [].
Proof. split; simpl; try done; lia. Qed.

Lemma crem_succ x : 0 <= x < 10 -> crem (x + 1) BUFFER_SIZE = (x + 1) mod 10.
Proof. intros. unfold crem, BUFFER_SIZE. by rewrite Z.rem_mod_nonneg by lia. Qed.

Lemma mod10_eq x : 0 <= x < 20 -> x mod 10 = if decide (x < 10) then x else x - 10.
Proof.
  intros H. destruct (decide (x < 10)); [apply Z.mod_small; lia|].
  symmetry. apply Z.mod_unique with 1; lia.
Qed.

Lemma ring_produce b q item : ring b q -> (length q < 10)%nat -> ring (produce_buf item b) (q ++ [item]).
Proof.
  intros [R1 R2 R3 R4 R5 R6 R7] H.
  assert (0 <= sb_in b < 10) as Hi by (rewrite R6; apply Z.mod_pos_bound; lia).
  split; simpl; rewrite ?length_insert, ?length_app; simpl; try done; try lia.
  - rewrite s32_small by lia. lia.
  - rewrite crem_succ by done. rewrite R6, !mod10_eq; repeat case_decide; lia.
  - intros j Hj. destruct (decide (j = length q)) as [->|].
    + rewrite <- R6. rewrite list_lookup_insert_eq by lia.
      rewrite lookup_app_r, Nat.sub_diag by lia. done.
    + rewrite lookup_app_l by lia. rewrite list_lookup_insert_ne; [apply R7; lia|].
      rewrite R6. pose proof (Z.mod_pos_bound (sb_out b + Z.of_nat j) 10 ltac:(lia)).
      pose proof (Z.mod_pos_bound (sb_out b + Z.of_nat (length q)) 10 ltac:(lia)).
      rewrite !mod10_eq in * by lia. repeat case_decide; lia.
Qed.

Lemma ring_consume b x q : ring b (x :: q) ->
  nth (Z.to_nat (sb_out b)) (sb_buffer b) 0 = x /\ ring (consume_buf b) q.
Proof.
  intros [R1 R2 R3 R4 R5 R6 R7]. simpl in *. split.
  - specialize (R7 0%nat ltac:(lia)). rewrite Z.add_0_r, Z.mod_small in R7 by lia.
    simpl in R7. by apply nth_lookup_Some.
  - split; simpl; try done; try lia.
    + rewrite crem_succ by done. apply Z.mod_pos_bound. lia.
    + rewrite s32_small by lia. lia.
    + rewrite crem_succ by done. rewrite R6, !mod10_eq; repeat case_decide; try lia.
      all: rewrite mod10_eq by lia; repeat case_decide; lia.
    + intros j Hj. rewrite crem_succ by done. specialize (R7 (S j) ltac:(lia)). simpl in R7. rewrite <- R7.
      f_equal. f_equal. rewrite !mod10_eq; repeat case_decide; try lia.
      all: rewrite mod10_eq by lia; repeat case_decide; lia.
Qed.

(** ** The system calls *)

Definition produce_result (item : Z) (b : sharedbuf) : Z * sharedbuf :=
  if b.(sb_initialized) =? 0 then (u64 (-2), b)
  else if BUFFER_SIZE <=? b.(sb_count) then (u64 (-1), b)
  else (0, produce_buf item b).

(** The status before the item is copied out, the item and the buffer. *)
Definition consume_result (b : sharedbuf) : Z * Z * sharedbuf :=
  if b.(sb_initialized) =? 0 then (u64 (-2), 0, b)
  else if b.(sb_count) <=? 0 then (u64 (-1), 0, b)
  else (0, nth (Z.to_nat b.(sb_out)) b.(sb_buffer) 0, consume_buf b).

Lemma set_sharedbuf_settle b s : set_k_sharedbuf b (ksettle s) = ksettle (set_k_sharedbuf b s).
Proof. done. Qed.

(** Leaving a critical section that changed the buffer. *)
Lemma release_sharedbuf b s : lk_free LSharedbuf s ->
  release LSharedbuf (set_k_sharedbuf b (acq LSharedbuf s)) = Ret tt (set_k_sharedbuf b (ksettle s)).
Proof.
  intros F. rewrite release_eq by (apply acq_held, F). f_equal. crit LSharedbuf s.
Qed.

Lemma sys_buffer_init_eq s : lk_free LSharedbuf s -> length (sb_buffer (k_sharedbuf s)) = 10%nat ->
  sys_buffer_init s = Ret 0 (set_k_sharedbuf (init_buf (k_sharedbuf s)) (ksettle s)).
Proof.
  intros F Hl. unfold sys_buffer_init. rewrite (bind_ret _ _ _ _ _ (acquire_eq _ s F)).
  set (b0 := k_sharedbuf s) in *.
  assert (kfor (seq 0 (Z.to_nat BUFFER_SIZE))
      (fun i => upd_sharedbuf (fun b => set_sb_buffer (<[i := 0]> (sb_buffer b)) b)) (acq LSharedbuf s) =
    Ret tt (set_k_sharedbuf (set_sb_buffer (replicate 10 0) b0) (acq LSharedbuf s))) as E.
  { change (acq LSharedbuf s) with (set_k_sharedbuf b0 (acq LSharedbuf s)) at 1.
    destruct b0 as [buf c i o ini pr co]. simpl in Hl.
    do 10 (destruct buf as [|? buf]; [discriminate Hl|]). destruct buf; [|discriminate Hl]. reflexivity. }
  rewrite (bind_ret _ _ _ _ _ E). unfold upd_sharedbuf. do 6 kstep.
  match goal with |- context [set_k_sharedbuf ?b (set_k_sharedbuf _ _)] =>
    erewrite (bind_ret _ _ _ _ _ (release_sharedbuf (init_buf b0) s F)) end. done.
Qed.

Lemma sys_produce_eq i s : in_call i s -> lk_free LSharedbuf s ->
  let '(r, b) := produce_result (s32 (arg i s 0)) (k_sharedbuf s) in
  sys_produce s = Ret r (set_k_sharedbuf b (ksettle s)).
Proof.
  intros C F. unfold sys_produce. rewrite (bind_ret _ _ _ _ _ (argint_eq i s 0 C ltac:(lia))).
  apply lk_free_settle in F. rewrite (bind_ret _ _ _ _ _ (acquire_eq _ _ F)). kstep.
  change (k_sharedbuf (acq LSharedbuf (ksettle s))) with (k_sharedbuf s). unfold produce_result.
  destruct (sb_initialized (k_sharedbuf s) =? 0).
  { rewrite (bind_ret _ _ _ _ _ (release_sharedbuf (k_sharedbuf s) _ F)). by rewrite ksettle_idem. }
  destruct (BUFFER_SIZE <=? sb_count (k_sharedbuf s)).
  { rewrite (bind_ret _ _ _ _ _ (release_sharedbuf (k_sharedbuf s) _ F)). by rewrite ksettle_idem. }
  unfold upd_sharedbuf. do 4 kstep.
  erewrite (bind_ret _ _ _ _ _ (release_sharedbuf (produce_buf (s32 (arg i s 0)) (k_sharedbuf s)) _ F)).
  by rewrite ksettle_idem.
Qed.

Section Consume.
Context {L : Layout}.

Lemma sys_consume_eq i s : in_call i s -> lk_free LSharedbuf s ->
  let '(r, item, b) := consume_result (k_sharedbuf s) in
  let s' := set_k_sharedbuf b (ksettle s) in
  sys_consume s =
  if r =? 0 then
    (r ← copyout (p_pagetable (nth i (k_procs s) zero_proc)) (arg i s 0) (bytes_of 4 item);
     if r <? 0 then mret (u64 (-3)) else mret 0) s'
  else Ret r s'.
Proof.
  intros C F. unfold sys_consume, argaddr. rewrite (bind_ret _ _ _ _ _ (argraw_eq i s 0 C ltac:(lia))).
  apply lk_free_settle in F. rewrite (bind_ret _ _ _ _ _ (acquire_eq _ _ F)). kstep.
  change (k_sharedbuf (acq LSharedbuf (ksettle s))) with (k_sharedbuf s). unfold consume_result.
  destruct (sb_initialized (k_sharedbuf s) =? 0).
  { rewrite (bind_ret _ _ _ _ _ (release_sharedbuf (k_sharedbuf s) _ F)). by rewrite ksettle_idem. }
  destruct (sb_count (k_sharedbuf s) <=? 0).
  { rewrite (bind_ret _ _ _ _ _ (release_sharedbuf (k_sharedbuf s) _ F)). by rewrite ksettle_idem. }
  unfold upd_sharedbuf. do 4 kstep.
  erewrite (bind_ret _ _ _ _ _ (release_sharedbuf (consume_buf (k_sharedbuf s)) _ F)).
  rewrite ksettle_idem. cbn [Z.eqb].
  set (s' := set_k_sharedbuf _ (ksettle s)).
  assert (in_call i s') as [A B] by (by destruct (in_call_settle i s C); split).
  assert (ksettle s' = s') as Id by (unfold s'; rewrite <- set_sharedbuf_settle; by rewrite ksettle_idem).
  rewrite (bind_ret _ _ _ _ _ (curproc_eq s' i A B)), Id. done.
Qed.
End Consume.

(** sys_produce() is the enqueue of a queue of capacity ten: with
    fewer than ten items it returns 0 and appends the 32-bit argument, with ten
    it returns -1 and leaves the queue as it is; the lock is free again and
    nothing but the buffer has changed. *)
Theorem sys_produce_enqueues i s q : in_call i s -> lk_free LSharedbuf s -> ring (k_sharedbuf s) q ->
  exists r b, sys_produce s = Ret r (set_k_sharedbuf b (ksettle s)) /\
    if decide (length q < 10)%nat then r = 0 /\ ring b (q ++ [s32 (arg i s 0)])
    else r = u64 (-1) /\ b = k_sharedbuf s.
Proof.
  intros C F R. pose proof (sys_produce_eq i s C F) as E.
  destruct (produce_result _ _) as [r b] eqn:P. exists r, b. split; [done|].
  unfold produce_result in P. destruct (Z.eqb_spec (sb_initialized (k_sharedbuf s)) 0); [by destruct (rg_init _ _ R)|].
  rewrite (rg_count _ _ R) in P. unfold BUFFER_SIZE in P.
  destruct (decide (length q < 10)%nat); destruct (Z.leb_spec 10 (Z.of_nat (length q))); try lia; simplify_eq.
  - split; [done|]. by apply ring_produce.
  - done.
Qed.

(** sys_consume() is the dequeue: an empty queue is left alone
    and the result is -1; otherwise the oldest item leaves the queue, and its
    four bytes are copied to the caller with no lock held.  The item is gone
    whether or not that copy succeeds. *)
Theorem sys_consume_dequeues {L : Layout} i s q : in_call i s -> lk_free LSharedbuf s -> ring (k_sharedbuf s) q ->
  match q with
  | [] => sys_consume s = Ret (u64 (-1)) (ksettle s)
  | x :: q' => exists b, ring b q' /\
      sys_consume s =
      (r ← copyout (p_pagetable (nth i (k_procs s) zero_proc)) (arg i s 0) (bytes_of 4 x);
       if r <? 0 then mret (u64 (-3)) else mret 0) (set_k_sharedbuf b (ksettle s))
  end.
Proof.
  intros C F R. pose proof (sys_consume_eq i s C F) as E. unfold consume_result in E.
  destruct (Z.eqb_spec (sb_initialized (k_sharedbuf s)) 0); [by destruct (rg_init _ _ R)|].
  rewrite (rg_count _ _ R) in E. destruct q as [|x q'].
  - exact E.
  - destruct (Z.leb_spec (Z.of_nat (length (x :: q'))) 0); [simpl in *; lia|].
    destruct (ring_consume _ _ _ R) as [Ex R']. rewrite Ex in E. exists (consume_buf (k_sharedbuf s)).
    split; [done|exact E].
Qed.

(** ** Every sequence of calls *)

Inductive call := Produce (item : Z) | Consume.

(** The items accepted, the items handed out and the final buffer of a
    sequence of calls, each call taking the buffer as the code does. *)
Fixpoint run_calls (cs : list call) (b : sharedbuf) : list Z * list Z * sharedbuf :=
  match cs with
  | [] => ([], [], b)
  | Produce x :: cs' =>
      let '(r, b') := produce_result x b in
      let '(acc, out, b'') := run_calls cs' b' in
      (if r =? 0 then x :: acc else acc, out, b'')
  | Consume :: cs' =>
      let '(r, item, b') := consume_result b in
      let '(acc, out, b'') := run_calls cs' b' in
      (acc, if r =? 0 then item :: out else out, b'')
  end.

Lemma run_calls_fifo cs : forall b q, ring b q ->
  let '(acc, out, b') := run_calls cs b in
  exists q', q ++ acc = out ++ q' /\ ring b' q' /\
    s32 (sb_produced_total b') = s32 (sb_produced_total b + Z.of_nat (length acc)) /\
    s32 (sb_consumed_total b') = s32 (sb_consumed_total b + Z.of_nat (length out)).
Proof.
  induction cs as [|[x|] cs IH]; intros b q R; cbn [run_calls].
  - exists q. rewrite app_nil_r, !Z.add_0_r. done.
  - unfold produce_result. destruct (Z.eqb_spec (sb_initialized b) 0); [by destruct (rg_init _ _ R)|].
    rewrite (rg_count _ _ R). unfold BUFFER_SIZE. destruct (Z.leb_spec 10 (Z.of_nat (length q))).
    + specialize (IH b q R). by destruct (run_calls cs b) as [[acc out] b'].
    + specialize (IH _ _ (ring_produce b q x R ltac:(lia))).
      destruct (run_calls cs (produce_buf x b)) as [[acc out] b']. destruct IH as (q' & E & R' & T1 & T2).
      exists q'. rewrite <- app_assoc in E. split; [done|]. split; [done|]. simpl in T1, T2.
      split; [|done]. rewrite T1. rewrite s32_add. f_equal. simpl. lia.
  - unfold consume_result. destruct (Z.eqb_spec (sb_initialized b) 0); [by destruct (rg_init _ _ R)|].
    rewrite (rg_count _ _ R). destruct q as [|x q].
    + specialize (IH b [] R). simpl. by destruct (run_calls cs b) as [[acc out] b'].
    + destruct (Z.leb_spec (Z.of_nat (length (x :: q))) 0); [simpl in *; lia|].
      destruct (ring_consume _ _ _ R) as [-> R']. specialize (IH _ _ R').
      destruct (run_calls cs (consume_buf b)) as [[acc out] b']. destruct IH as (q' & E & Rq & T1 & T2).
      exists q'. simpl. rewrite E. split; [done|]. split; [done|]. simpl in T1, T2.
      split; [done|]. rewrite T2, s32_add. f_equal. lia.
Qed.


(** A call by process 4, with an initialised buffer. *)
Definition caller (b : sharedbuf) : kstate :=
  set_k_sharedbuf b (set_k_cpu (mk_cpu 0 (Some 4%nat) 0 true true) bss).

Lemma caller_in_call b : in_call 4 (caller b).
Proof. split; [split; simpl; lia|done]. Qed.

Lemma caller_lock b : lk_free LSharedbuf (caller b).
Proof. split; [split; simpl; lia|apply lookup_empty]. Qed.

Lemma sys_produce_enqueues_witness : exists b,
  sys_produce (caller (init_buf (k_sharedbuf bss))) = Ret 0 (set_k_sharedbuf b (ksettle (caller (init_buf (k_sharedbuf bss))))) /\
  ring b [0].
Proof.
  destruct (sys_produce_enqueues 4 _ [] (caller_in_call _) (caller_lock _) (ring_init (k_sharedbuf bss)))
    as (r & b & E & P).
  simpl in P. destruct P as [-> R]. exists b. split; [exact E|exact R].
Defined.

(** One item, 7, in the buffer. *)
Definition buf7 : sharedbuf := produce_buf 7 (init_buf (k_sharedbuf bss)).

Lemma sys_consume_dequeues_witness : exists b, ring b [] /\
  @sys_consume small_layout (caller buf7) =
  (r ← @copyout small_layout 0 (arg 4 (caller buf7) 0) (bytes_of 4 7);
   if r <? 0 then mret (u64 (-3)) else mret 0) (set_k_sharedbuf b (ksettle (caller buf7))).
Proof.
  exact (@sys_consume_dequeues small_layout 4 _ [7] (caller_in_call _) (caller_lock _)
    (ring_produce _ [] 7 (ring_init (k_sharedbuf bss)) ltac:(simpl; lia))).
Defined.
