(* ===== verification/CryptSpec.v ===== *)
(** * The XOR cipher system calls (kernel/sysproc.c), what the code does

    sys_encrypt() over a writable user buffer: every byte is XORed with the
    key, nothing else changes, and sys_decrypt() restores the memory. *)

From S2P Require Import Prelude Riscv Memory KState KMonad Spinlock Kalloc Vm VmSpec UvmSpec CopySpec.
From S2P Require Import Proc ProcSpec SleepSpec Syscall Sysproc SharedBuf.

Section Crypt.
Context {L : Layout}.

Lemma uread_length m r va n : length (uread m r va n) = n.
Proof. unfold uread. by rewrite length_map, length_seq. Qed.

Lemma xor_length l : length (xor_bytes l) = length l.
Proof. apply length_map. Qed.

Lemma uread_ext m m' r va n : (forall v, va <= v < va + Z.of_nat n -> utrans m' r v = utrans m r v) ->
  (forall v, va <= v < va + Z.of_nat n -> mget m' (utrans m r v) = mget m (utrans m r v)) ->
  uread m' r va n = uread m r va n.
Proof.
  intros E H. unfold uread. apply map_ext_in. intros i Hi. apply in_seq in Hi.
  rewrite E by lia. apply H. lia.
Qed.

Lemma utrans_pte m m' r va n : 0 <= va -> va + Z.of_nat n <= MAXVA ->
  (forall v, 0 <= v < MAXVA -> pte_of m' r v = pte_of m r v) ->
  forall v, va <= v < va + Z.of_nat n -> utrans m' r v = utrans m r v.
Proof. intros H1 H2 P v Hv. unfold utrans, uaddr. by rewrite P by lia. Qed.

(** copyin(), xor and copyout() of one chunk. *)
Lemma crypt_chunk s G fl r va n : vmok s G fl -> G !! (r, 2%nat, 0) = Some r -> writable s G fl r va n ->
  let buf := uread (k_mem s) r va n in
  exists m', copyin r va n s = Ret (Some buf) s /\ copyout r va (xor_bytes buf) s = Ret 0 (set_k_mem m' s) /\
    mem_ok m' /\ written (k_mem s) m' r va (xor_bytes buf) /\ vmok (set_k_mem m' s) G fl /\
    (forall v, 0 <= v < MAXVA -> pte_of m' r v = pte_of (k_mem s) r v).
Proof.
  intros OK R W buf. assert (length (xor_bytes buf) = n) as Hl by (unfold buf; by rewrite xor_length, uread_length).
  destruct (copyout_loop_spec r G fl R (length (xor_bytes buf)) (xor_bytes buf) va s OK) as (m' & E & M & Wr);
    [by rewrite Hl|lia|].
  exists m'. split.
  { apply (copyin_eq r va n s G fl OK R); [apply W|apply W|apply (wr_user _ _ _ _ _ _ W)]. }
  split; [exact E|]. split; [done|]. split; [done|].
  destruct (vm_user_write s G fl r va n m' OK R W M) as [OK' P]; [rewrite <- Hl; apply Wr|].
  split; [done|]. intros v Hv. by apply P.
Qed.

Lemma encrypt_loop_spec r addr len G fl : G !! (r, 2%nat, 0) = Some r -> 0 <= addr ->
  addr + len <= MAXVA -> forall fuel processed s,
  vmok s G fl -> 0 <= processed <= len -> len - processed <= Z.of_nat fuel * 512 ->
  writable s G fl r (addr + processed) (Z.to_nat (len - processed)) ->
  let va := addr + processed in let n := Z.to_nat (len - processed) in
  exists m', encrypt_loop fuel r addr len processed s = Ret (u64 len) (set_k_mem m' s) /\ mem_ok m' /\
    written (k_mem s) m' r va (xor_bytes (uread (k_mem s) r va n)).
Proof.
  intros R H0 H1. induction fuel as [|fuel IH]; intros processed s OK Hp Hf W va n.
  { assert (n = 0%nat) as E0 by (unfold n; lia). exists (k_mem s). cbn [encrypt_loop].
    destruct (Z.ltb_spec processed len); [lia|]. split; [done|]. split; [apply (vo_kmem _ _ _ OK)|].
    rewrite E0. split; simpl; [lia|done]. }
  cbn [encrypt_loop]. destruct (Z.ltb_spec processed len) as [Hlt|Hge].
  2: { assert (n = 0%nat) as E0 by (unfold n; lia). exists (k_mem s). split; [done|].
       split; [apply (vo_kmem _ _ _ OK)|]. rewrite E0. split; simpl; [lia|done]. }
  set (c := if 512 <? len - processed then 512 else len - processed).
  assert (0 < c <= len - processed /\ c <= 512 /\ (c = 512 \/ c = len - processed)) as Hc
    by (unfold c; destruct (Z.ltb_spec 512 (len - processed)); lia).
  fold va. pose proof MAXVA_lt. rewrite (u64_small va) by (unfold va; lia).
  destruct (crypt_chunk s G fl r va (Z.to_nat c) OK R) as (m1 & E1 & E2 & M1 & W1 & OK1 & P1).
  { eapply writable_sub; [exact W|lia|lia]. }
  rewrite (bind_ret _ _ _ _ _ E1), (bind_ret _ _ _ _ _ E2). cbn [Z.ltb Z.compare].
  assert (forall v, va <= v < va + Z.of_nat n -> utrans m1 r v = utrans (k_mem s) r v) as Ut
    by (apply utrans_pte; [unfold va; lia|unfold va, n; lia|done]).
  destruct (IH (processed + c) (set_k_mem m1 s) OK1) as (m2 & E3 & M2 & W2); [lia|lia| |].
  { apply writable_mem; [|done|done]. eapply writable_sub; [exact W|lia|lia]. }
  exists m2. split; [exact E3|]. split; [done|]. rewrite k_mem_set in W2.
  replace (addr + (processed + c)) with (va + c) in W2 by (unfold va; lia).
  set (n2 := Z.to_nat (len - (processed + c))) in *.
  assert (n = (Z.to_nat c + n2)%nat) as En by (unfold n, n2; lia).
  assert (uread (k_mem s) r va n = uread (k_mem s) r va (Z.to_nat c) ++ uread (k_mem s) r (va + c) n2) as ->.
  { rewrite En, uread_app, Z2Nat.id by lia. done. }
  unfold xor_bytes. rewrite map_app. fold (xor_bytes (uread (k_mem s) r va (Z.to_nat c))).
  fold (xor_bytes (uread (k_mem s) r (va + c) n2)).
  apply (written_app s G fl r va _ _ m1 m2 OK R); [|done|done|].
  - rewrite length_app, !xor_length, !uread_length, <- En. exact W.
  - rewrite xor_length, uread_length, Z2Nat.id by lia.
    rewrite <- (uread_ext (k_mem s) m1 r (va + c) n2); [exact W2| |].
    + intros v Hv. apply Ut. lia.
    + intros v Hv. apply W1. rewrite xor_length, uread_length. intros v' Hv' E.
      apply (utrans_inj s G fl r va n _ _ OK R W) in E; lia.
Qed.

(** ** The system calls *)

(** A process [i] with page table [r] calls with a buffer of [len] bytes at
    [addr]. *)
Record crypt_call (i : nat) (s : kstate) (G : tables) (fl : list Z) (r addr len : Z) : Prop := {
  cc_call : in_call i s;
  cc_vm : vmok s G fl;
  cc_root : G !! (r, 2%nat, 0) = Some r;
  cc_table : p_pagetable (nth i (k_procs s) zero_proc) = r;
  cc_addr : arg i s 0 = addr;
  cc_len : s32 (arg i s 1) = len;
  cc_range : 1 <= len <= 4096;
  cc_buf : writable s G fl r addr (Z.to_nat len);
}.

Lemma sys_encrypt_spec i s G fl r addr len : crypt_call i s G fl r addr len ->
  exists m', sys_encrypt s = Ret len (set_k_mem m' (ksettle s)) /\ mem_ok m' /\
    written (k_mem s) m' r addr (xor_bytes (uread (k_mem s) r addr (Z.to_nat len))).
Proof.
  intros [C OK R T A Le Hl W]. unfold sys_encrypt, argaddr.
  rewrite (bind_ret _ _ _ _ _ (argraw_eq i s 0 C ltac:(lia))), A.
  pose proof (in_call_settle i s C) as C1.
  rewrite (bind_ret _ _ _ _ _ (argint_eq i (ksettle s) 1 C1 ltac:(lia))), ksettle_idem.
  change (arg i (ksettle s) 1) with (arg i s 1). rewrite Le.
  destruct (Z.leb_spec len 0); [lia|]. destruct (Z.ltb_spec 4096 len); [lia|]. cbn [orb].
  rewrite (bind_ret _ _ _ _ _ (curproc_eq (ksettle s) i (ic_cpu _ _ C1) (ic_proc _ _ C1))), ksettle_idem.
  change (k_procs (ksettle s)) with (k_procs s). rewrite T.
  pose proof (wr_low _ _ _ _ _ _ W). pose proof (wr_high _ _ _ _ _ _ W).
  destruct (encrypt_loop_spec r addr len G fl R) with (fuel := 8%nat) (processed := 0) (s := ksettle s)
    as (m' & E & M & Wr); [done|lia|by apply vmok_settle|lia|lia| |].
  { rewrite Z.add_0_r, Z.sub_0_r. by destruct W; split. }
  exists m'. rewrite Z.add_0_r, Z.sub_0_r in Wr. split; [|done].
  rewrite E. f_equal. rewrite u64_small by lia. done.
Qed.

Lemma xor_xor l : xor_bytes (xor_bytes l) = l.
Proof.
  unfold xor_bytes. rewrite map_map. rewrite <- (map_id l) at 2. apply map_ext. intros b.
  by rewrite Z.lxor_assoc, Z.lxor_nilpotent, Z.lxor_0_r.
Qed.

Lemma xor_byte b : 0 <= b < 256 -> 0 <= Z.lxor b ENCRYPT_KEY < 256.
Proof.
  intros H. assert (0 <= Z.lxor b ENCRYPT_KEY) by (apply Z.lxor_nonneg; split; [done|lia]).
  split; [done|]. destruct (decide (Z.lxor b ENCRYPT_KEY = 0)) as [->|]; [lia|].
  apply Z.log2_lt_cancel. pose proof (Z.log2_lxor b ENCRYPT_KEY ltac:(lia) ltac:(done)).
  change (Z.log2 ENCRYPT_KEY) with 6 in *. change (Z.log2 256) with 8.
  destruct (decide (b = 0)) as [->|]; [simpl in *; lia|].
  pose proof (Z.log2_lt_pow2 b 8 ltac:(lia)). lia.
Qed.

Lemma nth_xor l i : (i < length l)%nat -> nth i (xor_bytes l) 0 = Z.lxor (nth i l 0) ENCRYPT_KEY.
Proof.
  intros H. unfold xor_bytes. rewrite (nth_indep _ 0 (Z.lxor 0 ENCRYPT_KEY)) by (by rewrite length_map).
  by rewrite (map_nth (fun b => Z.lxor b ENCRYPT_KEY)).
Qed.

Lemma nth_uread m r va n i : (i < n)%nat -> nth i (uread m r va n) 0 = mget m (utrans m r (va + Z.of_nat i)).
Proof.
  intros H. unfold uread.
  rewrite (nth_indep _ 0 (mget m (utrans m r (va + Z.of_nat 0)))) by (by rewrite length_map, length_seq).
  rewrite (map_nth (fun i => mget m (utrans m r (va + Z.of_nat i)))), seq_nth by done. done.
Qed.

(** sys_encrypt() XORs exactly the caller's buffer: it returns
    the length, every byte of the user range holds its old value XOR 0x5A, and
    no other byte of memory has changed. *)
Theorem sys_encrypt_xors i s G fl r addr len : crypt_call i s G fl r addr len ->
  exists s', sys_encrypt s = Ret len s' /\ s' = set_k_mem (k_mem s') (ksettle s) /\
    (forall j, (j < Z.to_nat len)%nat ->
       let b := utrans (k_mem s) r (addr + Z.of_nat j) in
       mget (k_mem s') b = Z.lxor (mget (k_mem s) b) 0x5A) /\
    (forall b, (forall v, addr <= v < addr + len -> b <> utrans (k_mem s) r v) ->
       mget (k_mem s') b = mget (k_mem s) b).
Proof.
  intros CC. destruct (sys_encrypt_spec i s G fl r addr len CC) as (m' & E & M & W1 & W2).
  destruct CC as [C OK R T A Le Hl W]. rewrite xor_length, uread_length in W1, W2.
  exists (set_k_mem m' (ksettle s)). split; [done|]. split; [done|]. split.
  - intros j Hj. simpl. rewrite W1, nth_xor, nth_uread by (rewrite ?uread_length; done).
    apply u8_byte, xor_byte, (ki_mem _ _ (vo_kmem _ _ _ OK)).
  - intros b Hb. apply W2. intros v Hv. apply Hb. lia.
Qed.

(** C33 sys_decrypt() inverts sys_encrypt(): when the trap frame is
    not in the buffer, encrypting and decrypting the same buffer returns the
    length twice and restores every byte of memory. *)
Theorem decrypt_encrypt i s G fl r addr len : crypt_call i s G fl r addr len ->
  (forall v b, addr <= v < addr + len ->
     p_trapframe (nth i (k_procs s) zero_proc) <= b < p_trapframe (nth i (k_procs s) zero_proc) + 288 ->
     b <> utrans (k_mem s) r v) ->
  exists s1 s2, sys_encrypt s = Ret len s1 /\ sys_decrypt s1 = Ret len s2 /\
    (forall b, mget (k_mem s2) b = mget (k_mem s) b).
Proof.
  intros CC TF. destruct (sys_encrypt_spec i s G fl r addr len CC) as (m1 & E1 & M1 & W1).
  destruct CC as [C OK R T A Le Hl W].
  pose proof (wr_low _ _ _ _ _ _ W) as L0. pose proof (wr_high _ _ _ _ _ _ W) as L1.
  destruct (vm_user_write s G fl r addr (Z.to_nat len) m1 OK R W M1) as [OK1 P1].
  { intros b Hb. apply (proj2 W1). by rewrite xor_length, uread_length. }
  assert (forall v, addr <= v < addr + Z.of_nat (Z.to_nat len) -> utrans m1 r v = utrans (k_mem s) r v) as Ut
    by (apply utrans_pte; [done|done|by intros; apply P1]).
  set (s1 := set_k_mem m1 (ksettle s)) in *.
  assert (forall n, 0 <= n <= 5 -> arg i s1 n = arg i s n) as Ar.
  { intros n Hn. unfold arg, s1. cbn [k_mem k_procs set_k_mem ksettle set_k_cpu]. apply load64_ext. intros b Hb.
    apply W1. rewrite xor_length, uread_length. intros v Hv. apply TF; [lia|]. unfold TF_a in Hb. lia. }
  assert (crypt_call i s1 G fl r addr len) as CC1.
  { split; [by destruct (in_call_settle i s C); split|by apply (vmok_settle (set_k_mem m1 s))|done|done|
      by rewrite Ar|by rewrite Ar|done|].
    destruct (writable_mem s G fl r addr (Z.to_nat len) m1 W R) as [V1 V2 V3 V4 V5 V6]; [by intros; apply P1|].
    by split. }
  destruct (sys_encrypt_spec i s1 G fl r addr len CC1) as (m2 & E2 & M2 & W2).
  exists s1, (set_k_mem m2 (ksettle s1)). split; [done|]. split; [done|].
  intros b. change (k_mem (set_k_mem m2 (ksettle s1))) with m2. change (k_mem s1) with m1 in W2.
  destruct W1 as [A1 A2], W2 as [B1 B2]. rewrite xor_length, uread_length in A1, A2, B1, B2.
  destruct (decide (b ∈ map (fun j => utrans (k_mem s) r (addr + Z.of_nat j)) (seq 0 (Z.to_nat len)))) as [Hin|N].
  - apply list_elem_of_In, in_map_iff in Hin as (j & <- & Hj%in_seq).
    rewrite <- Ut by lia. rewrite B1 by lia. rewrite nth_xor, nth_uread by (rewrite ?uread_length; lia).
    rewrite Ut by lia. rewrite A1 by lia. rewrite nth_xor, nth_uread by (rewrite ?uread_length; lia).
    assert (0 <= mget (k_mem s) (utrans (k_mem s) r (addr + Z.of_nat j)) < 256) as Hb
      by apply (ki_mem _ _ (vo_kmem _ _ _ OK)).
    set (x := mget (k_mem s) _) in *. rewrite (u8_byte (Z.lxor x ENCRYPT_KEY)) by (by apply xor_byte).
    rewrite Z.lxor_assoc, Z.lxor_nilpotent, Z.lxor_0_r. by apply u8_byte.
  - assert (forall v, addr <= v < addr + Z.of_nat (Z.to_nat len) -> b <> utrans (k_mem s) r v) as Nb.
    { intros v Hv ->. apply N. apply list_elem_of_In, in_map_iff. exists (Z.to_nat (v - addr)).
      split; [f_equal; lia|]. apply in_seq. lia. }
    rewrite B2; [by apply A2|]. intros v Hv. rewrite Ut by done. by apply Nb.
Qed.
End Crypt.

(** Process 4 with its arguments in a trap frame at 0x1000: five bytes at
    0xFFE, across a page boundary. *)
Definition crypt_state (s : kstate) (r : Z) : kstate :=
  set_k_mem (store64 (store64 (k_mem s) 0x1070 0xFFE) 0x1078 5)
    (set_k_procs (replicate NPROC (set_p_trapframe 0x1000 (set_p_pagetable r zero_proc)))
      (set_k_cpu (mk_cpu 0 (Some 4%nat) 0 true true) s)).

Lemma crypt_ready : exists s G fl r, @crypt_call small_layout 4 s G fl r 0xFFE 5 /\
  p_trapframe (nth 4 (k_procs s) zero_proc) = 0x1000 /\
  (forall v b, 0xFFE <= v < 0xFFE + 5 -> b < 0x2000 -> b <> utrans (k_mem s) r v).
Proof.
  destruct (user_pages PTE_W) as (s0 & G0 & fl0 & r & s & G & fl & ps & OK0 & R0 & R & Hl & AL & V); [done|].
  assert (writable s G fl r 0xFFE 5) as W.
  { apply (@alloced_writable small_layout _ _ _ _ _ _ _ _ _ _ _ _ OK0 AL); try done; rewrite Hl; done. }
  pose proof (al_ok _ _ _ _ _ _ _ _ _ _ AL) as OK.
  set (m := store64 (store64 (k_mem s) 0x1070 0xFFE) 0x1078 5).
  assert (mem_ok m) as M by (apply mem_ok_store64, mem_ok_store64, (vo_kmem _ _ _ OK)).
  assert (forall b, 0x2000 <= b -> mget m b = mget (k_mem s) b) as Fr.
  { intros b Hb. unfold m. rewrite !mget_store64_out by lia. done. }
  destruct (@vm_agree small_layout s m G fl OK M) as [OK1 P].
  { intros a b Ha Hb. apply Fr. assert (@valid_page small_layout a) as Va.
    { destruct Ha as [Ha|[k Ha]]; [|by eapply V].
      pose proof (ki_valid _ _ (vo_kmem _ _ _ OK)) as VL. rewrite Forall_forall in VL. by apply VL. }
    destruct (valid_page_bounds a Va). unfold in_page, KERNBASE in *. lia. }
  exists (crypt_state s r), G, fl, r. split; [|split; [done|]].
  - split; [by split; [split; simpl; lia|]| |done|done| | |lia|].
    + destruct OK1 as [[_ O1] O2 O3 O4]. split; [split; [split; simpl; lia|done]|by destruct O2; split|done|done].
    + unfold arg. change (p_trapframe _) with 0x1000. change (k_mem (crypt_state s r)) with m.
      unfold m. change (0x1000 + TF_a 0) with 0x1070. rewrite load64_store64_ne by lia. by apply load64_store64_eq.
    + unfold arg. change (p_trapframe _) with 0x1000. change (k_mem (crypt_state s r)) with m.
      unfold m. change (0x1000 + TF_a 1) with 0x1078. by rewrite load64_store64_eq.
    + destruct (writable_mem s G fl r 0xFFE 5 m W R) as [V1 V2 V3 V4 V5 V6]; [by intros; apply P|].
      by split.
  - intros v b Hv Hb ->.
    assert (utrans (k_mem (crypt_state s r)) r v = utrans (k_mem s) r v) as E.
    { unfold utrans, uaddr. change (k_mem (crypt_state s r)) with m.
      rewrite P; [done|done|]. assert (0x2000 < MAXVA) by done. lia. }
    rewrite E in Hb. pose proof (utrans_in_page (k_mem s) r v) as I. unfold in_page in I.
    destruct (@alloced_uaddr small_layout _ _ _ _ _ _ _ _ _ _ v OK0 AL) as (p & _ & Ep & _ & Vp); try done.
    { by rewrite Hl. } { rewrite Hl. unfold PGSIZE. lia. }
    rewrite Ep in I. destruct (valid_page_bounds p Vp). unfold KERNBASE in *. lia.
Qed.

Lemma sys_encrypt_xors_witness : exists s s', @sys_encrypt small_layout s = Ret 5 s'.
Proof.
  destruct crypt_ready as (s & G & fl & r & CC & _).
  destruct (@sys_encrypt_xors small_layout 4 s G fl r 0xFFE 5 CC) as (s' & E & _). exists s, s'. exact E.
Defined.

Lemma decrypt_encrypt_witness : exists s s1 s2,
  @sys_encrypt small_layout s = Ret 5 s1 /\ @sys_decrypt small_layout s1 = Ret 5 s2 /\
  (forall b, mget (k_mem s2) b = mget (k_mem s) b).
Proof.
  destruct crypt_ready as (s & G & fl & r & CC & T & N).
  destruct (@decrypt_encrypt small_layout 4 s G fl r 0xFFE 5 CC) as (s1 & s2 & E1 & E2 & M).
  { intros v b Hv Hb. apply N; [lia|]. rewrite T in Hb. lia. }
  exists s, s1, s2. auto.
Defined.
