(* ===== verification/Sleeplock.v ===== *)
(** * Sleep locks (kernel/sleeplock.c)

    The lock of a buffer or an inode, found through [slid].  The wait in
    acquiresleep() is bounded by how often the caller is woken. *)

From S2P Require Import Prelude Riscv Memory KState KMonad Spinlock Kalloc Vm Proc.

Definition get_sl (l : slid) (s : kstate) : sleeplock :=
  match l with
  | SlBuf i => (nth i s.(k_bufs) zero_buf).(b_lock)
  | SlInode i => (nth i s.(k_itable) zero_inode).(i_lock)
  end.

Definition set_sl (l : slid) (v : sleeplock) (s : kstate) : kstate :=
  match l with
  | SlBuf i => set_k_bufs (<[i := set_b_lock v (nth i s.(k_bufs) zero_buf)]> s.(k_bufs)) s
  | SlInode i => set_k_itable (<[i := set_i_lock v (nth i s.(k_itable) zero_inode)]> s.(k_itable)) s
  end.

Definition updsl (l : slid) (f : sleeplock -> sleeplock) : K unit :=
  modify (fun s => set_sl l (f (get_sl l s)) s).

Definition initsleeplock (l : slid) : K unit :=
  initlock (LSleep l) ;;
  updsl l (set_sl_locked 0) ;;
  updsl l (set_sl_pid 0).

Fixpoint sleep_while_locked (fuel : nat) (l : slid) : K unit :=
  k ← gets (get_sl l);
  if k.(sl_locked) =? 0 then mret tt else
  match fuel with
  | O => unbounded
  | S fuel' =>
      sleep (ChSleeplock l) (LSleep l) ;;
      sleep_while_locked fuel' l
  end.

Definition acquiresleep (fuel : nat) (l : slid) : K unit :=
  acquire (LSleep l) ;;
  sleep_while_locked fuel l ;;
  updsl l (set_sl_locked 1) ;;
  '(_, p) ← curproc;
  updsl l (set_sl_pid p.(p_pid)) ;;
  release (LSleep l).

Definition releasesleep (l : slid) : K unit :=
  acquire (LSleep l) ;;
  updsl l (set_sl_locked 0) ;;
  updsl l (set_sl_pid 0) ;;
  wakeup (ChSleeplock l) ;;
  release (LSleep l).

Definition holdingsleep (l : slid) : K bool :=
  acquire (LSleep l) ;;
  k ← gets (get_sl l);
  r ← (if k.(sl_locked) =? 0 then mret false
       else '(_, p) ← curproc; mret (k.(sl_pid) =? p.(p_pid)));
  release (LSleep l) ;;
  mret r.
