(* ===== verification/Bio.v ===== *)
(** * Buffer cache (kernel/bio.c), the code

    Buffers are the entries of [k_bufs]; entry [NBUF] is the list head
    [bcache.head].  The disk driver is behind the interface [Disk]. *)

From S2P Require Import Prelude Riscv Memory KState KMonad Spinlock Kalloc Vm Proc Sleeplock.

(** What bio.c asks of the disk driver: move a block between a buffer and the
    disk. *)
Class Disk := {
  virtio_disk_rw : nat -> bool -> K unit;
}.

Definition getbuf (i : nat) : K buf := gets (fun s => nth i s.(k_bufs) zero_buf).
Definition updbuf (i : nat) (f : buf -> buf) : K unit :=
  modify (fun s => set_k_bufs (<[i := f (nth i s.(k_bufs) zero_buf)]> s.(k_bufs)) s).

(** Put buffer [b] behind the list head. *)
Definition link_first (b : nat) : K unit :=
  h ← getbuf NBUF;
  updbuf b (set_b_next h.(b_next)) ;;
  updbuf b (set_b_prev NBUF) ;;
  mret tt.

Definition binit : K unit :=
  initlock LBcache ;;
  updbuf NBUF (set_b_prev NBUF) ;;
  updbuf NBUF (set_b_next NBUF) ;;
  kfor (seq 0 NBUF) (fun b =>
    link_first b ;;
    initsleeplock (SlBuf b) ;;
    h ← getbuf NBUF;
    updbuf h.(b_next) (set_b_prev b) ;;
    updbuf NBUF (set_b_next b)).

(** The two scans of bget(), along [next] and along [prev]; the list has
    [NBUF] buffers, which bounds them. *)
Fixpoint find_cached (n : nat) (b : nat) (dev blockno : Z) : K (option nat) :=
  if (b =? NBUF)%nat then mret None else
  match n with
  | O => unbounded
  | S n' =>
      x ← getbuf b;
      if ((x.(b_dev) =? dev) && (x.(b_blockno) =? blockno))%bool then mret (Some b)
      else find_cached n' x.(b_next) dev blockno
  end.

Fixpoint find_unused (n : nat) (b : nat) : K (option nat) :=
  if (b =? NBUF)%nat then mret None else
  match n with
  | O => unbounded
  | S n' =>
      x ← getbuf b;
      if x.(b_refcnt) =? 0 then mret (Some b) else find_unused n' x.(b_prev)
  end.

(** [fuel] bounds how often the caller waits for the buffer's sleep lock. *)
Definition bget (fuel : nat) (dev blockno : Z) : K nat :=
  acquire LBcache ;;
  h ← getbuf NBUF;
  o ← find_cached NBUF h.(b_next) dev blockno;
  match o with
  | Some b =>
      updbuf b (fun x => set_b_refcnt (u32 (x.(b_refcnt) + 1)) x) ;;
      release LBcache ;;
      acquiresleep fuel (SlBuf b) ;;
      mret b
  | None =>
      h ← getbuf NBUF;
      o ← find_unused NBUF h.(b_prev);
      match o with
      | Some b =>
          updbuf b (set_b_dev dev) ;;
          updbuf b (set_b_blockno blockno) ;;
          updbuf b (set_b_valid 0) ;;
          updbuf b (set_b_refcnt 1) ;;
          release LBcache ;;
          acquiresleep fuel (SlBuf b) ;;
          mret b
      | None => kpanic "bget: no buffers"
      end
  end.

Section Bio.
Context {D : Disk}.

Definition bread (fuel : nat) (dev blockno : Z) : K nat :=
  b ← bget fuel dev blockno;
  x ← getbuf b;
  kwhen (x.(b_valid) =? 0)
    (virtio_disk_rw b false ;;
     updbuf b (set_b_valid 1)) ;;
  mret b.

Definition bwrite (b : nat) : K unit :=
  h ← holdingsleep (SlBuf b);
  if negb h then kpanic "bwrite" else
  virtio_disk_rw b true.

End Bio.

Definition brelse (b : nat) : K unit :=
  h ← holdingsleep (SlBuf b);
  if negb h then kpanic "brelse" else
  releasesleep (SlBuf b) ;;
  acquire LBcache ;;
  updbuf b (fun x => set_b_refcnt (u32 (x.(b_refcnt) - 1)) x) ;;
  x ← getbuf b;
  kwhen (x.(b_refcnt) =? 0)
    (updbuf x.(b_next) (set_b_prev x.(b_prev)) ;;
     x ← getbuf b;
     updbuf x.(b_prev) (set_b_next x.(b_next)) ;;
     link_first b ;;
     h ← getbuf NBUF;
     updbuf h.(b_next) (set_b_prev b) ;;
     updbuf NBUF (set_b_next b)) ;;
  release LBcache.

Definition bpin (b : nat) : K unit :=
  acquire LBcache ;;
  updbuf b (fun x => set_b_refcnt (u32 (x.(b_refcnt) + 1)) x) ;;
  release LBcache.

Definition bunpin (b : nat) : K unit :=
  acquire LBcache ;;
  updbuf b (fun x => set_b_refcnt (u32 (x.(b_refcnt) - 1)) x) ;;
  release LBcache.
