(* ===== verification/BioSpec.v ===== *)
(** * The buffer cache (kernel/bio.c, sleeplock.c)

    What bread(), bwrite() and brelse() do to the cache in an uncontended run:
    the LRU list stays a list of all buffers, a block is in at most one
    buffer, and an unreferenced buffer has what is on the disk. *)

From S2P Require Import Prelude Riscv Memory KState KMonad Spinlock Kalloc Vm Proc ProcSpec SleepSpec Seq Sleeplock Bio.

(** Membership in lists built from given elements and lists. *)
Ltac elems :=
  intros;
  repeat match goal with
  | H : context [?x ∈ ?l ++ ?k] |- _ => rewrite (elem_of_app l k x) in H
  | H : context [?x ∈ ?y :: ?l] |- _ => rewrite (elem_of_cons l x y) in H
  | H : context [?x ∈ []] |- _ => rewrite (elem_of_nil x) in H
  | |- context [?x ∈ ?l ++ ?k] => rewrite (elem_of_app l k x)
  | |- context [?x ∈ ?y :: ?l] => rewrite (elem_of_cons l x y)
  | |- context [?x ∈ []] => rewrite (elem_of_nil x)
  end;
  first [tauto | intuition congruence].

(** ** Doubly linked lists *)

(** [nx] and [pv] link each element of the list to the next one. *)
Fixpoint chain (nx pv : nat -> nat) (c : list nat) : Prop :=
  match c with
  | x :: (y :: _) as t => nx x = y /\ pv y = x /\ chain nx pv t
  | _ => True
  end.

Lemma chain_app nx pv c1 x c2 : chain nx pv (c1 ++ x :: c2) <-> chain nx pv (c1 ++ [x]) /\ chain nx pv (x :: c2).
Proof.
  induction c1 as [|y c1 IH]; [simpl; tauto|].
  destruct c1 as [|z c1]; [simpl; tauto|].
  change ((y :: z :: c1) ++ x :: c2) with (y :: z :: (c1 ++ x :: c2)).
  change ((y :: z :: c1) ++ [x]) with (y :: z :: (c1 ++ [x])).
  cbn [chain]. cbn [app] in IH. tauto.
Qed.

(** Only the next pointers of all but the last element and the previous
    pointers of all but the first matter. *)
Lemma chain_ext nx pv nx' pv' c x : chain nx pv (c ++ [x]) ->
  (forall y, y ∈ c -> nx' y = nx y) -> (forall y, y ∈ tl (c ++ [x]) -> pv' y = pv y) ->
  chain nx' pv' (c ++ [x]).
Proof.
  induction c as [|y c IH]; intros C N V; [done|].
  destruct c as [|z c].
  - simpl in *. destruct C as (C1 & C2 & _). rewrite N, V by elems. done.
  - cbn [app chain] in *. destruct C as (C1 & C2 & C3).
    split; [rewrite N by elems; done|]. split; [rewrite V by (simpl; elems); done|].
    apply IH; [done|intros w Hw; apply N; elems|intros w Hw; apply V; simpl in *; elems].
Qed.

Definition fset (f : nat -> nat) (i v : nat) : nat -> nat := fun j => if (j =? i)%nat then v else f j.

Lemma fset_eq f i v : fset f i v i = v.
Proof. unfold fset. by rewrite Nat.eqb_refl. Qed.

Lemma fset_ne f i v j : j <> i -> fset f i v j = f j.
Proof. intros H. unfold fset. by apply Nat.eqb_neq in H as ->. Qed.

(** The list with head [h] and elements [l]. *)
Definition ringed (nx pv : nat -> nat) (h : nat) (l : list nat) : Prop := chain nx pv (h :: l ++ [h]).

Lemma snoc_cons (x : nat) l : exists c p, x :: l = c ++ [p].
Proof. destruct (exists_last (l := x :: l)) as (c & p & ->); [done|]. eauto. Qed.

Lemma cons_snoc (x : nat) l : exists n c, l ++ [x] = n :: c.
Proof. destruct l as [|n l]; simpl; eauto. Qed.

(** Taking an element out. *)
Lemma ringed_remove nx pv h l1 b l2 : ringed nx pv h (l1 ++ b :: l2) -> NoDup (h :: l1 ++ b :: l2) ->
  ringed (fset nx (pv b) (nx b)) (fset pv (nx b) (pv b)) h (l1 ++ l2) /\
  pv b ∈ h :: l1 /\ nx b ∈ l2 ++ [h].
Proof.
  intros C N. unfold ringed in *.
  destruct (snoc_cons h l1) as (c1 & p & E1). destruct (cons_snoc h l2) as (n & c2 & E2).
  replace (h :: (l1 ++ b :: l2) ++ [h]) with (c1 ++ p :: b :: n :: c2) in C
    by (rewrite <- E2, <- app_assoc; simpl; change (h :: l1 ++ b :: l2 ++ [h]) with ((h :: l1) ++ b :: l2 ++ [h]);
        rewrite E1, <- app_assoc; done).
  replace (h :: (l1 ++ l2) ++ [h]) with (c1 ++ p :: n :: c2)
    by (rewrite <- E2, <- app_assoc; change (h :: l1 ++ l2 ++ [h]) with ((h :: l1) ++ l2 ++ [h]);
        rewrite E1, <- app_assoc; done).
  apply chain_app in C as [C1 C2]. destruct C2 as (P1 & P2 & P3 & P4 & C3).
  assert (NoDup (l2 ++ [h])) as N2.
  { apply NoDup_app. apply NoDup_cons in N as [N3 N4]. apply NoDup_app in N4 as (_ & _ & N5).
    apply NoDup_cons in N5 as [_ N5]. split; [done|]. split; [elems|apply NoDup_singleton]. }
  assert (p ∈ h :: l1) as Hp by (rewrite E1; elems).
  assert (n ∈ l2 ++ [h]) as Hn by (rewrite E2; elems).
  rewrite P2, P3. split; [|done].
  assert (p ∉ c1) as Np.
  { assert (NoDup (c1 ++ [p])) as X; [|apply NoDup_app in X as (_ & X & _); intros Y; apply (X p Y); elems].
    rewrite <- E1. change (h :: l1 ++ b :: l2) with ((h :: l1) ++ b :: l2) in N. apply NoDup_app in N as [N _]. exact N. }
  assert (n ∉ l1) as Nn.
  { apply NoDup_cons in N as [N3 N4]. apply NoDup_app in N4 as (_ & N5 & _).
    intros X. apply elem_of_app in Hn as [Hn|Hn]; [apply (N5 n X); elems|elems]. }
  apply chain_app. split.
  - apply (chain_ext nx pv); [done|intros y Hy; apply fset_ne; congruence|].
    rewrite <- E1. simpl. intros y Hy. apply fset_ne. congruence.
  - split; [apply fset_eq|]. split; [apply fset_eq|].
    change (chain nx pv (n :: c2)) in C3. rewrite <- E2 in *.
    apply (chain_ext nx pv); [done| |].
    + intros y Hy. apply fset_ne. intros ->.
      change (h :: l1 ++ b :: l2) with ((h :: l1) ++ b :: l2) in N. apply NoDup_app in N as (_ & N6 & _).
      apply (N6 p Hp). elems.
    + intros y Hy. apply fset_ne. rewrite E2 in *. simpl in Hy. apply NoDup_cons in N2 as [N3 _]. congruence.
Qed.

(** Putting an element in front. *)
Lemma ringed_push nx pv h l b : ringed nx pv h l -> NoDup (b :: h :: l) ->
  ringed (fset (fset nx b (nx h)) h b) (fset (fset pv b h) (nx h) b) h (b :: l) /\ nx h ∈ l ++ [h].
Proof.
  intros C N. unfold ringed in *. destruct (cons_snoc h l) as (n & c & E).
  simpl. rewrite E in *. destruct C as (C1 & C2 & C3). rewrite C1.
  apply NoDup_cons in N as [N1 N2]. apply NoDup_cons in N2 as [N3 N4].
  assert (NoDup (l ++ [h])) as N5.
  { apply NoDup_app. split; [done|]. split; [elems|apply NoDup_singleton]. }
  assert (n ∈ l ++ [h]) as Hn by (rewrite E; elems).
  assert (h <> b) by (intros ->; elems).
  assert (n <> b) by (intros ->; rewrite <- E in *; elems).
  split; [|rewrite <- E; done].
  split; [apply fset_eq|]. split; [rewrite fset_ne by done; apply fset_eq|].
  split; [rewrite fset_ne by done; apply fset_eq|]. split; [apply fset_eq|].
  change (chain nx pv (n :: c)) in C3. rewrite <- E in *. apply (chain_ext nx pv); [done| |].
  - intros y Hy. rewrite !fset_ne by elems. done.
  - intros y Hy. rewrite E in *. simpl in Hy. apply NoDup_cons in N5 as [N6 _].
    rewrite !fset_ne; [done| |congruence]. intros ->.
    assert (b ∈ l ++ [h]) by (rewrite E; elems). elems.
Qed.

(** ** Sleep locks *)

Section Bio.
Variables (me : nat) (pid : Z).
#[local] Abbreviation does := (does me pid).

Definition free_sl : sleeplock := mk_sleeplock 0 0.
Definition my_sl : sleeplock := mk_sleeplock 1 pid.

Lemma get_sl_at H P s l : get_sl l (at_ H P s) = get_sl l s.
Proof. by destruct l. Qed.

Lemma set_sl_at v H P s l : set_sl l v (at_ H P s) = at_ H P (set_sl l v s).
Proof. by destruct l. Qed.

Lemma set_sl_cpu v s l : k_cpu (set_sl l v s) = k_cpu s.
Proof. by destruct l. Qed.

Lemma does_updsl H l f s : does H (updsl l f) s tt H (set_sl l (f (get_sl l s)) s).
Proof.
  unfold updsl. apply (does_modify _ _ H (fun s => set_sl l (f (get_sl l s)) s)).
  - intros P. by rewrite get_sl_at, set_sl_at.
  - apply set_sl_cpu.
Qed.

(** Lock [l] is in the table it belongs to. *)
Definition sl_in (l : slid) (s : kstate) : Prop :=
  match l with
  | SlBuf i => (i < length (k_bufs s))%nat
  | SlInode i => (i < length (k_itable s))%nat
  end.

Lemma get_set_sl l v s : sl_in l s -> get_sl l (set_sl l v s) = v.
Proof.
  destruct l as [i|i]; simpl; intros H; rewrite !nth_lookup, list_lookup_insert_eq; done.
Qed.

Lemma set_set_sl l v w s : sl_in l s -> set_sl l v (set_sl l w s) = set_sl l v s.
Proof.
  destruct l as [i|i]; simpl; intros H; rewrite !nth_lookup, list_lookup_insert_eq by done;
    [unfold set_k_bufs|unfold set_k_itable]; simpl; rewrite list_insert_insert_eq; done.
Qed.

Lemma does_acquiresleep fuel l H s : (LSleep l ∉ H) -> sl_in l s -> sl_locked (get_sl l s) = 0 ->
  does H (acquiresleep fuel l) s tt H (set_sl l my_sl s).
Proof.
  intros N I F. unfold acquiresleep. eapply does_bind; [by apply does_acquire|].
  eapply does_bind.
  { instantiate (1 := s). instantiate (1 := LSleep l :: H). instantiate (1 := tt).
    destruct fuel; simpl; (eapply does_bind; [apply does_gets; intros; apply get_sl_at|]); rewrite F; apply does_ret. }
  eapply does_bind; [apply does_updsl|]. apply does_curproc. intros p Hp.
  eapply does_bind; [apply does_updsl|]. rewrite get_set_sl, set_set_sl by done.
  replace (set_sl_pid (p_pid p) _) with my_sl by (unfold my_sl; rewrite Hp; done).
  by apply does_release.
Qed.

Lemma does_releasesleep l H s : (LSleep l ∉ H) -> sl_in l s -> (forall j, LProc j ∉ H) ->
  does H (releasesleep l) s tt H (set_sl l free_sl s).
Proof.
  intros N I NP. unfold releasesleep. eapply does_bind; [by apply does_acquire|].
  eapply does_bind; [apply does_updsl|]. eapply does_bind; [apply does_updsl|].
  rewrite get_set_sl, set_set_sl by done.
  eapply does_bind; [apply does_wakeup|by apply does_release].
  intros j. rewrite elem_of_cons. intros [?|?]; [done|by apply (NP j)].
Qed.

Lemma does_holdingsleep l H s : (LSleep l ∉ H) -> get_sl l s = my_sl ->
  does H (holdingsleep l) s true H s.
Proof.
  intros N E. unfold holdingsleep. eapply does_bind; [by apply does_acquire|].
  eapply does_bind; [apply does_gets; intros; apply get_sl_at|]. rewrite E. simpl.
  eapply does_bind.
  { apply does_curproc. intros p Hp. rewrite Hp, Z.eqb_refl. apply does_ret. }
  eapply does_bind; [by apply does_release|apply does_ret].
Qed.

(** ** Looking through the list *)

Definition bf (s : kstate) (i : nat) : buf := nth i (k_bufs s) zero_buf.
Definition nx (s : kstate) (i : nat) : nat := b_next (bf s i).
Definition pv (s : kstate) (i : nat) : nat := b_prev (bf s i).

Definition holds (dev bn : Z) (x : buf) : bool := ((x.(b_dev) =? dev) && (x.(b_blockno) =? bn))%bool.

Lemma does_getbuf H i s : does H (getbuf i) s (bf s i) H s.
Proof. unfold getbuf, bf. by apply (does_gets _ _ H (fun s => nth i s.(k_bufs) zero_buf)). Qed.

Definition setbuf (i : nat) (x : buf) (s : kstate) : kstate := set_k_bufs (<[i := x]> (k_bufs s)) s.

Lemma does_updbuf H i f s : does H (updbuf i f) s tt H (setbuf i (f (bf s i)) s).
Proof.
  unfold updbuf, setbuf, bf.
  by apply (does_modify _ _ H (fun s => set_k_bufs (<[i := f (nth i s.(k_bufs) zero_buf)]> s.(k_bufs)) s)).
Qed.

Lemma does_find_cached H dev bn s : forall l n,
  (forall y, y ∈ l -> (y < NBUF)%nat) -> (length l <= n)%nat -> chain (nx s) (pv s) (l ++ [NBUF]) ->
  does H (find_cached n (hd NBUF l) dev bn) s (find (fun i => holds dev bn (bf s i)) l) H s.
Proof.
  induction l as [|y l IH]; intros n HB Hn C; [destruct n; apply does_ret|].
  destruct n as [|n]; [simpl in Hn; lia|]. cbn [find_cached hd].
  destruct (Nat.eqb_spec y NBUF) as [->|Hy]; [pose proof (HB NBUF ltac:(elems)); lia|].
  eapply does_bind; [apply does_getbuf|]. fold (holds dev bn (bf s y)). cbn [find].
  destruct (holds dev bn (bf s y)); [apply does_ret|].
  assert (b_next (bf s y) = hd NBUF l /\ chain (nx s) (pv s) (l ++ [NBUF])) as [-> C'].
  { destruct l as [|z l]; simpl in C; destruct C as (C1 & _ & C2); done. }
  apply IH; [intros; apply HB; elems|simpl in Hn; lia|done].
Qed.

Lemma does_find_unused H s : forall l n,
  (forall y, y ∈ l -> (y < NBUF)%nat) -> (length l <= n)%nat -> chain (nx s) (pv s) (NBUF :: l) ->
  does H (find_unused n (List.last l NBUF)) s (find (fun i => b_refcnt (bf s i) =? 0) (rev l)) H s.
Proof.
  induction l as [|y l IH] using rev_ind; intros n HB Hn C; [destruct n; apply does_ret|].
  rewrite length_app in Hn. destruct n as [|n]; [simpl in Hn; lia|].
  rewrite last_last, rev_unit. cbn [find_unused].
  destruct (Nat.eqb_spec y NBUF) as [->|Hy]; [pose proof (HB NBUF ltac:(elems)); lia|].
  eapply does_bind; [apply does_getbuf|]. cbn [find].
  destruct (b_refcnt (bf s y) =? 0); [apply does_ret|].
  change (NBUF :: l ++ [y]) with ((NBUF :: l) ++ [y]) in C.
  destruct (snoc_cons NBUF l) as (c & p & E). rewrite E, <- app_assoc in C. simpl in C.
  apply chain_app in C as [C1 (_ & C2 & _)]. rewrite <- E in C1.
  assert (p = List.last l NBUF) as Ep.
  { destruct l as [|z l _] using rev_ind.
    - destruct c as [|? [|]]; simpl in *; congruence.
    - change (NBUF :: l ++ [z]) with ((NBUF :: l) ++ [z]) in E. rewrite last_last.
      apply app_inj_tail in E as [_ E]. done. }
  assert (b_prev (bf s y) = List.last l NBUF) as -> by (rewrite <- Ep; exact C2).
  apply IH; [intros; apply HB; elems|simpl in Hn; lia|done].
Qed.

(** ** bget() *)

(** The list links every buffer. *)
Record lru_ok (s : kstate) (l : list nat) : Prop := {
  lru_all : l ≡ₚ seq 0 NBUF;
  lru_ring : ringed (nx s) (pv s) NBUF l;
  lru_len : length (k_bufs s) = S NBUF;
}.

Lemma lru_lt s l y : lru_ok s l -> y ∈ l <-> (y < NBUF)%nat.
Proof. intros L. rewrite (lru_all s l L), elem_of_seq. lia. Qed.

Lemma lru_nodup s l : lru_ok s l -> NoDup (NBUF :: l).
Proof.
  intros L. apply NoDup_cons. split; [rewrite (lru_lt s l) by done; lia|]. rewrite (lru_all s l L). apply NoDup_seq.
Qed.

Lemma lru_first s l : lru_ok s l -> b_next (bf s NBUF) = hd NBUF l /\ chain (nx s) (pv s) (l ++ [NBUF]).
Proof.
  intros L. pose proof (lru_ring s l L) as R. unfold ringed in R.
  destruct l as [|y l]; simpl in R; destruct R as (R1 & _ & R2); done.
Qed.

Lemma lru_last s l : lru_ok s l -> b_prev (bf s NBUF) = List.last l NBUF /\ chain (nx s) (pv s) (NBUF :: l).
Proof.
  intros L. pose proof (lru_ring s l L) as R. unfold ringed in R.
  destruct l as [|y l _] using rev_ind; [by destruct R as (_ & R & _)|].
  change (NBUF :: (l ++ [y]) ++ [NBUF]) with ((NBUF :: l ++ [y]) ++ [NBUF]) in R.
  rewrite last_last. change (NBUF :: l ++ [y]) with ((NBUF :: l) ++ [y]) in *. rewrite <- app_assoc in R.
  apply chain_app in R as [R1 (_ & R2 & _)]. done.
Qed.

Lemma bf_setbuf i x s j : (i < length (k_bufs s))%nat -> bf (setbuf i x s) j = if (j =? i)%nat then x else bf s j.
Proof.
  intros H. unfold bf, setbuf. simpl. rewrite !nth_lookup. destruct (Nat.eqb_spec j i) as [->|N].
  - by rewrite list_lookup_insert_eq.
  - by rewrite list_lookup_insert_ne.
Qed.

Lemma setbuf_setbuf i x y s : setbuf i x (setbuf i y s) = setbuf i x s.
Proof. unfold setbuf, set_k_bufs. simpl. by rewrite list_insert_insert_eq. Qed.

Lemma length_setbuf i x s : length (k_bufs (setbuf i x s)) = length (k_bufs s).
Proof. unfold setbuf. simpl. apply length_insert. Qed.

(** Changing a buffer but not its links keeps the list. *)
Lemma lru_setbuf s l i x : lru_ok s l -> (i <= NBUF)%nat -> b_next x = b_next (bf s i) -> b_prev x = b_prev (bf s i) ->
  lru_ok (setbuf i x s) l.
Proof.
  intros L Hi E1 E2. pose proof (lru_len s l L) as Hl. split; [apply L| |by rewrite length_setbuf].
  unfold ringed. change (NBUF :: l ++ [NBUF]) with ((NBUF :: l) ++ [NBUF]).
  apply (chain_ext (nx s) (pv s)); [apply L| |]; intros y _; unfold nx, pv;
    rewrite bf_setbuf by lia; destruct (Nat.eqb_spec y i); congruence.
Qed.

Lemma set_sl_buf i v s : set_sl (SlBuf i) v s = setbuf i (set_b_lock v (bf s i)) s.
Proof. done. Qed.

Lemma does_acquire_buf fuel b s x : (b < length (k_bufs s))%nat -> sl_locked (b_lock x) = 0 ->
  does [] (acquiresleep fuel (SlBuf b)) (setbuf b x s) tt [] (setbuf b (set_b_lock my_sl x) s).
Proof.
  intros Hb F.
  replace (setbuf b (set_b_lock my_sl x) s) with (set_sl (SlBuf b) my_sl (setbuf b x s)).
  - apply does_acquiresleep; [by apply not_elem_of_nil|simpl; by rewrite length_insert|].
    unfold get_sl. fold (bf (setbuf b x s) b). rewrite bf_setbuf, Nat.eqb_refl by done. done.
  - rewrite set_sl_buf, bf_setbuf, Nat.eqb_refl, setbuf_setbuf by done. done.
Qed.

Definition hit (x : buf) : buf := set_b_lock my_sl (set_b_refcnt (u32 (b_refcnt x + 1)) x).
Definition miss (dev bn : Z) (x : buf) : buf :=
  set_b_lock my_sl (set_b_refcnt 1 (set_b_valid 0 (set_b_blockno bn (set_b_dev dev x)))).

Lemma does_bget_hit fuel dev bn s l b : lru_ok s l -> (b < NBUF)%nat -> holds dev bn (bf s b) = true ->
  (forall i, (i < NBUF)%nat -> holds dev bn (bf s i) = true -> i = b) -> sl_locked (b_lock (bf s b)) = 0 ->
  does [] (bget fuel dev bn) s b [] (setbuf b (hit (bf s b)) s).
Proof.
  intros L Hb Hh U F. pose proof (lru_len s l L) as Hl. destruct (lru_first s l L) as [E1 C1].
  unfold bget. dstep. eapply does_bind; [apply does_getbuf|]. rewrite E1.
  eapply does_bind; [apply (does_find_cached _ dev bn s l)|].
  { intros y. by apply (lru_lt s l). }
  { rewrite (lru_all s l L), length_seq. done. }
  { done. }
  destruct (find _ l) as [i|] eqn:Ef.
  - apply find_some in Ef as [I1 I2]. apply list_elem_of_In, (lru_lt s l) in I1; [|done].
    rewrite (U i I1 I2). eapply does_bind; [apply does_updbuf|]. dstep.
    eapply does_bind; [apply does_acquire_buf; [lia|done]|]. apply does_ret.
  - exfalso. apply find_none with (x := b) in Ef; [congruence|]. apply list_elem_of_In. by apply (lru_lt s l).
Qed.

Lemma does_bget_miss fuel dev bn s l : lru_ok s l ->
  (forall i, (i < NBUF)%nat -> holds dev bn (bf s i) = false) ->
  (exists i, (i < NBUF)%nat /\ b_refcnt (bf s i) = 0) ->
  (forall i, (i < NBUF)%nat -> b_refcnt (bf s i) = 0 -> sl_locked (b_lock (bf s i)) = 0) ->
  exists b, (b < NBUF)%nat /\ b_refcnt (bf s b) = 0 /\
    does [] (bget fuel dev bn) s b [] (setbuf b (miss dev bn (bf s b)) s).
Proof.
  intros L N (i & Hi & Hz) F. pose proof (lru_len s l L) as Hl.
  destruct (lru_first s l L) as [E1 C1]. destruct (lru_last s l L) as [E2 C2].
  destruct (find (fun i => b_refcnt (bf s i) =? 0) (rev l)) as [b|] eqn:Ef.
  2: { exfalso. apply find_none with (x := i) in Ef; [rewrite Hz in Ef; done|].
       apply in_rev. rewrite rev_involutive. apply list_elem_of_In. by apply (lru_lt s l). }
  pose proof (find_some _ _ Ef) as [I1 I2]. apply in_rev, list_elem_of_In, (lru_lt s l) in I1; [|done].
  apply Z.eqb_eq in I2. exists b. split; [done|]. split; [done|].
  unfold bget. dstep. eapply does_bind; [apply does_getbuf|]. rewrite E1.
  eapply does_bind; [apply (does_find_cached _ dev bn s l)|].
  { intros y. by apply (lru_lt s l). }
  { rewrite (lru_all s l L), length_seq. done. }
  { done. }
  destruct (find _ l) as [j|] eqn:Ej.
  { exfalso. apply find_some in Ej as [J1 J2]. apply list_elem_of_In, (lru_lt s l) in J1; [|done].
    by rewrite (N j J1) in J2. }
  eapply does_bind; [apply does_getbuf|]. rewrite E2.
  eapply does_bind; [apply (does_find_unused _ s l)|].
  { intros y. by apply (lru_lt s l). }
  { rewrite (lru_all s l L), length_seq. done. }
  { done. }
  rewrite Ef.
  do 4 (eapply does_bind; [apply does_updbuf|]; rewrite ?setbuf_setbuf, ?bf_setbuf, ?Nat.eqb_refl
    by (rewrite ?length_setbuf; lia)).
  dstep. eapply does_bind; [apply does_acquire_buf; [lia|by apply F]|]. apply does_ret.
Qed.

(** ** The cache and the disk *)

(** A buffer without its links. *)
Definition body (x : buf) : buf := set_b_prev O (set_b_next O x).

Definition zero_block : list Z := replicate 1024 0.
Definition block (s : kstate) (bn : Z) : list Z := default zero_block (k_disk s !! bn).

(** The disk performs a write. *)
Definition disk_put (bn : Z) (data : list Z) (s : kstate) : kstate :=
  set_k_dlog (k_dlog s ++ [(bn, data)]) (set_k_disk (<[bn := data]> (k_disk s)) s).

(** What the buffer cache relies on: a request moves the block. *)
Class DiskLaws (D : Disk) := {
  rw_read b s : (b < NBUF)%nat -> length (k_bufs s) = S NBUF ->
    does [] (virtio_disk_rw b false) s tt []
      (setbuf b (set_b_disk 0 (set_b_data (block s (b_blockno (bf s b))) (bf s b))) s);
  rw_write b s : (b < NBUF)%nat -> length (k_bufs s) = S NBUF ->
    does [] (virtio_disk_rw b true) s tt []
      (disk_put (b_blockno (bf s b)) (b_data (bf s b)) (setbuf b (set_b_disk 0 (bf s b)) s));
}.

Variable dev : Z.

(** A buffer that has block [bn]. *)
Definition caches (bn : Z) (x : buf) : bool := (holds dev bn x && negb (b_valid x =? 0))%bool.

(** What a reader of block [bn] sees. *)
Definition view (s : kstate) (bn : Z) : list Z :=
  match find (fun i => caches bn (bf s i)) (seq 0 NBUF) with
  | Some i => b_data (bf s i)
  | None => block s bn
  end.

Record cache_ok (s : kstate) : Prop := {
  co_lru : exists l, lru_ok s l;
  co_uniq i j bn : (i < NBUF)%nat -> (j < NBUF)%nat ->
    holds dev bn (bf s i) = true -> holds dev bn (bf s j) = true -> i = j;
  co_clean i : (i < NBUF)%nat -> b_refcnt (bf s i) = 0 -> b_dev (bf s i) = dev -> b_valid (bf s i) <> 0 ->
    b_data (bf s i) = block s (b_blockno (bf s i));
  co_unlocked i : (i < NBUF)%nat -> b_refcnt (bf s i) = 0 -> sl_locked (b_lock (bf s i)) = 0;
  co_ref i : (i < NBUF)%nat -> 0 <= b_refcnt (bf s i);
}.

Lemma holds_true bn x : holds dev bn x = true <-> b_dev x = dev /\ b_blockno x = bn.
Proof. unfold holds. rewrite andb_true_iff, !Z.eqb_eq. done. Qed.

Lemma caches_true bn x : caches bn x = true <-> holds dev bn x = true /\ b_valid x <> 0.
Proof. unfold caches. rewrite andb_true_iff, negb_true_iff, Z.eqb_neq. done. Qed.

Lemma view_hit s i bn : cache_ok s -> (i < NBUF)%nat -> caches bn (bf s i) = true -> view s bn = b_data (bf s i).
Proof.
  intros C Hi H. unfold view. destruct (find _ _) as [j|] eqn:E.
  - apply find_some in E as [J1 J2]. apply in_seq in J1. apply caches_true in H as [H _], J2 as [J2 _].
    by rewrite (co_uniq s C j i bn ltac:(lia) Hi J2 H).
  - apply find_none with (x := i) in E; [congruence|]. apply in_seq. lia.
Qed.

Lemma view_miss s bn : (forall i, (i < NBUF)%nat -> caches bn (bf s i) = false) -> view s bn = block s bn.
Proof.
  intros H. unfold view. destruct (find _ _) as [j|] eqn:E; [|done].
  apply find_some in E as [J1 J2]. apply in_seq in J1. rewrite H in J2 by lia. done.
Qed.

Lemma body_fields x y : body x = body y ->
  b_valid x = b_valid y /\ b_dev x = b_dev y /\ b_blockno x = b_blockno y /\ b_lock x = b_lock y /\
  b_refcnt x = b_refcnt y /\ b_data x = b_data y.
Proof.
  intros E.
  pose proof (f_equal b_valid E). pose proof (f_equal b_dev E). pose proof (f_equal b_blockno E).
  pose proof (f_equal b_lock E). pose proof (f_equal b_refcnt E). pose proof (f_equal b_data E). done.
Qed.

Lemma body_holds bn x y : body x = body y -> holds dev bn x = holds dev bn y /\ caches bn x = caches bn y.
Proof.
  intros (E1 & E2 & E3 & _)%body_fields. unfold caches, holds. by rewrite E1, E2, E3.
Qed.

(** [s'] differs from [s] in buffer [b], and in links, only. *)
Record touched (b : nat) (s s' : kstate) : Prop := {
  to_lru : exists l, lru_ok s' l;
  to_bufs : s' = set_k_bufs (k_bufs s') s;
  to_other i : (i < NBUF)%nat -> i <> b -> body (bf s' i) = body (bf s i);
}.

Lemma touched_block b s s' bn : touched b s s' -> block s' bn = block s bn.
Proof. intros T. rewrite (to_bufs _ _ _ T). done. Qed.

Lemma touched_ok b s s' : cache_ok s -> touched b s s' -> (b < NBUF)%nat -> 0 <= b_refcnt (bf s' b) ->
  (forall i bn, (i < NBUF)%nat -> i <> b -> holds dev bn (bf s' b) = true -> holds dev bn (bf s i) = false) ->
  (b_refcnt (bf s' b) = 0 -> sl_locked (b_lock (bf s' b)) = 0) ->
  (b_refcnt (bf s' b) = 0 -> b_dev (bf s' b) = dev -> b_valid (bf s' b) <> 0 ->
     b_data (bf s' b) = block s (b_blockno (bf s' b))) ->
  cache_ok s'.
Proof.
  intros C T Hb R U L Cl.
  assert (forall i bn, (i < NBUF)%nat -> i <> b -> holds dev bn (bf s' i) = holds dev bn (bf s i)) as Ho
    by (intros i bn Hi N; apply body_holds, T; done).
  split; [apply T| | | |].
  - intros i j bn Hi Hj H1 H2. destruct (decide (i = b)) as [->|Ni], (decide (j = b)) as [->|Nj]; [done| | |].
    + rewrite Ho in H2 by done. by rewrite (U j bn) in H2.
    + rewrite Ho in H1 by done. by rewrite (U i bn) in H1.
    + rewrite Ho in H1, H2 by done. by apply (co_uniq s C i j bn).
  - intros i Hi. rewrite (touched_block b s s') by done. destruct (decide (i = b)) as [->|Ni]; [done|].
    destruct (body_fields _ _ (to_other _ _ _ T i Hi Ni)) as (E1 & E2 & E3 & E4 & E5 & E6).
    rewrite E1, E2, E3, E5, E6. by apply (co_clean s C).
  - intros i Hi. destruct (decide (i = b)) as [->|Ni]; [done|].
    destruct (body_fields _ _ (to_other _ _ _ T i Hi Ni)) as (E1 & E2 & E3 & E4 & E5 & E6).
    rewrite E4, E5. by apply (co_unlocked s C).
  - intros i Hi. destruct (decide (i = b)) as [->|Ni]; [done|].
    destruct (body_fields _ _ (to_other _ _ _ T i Hi Ni)) as (E1 & E2 & E3 & E4 & E5 & E6).
    rewrite E5. by apply (co_ref s C).
Qed.

(** What readers see: block by block, with the buffer that changed. *)
Lemma touched_view b s s' bn : cache_ok s -> cache_ok s' -> touched b s s' -> (b < NBUF)%nat ->
  view s' bn = if caches bn (bf s' b) then b_data (bf s' b)
               else if caches bn (bf s b) then block s bn else view s bn.
Proof.
  intros C C' T Hb. destruct (caches bn (bf s' b)) eqn:E; [by apply view_hit|].
  destruct (caches bn (bf s b)) eqn:E0.
  - rewrite view_miss; [by apply (touched_block b)|]. intros i Hi. destruct (decide (i = b)) as [->|N]; [done|].
    destruct (body_holds bn _ _ (to_other _ _ _ T i Hi N)) as [_ ->]. apply not_true_is_false. intros X.
    apply N. apply caches_true in X as [X _], E0 as [E0 _]. by apply (co_uniq s C i b bn).
  - destruct (find (fun i => caches bn (bf s i)) (seq 0 NBUF)) as [j|] eqn:F.
    + apply find_some in F as [J1 J2]. apply in_seq in J1.
      assert (j <> b) as Nj by congruence.
      rewrite (view_hit s j) by (done || lia).
      pose proof (to_other _ _ _ T j ltac:(lia) Nj) as Bj.
      rewrite (view_hit s' j); [by apply body_fields|done|lia|]. by destruct (body_holds bn _ _ Bj) as [_ ->].
    + assert (forall i, (i < NBUF)%nat -> caches bn (bf s i) = false) as N
        by (intros i Hi; apply (find_none _ _ F); apply in_seq; lia).
      rewrite (view_miss s), (view_miss s'); [by apply (touched_block b)| |done].
      intros i Hi. destruct (decide (i = b)) as [->|Nb]; [done|].
      destruct (body_holds bn _ _ (to_other _ _ _ T i Hi Nb)) as [_ ->]. by apply N.
Qed.

(** ** bread(), bwrite() and brelse() *)

Section Ops.
Context {D : Disk} {DL : DiskLaws D}.
Variable fuel : nat.

(** Buffer [b] is locked and has block [bn]; readers see what they saw. *)
Record fetched (bn : Z) (b : nat) (s s' : kstate) : Prop := {
  fe_touched : touched b s s';
  fe_ok : cache_ok s';
  fe_lt : (b < NBUF)%nat;
  fe_holds : holds dev bn (bf s' b) = true;
  fe_valid : b_valid (bf s' b) <> 0;
  fe_data : b_data (bf s' b) = view s bn;
  fe_lock : b_lock (bf s' b) = my_sl;
  fe_view bn' : view s' bn' = view s bn';
  fe_ref : (holds dev bn (bf s b) = true /\ b_refcnt (bf s' b) = b_refcnt (bf s b) + 1) \/
           ((forall i, (i < NBUF)%nat -> holds dev bn (bf s i) = false) /\
            b_refcnt (bf s b) = 0 /\ b_refcnt (bf s' b) = 1);
}.

(** bread() will neither wait nor run out of buffers. *)
Definition can_read (bn : Z) (s : kstate) : Prop :=
  (forall i, (i < NBUF)%nat -> holds dev bn (bf s i) = true ->
     sl_locked (b_lock (bf s i)) = 0 /\ b_refcnt (bf s i) < 2 ^ 32 - 1) /\
  ((exists i, (i < NBUF)%nat /\ holds dev bn (bf s i) = true) \/
   exists i, (i < NBUF)%nat /\ b_refcnt (bf s i) = 0).

Lemma find_holder bn s : (exists i, (i < NBUF)%nat /\ holds dev bn (bf s i) = true) \/
  forall i, (i < NBUF)%nat -> holds dev bn (bf s i) = false.
Proof.
  destruct (find (fun i => holds dev bn (bf s i)) (seq 0 NBUF)) as [i|] eqn:F.
  - left. apply find_some in F as [I1 I2]. apply in_seq in I1. exists i. split; [lia|done].
  - right. intros i Hi. apply (find_none _ _ F). apply in_seq. lia.
Qed.

Lemma touched_setbuf b x s : cache_ok s -> (b < NBUF)%nat ->
  b_next x = b_next (bf s b) -> b_prev x = b_prev (bf s b) -> touched b s (setbuf b x s) /\ bf (setbuf b x s) b = x.
Proof.
  intros C Hb E1 E2. destruct (co_lru s C) as [l L]. pose proof (lru_len s l L) as Hl. split; [split|].
  - exists l. apply lru_setbuf; [done|lia|done|done].
  - done.
  - intros i Hi N. rewrite bf_setbuf by lia. apply Nat.eqb_neq in N as ->. done.
  - rewrite bf_setbuf by lia. by rewrite Nat.eqb_refl.
Qed.

(** The rest of bread() once bget() has set up buffer [b] as [x]. *)
Definition loaded (s : kstate) (x : buf) : buf :=
  if b_valid x =? 0 then set_b_valid 1 (set_b_disk 0 (set_b_data (block s (b_blockno x)) x)) else x.

Lemma does_bread bn s b x : cache_ok s -> (b < NBUF)%nat ->
  does [] (bget fuel dev bn) s b [] (setbuf b x s) ->
  does [] (bread fuel dev bn) s b [] (setbuf b (loaded s x) s).
Proof.
  intros C Hb Dg. destruct (co_lru s C) as [l L]. pose proof (lru_len s l L) as Hl.
  unfold bread. eapply does_bind; [exact Dg|]. eapply does_bind; [apply does_getbuf|].
  rewrite bf_setbuf, Nat.eqb_refl by lia. unfold loaded.
  destruct (Z.eqb_spec (b_valid x) 0) as [E|E].
  - eapply does_bind; [|apply does_ret]. unfold kwhen.
    eapply does_bind; [apply rw_read; [done|by rewrite length_setbuf]|].
    rewrite setbuf_setbuf. replace (block (setbuf b x s)) with (block s) by done.
    rewrite !bf_setbuf, Nat.eqb_refl by lia.
    match goal with |- KMonad.K _ -> _ => idtac | |- Seq.does _ _ _ (updbuf b ?f) (setbuf b ?y s) _ _ _ =>
      replace (setbuf b (set_b_valid 1 y) s) with (setbuf b (f (bf (setbuf b y s) b)) (setbuf b y s))
        by (rewrite setbuf_setbuf, bf_setbuf, Nat.eqb_refl by lia; done) end.
    apply does_updbuf.
  - eapply does_bind; apply does_ret.
Qed.

Lemma fetched_intro bn b x s : cache_ok s -> (b < NBUF)%nat ->
  b_next x = b_next (bf s b) -> b_prev x = b_prev (bf s b) -> holds dev bn x = true -> b_valid x <> 0 ->
  b_lock x = my_sl -> 0 < b_refcnt x -> b_data x = view s bn ->
  (forall i, (i < NBUF)%nat -> i <> b -> holds dev bn (bf s i) = false) ->
  (forall bn', bn' <> bn -> caches bn' (bf s b) = true -> view s bn' = block s bn') ->
  (holds dev bn (bf s b) = true /\ b_refcnt x = b_refcnt (bf s b) + 1) \/
    ((forall i, (i < NBUF)%nat -> holds dev bn (bf s i) = false) /\ b_refcnt (bf s b) = 0 /\ b_refcnt x = 1) ->
  fetched bn b s (setbuf b x s).
Proof.
  intros C Hb X1 X2 X3 X4 X5 X6 X7 U V R. destruct (touched_setbuf b x s C Hb X1 X2) as [T Eb].
  assert (forall bn', holds dev bn' x = true -> bn' = bn) as Un.
  { intros bn' H'. apply holds_true in H' as [_ H'], X3 as [_ X3]. congruence. }
  assert (cache_ok (setbuf b x s)) as C'.
  { apply (touched_ok b s); rewrite ?Eb; try done; try lia.
    intros i bn' Hi Ni H'. rewrite (Un bn' H'). by apply U. }
  split; rewrite ?Eb; try done. intros bn'. rewrite (touched_view b s) by done. rewrite Eb.
  destruct (caches bn' x) eqn:E1.
  { apply caches_true in E1 as [E1 _]. by rewrite (Un bn' E1). }
  destruct (caches bn' (bf s b)) eqn:E2; [|done]. symmetry. apply V; [|done]. intros ->.
  assert (caches bn x = true) by (by apply caches_true). congruence.
Qed.

Lemma bread_hit bn b s : cache_ok s -> (b < NBUF)%nat -> holds dev bn (bf s b) = true ->
  sl_locked (b_lock (bf s b)) = 0 -> b_refcnt (bf s b) < 2 ^ 32 - 1 ->
  exists s', does [] (bread fuel dev bn) s b [] s' /\ fetched bn b s s'.
Proof.
  intros C Hb Hh Hl Hr. destruct (co_lru s C) as [l L].
  assert (forall i, (i < NBUF)%nat -> holds dev bn (bf s i) = true -> i = b) as U
    by (intros i Hi H; by apply (co_uniq s C i b bn)).
  pose proof (does_bget_hit fuel dev bn s l b L Hb Hh U Hl) as Dg.
  eexists. split; [apply does_bread; [done|done|exact Dg]|].
  pose proof (co_ref s C b Hb) as R0.
  assert (u32 (b_refcnt (bf s b) + 1) = b_refcnt (bf s b) + 1) as Eu by (apply u32_small; lia).
  assert (forall bn', holds dev bn' (bf s b) = true -> bn' = bn) as Un.
  { intros bn' H'. apply holds_true in H' as [_ H'], Hh as [_ Hh]. congruence. }
  unfold loaded, hit; simpl; destruct (Z.eqb_spec (b_valid (bf s b)) 0) as [E|E];
    (apply fetched_intro; simpl; rewrite ?Eu; try done; try lia;
     [|intros i Hi N; apply not_true_is_false; intros H; by apply N, U
      |intros bn' N H'; apply caches_true in H' as [H' _]; by apply Un in H'|by left]).
  - rewrite view_miss; [apply holds_true in Hh as [_ ->]; done|]. intros i Hi. apply not_true_is_false. intros X.
    apply caches_true in X as [X Y]. rewrite (U i Hi X) in Y. done.
  - symmetry. apply view_hit; [done|done|]. by apply caches_true.
Qed.

Lemma bread_miss bn s : cache_ok s -> (forall i, (i < NBUF)%nat -> holds dev bn (bf s i) = false) ->
  (exists i, (i < NBUF)%nat /\ b_refcnt (bf s i) = 0) ->
  exists b s', does [] (bread fuel dev bn) s b [] s' /\ fetched bn b s s'.
Proof.
  intros C N Hf. destruct (co_lru s C) as [l L].
  destruct (does_bget_miss fuel dev bn s l L N Hf (co_unlocked s C)) as (b & Hb & Hr & Dg).
  exists b. eexists. split; [apply does_bread; [done|done|exact Dg]|].
  apply fetched_intro; try done; [by apply holds_true| | | |].
  - rewrite view_miss; [done|]. intros i Hi. unfold caches. by rewrite N.
  - intros i Hi _. by apply N.
  - intros bn' _ H. rewrite (view_hit s b bn') by done. apply caches_true in H as [H E3].
    apply holds_true in H as [E4 E5]. rewrite <- E5. by apply (co_clean s C).
  - by right.
Qed.

Lemma bread_spec bn s : cache_ok s -> can_read bn s ->
  exists b s', does [] (bread fuel dev bn) s b [] s' /\ fetched bn b s s'.
Proof.
  intros C [Hu Hf]. destruct (find_holder bn s) as [(b & Hb & Hh)|N].
  - destruct (Hu b Hb Hh) as [Hl Hr]. destruct (bread_hit bn b s C Hb Hh Hl Hr) as (s' & D1 & F1). eauto.
  - destruct Hf as [(i & Hi & Hh)|Hf]; [by rewrite N in Hh|]. by apply bread_miss.
Qed.

(** Setting one link. *)
Definition pset (i v : nat) (s : kstate) : kstate := setbuf i (set_b_prev v (bf s i)) s.
Definition nset (i v : nat) (s : kstate) : kstate := setbuf i (set_b_next v (bf s i)) s.

Lemma pset_spec i v s : (i < length (k_bufs s))%nat ->
  (forall j, nx (pset i v s) j = nx s j) /\ (forall j, pv (pset i v s) j = fset (pv s) i v j) /\
  (forall j, body (bf (pset i v s) j) = body (bf s j)) /\ length (k_bufs (pset i v s)) = length (k_bufs s).
Proof.
  intros H. unfold nx, pv, pset, fset. split; [|split; [|split]]; [intros j..|by rewrite length_setbuf];
    rewrite bf_setbuf by done; destruct (Nat.eqb_spec j i); by subst.
Qed.

Lemma nset_spec i v s : (i < length (k_bufs s))%nat ->
  (forall j, nx (nset i v s) j = fset (nx s) i v j) /\ (forall j, pv (nset i v s) j = pv s j) /\
  (forall j, body (bf (nset i v s) j) = body (bf s j)) /\ length (k_bufs (nset i v s)) = length (k_bufs s).
Proof.
  intros H. unfold nx, pv, nset, fset. split; [|split; [|split]]; [intros j..|by rewrite length_setbuf];
    rewrite bf_setbuf by done; destruct (Nat.eqb_spec j i); by subst.
Qed.

Lemma ringed_ext n p n' p' h l : ringed n p h l -> (forall j, n' j = n j) -> (forall j, p' j = p j) -> ringed n' p' h l.
Proof.
  unfold ringed. intros R E1 E2. change (h :: l ++ [h]) with ((h :: l) ++ [h]) in *.
  apply (chain_ext n p); auto.
Qed.

(** Moving buffer [b] to the front of the list, as brelse() does. *)
Definition unlink (b : nat) (s : kstate) : kstate := nset (pv s b) (nx s b) (pset (nx s b) (pv s b) s).
Definition relink (b : nat) (s : kstate) : kstate :=
  nset NBUF b (pset (nx s NBUF) b (pset b NBUF (nset b (nx s NBUF) s))).

Lemma unlink_spec b s l1 l2 : lru_ok s (l1 ++ b :: l2) ->
  ringed (nx (unlink b s)) (pv (unlink b s)) NBUF (l1 ++ l2) /\
  (forall j, body (bf (unlink b s) j) = body (bf s j)) /\ length (k_bufs (unlink b s)) = S NBUF /\
  nx s b <> b /\ (nx s b <= NBUF)%nat /\ (pv s b <= NBUF)%nat.
Proof.
  intros L. pose proof (lru_nodup _ _ L) as ND. pose proof (lru_len _ _ L) as Hl.
  destruct (ringed_remove _ _ _ _ _ _ (lru_ring _ _ L) ND) as (R & Hp & Hn).
  assert (forall y, y ∈ NBUF :: l1 ++ l2 -> (y <= NBUF)%nat) as Hle.
  { intros y Hy. rewrite elem_of_cons, elem_of_app in Hy. destruct Hy as [->|Hy]; [done|].
    pose proof (lru_lt _ _ y L) as X. rewrite elem_of_app, elem_of_cons in X. destruct X as [X _]. destruct Hy; lia || intuition lia. }
  assert (pv s b <= NBUF)%nat by (apply Hle; elems). assert (nx s b <= NBUF)%nat by (apply Hle; elems).
  assert (nx s b <> b) as Nb.
  { intros E. rewrite E in Hn. change (NBUF :: l1 ++ b :: l2) with ((NBUF :: l1) ++ b :: l2) in ND.
    apply NoDup_app in ND as (_ & N1 & N2). apply NoDup_cons in N2 as [N2 _].
    apply (N1 NBUF); elems. }
  destruct (pset_spec (nx s b) (pv s b) s ltac:(lia)) as (P1 & P2 & P3 & P4).
  destruct (nset_spec (pv s b) (nx s b) (pset (nx s b) (pv s b) s) ltac:(lia)) as (N1 & N2 & N3 & N4).
  unfold unlink. split; [|split; [|split; [lia|done]]].
  - eapply ringed_ext; [exact R| |]; intros j.
    + rewrite N1. unfold fset. destruct (j =? pv s b)%nat; [done|apply P1].
    + rewrite N2. apply P2.
  - intros j. by rewrite N3, P3.
Qed.

Lemma relink_spec b s l : ringed (nx s) (pv s) NBUF l -> (b :: l) ≡ₚ seq 0 NBUF -> length (k_bufs s) = S NBUF ->
  lru_ok (relink b s) (b :: l) /\ (forall j, body (bf (relink b s) j) = body (bf s j)).
Proof.
  intros R HP Hl.
  assert (NoDup (b :: l)) as ND by (rewrite HP; apply NoDup_seq).
  assert (forall y, y ∈ b :: l -> (y < NBUF)%nat) as Hlt by (intros y; rewrite HP, elem_of_seq; lia).
  assert (NoDup (b :: NBUF :: l)) as ND2.
  { apply NoDup_cons in ND as [N1 N2]. pose proof (Hlt b ltac:(elems)). apply NoDup_cons. split.
    - rewrite elem_of_cons. intros [->|]; [lia|done].
    - apply NoDup_cons. split; [|done]. intros X. pose proof (Hlt NBUF ltac:(elems)). lia. }
  destruct (ringed_push _ _ _ _ _ R ND2) as [R' Hn]. pose proof (Hlt b ltac:(elems)) as Hb.
  assert (nx s NBUF <= NBUF)%nat as Hn'.
  { rewrite elem_of_app, elem_of_cons, elem_of_nil in Hn. destruct Hn as [Hn|[->|[]]]; [|done].
    pose proof (Hlt _ ltac:(rewrite elem_of_cons; right; exact Hn)). lia. }
  destruct (nset_spec b (nx s NBUF) s ltac:(lia)) as (A1 & A2 & A3 & A4).
  set (s1 := nset b (nx s NBUF) s) in *.
  destruct (pset_spec b NBUF s1 ltac:(lia)) as (B1 & B2 & B3 & B4). set (s2 := pset b NBUF s1) in *.
  destruct (pset_spec (nx s NBUF) b s2 ltac:(lia)) as (C1 & C2 & C3 & C4). set (s3 := pset (nx s NBUF) b s2) in *.
  destruct (nset_spec NBUF b s3 ltac:(lia)) as (D1 & D2 & D3 & D4).
  unfold relink. fold s1. fold s2. fold s3. split; [split; [done| |lia]|].
  - eapply ringed_ext; [exact R'| |]; intros j.
    + rewrite D1. unfold fset at 1 2. destruct (j =? NBUF)%nat; [done|]. by rewrite C1, B1, A1.
    + rewrite D2, C2. unfold fset at 1 2. destruct (j =? nx s NBUF)%nat; [done|]. rewrite B2.
      unfold fset. destruct (j =? b)%nat; [done|apply A2].
  - intros j. by rewrite D3, C3, B3, A3.
Qed.

(** What brelse() leaves in the buffer. *)
Definition unheld (x : buf) : buf := set_b_refcnt (u32 (b_refcnt x - 1)) (set_b_lock free_sl x).

Record released (b : nat) (s s' : kstate) : Prop := {
  re_touched : touched b s s';
  re_ok : cache_ok s';
  re_body : body (bf s' b) = body (unheld (bf s b));
  re_view bn : view s' bn = view s bn;
}.

Lemma does_move b s l : lru_ok s l -> (b < NBUF)%nat ->
  exists s', does [LBcache]
     (updbuf (nx s b) (set_b_prev (pv s b)) ;;
      x ← getbuf b;
      updbuf x.(b_prev) (set_b_next x.(b_next)) ;;
      link_first b ;;
      h ← getbuf NBUF;
      updbuf h.(b_next) (set_b_prev b) ;;
      updbuf NBUF (set_b_next b)) s tt [LBcache] s' /\
    (exists l', lru_ok s' l') /\ s' = set_k_bufs (k_bufs s') s /\ forall j, body (bf s' j) = body (bf s j).
Proof.
  intros L Hb. assert (b ∈ l) as Hin by (by apply (lru_lt s l)).
  apply list_elem_of_split in Hin as (l1 & l2 & ->). pose proof (lru_len _ _ L) as Hl.
  destruct (unlink_spec b s l1 l2 L) as (U1 & U2 & U3 & U4 & U5 & U6).
  destruct (relink_spec b (unlink b s) (l1 ++ l2) U1) as [R1 R2]; [|done|].
  { rewrite <- (lru_all _ _ L). by rewrite Permutation_middle. }
  exists (relink b (unlink b s)). split; [|split; [by eexists|split; [done|intros j; by rewrite R2, U2]]].
  eapply does_bind; [apply does_updbuf|]. fold (pset (nx s b) (pv s b) s).
  destruct (pset_spec (nx s b) (pv s b) s ltac:(lia)) as (P1 & P2 & P3 & P4).
  eapply does_bind; [apply does_getbuf|].
  change (b_prev (bf (pset (nx s b) (pv s b) s) b)) with (pv (pset (nx s b) (pv s b) s) b).
  change (b_next (bf (pset (nx s b) (pv s b) s) b)) with (nx (pset (nx s b) (pv s b) s) b).
  rewrite P1, P2, fset_ne by done.
  eapply does_bind; [apply does_updbuf|]. fold (nset (pv s b) (nx s b) (pset (nx s b) (pv s b) s)).
  fold (unlink b s). set (s2 := unlink b s) in *. unfold link_first, relink.
  eapply does_bind.
  { eapply does_bind; [apply does_getbuf|]. eapply does_bind; [apply does_updbuf|].
    eapply does_bind; [apply does_updbuf|]. apply does_ret. }
  fold (nx s2 NBUF). fold (nset b (nx s2 NBUF) s2). set (s3 := nset b (nx s2 NBUF) s2). fold (pset b NBUF s3).
  eapply does_bind; [apply does_getbuf|]. fold (nx (pset b NBUF s3) NBUF).
  destruct (nset_spec b (nx s2 NBUF) s2 ltac:(lia)) as (A1 & _ & _ & A4). fold s3 in A1, A4.
  destruct (pset_spec b NBUF s3 ltac:(lia)) as (B1 & _). rewrite B1, A1, fset_ne by lia.
  eapply does_bind; [apply does_updbuf|]. apply does_updbuf.
Qed.

Lemma released_intro b s s' : cache_ok s -> (b < NBUF)%nat -> touched b s s' ->
  body (bf s' b) = body (unheld (bf s b)) -> 1 <= b_refcnt (bf s b) < 2 ^ 32 ->
  (b_refcnt (bf s b) = 1 -> b_dev (bf s b) = dev -> b_valid (bf s b) <> 0 ->
     b_data (bf s b) = block s (b_blockno (bf s b))) -> released b s s'.
Proof.
  intros C Hb T E R Cl. destruct (body_fields _ _ E) as (E1 & E2 & E3 & E4 & E5 & E6). simpl in *.
  rewrite u32_small in E5 by lia.
  assert (cache_ok s') as C'.
  { apply (touched_ok b s); rewrite ?E1, ?E2, ?E3, ?E4, ?E5, ?E6; try done; try lia.
    - intros i bn Hi Ni H. apply not_true_is_false. intros X. apply Ni, (co_uniq s C i b bn); [done|done|done|].
      apply holds_true in H as [H1 H2]. apply holds_true. split; congruence.
    - intros H. apply Cl. lia. }
  split; [done..|]. intros bn. rewrite (touched_view b s) by done.
  assert (caches bn (bf s' b) = caches bn (bf s b)) as -> by (unfold caches, holds; by rewrite E1, E2, E3).
  destruct (caches bn (bf s b)) eqn:Ec; [|done]. rewrite E6. symmetry. by apply view_hit.
Qed.

Lemma brelse_spec b s : cache_ok s -> (b < NBUF)%nat -> b_lock (bf s b) = my_sl ->
  1 <= b_refcnt (bf s b) < 2 ^ 32 ->
  (b_refcnt (bf s b) = 1 -> b_dev (bf s b) = dev -> b_valid (bf s b) <> 0 ->
     b_data (bf s b) = block s (b_blockno (bf s b))) ->
  exists s', does [] (brelse b) s tt [] s' /\ released b s s'.
Proof.
  intros C Hb Hk R Cl. destruct (co_lru s C) as [l L]. pose proof (lru_len s l L) as Hl.
  set (x1 := set_b_lock free_sl (bf s b)). set (x2 := unheld (bf s b)).
  assert (lru_ok (setbuf b x2 s) l) as L2 by (apply lru_setbuf; (done || lia)).
  assert (exists s', does [LBcache] (kwhen (b_refcnt x2 =? 0)
     (updbuf x2.(b_next) (set_b_prev x2.(b_prev)) ;; x ← getbuf b; updbuf x.(b_prev) (set_b_next x.(b_next)) ;;
      link_first b ;; h ← getbuf NBUF; updbuf h.(b_next) (set_b_prev b) ;; updbuf NBUF (set_b_next b)))
      (setbuf b x2 s) tt [LBcache] s' /\ (exists l', lru_ok s' l') /\ s' = set_k_bufs (k_bufs s') s /\
      forall j, body (bf s' j) = body (bf (setbuf b x2 s) j)) as (s' & Dm & L' & E' & Bj).
  { destruct (b_refcnt x2 =? 0); unfold kwhen.
    - destruct (does_move b (setbuf b x2 s) l L2 Hb) as (s' & Dm & L' & E' & Bj). exists s'.
      unfold nx, pv in Dm. rewrite bf_setbuf, Nat.eqb_refl in Dm by lia. split; [exact Dm|]. split; [done|].
      split; [|done]. rewrite E'. done.
    - exists (setbuf b x2 s). split; [apply does_ret|]. split; [by exists l|]. done. }
  exists s'. split.
  - unfold brelse. eapply does_bind; [apply does_holdingsleep; [by apply not_elem_of_nil|exact Hk]|].
    cbn [negb]. eapply does_bind.
    { apply does_releasesleep; [by apply not_elem_of_nil|simpl; lia|intros; by apply not_elem_of_nil]. }
    rewrite set_sl_buf. fold x1. dstep. eapply does_bind; [apply does_updbuf|].
    rewrite setbuf_setbuf, bf_setbuf, Nat.eqb_refl by lia.
    change (set_b_refcnt (u32 (b_refcnt x1 - 1)) x1) with x2.
    eapply does_bind; [apply does_getbuf|]. rewrite bf_setbuf, Nat.eqb_refl by lia.
    eapply does_bind; [exact Dm|]. apply does_release. by apply not_elem_of_nil.
  - assert (touched b s s') as T.
    { split; [done|done|]. intros i Hi N. rewrite Bj, bf_setbuf by lia. by apply Nat.eqb_neq in N as ->. }
    apply released_intro; try done. rewrite Bj, bf_setbuf, Nat.eqb_refl by lia. done.
Qed.

(** Changing what a referenced buffer has, but not which block. *)
Lemma set_ok b x s : cache_ok s -> (b < NBUF)%nat ->
  b_next x = b_next (bf s b) -> b_prev x = b_prev (bf s b) -> b_dev x = b_dev (bf s b) ->
  b_blockno x = b_blockno (bf s b) -> b_valid x = b_valid (bf s b) -> 0 < b_refcnt x ->
  touched b s (setbuf b x s) /\ cache_ok (setbuf b x s) /\ bf (setbuf b x s) b = x /\
  forall bn, view (setbuf b x s) bn = if caches bn (bf s b) then b_data x else view s bn.
Proof.
  intros C Hb X1 X2 X3 X4 X5 X6. destruct (touched_setbuf b x s C Hb X1 X2) as [T Eb].
  assert (forall bn, holds dev bn x = holds dev bn (bf s b)) as Ho by (intros bn; unfold holds; by rewrite X3, X4).
  assert (cache_ok (setbuf b x s)) as C'.
  { apply (touched_ok b s); rewrite ?Eb; try done; try lia. intros i bn Hi N H. rewrite Ho in H.
    apply not_true_is_false. intros X. by apply N, (co_uniq s C i b bn). }
  split; [done|]. split; [done|]. split; [done|]. intros bn. rewrite (touched_view b s) by done. rewrite Eb.
  assert (caches bn x = caches bn (bf s b)) as -> by (unfold caches; by rewrite Ho, X5).
  by destruct (caches bn (bf s b)).
Qed.

(** Writing a referenced buffer to its block. *)
Lemma put_ok b bn s : cache_ok s -> (b < NBUF)%nat -> caches bn (bf s b) = true -> 0 < b_refcnt (bf s b) ->
  let s' := disk_put bn (b_data (bf s b)) s in
  cache_ok s' /\ (forall bn', view s' bn' = view s bn') /\
  forall bn', block s' bn' = if bn' =? bn then b_data (bf s b) else block s bn'.
Proof.
  intros C Hb Hc R s'. pose proof (proj1 (proj1 (caches_true bn (bf s b)) Hc)) as Hh.
  assert (forall bn', block s' bn' = if bn' =? bn then b_data (bf s b) else block s bn') as Bl.
  { intros bn'. unfold block, s', disk_put. simpl. destruct (Z.eqb_spec bn' bn) as [->|N].
    - by rewrite lookup_insert_eq.
    - by rewrite lookup_insert_ne. }
  assert (forall i bn', (i < NBUF)%nat -> i <> b -> holds dev bn' (bf s i) = true -> bn' <> bn) as U.
  { intros i bn' Hi N H ->. by apply N, (co_uniq s C i b bn). }
  assert (cache_ok s') as C'.
  { destruct C as [[l [L1 L2 L3]] C2 C3 C4 C5]. split; [exists l; split; [done|exact L2|done]|exact C2| |exact C4|exact C5].
    intros i Hi Hr Hd Hv. rewrite Bl. change (bf s' i) with (bf s i) in *.
    assert (i <> b) as N by (intros ->; lia).
    destruct (Z.eqb_spec (b_blockno (bf s i)) bn) as [E|E]; [|by apply C3].
    exfalso. apply (U i bn Hi N); [|done]. by apply holds_true. }
  split; [done|]. split; [|done]. intros bn'. unfold view. change (bf s') with (bf s).
  destruct (find _ _) as [j|] eqn:F; [done|]. rewrite Bl. destruct (Z.eqb_spec bn' bn) as [->|N]; [|done].
  apply find_none with (x := b) in F; [congruence|]. apply in_seq. lia.
Qed.

Lemma does_bwrite b s : (b < NBUF)%nat -> length (k_bufs s) = S NBUF -> b_lock (bf s b) = my_sl ->
  does [] (bwrite b) s tt [] (disk_put (b_blockno (bf s b)) (b_data (bf s b)) (setbuf b (set_b_disk 0 (bf s b)) s)).
Proof.
  intros Hb Hl Hk. unfold bwrite.
  eapply does_bind; [apply does_holdingsleep; [by apply not_elem_of_nil|exact Hk]|]. cbn [negb]. by apply rw_write.
Qed.

(** bwrite() of a held buffer: the disk gets what readers see. *)
Lemma bwrite_spec b bn s : cache_ok s -> (b < NBUF)%nat -> caches bn (bf s b) = true -> 0 < b_refcnt (bf s b) ->
  b_lock (bf s b) = my_sl ->
  exists s', does [] (bwrite b) s tt [] s' /\ cache_ok s' /\ (forall bn', view s' bn' = view s bn') /\
    s' = disk_put bn (b_data (bf s b)) (setbuf b (set_b_disk 0 (bf s b)) s) /\
    (forall i, (i < NBUF)%nat -> i <> b -> bf s' i = bf s i) /\ bf s' b = set_b_disk 0 (bf s b) /\
    forall bn', block s' bn' = if bn' =? bn then view s bn else block s bn'.
Proof.
  intros C Hb Hc R Hk. destruct (co_lru s C) as [l L]. pose proof (lru_len s l L) as Hl.
  pose proof (does_bwrite b s Hb Hl Hk) as Dw. set (x := set_b_disk 0 (bf s b)) in *.
  destruct (set_ok b x s C Hb) as (T & C1 & E1 & V1); [done..|].
  assert (caches bn (bf (setbuf b x s) b) = true) as Hc1 by (rewrite E1; exact Hc).
  destruct (put_ok b bn (setbuf b x s) C1 Hb Hc1) as (C2 & V2 & B2); [by rewrite E1|].
  rewrite E1 in C2, V2, B2. change (b_data x) with (b_data (bf s b)) in C2, V2, B2.
  assert (b_blockno (bf s b) = bn) as En by (apply caches_true in Hc as [Hc _]; by apply holds_true in Hc as [_ Hc]).
  rewrite En in Dw. eexists. split; [exact Dw|]. split; [exact C2|]. split.
  { intros bn'. rewrite V2, V1. destruct (caches bn' (bf s b)) eqn:E; [|done]. symmetry. by apply view_hit. }
  split; [done|]. split; [|split].
  - intros i Hi N. unfold disk_put. change (bf (setbuf b x s) i = bf s i). rewrite bf_setbuf by lia.
    by apply Nat.eqb_neq in N as ->.
  - exact E1.
  - intros bn'. rewrite B2. destruct (bn' =? bn); [|done]. symmetry. by apply view_hit.
Qed.

End Ops.

Lemma does_bpin b s : does [] (bpin b) s tt [] (setbuf b (set_b_refcnt (u32 (b_refcnt (bf s b) + 1)) (bf s b)) s).
Proof. unfold bpin. dstep. eapply does_bind; [apply does_updbuf|]. apply does_release. by apply not_elem_of_nil. Qed.

Lemma does_bunpin b s : does [] (bunpin b) s tt [] (setbuf b (set_b_refcnt (u32 (b_refcnt (bf s b) - 1)) (bf s b)) s).
Proof. unfold bunpin. dstep. eapply does_bind; [apply does_updbuf|]. apply does_release. by apply not_elem_of_nil. Qed.

End Bio.
