(* ===== verification/Log.v ===== *)
(** * The log (kernel/log.c), the code

    The header of the log is a disk block: the count and the block numbers as
    32-bit words.  The loops over the log are bounded by its length; [fuel]
    bounds how often a thread waits. *)

From S2P Require Import Prelude Riscv Memory KState KMonad Spinlock Kalloc Vm Proc Sleeplock Printf Bio.

Definition BSIZE : Z := 1024.

Definition getlog : K logstate := gets (fun s => s.(k_log)).
Definition updlog (f : logstate -> logstate) : K unit :=
  modify (fun s => set_k_log (f s.(k_log)) s).

(** Words of a block. *)
Definition get_word (data : list Z) (off : Z) : Z := of_bytes (take 4 (drop (Z.to_nat off) data)).
Definition put_bytes (data : list Z) (off : Z) (bs : list Z) : list Z :=
  take (Z.to_nat off) data ++ bs ++ drop (Z.to_nat off + length bs) data.
Definition put_word (data : list Z) (off v : Z) : list Z := put_bytes data off (bytes_of 4 v).

Section Log.
Context {D : Disk}.
Variable fuel : nat.

(** One iteration of install_trans(). *)
Definition install_one (recovering : bool) (tail : Z) : K unit :=
  l ← getlog;
  let dst := nth (Z.to_nat tail) l.(lh_block) 0 in
  kwhen recovering (printf ("recovering tail %d dst %d" +:+ nl) [PInt tail; PInt dst]) ;;
  lbuf ← bread fuel l.(log_dev) (u32 (l.(log_start) + tail + 1));
  dbuf ← bread fuel l.(log_dev) (u32 dst);
  x ← getbuf lbuf;
  updbuf dbuf (set_b_data x.(b_data)) ;;
  bwrite dbuf ;;
  kwhen (negb recovering) (bunpin dbuf) ;;
  brelse lbuf ;;
  brelse dbuf.

Definition install_trans (recovering : bool) : K unit :=
  l ← getlog;
  kfor (seq 0 (Z.to_nat l.(lh_n))) (fun tail => install_one recovering (Z.of_nat tail)).

Definition read_head : K unit :=
  l ← getlog;
  b ← bread fuel l.(log_dev) (u32 l.(log_start));
  x ← getbuf b;
  let n := s32 (get_word x.(b_data) 0) in
  updlog (set_lh_n n) ;;
  kfor (seq 0 (Z.to_nat n)) (fun i =>
    updlog (fun l => set_lh_block (<[i := s32 (get_word x.(b_data) (4 + 4 * Z.of_nat i))]> l.(lh_block)) l)) ;;
  brelse b.

Definition write_head : K unit :=
  l ← getlog;
  b ← bread fuel l.(log_dev) (u32 l.(log_start));
  l ← getlog;
  updbuf b (fun x => set_b_data (put_word x.(b_data) 0 l.(lh_n)) x) ;;
  kfor (seq 0 (Z.to_nat l.(lh_n))) (fun i =>
    updbuf b (fun x => set_b_data (put_word x.(b_data) (4 + 4 * Z.of_nat i) (nth i l.(lh_block) 0)) x)) ;;
  bwrite b ;;
  brelse b.

Definition recover_from_log : K unit :=
  read_head ;;
  install_trans true ;;
  updlog (set_lh_n 0) ;;
  write_head.

(** sizeof(struct logheader) is 4 + 4 * LOGBLOCKS, below BSIZE. *)
Definition initlog (dev : Z) : K unit :=
  if BSIZE <=? 4 + 4 * LOGBLOCKS then kpanic "initlog: too big logheader" else
  initlock LLog ;;
  sb ← gets (fun s => s.(k_sb));
  updlog (set_log_start (s32 sb.(sb_logstart))) ;;
  updlog (set_log_dev dev) ;;
  recover_from_log.

Fixpoint begin_op_loop (n : nat) : K unit :=
  match n with
  | O => unbounded
  | S n' =>
      l ← getlog;
      if negb (l.(log_committing) =? 0) then
        sleep ChLog LLog ;; begin_op_loop n'
      else if LOGBLOCKS <? l.(lh_n) + (l.(log_outstanding) + 1) * MAXOPBLOCKS then
        sleep ChLog LLog ;; begin_op_loop n'
      else
        updlog (fun l => set_log_outstanding (s32 (l.(log_outstanding) + 1)) l) ;;
        release LLog
  end.

Definition begin_op : K unit :=
  acquire LLog ;;
  begin_op_loop (S fuel).

(** One iteration of write_log(). *)
Definition write_log_one (tail : Z) : K unit :=
  l ← getlog;
  to ← bread fuel l.(log_dev) (u32 (l.(log_start) + tail + 1));
  from ← bread fuel l.(log_dev) (u32 (nth (Z.to_nat tail) l.(lh_block) 0));
  x ← getbuf from;
  updbuf to (set_b_data x.(b_data)) ;;
  bwrite to ;;
  brelse from ;;
  brelse to.

Definition write_log : K unit :=
  l ← getlog;
  kfor (seq 0 (Z.to_nat l.(lh_n))) (fun tail => write_log_one (Z.of_nat tail)).

Definition commit : K unit :=
  l ← getlog;
  kwhen (0 <? l.(lh_n))
    (write_log ;;
     write_head ;;
     install_trans false ;;
     updlog (set_lh_n 0) ;;
     write_head).

Definition end_op : K unit :=
  acquire LLog ;;
  updlog (fun l => set_log_outstanding (s32 (l.(log_outstanding) - 1)) l) ;;
  l ← getlog;
  if negb (l.(log_committing) =? 0) then kpanic "log.committing" else
  do_commit ← (if l.(log_outstanding) =? 0
               then updlog (set_log_committing 1) ;; mret true
               else wakeup ChLog ;; mret false);
  release LLog ;;
  kwhen do_commit
    (commit ;;
     acquire LLog ;;
     updlog (set_log_committing 0) ;;
     wakeup ChLog ;;
     release LLog).

End Log.

(** The loop of log_write(): the first slot that has the block, or [lh_n]. *)
Fixpoint log_slot (blocks : list Z) (n : nat) (blockno : Z) : nat :=
  match n, blocks with
  | S n', x :: blocks' => if u32 x =? blockno then O else S (log_slot blocks' n' blockno)
  | _, _ => O
  end.

Definition log_write (b : nat) : K unit :=
  acquire LLog ;;
  l ← getlog;
  if LOGBLOCKS <=? l.(lh_n) then kpanic "too big a transaction" else
  if l.(log_outstanding) <? 1 then kpanic "log_write outside of trans" else
  x ← getbuf b;
  let i := log_slot l.(lh_block) (Z.to_nat l.(lh_n)) x.(b_blockno) in
  updlog (fun l => set_lh_block (<[i := s32 x.(b_blockno)]> l.(lh_block)) l) ;;
  kwhen (Z.of_nat i =? l.(lh_n))
    (bpin b ;;
     updlog (fun l => set_lh_n (s32 (l.(lh_n) + 1)) l)) ;;
  release LLog.
