(* ===== verification/BlockSpec.v ===== *)
(** * Bytes of disk blocks

    Reading back the words, half words and bytes that the file system stores
    in a block (get_word() and put_word() of Log, get_half() of Fs). *)

From S2P Require Import Prelude Riscv Memory KState KMonad Spinlock Kalloc Vm Proc Printf Sleeplock Bio Log.

Lemma length_put_bytes d off bs : (Z.to_nat off + length bs <= length d)%nat -> length (put_bytes d off bs) = length d.
Proof. intros H. unfold put_bytes. rewrite !length_app, length_take, length_drop. lia. Qed.

Lemma lookup_put_bytes d off bs i : (Z.to_nat off + length bs <= length d)%nat ->
  put_bytes d off bs !! i =
  if decide (Z.to_nat off <= i < Z.to_nat off + length bs)%nat then bs !! (i - Z.to_nat off)%nat else d !! i.
Proof.
  intros H. unfold put_bytes. case_decide as Hi.
  - rewrite lookup_app_r by (rewrite length_take; lia). rewrite lookup_app_l by (rewrite length_take; lia).
    rewrite length_take. f_equal. lia.
  - destruct (decide (i < Z.to_nat off)%nat) as [L|L].
    + rewrite lookup_app_l by (rewrite length_take; lia). by rewrite lookup_take_lt by lia.
    + rewrite lookup_app_r by (rewrite length_take; lia). rewrite lookup_app_r by (rewrite length_take; lia).
      rewrite lookup_drop, length_take. f_equal. lia.
Qed.

(** The bytes [n] bytes wide at an offset. *)
Definition slice (d : list Z) (off : Z) (n : nat) : list Z := take n (drop (Z.to_nat off) d).

Lemma slice_put_eq d off bs : (Z.to_nat off + length bs <= length d)%nat -> slice (put_bytes d off bs) off (length bs) = bs.
Proof.
  intros H. apply list_eq. intros i. unfold slice. destruct (decide (i < length bs)%nat) as [Hi|Hi].
  - rewrite lookup_take_lt, lookup_drop, lookup_put_bytes, decide_True by lia. f_equal. lia.
  - rewrite lookup_take_ge by lia. symmetry. apply lookup_ge_None. lia.
Qed.

Lemma slice_put_ne d off bs off' n : (Z.to_nat off + length bs <= length d)%nat ->
  (Z.to_nat off' + n <= Z.to_nat off \/ Z.to_nat off + length bs <= Z.to_nat off')%nat ->
  slice (put_bytes d off bs) off' n = slice d off' n.
Proof.
  intros H Hd. apply list_eq. intros i. unfold slice. destruct (decide (i < n)%nat) as [Hi|Hi].
  - rewrite !lookup_take_lt, !lookup_drop, lookup_put_bytes, decide_False by lia. done.
  - by rewrite !lookup_take_ge by lia.
Qed.

(** A put that covers the slice. *)
Lemma slice_put_in d off bs off' n : (Z.to_nat off + length bs <= length d)%nat ->
  (Z.to_nat off <= Z.to_nat off' /\ Z.to_nat off' + n <= Z.to_nat off + length bs)%nat -> 0 <= off ->
  slice (put_bytes d off bs) off' n = slice bs (off' - off) n.
Proof.
  intros H Hd Ho. apply list_eq. intros i. unfold slice. destruct (decide (i < n)%nat) as [Hi|Hi].
  - rewrite !lookup_take_lt, !lookup_drop, lookup_put_bytes, decide_True by lia. f_equal. lia.
  - by rewrite !lookup_take_ge by lia.
Qed.

Lemma get_word_slice d off : get_word d off = of_bytes (slice d off 4).
Proof. done. Qed.

Lemma get_put_word_eq d off v : (Z.to_nat off + 4 <= length d)%nat -> get_word (put_word d off v) off = u32 v.
Proof.
  intros H. rewrite get_word_slice. pose proof (slice_put_eq d off (bytes_of 4 v)) as E.
  rewrite length_bytes_of in E. unfold put_word. rewrite E by lia. apply of_bytes_of.
Qed.

Lemma get_put_word_ne d off v off' : (Z.to_nat off + 4 <= length d)%nat ->
  (Z.to_nat off' + 4 <= Z.to_nat off \/ Z.to_nat off + 4 <= Z.to_nat off')%nat ->
  get_word (put_word d off v) off' = get_word d off'.
Proof.
  intros H Hd. rewrite !get_word_slice. unfold put_word. rewrite slice_put_ne; [done| |]; rewrite length_bytes_of; lia.
Qed.

Lemma length_put_word d off v : (Z.to_nat off + 4 <= length d)%nat -> length (put_word d off v) = length d.
Proof. intros H. apply length_put_bytes. rewrite length_bytes_of. lia. Qed.
