(* ===== verification/LogSpec.v ===== *)
(** * The log (kernel/log.c)

    Committing a transaction and recovering from a crash, in an uncontended
    run over a disk that performs its requests in order: [settled pins s] is
    the state between the steps, in which no buffer is locked and exactly the
    blocks [pins] of the transaction are pinned in the cache. *)

From S2P Require Import Prelude Riscv Memory KState KMonad Spinlock Kalloc Vm Proc ProcSpec SleepSpec Seq.
From S2P Require Import Printf PrintSpec Sleeplock Bio BioSpec Log BlockSpec.

(** ** The header block *)

(** The header that write_head() makes from the old contents of the block. *)
Definition put_blocks (bl : list Z) (k : nat) (d : list Z) : list Z :=
  fold_left (fun d i => put_word d (4 + 4 * Z.of_nat i) (nth i bl 0)) (seq 0 k) d.
Definition head_data (n : Z) (bl : list Z) (d : list Z) : list Z := put_blocks bl (Z.to_nat n) (put_word d 0 n).

Lemma put_blocks_spec bl k d : (k <= 30)%nat -> length d = 1024%nat ->
  length (put_blocks bl k d) = 1024%nat /\ get_word (put_blocks bl k d) 0 = get_word d 0 /\
  forall i, (i < k)%nat -> get_word (put_blocks bl k d) (4 + 4 * Z.of_nat i) = u32 (nth i bl 0).
Proof.
  induction k as [|k IH]; intros Hk Hd; [split; [done|]; split; [done|intros; lia]|]. destruct (IH ltac:(lia) Hd) as (I1 & I2 & I3).
  unfold put_blocks in *. rewrite seq_S, fold_left_app. cbn [fold_left Nat.add].
  set (e := fold_left _ _ _) in *. clearbody e.
  split; [rewrite length_put_word; lia|]. split; [rewrite get_put_word_ne by lia; done|].
  intros i Hi. destruct (decide (i = k)) as [->|N]; [rewrite get_put_word_eq by lia; done|].
  rewrite get_put_word_ne by lia. apply I3. lia.
Qed.

Lemma head_data_spec n bl d : 0 <= n <= 30 -> length d = 1024%nat ->
  length (head_data n bl d) = 1024%nat /\ get_word (head_data n bl d) 0 = n /\
  forall i, (i < Z.to_nat n)%nat -> get_word (head_data n bl d) (4 + 4 * Z.of_nat i) = u32 (nth i bl 0).
Proof.
  intros Hn Hd. unfold head_data. destruct (put_blocks_spec bl (Z.to_nat n) (put_word d 0 n)) as (H1 & H2 & H3); [lia| |].
  { rewrite length_put_word; lia. }
  split; [done|]. split; [|done]. rewrite H2, get_put_word_eq by lia. apply u32_small. lia.
Qed.

(** A sequence of block writes. *)
Definition upd (f : Z -> list Z) (bn : Z) (d : list Z) : Z -> list Z := fun bn' => if bn' =? bn then d else f bn'.
Definition writes (f : Z -> list Z) (w : list (Z * list Z)) : Z -> list Z :=
  fold_left (fun f x => upd f x.1 x.2) w f.

Lemma writes_app f w1 w2 : writes f (w1 ++ w2) = writes (writes f w1) w2.
Proof. apply fold_left_app. Qed.

Lemma writes_cons f b d w : writes f ((b, d) :: w) = writes (upd f b d) w.
Proof. done. Qed.

Lemma writes_out f w bn : (bn ∉ map fst w) -> writes f w bn = f bn.
Proof.
  revert f. induction w as [|[b d] w IH]; intros f N; [done|]. rewrite writes_cons. simpl in N.
  rewrite IH by elems. unfold upd. destruct (Z.eqb_spec bn b); [elems|done].
Qed.

Lemma writes_ext f g w bn : (forall b, f b = g b) -> writes f w bn = writes g w bn.
Proof.
  revert f g. induction w as [|[b d] w IH]; intros f g E; [apply E|]. rewrite !writes_cons. apply IH.
  intros x. unfold upd. by destruct (x =? b).
Qed.

(** Writes to distinct blocks. *)
Lemma writes_in f w bn d : NoDup (map fst w) -> (bn, d) ∈ w -> writes f w bn = d.
Proof.
  revert f. induction w as [|[b e] w IH]; intros f N H; [by apply not_elem_of_nil in H|].
  simpl in N. apply NoDup_cons in N as [N1 N2]. rewrite writes_cons.
  apply elem_of_cons in H as [E|H]; [|by apply IH]. injection E as -> ->. rewrite writes_out by done.
  unfold upd. by rewrite Z.eqb_refl.
Qed.

Section LogSpec.
Variables (me : nat) (pid : Z).
Variable dev : Z.
Context {D : Disk} {DL : DiskLaws me pid D}.
Variable fuel : nat.
#[local] Abbreviation does := (does me pid).
#[local] Abbreviation caches := (caches dev).
#[local] Abbreviation view := (view dev).
#[local] Abbreviation cache_ok := (cache_ok dev).

(** [s'] differs from [s] in the cache, the disk and what is printed only. *)
Definition io (s s' : kstate) : Prop :=
  s' = set_k_out (k_out s') (set_k_dlog (k_dlog s') (set_k_disk (k_disk s') (set_k_bufs (k_bufs s') s))).

Lemma io_refl s : io s s.
Proof. done. Qed.

Lemma io_trans s1 s2 s3 : io s1 s2 -> io s2 s3 -> io s1 s3.
Proof. unfold io. intros E1 E2. rewrite E2, E1. done. Qed.

Lemma io_touched b s s' : touched b s s' -> io s s' /\ k_disk s' = k_disk s /\ k_dlog s' = k_dlog s.
Proof. intros T. unfold io. rewrite (to_bufs _ _ _ T). done. Qed.

Record settled (pins : list Z) (s : kstate) : Prop := {
  se_ok : cache_ok s;
  se_unlocked i : (i < NBUF)%nat -> sl_locked (b_lock (bf s i)) = 0;
  se_ref i : (i < NBUF)%nat -> b_refcnt (bf s i) = 0 \/
    (b_refcnt (bf s i) = 1 /\ exists bn, bn ∈ pins /\ caches bn (bf s i) = true);
  se_pin bn : bn ∈ pins -> exists i, (i < NBUF)%nat /\ caches bn (bf s i) = true /\ b_refcnt (bf s i) = 1;
  se_room : exists i, (i < NBUF)%nat /\ b_refcnt (bf s i) = 0;
}.

Lemma caches_fun bn bn' x : caches bn x = true -> holds dev bn' x = true -> bn = bn'.
Proof. intros [H1 _]%caches_true H2. apply holds_true in H1 as [_ H1], H2 as [_ H2]. congruence. Qed.

(** A settled cache can read any block. *)
Lemma settled_can_read pins s bn : settled pins s -> can_read dev bn s.
Proof.
  intros S. split; [|right; apply S]. intros i Hi _. split; [by apply (se_unlocked pins)|].
  destruct (se_ref _ _ S i Hi) as [E|[E _]]; lia.
Qed.

(** Buffer [b] is held and has block [bn], with [r] references. *)
Record held_buf (bn : Z) (r : Z) (b : nat) (s : kstate) : Prop := {
  hb_lt : (b < NBUF)%nat;
  hb_caches : caches bn (bf s b) = true;
  hb_lock : b_lock (bf s b) = my_sl pid;
  hb_ref : b_refcnt (bf s b) = r;
}.

Lemma held_body bn r b s s' : held_buf bn r b s -> body (bf s' b) = body (bf s b) -> held_buf bn r b s'.
Proof.
  intros [H1 H2 H3 H4] E. destruct (body_fields _ _ E) as (E1 & E2 & E3 & E4 & E5 & E6).
  split; [done| |congruence|congruence]. by destruct (body_holds dev bn _ _ E) as [_ ->].
Qed.

Lemma caches_other bn b s i bn' : cache_ok s -> (b < NBUF)%nat -> caches bn (bf s b) = true -> (i < NBUF)%nat -> i <> b ->
  caches bn' (bf s i) = true -> bn' <> bn.
Proof.
  intros C Hb Hc Hi N H ->. apply N. apply caches_true in Hc as [Hc _], H as [H _]. by apply (co_uniq dev s C i b bn).
Qed.

(** Reading a block that is not pinned. *)
Lemma read_one pins bn s : settled pins s -> (bn ∉ pins) ->
  exists b s', does [] (bread fuel dev bn) s b [] s' /\ fetched pid dev bn b s s' /\
    held_buf bn 1 b s' /\ b_refcnt (bf s b) = 0 /\ b_data (bf s' b) = view s bn.
Proof.
  intros S N. destruct (bread_spec me pid dev fuel bn s (se_ok _ _ S)) as (b & s' & D1 & F);
    [by apply (settled_can_read pins)|].
  exists b, s'. split; [exact D1|]. split; [exact F|].
  assert (b_refcnt (bf s b) = 0) as R0.
  { destruct (fe_ref _ _ _ _ _ _ F) as [[H1 H2]|(_ & H & _)]; [|done].
    destruct (se_ref _ _ S b (fe_lt _ _ _ _ _ _ F)) as [E|(_ & bn' & Hin & Hc)]; [done|].
    exfalso. apply N. by rewrite <- (caches_fun bn' bn _ Hc H1). }
  split; [|split; [done|apply F]]. split; [apply F| |apply F|].
  - apply caches_true. split; apply F.
  - destruct (fe_ref _ _ _ _ _ _ F) as [[H1 H2]|(_ & _ & H)]; lia.
Qed.

(** ** Steps on one buffer *)

(** A step on buffer [b]: what readers see, the disk and its writes after it. *)
Record act (b : nat) (s s' : kstate) (v dsk : Z -> list Z) (dl : list (Z * list Z)) : Prop := {
  ac_ok : cache_ok s';
  ac_io : io s s';
  ac_other i : (i < NBUF)%nat -> i <> b -> body (bf s' i) = body (bf s i);
  ac_view bn : view s' bn = v bn;
  ac_block bn : block s' bn = dsk bn;
  ac_dlog : k_dlog s' = dl;
}.

Lemma touched_act b s s' v : touched b s s' -> cache_ok s' -> (forall bn, view s' bn = v bn) ->
  act b s s' v (block s) (k_dlog s).
Proof.
  intros T C V. destruct (io_touched b s s' T) as (I & _ & E2). split; try done; [apply T|].
  intros bn. by apply (touched_block b).
Qed.

Lemma caches_eqb bn bn' x : caches bn x = true -> caches bn' x = (bn' =? bn).
Proof.
  intros H. destruct (Z.eqb_spec bn' bn) as [->|N]; [done|]. apply not_true_is_false. intros X.
  apply N. apply caches_true in X as [X _]. symmetry. by apply (caches_fun bn bn' x).
Qed.

Lemma fetched_act bn b s s' : fetched pid dev bn b s s' -> act b s s' (view s) (block s) (k_dlog s).
Proof. intros F. apply touched_act; apply F. Qed.

Lemma set_data_act bn r b d s : cache_ok s -> held_buf bn r b s -> 0 < r ->
  let s' := setbuf b (set_b_data d (bf s b)) s in
  act b s s' (upd (view s) bn d) (block s) (k_dlog s) /\ held_buf bn r b s' /\ b_data (bf s' b) = d.
Proof.
  intros C [H1 H2 H3 H4] R s'.
  destruct (set_ok dev b (set_b_data d (bf s b)) s C H1) as (T & C' & E & V); try done; [simpl; lia|].
  unfold s'. split; [|split; [split|by rewrite E]]; try (rewrite E; done); [|done].
  apply touched_act; [done|done|]. intros bn'. rewrite V, (caches_eqb bn bn') by done. done.
Qed.

Lemma put_data bn r b d s : cache_ok s -> held_buf bn r b s -> 0 < r ->
  exists s', does [] (updbuf b (set_b_data d)) s tt [] s' /\ act b s s' (upd (view s) bn d) (block s) (k_dlog s) /\
    held_buf bn r b s' /\ b_data (bf s' b) = d.
Proof. intros C H R. eexists. split; [apply does_updbuf|]. by apply set_data_act. Qed.

Lemma write_held bn r b s : cache_ok s -> held_buf bn r b s -> 0 < r ->
  exists s', does [] (bwrite b) s tt [] s' /\
    act b s s' (view s) (upd (block s) bn (view s bn)) (k_dlog s ++ [(bn, view s bn)]) /\
    held_buf bn r b s' /\ b_data (bf s' b) = b_data (bf s b).
Proof.
  intros C [H1 H2 H3 H4] R.
  destruct (bwrite_spec me pid dev b bn s C H1 H2 ltac:(lia) H3) as (s' & D1 & C' & V & E & O & Eb & Bl).
  exists s'. split; [exact D1|]. split; [|split; [split; try done; rewrite Eb; done|by rewrite Eb]].
  assert (view s bn = b_data (bf s b)) as Ev by (by apply view_hit).
  split; try done.
  - rewrite E. done.
  - intros i Hi N. by rewrite O.
  - rewrite E, Ev. done.
Qed.

Lemma release_held bn r b s : cache_ok s -> held_buf bn r b s -> 1 <= r < 2 ^ 32 ->
  (r = 1 -> view s bn = block s bn) ->
  exists s', does [] (brelse b) s tt [] s' /\ act b s s' (view s) (block s) (k_dlog s) /\
    caches bn (bf s' b) = true /\ b_refcnt (bf s' b) = r - 1 /\ sl_locked (b_lock (bf s' b)) = 0.
Proof.
  intros C [H1 H2 H3 H4] R Cl.
  destruct (brelse_spec me pid dev b s C H1 H3) as (s' & D1 & Re); [lia| |].
  { intros E _ _. rewrite <- (view_hit dev s b bn) by done. apply caches_true in H2 as [H2 _].
    apply holds_true in H2 as [_ ->]. apply Cl. lia. }
  exists s'. split; [exact D1|]. split; [apply touched_act; apply Re|].
  destruct (body_fields _ _ (re_body _ _ _ _ Re)) as (E1 & E2 & E3 & E4 & E5 & E6).
  split; [|split].
  - destruct (body_holds dev bn _ _ (re_body _ _ _ _ Re)) as [_ ->]. exact H2.
  - rewrite E5. simpl. rewrite H4. apply u32_small. lia.
  - rewrite E4. done.
Qed.

Lemma act_held b s s' v dsk dl bn r b' : act b s s' v dsk dl -> b' <> b -> held_buf bn r b' s -> held_buf bn r b' s'.
Proof. intros A N H. apply (held_body bn r b' s); [done|]. apply (ac_other _ _ _ _ _ _ A); [apply H|done]. Qed.

Lemma held_holds bn r b s : held_buf bn r b s -> holds dev bn (bf s b) = true.
Proof. intros [_ H _ _]. by apply caches_true in H as [H _]. Qed.

(** References to [b2] before it is read, given whether its block is pinned. *)
Lemma settled_ref pins bn b s : settled pins s -> (b < NBUF)%nat -> holds dev bn (bf s b) = true ->
  b_refcnt (bf s b) = if decide (bn ∈ pins) then 1 else 0.
Proof.
  intros S Hb Hh. case_decide as Hp.
  - destruct (se_pin _ _ S bn Hp) as (i & Hi & Hc & Hr). apply caches_true in Hc as [Hc _].
    by rewrite (co_uniq dev s (se_ok _ _ S) b i bn).
  - destruct (se_ref _ _ S b Hb) as [E|(_ & bn' & Hin & Hc)]; [done|].
    exfalso. apply Hp. by rewrite <- (caches_fun bn' bn _ Hc Hh).
Qed.

(** Reading block [bn2] while the unpinned block [bn1] is held. *)
Lemma read_second pins bn1 bn2 b1 s s1 : settled pins s ->
  act b1 s s1 (view s) (block s) (k_dlog s) -> held_buf bn1 1 b1 s1 -> b_refcnt (bf s b1) = 0 -> bn2 <> bn1 ->
  (bn2 ∈ pins \/ exists i, (i < NBUF)%nat /\ i <> b1 /\ b_refcnt (bf s i) = 0) ->
  exists b2 s2, does [] (bread fuel dev bn2) s1 b2 [] s2 /\
    act b2 s1 s2 (view s) (block s) (k_dlog s) /\ b2 <> b1 /\ b_data (bf s2 b2) = view s bn2 /\
    held_buf bn2 (if decide (bn2 ∈ pins) then 2 else 1) b2 s2 /\
    (bn2 ∈ pins -> caches bn2 (bf s b2) = true) /\ (bn2 ∉ pins -> b_refcnt (bf s b2) = 0).
Proof.
  intros S A1 H1 R1 N Hr. pose proof (hb_lt _ _ _ _ H1) as L1.
  assert (forall i, (i < NBUF)%nat -> holds dev bn2 (bf s1 i) = true -> i <> b1) as Nb.
  { intros i Hi H ->. apply N. symmetry. by apply (caches_fun bn1 bn2 (bf s1 b1)); [apply H1|]. }
  assert (forall i, (i < NBUF)%nat -> i <> b1 -> body (bf s1 i) = body (bf s i)) as O by apply A1.
  assert (can_read dev bn2 s1) as Cr.
  { split.
    - intros i Hi H. pose proof (Nb i Hi H) as Ni.
      destruct (body_fields _ _ (O i Hi Ni)) as (_ & _ & _ & -> & -> & _).
      split; [by apply (se_unlocked pins)|]. destruct (se_ref _ _ S i Hi) as [E|[E _]]; lia.
    - destruct Hr as [Hp|(i & Hi & Ni & Ei)]; [left|right].
      + destruct (se_pin _ _ S bn2 Hp) as (i & Hi & Hc & Hr). exists i. split; [done|].
        assert (i <> b1) as Ni by (intros ->; lia). destruct (body_holds dev bn2 _ _ (O i Hi Ni)) as [-> _].
        by apply caches_true in Hc as [Hc _].
      + exists i. split; [done|]. by destruct (body_fields _ _ (O i Hi Ni)) as (_ & _ & _ & _ & -> & _). }
  destruct (bread_spec me pid dev fuel bn2 s1 (ac_ok _ _ _ _ _ _ A1) Cr) as (b2 & s2 & D2 & F2).
  pose proof (fe_lt _ _ _ _ _ _ F2) as L2.
  assert (b2 <> b1) as N2.
  { destruct (fe_ref _ _ _ _ _ _ F2) as [[H _]|(_ & H & _)]; [by apply Nb|].
    intros ->. rewrite (hb_ref _ _ _ _ H1) in H. done. }
  destruct (body_fields _ _ (O b2 L2 N2)) as (_ & _ & _ & _ & Er & _).
  exists b2, s2. split; [exact D2|]. split.
  { pose proof (fetched_act bn2 b2 s1 s2 F2) as A2. destruct A2 as [a1 a2 a3 a4 a5 a6]. split; try done.
    - intros bn. rewrite a4. apply A1.
    - intros bn. rewrite a5. apply A1.
    - rewrite a6. apply A1. }
  split; [done|]. split; [rewrite (fe_data _ _ _ _ _ _ F2); apply A1|].
  assert (caches bn2 (bf s2 b2) = true) as Hc2 by (apply caches_true; split; apply F2).
  destruct (fe_ref _ _ _ _ _ _ F2) as [[Hh Rf]|(Hno & Rz & Rf)].
  - assert (holds dev bn2 (bf s b2) = true) as Hs by (by destruct (body_holds dev bn2 _ _ (O b2 L2 N2)) as [<- _]).
    pose proof (settled_ref pins bn2 b2 s S L2 Hs) as Rs. split.
    + split; [done|done|apply F2|]. rewrite Rf, Er, Rs. by case_decide.
    + split; [|intros Hp; rewrite Rs; by rewrite decide_False]. intros Hp.
      destruct (se_pin _ _ S bn2 Hp) as (i & Hi & Hc & _).
      assert (i = b2) as <-; [|done]. apply caches_true in Hc as [Hc _]. by apply (co_uniq dev s (se_ok _ _ S) i b2 bn2).
  - assert (bn2 ∉ pins) as Np.
    { intros Hp. destruct (se_pin _ _ S bn2 Hp) as (i & Hi & Hc & Hri).
      assert (i <> b1) as Ni by (intros ->; lia). apply caches_true in Hc as [Hc _].
      destruct (body_holds dev bn2 _ _ (O i Hi Ni)) as [X _]. rewrite (Hno i Hi) in X. congruence. }
    rewrite decide_False by done. split; [split; [done|done|apply F2|done]|]. split; [done|]. by rewrite <- Er.
Qed.

(** The state is settled again once both buffers are given back. *)
Lemma settled_two pins pins' bn2 b1 b2 s0 s : settled pins s0 -> cache_ok s ->
  (b1 < NBUF)%nat -> (b2 < NBUF)%nat -> b_refcnt (bf s0 b1) = 0 ->
  (bn2 ∈ pins -> caches bn2 (bf s0 b2) = true) -> (bn2 ∉ pins -> b_refcnt (bf s0 b2) = 0) ->
  (forall i, (i < NBUF)%nat -> i <> b1 -> i <> b2 -> body (bf s i) = body (bf s0 i)) ->
  b_refcnt (bf s b1) = 0 -> sl_locked (b_lock (bf s b1)) = 0 -> sl_locked (b_lock (bf s b2)) = 0 ->
  caches bn2 (bf s b2) = true -> b_refcnt (bf s b2) = (if decide (bn2 ∈ pins') then 1 else 0) ->
  (forall bn, bn <> bn2 -> bn ∈ pins' <-> bn ∈ pins) -> settled pins' s.
Proof.
  intros S C L1 L2 R0 P1 P2 O R1 U1 U2 C2 R2 E. split; [done| | | |by exists b1].
  - intros i Hi. destruct (decide (i = b1)) as [->|N1]; [done|]. destruct (decide (i = b2)) as [->|N2]; [done|].
    destruct (body_fields _ _ (O i Hi N1 N2)) as (_ & _ & _ & -> & _). by apply (se_unlocked pins).
  - intros i Hi. destruct (decide (i = b1)) as [->|N1]; [by left|]. destruct (decide (i = b2)) as [->|N2].
    { rewrite R2. case_decide; [right|by left]. split; [done|]. by exists bn2. }
    destruct (body_fields _ _ (O i Hi N1 N2)) as (_ & _ & _ & _ & -> & _).
    destruct (se_ref _ _ S i Hi) as [?|(Ei & bn & Hp & Hc)]; [by left|right]. split; [done|]. exists bn.
    assert (caches bn (bf s i) = true) as Hc' by (by destruct (body_holds dev bn _ _ (O i Hi N1 N2)) as [_ ->]).
    split; [|done]. apply E; [|done]. by apply (caches_other bn2 b2 s i bn).
  - intros bn Hp. destruct (decide (bn = bn2)) as [->|N].
    { exists b2. split; [done|]. split; [done|]. rewrite R2. by rewrite decide_True. }
    apply E in Hp; [|done]. destruct (se_pin _ _ S bn Hp) as (i & Hi & Hc & Hr). exists i. split; [done|].
    assert (i <> b1) as N1 by (intros ->; lia).
    assert (i <> b2) as N2.
    { intros ->. destruct (decide (bn2 ∈ pins)) as [Y|Y]; [|rewrite P2 in Hr by done; lia].
      apply N. apply (caches_fun bn bn2 (bf s0 b2) Hc). apply P1 in Y. by apply caches_true in Y as [Y _]. }
    destruct (body_holds dev bn _ _ (O i Hi N1 N2)) as [_ ->].
    destruct (body_fields _ _ (O i Hi N1 N2)) as (_ & _ & _ & _ & -> & _). done.
Qed.

(** ** Writing the log *)

(** A step of the commit: from a settled state to a settled state. *)
Record moved (pins : list Z) (s s' : kstate) (v dsk : Z -> list Z) (dl : list (Z * list Z)) : Prop := {
  mv_settled : settled pins s';
  mv_io : io s s';
  mv_view bn : view s' bn = v bn;
  mv_block bn : block s' bn = dsk bn;
  mv_dlog : k_dlog s' = dl;
}.

(** write_log_one() copies a pinned block to its place in the log. *)
Lemma write_log_one_spec pins s tail :
  settled pins s -> log_dev (k_log s) = dev ->
  let lbn := u32 (log_start (k_log s) + tail + 1) in
  let bn := u32 (nth (Z.to_nat tail) (lh_block (k_log s)) 0) in
  bn ∈ pins -> (lbn ∉ pins) ->
  exists s', does [] (write_log_one fuel tail) s tt [] s' /\
    moved pins s s' (upd (view s) lbn (view s bn)) (upd (block s) lbn (view s bn)) (k_dlog s ++ [(lbn, view s bn)]).
Proof.
  intros S Ed lbn bn Hp Hl. assert (bn <> lbn) as N by congruence.
  destruct (read_one pins lbn s S Hl) as (b1 & s1 & D1 & F1 & H1 & R1 & _).
  pose proof (fetched_act _ _ _ _ F1) as A1.
  destruct (read_second pins lbn bn b1 s s1 S A1 H1 R1 N (or_introl Hp))
    as (b2 & s2 & D2 & A2 & N2 & Dt & H2 & P1 & P2). rewrite decide_True in H2 by done.
  pose proof (act_held _ _ _ _ _ _ _ _ b1 A2 ltac:(done) H1) as H1b.
  destruct (put_data lbn 1 b1 (view s bn) s2 (ac_ok _ _ _ _ _ _ A2) H1b ltac:(lia)) as (s3 & D3 & A3 & H3 & Dt3).
  destruct (write_held lbn 1 b1 s3 (ac_ok _ _ _ _ _ _ A3) H3 ltac:(lia)) as (s4 & D4 & A4 & H4 & Dt4).
  pose proof (act_held _ _ _ _ _ _ _ _ b2 A4 N2 (act_held _ _ _ _ _ _ _ _ b2 A3 N2 H2)) as H2b.
  destruct (release_held bn 2 b2 s4 (ac_ok _ _ _ _ _ _ A4) H2b ltac:(lia) ltac:(lia)) as (s5 & D5 & A5 & C5 & R5 & U5).
  pose proof (act_held _ _ _ _ _ _ _ _ b1 A5 ltac:(done) H4) as H5.
  destruct (release_held lbn 1 b1 s5 (ac_ok _ _ _ _ _ _ A5) H5 ltac:(lia)) as (s6 & D6 & A6 & C6 & R6 & U6).
  { intros _. rewrite (ac_view _ _ _ _ _ _ A5), (ac_block _ _ _ _ _ _ A5), (ac_block _ _ _ _ _ _ A4).
    unfold upd. rewrite Z.eqb_refl. apply A4. }
  exists s6. split.
  - unfold write_log_one. eapply does_bind; [apply does_gets; reflexivity|]. rewrite Ed.
    eapply does_bind; [exact D1|]. eapply does_bind; [exact D2|]. eapply does_bind; [apply does_getbuf|].
    rewrite Dt. eapply does_bind; [exact D3|]. eapply does_bind; [exact D4|]. eapply does_bind; [exact D5|exact D6].
  - pose proof (ac_other _ _ _ _ _ _ A6 b2 (hb_lt _ _ _ _ H2) N2) as O6.
    destruct (body_fields _ _ O6) as (_ & _ & _ & Ek & Er & _).
    assert (forall b, view s3 b = upd (view s) lbn (view s bn) b) as V3.
    { intros b. rewrite (ac_view _ _ _ _ _ _ A3). unfold upd. destruct (b =? lbn); [done|apply A2]. }
    split.
    + apply (settled_two pins pins bn b1 b2 s s6); try done; [apply A6|apply H1|apply H2| | | |].
      * intros i Hi Ni1 Ni2. rewrite (ac_other _ _ _ _ _ _ A6), (ac_other _ _ _ _ _ _ A5), (ac_other _ _ _ _ _ _ A4),
          (ac_other _ _ _ _ _ _ A3), (ac_other _ _ _ _ _ _ A2), (ac_other _ _ _ _ _ _ A1); done.
      * by rewrite Ek.
      * by destruct (body_holds dev bn _ _ O6) as [_ ->].
      * rewrite Er, R5, decide_True by done. done.
    + repeat (eapply io_trans; [eapply ac_io; eassumption|]). apply io_refl.
    + intros b. rewrite (ac_view _ _ _ _ _ _ A6), (ac_view _ _ _ _ _ _ A5), (ac_view _ _ _ _ _ _ A4). apply V3.
    + intros b. rewrite (ac_block _ _ _ _ _ _ A6), (ac_block _ _ _ _ _ _ A5), (ac_block _ _ _ _ _ _ A4). unfold upd.
      rewrite V3. unfold upd. rewrite Z.eqb_refl. destruct (b =? lbn); [done|].
      rewrite (ac_block _ _ _ _ _ _ A3). apply A2.
    + rewrite (ac_dlog _ _ _ _ _ _ A6), (ac_dlog _ _ _ _ _ _ A5), (ac_dlog _ _ _ _ _ _ A4), V3.
      unfold upd. rewrite Z.eqb_refl, (ac_dlog _ _ _ _ _ _ A3), (ac_dlog _ _ _ _ _ _ A2). done.
Qed.

(** ** Installing *)

(** An unpinned block reads as it is on the disk. *)
Lemma settled_clean pins bn s : settled pins s -> (bn ∉ pins) -> view s bn = block s bn.
Proof.
  intros S N. destruct (find_holder dev bn s) as [(i & Hi & Hh)|Hno].
  - pose proof (settled_ref pins bn i s S Hi Hh) as R. rewrite decide_False in R by done.
    destruct (Z.eqb_spec (b_valid (bf s i)) 0) as [E|E].
    + apply view_miss. intros j Hj. apply not_true_is_false. intros X. apply caches_true in X as [X Y].
      rewrite (co_uniq dev s (se_ok _ _ S) j i bn) in Y by done. done.
    + rewrite (view_hit dev s i bn); [|apply S|done|by apply caches_true].
      pose proof (co_clean dev s (se_ok _ _ S) i Hi R) as Cl. apply holds_true in Hh as [H1 <-]. by apply Cl.
  - apply view_miss. intros j Hj. unfold BioSpec.caches. by rewrite Hno.
Qed.

(** Two buffers are free, or the block to install is pinned. *)
Definition can_install (recovering : bool) (pins : list Z) (bn : Z) : Prop :=
  if recovering then pins = [] else bn ∈ pins.

Lemma unpin_held bn b s : cache_ok s -> held_buf bn 2 b s ->
  exists s', does [] (bunpin b) s tt [] s' /\ act b s s' (view s) (block s) (k_dlog s) /\ held_buf bn 1 b s'.
Proof.
  intros C [H1 H2 H3 H4]. eexists. split; [apply does_bunpin|]. rewrite H4. change (u32 (2 - 1)) with 1.
  destruct (set_ok dev b (set_b_refcnt 1 (bf s b)) s C H1) as (T & C' & E & V); try done.
  split; [|split; rewrite ?E; done]. apply touched_act; [done|done|]. intros bn'. rewrite V.
  destruct (caches bn' (bf s b)) eqn:Ec; [|done]. simpl. symmetry. by apply view_hit.
Qed.

(** The buffers of the log block and of its home, both held, the home one with
    one reference besides the pin. *)
Lemma install_read pins recovering lbn bn s : settled pins s -> can_install recovering pins bn ->
  (lbn ∉ pins) -> bn <> lbn ->
  exists b1 b2 s1 s2, does [] (bread fuel dev lbn) s b1 [] s1 /\ does [] (bread fuel dev bn) s1 b2 [] s2 /\
    act b1 s s1 (view s) (block s) (k_dlog s) /\ act b2 s1 s2 (view s) (block s) (k_dlog s) /\ b2 <> b1 /\
    b_data (bf s2 b1) = view s lbn /\ held_buf lbn 1 b1 s2 /\ held_buf bn (if recovering then 1 else 2) b2 s2 /\
    b_refcnt (bf s b1) = 0 /\
    (bn ∈ pins -> caches bn (bf s b2) = true) /\ (bn ∉ pins -> b_refcnt (bf s b2) = 0).
Proof.
  intros S Ci Hl N. destruct (read_one pins lbn s S Hl) as (b1 & s1 & D1 & F1 & H1 & R1 & Dt1).
  pose proof (fetched_act _ _ _ _ F1) as A1.
  assert (bn ∈ pins \/ exists i, (i < NBUF)%nat /\ i <> b1 /\ b_refcnt (bf s i) = 0) as Room.
  { destruct recovering; [right|by left]. simpl in Ci. subst pins.
    assert (exists i, (i < NBUF)%nat /\ i <> b1) as (i & Hi & Ni)
      by (destruct b1; [exists 1%nat|exists 0%nat]; unfold NBUF; lia).
    exists i. split; [done|]. split; [done|]. destruct (se_ref _ _ S i Hi) as [E|(_ & x & Hx & _)]; [done|].
    by apply not_elem_of_nil in Hx. }
  destruct (read_second pins lbn bn b1 s s1 S A1 H1 R1 N Room)
    as (b2 & s2 & D2 & A2 & N2 & Dt & H2 & P1 & P2).
  exists b1, b2, s1, s2. do 5 (split; [done|]).
  pose proof (ac_other _ _ _ _ _ _ A2 b1 (hb_lt _ _ _ _ H1) ltac:(done)) as O1.
  destruct (body_fields _ _ O1) as (_ & _ & _ & _ & _ & ->).
  split; [done|]. split; [by apply (act_held b2 s1 s2 _ _ _ lbn 1 b1 A2)|]. split; [|done].
  destruct recovering; simpl in Ci; [|by rewrite decide_True in H2].
  subst pins. rewrite decide_False in H2; [done|]. by apply not_elem_of_nil.
Qed.

(** install_one() after its message. *)
Definition install_rest (recovering : bool) (lbn bn : Z) : K unit :=
  lbuf ← bread fuel dev lbn;
  dbuf ← bread fuel dev bn;
  x ← getbuf lbuf;
  updbuf dbuf (set_b_data x.(b_data)) ;;
  bwrite dbuf ;;
  kwhen (negb recovering) (bunpin dbuf) ;;
  brelse lbuf ;;
  brelse dbuf.

Lemma install_rest_spec pins pins' recovering lbn bn s : settled pins s ->
  can_install recovering pins bn -> (lbn ∉ pins) -> bn <> lbn ->
  (forall x, x ∈ pins' <-> x ∈ pins /\ x <> bn) ->
  exists s', does [] (install_rest recovering lbn bn) s tt [] s' /\
    moved pins' s s' (upd (view s) bn (view s lbn)) (upd (block s) bn (view s lbn)) (k_dlog s ++ [(bn, view s lbn)]).
Proof.
  intros S Ci Hl N Hp'. set (d := view s lbn).
  destruct (install_read pins recovering lbn bn s S Ci Hl N)
    as (b1 & b2 & s1 & s2 & D1 & D2 & A1 & A2 & N2 & Dt & H1 & H2 & R0 & P1 & P2). fold d in Dt.
  destruct (put_data bn _ b2 d s2 (ac_ok _ _ _ _ _ _ A2) H2) as (s3 & D3 & A3 & H3 & _); [by destruct recovering|].
  destruct (write_held bn _ b2 s3 (ac_ok _ _ _ _ _ _ A3) H3) as (s4 & D4 & A4 & H4 & _); [by destruct recovering|].
  assert (exists s5, does [] (kwhen (negb recovering) (bunpin b2)) s4 tt [] s5 /\
    act b2 s4 s5 (view s4) (block s4) (k_dlog s4) /\ held_buf bn 1 b2 s5) as (s5 & D5 & A5 & H5).
  { destruct recovering; unfold kwhen; cbn [negb].
    - exists s4. split; [apply does_ret|]. split; [|done]. split; try done. apply A4.
    - apply unpin_held; [apply A4|done]. }
  pose proof (act_held _ _ _ _ _ _ _ _ b1 A5 ltac:(done) (act_held _ _ _ _ _ _ _ _ b1 A4 ltac:(done)
    (act_held _ _ _ _ _ _ _ _ b1 A3 ltac:(done) H1))) as H1b.
  assert (forall b, view s3 b = upd (view s) bn d b) as V3.
  { intros b. rewrite (ac_view _ _ _ _ _ _ A3). unfold upd. destruct (b =? bn); [done|apply A2]. }
  assert (forall b, view s5 b = upd (view s) bn d b) as V5.
  { intros b. rewrite (ac_view _ _ _ _ _ _ A5), (ac_view _ _ _ _ _ _ A4). apply V3. }
  assert (forall b, block s5 b = upd (block s) bn d b) as B5.
  { intros b. rewrite (ac_block _ _ _ _ _ _ A5), (ac_block _ _ _ _ _ _ A4). unfold upd. rewrite V3. unfold upd.
    rewrite Z.eqb_refl. destruct (b =? bn); [done|]. rewrite (ac_block _ _ _ _ _ _ A3). apply A2. }
  destruct (release_held lbn 1 b1 s5 (ac_ok _ _ _ _ _ _ A5) H1b ltac:(lia)) as (s6 & D6 & A6 & C6 & R6 & U6).
  { intros _. rewrite V5, B5. unfold upd. destruct (lbn =? bn); [done|]. by apply (settled_clean pins). }
  pose proof (act_held _ _ _ _ _ _ _ _ b2 A6 N2 H5) as H6.
  destruct (release_held bn 1 b2 s6 (ac_ok _ _ _ _ _ _ A6) H6 ltac:(lia)) as (s7 & D7 & A7 & C7 & R7 & U7).
  { intros _. rewrite (ac_view _ _ _ _ _ _ A6), (ac_block _ _ _ _ _ _ A6), V5, B5. unfold upd. by rewrite Z.eqb_refl. }
  exists s7. split.
  - unfold install_rest. eapply does_bind; [exact D1|]. eapply does_bind; [exact D2|].
    eapply does_bind; [apply does_getbuf|]. rewrite Dt. eapply does_bind; [exact D3|]. eapply does_bind; [exact D4|].
    eapply does_bind; [exact D5|]. eapply does_bind; [exact D6|exact D7].
  - pose proof (ac_other _ _ _ _ _ _ A7 b1 (hb_lt _ _ _ _ H1) ltac:(done)) as O7.
    destruct (body_fields _ _ O7) as (_ & _ & _ & Ek & Er & _). split.
    + apply (settled_two pins pins' bn b1 b2 s s7); try done; try congruence; [apply A7|apply H1|apply H2| | | |].
      * intros i Hi Ni1 Ni2. rewrite (ac_other _ _ _ _ _ _ A7), (ac_other _ _ _ _ _ _ A6), (ac_other _ _ _ _ _ _ A5),
          (ac_other _ _ _ _ _ _ A4), (ac_other _ _ _ _ _ _ A3), (ac_other _ _ _ _ _ _ A2), (ac_other _ _ _ _ _ _ A1); done.
      * by rewrite Er, R6.
      * rewrite R7, decide_False; [done|]. rewrite Hp'. tauto.
      * intros x Hx. rewrite Hp'. tauto.
    + repeat (eapply io_trans; [eapply ac_io; eassumption|]). apply io_refl.
    + intros b. rewrite (ac_view _ _ _ _ _ _ A7), (ac_view _ _ _ _ _ _ A6). apply V5.
    + intros b. rewrite (ac_block _ _ _ _ _ _ A7), (ac_block _ _ _ _ _ _ A6). apply B5.
    + rewrite (ac_dlog _ _ _ _ _ _ A7), (ac_dlog _ _ _ _ _ _ A6), (ac_dlog _ _ _ _ _ _ A5), (ac_dlog _ _ _ _ _ _ A4), V3.
      unfold upd. rewrite Z.eqb_refl, (ac_dlog _ _ _ _ _ _ A3), (ac_dlog _ _ _ _ _ _ A2). done.
Qed.

(** Only the cache and the disk matter. *)
Lemma frame_view s s' : k_bufs s' = k_bufs s -> k_disk s' = k_disk s ->
  (forall i, bf s' i = bf s i) /\ (forall bn, block s' bn = block s bn) /\ (forall bn, view s' bn = view s bn).
Proof. intros E1 E2. unfold BioSpec.view, block, bf. rewrite E1, E2. done. Qed.

Lemma cache_frame s s' : k_bufs s' = k_bufs s -> k_disk s' = k_disk s -> cache_ok s -> cache_ok s'.
Proof.
  intros E1 E2 [[l [L1 L2 L3]] C2 C3 C4 C5]. destruct (frame_view s s' E1 E2) as (F1 & F2 & _). split.
  - exists l. split; [done| |congruence]. eapply ringed_ext; [exact L2|..]; intros j; unfold nx, pv; by rewrite F1.
  - intros i j bn. rewrite !F1. apply C2.
  - intros i. rewrite F1, F2. apply C3.
  - intros i. rewrite F1. apply C4.
  - intros i. rewrite F1. apply C5.
Qed.

Lemma settled_frame pins s s' : k_bufs s' = k_bufs s -> k_disk s' = k_disk s -> settled pins s -> settled pins s'.
Proof.
  intros E1 E2 [S1 S2 S3 S4 S5]. destruct (frame_view s s' E1 E2) as (F1 & _).
  split; [by apply (cache_frame s)| | | |].
  - intros i. rewrite F1. apply S2.
  - intros i. rewrite F1. apply S3.
  - intros bn Hp. destruct (S4 bn Hp) as (i & Hi). exists i. by rewrite F1.
  - destruct S5 as (i & Hi). exists i. by rewrite F1.
Qed.

Lemma install_one_spec pins pins' recovering s tail :
  settled pins s -> log_dev (k_log s) = dev ->
  let lbn := u32 (log_start (k_log s) + tail + 1) in
  let bn := u32 (nth (Z.to_nat tail) (lh_block (k_log s)) 0) in
  can_install recovering pins bn -> (lbn ∉ pins) -> bn <> lbn ->
  (forall x, x ∈ pins' <-> x ∈ pins /\ x <> bn) ->
  exists s', does [] (install_one fuel recovering tail) s tt [] s' /\
    moved pins' s s' (upd (view s) bn (view s lbn)) (upd (block s) bn (view s lbn)) (k_dlog s ++ [(bn, view s lbn)]).
Proof.
  intros S Ed lbn bn Ci Hl N Hp'.
  assert (exists o, does [] (kwhen recovering (printf ("recovering tail %d dst %d" +:+ nl)
    [PInt tail; PInt (nth (Z.to_nat tail) (lh_block (k_log s)) 0)])) s tt [] (set_k_out o s)) as [o D0].
  { destruct recovering; unfold kwhen.
    - apply prints_printf. apply not_elem_of_nil.
    - exists (k_out s). apply does_ret. }
  destruct (install_rest_spec pins pins' recovering lbn bn (set_k_out o s)) as (s' & D1 & M); try done.
  { by apply (settled_frame pins s). }
  exists s'. split.
  - unfold install_one. eapply does_bind; [apply does_gets; reflexivity|]. eapply does_bind; [exact D0|].
    rewrite Ed. exact D1.
  - destruct M as [M1 M2 M3 M4 M5]. split; [done| |exact M3|exact M4|exact M5].
    eapply io_trans; [|exact M2]. done.
Qed.

(** ** The header *)

Lemma settled_one pins b s0 s : settled pins s0 -> cache_ok s -> (b < NBUF)%nat -> b_refcnt (bf s0 b) = 0 ->
  (forall i, (i < NBUF)%nat -> i <> b -> body (bf s i) = body (bf s0 i)) ->
  b_refcnt (bf s b) = 0 -> sl_locked (b_lock (bf s b)) = 0 -> settled pins s.
Proof.
  intros S C Hb R0 O R U. split; [done| | | |by exists b].
  - intros i Hi. destruct (decide (i = b)) as [->|N]; [done|].
    destruct (body_fields _ _ (O i Hi N)) as (_ & _ & _ & -> & _). by apply (se_unlocked pins).
  - intros i Hi. destruct (decide (i = b)) as [->|N]; [by left|].
    destruct (body_fields _ _ (O i Hi N)) as (_ & _ & _ & _ & -> & _).
    destruct (se_ref _ _ S i Hi) as [?|(Ei & bn & Hp & Hc)]; [by left|right]. split; [done|]. exists bn.
    split; [done|]. by destruct (body_holds dev bn _ _ (O i Hi N)) as [_ ->].
  - intros bn Hp. destruct (se_pin _ _ S bn Hp) as (i & Hi & Hc & Hr). exists i. split; [done|].
    assert (i <> b) as N by (intros ->; lia). destruct (body_holds dev bn _ _ (O i Hi N)) as [_ ->].
    by destruct (body_fields _ _ (O i Hi N)) as (_ & _ & _ & _ & -> & _).
Qed.

Lemma does_put_blocks b bl s k : (b < length (k_bufs s))%nat -> forall j d,
  does [] (kfor (seq j k) (fun i => updbuf b (fun x =>
     set_b_data (put_word x.(b_data) (4 + 4 * Z.of_nat i) (nth i bl 0)) x))) (setbuf b (set_b_data d (bf s b)) s)
    tt [] (setbuf b (set_b_data (fold_left (fun d i => put_word d (4 + 4 * Z.of_nat i) (nth i bl 0)) (seq j k) d) (bf s b)) s).
Proof.
  intros Hb. induction k as [|k IH]; intros j d; [apply does_ret|]. cbn [seq kfor fold_left].
  eapply does_bind; [apply does_updbuf|]. rewrite setbuf_setbuf, bf_setbuf, Nat.eqb_refl by done. apply IH.
Qed.

Lemma write_head_spec pins s : settled pins s -> log_dev (k_log s) = dev ->
  let hbn := u32 (log_start (k_log s)) in
  let h := head_data (lh_n (k_log s)) (lh_block (k_log s)) (view s hbn) in
  (hbn ∉ pins) ->
  exists s', does [] (write_head fuel) s tt [] s' /\
    moved pins s s' (upd (view s) hbn h) (upd (block s) hbn h) (k_dlog s ++ [(hbn, h)]).
Proof.
  intros S Ed hbn h Hh. destruct (read_one pins hbn s S Hh) as (b & s1 & D1 & F1 & H1 & R1 & Dt).
  pose proof (fetched_act _ _ _ _ F1) as A1. destruct (co_lru dev s1 (fe_ok _ _ _ _ _ _ F1)) as [l L].
  pose proof (lru_len _ _ L) as Hlen. pose proof (hb_lt _ _ _ _ H1) as Hb.
  assert (k_log s1 = k_log s) as El by (rewrite (ac_io _ _ _ _ _ _ A1); done).
  destruct (set_data_act hbn 1 b h s1 (fe_ok _ _ _ _ _ _ F1) H1 ltac:(lia)) as (A2 & H2 & _).
  set (s2 := setbuf b (set_b_data h (bf s1 b)) s1) in *.
  destruct (write_held hbn 1 b s2 (ac_ok _ _ _ _ _ _ A2) H2 ltac:(lia)) as (s3 & D3 & A3 & H3 & _).
  assert (view s2 hbn = h) as Vh by (rewrite (ac_view _ _ _ _ _ _ A2); unfold upd; by rewrite Z.eqb_refl).
  destruct (release_held hbn 1 b s3 (ac_ok _ _ _ _ _ _ A3) H3 ltac:(lia)) as (s4 & D4 & A4 & C4 & R4 & U4).
  { intros _. rewrite (ac_view _ _ _ _ _ _ A3), (ac_block _ _ _ _ _ _ A3). unfold upd. by rewrite Z.eqb_refl. }
  exists s4. split.
  - unfold write_head. eapply does_bind; [apply does_gets; reflexivity|]. rewrite Ed. fold hbn.
    eapply does_bind; [exact D1|]. eapply does_bind; [apply does_gets; reflexivity|]. rewrite El.
    eapply does_bind; [apply does_updbuf|]. cbv beta. rewrite Dt.
    eapply does_bind; [apply (does_put_blocks b (lh_block (k_log s)) s1 _ ltac:(lia) O)|].
    fold (put_blocks (lh_block (k_log s)) (Z.to_nat (lh_n (k_log s))) (put_word (view s hbn) 0 (lh_n (k_log s)))).
    fold (head_data (lh_n (k_log s)) (lh_block (k_log s)) (view s hbn)). fold h. fold s2.
    eapply does_bind; [exact D3|exact D4].
  - split.
    + apply (settled_one pins b s s4); try done; [apply A4|]. intros i Hi N.
      rewrite (ac_other _ _ _ _ _ _ A4), (ac_other _ _ _ _ _ _ A3), (ac_other _ _ _ _ _ _ A2), (ac_other _ _ _ _ _ _ A1); done.
    + repeat (eapply io_trans; [eapply ac_io; eassumption|]). apply io_refl.
    + intros bn. rewrite (ac_view _ _ _ _ _ _ A4), (ac_view _ _ _ _ _ _ A3), (ac_view _ _ _ _ _ _ A2). unfold upd.
      destruct (bn =? hbn); [done|apply A1].
    + intros bn. rewrite (ac_block _ _ _ _ _ _ A4), (ac_block _ _ _ _ _ _ A3). unfold upd. rewrite Vh.
      destruct (bn =? hbn); [done|]. rewrite (ac_block _ _ _ _ _ _ A2). apply A1.
    + rewrite (ac_dlog _ _ _ _ _ _ A4), (ac_dlog _ _ _ _ _ _ A3), Vh, (ac_dlog _ _ _ _ _ _ A2), (ac_dlog _ _ _ _ _ _ A1). done.
Qed.

(** ** The loops over the log *)

Definition home (L : logstate) (i : nat) : Z := u32 (nth i (lh_block L) 0).
Definition slot (L : logstate) (i : nat) : Z := u32 (log_start L + Z.of_nat i + 1).
Definition hblock (L : logstate) : Z := u32 (log_start L).
Definition ntx (L : logstate) : nat := Z.to_nat (lh_n L).

Lemma io_log s s' : io s s' -> k_log s' = k_log s.
Proof. intros I. rewrite I. done. Qed.

Definition log_writes (s : kstate) (L : logstate) (k : nat) : list (Z * list Z) :=
  map (fun i => (slot L i, view s (home L i))) (seq 0 k).
Definition home_writes (s : kstate) (L : logstate) (k : nat) : list (Z * list Z) :=
  map (fun i => (home L i, view s (slot L i))) (seq 0 k).

Lemma moved_refl pins s : settled pins s -> moved pins s s (view s) (block s) (k_dlog s ++ []).
Proof. intros S. split; try done. by rewrite app_nil_r. Qed.

(** One more write. *)
Lemma moved_step pins pins' s s1 s2 w bn d d' :
  moved pins s s1 (writes (view s) w) (writes (block s) w) (k_dlog s ++ w) ->
  moved pins' s1 s2 (upd (view s1) bn d') (upd (block s1) bn d') (k_dlog s1 ++ [(bn, d')]) -> d' = d ->
  moved pins' s s2 (writes (view s) (w ++ [(bn, d)])) (writes (block s) (w ++ [(bn, d)])) (k_dlog s ++ w ++ [(bn, d)]).
Proof.
  intros [M1 M2 M3 M4 M5] [N1 N2 N3 N4 N5] ->. split; [done|by apply (io_trans s s1)| | |].
  - intros b. rewrite N3, writes_app. unfold upd, writes at 1. simpl. unfold upd. destruct (b =? bn); [done|apply M3].
  - intros b. rewrite N4, writes_app. unfold upd, writes at 1. simpl. unfold upd. destruct (b =? bn); [done|apply M4].
  - rewrite N5, M5. by rewrite app_assoc.
Qed.

Lemma write_log_spec pins s L : settled pins s -> k_log s = L -> log_dev L = dev ->
  (forall i, (i < ntx L)%nat -> home L i ∈ pins) -> (forall i, (i < ntx L)%nat -> slot L i ∉ pins) ->
  let w := log_writes s L (ntx L) in
  exists s', does [] (write_log fuel) s tt [] s' /\
    moved pins s s' (writes (view s) w) (writes (block s) w) (k_dlog s ++ w).
Proof.
  intros S El Ed Hh Hs w.
  destruct (does_kfor me pid (fun k s1 => let w := log_writes s L k in
      moved pins s s1 (writes (view s) w) (writes (block s) w) (k_dlog s ++ w)) []
      (fun tail => write_log_one fuel (Z.of_nat tail)) (ntx L) O s) as (s' & D1 & M).
  - intros k s1 Hk M. simpl in M. pose proof (io_log s s1 (mv_io _ _ _ _ _ _ M)) as E1. rewrite El in E1.
    destruct (write_log_one_spec pins s1 (Z.of_nat k)) as (s2 & D2 & M2).
    { apply M. } { by rewrite E1. }
    { rewrite E1, Nat2Z.id. apply Hh. lia. } { rewrite E1. apply Hs. lia. }
    exists s2. split; [exact D2|]. unfold log_writes. rewrite seq_S, map_app. cbn [map Nat.add].
    rewrite E1, Nat2Z.id in M2. fold (slot L k) in M2. fold (home L k) in M2.
    apply (moved_step _ _ _ _ _ _ _ _ _ M M2). rewrite (mv_view _ _ _ _ _ _ M). apply writes_out.
    unfold log_writes. rewrite map_map. intros H. apply list_elem_of_fmap in H as (i & Ei & Hi).
    apply elem_of_seq in Hi. simpl in Ei. apply (Hs i); [lia|]. rewrite <- Ei. apply Hh. lia.
  - by apply moved_refl.
  - exists s'. split; [|exact M]. unfold write_log. eapply does_bind; [apply does_gets; reflexivity|]. rewrite El. exact D1.
Qed.

(** The blocks still pinned when [k] are installed. *)
Definition left_pins (recovering : bool) (L : logstate) (k : nat) : list Z :=
  if recovering then [] else map (home L) (seq k (ntx L - k)).

Lemma left_pins_step recovering L k x : NoDup (map (home L) (seq 0 (ntx L))) -> (k < ntx L)%nat ->
  x ∈ left_pins recovering L (S k) <-> x ∈ left_pins recovering L k /\ x <> home L k.
Proof.
  intros ND Hk. unfold left_pins. destruct recovering; [rewrite elem_of_nil; tauto|].
  replace (ntx L - k)%nat with (S (ntx L - S k)) by lia. cbn [seq map].
  replace (seq 0 (ntx L)) with (seq 0 k ++ k :: seq (S k) (ntx L - S k)) in ND.
  2: { replace (k :: seq (S k) (ntx L - S k)) with (seq (0 + k) (S (ntx L - S k))) by done.
       rewrite <- seq_app. f_equal. lia. }
  rewrite map_app in ND. apply NoDup_app in ND as (_ & _ & ND). cbn [map] in ND. apply NoDup_cons in ND as [N _].
  rewrite elem_of_cons. split; [|tauto]. intros H. split; [by right|]. by intros ->.
Qed.

Lemma install_trans_spec recovering s L : settled (left_pins recovering L 0) s -> k_log s = L -> log_dev L = dev ->
  NoDup (map (home L) (seq 0 (ntx L))) ->
  (forall i j, (i < ntx L)%nat -> (j < ntx L)%nat -> home L i <> slot L j) ->
  let w := home_writes s L (ntx L) in
  exists s', does [] (install_trans fuel recovering) s tt [] s' /\
    moved [] s s' (writes (view s) w) (writes (block s) w) (k_dlog s ++ w).
Proof.
  intros S El Ed ND Hs w.
  assert (forall k x, x ∈ left_pins recovering L k -> exists i, (k <= i < ntx L)%nat /\ x = home L i) as Hp.
  { intros k x. unfold left_pins. destruct recovering; [by rewrite elem_of_nil|]. intros H.
    apply list_elem_of_fmap in H as (i & -> & Hi). apply elem_of_seq in Hi. exists i. split; [lia|done]. }
  destruct (does_kfor me pid (fun k s1 => let w := home_writes s L k in
      moved (left_pins recovering L k) s s1 (writes (view s) w) (writes (block s) w) (k_dlog s ++ w)) []
      (fun tail => install_one fuel recovering (Z.of_nat tail)) (ntx L) O s) as (s' & D1 & M).
  - intros k s1 Hk M. simpl in M. pose proof (io_log s s1 (mv_io _ _ _ _ _ _ M)) as E1. rewrite El in E1.
    destruct (install_one_spec (left_pins recovering L k) (left_pins recovering L (Datatypes.S k)) recovering s1 (Z.of_nat k))
      as (s2 & D2 & M2); rewrite ?E1, ?Nat2Z.id.
    { apply M. } { done. }
    { unfold can_install, left_pins. destruct recovering; [done|].
      replace (ntx L - k)%nat with (Datatypes.S (ntx L - Datatypes.S k)) by lia. cbn [seq map]. elems. }
    { intros H. apply Hp in H as (i & Hi & E). apply (Hs i k); [lia|lia|]. by rewrite <- E. }
    { apply Hs; lia. }
    { intros x. apply left_pins_step; [done|lia]. }
    exists s2. split; [exact D2|]. unfold home_writes. rewrite seq_S, map_app. cbn [map Nat.add].
    rewrite E1, Nat2Z.id in M2. fold (slot L k) in M2. fold (home L k) in M2.
    apply (moved_step _ _ _ _ _ _ _ _ _ M M2). rewrite (mv_view _ _ _ _ _ _ M). apply writes_out.
    unfold home_writes. rewrite map_map. intros H. apply list_elem_of_fmap in H as (i & Ei & Hi).
    apply elem_of_seq in Hi. simpl in Ei. apply (Hs i k); [lia|lia|done].
  - by apply moved_refl.
  - exists s'. replace (left_pins recovering L (0 + ntx L)) with (@nil Z) in M.
    + split; [|exact M]. unfold install_trans. eapply does_bind; [apply does_gets; reflexivity|]. rewrite El. exact D1.
    + unfold left_pins. destruct recovering; [done|]. by rewrite Nat.sub_diag.
Qed.

(** ** commit() *)

(** A transaction that can be committed: the header block and the slots are
    distinct and no home block is among them. *)
Record tx_ok (L : logstate) : Prop := {
  tx_dev : log_dev L = dev;
  tx_n : 0 <= lh_n L <= LOGBLOCKS;
  tx_homes : NoDup (map (home L) (seq 0 (ntx L)));
  tx_slots i j : (i < ntx L)%nat -> (j < ntx L)%nat -> slot L i = slot L j -> i = j;
  tx_home_slot i j : (i < ntx L)%nat -> (j < ntx L)%nat -> home L i <> slot L j;
  tx_home_head i : (i < ntx L)%nat -> home L i <> hblock L;
  tx_slot_head i : (i < ntx L)%nat -> slot L i <> hblock L;
}.

(** The new contents of the blocks of the transaction. *)
Definition new_writes (s : kstate) (L : logstate) : list (Z * list Z) :=
  map (fun i => (home L i, view s (home L i))) (seq 0 (ntx L)).

(** Everything commit() writes, in order. *)
Definition commit_writes (s : kstate) (L : logstate) : list (Z * list Z) :=
  let h1 := head_data (lh_n L) (lh_block L) (view s (hblock L)) in
  log_writes s L (ntx L) ++ [(hblock L, h1)] ++ new_writes s L ++ [(hblock L, head_data 0 (lh_block L) h1)].

Lemma slot_writes_at s L i : tx_ok L -> (i < ntx L)%nat -> forall f,
  writes f (log_writes s L (ntx L)) (slot L i) = view s (home L i).
Proof.
  intros T Hi f. apply writes_in.
  - unfold log_writes. rewrite map_map. simpl. apply NoDup_fmap_2_strong; [|apply NoDup_seq].
    intros x y Hx Hy. apply elem_of_seq in Hx, Hy. apply (tx_slots L T); lia.
  - unfold log_writes. apply list_elem_of_fmap. exists i. split; [done|]. apply elem_of_seq. lia.
Qed.

Lemma not_slot s L k bn : (forall i, (i < k)%nat -> bn <> slot L i) -> bn ∉ map fst (log_writes s L k).
Proof.
  intros N H. unfold log_writes in H. rewrite map_map in H. apply list_elem_of_fmap in H as (i & E & Hi).
  apply elem_of_seq in Hi. apply (N i); [lia|done].
Qed.

Lemma moved_trans p1 p2 s s1 s2 w1 w2 :
  moved p1 s s1 (writes (view s) w1) (writes (block s) w1) (k_dlog s ++ w1) ->
  moved p2 s1 s2 (writes (view s1) w2) (writes (block s1) w2) (k_dlog s1 ++ w2) ->
  moved p2 s s2 (writes (view s) (w1 ++ w2)) (writes (block s) (w1 ++ w2)) (k_dlog s ++ w1 ++ w2).
Proof.
  intros [M1 M2 M3 M4 M5] [N1 N2 N3 N4 N5]. split; [done|by apply (io_trans s s1)| | |].
  - intros b. rewrite N3, writes_app. by apply writes_ext.
  - intros b. rewrite N4, writes_app. by apply writes_ext.
  - by rewrite N5, M5, app_assoc.
Qed.

Lemma commit_spec s L : settled (map (home L) (seq 0 (ntx L))) s -> k_log s = L -> tx_ok L -> 0 < lh_n L ->
  exists s', does [] (commit fuel) s tt [] s' /\ settled [] s' /\
    (forall bn, view s' bn = writes (view s) (commit_writes s L) bn) /\
    (forall bn, block s' bn = writes (block s) (commit_writes s L) bn) /\
    k_dlog s' = k_dlog s ++ commit_writes s L /\ k_log s' = set_lh_n 0 L /\
    s' = set_k_log (k_log s') (set_k_out (k_out s') (set_k_dlog (k_dlog s') (set_k_disk (k_disk s') (set_k_bufs (k_bufs s') s)))).
Proof.
  intros S El T Hn. set (pins := map (home L) (seq 0 (ntx L))) in *.
  assert (forall bn, bn ∈ pins <-> exists i, (i < ntx L)%nat /\ bn = home L i) as Pin.
  { intros bn. unfold pins. rewrite list_elem_of_fmap. split; intros (i & H1 & H2); exists i;
      rewrite ?elem_of_seq in *; [split; [lia|done]|split; [done|lia]]. }
  assert (hblock L ∉ pins) as Hh by (rewrite Pin; intros (i & Hi & E); by apply (tx_home_head L T i)).
  destruct (write_log_spec pins s L S El (tx_dev L T)) as (s1 & D1 & M1).
  { intros i Hi. apply Pin. eauto. }
  { intros j Hj. rewrite Pin. intros (i & Hi & E). by apply (tx_home_slot L T i j). }
  pose proof (io_log _ _ (mv_io _ _ _ _ _ _ M1)) as E1. rewrite El in E1.
  destruct (write_head_spec pins s1) as (s2 & D2 & M2); [apply M1|rewrite E1; apply T|by rewrite E1|].
  rewrite E1 in M2. fold (hblock L) in M2.
  assert (view s1 (hblock L) = view s (hblock L)) as V1.
  { rewrite (mv_view _ _ _ _ _ _ M1). apply writes_out, not_slot. intros i Hi E. by apply (tx_slot_head L T i). }
  pose proof (moved_step _ _ _ _ _ _ _ _ _ M1 M2 eq_refl) as M12. rewrite V1 in M12.
  set (h1 := head_data (lh_n L) (lh_block L) (view s (hblock L))) in *.
  pose proof (io_log _ _ (mv_io _ _ _ _ _ _ M12)) as E2. rewrite El in E2.
  destruct (install_trans_spec false s2 L) as (s3 & D3 & M3).
  { unfold left_pins. rewrite Nat.sub_0_r. apply M12. } { done. } { apply T. } { apply T. } { apply T. }
  assert (home_writes s2 L (ntx L) = new_writes s L) as Ew.
  { unfold home_writes, new_writes. apply map_ext_in. intros i Hi. apply in_seq in Hi. f_equal.
    rewrite (mv_view _ _ _ _ _ _ M12), writes_app, writes_out.
    - apply slot_writes_at; [done|lia].
    - simpl. rewrite elem_of_cons, elem_of_nil. intros [E|[]]. apply (tx_slot_head L T i); [lia|done]. }
  rewrite Ew in M3. pose proof (moved_trans _ _ _ _ _ _ _ M12 M3) as M13.
  set (s4 := set_k_log (set_lh_n 0 (k_log s3)) s3).
  pose proof (io_log _ _ (mv_io _ _ _ _ _ _ M13)) as E3. rewrite El in E3.
  assert (k_log s4 = set_lh_n 0 L) as E4 by (unfold s4; simpl; by rewrite E3).
  destruct (write_head_spec [] s4) as (s5 & D5 & M5).
  { by apply (settled_frame [] s3); [..|apply M13]. } { rewrite E4. apply T. } { apply not_elem_of_nil. }
  rewrite E4 in M5. change (hblock (set_lh_n 0 L)) with (hblock L) in M5.
  assert (view s3 (hblock L) = h1) as V3.
  { rewrite (mv_view _ _ _ _ _ _ M13), writes_app, writes_out, writes_app.
    - unfold writes at 1. simpl. unfold upd. by rewrite Z.eqb_refl.
    - unfold new_writes. rewrite map_map. intros H. apply list_elem_of_fmap in H as (i & E & Hi).
      apply elem_of_seq in Hi. apply (tx_home_head L T i); [lia|done]. }
  assert (forall f, writes f (commit_writes s L) = upd (writes f ((log_writes s L (ntx L) ++ [(hblock L, h1)]) ++ new_writes s L))
      (hblock L) (head_data 0 (lh_block L) h1)) as Ec.
  { intros f. unfold commit_writes. fold h1. rewrite !app_assoc, (writes_app _ _ [_]). done. }
  change (u32 (log_start (set_lh_n 0 L))) with (hblock L) in M5. cbn [lh_n set_lh_n lh_block] in M5.
  change (view s4) with (view s3) in M5. rewrite V3 in M5.
  exists s5. split; [|split; [apply M5|split; [|split; [|split; [|split]]]]].
  - unfold commit. eapply does_bind; [apply does_gets; reflexivity|]. rewrite El.
    apply Z.ltb_lt in Hn. rewrite Hn. unfold kwhen.
    eapply does_bind; [exact D1|]. eapply does_bind; [exact D2|]. eapply does_bind; [exact D3|].
    eapply does_bind; [|exact D5]. apply (does_modify _ _ [] (fun s => set_k_log (set_lh_n 0 (k_log s)) s)); done.
  - intros bn. rewrite (mv_view _ _ _ _ _ _ M5), Ec. unfold upd. destruct (bn =? hblock L); [done|]. apply M13.
  - intros bn. rewrite (mv_block _ _ _ _ _ _ M5), Ec. unfold upd. destruct (bn =? hblock L); [done|]. apply M13.
  - rewrite (mv_dlog _ _ _ _ _ _ M5). change (k_dlog s4) with (k_dlog s3). rewrite (mv_dlog _ _ _ _ _ _ M13).
    unfold commit_writes. fold h1. by rewrite <- !app_assoc.
  - rewrite (io_log _ _ (mv_io _ _ _ _ _ _ M5)). done.
  - pose proof (mv_io _ _ _ _ _ _ M5) as I5. pose proof (mv_io _ _ _ _ _ _ M13) as I3. unfold io in *.
    rewrite I5 at 1. unfold s4. rewrite I3 at 2. simpl. rewrite I5. done.
Qed.

(** ** Recovery *)

(** The log that read_head() makes from a header block. *)
Definition head_n (hd : list Z) : Z := s32 (get_word hd 0).
Definition head_block (hd : list Z) (i : nat) : Z := s32 (get_word hd (4 + 4 * Z.of_nat i)).
Definition head_log (hd : list Z) (L : logstate) : logstate :=
  set_lh_block (fold_left (fun bl i => <[i := head_block hd i]> bl) (seq 0 (Z.to_nat (head_n hd))) (lh_block L))
    (set_lh_n (head_n hd) L).

Lemma fold_insert_nth (f : nat -> Z) k bl i : (k <= length bl)%nat -> (i < k)%nat ->
  nth i (fold_left (fun bl i => <[i := f i]> bl) (seq 0 k) bl) 0 = f i.
Proof.
  intros Hk Hi. assert (length (fold_left (fun bl i => <[i := f i]> bl) (seq 0 k) bl) = length bl /\
    forall i, (i < k)%nat -> nth i (fold_left (fun bl i => <[i := f i]> bl) (seq 0 k) bl) 0 = f i) as [_ H]; [|by apply H].
  clear i Hi. induction k as [|k IH]; [split; [done|lia]|]. destruct (IH ltac:(lia)) as [I1 I2].
  rewrite seq_S, fold_left_app. cbn [fold_left Nat.add]. set (e := fold_left _ _ _) in *. clearbody e.
  split; [by rewrite length_insert|]. intros i Hi. rewrite nth_lookup. destruct (decide (i = k)) as [->|N].
  - rewrite list_lookup_insert_eq by lia. done.
  - rewrite list_lookup_insert_ne by done. rewrite <- nth_lookup. apply I2. lia.
Qed.

Lemma head_log_home hd L i : head_n hd <= Z.of_nat (length (lh_block L)) -> (i < Z.to_nat (head_n hd))%nat ->
  home (head_log hd L) i = u32 (get_word hd (4 + 4 * Z.of_nat i)).
Proof.
  intros Hn Hi. unfold home, head_log. cbn [lh_block set_lh_block].
  rewrite (fold_insert_nth (head_block hd)) by lia. unfold head_block, s32, sext, u32.
  change (2 ^ (32 - 1)) with (2 ^ 31). set (w := get_word hd _ mod 2 ^ 32).
  assert (0 <= w < 2 ^ 32) by (apply Z.mod_pos_bound; lia).
  case_match; [apply Z.mod_small; lia|]. rewrite <- (Z_mod_plus_full _ 1). rewrite Z.mod_small; lia.
Qed.

Lemma does_head_blocks (f : nat -> Z) s k : forall j L,
  does [] (kfor (seq j k) (fun i => updlog (fun l => set_lh_block (<[i := f i]> l.(lh_block)) l))) (set_k_log L s) tt []
    (set_k_log (set_lh_block (fold_left (fun bl i => <[i := f i]> bl) (seq j k) (lh_block L)) L) s).
Proof.
  induction k as [|k IH]; intros j L; [apply does_ret|]. cbn [seq kfor fold_left].
  eapply does_bind.
  { apply (does_modify _ _ [] (fun s => set_k_log (set_lh_block (<[j := f j]> (lh_block (k_log s))) (k_log s)) s)); done. }
  apply (IH (S j) (set_lh_block (<[j := f j]> (lh_block L)) L)).
Qed.

Lemma read_head_spec s : settled [] s -> log_dev (k_log s) = dev ->
  let L := k_log s in let hd := block s (hblock L) in
  exists s', does [] (read_head fuel) s tt [] s' /\ settled [] s' /\ k_log s' = head_log hd L /\
    (forall bn, block s' bn = block s bn) /\ k_dlog s' = k_dlog s.
Proof.
  intros S Ed L hd.
  destruct (read_one [] (hblock L) s S) as (b & s1 & D1 & F1 & H1 & R1 & Dt); [apply not_elem_of_nil|].
  rewrite (settled_clean [] _ _ S) in Dt by apply not_elem_of_nil. fold hd in Dt.
  pose proof (fetched_act _ _ _ _ F1) as A1.
  assert (k_log s1 = L) as El by (rewrite (ac_io _ _ _ _ _ _ A1); done).
  set (s2 := set_k_log (head_log hd L) s1).
  assert (cache_ok s2) as C2 by (by apply (cache_frame s1); [..|apply A1]).
  destruct (release_held (hblock L) 1 b s2 C2) as (s3 & D3 & A3 & C3 & R3 & U3); [by apply (held_body _ _ _ s1)|lia| |].
  { intros _. change (view s1 (hblock L) = block s1 (hblock L)).
    rewrite (ac_view _ _ _ _ _ _ A1), (ac_block _ _ _ _ _ _ A1). apply (settled_clean [] _ _ S), not_elem_of_nil. }
  exists s3. split; [|split; [|split; [|split]]].
  - unfold read_head. eapply does_bind; [apply does_gets; reflexivity|]. rewrite Ed. fold L. fold (hblock L).
    eapply does_bind; [exact D1|]. eapply does_bind; [apply does_getbuf|]. rewrite Dt.
    eapply does_bind.
    { apply (does_modify _ _ [] (fun s => set_k_log (set_lh_n (s32 (get_word hd 0)) (k_log s)) s)); done. }
    rewrite El. eapply does_bind; [apply (does_head_blocks (head_block hd))|]. exact D3.
  - apply (settled_one [] b s s3); try done; [apply A3|apply H1|]. intros i Hi N.
    rewrite (ac_other _ _ _ _ _ _ A3) by done. apply (ac_other _ _ _ _ _ _ A1 i Hi N).
  - rewrite (ac_io _ _ _ _ _ _ A3). done.
  - intros bn. rewrite (ac_block _ _ _ _ _ _ A3). apply (ac_block _ _ _ _ _ _ A1).
  - rewrite (ac_dlog _ _ _ _ _ _ A3). apply (ac_dlog _ _ _ _ _ _ A1).
Qed.

(** What recovery writes, from the disk it finds. *)
Definition recover_writes (dsk : Z -> list Z) (L : logstate) : list (Z * list Z) :=
  map (fun i => (home L i, dsk (slot L i))) (seq 0 (ntx L)) ++
  [(hblock L, head_data 0 (lh_block L) (dsk (hblock L)))].

Lemma recover_spec s : settled [] s ->
  let L := head_log (block s (hblock (k_log s))) (k_log s) in tx_ok L ->
  exists s', does [] (recover_from_log fuel) s tt [] s' /\ settled [] s' /\
    (forall bn, block s' bn = writes (block s) (recover_writes (block s) L) bn) /\
    k_dlog s' = k_dlog s ++ recover_writes (block s) L.
Proof.
  intros S L T. destruct (read_head_spec s S) as (s1 & D1 & S1 & E1 & B1 & G1); [apply (tx_dev L T)|].
  destruct (install_trans_spec true s1 L S1 E1 (tx_dev L T) (tx_homes L T) (tx_home_slot L T)) as (s2 & D2 & M2).
  pose proof (io_log _ _ (mv_io _ _ _ _ _ _ M2)) as E2. rewrite E1 in E2.
  set (s3 := set_k_log (set_lh_n 0 L) s2).
  destruct (write_head_spec [] s3) as (s4 & D4 & M4).
  { by apply (settled_frame [] s2); [..|apply M2]. } { apply (tx_dev L T). } { apply not_elem_of_nil. }
  change (u32 (log_start (k_log s3))) with (hblock L) in M4. cbn [k_log set_k_log lh_n set_lh_n lh_block] in M4.
  assert (forall bn, view s1 bn = block s bn) as V1.
  { intros bn. rewrite (settled_clean [] _ _ S1) by apply not_elem_of_nil. apply B1. }
  set (w := map (fun i => (home L i, block s (slot L i))) (seq 0 (ntx L))).
  assert (home_writes s1 L (ntx L) = w) as Ew.
  { unfold home_writes, w. apply map_ext. intros i. by rewrite V1. }
  rewrite Ew in M2.
  assert (view s3 (hblock L) = block s (hblock L)) as V3.
  { change (view s2 (hblock L) = block s (hblock L)). rewrite (mv_view _ _ _ _ _ _ M2), writes_out; [apply V1|].
    unfold w. rewrite map_map. intros H. apply list_elem_of_fmap in H as (i & E & Hi). apply elem_of_seq in Hi.
    apply (tx_home_head L T i); [lia|done]. }
  rewrite V3 in M4. exists s4. split; [|split; [apply M4|split]].
  - unfold recover_from_log. eapply does_bind; [exact D1|]. eapply does_bind; [exact D2|].
    eapply does_bind; [|exact D4].
    replace s3 with (set_k_log (set_lh_n 0 (k_log s2)) s2) by (rewrite E2; done).
    apply (does_modify _ _ [] (fun s => set_k_log (set_lh_n 0 (k_log s)) s)); done.
  - intros bn. rewrite (mv_block _ _ _ _ _ _ M4). unfold recover_writes. fold w. rewrite writes_app.
    unfold writes at 1. simpl. unfold upd. destruct (bn =? hblock L); [done|].
    change (block s2 bn = writes (block s) w bn). rewrite (mv_block _ _ _ _ _ _ M2). apply writes_ext, B1.
  - rewrite (mv_dlog _ _ _ _ _ _ M4). change (k_dlog s3) with (k_dlog s2). rewrite (mv_dlog _ _ _ _ _ _ M2), G1.
    unfold recover_writes. fold w. by rewrite app_assoc.
Qed.

End LogSpec.
