(* ===== verification/LogWrite.v ===== *)
(** * Updates inside a transaction (kernel/log.c log_write(), with bio.c)

    Code between begin_op() and end_op() reads blocks into buffers, changes
    them, hands them to log_write() and gives the buffers back.  [txn hs s]
    says that a transaction is open and this process holds the buffers of the
    blocks [hs]; every block the log has is pinned in the cache, and all others
    are as they are on the disk.  What readers see is [view]. *)

From S2P Require Import Prelude Riscv Memory KState KMonad Spinlock Kalloc Vm Proc ProcSpec SleepSpec Seq.
From S2P Require Import Sleeplock Bio BioSpec Log BlockSpec LogSpec.

(** The blocks of the transaction. *)
Definition pinned (s : kstate) : list Z := map (home (k_log s)) (seq 0 (ntx (k_log s))).

Section LogWrite.
Variables (me : nat) (pid : Z).
Variable dev : Z.
Context {D : Disk} {DL : DiskLaws me pid D}.
Variable fuel : nat.
#[local] Abbreviation does := (does me pid).
#[local] Abbreviation caches := (caches dev).
#[local] Abbreviation view := (view dev).
#[local] Abbreviation cache_ok := (cache_ok dev).

(** A buffer has one of the blocks [l]. *)
Definition has_one (l : list Z) (x : buf) : bool := existsb (fun bn => caches bn x) l.

Record txn (hs : list Z) (s : kstate) : Prop := {
  tn_ok : cache_ok s;
  tn_ref i : (i < NBUF)%nat ->
    b_refcnt (bf s i) = Z.b2z (has_one (pinned s) (bf s i)) + Z.b2z (has_one hs (bf s i));
  tn_lock i : (i < NBUF)%nat -> if has_one hs (bf s i) then b_lock (bf s i) = my_sl pid else sl_locked (b_lock (bf s i)) = 0;
  tn_in bn : bn ∈ pinned s ++ hs -> exists i, (i < NBUF)%nat /\ caches bn (bf s i) = true;
  tn_clean bn : (bn ∉ pinned s) -> view s bn = block s bn;
  tn_nodup : NoDup (pinned s);
  tn_range : Forall (fun bn => 0 <= bn < 2 ^ 32) (pinned s);
  tn_n : 0 <= lh_n (k_log s) <= LOGBLOCKS;
  tn_len : length (lh_block (k_log s)) = Z.to_nat LOGBLOCKS;
  tn_open : 1 <= log_outstanding (k_log s);
}.

Lemma has_one_in l bn x : bn ∈ l -> caches bn x = true -> has_one l x = true.
Proof. intros H1 H2. apply existsb_exists. exists bn. split; [by apply list_elem_of_In|done]. Qed.

Lemma has_one_iff l bn x : caches bn x = true -> has_one l x = bool_decide (bn ∈ l).
Proof.
  intros H. case_bool_decide as E; [by apply (has_one_in l bn)|]. apply not_true_is_false. intros (bn' & H1 & H2)%existsb_exists.
  apply E. apply caches_true in H as [H _]. apply list_elem_of_In in H1. by rewrite <- (caches_fun dev bn' bn x).
Qed.

Lemma has_one_body l x y : body x = body y -> has_one l x = has_one l y.
Proof. intros E. unfold has_one. induction l as [|bn l IH]; [done|]. cbn. rewrite IH. by destruct (body_holds dev bn _ _ E) as [_ ->]. Qed.

(** *** Counting buffers *)

(** Fewer blocks in use than buffers: one is unused. *)
Lemma txn_room hs s (U : gset Z) : txn hs s -> (forall bn, bn ∈ pinned s ++ hs -> bn ∈ U) -> (size U < NBUF)%nat ->
  exists i, (i < NBUF)%nat /\ b_refcnt (bf s i) = 0.
Proof.
  intros T Hu Hs. destruct (decide (Exists (fun i => b_refcnt (bf s i) = 0) (seq 0 NBUF))) as [(i & Hi & E)%Exists_exists|N].
  { exists i. split; [apply elem_of_seq in Hi; lia|done]. }
  exfalso. assert (forall i, (i < NBUF)%nat -> exists bn, bn ∈ U /\ caches bn (bf s i) = true) as Hb.
  { intros i Hi. destruct (has_one (pinned s ++ hs) (bf s i)) eqn:E.
    - apply existsb_exists in E as (bn & H1 & H2). exists bn. split; [|done]. apply Hu. by apply list_elem_of_In.
    - exfalso. apply N. apply Exists_exists. exists i. split; [apply elem_of_seq; lia|]. rewrite (tn_ref _ _ T i Hi).
      unfold has_one in *. rewrite existsb_app in E. apply orb_false_iff in E as [-> ->]. done. }
  set (f := fun i => b_blockno (bf s i)).
  assert (NoDup (map f (seq 0 NBUF))) as Nd.
  { apply NoDup_fmap_2_strong; [|apply NoDup_seq]. intros i j Hi Hj E. apply elem_of_seq in Hi, Hj.
    destruct (Hb i ltac:(lia)) as (bn & _ & [H1 _]%caches_true). destruct (Hb j ltac:(lia)) as (bn' & _ & [H2 _]%caches_true).
    apply (co_uniq dev s (tn_ok _ _ T) i j bn); [lia|lia|done|]. apply holds_true. apply holds_true in H1 as [H1 H1'], H2 as [H2 H2'].
    split; [done|]. unfold f in E. congruence. }
  assert (list_to_set (map f (seq 0 NBUF)) ⊆ U) as Hsub.
  { intros bn Hbn. apply elem_of_list_to_set, list_elem_of_fmap in Hbn as (i & -> & Hi). apply elem_of_seq in Hi.
    destruct (Hb i ltac:(lia)) as (bn & H1 & [H2 _]%caches_true). apply holds_true in H2 as [_ H2]. unfold f. by rewrite H2. }
  apply subseteq_size in Hsub. rewrite size_list_to_set in Hsub by done. rewrite length_map, length_seq in Hsub. lia.
Qed.

(** *** Reading a block *)

Definition room (hs : list Z) (s : kstate) : Prop := (size (list_to_set (pinned s ++ hs) : gset Z) < NBUF)%nat.

(** Buffer [b] has block [bn]. *)
Definition buf_of (bn : Z) (b : nat) (s : kstate) : Prop := (b < NBUF)%nat /\ caches bn (bf s b) = true.

Lemma not_held hs s bn i : txn hs s -> (bn ∉ hs) -> holds dev bn (bf s i) = true -> has_one hs (bf s i) = false.
Proof.
  intros T N H. apply not_true_is_false. intros (h & H1 & H2)%existsb_exists. apply N. apply list_elem_of_In in H1.
  by rewrite <- (caches_fun dev h bn (bf s i)).
Qed.

Lemma txn_ref hs s bn i : txn hs s -> (i < NBUF)%nat -> (bn ∉ hs) -> holds dev bn (bf s i) = true ->
  b_refcnt (bf s i) = Z.b2z (bool_decide (bn ∈ pinned s)).
Proof.
  intros T Hi N H. rewrite (tn_ref _ _ T i Hi), (not_held hs s bn i T N H), Z.add_0_r. f_equal. case_bool_decide as Hp.
  - destruct (tn_in _ _ T bn) as (j & Hj & Hc); [apply elem_of_app; by left|]. pose proof Hc as [Hh _]%caches_true.
    rewrite (co_uniq dev s (tn_ok _ _ T) i j bn) by done. by apply (has_one_in _ bn).
  - apply not_true_is_false. intros (p & H1 & H2)%existsb_exists. apply Hp. apply list_elem_of_In in H1. by rewrite <- (caches_fun dev p bn (bf s i)).
Qed.

Lemma txn_can_read hs s bn : txn hs s -> (bn ∉ hs) -> bn ∈ pinned s \/ room hs s -> can_read dev bn s.
Proof.
  intros T N Hr. split.
  - intros i Hi H. pose proof (tn_lock _ _ T i Hi) as Hl. rewrite (not_held hs s bn i T N H) in Hl. split; [done|].
    rewrite (txn_ref hs s bn i T Hi N H). by case_bool_decide.
  - destruct Hr as [Hp|Hr].
    + left. destruct (tn_in _ _ T bn) as (j & Hj & [Hc _]%caches_true); [apply elem_of_app; by left|]. by exists j.
    + right. apply (txn_room hs s (list_to_set (pinned s ++ hs))); [done|by intros ? ?; apply elem_of_list_to_set|done].
Qed.

Lemma txn_bufs hs s s' : txn hs s -> k_log s' = k_log s -> pinned s' = pinned s.
Proof. intros _ E. unfold pinned. by rewrite E. Qed.

Lemma fetched_txn hs s s1 bn b : txn hs s -> (bn ∉ hs) -> fetched pid dev bn b s s1 -> txn (bn :: hs) s1.
Proof.
  intros T N F. pose proof F as [[F0 F1 F1'] F2 F3 F4 F5 F6 F7 F8 F9].
  assert (k_log s1 = k_log s) as El by (rewrite F1; done). pose proof (txn_bufs hs s s1 T El) as Ep.
  assert (caches bn (bf s1 b) = true) as Cb by (by apply caches_true).
  assert (forall i, (i < NBUF)%nat -> i <> b -> has_one (bn :: hs) (bf s1 i) = has_one hs (bf s i)) as Ho.
  { intros i Hi Ni. rewrite (has_one_body _ _ _ (F1' i Hi Ni)). cbn. destruct (caches bn (bf s i)) eqn:Ec; [|done]. exfalso. apply Ni.
    apply (co_uniq dev s1 F2 i b bn); [done|done| |done]. destruct (body_holds dev bn _ _ (F1' i Hi Ni)) as [-> _]. by apply caches_true in Ec as [Ec _]. }
  split; try (rewrite ?Ep, ?El; apply T); [done| | | |].
  - intros i Hi. rewrite Ep. destruct (decide (i = b)) as [->|Ni].
    + rewrite (has_one_iff _ bn), (has_one_iff _ bn) by done. rewrite (bool_decide_eq_true_2 (bn ∈ bn :: hs)) by apply list_elem_of_here.
      destruct F9 as [[H1 H2]|(H1 & H2 & H3)]; [rewrite H2, (txn_ref hs s bn b T F3 N H1); done|]. rewrite H3, bool_decide_eq_false_2; [done|].
      intros Hp. destruct (tn_in _ _ T bn) as (j & Hj & [Hc _]%caches_true); [apply elem_of_app; by left|]. by rewrite H1 in Hc.
    + rewrite Ho by done. destruct (body_fields _ _ (F1' i Hi Ni)) as (_ & _ & _ & _ & -> & _). rewrite (has_one_body _ _ _ (F1' i Hi Ni)). by apply T.
  - intros i Hi. destruct (decide (i = b)) as [->|Ni].
    + rewrite (has_one_iff _ bn), bool_decide_eq_true_2 by (done || apply list_elem_of_here). done.
    + rewrite Ho by done. destruct (body_fields _ _ (F1' i Hi Ni)) as (_ & _ & _ & -> & _). by apply (tn_lock _ _ T).
  - intros bn'. rewrite Ep. intros Hin. destruct (decide (bn' = bn)) as [->|Nb]; [by exists b|].
    destruct (tn_in _ _ T bn') as (j & Hj & Hc).
    { apply elem_of_app in Hin as [?|[?|?]%elem_of_cons]; [apply elem_of_app; by left|done|apply elem_of_app; by right]. }
    exists j. split; [done|]. destruct (decide (j = b)) as [->|Nj]; [|by destruct (body_holds dev bn' _ _ (F1' j Hj Nj)) as [_ ->]].
    exfalso. destruct F9 as [[H1 H2]|(_ & H2 & _)]; [by apply Nb, (caches_fun dev bn' bn (bf s b))|].
    rewrite (tn_ref _ _ T b F3) in H2. apply elem_of_app in Hin as [Hp|[->|Hh]%elem_of_cons]; [|done|].
    + rewrite (has_one_in _ bn' _ Hp Hc) in H2. destruct (has_one hs (bf s b)); cbn in H2; lia.
    + rewrite (has_one_in _ bn' _ Hh Hc) in H2. destruct (has_one (pinned s) (bf s b)); cbn in H2; lia.
  - intros bn'. rewrite Ep. intros Hn. rewrite F8. rewrite (touched_block b s s1) by done. by apply (tn_clean _ _ T).
Qed.

Lemma txn_read hs s bn : txn hs s -> (bn ∉ hs) -> bn ∈ pinned s \/ room hs s ->
  exists b s1, does [] (bread fuel dev bn) s b [] s1 /\ txn (bn :: hs) s1 /\ s1 = set_k_bufs (k_bufs s1) s /\
    (forall bn', view s1 bn' = view s bn') /\ buf_of bn b s1 /\ b_data (bf s1 b) = view s bn /\
    forall h b', h ∈ hs -> buf_of h b' s -> buf_of h b' s1.
Proof.
  intros T N Hr. destruct (bread_spec me pid dev fuel bn s (tn_ok _ _ T) (txn_can_read hs s bn T N Hr)) as (b & s1 & D1 & F).
  exists b, s1. pose proof (fetched_txn hs s s1 bn b T N F) as T1. destruct F as [[F0 F1 F1'] F2 F3 F4 F5 F6 F7 F8 F9].
  split; [exact D1|]. split; [done|]. split; [done|]. split; [done|]. split; [split; [done|by apply caches_true]|]. split; [done|].
  intros h b' Hh [Hb' Hc]. split; [done|]. destruct (decide (b' = b)) as [->|Nb]; [|by destruct (body_holds dev h _ _ (F1' b' Hb' Nb)) as [_ ->]].
  exfalso. destruct F9 as [[H1 _]|(_ & H2 & _)].
  - apply N. by rewrite <- (caches_fun dev h bn (bf s b)).
  - rewrite (tn_ref _ _ T b F3), (has_one_in _ h _ Hh Hc) in H2. destruct (has_one (pinned s) (bf s b)); cbn in H2; lia.
Qed.

(** *** Giving a buffer back *)

Lemma txn_release hs s bn b : txn (bn :: hs) s -> (bn ∉ hs) -> buf_of bn b s ->
  exists s1, does [] (brelse b) s tt [] s1 /\ txn hs s1 /\ s1 = set_k_bufs (k_bufs s1) s /\
    (forall bn', view s1 bn' = view s bn') /\ forall h b', buf_of h b' s -> buf_of h b' s1.
Proof.
  intros T N [Hb Hc]. assert (has_one (bn :: hs) (bf s b) = true) as Hh by (apply (has_one_in _ bn); [apply list_elem_of_here|done]).
  pose proof (tn_ref _ _ T b Hb) as Hr. pose proof (tn_lock _ _ T b Hb) as Hl. rewrite Hh in Hr, Hl. rewrite (has_one_iff _ bn) in Hr by done.
  destruct (brelse_spec me pid dev b s (tn_ok _ _ T) Hb Hl) as (s1 & D1 & Re).
  { rewrite Hr. case_bool_decide; cbn; lia. }
  { rewrite Hr. case_bool_decide as Hp; [cbn; lia|]. intros _ _ _. rewrite <- (view_hit dev s b bn (tn_ok _ _ T) Hb Hc).
    pose proof Hc as [Hc' _]%caches_true. apply holds_true in Hc' as [_ ->]. by apply (tn_clean _ _ T). }
  exists s1. split; [exact D1|]. destruct Re as [[R0 R1 R1'] R2 R3 R4]. assert (k_log s1 = k_log s) as El by (rewrite R1; done).
  pose proof (txn_bufs _ s s1 T El) as Ep. destruct (body_fields _ _ R3) as (E1 & E2 & E3 & E4 & E5 & E6). cbn in E4, E5.
  assert (forall bn' i, (i < NBUF)%nat -> caches bn' (bf s1 i) = caches bn' (bf s i)) as Ec.
  { intros bn' i Hi. destruct (decide (i = b)) as [->|Ni]; [by destruct (body_holds dev bn' _ _ R3) as [_ ->]|by apply body_holds, R1']. }
  assert (forall l i, (i < NBUF)%nat -> has_one l (bf s1 i) = has_one l (bf s i)) as Eh.
  { intros l i Hi. unfold has_one. induction l as [|x l IH]; [done|]. cbn. by rewrite IH, Ec. }
  assert (forall i, (i < NBUF)%nat -> i <> b -> has_one (bn :: hs) (bf s i) = has_one hs (bf s i)) as Ho.
  { intros i Hi Ni. cbn. destruct (caches bn (bf s i)) eqn:Eb; [|done]. exfalso. apply Ni. apply caches_true in Eb as [Eb _]. pose proof Hc as [Hc' _]%caches_true.
    by apply (co_uniq dev s (tn_ok _ _ T) i b bn). }
  split; [|split; [done|split; [done|intros h b' [H1 H2]; split; [done|by rewrite Ec]]]].
  split; try (rewrite ?Ep, ?El; apply T); [done| | | |].
  - intros i Hi. rewrite Ep, !Eh by done. destruct (decide (i = b)) as [->|Ni].
    + rewrite E5, Hr, (has_one_iff _ bn), (has_one_iff hs bn), (bool_decide_eq_false_2 (bn ∈ hs)) by done.
      rewrite u32_small; [cbn; lia|]. case_bool_decide; cbn; lia.
    + destruct (body_fields _ _ (R1' i Hi Ni)) as (_ & _ & _ & _ & -> & _). rewrite <- Ho by done. by apply T.
  - intros i Hi. rewrite Eh by done. destruct (decide (i = b)) as [->|Ni].
    + rewrite (has_one_iff hs bn), bool_decide_eq_false_2 by done. by rewrite E4.
    + rewrite <- Ho by done. destruct (body_fields _ _ (R1' i Hi Ni)) as (_ & _ & _ & -> & _). by apply (tn_lock _ _ T).
  - intros bn'. rewrite Ep. intros Hin. destruct (tn_in _ _ T bn') as (j & Hj & Hcj); [set_solver +Hin|]. exists j. by rewrite Ec.
  - intros bn'. rewrite Ep. intros Hn. rewrite R4. rewrite (touched_block b s s1) by done. by apply (tn_clean _ _ T).
Qed.

(** *** log_write() *)

Lemma does_eq {A} H (m : K A) s a H' s' s'' : does H m s a H' s' -> s' = s'' -> does H m s a H' s''.
Proof. by intros ? <-. Qed.

Lemma does_bpin_in b s : does [LLog] (bpin b) s tt [LLog] (setbuf b (set_b_refcnt (u32 (b_refcnt (bf s b) + 1)) (bf s b)) s).
Proof. unfold bpin. dstep. eapply does_bind; [apply does_updbuf|]. apply does_release. set_solver. Qed.

Lemma log_slot_spec blocks n bn : (n <= length blocks)%nat ->
  let i := log_slot blocks n bn in
  ((i < n)%nat /\ u32 (nth i blocks 0) = bn) \/ i = n /\ forall j, (j < n)%nat -> u32 (nth j blocks 0) <> bn.
Proof.
  revert blocks. induction n as [|n IH]; intros [|x blocks] Hn; cbn [log_slot]; cbn in Hn; try lia; [right; split; [done|lia]..|].
  destruct (Z.eqb_spec (u32 x) bn) as [E|E]; [left; split; [lia|done]|].
  destruct (IH blocks ltac:(lia)) as [[H1 H2]|[H1 H2]]; [left; split; [lia|done]|right]. split; [lia|]. intros [|j] Hj; [done|]. apply H2. lia.
Qed.

(** The held buffer [b] gets data [d], and its block is in the log. *)
Lemma txn_put hs s bn b d L' : txn hs s -> bn ∈ hs -> buf_of bn b s ->
  let pins := map (home L') (seq 0 (ntx L')) in
  (pinned s = pins /\ bn ∈ pinned s \/ pins = pinned s ++ [bn] /\ (bn ∉ pinned s)) ->
  0 <= bn < 2 ^ 32 -> 0 <= lh_n L' <= LOGBLOCKS -> length (lh_block L') = Z.to_nat LOGBLOCKS -> 1 <= log_outstanding L' ->
  let s2 := set_k_log L' (setbuf b (set_b_refcnt 2 (set_b_data d (bf s b))) s) in
  txn hs s2 /\ (forall bn', view s2 bn' = upd (view s) bn d bn') /\ forall h b', buf_of h b' s -> buf_of h b' s2.
Proof.
  intros T Hh [Hb Hc] pins Hp Hbn Hn Hlen Ho s2.
  assert (bn ∈ pins /\ (forall x, x ∈ pinned s -> x ∈ pins) /\ (forall x, x ∈ pins -> x <> bn -> x ∈ pinned s) /\ NoDup pins) as (Hpb & Hp1 & Hp2 & Hp3).
  { destruct Hp as [[<- H]|[-> H]]; [split; [done|split; [done|split; [done|apply T]]]|]. split; [set_solver|]. split; [set_solver|]. split; [set_solver|].
    apply NoDup_app. split; [apply T|]. split; [intros x Hx ->%list_elem_of_singleton; done|apply NoDup_singleton]. }
  destruct (set_ok dev b (set_b_refcnt 2 (set_b_data d (bf s b))) s (tn_ok _ _ T) Hb) as (To & C1 & E1 & V1); try done.
  set (s1 := setbuf b _ s) in *. assert (forall i, (i < NBUF)%nat -> i <> b -> body (bf s2 i) = body (bf s i)) as Ob by (intros i; apply (to_other _ _ _ To)).
  assert (forall bn' i, (i < NBUF)%nat -> caches bn' (bf s2 i) = caches bn' (bf s i)) as Ec.
  { intros bn' i Hi. destruct (decide (i = b)) as [->|Ni]; [change (bf s2 b) with (bf s1 b); by rewrite E1|by apply body_holds, Ob]. }
  assert (forall l i, (i < NBUF)%nat -> has_one l (bf s2 i) = has_one l (bf s i)) as Eh.
  { intros l i Hi. unfold has_one. induction l as [|x l IH]; [done|]. cbn [existsb]. by rewrite IH, Ec. }
  assert (forall i, (i < NBUF)%nat -> i <> b -> has_one pins (bf s i) = has_one (pinned s) (bf s i)) as Hpp.
  { intros i Hi Ni. destruct (has_one (pinned s) (bf s i)) eqn:E.
    - apply existsb_exists in E as (x & H1 & H2). apply (has_one_in _ x); [|done]. apply Hp1. by apply list_elem_of_In.
    - apply not_true_is_false. intros (x & H1 & H2)%existsb_exists. apply list_elem_of_In in H1. apply not_true_iff_false in E. apply E.
      apply (has_one_in _ x); [|done]. apply Hp2; [done|]. exact (caches_other dev bn b s i x (tn_ok _ _ T) Hb Hc Hi Ni H2). }
  assert (forall bn', view s2 bn' = upd (view s) bn d bn') as V2.
  { intros bn'. change (view s2 bn') with (view s1 bn'). rewrite V1. unfold upd. by rewrite (caches_eqb dev bn bn'). }
  split; [|split; [done|intros h b' [H1 H2]; split; [done|by rewrite Ec]]].
  split; try done.
  - by apply (cache_frame dev s1).
  - intros i Hi. change (pinned s2) with pins. rewrite !Eh by done. destruct (decide (i = b)) as [->|Ni].
    + change (bf s2 b) with (bf s1 b). rewrite E1, (has_one_in _ bn) by done. by rewrite (has_one_in _ bn).
    + destruct (body_fields _ _ (Ob i Hi Ni)) as (_ & _ & _ & _ & -> & _). rewrite Hpp by done. by apply T.
  - intros i Hi. rewrite Eh by done. destruct (decide (i = b)) as [->|Ni].
    + change (bf s2 b) with (bf s1 b). rewrite E1. exact (tn_lock _ _ T b Hb).
    + destruct (body_fields _ _ (Ob i Hi Ni)) as (_ & _ & _ & -> & _). by apply (tn_lock _ _ T).
  - intros bn' Hin. change (pinned s2) with pins in Hin. destruct (decide (bn' = bn)) as [->|Nb]; [exists b; by rewrite Ec|].
    destruct (tn_in _ _ T bn') as (j & Hj & Hcj); [|exists j; by rewrite Ec]. apply elem_of_app in Hin as [?|?]; apply elem_of_app; [left; by apply Hp2|by right].
  - intros bn' Hn'. change (pinned s2) with pins in Hn'. rewrite V2. unfold upd. destruct (Z.eqb_spec bn' bn) as [->|Nb]; [done|].
    apply (tn_clean _ _ T). intros H. by apply Hn', Hp1.
  - change (pinned s2) with pins. apply Forall_forall. intros x Hx. destruct (decide (x = bn)) as [->|Nx]; [done|].
    apply (proj1 (Forall_forall _ _) (tn_range _ _ T)). by apply Hp2.
Qed.

(** The parts of the log that log_write() leaves alone. *)
Record same_log (L L' : logstate) : Prop := {
  sg_start : log_start L' = log_start L;
  sg_dev : log_dev L' = log_dev L;
  sg_outstanding : log_outstanding L' = log_outstanding L;
  sg_committing : log_committing L' = log_committing L;
}.

Lemma same_log_refl L : same_log L L.
Proof. done. Qed.

Lemma same_log_trans L1 L2 L3 : same_log L1 L2 -> same_log L2 L3 -> same_log L1 L3.
Proof. intros [A1 A2 A3 A4] [B1 B2 B3 B4]. split; congruence. Qed.

Lemma u32_s32 bn : 0 <= bn < 2 ^ 32 -> u32 (s32 bn) = bn.
Proof. intros H. unfold u32. rewrite s32_mod. by apply Z.mod_small. Qed.

(** The blocks of the log when slot [i] gets [bn]. *)
Lemma homes_found L i bn : (i < length (lh_block L))%nat -> home L i = bn -> 0 <= bn < 2 ^ 32 ->
  map (home (set_lh_block (<[i := s32 bn]> (lh_block L)) L)) (seq 0 (ntx L)) = map (home L) (seq 0 (ntx L)).
Proof.
  intros Hi Hh Hb. apply map_ext. intros j. unfold home. cbn [lh_block set_lh_block]. rewrite !nth_lookup.
  destruct (decide (j = i)) as [->|N]; [|by rewrite list_lookup_insert_ne]. rewrite list_lookup_insert_eq by done. cbn.
  rewrite u32_s32 by done. rewrite <- Hh. unfold home. by rewrite nth_lookup.
Qed.

Lemma homes_new L bn : 0 <= lh_n L < LOGBLOCKS -> length (lh_block L) = Z.to_nat LOGBLOCKS -> 0 <= bn < 2 ^ 32 ->
  let L' := set_lh_n (s32 (lh_n L + 1)) (set_lh_block (<[ntx L := s32 bn]> (lh_block L)) L) in
  lh_n L' = lh_n L + 1 /\ map (home L') (seq 0 (ntx L')) = map (home L) (seq 0 (ntx L)) ++ [bn].
Proof.
  intros Hn Hl Hb L'. assert (LOGBLOCKS = 30) as EL by done. assert (lh_n L' = lh_n L + 1) as En by (unfold L'; cbn; rewrite s32_small; lia).
  split; [done|]. unfold ntx at 1. rewrite En. replace (Z.to_nat (lh_n L + 1)) with (ntx L + 1)%nat by (unfold ntx; lia). rewrite seq_app, map_app.
  assert (ntx L < length (lh_block L))%nat as Hlt by (unfold ntx; lia). f_equal.
  - apply map_ext_in. intros j Hj%in_seq. unfold home. cbn [L' lh_block set_lh_block set_lh_n]. rewrite !nth_lookup, list_lookup_insert_ne by lia. done.
  - cbn [seq map Nat.add]. unfold home. cbn [L' lh_block set_lh_block set_lh_n]. rewrite nth_lookup, list_lookup_insert_eq by done. cbn. by rewrite u32_s32.
Qed.

Lemma refcnt_same r x : b_refcnt x = r -> set_b_refcnt r x = x.
Proof. intros <-. by destruct x. Qed.

Definition logged (bn : Z) (s s2 : kstate) : Prop :=
  pinned s2 = pinned s /\ bn ∈ pinned s \/ pinned s2 = pinned s ++ [bn] /\ (bn ∉ pinned s).

Lemma txn_log hs s bn b d : txn hs s -> bn ∈ hs -> buf_of bn b s -> 0 <= bn < 2 ^ 32 -> lh_n (k_log s) < LOGBLOCKS ->
  exists s2, does [] (log_write b) (setbuf b (set_b_data d (bf s b)) s) tt [] s2 /\ txn hs s2 /\
    (forall bn', view s2 bn' = upd (view s) bn d bn') /\ (forall h b', buf_of h b' s -> buf_of h b' s2) /\
    s2 = set_k_log (k_log s2) (set_k_bufs (k_bufs s2) s) /\ logged bn s s2 /\ same_log (k_log s) (k_log s2).
Proof.
  intros T Hh [Hb Hc] Hbn Hn. pose proof (tn_n _ _ T) as Hn0. pose proof (tn_len _ _ T) as Hlen. pose proof (tn_open _ _ T) as Hop.
  destruct (co_lru dev s (tn_ok _ _ T)) as [l Lr]. pose proof (lru_len s l Lr) as Hbl. assert (LOGBLOCKS = 30) as EL by done.
  pose proof (tn_ref _ _ T b Hb) as Hr. rewrite (has_one_iff _ bn), (has_one_in hs bn) in Hr by done.
  set (L := k_log s) in *. set (x := set_b_data d (bf s b)). assert (b_blockno x = bn) as Eb.
  { pose proof Hc as [Hc' _]%caches_true. by apply holds_true in Hc' as [_ Hc']. }
  assert (forall s1 s2, s1 = setbuf b x s -> let i := log_slot (lh_block L) (Z.to_nat (lh_n L)) bn in
    does [LLog] (updlog (fun l => set_lh_block (<[i := s32 bn]> l.(lh_block)) l) ;;
      kwhen (Z.of_nat i =? lh_n L) (bpin b ;; updlog (fun l => set_lh_n (s32 (l.(lh_n) + 1)) l)) ;; release LLog) s1 tt [] s2 ->
    does [] (log_write b) s1 tt [] s2) as Start.
  { intros s1 s2 -> i Dk. unfold log_write. dstep. eapply does_bind; [apply does_gets; reflexivity|]. change (k_log (setbuf b x s)) with L.
    destruct (Z.leb_spec LOGBLOCKS (lh_n L)); [lia|]. destruct (Z.ltb_spec (log_outstanding L) 1); [lia|].
    eapply does_bind; [apply does_getbuf|]. rewrite bf_setbuf, Nat.eqb_refl by lia. by rewrite Eb. }
  destruct (log_slot_spec (lh_block L) (Z.to_nat (lh_n L)) bn ltac:(lia)) as [[Hi Hs]|[Hi Hs]].
  - set (i := log_slot _ _ _) in *. assert (bn ∈ pinned s) as Hp.
    { unfold pinned. apply list_elem_of_fmap. exists i. split; [done|]. apply elem_of_seq. unfold ntx. fold L. lia. }
    rewrite bool_decide_eq_true_2 in Hr by done. cbn in Hr. set (L1 := set_lh_block (<[i := s32 bn]> (lh_block L)) L).
    pose proof (homes_found L i bn ltac:(lia) Hs Hbn) as Ehm.
    destruct (txn_put hs s bn b d L1 T Hh (conj Hb Hc)) as (T2 & V2 & B2); [left; by split|done|done|cbn; by rewrite length_insert|done|].
    rewrite (refcnt_same 2) in T2, V2, B2 by (cbn; lia). eexists. split; [|split; [exact T2|split; [exact V2|split; [exact B2|]]]].
    + apply (Start _ _ eq_refl). unfold updlog. fold i. eapply does_bind; [apply does_modify; reflexivity|]. destruct (Z.eqb_spec (Z.of_nat i) (lh_n L)); [lia|].
      eapply does_bind; [apply does_ret|]. apply does_release. by apply not_elem_of_nil.
    + split; [done|]. split; [left; by split|done].
  - rewrite Hi in *. assert (bn ∉ pinned s) as Hp.
    { unfold pinned. intros (j & E & Hj)%list_elem_of_fmap. apply elem_of_seq in Hj. unfold ntx in Hj. fold L in Hj. apply (Hs j); [lia|done]. }
    rewrite bool_decide_eq_false_2 in Hr by done. cbn in Hr. destruct (homes_new L bn ltac:(lia) Hlen Hbn) as [En Ehm].
    destruct (txn_put hs s bn b d _ T Hh (conj Hb Hc) (or_intror (conj Ehm Hp)) Hbn) as (T2 & V2 & B2); [rewrite En; lia|cbn; by rewrite length_insert|done|].
    eexists. split; [|split; [exact T2|split; [exact V2|split; [exact B2|]]]].
    + apply (Start _ _ eq_refl). unfold updlog. eapply does_bind; [apply does_modify; reflexivity|]. rewrite Z2Nat.id by lia. rewrite Z.eqb_refl.
      eapply does_bind; [|apply does_release; by apply not_elem_of_nil]. eapply does_bind; [apply does_bpin_in|].
      eapply does_eq; [apply does_modify; reflexivity|]. unfold bf, setbuf. cbn [k_bufs set_k_bufs set_k_log].
      rewrite nth_lookup, list_lookup_insert_eq, list_insert_insert_eq by lia. cbn [default from_option id].
      change (b_refcnt x) with (b_refcnt (bf s b)). rewrite Hr. done.
    + split; [done|]. split; [right; by split|done].
Qed.

(** ** Steps of a transaction *)

(** From [s] to [s'] the process still holds [hs], readers see [v], and only
    blocks of [T] are new in the log. *)
Record moved_to (hs : list Z) (s s' : kstate) (v : Z -> list Z) (T : list Z) : Prop := {
  mt_txn : txn hs s';
  mt_view bn : view s' bn = v bn;
  mt_frame : s' = set_k_out (k_out s') (set_k_log (k_log s') (set_k_bufs (k_bufs s') s));
  mt_log : same_log (k_log s) (k_log s');
  mt_bufs h b : h ∈ hs -> buf_of h b s -> buf_of h b s';
  mt_pins x : x ∈ pinned s' -> x ∈ pinned s \/ x ∈ T;
  mt_keep x : x ∈ pinned s -> x ∈ pinned s';
}.

Lemma moved_same hs s : txn hs s -> moved_to hs s s (view s) [].
Proof. intros T. split; try done. by left. Qed.

Lemma moved_seq hs s s1 s2 v1 v2 T1 T2 : moved_to hs s s1 v1 T1 -> moved_to hs s1 s2 v2 T2 -> moved_to hs s s2 v2 (T1 ++ T2).
Proof.
  intros [A1 A2 A3 A4 A5 A6 A7] [B1 B2 B3 B4 B5 B6 B7]. split; try done.
  - rewrite B3, A3. done.
  - by eapply same_log_trans.
  - auto.
  - intros x [Hx|Hx]%B6; [|right; apply elem_of_app; by right]. apply A6 in Hx as [Hx|Hx]; [by left|right; apply elem_of_app; by left].
  - auto.
Qed.

Lemma moved_view hs s s' v v' T : moved_to hs s s' v T -> (forall bn, v bn = v' bn) -> moved_to hs s s' v' T.
Proof. intros [A1 A2 A3 A4 A5 A6 A7] E. split; try done. intros bn. by rewrite A2. Qed.

Lemma moved_weaken hs s s' v (T T' : list Z) : moved_to hs s s' v T -> (forall x, x ∈ T -> x ∈ T') -> moved_to hs s s' v T'.
Proof. intros [A1 A2 A3 A4 A5 A6 A7] E. split; try done. intros x Hx. destruct (A6 x Hx); auto. Qed.

(** What the log may still take: the blocks [F], and [k] more. *)
Definition budget (F : gset Z) (k : nat) (s : kstate) : Prop := (size (list_to_set (pinned s) ∪ F) + k < NBUF)%nat.

Lemma budget_log F k hs s : txn hs s -> budget F k s -> lh_n (k_log s) < LOGBLOCKS.
Proof.
  intros T B. unfold budget in B. assert (size (list_to_set (pinned s) : gset Z) <= size (list_to_set (pinned s) ∪ F))%nat as H by apply subseteq_size, union_subseteq_l.
  rewrite size_list_to_set in H by apply T. unfold pinned at 1 in H. rewrite length_map, length_seq in H. unfold ntx in H.
  assert (Z.of_nat NBUF = LOGBLOCKS) as E by done. pose proof (tn_n _ _ T). lia.
Qed.

Lemma budget_room F k hs s : budget F k s -> (forall h, h ∈ hs -> h ∈ F \/ h ∈ pinned s) -> room hs s.
Proof.
  intros B Hh. unfold budget in B. unfold room. assert (size (list_to_set (pinned s ++ hs) : gset Z) <= size (list_to_set (pinned s) ∪ F))%nat; [|lia].
  apply subseteq_size. intros x [H|H]%elem_of_list_to_set%elem_of_app; apply elem_of_union; [left; by apply elem_of_list_to_set|].
  destruct (Hh x H); [by right|left; by apply elem_of_list_to_set].
Qed.

(** Blocks that are in the budget or in the log cost nothing. *)
Lemma budget_in F k s s' (T : list Z) : budget F k s -> (forall x, x ∈ pinned s' -> x ∈ pinned s \/ x ∈ T) ->
  (forall x, x ∈ T -> x ∈ F \/ x ∈ pinned s) -> budget F k s'.
Proof.
  intros B Hp HT. unfold budget in *. assert (size (list_to_set (pinned s') ∪ F) <= size (list_to_set (pinned s) ∪ F))%nat; [|lia].
  apply subseteq_size. intros x [H%elem_of_list_to_set|H]%elem_of_union; [|apply elem_of_union; by right].
  apply elem_of_union. rewrite elem_of_list_to_set. destruct (Hp x H) as [?|[?|?]%HT]; auto.
Qed.

Lemma budget_one F k s s' (T : list Z) bn : budget F (S k) s -> (forall x, x ∈ pinned s' -> x ∈ pinned s \/ x ∈ T) ->
  (forall x, x ∈ T -> x = bn \/ x ∈ F \/ x ∈ pinned s) -> budget F k s'.
Proof.
  intros B Hp HT. unfold budget in *.
  assert (size (list_to_set (pinned s') ∪ F) <= size ({[bn]} ∪ (list_to_set (pinned s) ∪ F)))%nat as H1.
  { apply subseteq_size. intros x [H%elem_of_list_to_set|H]%elem_of_union; rewrite !elem_of_union, elem_of_singleton, elem_of_list_to_set; [|auto].
    destruct (Hp x H) as [?|[?|[?|?]]%HT]; auto. }
  assert (size ({[bn]} ∪ (list_to_set (pinned s) ∪ F)) <= 1 + size (list_to_set (pinned s) ∪ F))%nat as H2.
  { rewrite size_union_alt. rewrite size_singleton. apply Nat.add_le_mono_l, subseteq_size, subseteq_difference_l. done. }
  lia.
Qed.

(** A block is read, and given back as it was. *)
Lemma txn_look hs s bn : txn hs s -> (bn ∉ hs) -> bn ∈ pinned s \/ room hs s ->
  exists b s1 s2, does [] (bread fuel dev bn) s b [] s1 /\ b_data (bf s1 b) = view s bn /\ s1 = set_k_bufs (k_bufs s1) s /\
    does [] (brelse b) s1 tt [] s2 /\ moved_to hs s s2 (view s) [].
Proof.
  intros T N Hr. destruct (txn_read hs s bn T N Hr) as (b & s1 & D1 & T1 & E1 & V1 & Hb & Ed & Hk).
  destruct (txn_release hs s1 bn b T1 N Hb) as (s2 & D2 & T2 & E2 & V2 & Hk2).
  exists b, s1, s2. split; [exact D1|]. split; [done|]. split; [done|]. split; [exact D2|].
  assert (pinned s2 = pinned s) as Ep by (unfold pinned; by rewrite E2, E1). split; try done.
  - intros bn'. by rewrite V2, V1.
  - rewrite E2, E1. done.
  - rewrite E2, E1. done.
  - auto.
  - intros x. rewrite Ep. by left.
  - intros x. by rewrite Ep.
Qed.

(** A block is read, changed, logged and given back. *)
Lemma txn_update hs s bn : txn hs s -> (bn ∉ hs) -> bn ∈ pinned s \/ room hs s -> 0 <= bn < 2 ^ 32 -> lh_n (k_log s) < LOGBLOCKS ->
  exists b s1, does [] (bread fuel dev bn) s b [] s1 /\ b_data (bf s1 b) = view s bn /\ s1 = set_k_bufs (k_bufs s1) s /\
    forall d, exists s2 s3, does [] (log_write b) (setbuf b (set_b_data d (bf s1 b)) s1) tt [] s2 /\
      does [] (brelse b) s2 tt [] s3 /\ moved_to hs s s3 (upd (view s) bn d) [bn] /\ bn ∈ pinned s3.
Proof.
  intros T N Hr Hbn Hn. destruct (txn_read hs s bn T N Hr) as (b & s1 & D1 & T1 & E1 & V1 & Hb & Ed & Hk).
  exists b, s1. split; [exact D1|]. split; [done|]. split; [done|]. intros d. assert (k_log s1 = k_log s) as El by (rewrite E1; done).
  destruct (txn_log (bn :: hs) s1 bn b d T1 (list_elem_of_here _ _) Hb Hbn) as (s2 & D2 & T2 & V2 & Hk2 & E2 & Lg & Sl); [by rewrite El|].
  destruct (txn_release hs s2 bn b T2 N (Hk2 _ _ Hb)) as (s3 & D3 & T3 & E3 & V3 & Hk3).
  exists s2, s3. split; [exact D2|]. split; [exact D3|].
  assert (pinned s3 = pinned s2 /\ pinned s1 = pinned s) as [P3 P1] by (unfold pinned; rewrite E3, El; done).
  assert (forall x, x ∈ pinned s3 <-> x ∈ pinned s \/ x = bn) as Hp.
  { intros x. rewrite P3. destruct Lg as [[-> H]|[-> H]]; rewrite P1 in *; [split; [by left|intros [?| ->]; done]|].
    rewrite elem_of_app, list_elem_of_singleton. done. }
  split; [|apply Hp; by right]. split; try done.
  - intros bn'. rewrite V3, V2. unfold upd. by rewrite V1.
  - rewrite E3, E2, E1. done.
  - rewrite E3. cbn. by rewrite <- El.
  - auto.
  - intros x Hx. apply Hp in Hx as [?| ->]; [by left|right; apply list_elem_of_here].
  - intros x Hx. apply Hp. by left.
Qed.

End LogWrite.
