(* ===== verification/Crash.v ===== *)
(** * Crashes

    A commit that is cut short after any of its disk writes, and the recovery
    that the next boot runs: the blocks of the file system have all of their
    old or all of their new contents. *)

From S2P Require Import Prelude Riscv Memory KState KMonad Spinlock Kalloc Vm Proc ProcSpec SleepSpec Seq.
From S2P Require Import Printf PrintSpec Sleeplock Bio BioSpec Log BlockSpec LogSpec.

Section Crash.
Variables (me : nat) (pid dev : Z).
Context {D : Disk} {DL : DiskLaws me pid D}.
Variable fuel : nat.
#[local] Abbreviation settled := (settled dev).
#[local] Abbreviation view := (view dev).
#[local] Abbreviation tx_ok := (tx_ok dev).

(** A block that is not part of the log. *)
Definition outside (L : logstate) (bn : Z) : Prop :=
  bn <> hblock L /\ forall i, (i < ntx L)%nat -> bn <> slot L i.

(** ** Recovery as a function of the disk *)

Lemma recover_none dsk L bn : ntx L = O -> bn <> hblock L -> writes dsk (recover_writes dsk L) bn = dsk bn.
Proof.
  intros E N. unfold recover_writes. rewrite E. apply writes_out. simpl. rewrite elem_of_cons, elem_of_nil. tauto.
Qed.

(** The home blocks get what their slots have, whatever they had. *)
Lemma recover_some dsk L new bn : tx_ok L -> bn <> hblock L ->
  (forall i, (i < ntx L)%nat -> dsk (slot L i) = new (home L i)) ->
  writes dsk (recover_writes dsk L) bn = if decide (bn ∈ map (home L) (seq 0 (ntx L))) then new bn else dsk bn.
Proof.
  intros T N Hs. unfold recover_writes. rewrite writes_app. rewrite (writes_out _ [_]) by (simpl; elems).
  assert (map fst (map (fun i => (home L i, dsk (slot L i))) (seq 0 (ntx L))) = map (home L) (seq 0 (ntx L))) as Em
    by (rewrite map_map; done).
  case_decide as H.
  - apply list_elem_of_fmap in H as (i & -> & Hi). rewrite <- Hs by (apply elem_of_seq in Hi; lia).
    apply writes_in; [rewrite Em; apply T|]. apply list_elem_of_fmap. eauto.
  - apply writes_out. by rewrite Em.
Qed.

(** A header that has the transaction of [L]. *)
Record has_tx (L : logstate) (hd : list Z) : Prop := {
  ht_n : head_n hd = lh_n L;
  ht_home i : (i < ntx L)%nat -> u32 (get_word hd (4 + 4 * Z.of_nat i)) = home L i;
}.

Lemma u32_u32 x : u32 (u32 x) = u32 x.
Proof. unfold u32. by rewrite Z.mod_mod. Qed.

Lemma head_data_tx L d : 0 <= lh_n L <= LOGBLOCKS -> length d = 1024%nat ->
  has_tx L (head_data (lh_n L) (lh_block L) d) /\ length (head_data (lh_n L) (lh_block L) d) = 1024%nat.
Proof.
  intros Hn Hd. destruct (head_data_spec (lh_n L) (lh_block L) d Hn Hd) as (H1 & H2 & H3).
  split; [|done]. split.
  - unfold head_n. rewrite H2. apply s32_small. unfold LOGBLOCKS, MAXOPBLOCKS in Hn. lia.
  - intros i Hi. rewrite H3 by done. by rewrite u32_u32.
Qed.

Lemma head_data_none bl d : length d = 1024%nat -> head_n (head_data 0 bl d) = 0.
Proof. intros Hd. destruct (head_data_spec 0 bl d ltac:(lia) Hd) as (_ & H & _). unfold head_n. by rewrite H. Qed.

(** The log that the next boot reads from such a header. *)
Lemma head_log_tx L hd Lr : has_tx L hd -> 0 <= lh_n L <= LOGBLOCKS -> length (lh_block Lr) = 30%nat ->
  log_start Lr = log_start L -> log_dev Lr = log_dev L ->
  let L' := head_log hd Lr in
  ntx L' = ntx L /\ hblock L' = hblock L /\ (forall i, slot L' i = slot L i) /\ (forall i, (i < ntx L)%nat -> home L' i = home L i).
Proof.
  intros [H1 H2] Hn Hl E1 E2 L'. unfold LOGBLOCKS, MAXOPBLOCKS in Hn. split; [|split; [|split]].
  - unfold ntx, L', head_log. cbn [lh_n set_lh_block set_lh_n]. by rewrite H1.
  - unfold hblock, L', head_log. cbn [log_start set_lh_block set_lh_n]. by rewrite E1.
  - intros i. unfold slot, L', head_log. cbn [log_start set_lh_block set_lh_n]. by rewrite E1.
  - intros i Hi. unfold L'. rewrite head_log_home; [by apply H2|lia|]. rewrite H1. exact Hi.
Qed.

Lemma head_log_tx_ok L hd Lr : tx_ok L -> has_tx L hd -> length (lh_block Lr) = 30%nat ->
  log_start Lr = log_start L -> log_dev Lr = log_dev L -> tx_ok (head_log hd Lr).
Proof.
  intros T Ht Hl E1 E2. destruct (head_log_tx L hd Lr Ht (tx_n _ L T) Hl E1 E2) as (N & Hb & Sl & Hm).
  assert (map (home (head_log hd Lr)) (seq 0 (ntx L)) = map (home L) (seq 0 (ntx L))) as Em.
  { apply map_ext_in. intros i Hi. apply in_seq in Hi. apply Hm. lia. }
  split; rewrite ?N, ?Hb.
  - unfold head_log. cbn [log_dev set_lh_block set_lh_n]. rewrite E2. apply T.
  - unfold head_log. cbn [lh_n set_lh_block set_lh_n]. rewrite (ht_n L hd Ht). apply T.
  - rewrite Em. apply T.
  - intros i j Hi Hj. rewrite !Sl. by apply T.
  - intros i j Hi Hj. rewrite Sl, Hm by done. by apply T.
  - intros i Hi. rewrite Hm by done. by apply T.
  - intros i Hi. rewrite Sl. by apply T.
Qed.

Lemma head_log_none hd Lr : head_n hd = 0 -> log_dev Lr = dev ->
  tx_ok (head_log hd Lr) /\ ntx (head_log hd Lr) = O /\ hblock (head_log hd Lr) = hblock Lr.
Proof.
  intros E Ed. assert (ntx (head_log hd Lr) = O) as N by (unfold ntx, head_log; cbn [lh_n set_lh_block set_lh_n]; by rewrite E).
  split; [|done]. split; rewrite ?N; try (intros; lia); try done; [|constructor].
  unfold head_log. cbn [lh_n set_lh_block set_lh_n]. rewrite E. done.
Qed.

(** ** The disk at a crash *)

Lemma not_taken (w : list (Z * list Z)) j bn : (bn ∉ map fst w) -> bn ∉ map fst (take j w).
Proof.
  intros N H. apply N. apply list_elem_of_fmap in H as (x & -> & Hx). apply list_elem_of_fmap. exists x.
  split; [done|]. rewrite <- (take_drop j w). apply elem_of_app. by left.
Qed.

Lemma not_home s L bn : (bn ∉ map (home L) (seq 0 (ntx L))) -> bn ∉ map fst (new_writes dev s L).
Proof. intros N. unfold new_writes. rewrite map_map. exact N. Qed.

Lemma length_log_writes s L k : length (log_writes dev s L k) = k.
Proof. unfold log_writes. by rewrite length_map, length_seq. Qed.

Lemma length_new_writes s L : length (new_writes dev s L) = ntx L.
Proof. unfold new_writes. by rewrite length_map, length_seq. Qed.

Lemma homes_elem L i : (i < ntx L)%nat -> home L i ∈ map (home L) (seq 0 (ntx L)).
Proof. intros H. apply list_elem_of_fmap. exists i. split; [done|]. apply elem_of_seq. lia. Qed.

Lemma head_not_home L : tx_ok L -> hblock L ∉ map (home L) (seq 0 (ntx L)).
Proof.
  intros T H. apply list_elem_of_fmap in H as (i & Ei & Hi). apply elem_of_seq in Hi.
  by apply (tx_home_head _ L T i); [lia|].
Qed.

Lemma slot_not_home L i : tx_ok L -> (i < ntx L)%nat -> slot L i ∉ map (home L) (seq 0 (ntx L)).
Proof.
  intros T Hi H. apply list_elem_of_fmap in H as (k & Ek & Hk). apply elem_of_seq in Hk.
  by apply (tx_home_slot _ L T k i); [lia|..].
Qed.

(** Before the header is written: the old disk, but for the slots. *)
Lemma crash_early s L j f bn : (j <= ntx L)%nat -> (forall i, (i < ntx L)%nat -> bn <> slot L i) ->
  writes f (take j (commit_writes dev s L)) bn = f bn.
Proof.
  intros Hj N. apply writes_out. unfold commit_writes. rewrite take_app_le by (rewrite length_log_writes; lia).
  by apply not_taken, not_slot.
Qed.

(** After the header is written and before it is erased. *)
Lemma crash_mid s L j f bn : tx_ok L -> (ntx L < j <= 2 * ntx L + 1)%nat ->
  let h1 := head_data (lh_n L) (lh_block L) (view s (hblock L)) in
  let d := writes f (take j (commit_writes dev s L)) in
  d (hblock L) = h1 /\ (forall i, (i < ntx L)%nat -> d (slot L i) = view s (home L i)) /\
  (outside L bn -> (bn ∉ map (home L) (seq 0 (ntx L))) -> d bn = f bn).
Proof.
  intros T Hj h1 d.
  assert (take j (commit_writes dev s L) =
    log_writes dev s L (ntx L) ++ [(hblock L, h1)] ++ take (j - ntx L - 1) (new_writes dev s L)) as E.
  { unfold commit_writes. fold h1. rewrite take_app_ge by (rewrite length_log_writes; lia). f_equal.
    rewrite length_log_writes. destruct (j - ntx L)%nat as [|m] eqn:Em; [lia|]. cbn [take app]. f_equal.
    rewrite take_app_le by (rewrite length_new_writes; lia). f_equal. lia. }
  unfold d. rewrite E, !writes_app. split; [|split].
  - rewrite writes_out.
    + unfold writes at 1. simpl. unfold upd. by rewrite Z.eqb_refl.
    + by apply not_taken, not_home, head_not_home.
  - intros i Hi. rewrite writes_out, writes_out.
    + by apply slot_writes_at.
    + simpl. rewrite elem_of_cons, elem_of_nil. intros [X|[]]. by apply (tx_slot_head _ L T i).
    + by apply not_taken, not_home, slot_not_home.
  - intros [O1 O2] Nh. rewrite !writes_out; [done| | |].
    + by apply not_slot.
    + simpl. rewrite elem_of_cons, elem_of_nil. tauto.
    + by apply not_taken, not_home.
Qed.

(** After the commit. *)
Lemma crash_late s L j f bn : tx_ok L -> (2 * ntx L + 2 <= j)%nat ->
  let h1 := head_data (lh_n L) (lh_block L) (view s (hblock L)) in
  let d := writes f (take j (commit_writes dev s L)) in
  d (hblock L) = head_data 0 (lh_block L) h1 /\
  (outside L bn -> d bn = if decide (bn ∈ map (home L) (seq 0 (ntx L))) then view s bn else f bn).
Proof.
  intros T Hj h1 d.
  assert (take j (commit_writes dev s L) = commit_writes dev s L) as E.
  { apply take_ge. unfold commit_writes. rewrite !length_app, length_log_writes, length_new_writes. simpl. lia. }
  unfold d. rewrite E. unfold commit_writes. fold h1. rewrite !writes_app. split.
  - unfold writes at 1. simpl. unfold upd. by rewrite Z.eqb_refl.
  - intros [O1 O2]. rewrite writes_out by (simpl; rewrite elem_of_cons, elem_of_nil; tauto).
    case_decide as H.
    + apply list_elem_of_fmap in H as (i & -> & Hi). apply writes_in.
      * unfold new_writes. rewrite map_map. apply T.
      * unfold new_writes. apply list_elem_of_fmap. eauto.
    + rewrite !writes_out; [done|by apply not_slot| |by apply not_home].
      simpl. rewrite elem_of_cons, elem_of_nil. tauto.
Qed.

(** ** The next boot *)

(** A kernel that has just booted on a disk with the contents [dsk], with the
    log at the place it was. *)
Record booted (L : logstate) (dsk : Z -> list Z) (r : kstate) : Prop := {
  bo_calm : calm me r;
  bo_procs : goodp me pid (k_procs r);
  bo_locks : k_locks r = ∅;
  bo_settled : settled [] r;
  bo_start : log_start (k_log r) = log_start L;
  bo_dev : log_dev (k_log r) = log_dev L;
  bo_len : length (lh_block (k_log r)) = 30%nat;
  bo_disk bn : block r bn = dsk bn;
}.

Lemma recover_run r : calm me r -> goodp me pid (k_procs r) -> k_locks r = ∅ -> settled [] r ->
  let L := head_log (block r (hblock (k_log r))) (k_log r) in tx_ok L ->
  exists r', recover_from_log fuel r = Ret tt r' /\
    forall bn, block r' bn = writes (block r) (recover_writes (block r) L) bn.
Proof.
  intros C G E S L T. destruct (recover_spec me pid dev fuel r S T) as (r' & D1 & S' & B' & _).
  destruct (does_run me pid _ _ _ _ D1 C G E) as (P & _ & X). eexists. split; [exact X|]. exact B'.
Qed.

Lemma boot_hblock L dsk r : booted L dsk r -> hblock (k_log r) = hblock L.
Proof. intros B. unfold hblock. by rewrite (bo_start _ _ _ B). Qed.

(** No transaction in the header: nothing changes. *)
Lemma boot_none L dsk r : booted L dsk r -> log_dev L = dev -> head_n (dsk (hblock L)) = 0 ->
  exists r', recover_from_log fuel r = Ret tt r' /\ forall bn, bn <> hblock L -> block r' bn = dsk bn.
Proof.
  intros B Ed Hn. pose proof (boot_hblock L dsk r B) as Hh.
  destruct (head_log_none (block r (hblock (k_log r))) (k_log r)) as (T & N & Hb).
  { by rewrite Hh, (bo_disk _ _ _ B). } { by rewrite (bo_dev _ _ _ B). }
  destruct (recover_run r) as (r' & X & Y); try apply B; [done|]. exists r'. split; [done|].
  intros bn Hbn. rewrite Y, recover_none; [apply B|done|]. by rewrite Hb, Hh.
Qed.

(** The transaction of [L] in the header, and its blocks in the slots. *)
Lemma boot_some L dsk r new : booted L dsk r -> tx_ok L -> has_tx L (dsk (hblock L)) ->
  (forall i, (i < ntx L)%nat -> dsk (slot L i) = new (home L i)) ->
  exists r', recover_from_log fuel r = Ret tt r' /\
    forall bn, bn <> hblock L -> block r' bn = if decide (bn ∈ map (home L) (seq 0 (ntx L))) then new bn else dsk bn.
Proof.
  intros B T Ht Hs. pose proof (boot_hblock L dsk r B) as Hh. rewrite <- (bo_disk _ _ _ B) in Ht.
  destruct (head_log_tx L _ (k_log r) Ht (tx_n _ L T) (bo_len _ _ _ B) (bo_start _ _ _ B) (bo_dev _ _ _ B)) as (N & Hb & Sl & Hm).
  pose proof (head_log_tx_ok L _ (k_log r) T Ht (bo_len _ _ _ B) (bo_start _ _ _ B) (bo_dev _ _ _ B)) as T'.
  destruct (recover_run r) as (r' & X & Y); try apply B; rewrite Hh in *; [done|]. exists r'. split; [done|].
  intros bn Hbn. rewrite Y, (recover_some _ _ new); [|done|by rewrite Hb|].
  - rewrite N. rewrite (map_ext_in _ (home L)) by (intros i Hi; apply in_seq in Hi; apply Hm; lia).
    case_decide; [done|apply B].
  - intros i Hi. rewrite N in Hi. rewrite Sl, Hm, (bo_disk _ _ _ B) by done. by apply Hs.
Qed.

(** What the next boot recovers when the first [j] of the writes of commit()
    have reached the disk. *)
Lemma commit_cut s L j r : settled (map (home L) (seq 0 (ntx L))) s -> tx_ok L ->
  length (block s (hblock L)) = 1024%nat -> head_n (block s (hblock L)) = 0 ->
  booted L (writes (block s) (take j (commit_writes dev s L))) r ->
  exists r', recover_from_log fuel r = Ret tt r' /\
    forall bn, outside L bn -> block r' bn = if (ntx L <? j)%nat then view s bn else block s bn.
Proof.
  intros S T Hl H0 B. pose proof (settled_clean dev _ _ s S (head_not_home L T)) as Vh.
  destruct (head_data_tx L (view s (hblock L)) (tx_n _ L T) ltac:(by rewrite Vh)) as [Ht Hlen].
  destruct (Nat.ltb_spec (ntx L) j) as [Hj|Hj].
  - destruct (decide (j <= 2 * ntx L + 1)%nat) as [Hm|Hm].
    + destruct (crash_mid s L j (block s) 0 T ltac:(lia)) as (M1 & M2 & _).
      destruct (boot_some L _ r (view s) B T) as (r' & R1 & R2); [by rewrite M1|exact M2|].
      exists r'. split; [done|]. intros bn O. rewrite R2 by apply O. case_decide as Hd; [done|].
      destruct (crash_mid s L j (block s) bn T ltac:(lia)) as (_ & _ & M3). rewrite M3 by done.
      symmetry. by apply (settled_clean dev _ _ s S).
    + destruct (crash_late s L j (block s) 0 T ltac:(lia)) as (M1 & _).
      destruct (boot_none L _ r B (tx_dev _ L T)) as (r' & R1 & R2); [rewrite M1; by apply head_data_none|].
      exists r'. split; [done|]. intros bn O. rewrite R2 by apply O.
      destruct (crash_late s L j (block s) bn T ltac:(lia)) as (_ & M2). rewrite M2 by done.
      case_decide as Hd; [done|]. symmetry. by apply (settled_clean dev _ _ s S).
  - destruct (boot_none L _ r B (tx_dev _ L T)) as (r' & R1 & R2).
    { rewrite crash_early; [done|lia|]. intros i Hi E1. by apply (tx_slot_head _ L T i). }
    exists r'. split; [done|]. intros bn O. rewrite R2 by apply O. apply crash_early; [lia|apply O].
Qed.


(** ** Crashes of the recovery *)

Lemma has_tx_head_log hd Lr : head_n hd <= Z.of_nat (length (lh_block Lr)) -> has_tx (head_log hd Lr) hd.
Proof.
  intros Hn. split; [done|]. intros i Hi. symmetry. apply head_log_home; [done|]. exact Hi.
Qed.

Lemma recover_home dsk L i : tx_ok L -> (i < ntx L)%nat -> writes dsk (recover_writes dsk L) (home L i) = dsk (slot L i).
Proof.
  intros T Hi. unfold recover_writes. rewrite writes_app, (writes_out _ [_]).
  - apply writes_in.
    + rewrite map_map. apply T.
    + apply list_elem_of_fmap. exists i. split; [done|]. apply elem_of_seq. lia.
  - simpl. rewrite elem_of_cons, elem_of_nil. intros [X|[]]. by apply (tx_home_head _ L T i).
Qed.

Lemma recover_early dsk L j bn : (j <= ntx L)%nat -> (bn ∉ map (home L) (seq 0 (ntx L))) ->
  writes dsk (take j (recover_writes dsk L)) bn = dsk bn.
Proof.
  intros Hj N. apply writes_out. unfold recover_writes. rewrite take_app_le by (rewrite length_map, length_seq; lia).
  apply not_taken. by rewrite map_map.
Qed.

Lemma recover_late dsk L j : (ntx L < j)%nat -> take j (recover_writes dsk L) = recover_writes dsk L.
Proof. intros Hj. apply take_ge. unfold recover_writes. rewrite length_app, length_map, length_seq. simpl. lia. Qed.

Lemma recover_header dsk L : writes dsk (recover_writes dsk L) (hblock L) = head_data 0 (lh_block L) (dsk (hblock L)).
Proof. unfold recover_writes. rewrite writes_app. unfold writes at 1. simpl. unfold upd. by rewrite Z.eqb_refl. Qed.

End Crash.

(** ** The first cache *)

(** The buffers before and after binit(); [d] is what their data bytes have. *)
Definition bss_bufs (d : list Z) : list buf := replicate (S NBUF) (set_b_data d zero_buf).
Definition ring_buf (d : list Z) (i : nat) : buf :=
  set_b_data d (set_b_prev (if (i =? NBUF)%nat then O else S i) (set_b_next (if (i =? 0)%nat then NBUF else (i - 1)%nat) zero_buf)).

(** One turn of the loop of binit(), on the buffers. *)
Definition upd_buf (i : nat) (f : buf -> buf) (l : list buf) : list buf := <[i := f (nth i l zero_buf)]> l.
Definition upd_lock (f : sleeplock -> sleeplock) (x : buf) : buf := set_b_lock (f (b_lock x)) x.
Definition link_buf (l : list buf) (b : nat) : list buf :=
  let l1 := upd_buf b (set_b_prev NBUF) (upd_buf b (set_b_next (b_next (nth NBUF l zero_buf))) l) in
  let l2 := upd_buf b (upd_lock (set_sl_pid 0)) (upd_buf b (upd_lock (set_sl_locked 0)) l1) in
  upd_buf NBUF (set_b_next b) (upd_buf (b_next (nth NBUF l2 zero_buf)) (set_b_prev b) l2).

Definition link_step (b : nat) (s : kstate) : kstate :=
  set_k_bufs (link_buf (k_bufs s) b) (set_k_locks (delete (LSleep (SlBuf b)) (k_locks s)) s).

Lemma link_steps idx s : k_bufs (fold_left (fun s b => link_step b s) idx s) = fold_left link_buf idx (k_bufs s).
Proof. revert s. induction idx as [|b idx IH]; intros s; [done|]. cbn [fold_left]. by rewrite IH. Qed.

Lemma link_steps_disk idx s : k_disk (fold_left (fun s b => link_step b s) idx s) = k_disk s.
Proof. revert s. induction idx as [|b idx IH]; intros s; [done|]. cbn [fold_left]. by rewrite IH. Qed.

Lemma binit_run s d : k_bufs s = bss_bufs d -> exists s',
  binit s = Ret tt s' /\ k_bufs s' = map (ring_buf d) (seq 0 (S NBUF)) /\ k_disk s' = k_disk s.
Proof.
  intros E. set (s1 := set_k_bufs (upd_buf NBUF (set_b_next NBUF) (upd_buf NBUF (set_b_prev NBUF) (k_bufs s))) (set_k_locks (delete LBcache (k_locks s)) s)).
  destruct (kfor_fold (fun b => link_first b ;; initsleeplock (SlBuf b) ;; h ← getbuf NBUF; updbuf h.(b_next) (set_b_prev b) ;; updbuf NBUF (set_b_next b))
    link_step (fun _ => True) (seq 0 NBUF) ltac:(done) s1 I) as [X _].
  eexists. split; [exact X|]. rewrite link_steps, link_steps_disk. unfold s1. cbn [k_bufs set_k_bufs]. rewrite E.
  split; [vm_compute; reflexivity|done].
Qed.

(** Buffers in the ring that binit() makes. *)
Definition ring_links (s : kstate) : Prop :=
  length (k_bufs s) = S NBUF /\
  forall i, (i <= NBUF)%nat -> nx s i = (if (i =? 0)%nat then NBUF else (i - 1)%nat) /\ pv s i = (if (i =? NBUF)%nat then O else S i).

Lemma ring_lru s : ring_links s -> lru_ok s (rev (seq 0 NBUF)).
Proof.
  intros [Hl H]. split; [by rewrite <- Permutation_rev| |done]. unfold ringed.
  change (NBUF :: rev (seq 0 NBUF) ++ [NBUF]) with (rev (seq 0 (S NBUF)) ++ [NBUF]).
  assert (forall n, (n <= NBUF)%nat -> chain (nx s) (pv s) (rev (seq 0 (S n)) ++ [NBUF])) as X; [|by apply X].
  intros n. induction n as [|n IH]; intros Hn.
  - cbn. destruct (H O ltac:(lia)) as [-> _]. destruct (H NBUF ltac:(lia)) as [_ ->]. done.
  - rewrite seq_S, rev_app_distr. change (rev [(0 + S n)%nat] ++ rev (seq 0 (S n))) with (S n :: rev (seq 0 (S n))).
    specialize (IH ltac:(lia)). rewrite seq_S, rev_app_distr in IH |- *.
    change (rev [(0 + n)%nat] ++ rev (seq 0 n)) with (n :: rev (seq 0 n)) in IH |- *. cbn [app chain] in IH |- *.
    destruct (H (S n) Hn) as [-> _]. destruct (H n ltac:(lia)) as [_ ->].
    split; [simpl; lia|]. split; [|exact IH]. by rewrite (proj2 (Nat.eqb_neq n NBUF)) by lia.
Qed.

Lemma ring_fresh s d : k_bufs s = map (ring_buf d) (seq 0 (S NBUF)) ->
  forall i, (i <= NBUF)%nat -> bf s i = ring_buf d i.
Proof.
  intros E i Hi. unfold bf. rewrite E. rewrite (nth_indep _ _ (ring_buf d 0)) by (rewrite length_map, length_seq; lia).
  rewrite map_nth, seq_nth by lia. done.
Qed.

Lemma fresh_ring s d : k_bufs s = map (ring_buf d) (seq 0 (S NBUF)) -> ring_links s.
Proof.
  intros E. split; [by rewrite E|]. intros i Hi. unfold nx, pv. by rewrite (ring_fresh s d E i Hi).
Qed.

Lemma fresh_settled s d dev : dev <> 0 -> k_bufs s = map (ring_buf d) (seq 0 (S NBUF)) -> settled dev [] s.
Proof.
  intros Hd E. pose proof (ring_fresh s d E) as F. split; [split| | | |].
  - eexists. by eapply ring_lru, fresh_ring.
  - intros i j bn Hi Hj H. rewrite F in H by lia. apply holds_true in H as [H _]. by destruct Hd.
  - intros i Hi _ H. rewrite F in H by lia. by destruct Hd.
  - intros i Hi _. by rewrite F by lia.
  - intros i Hi. by rewrite F by lia.
  - intros i Hi. by rewrite F by lia.
  - intros i Hi. left. by rewrite F by lia.
  - intros bn H. by apply not_elem_of_nil in H.
  - exists O. split; [unfold NBUF; lia|]. by rewrite F by lia.
Qed.

(** binit() makes a cache in which nothing is read yet and every
    buffer is free: from the zeroed buffers of the kernel's BSS it returns, and
    the ring, the reference counts and the locks satisfy the invariant of the
    buffer cache for every device number but 0. *)
Theorem binit_settled s d dev : dev <> 0 -> k_bufs s = bss_bufs d ->
  exists s', binit s = Ret tt s' /\ settled dev [] s' /\ k_disk s' = k_disk s.
Proof.
  intros Hd E. destruct (binit_run s d E) as (s' & X & Y & W). exists s'. split; [done|].
  split; [by apply (fresh_settled s' d)|done].
Qed.

(** ** Concrete runs *)

(** A disk that serves a request at once. *)
#[local] Instance sync_disk : Disk := {
  virtio_disk_rw b write := modify (fun s =>
    if write : bool then disk_put (b_blockno (bf s b)) (b_data (bf s b)) (setbuf b (set_b_disk 0 (bf s b)) s)
    else setbuf b (set_b_disk 0 (set_b_data (block s (b_blockno (bf s b))) (bf s b))) s);
}.

#[local] Instance sync_laws me pid : DiskLaws me pid sync_disk.
Proof.
  split; intros b s Hb Hl.
  - by apply (does_modify me pid [] (fun s => setbuf b (set_b_disk 0 (set_b_data (block s (b_blockno (bf s b))) (bf s b))) s)).
  - by apply (does_modify me pid [] (fun s => disk_put (b_blockno (bf s b)) (b_data (bf s b)) (setbuf b (set_b_disk 0 (bf s b)) s))).
Qed.

(** Process 0 runs, and the cache is as binit() left it. *)
Definition idle_state : kstate :=
  set_k_bufs (map (ring_buf zero_block) (seq 0 (S NBUF))) (set_k_cpu (mk_cpu 0 (Some 0%nat) 0 true true) bss).

(** A transaction with one block, number 50, in the log at block 2. *)
Definition one_log : logstate := mk_logstate 2 0 0 1 1 (50 :: replicate 29 0).
Definition new_block : list Z := replicate 1024 7.
Definition one_state : kstate :=
  setbuf 0 (mk_buf 1 0 1 50 zero_sleeplock 1 1 NBUF new_block) (set_k_log one_log idle_state).

Lemma idle_good : goodp 0 0 (k_procs idle_state).
Proof. split; [done|]. split; [unfold NPROC; lia|done]. Qed.

Lemma one_bufs i : (i < NBUF)%nat ->
  bf one_state i = if (i =? 0)%nat then mk_buf 1 0 1 50 zero_sleeplock 1 1 NBUF new_block else ring_buf zero_block i.
Proof.
  intros Hi. unfold one_state. rewrite bf_setbuf by (cbn; lia). destruct (i =? 0)%nat; [done|].
  apply (ring_fresh (set_k_log one_log idle_state)); [done|lia].
Qed.

Lemma one_lru : lru_ok one_state (rev (seq 0 NBUF)).
Proof.
  apply lru_setbuf; [|unfold NBUF; lia|done|done]. eapply ring_lru, fresh_ring. done.
Qed.

Lemma one_settled : settled 1 [50] one_state.
Proof.
  pose proof one_lru as L. pose proof one_bufs as F. set (s := one_state) in *. clearbody s. split; [split| | | |].
  - eauto.
  - intros i j bn Hi Hj. rewrite !F by done. rewrite !holds_true.
    destruct (Nat.eqb_spec i 0), (Nat.eqb_spec j 0); subst; cbn; intuition; discriminate.
  - intros i Hi. rewrite F by done. destruct (Nat.eqb_spec i 0); cbn; intros; discriminate.
  - intros i Hi. rewrite F by done. by destruct (Nat.eqb_spec i 0).
  - intros i Hi. rewrite F by done. by destruct (Nat.eqb_spec i 0).
  - intros i Hi. rewrite F by done. by destruct (Nat.eqb_spec i 0).
  - intros i Hi. rewrite F by done. destruct (Nat.eqb_spec i 0); [right|by left]. split; [done|]. exists 50. split; [apply elem_of_cons; by left|done].
  - intros bn H. apply elem_of_cons in H as [->|H]; [|by apply not_elem_of_nil in H].
    exists O. assert (0 < NBUF)%nat by (unfold NBUF; lia). rewrite F by done. done.
  - exists 1%nat. assert (1 < NBUF)%nat by (unfold NBUF; lia). rewrite F by done. done.
Qed.

Lemma one_tx : tx_ok 1 one_log.
Proof.
  split; change (ntx one_log) with 1%nat; try (intros [|i]; [|lia]; done); try done.
  - apply NoDup_singleton.
  - intros i j Hi Hj _. lia.
  - intros [|i] [|j] Hi Hj; try lia. done.
Qed.

(** The state of the next boot, on what the writes [w] left of the disk. *)
Definition reboot (w : list (Z * list Z)) : kstate :=
  set_k_disk (fold_left (fun m x => <[x.1 := x.2]> m) w ∅) (set_k_log (set_lh_n 0 one_log) idle_state).

Lemma block_writes w (m : gmap Z (list Z)) bn :
  default zero_block (fold_left (fun (m : gmap Z (list Z)) x => <[x.1 := x.2]> m) w m !! bn) =
  writes (fun bn => default zero_block (m !! bn)) w bn.
Proof.
  revert m. induction w as [|[k d] w IH]; intros m; [done|]. cbn [fold_left writes fst snd]. rewrite IH.
  apply writes_ext. intros bn'. unfold upd. destruct (Z.eqb_spec bn' k) as [->|N].
  - by rewrite lookup_insert_eq.
  - by rewrite lookup_insert_ne.
Qed.

Lemma reboot_booted L w w0 : log_start L = 2 -> log_dev L = 1 ->
  booted 0 0 1 L (writes (block (reboot w0)) w) (reboot (w0 ++ w)).
Proof.
  intros E1 E2. split; try done.
  - exact idle_good.
  - unfold reboot. by apply (fresh_settled _ zero_block).
  - intros bn. unfold block, reboot. cbn [k_disk set_k_disk]. rewrite block_writes, writes_app.
    apply writes_ext. intros b. by rewrite block_writes.
Qed.


(** What reached the disk when a crash came after the header was written. *)
Definition torn : list (Z * list Z) := [(3, new_block); (2, head_data 1 (lh_block one_log) zero_block)].

Lemma torn_tx : tx_ok 1 (head_log (block (reboot torn) 2) (k_log (reboot torn))).
Proof.
  apply (head_log_tx_ok 1 one_log); try done; [exact one_tx|]. split; [by vm_compute|].
  intros [|i] Hi; [by vm_compute|]. change (ntx one_log) with 1%nat in Hi. lia.
Qed.


Lemma binit_settled_witness : exists s', binit bss = Ret tt s' /\ settled 1 [] s'.
Proof. destruct (binit_settled bss zero_block 1) as (s' & X & Y & _); [done|done|]. eauto. Defined.
