(* ===== verification/Fs.v ===== *)
(** * File system (kernel/fs.c), the code

    Blocks, inodes, directories and path names.  A [struct inode *] is the
    index of an entry of [k_itable] (None is the null pointer); path names are
    the bytes before the NUL.  [fuel] bounds how often a thread waits for a
    sleep lock or for log space. *)

From S2P Require Import Prelude Abi Riscv Memory KState KMonad Spinlock Kalloc Vm Proc Printf Sleeplock Bio Log.

Definition ROOTINO : Z := 1.
Definition FSMAGIC : Z := 0x10203040.
Definition NDIRECT : Z := 12.
Definition NINDIRECT : Z := BSIZE / 4.
Definition MAXFILE : Z := NDIRECT + NINDIRECT.
Definition IPB : Z := BSIZE / 64.
Definition IBLOCK (i : Z) (sb : superblock) : Z := u32 (i / IPB + sb.(sb_inodestart)).
Definition BPB : Z := BSIZE * 8.
Definition BBLOCK (b : Z) (sb : superblock) : Z := u32 (b / BPB + sb.(sb_bmapstart)).
Definition DIRENT : Z := 16.

Definition getsb : K superblock := gets (fun s => s.(k_sb)).
Definition getino (i : nat) : K inode := gets (fun s => nth i s.(k_itable) zero_inode).
Definition updino (i : nat) (f : inode -> inode) : K unit :=
  modify (fun s => set_k_itable (<[i := f (nth i s.(k_itable) zero_inode)]> s.(k_itable)) s).

(** Half words of a block. *)
Definition get_half (data : list Z) (off : Z) : Z := of_bytes (take 2 (drop (Z.to_nat off) data)).
Definition put_half (data : list Z) (off v : Z) : list Z := put_bytes data off (bytes_of 2 v).

(** The fields of [struct dinode] number [k] of an inode block, read into an
    inode and written from it. *)
Definition dinode_off (k : Z) : Z := 64 * k.
Definition dinode_type (data : list Z) (k : Z) : Z := s16 (get_half data (dinode_off k)).
Definition dinode_nlink (data : list Z) (k : Z) : Z := s16 (get_half data (dinode_off k + 6)).

Definition load_dinode (data : list Z) (k : Z) (ip : inode) : inode :=
  let o := dinode_off k in
  set_i_addrs (map (fun j => get_word data (o + 12 + 4 * Z.of_nat j)) (seq 0 13))
  (set_i_size (get_word data (o + 8))
  (set_i_nlink (dinode_nlink data k)
  (set_i_minor (s16 (get_half data (o + 4)))
  (set_i_major (s16 (get_half data (o + 2)))
  (set_i_type (dinode_type data k) ip))))).

Definition store_dinode (ip : inode) (k : Z) (data : list Z) : list Z :=
  let o := dinode_off k in
  let data := put_half data o ip.(i_type) in
  let data := put_half data (o + 2) ip.(i_major) in
  let data := put_half data (o + 4) ip.(i_minor) in
  let data := put_half data (o + 6) ip.(i_nlink) in
  let data := put_word data (o + 8) ip.(i_size) in
  put_bytes data (o + 12) (concat (map (bytes_of 4) ip.(i_addrs))).

(** Bits of a bitmap block: bit [bi] is bit [bi % 8] of byte [bi / 8]. *)
Definition bit_mask (bi : Z) : Z := Z.shiftl 1 (bi mod 8).
Definition bit_free (data : list Z) (bi : Z) : bool := Z.land (znth 0 data (bi / 8)) (bit_mask bi) =? 0.
Definition bit_set (data : list Z) (bi : Z) : list Z :=
  zupd data (bi / 8) (u8 (Z.lor (znth 0 data (bi / 8)) (bit_mask bi))).
Definition bit_clear (data : list Z) (bi : Z) : list Z :=
  zupd data (bi / 8) (u8 (Z.land (znth 0 data (bi / 8)) (Z.lnot (bit_mask bi)))).

(** The inner loop of balloc(): the first free bit from [bi] on, among [n]. *)
Fixpoint first_free (data : list Z) (bi : Z) (n : nat) : option Z :=
  match n with
  | O => None
  | S n' => if bit_free data bi then Some bi else first_free data (bi + 1) n'
  end.

(** The other end of readi() and writei(): an address of the calling process,
    an address of kernel memory, or a local variable with its bytes. *)
Inductive place := UserAt (a : Z) | KernAt (a : Z) | Local (bs : list Z).

(** ** Path names and directory entries *)

Fixpoint skip_slashes (path : list Z) : list Z :=
  match path with
  | c :: path' => if c =? 47 then skip_slashes path' else path
  | [] => []
  end.

(** The bytes up to a slash or the end, and what follows them. *)
Fixpoint take_elem (path : list Z) : list Z * list Z :=
  match path with
  | c :: path' =>
      if c =? 47 then ([], path) else let '(e, r) := take_elem path' in (c :: e, r)
  | [] => ([], [])
  end.

(** skipelem(): the rest of the path and the new contents of [name]. *)
Definition skipelem (path name : list Z) : option (list Z * list Z) :=
  let path := skip_slashes path in
  match path with
  | [] => None
  | _ =>
      let '(s, path) := take_elem path in
      let name := if (DIRSIZ <=? length s)%nat then put_bytes name 0 (take DIRSIZ s)
                  else put_bytes name 0 (s ++ [0]) in
      Some (skip_slashes path, name)
  end.

Definition namecmp (s t : list Z) : Z := lstrncmp DIRSIZ s t.

(** strncpy(s, t, n) into [n] bytes: [t] up to its NUL, padded with NULs. *)
Fixpoint lstrncpy (t : list Z) (n : nat) : list Z :=
  match n with
  | O => []
  | S n' =>
      let c := hd 0 t in
      if c =? 0 then replicate (S n') 0 else c :: lstrncpy (tl t) n'
  end.

(** [struct dirent]: a half word and a name. *)
Definition de_inum (de : list Z) : Z := get_half de 0.
Definition de_name (de : list Z) : list Z := drop 2 de.
Definition mk_dirent (inum : Z) (name : list Z) : list Z := bytes_of 2 inum ++ name.

Section Fs.
Context {L : Layout} {D : Disk}.
Variable fuel : nat.

Definition readsb (dev : Z) : K unit :=
  bp ← bread fuel dev 1;
  x ← getbuf bp;
  let w := get_word x.(b_data) in
  modify (set_k_sb (mk_superblock (w 0) (w 4) (w 8) (w 12) (w 16) (w 20) (w 24) (w 28))) ;;
  brelse bp.

Definition bzero (dev bno : Z) : K unit :=
  bp ← bread fuel dev bno;
  updbuf bp (set_b_data (replicate (Z.to_nat BSIZE) 0)) ;;
  log_write bp ;;
  brelse bp.

(** One iteration of the outer loop of balloc(), for [b = BPB * i]. *)
Definition balloc_one (dev : Z) (i : nat) : K (option Z) :=
  sb ← getsb;
  let b := BPB * Z.of_nat i in
  bp ← bread fuel dev (BBLOCK b sb);
  x ← getbuf bp;
  match first_free x.(b_data) 0 (Z.to_nat (Z.min BPB (sb.(sb_size) - b))) with
  | Some bi =>
      updbuf bp (fun x => set_b_data (bit_set x.(b_data) bi) x) ;;
      log_write bp ;;
      brelse bp ;;
      bzero dev (b + bi) ;;
      mret (Some (b + bi))
  | None =>
      brelse bp ;;
      mret None
  end.

Definition balloc (dev : Z) : K Z :=
  sb ← getsb;
  r ← kscan (seq 0 (Z.to_nat ((sb.(sb_size) + BPB - 1) / BPB))) (balloc_one dev);
  match r with
  | Some b => mret b
  | None => printf ("balloc: out of blocks" +:+ nl) [] ;; mret 0
  end.

Definition bfree (dev b : Z) : K unit :=
  sb ← getsb;
  bp ← bread fuel dev (BBLOCK b sb);
  let bi := b mod BPB in
  x ← getbuf bp;
  if bit_free x.(b_data) bi then kpanic "freeing free block" else
  updbuf bp (fun x => set_b_data (bit_clear x.(b_data) bi) x) ;;
  log_write bp ;;
  brelse bp.

Definition iinit : K unit :=
  initlock LItable ;;
  kfor (seq 0 NINODE) (fun i => initsleeplock (SlInode i)).

(** The scan of iget(): the entry that has the inode, and the first empty one. *)
Fixpoint iget_scan (idx : list nat) (dev inum : Z) (empty : option nat) : K (option nat * option nat) :=
  match idx with
  | [] => mret (None, empty)
  | i :: idx' =>
      ip ← getino i;
      if ((0 <? ip.(i_ref)) && (ip.(i_dev) =? dev) && (ip.(i_inum) =? inum))%bool then mret (Some i, empty)
      else iget_scan idx' dev inum
             (match empty with
              | None => if ip.(i_ref) =? 0 then Some i else None
              | Some _ => empty
              end)
  end.

Definition iget (dev inum : Z) : K nat :=
  acquire LItable ;;
  '(found, empty) ← iget_scan (seq 0 NINODE) dev inum None;
  match found with
  | Some i =>
      updino i (fun ip => set_i_ref (s32 (ip.(i_ref) + 1)) ip) ;;
      release LItable ;;
      mret i
  | None =>
      match empty with
      | None => kpanic "iget: no inodes"
      | Some i =>
          updino i (set_i_dev dev) ;;
          updino i (set_i_inum inum) ;;
          updino i (set_i_ref 1) ;;
          updino i (set_i_valid 0) ;;
          release LItable ;;
          mret i
      end
  end.

Definition ialloc_one (dev type : Z) (inum : nat) : K (option nat) :=
  sb ← getsb;
  bp ← bread fuel dev (IBLOCK (Z.of_nat inum) sb);
  x ← getbuf bp;
  let k := Z.of_nat inum mod IPB in
  if dinode_type x.(b_data) k =? 0 then
    updbuf bp (fun x => set_b_data (put_bytes x.(b_data) (dinode_off k) (replicate 64 0)) x) ;;
    updbuf bp (fun x => set_b_data (put_half x.(b_data) (dinode_off k) type) x) ;;
    log_write bp ;;
    brelse bp ;;
    i ← iget dev (Z.of_nat inum);
    mret (Some i)
  else
    brelse bp ;;
    mret None.

Definition ialloc (dev type : Z) : K (option nat) :=
  sb ← getsb;
  r ← kscan (seq 1 (Z.to_nat (sb.(sb_ninodes) - 1))) (ialloc_one dev type);
  match r with
  | Some i => mret (Some i)
  | None => printf ("ialloc: no inodes" +:+ nl) [] ;; mret None
  end.

Definition iupdate (i : nat) : K unit :=
  ip ← getino i;
  sb ← getsb;
  bp ← bread fuel ip.(i_dev) (IBLOCK ip.(i_inum) sb);
  ip ← getino i;
  updbuf bp (fun x => set_b_data (store_dinode ip (ip.(i_inum) mod IPB) x.(b_data)) x) ;;
  log_write bp ;;
  brelse bp.

Definition idup (i : nat) : K nat :=
  acquire LItable ;;
  updino i (fun ip => set_i_ref (s32 (ip.(i_ref) + 1)) ip) ;;
  release LItable ;;
  mret i.

Definition ilock (o : option nat) : K unit :=
  match o with
  | None => kpanic "ilock"
  | Some i =>
      ip ← getino i;
      if ip.(i_ref) <? 1 then kpanic "ilock" else
      acquiresleep fuel (SlInode i) ;;
      ip ← getino i;
      kwhen (ip.(i_valid) =? 0)
        (sb ← getsb;
         bp ← bread fuel ip.(i_dev) (IBLOCK ip.(i_inum) sb);
         x ← getbuf bp;
         updino i (load_dinode x.(b_data) (ip.(i_inum) mod IPB)) ;;
         brelse bp ;;
         updino i (set_i_valid 1) ;;
         ip ← getino i;
         if ip.(i_type) =? 0 then kpanic "ilock: no type" else mret tt)
  end.

Definition iunlock (o : option nat) : K unit :=
  match o with
  | None => kpanic "iunlock"
  | Some i =>
      h ← holdingsleep (SlInode i);
      if negb h then kpanic "iunlock" else
      ip ← getino i;
      if ip.(i_ref) <? 1 then kpanic "iunlock" else
      releasesleep (SlInode i)
  end.

Definition itrunc_direct (i : nat) (j : nat) : K unit :=
  ip ← getino i;
  let a := nth j ip.(i_addrs) 0 in
  kwhen (negb (a =? 0))
    (bfree ip.(i_dev) a ;;
     updino i (fun ip => set_i_addrs (<[j := 0]> ip.(i_addrs)) ip)).

Definition itrunc (i : nat) : K unit :=
  kfor (seq 0 (Z.to_nat NDIRECT)) (itrunc_direct i) ;;
  ip ← getino i;
  let ind := znth 0 ip.(i_addrs) NDIRECT in
  kwhen (negb (ind =? 0))
    (bp ← bread fuel ip.(i_dev) ind;
     kfor (seq 0 (Z.to_nat NINDIRECT)) (fun j =>
       x ← getbuf bp;
       let a := get_word x.(b_data) (4 * Z.of_nat j) in
       kwhen (negb (a =? 0)) (bfree ip.(i_dev) a)) ;;
     brelse bp ;;
     bfree ip.(i_dev) ind ;;
     updino i (fun ip => set_i_addrs (zupd ip.(i_addrs) NDIRECT 0) ip)) ;;
  updino i (set_i_size 0) ;;
  iupdate i.

Definition iput (i : nat) : K unit :=
  acquire LItable ;;
  ip ← getino i;
  kwhen ((ip.(i_ref) =? 1) && negb (ip.(i_valid) =? 0) && (ip.(i_nlink) =? 0))%bool
    (acquiresleep fuel (SlInode i) ;;
     release LItable ;;
     itrunc i ;;
     updino i (set_i_type 0) ;;
     iupdate i ;;
     updino i (set_i_valid 0) ;;
     releasesleep (SlInode i) ;;
     acquire LItable) ;;
  updino i (fun ip => set_i_ref (s32 (ip.(i_ref) - 1)) ip) ;;
  release LItable.

Definition iunlockput (i : nat) : K unit :=
  iunlock (Some i) ;;
  iput i.

Definition ireclaim_one (dev : Z) (inum : nat) : K unit :=
  sb ← getsb;
  bp ← bread fuel dev (IBLOCK (Z.of_nat inum) sb);
  x ← getbuf bp;
  let k := Z.of_nat inum mod IPB in
  o ← (if (negb (dinode_type x.(b_data) k =? 0) && (dinode_nlink x.(b_data) k =? 0))%bool
       then printf ("ireclaim: orphaned inode %d" +:+ nl) [PInt (Z.of_nat inum)] ;;
            i ← iget dev (Z.of_nat inum); mret (Some i)
       else mret None);
  brelse bp ;;
  match o with
  | None => mret tt
  | Some i =>
      begin_op fuel ;;
      ilock (Some i) ;;
      iunlock (Some i) ;;
      iput i ;;
      end_op fuel
  end.

Definition ireclaim (dev : Z) : K unit :=
  sb ← getsb;
  kfor (seq 1 (Z.to_nat (sb.(sb_ninodes) - 1))) (ireclaim_one dev).

Definition fsinit (dev : Z) : K unit :=
  readsb dev ;;
  sb ← getsb;
  if negb (sb.(sb_magic) =? FSMAGIC) then kpanic "invalid file system" else
  initlog fuel dev ;;
  ireclaim dev.

Definition bmap (i : nat) (bn : Z) : K Z :=
  ip ← getino i;
  if bn <? NDIRECT then
    let addr := znth 0 ip.(i_addrs) bn in
    if addr =? 0 then
      addr ← balloc ip.(i_dev);
      if addr =? 0 then mret 0 else
      updino i (fun ip => set_i_addrs (zupd ip.(i_addrs) bn addr) ip) ;;
      mret addr
    else mret addr
  else
  let bn := bn - NDIRECT in
  if bn <? NINDIRECT then
    let addr := znth 0 ip.(i_addrs) NDIRECT in
    addr ← (if addr =? 0 then
              addr ← balloc ip.(i_dev);
              kwhen (negb (addr =? 0))
                (updino i (fun ip => set_i_addrs (zupd ip.(i_addrs) NDIRECT addr) ip)) ;;
              mret addr
            else mret addr);
    if addr =? 0 then mret 0 else
    bp ← bread fuel ip.(i_dev) addr;
    x ← getbuf bp;
    let addr := get_word x.(b_data) (4 * bn) in
    addr ← (if addr =? 0 then
              addr ← balloc ip.(i_dev);
              kwhen (negb (addr =? 0))
                (updbuf bp (fun x => set_b_data (put_word x.(b_data) (4 * bn) addr) x) ;;
                 log_write bp) ;;
              mret addr
            else mret addr);
    brelse bp ;;
    mret addr
  else kpanic "bmap: out of range".

(** stati() over the 24 bytes of a [struct stat]; bytes 12 to 15 are padding. *)
Definition stati (ip : inode) (st : list Z) : list Z :=
  let st := put_word st 0 ip.(i_dev) in
  let st := put_word st 4 ip.(i_inum) in
  let st := put_half st 8 ip.(i_type) in
  let st := put_half st 10 ip.(i_nlink) in
  put_bytes st 16 (bytes_of 8 ip.(i_size)).

(** either_copyout() and either_copyin() [tot] bytes into the place. *)
Definition copy_to (dst : place) (tot : Z) (bs : list Z) : K Z :=
  match dst with
  | UserAt a => either_copyout true (u64 (a + tot)) bs
  | KernAt a => either_copyout false (u64 (a + tot)) bs
  | Local _ => _ ← myproc; mret 0
  end.

Definition copy_from (src : place) (tot : Z) (m : nat) : K (list Z * bool) :=
  match src with
  | UserAt a => either_copyin true (u64 (a + tot)) m
  | KernAt a => either_copyin false (u64 (a + tot)) m
  | Local bs => _ ← myproc; mret (take m (drop (Z.to_nat tot) bs), true)
  end.

(** The loop of readi(): the bytes read so far are [acc]; the result is [tot]
    and the bytes. *)
Fixpoint readi_loop (k : nat) (i : nat) (dst : place) (off n tot : Z) (acc : list Z) : K (Z * list Z) :=
  if tot <? n then
    match k with
    | O => unbounded
    | S k' =>
        addr ← bmap i (off / BSIZE);
        if addr =? 0 then mret (tot, acc) else
        ip ← getino i;
        bp ← bread fuel ip.(i_dev) addr;
        let m := Z.min (n - tot) (BSIZE - off mod BSIZE) in
        x ← getbuf bp;
        let bs := take (Z.to_nat m) (drop (Z.to_nat (off mod BSIZE)) x.(b_data)) in
        r ← copy_to dst tot bs;
        if r =? -1 then
          brelse bp ;;
          mret (-1, acc)
        else
          brelse bp ;;
          readi_loop k' i dst (off + m) n (tot + m) (acc ++ bs)
    end
  else mret (tot, acc).

(** readi(): its result, and the bytes it read. *)
Definition readi_bytes (i : nat) (dst : place) (off n : Z) : K (Z * list Z) :=
  ip ← getino i;
  if ((ip.(i_size) <? off) || (u32 (off + n) <? off))%bool then mret (0, []) else
  let n := if ip.(i_size) <? u32 (off + n) then ip.(i_size) - off else n in
  readi_loop (Z.to_nat (n / BSIZE) + 2) i dst off n 0 [].

Definition readi (i : nat) (dst : place) (off n : Z) : K Z :=
  '(r, _) ← readi_bytes i dst off n;
  mret (s32 r).

(** The loop of writei(): the final [tot] and [off]. *)
Fixpoint writei_loop (k : nat) (i : nat) (src : place) (off n tot : Z) : K (Z * Z) :=
  if tot <? n then
    match k with
    | O => unbounded
    | S k' =>
        addr ← bmap i (off / BSIZE);
        if addr =? 0 then mret (tot, off) else
        ip ← getino i;
        bp ← bread fuel ip.(i_dev) addr;
        let m := Z.min (n - tot) (BSIZE - off mod BSIZE) in
        '(bs, ok) ← copy_from src tot (Z.to_nat m);
        updbuf bp (fun x => set_b_data (put_bytes x.(b_data) (off mod BSIZE) bs) x) ;;
        if negb ok then
          brelse bp ;;
          mret (tot, off)
        else
          log_write bp ;;
          brelse bp ;;
          writei_loop k' i src (off + m) n (tot + m)
    end
  else mret (tot, off).

Definition writei (i : nat) (src : place) (off n : Z) : K Z :=
  ip ← getino i;
  if ((ip.(i_size) <? off) || (u32 (off + n) <? off))%bool then mret (-1) else
  if MAXFILE * BSIZE <? u32 (off + n) then mret (-1) else
  '(tot, off) ← writei_loop (Z.to_nat (n / BSIZE) + 2) i src off n 0;
  updino i (fun ip => if ip.(i_size) <? off then set_i_size off ip else ip) ;;
  iupdate i ;;
  mret (s32 tot).

(** Read the directory entry at [off]. *)
Definition read_dirent (i : nat) (off : Z) (msg : string) : K (list Z) :=
  '(r, de) ← readi_bytes i (Local []) off DIRENT;
  if negb (r =? DIRENT) then kpanic msg else mret de.

Fixpoint dirlookup_loop (k : nat) (i : nat) (name : list Z) (off : Z) : K (option (nat * Z)) :=
  dp ← getino i;
  if off <? dp.(i_size) then
    match k with
    | O => unbounded
    | S k' =>
        de ← read_dirent i off "dirlookup read";
        if de_inum de =? 0 then dirlookup_loop k' i name (off + DIRENT)
        else if namecmp name (de_name de) =? 0 then
          ip ← iget dp.(i_dev) (de_inum de);
          mret (Some (ip, off))
        else dirlookup_loop k' i name (off + DIRENT)
    end
  else mret None.

(** dirlookup(): the inode and the offset of its entry. *)
Definition dirlookup (i : nat) (name : list Z) : K (option (nat * Z)) :=
  dp ← getino i;
  if negb (dp.(i_type) =? T_DIR) then kpanic "dirlookup not DIR" else
  dirlookup_loop (Z.to_nat (dp.(i_size) / DIRENT) + 1) i name 0.

(** The second loop of dirlink(): the offset of the first empty entry. *)
Fixpoint empty_dirent (k : nat) (i : nat) (off : Z) : K Z :=
  dp ← getino i;
  if off <? dp.(i_size) then
    match k with
    | O => unbounded
    | S k' =>
        de ← read_dirent i off "dirlink read";
        if de_inum de =? 0 then mret off else empty_dirent k' i (off + DIRENT)
    end
  else mret off.

Definition dirlink (i : nat) (name : list Z) (inum : Z) : K Z :=
  o ← dirlookup i name;
  match o with
  | Some (ip, _) => iput ip ;; mret (-1)
  | None =>
      dp ← getino i;
      off ← empty_dirent (Z.to_nat (dp.(i_size) / DIRENT) + 1) i 0;
      r ← writei i (Local (mk_dirent inum (lstrncpy name DIRSIZ))) off DIRENT;
      mret (if r =? DIRENT then 0 else -1)
  end.

(** The loop of namex(); every path element takes at least one byte, so the
    length of the path bounds it.  The result is the inode and [name]. *)
Fixpoint namex_loop (k : nat) (ip : nat) (path : list Z) (parent : bool) (name : list Z)
  : K (option nat * list Z) :=
  match skipelem path name with
  | None =>
      if parent then iput ip ;; mret (None, name) else mret (Some ip, name)
  | Some (path, name) =>
      match k with
      | O => unbounded
      | S k' =>
          ilock (Some ip) ;;
          x ← getino ip;
          if negb (x.(i_type) =? T_DIR) then
            iunlockput ip ;;
            mret (None, name)
          else if (parent && match path with [] => true | _ => false end)%bool then
            iunlock (Some ip) ;;
            mret (Some ip, name)
          else
            o ← dirlookup ip name;
            match o with
            | None => iunlockput ip ;; mret (None, name)
            | Some (next, _) =>
                iunlockput ip ;;
                namex_loop k' next path parent name
            end
      end
  end.

Definition namex (path : list Z) (parent : bool) (name : list Z) : K (option nat * list Z) :=
  ip ← (if hd 0 path =? 47 then iget ROOTDEV ROOTINO
        else
          '(_, p) ← curproc;
          match p.(p_cwd) with
          | Some c => idup c
          | None => kpanic "kerneltrap"
          end);
  namex_loop (length path) ip path parent name.

Definition namei (path : list Z) : K (option nat) :=
  '(ip, _) ← namex path false (replicate DIRSIZ 0);
  mret ip.

Definition nameiparent (path : list Z) : K (option nat * list Z) :=
  namex path true (replicate DIRSIZ 0).

End Fs.
