(* ===== verification/FsView.v ===== *)
(** * Files as the disk holds them (kernel/fs.c, kernel/fs.h)

    The inode, the addresses of its blocks and its bytes, for a disk on which
    block [bn] has the contents [v bn]. *)

From S2P Require Import Prelude Riscv Memory KState KMonad Spinlock Kalloc Vm Proc Printf Sleeplock Bio Log Fs.

(** An inode as ilock() reads it. *)
Definition inode_at (v : Z -> list Z) (sb : superblock) (inum : Z) : inode := load_dinode (v (IBLOCK inum sb)) (inum mod IPB) zero_inode.

(** The address of a block as bmap() finds it; 0 is a block that has not been
    allocated. *)
Definition iaddr (v : Z -> list Z) (ip : inode) (f : Z) : Z :=
  if f <? NDIRECT then znth 0 (i_addrs ip) f
  else if znth 0 (i_addrs ip) NDIRECT =? 0 then 0 else get_word (v (znth 0 (i_addrs ip) NDIRECT)) (4 * (f - NDIRECT)).

(** The blocks of a file of [n] bytes. *)
Definition nblk (n : Z) : Z := (n + 1023) / 1024.

Lemma nblk_spec n : 0 <= n -> n <= 1024 * nblk n < n + 1024.
Proof. intros H. unfold nblk. pose proof (Z.div_mod (n + 1023) 1024). pose proof (Z.mod_pos_bound (n + 1023) 1024). lia. Qed.

(** The bytes of a file. *)
Definition file_blocks (v : Z -> list Z) (ip : inode) (k : nat) : list Z := concat (map (fun f => v (iaddr v ip (Z.of_nat f))) (seq 0 k)).
Definition file_data (v : Z -> list Z) (ip : inode) : list Z := take (Z.to_nat (i_size ip)) (file_blocks v ip (Z.to_nat (nblk (i_size ip)))).

(** The blocks of the file are allocated and have their length. *)
Definition file_sound (v : Z -> list Z) (ip : inode) : Prop :=
  0 <= i_size ip <= 1024 * MAXFILE /\
  forall f, 0 <= f < nblk (i_size ip) -> iaddr v ip f <> 0 /\ length (v (iaddr v ip f)) = 1024%nat.

Lemma length_file_blocks v ip k : (forall f, 0 <= f < Z.of_nat k -> length (v (iaddr v ip f)) = 1024%nat) ->
  length (file_blocks v ip k) = (1024 * k)%nat.
Proof.
  induction k as [|k IH]; intros H; [done|]. unfold file_blocks. rewrite seq_S, map_app, concat_app, length_app. cbn [map concat Nat.add].
  rewrite app_nil_r, H by lia. unfold file_blocks in IH. rewrite IH; [lia|]. intros f Hf. apply H. lia.
Qed.

Lemma length_file_data v ip : file_sound v ip -> Z.of_nat (length (file_data v ip)) = i_size ip.
Proof.
  intros [H1 H2]. pose proof (nblk_spec (i_size ip) ltac:(lia)). unfold file_data. rewrite length_take, length_file_blocks; [lia|].
  intros f Hf. apply H2. lia.
Qed.

(** A part of one block of a list of blocks. *)
Lemma block_slice v ip k f o m : (forall g, 0 <= g < Z.of_nat k -> length (v (iaddr v ip g)) = 1024%nat) -> (f < k)%nat -> (o + m <= 1024)%nat ->
  take m (drop o (v (iaddr v ip (Z.of_nat f)))) = take m (drop (1024 * f + o) (file_blocks v ip k)).
Proof.
  intros H Hf Ho. unfold file_blocks. replace k with (f + S (k - S f))%nat by lia. rewrite seq_app, map_app, concat_app. cbn [seq map concat Nat.add].
  pose proof (length_file_blocks v ip f) as Lf. unfold file_blocks in Lf. specialize (H (Z.of_nat f) ltac:(lia)) as Lb.
  rewrite <- drop_drop, drop_app_length' by (rewrite Lf; [done|]; intros g Hg; apply H; lia). rewrite drop_app_le by lia.
  rewrite take_app_le by (rewrite length_drop; lia). done.
Qed.

(** What readi() copies from one block. *)
Lemma file_slice v ip off m : file_sound v ip -> 0 <= off -> 0 <= m -> off + m <= i_size ip -> m <= 1024 - off mod 1024 -> off < i_size ip ->
  take (Z.to_nat m) (drop (Z.to_nat (off mod 1024)) (v (iaddr v ip (off / 1024)))) = take (Z.to_nat m) (drop (Z.to_nat off) (file_data v ip)).
Proof.
  intros [H1 H2] Ho Hm Hs Hb Hl. pose proof (nblk_spec (i_size ip) ltac:(lia)) as Rn. pose proof (Z.div_mod off 1024 ltac:(lia)) as Dm.
  pose proof (Z.mod_pos_bound off 1024 ltac:(lia)) as Rm. assert (0 <= off / 1024) as R0 by (apply Z.div_pos; lia).
  assert (off / 1024 < nblk (i_size ip)) as R1 by lia.
  pose proof (block_slice v ip (Z.to_nat (nblk (i_size ip))) (Z.to_nat (off / 1024)) (Z.to_nat (off mod 1024)) (Z.to_nat m)) as B.
  rewrite !Z2Nat.id in B by lia. rewrite B by (try (intros g Hg; apply H2); lia).
  unfold file_data. replace (1024 * Z.to_nat (off / 1024) + Z.to_nat (off mod 1024))%nat with (Z.to_nat off) by lia.
  rewrite skipn_firstn_comm, take_take. f_equal. lia.
Qed.
