(* ===== verification/Mkfs.v ===== *)
(** * The tool that builds the disk image (mkfs/mkfs.c)

    The image is a file of sectors; a sector that has never been written
    cannot be read.  The host is a parameter: whether the image can be opened,
    which sectors of it fail, and for each file to copy what open() and the
    read()s of it return.  The host stores integers in little-endian order.
    perror() and the assertions end the program; what it prints is not kept. *)

From S2P Require Import Prelude Abi Riscv Memory KState KMonad Spinlock Kalloc Vm Proc Printf Sleeplock Bio Log Fs.

Definition NINODES : Z := 200.
Definition FSSIZE : Z := 2000.
Definition nbitmap : Z := FSSIZE / BPB + 1.
Definition ninodeblocks : Z := NINODES / IPB + 1.
Definition nlog : Z := LOGBLOCKS + 1.
Definition nmeta : Z := 2 + nlog + ninodeblocks + nbitmap.
Definition nblocks : Z := FSSIZE - nmeta.

Definition xshort (x : Z) : Z := of_bytes [u8 x; u8 (Z.shiftr x 8)].
Definition xint (x : Z) : Z := of_bytes [u8 x; u8 (Z.shiftr x 8); u8 (Z.shiftr x 16); u8 (Z.shiftr x 24)].

(** The super block that main() fills in. *)
Definition sb : superblock :=
  mk_superblock FSMAGIC (xint FSSIZE) (xint nblocks) (xint NINODES) (xint nlog) (xint 2) (xint (2 + nlog))
    (xint (2 + nlog + ninodeblocks)).

Definition sb_bytes : list Z :=
  concat (map (bytes_of 4) [sb_magic sb; sb_size sb; sb_nblocks sb; sb_ninodes sb; sb_nlog sb; sb_logstart sb; sb_inodestart sb; sb_bmapstart sb]).

(** [struct dinode] and its 64 bytes. *)
Record dinode := mk_dinode {
  d_type : Z;
  d_major : Z;
  d_minor : Z;
  d_nlink : Z;
  d_size : Z;
  d_addrs : list Z;
}.

Definition set_d_size (v : Z) (d : dinode) : dinode := mk_dinode (d_type d) (d_major d) (d_minor d) (d_nlink d) v (d_addrs d).
Definition set_d_addr (i v : Z) (d : dinode) : dinode :=
  mk_dinode (d_type d) (d_major d) (d_minor d) (d_nlink d) (d_size d) (zupd (d_addrs d) i v).

Definition dinode_bytes (d : dinode) : list Z :=
  bytes_of 2 (d_type d) ++ bytes_of 2 (d_major d) ++ bytes_of 2 (d_minor d) ++ bytes_of 2 (d_nlink d) ++
  bytes_of 4 (d_size d) ++ concat (map (bytes_of 4) (d_addrs d)).

Definition bytes_dinode (bs : list Z) : dinode :=
  mk_dinode (s16 (get_half bs 0)) (s16 (get_half bs 2)) (s16 (get_half bs 4)) (s16 (get_half bs 6)) (get_word bs 8)
    (map (fun j => get_word bs (12 + 4 * Z.of_nat j)) (seq 0 13)).

(** ** The program's state *)

Record mst := mk_mst { m_img : gmap Z (list Z); m_freeinode : Z; m_freeblock : Z }.

(** How the program ends before its last line: die() or a failed assertion. *)
Inductive stop := Died (msg : string) | Failed (what : string).

Definition M (A : Type) : Type := mst -> (A * mst) + stop.
#[export] Instance M_ret : MRet M := fun A a s => inl (a, s).
#[export] Instance M_bind : MBind M := fun A B f m s =>
  match m s with
  | inl (a, s') => f a s'
  | inr e => inr e
  end.

Definition die {A} (msg : string) : M A := fun _ => inr (Died msg).
Definition fail {A} (what : string) : M A := fun _ => inr (Failed what).
Definition assert_that (b : bool) (what : string) : M unit := if b then mret tt else fail what.

(** [freeblock++] and [freeinode++]. *)
Definition take_block : M Z := fun s => inl (m_freeblock s, mk_mst (m_img s) (m_freeinode s) (u32 (m_freeblock s + 1))).
Definition take_inode : M Z := fun s => inl (m_freeinode s, mk_mst (m_img s) (u32 (m_freeinode s + 1)) (m_freeblock s)).

Definition set_freeblock (b : Z) : M unit := fun s => inl (tt, mk_mst (m_img s) (m_freeinode s) b).
Definition get_freeblock : M Z := fun s => inl (m_freeblock s, s).

Definition zeroes : list Z := replicate (Z.to_nat BSIZE) 0.

Section Mkfs.
Variable opens : bool.
Variable bad : Z -> bool.
Variable host : list Z -> option (list (list Z)).

Definition wsect (sec : Z) (buf : list Z) : M unit := fun s =>
  if bad sec then die "write" s
  else inl (tt, mk_mst (<[sec := buf]> (m_img s)) (m_freeinode s) (m_freeblock s)).

Definition rsect (sec : Z) : M (list Z) := fun s =>
  if bad sec then die "read" s else
  match m_img s !! sec with
  | Some buf => inl (buf, s)
  | None => die "read" s
  end.

Definition winode (inum : Z) (d : dinode) : M unit :=
  let bn := IBLOCK inum sb in
  buf ← rsect bn;
  wsect bn (put_bytes buf (64 * (inum mod IPB)) (dinode_bytes d)).

Definition rinode (inum : Z) : M dinode :=
  buf ← rsect (IBLOCK inum sb);
  mret (bytes_dinode (take 64 (drop (Z.to_nat (64 * (inum mod IPB))) buf))).

Definition ialloc (type : Z) : M Z :=
  inum ← take_inode;
  winode inum (mk_dinode (xshort type) 0 0 (xshort 1) (xint 0) (replicate 13 0)) ;;
  mret inum.

Definition balloc (used : Z) : M unit :=
  assert_that (used <? BPB) "used < BPB" ;;
  wsect (sb_bmapstart sb) (fold_left (fun buf i => bit_set buf (Z.of_nat i)) (seq 0 (Z.to_nat used)) zeroes).

(** The block for [fbn] of a file with indirect block [ind], allocated if
    there is none. *)
Definition indirect_block (ind fbn : Z) : M Z :=
  indirect ← rsect ind;
  let o := 4 * (fbn - NDIRECT) in
  indirect ← (if get_word indirect o =? 0 then
                b ← take_block;
                let indirect := put_word indirect o (xint b) in
                wsect ind indirect ;;
                mret indirect
              else mret indirect);
  mret (xint (get_word indirect o)).

Definition file_block (din : dinode) (fbn : Z) : M (dinode * Z) :=
  if fbn <? NDIRECT then
    din ← (if xint (znth 0 (d_addrs din) fbn) =? 0 then b ← take_block; mret (set_d_addr fbn (xint b) din) else mret din);
    mret (din, xint (znth 0 (d_addrs din) fbn))
  else
    din ← (if xint (znth 0 (d_addrs din) NDIRECT) =? 0 then b ← take_block; mret (set_d_addr NDIRECT (xint b) din) else mret din);
    x ← indirect_block (xint (znth 0 (d_addrs din) NDIRECT)) fbn;
    mret (din, x).

(** The loop of iappend(): each turn copies at least a byte. *)
Fixpoint iappend_loop (fuel : nat) (din : dinode) (off : Z) (p : list Z) : M (dinode * Z) :=
  match p, fuel with
  | [], _ => mret (din, off)
  | _, O => fail "fuel"
  | _, S fuel' =>
      let fbn := off / BSIZE in
      assert_that (fbn <? MAXFILE) "fbn < MAXFILE" ;;
      '(din, x) ← file_block din fbn;
      let n1 := Z.min (Z.of_nat (length p)) ((fbn + 1) * BSIZE - off) in
      buf ← rsect x;
      wsect x (put_bytes buf (off - fbn * BSIZE) (take (Z.to_nat n1) p)) ;;
      iappend_loop fuel' din (u32 (off + n1)) (drop (Z.to_nat n1) p)
  end.

Definition iappend (inum : Z) (p : list Z) : M unit :=
  din ← rinode inum;
  '(din, off) ← iappend_loop (length p) din (xint (d_size din)) p;
  winode inum (set_d_size (xint off) din).

Fixpoint mfor {A} (l : list A) (body : A -> M unit) : M unit :=
  match l with
  | [] => mret tt
  | x :: l' => body x ;; mfor l' body
  end.

(** The name of a file in the image: without "user/" and a leading underscore. *)
Definition strip_dir (arg : list Z) : list Z := if bool_decide (take 5 arg = chars "user/") then drop 5 arg else arg.
Definition strip_mark (name : list Z) : list Z := match name with c :: name' => if c =? 95 then name' else name | [] => [] end.

(** One turn of the loop over the files. *)
Definition add_file (rootino : Z) (arg : list Z) : M unit :=
  let shortname := strip_dir arg in
  assert_that (bool_decide (47 ∉ shortname)) "index(shortname, '/') == 0" ;;
  match host arg with
  | None => die "open"
  | Some chunks =>
      let shortname := strip_mark shortname in
      assert_that (bool_decide (length shortname <= DIRSIZ)%nat) "strlen(shortname) <= DIRSIZ" ;;
      inum ← ialloc T_FILE;
      iappend rootino (mk_dirent (xshort inum) (lstrncpy shortname DIRSIZ)) ;;
      mfor chunks (iappend inum)
  end.

(** main(), for the arguments after the program's name. *)
Definition mkfs_main (argv : list (list Z)) : M unit :=
  match argv with
  | [] => die "Usage"
  | _ :: files =>
      if negb opens then die "open" else
      set_freeblock nmeta ;;
      mfor (seq 0 (Z.to_nat FSSIZE)) (fun i => wsect (Z.of_nat i) zeroes) ;;
      wsect 1 (put_bytes zeroes 0 sb_bytes) ;;
      rootino ← ialloc T_DIR;
      assert_that (rootino =? ROOTINO) "rootino == ROOTINO" ;;
      iappend rootino (mk_dirent (xshort rootino) (chars "." ++ replicate 13 0)) ;;
      iappend rootino (mk_dirent (xshort rootino) (chars ".." ++ replicate 12 0)) ;;
      mfor files (add_file rootino) ;;
      din ← rinode rootino;
      let off := (xint (d_size din) / BSIZE + 1) * BSIZE in
      winode rootino (set_d_size (xint off) din) ;;
      used ← get_freeblock;
      balloc used
  end.
End Mkfs.

(** The variables as the program starts, over an empty image. *)
Definition mkfs_start : mst := mk_mst ∅ 1 0.
