(* ===== verification/MkfsSpec.v ===== *)
(** * The image that mkfs builds (mkfs/mkfs.c), what the code does

    The files of the image as an abstract list of contents, the invariant
    that ties it to inodes, block addresses and the blocks that are taken,
    and the proof that every step of the tool keeps it. *)

From S2P Require Import Prelude Abi Riscv Memory KState KMonad Spinlock Kalloc Vm Proc Printf Sleeplock Bio Log BlockSpec Fs FsView Mkfs.

(** ** Integers and inodes as bytes *)

Lemma xint_id x : 0 <= x < 2 ^ 32 -> xint x = x.
Proof.
  intros H. unfold xint. rewrite !Z.shiftr_div_pow2 by lia.
  replace [u8 x; u8 (x / 2 ^ 8); u8 (x / 2 ^ 16); u8 (x / 2 ^ 24)] with (bytes_of 4 x).
  - rewrite of_bytes_of. by apply Z.mod_small.
  - cbn [bytes_of]. rewrite !Z.div_div by lia. done.
Qed.

Lemma xshort_id x : 0 <= x < 2 ^ 16 -> xshort x = x.
Proof.
  intros H. unfold xshort. rewrite !Z.shiftr_div_pow2 by lia. change [u8 x; u8 (x / 2 ^ 8)] with (bytes_of 2 x).
  rewrite of_bytes_of. by apply Z.mod_small.
Qed.

Lemma take_drop_mid {A} (a b c : list A) n : n = length a -> take (length b) (drop n (a ++ b ++ c)) = b.
Proof. intros ->. by rewrite drop_app_length, take_app_length. Qed.

(** A field of [n] bytes between two parts of a structure. *)
Lemma field_at n a v c o : o = Z.of_nat (length a) ->
  of_bytes (take n (drop (Z.to_nat o) (a ++ bytes_of n v ++ c))) = v mod 256 ^ Z.of_nat n.
Proof.
  intros ->. rewrite Nat2Z.id. rewrite <- (length_bytes_of n v) at 1. by rewrite take_drop_mid, of_bytes_of.
Qed.

Lemma half_at a v c o : o = Z.of_nat (length a) -> 0 <= v < 2 ^ 15 -> s16 (get_half (a ++ bytes_of 2 v ++ c) o) = v.
Proof.
  intros Ho Hv. unfold get_half. rewrite (field_at 2 _ _ _ _ Ho). rewrite Z.mod_small by lia. apply (sext_small 16); lia.
Qed.

Lemma word_at a v c o : o = Z.of_nat (length a) -> 0 <= v < 2 ^ 32 -> get_word (a ++ bytes_of 4 v ++ c) o = v.
Proof. intros Ho Hv. unfold get_word. rewrite (field_at 4 _ _ _ _ Ho). by rewrite Z.mod_small by lia. Qed.

Lemma words_at l : forall a c o, o = Z.of_nat (length a) -> Forall (fun v => 0 <= v < 2 ^ 32) l ->
  map (fun j => get_word (a ++ concat (map (bytes_of 4) l) ++ c) (o + 4 * Z.of_nat j)) (seq 0 (length l)) = l.
Proof.
  induction l as [|v l IH]; intros a c o Ho F; [done|]. apply Forall_cons_1 in F as [Fv F]. cbn [map concat length seq].
  rewrite <- app_assoc. f_equal; [rewrite word_at by (lia || done); done|].
  rewrite <- seq_shift, map_map. rewrite <- (IH (a ++ bytes_of 4 v) c (o + 4)) at 2; [|rewrite length_app, length_bytes_of; lia|done].
  apply map_ext. intros j. rewrite <- !app_assoc. f_equal. lia.
Qed.

Record dinode_ok (d : dinode) : Prop := {
  do_type : 0 <= d_type d < 2 ^ 15;
  do_major : 0 <= d_major d < 2 ^ 15;
  do_minor : 0 <= d_minor d < 2 ^ 15;
  do_nlink : 0 <= d_nlink d < 2 ^ 15;
  do_size : 0 <= d_size d < 2 ^ 32;
  do_len : length (d_addrs d) = 13%nat;
  do_addrs : Forall (fun v => 0 <= v < 2 ^ 32) (d_addrs d);
}.

Lemma length_words l : length (concat (map (bytes_of 4) l)) = (4 * length l)%nat.
Proof. induction l as [|v l IH]; [done|]. cbn [map concat]. rewrite length_app, length_bytes_of, IH. cbn. lia. Qed.

Lemma length_dinode d : length (d_addrs d) = 13%nat -> length (dinode_bytes d) = 64%nat.
Proof. intros E. unfold dinode_bytes. rewrite !length_app, length_words, E, !length_bytes_of. done. Qed.

Lemma dinode_round d : dinode_ok d -> bytes_dinode (dinode_bytes d) = d.
Proof.
  intros [H1 H2 H3 H4 H5 L F]. destruct d as [t ma mi nl sz ad]. cbn [d_type d_major d_minor d_nlink d_size d_addrs] in *.
  unfold bytes_dinode, dinode_bytes. cbn [d_type d_major d_minor d_nlink d_size d_addrs]. f_equal.
  - by apply (half_at []).
  - by apply (half_at (bytes_of 2 t)).
  - pose proof (half_at (bytes_of 2 t ++ bytes_of 2 ma) mi (bytes_of 2 nl ++ bytes_of 4 sz ++ concat (map (bytes_of 4) ad)) 4) as E.
    rewrite <- !app_assoc in E. by apply E.
  - pose proof (half_at (bytes_of 2 t ++ bytes_of 2 ma ++ bytes_of 2 mi) nl (bytes_of 4 sz ++ concat (map (bytes_of 4) ad)) 6) as E.
    rewrite <- !app_assoc in E. by apply E.
  - pose proof (word_at (bytes_of 2 t ++ bytes_of 2 ma ++ bytes_of 2 mi ++ bytes_of 2 nl) sz (concat (map (bytes_of 4) ad)) 8) as E.
    rewrite <- !app_assoc in E. by apply E.
  - pose proof (words_at ad (bytes_of 2 t ++ bytes_of 2 ma ++ bytes_of 2 mi ++ bytes_of 2 nl ++ bytes_of 4 sz) [] 12) as E.
    rewrite <- !app_assoc, app_nil_r, L in E. by apply E.
Qed.

(** The inode as the kernel reads it from the block. *)
Lemma get_half_slice data o k n : (k + 2 <= n)%nat -> get_half (take n (drop (Z.to_nat o) data)) (Z.of_nat k) = get_half data (Z.of_nat (Z.to_nat o + k)).
Proof. intros H. unfold get_half. rewrite !Nat2Z.id, skipn_firstn_comm, drop_drop, take_take. do 2 f_equal; lia. Qed.

Lemma get_word_sub data o k n : (k + 4 <= n)%nat -> get_word (take n (drop (Z.to_nat o) data)) (Z.of_nat k) = get_word data (Z.of_nat (Z.to_nat o + k)).
Proof. intros H. unfold get_word. rewrite !Nat2Z.id, skipn_firstn_comm, drop_drop, take_take. do 2 f_equal; lia. Qed.

(** ilock() and rinode() see the same inode. *)
Lemma load_dinode_bytes data k ip : 0 <= k ->
  let d := bytes_dinode (take 64 (drop (Z.to_nat (64 * k)) data)) in let ip' := load_dinode data k ip in
  i_type ip' = d_type d /\ i_major ip' = d_major d /\ i_minor ip' = d_minor d /\ i_nlink ip' = d_nlink d /\ i_size ip' = d_size d /\ i_addrs ip' = d_addrs d.
Proof.
  intros Hk. unfold load_dinode, dinode_type, dinode_nlink, dinode_off, bytes_dinode. cbn -[seq].
  rewrite (get_half_slice data (64 * k) 0), (get_half_slice data (64 * k) 2), (get_half_slice data (64 * k) 4), (get_half_slice data (64 * k) 6),
    (get_word_sub data (64 * k) 8) by lia.
  split_and!; try (f_equal; f_equal; lia).
  apply map_ext_in. intros j Hj. apply in_seq in Hj. change (12 + 4 * Z.of_nat j) with (Z.of_nat 12 + 4 * Z.of_nat j).
  replace (Z.of_nat 12 + 4 * Z.of_nat j) with (Z.of_nat (12 + 4 * j)) by lia. rewrite get_word_sub by lia. f_equal. lia.
Qed.

(** ** Blocks of the image *)

Definition blk (img : gmap Z (list Z)) (x : Z) : list Z := default [] (img !! x).

Definition img_ok (img : gmap Z (list Z)) : Prop := forall x, 0 <= x < FSSIZE -> exists b, img !! x = Some b /\ length b = 1024%nat.

Lemma blk_insert_eq img x b : blk (<[x := b]> img) x = b.
Proof. unfold blk. by rewrite lookup_insert_eq. Qed.
Lemma blk_insert_ne img x y b : x <> y -> blk (<[x := b]> img) y = blk img y.
Proof. intros H. unfold blk. by rewrite lookup_insert_ne. Qed.

Lemma img_ok_blk img x : img_ok img -> 0 <= x < FSSIZE -> img !! x = Some (blk img x) /\ length (blk img x) = 1024%nat.
Proof. intros H Hx. unfold blk. by destruct (H x Hx) as (b & -> & L). Qed.

Lemma img_ok_insert img x b : img_ok img -> length b = 1024%nat -> img_ok (<[x := b]> img).
Proof.
  intros H L y Hy. destruct (decide (x = y)) as [->|N]; [rewrite lookup_insert_eq; eauto|]. rewrite lookup_insert_ne by done. auto.
Qed.

(** The inode [inum] of an image, and a new one in its place. *)
Definition dino (img : gmap Z (list Z)) (inum : Z) : dinode :=
  bytes_dinode (take 64 (drop (Z.to_nat (64 * (inum mod IPB))) (blk img (IBLOCK inum sb)))).

Definition put_dinode (inum : Z) (d : dinode) (img : gmap Z (list Z)) : gmap Z (list Z) :=
  <[IBLOCK inum sb := put_bytes (blk img (IBLOCK inum sb)) (64 * (inum mod IPB)) (dinode_bytes d)]> img.

Definition NI : Z := 208.

Lemma iblock_range inum : 0 <= inum < NI -> IBLOCK inum sb = 33 + inum / 16 /\ 33 <= IBLOCK inum sb < 46.
Proof.
  intros H. unfold NI in H. change (IBLOCK inum sb) with (u32 (inum / 16 + 33)).
  assert (0 <= inum / 16 < 13) by (split; [apply Z.div_pos; lia|apply Z.div_lt_upper_bound; lia]).
  rewrite u32_small by lia. lia.
Qed.

Lemma inode_slot inum : 0 <= inum mod IPB < 16.
Proof. apply Z.mod_pos_bound. done. Qed.

Lemma length_put_dinode inum d img : img_ok img -> 0 <= inum < NI -> length (d_addrs d) = 13%nat -> img_ok (put_dinode inum d img).
Proof.
  intros H Hi L. apply img_ok_insert; [done|]. pose proof (iblock_range inum Hi). pose proof (inode_slot inum).
  destruct (img_ok_blk img (IBLOCK inum sb) H) as [_ Lb]; [unfold FSSIZE; lia|].
  rewrite length_put_bytes; [done|]. rewrite length_dinode, Lb by done. lia.
Qed.

Lemma dino_put_eq inum d img : img_ok img -> 0 <= inum < NI -> dinode_ok d -> dino (put_dinode inum d img) inum = d.
Proof.
  intros H Hi O. pose proof (iblock_range inum Hi). pose proof (inode_slot inum).
  destruct (img_ok_blk img (IBLOCK inum sb) H) as [_ Lb]; [unfold FSSIZE; lia|].
  unfold dino, put_dinode. rewrite blk_insert_eq. rewrite <- (dinode_round d O) at 2. f_equal.
  pose proof (length_dinode d (do_len _ O)) as Ld. rewrite <- Ld at 1. apply slice_put_eq. rewrite Ld, Lb. lia.
Qed.

Lemma dino_put_ne inum inum' d img : img_ok img -> 0 <= inum < NI -> 0 <= inum' < NI -> length (d_addrs d) = 13%nat -> inum <> inum' ->
  dino (put_dinode inum d img) inum' = dino img inum'.
Proof.
  intros H Hi Hi' Ln N. pose proof (iblock_range inum Hi) as [I1 I2]. pose proof (iblock_range inum' Hi') as [J1 J2].
  pose proof (inode_slot inum). pose proof (inode_slot inum'). unfold dino, put_dinode.
  destruct (decide (IBLOCK inum sb = IBLOCK inum' sb)) as [E|E]; [|by rewrite blk_insert_ne].
  rewrite <- E, blk_insert_eq. f_equal. destruct (img_ok_blk img (IBLOCK inum sb) H) as [_ Lb]; [unfold FSSIZE; lia|].
  assert (inum mod IPB <> inum' mod IPB) as Nm.
  { change IPB with 16 in *. pose proof (Z.div_mod inum 16). pose proof (Z.div_mod inum' 16). lia. }
  apply (slice_put_ne (blk img (IBLOCK inum sb)) (64 * (inum mod IPB)) (dinode_bytes d) (64 * (inum' mod IPB)) 64); rewrite length_dinode by done; [rewrite Lb; lia|lia].
Qed.

Lemma blk_put_dinode inum d img x : 0 <= inum < NI -> ~ (33 <= x < 46) -> blk (put_dinode inum d img) x = blk img x.
Proof. intros Hi Hx. apply blk_insert_ne. pose proof (iblock_range inum Hi). lia. Qed.

(** ** Contents of files *)

(** Block [f] of a file with contents [c], as it is on the disk. *)
Definition fblock (c : list Z) (f : Z) : list Z :=
  let l := take 1024 (drop (Z.to_nat (1024 * f)) c) in l ++ replicate (1024 - length l) 0.

Lemma length_fblock c f : length (fblock c f) = 1024%nat.
Proof. unfold fblock. rewrite length_app, length_replicate, length_take. lia. Qed.

Lemma fblock_past c f : Z.of_nat (length c) <= 1024 * f -> fblock c f = zeroes.
Proof. intros H. unfold fblock. by rewrite drop_ge by lia. Qed.

(** Appending to the last block, and the blocks before it. *)
Lemma fblock_append c p f : 0 <= f -> 1024 * f <= Z.of_nat (length c) -> (length c + length p <= Z.to_nat (1024 * f) + 1024)%nat ->
  put_bytes (fblock c f) (Z.of_nat (length c) - f * 1024) p = fblock (c ++ p) f.
Proof.
  intros Hf Hc Hp. set (o := (length c - Z.to_nat (1024 * f))%nat).
  assert (drop (Z.to_nat (1024 * f)) (c ++ p) = drop (Z.to_nat (1024 * f)) c ++ p) as Ed by (rewrite drop_app_le; [done|lia]).
  unfold fblock. rewrite Ed. set (l := drop (Z.to_nat (1024 * f)) c). assert (length l = o) as Ll by (unfold l; rewrite length_drop; done).
  rewrite !(take_ge l), (take_ge (l ++ p)) by (rewrite ?length_app; lia). unfold put_bytes.
  replace (Z.to_nat (Z.of_nat (length c) - f * 1024)) with o by lia. rewrite <- Ll, take_app_length, drop_app_ge by lia.
  rewrite drop_replicate, length_app, <- app_assoc. do 3 f_equal. lia.
Qed.

Lemma fblock_before c p f : 0 <= f -> 1024 * (f + 1) <= Z.of_nat (length c) -> fblock (c ++ p) f = fblock c f.
Proof.
  intros Hf Hc. unfold fblock. rewrite drop_app_le by lia. rewrite take_app_le by (rewrite length_drop; lia). done.
Qed.

Inductive use := Data (f : Z) | Ind.

(** The address of block [f] of a file. *)
Definition faddr (img : gmap Z (list Z)) (d : dinode) (f : Z) : Z :=
  if f <? NDIRECT then znth 0 (d_addrs d) f
  else if znth 0 (d_addrs d) NDIRECT =? 0 then 0 else get_word (blk img (znth 0 (d_addrs d) NDIRECT)) (4 * (f - NDIRECT)).

(** The inode [d] of file [inum] has [nb] blocks, which hold [c]; [ind] says
    whether it has an indirect block.  [own] says what the blocks of the image
    are used for. *)
Record holds (img : gmap Z (list Z)) (own : gmap Z (Z * use)) (inum : Z) (d : dinode) (nb : Z) (ind : bool) (c : list Z) : Prop := {
  h_len : length (d_addrs d) = 13%nat;
  h_words : Forall (fun v => 0 <= v < 2 ^ 32) (d_addrs d);
  h_size : Z.of_nat (length c) <= 1024 * nb;
  h_nb : 0 <= nb <= MAXFILE;
  h_data f : 0 <= f < nb -> own !! faddr img d f = Some (inum, Data f) /\ blk img (faddr img d f) = fblock c f;
  h_none f : nb <= f < MAXFILE -> faddr img d f = 0;
  h_need : NDIRECT < nb -> ind = true;
  h_ind : if ind then own !! znth 0 (d_addrs d) NDIRECT = Some (inum, Ind) else znth 0 (d_addrs d) NDIRECT = 0;
}.

(** The blocks that are taken are those from the first data block to the
    first free one; the free ones are still zero. *)
Record store_ok (s : mst) (own : gmap Z (Z * use)) : Prop := {
  so_img : img_ok (m_img s);
  so_zero x : m_freeblock s <= x < FSSIZE -> blk (m_img s) x = zeroes;
  so_own x u : own !! x = Some u -> nmeta <= x < m_freeblock s;
  so_free : nmeta <= m_freeblock s <= FSSIZE;
}.

(** What writing to the file [inum] leaves alone. *)
Record frame (inum : Z) (s : mst) (own : gmap Z (Z * use)) (s' : mst) (own' : gmap Z (Z * use)) : Prop := {
  fr_own x u : own !! x = Some u -> own' !! x = Some u;
  fr_other x i u : own !! x = Some (i, u) -> i <> inum -> blk (m_img s') x = blk (m_img s) x;
  fr_meta x : x < nmeta -> blk (m_img s') x = blk (m_img s) x;
  fr_inode : m_freeinode s' = m_freeinode s;
}.

Lemma frame_refl inum s own : frame inum s own s own.
Proof. by split. Qed.

Lemma frame_trans inum s1 o1 s2 o2 s3 o3 : frame inum s1 o1 s2 o2 -> frame inum s2 o2 s3 o3 -> frame inum s1 o1 s3 o3.
Proof.
  intros [A1 A2 A3 A4] [B1 B2 B3 B4]. split; [auto| | |congruence].
  - intros x i u H N. rewrite (B2 x i u (A1 _ _ H) N). eauto.
  - intros x H. rewrite B3, A3; done.
Qed.

Lemma faddr_ext img img' d f : blk img' (znth 0 (d_addrs d) NDIRECT) = blk img (znth 0 (d_addrs d) NDIRECT) -> faddr img' d f = faddr img d f.
Proof. intros E. unfold faddr. by rewrite E. Qed.

(** A file keeps what it holds while its blocks are left alone. *)
Lemma holds_same img own img' own' inum d nb ind c : holds img own inum d nb ind c ->
  (forall x u, own !! x = Some (inum, u) -> own' !! x = Some (inum, u) /\ blk img' x = blk img x) -> holds img' own' inum d nb ind c.
Proof.
  intros [L W Z N D O Nd I] H. assert (forall f, faddr img' d f = faddr img d f) as E.
  { intros f. destruct ind.
    - apply faddr_ext. by eapply H.
    - unfold faddr. by rewrite I. }
  split; try done.
  - intros f Hf. rewrite E. destruct (D f Hf) as [D1 D2]. destruct (H _ _ D1) as [H1 H2]. by rewrite H2.
  - intros f Hf. rewrite E. auto.
  - destruct ind; [|done]. by apply H.
Qed.

(** ** Taking and writing blocks *)

Definition taken (s : mst) : mst := mk_mst (m_img s) (m_freeinode s) (m_freeblock s + 1).
Definition with_img (img : gmap Z (list Z)) (s : mst) : mst := mk_mst img (m_freeinode s) (m_freeblock s).

Lemma nmeta_val : nmeta = 47.
Proof. reflexivity. Qed.

Lemma store_fresh s own : store_ok s own -> own !! m_freeblock s = None.
Proof. intros O. destruct (own !! m_freeblock s) eqn:E; [|done]. apply (so_own _ _ O) in E. lia. Qed.

Lemma store_take s own u : store_ok s own -> m_freeblock s < FSSIZE -> store_ok (taken s) (<[m_freeblock s := u]> own).
Proof.
  intros [A B C D] H. split; cbn [taken m_img m_freeblock]; [done| | |lia].
  - intros x Hx. apply B. lia.
  - intros x v Hx. destruct (decide (m_freeblock s = x)) as [<-|N]; [lia|]. rewrite lookup_insert_ne in Hx by done. apply C in Hx. lia.
Qed.

Lemma frame_take inum s own u : store_ok s own -> frame inum s own (taken s) (<[m_freeblock s := u]> own).
Proof.
  intros O. pose proof (store_fresh s own O). split; try done. intros x v Hx. rewrite lookup_insert_ne; [done|]. congruence.
Qed.

Lemma take_block_eq s : 0 <= m_freeblock s < FSSIZE -> take_block s = inl (m_freeblock s, taken s).
Proof. intros H. unfold take_block, taken. rewrite u32_small; [done|]. unfold FSSIZE in H. lia. Qed.

Lemma store_write s own x b inum u : store_ok s own -> own !! x = Some (inum, u) -> length b = 1024%nat ->
  store_ok (with_img (<[x := b]> (m_img s)) s) own /\ frame inum s own (with_img (<[x := b]> (m_img s)) s) own.
Proof.
  intros [A B C D] Hx Hb. pose proof (C _ _ Hx) as Rx. split; split; cbn [with_img m_img m_freeblock m_freeinode]; try done.
  - by apply img_ok_insert.
  - intros y Hy. rewrite blk_insert_ne by lia. auto.
  - intros y i v Hy N. apply blk_insert_ne. intros ->. congruence.
  - intros y Hy. apply blk_insert_ne. lia.
Qed.

Lemma bindM {A B} (m : M A) (k : A -> M B) s a s' : m s = inl (a, s') -> (m ≫= k) s = k a s'.
Proof. intros E. unfold mbind, M_bind. by rewrite E. Qed.

(** ** A file grows by a block *)

Lemma MAXFILE_val : MAXFILE = 268.
Proof. reflexivity. Qed.

Lemma words_zupd l i v : Forall (fun v => 0 <= v < 2 ^ 32) l -> 0 <= v < 2 ^ 32 -> Forall (fun v => 0 <= v < 2 ^ 32) (zupd l i v).
Proof. intros F H. by apply Forall_insert. Qed.

Lemma fresh_range s own : store_ok s own -> m_freeblock s < FSSIZE -> 0 < m_freeblock s < 2 ^ 32.
Proof. intros O H. pose proof (so_free _ _ O). rewrite nmeta_val in *. unfold FSSIZE in H. lia. Qed.

(** A fresh block holds what is past the end of the file. *)
Lemma fresh_block s own c nb : store_ok s own -> m_freeblock s < FSSIZE -> Z.of_nat (length c) <= 1024 * nb ->
  blk (m_img s) (m_freeblock s) = fblock c nb.
Proof. intros O H Hc. rewrite fblock_past by done. apply (so_zero _ _ O). lia. Qed.

Lemma alloc_direct s own inum d nb ind c : store_ok s own -> m_freeblock s < FSSIZE -> holds (m_img s) own inum d nb ind c -> nb < NDIRECT ->
  holds (m_img s) (<[m_freeblock s := (inum, Data nb)]> own) inum (set_d_addr nb (m_freeblock s) d) (nb + 1) ind c /\
  faddr (m_img s) (set_d_addr nb (m_freeblock s) d) nb = m_freeblock s.
Proof.
  intros O Hf [L W Z N D Nn Nd I] Hn. pose proof (fresh_range s own O Hf) as Rf. pose proof (store_fresh s own O) as Fr. unfold NDIRECT in *.
  set (fb := m_freeblock s) in *. set (d' := set_d_addr nb fb d).
  assert (forall j, 0 <= j -> znth 0 (d_addrs d') j = if j =? nb then fb else znth 0 (d_addrs d) j) as Ea.
  { intros j Hj. cbn [d' set_d_addr d_addrs]. destruct (Z.eqb_spec j nb) as [->|Nj]; [apply znth_zupd_eq; rewrite L; lia|apply znth_zupd_ne; lia]. }
  assert (forall f, 0 <= f -> faddr (m_img s) d' f = if f =? nb then fb else faddr (m_img s) d f) as Ef.
  { intros f Hf0. unfold faddr, NDIRECT. rewrite !Ea by lia. destruct (Z.eqb_spec 12 nb); [lia|].
    destruct (Z.ltb_spec f 12); [done|]. destruct (Z.eqb_spec f nb); [lia|done]. }
  split; [|rewrite Ef by lia; by rewrite Z.eqb_refl]. split; cbn [d' set_d_addr d_addrs].
  - by rewrite length_zupd.
  - apply words_zupd; [done|lia].
  - lia.
  - rewrite MAXFILE_val in *. lia.
  - intros f Hf0. fold d'. rewrite Ef by lia. destruct (Z.eqb_spec f nb) as [->|Nf].
    + rewrite lookup_insert_eq. split; [done|]. by apply (fresh_block s own).
    + destruct (D f ltac:(lia)) as [D1 D2]. rewrite lookup_insert_ne by congruence. done.
  - intros f Hf0. fold d'. rewrite Ef by lia. destruct (Z.eqb_spec f nb); [lia|]. apply Nn. lia.
  - intros H. apply Nd. unfold NDIRECT in *. lia.
  - change (zupd (d_addrs d) nb fb) with (d_addrs d'). rewrite Ea by (unfold NDIRECT; lia). unfold NDIRECT. destruct (Z.eqb_spec 12 nb); [lia|].
    destruct ind; [|done]. unfold NDIRECT in I. rewrite lookup_insert_ne by congruence. done.
Qed.

Lemma get_word_zero o : get_word zeroes o = 0.
Proof.
  unfold get_word, zeroes. rewrite drop_replicate, take_replicate. set (n := (_ `min` _)%nat). clearbody n.
  induction n as [|n IH]; [done|]. cbn [replicate of_bytes]. by rewrite IH.
Qed.

Lemma alloc_ind s own inum d c : store_ok s own -> m_freeblock s < FSSIZE -> holds (m_img s) own inum d NDIRECT false c ->
  holds (m_img s) (<[m_freeblock s := (inum, Ind)]> own) inum (set_d_addr NDIRECT (m_freeblock s) d) NDIRECT true c /\
  znth 0 (d_addrs (set_d_addr NDIRECT (m_freeblock s) d)) NDIRECT = m_freeblock s.
Proof.
  intros O Hf [L W Z N D Nn Nd I]. pose proof (fresh_range s own O Hf) as Rf. pose proof (store_fresh s own O) as Fr.
  set (fb := m_freeblock s) in *. set (d' := set_d_addr NDIRECT fb d).
  assert (znth 0 (d_addrs d') NDIRECT = fb) as E12 by (apply znth_zupd_eq; rewrite L; unfold NDIRECT; lia).
  assert (forall f, 0 <= f < NDIRECT -> faddr (m_img s) d' f = faddr (m_img s) d f) as Ef.
  { intros f Hf0. unfold faddr. destruct (Z.ltb_spec f NDIRECT); [|lia]. apply znth_zupd_ne; unfold NDIRECT in *; lia. }
  split; [|done]. split; try done.
  - cbn [d' set_d_addr d_addrs]. by rewrite length_zupd.
  - apply words_zupd; [done|lia].
  - intros f Hf0. rewrite Ef by done. destruct (D f Hf0) as [D1 D2]. rewrite lookup_insert_ne by congruence. done.
  - intros f Hf0. unfold faddr. destruct (Z.ltb_spec f NDIRECT); [lia|]. rewrite E12. destruct (Z.eqb_spec fb 0); [done|].
    rewrite (so_zero _ _ O) by (fold fb; lia). apply get_word_zero.
  - rewrite E12. apply lookup_insert_eq.
Qed.
(** The entry of the indirect block for block [nb]. *)
Lemma alloc_entry s own inum d nb c : store_ok s own -> m_freeblock s < FSSIZE -> holds (m_img s) own inum d nb true c -> NDIRECT <= nb < MAXFILE ->
  let ib := znth 0 (d_addrs d) NDIRECT in
  let img' := <[ib := put_word (blk (m_img s) ib) (4 * (nb - NDIRECT)) (m_freeblock s)]> (m_img s) in
  holds img' (<[m_freeblock s := (inum, Data nb)]> own) inum d (nb + 1) true c /\ faddr img' d nb = m_freeblock s.
Proof.
  intros O Hf [L W Z N D Nn Nd I] Hn ib img'. pose proof (fresh_range s own O Hf) as Rf. pose proof (store_fresh s own O) as Fr.
  set (fb := m_freeblock s) in *. pose proof (so_own _ _ O _ _ I) as Ri. fold ib fb in Ri, I. rewrite nmeta_val, MAXFILE_val in *. unfold NDIRECT in Hn.
  destruct (img_ok_blk _ ib (so_img _ _ O)) as [_ Lb]; [unfold FSSIZE in *; lia|].
  assert (forall f, 0 <= f < 268 -> faddr img' d f = if f =? nb then fb else faddr (m_img s) d f) as Ef.
  { intros f Hf0. unfold faddr. fold ib. unfold NDIRECT. destruct (Z.ltb_spec f 12); [destruct (Z.eqb_spec f nb); [lia|done]|].
    destruct (Z.eqb_spec ib 0); [lia|]. unfold img'. rewrite blk_insert_eq. unfold NDIRECT. destruct (Z.eqb_spec f nb) as [->|Nf].
    - rewrite get_put_word_eq by (rewrite Lb; lia). apply u32_small. lia.
    - apply get_put_word_ne; [rewrite Lb; lia|lia]. }
  split; [|rewrite Ef by lia; by rewrite Z.eqb_refl]. split; try done; try lia; rewrite ?MAXFILE_val.
  - lia.
  - intros f Hf0. rewrite Ef by lia. destruct (Z.eqb_spec f nb) as [->|Nf].
    + rewrite lookup_insert_eq. split; [done|]. unfold img'. rewrite blk_insert_ne by lia. by apply (fresh_block s own).
    + destruct (D f ltac:(lia)) as [D1 D2]. rewrite lookup_insert_ne by congruence. split; [done|]. rewrite <- D2. unfold img'.
      apply blk_insert_ne. intros E. rewrite <- E in D1. congruence.
  - intros f Hf0. rewrite Ef by lia. destruct (Z.eqb_spec f nb); [lia|]. apply Nn. lia.
  - fold ib. rewrite lookup_insert_ne by lia. done.
Qed.

(** Writing the last block of a file. *)
Lemma write_last s own inum d f ind c p : store_ok s own -> holds (m_img s) own inum d (f + 1) ind c -> 0 <= f ->
  1024 * f <= Z.of_nat (length c) -> (length c + length p <= Z.to_nat (1024 * f) + 1024)%nat ->
  holds (<[faddr (m_img s) d f := fblock (c ++ p) f]> (m_img s)) own inum d (f + 1) ind (c ++ p).
Proof.
  intros O [L W Z N D Nn Nd I] Hf0 Hc Hp. destruct (D f ltac:(lia)) as [D1 _]. set (x := faddr (m_img s) d f) in *. set (img' := <[x := _]> _).
  assert (forall g, faddr img' d g = faddr (m_img s) d g) as Ef.
  { intros g. destruct ind.
    - apply faddr_ext. apply blk_insert_ne. intros E. rewrite <- E in I. congruence.
    - unfold faddr. by rewrite I. }
  split; try done.
  - rewrite length_app. lia.
  - intros g Hg. rewrite Ef. destruct (D g Hg) as [G1 G2]. split; [done|]. destruct (decide (g = f)) as [->|Ng].
    + apply blk_insert_eq.
    + unfold img'. rewrite blk_insert_ne by (intros E; rewrite <- E in G1; congruence). rewrite G2. symmetry. apply fblock_before; lia.
  - intros g Hg. rewrite Ef. by apply Nn.
Qed.

(** The blocks of a file of [nb] blocks, with the indirect one. *)
Definition need (nb : Z) : Z := nb + (if NDIRECT <? nb then 1 else 0).

Lemma nblk_last n : 0 <= n -> nblk n = n / 1024 \/ nblk n = n / 1024 + 1.
Proof. intros H. unfold nblk. Z.to_euclidean_division_equations. lia. Qed.

Definition with_addrs (a : list Z) (d : dinode) : dinode := mk_dinode (d_type d) (d_major d) (d_minor d) (d_nlink d) (d_size d) a.

Lemma need_mono a b : a <= b -> need a <= need b.
Proof. intros H. unfold need. repeat case_if; lia. Qed.

Lemma nblk_mono a b : a <= b -> nblk a <= nblk b.
Proof. intros H. apply Z.div_le_mono; lia. Qed.

Lemma nblk_in n f : 1024 * f < n <= 1024 * (f + 1) -> nblk n = f + 1.
Proof. intros H. unfold nblk. symmetry. apply (Z.div_unique _ _ _ (n + 1023 - 1024 * (f + 1))); lia. Qed.

(** ** The image as a list of files *)

(** File [inum] of the image has type [ty], one link and contents [c]. *)
Record file_ok (img : gmap Z (list Z)) (own : gmap Z (Z * use)) (inum ty : Z) (c : list Z) : Prop := {
  fo_ok : dinode_ok (dino img inum);
  fo_type : d_type (dino img inum) = ty;
  fo_dev : d_major (dino img inum) = 0 /\ d_minor (dino img inum) = 0;
  fo_nlink : d_nlink (dino img inum) = 1;
  fo_size : d_size (dino img inum) = Z.of_nat (length c);
  fo_holds : holds img own inum (dino img inum) (nblk (Z.of_nat (length c))) (NDIRECT <? nblk (Z.of_nat (length c))) c;
}.

(** The blocks a list of files takes. *)
Definition room (fs : list (Z * list Z)) : Z := foldr (fun x a => need (nblk (Z.of_nat (length x.2))) + a) 0 fs.

Record image (s : mst) (own : gmap Z (Z * use)) (fs : list (Z * list Z)) : Prop := {
  im_store : store_ok s own;
  im_inode : m_freeinode s = 1 + Z.of_nat (length fs);
  im_bound : m_freeinode s <= NI;
  im_files j ty c : fs !! j = Some (ty, c) -> file_ok (m_img s) own (Z.of_nat j + 1) ty c;
  im_blocks : m_freeblock s = nmeta + room fs;
  im_unused i : m_freeinode s <= i < NI -> d_type (dino (m_img s) i) = 0;
  im_super : blk (m_img s) 1 = put_bytes zeroes 0 sb_bytes;
  im_zero x : x = 0 \/ 2 <= x < 33 \/ x = 46 -> blk (m_img s) x = zeroes;
}.

Lemma room_cons x fs : room (x :: fs) = need (nblk (Z.of_nat (length x.2))) + room fs.
Proof. done. Qed.

Lemma room_app fs x : room (fs ++ [x]) = room fs + need (nblk (Z.of_nat (length x.2))).
Proof. induction fs as [|y fs IH]; cbn [app]; rewrite !room_cons; [cbn; lia|]. rewrite IH. lia. Qed.

Lemma room_insert fs j ty c c' : fs !! j = Some (ty, c) ->
  room (<[j := (ty, c')]> fs) = room fs + (need (nblk (Z.of_nat (length c'))) - need (nblk (Z.of_nat (length c)))).
Proof.
  revert j. induction fs as [|y fs IH]; intros [|j] H; [done|done| |].
  - assert (y = (ty, c)) as -> by (cbn in H; congruence). change (<[0%nat := (ty, c')]> ((ty, c) :: fs)) with ((ty, c') :: fs). rewrite !room_cons. cbn [snd]. lia.
  - change (<[S j := (ty, c')]> (y :: fs)) with (y :: <[j := (ty, c')]> fs). rewrite !room_cons, (IH j H). lia.
Qed.

(** Writing the inode of [inum] leaves the other files alone. *)
Lemma file_ok_put s own inum d i ty c : store_ok s own -> 0 <= inum < NI -> 0 <= i < NI -> length (d_addrs d) = 13%nat -> i <> inum ->
  file_ok (m_img s) own i ty c -> file_ok (put_dinode inum d (m_img s)) own i ty c.
Proof.
  intros O Hi Hj L N [A B C D E F]. assert (dino (put_dinode inum d (m_img s)) i = dino (m_img s) i) as Ed by (apply dino_put_ne; (done || apply O || lia)).
  split; rewrite ?Ed; try done. eapply holds_same; [exact F|]. intros x u Hx. split; [done|]. apply blk_put_dinode; [done|].
  pose proof (so_own _ _ O _ _ Hx) as R. rewrite nmeta_val in R. lia.
Qed.

Lemma store_put s own inum d : store_ok s own -> 0 <= inum < NI -> length (d_addrs d) = 13%nat -> store_ok (with_img (put_dinode inum d (m_img s)) s) own.
Proof.
  intros [A B C D] Hi L. rewrite nmeta_val in *. split; cbn [with_img m_img m_freeblock]; rewrite ?nmeta_val; try done.
  - by apply length_put_dinode.
  - intros x Hx. rewrite blk_put_dinode by (done || lia). by apply B.
Qed.

Lemma holds_addrs img own inum d d' nb ind c : d_addrs d = d_addrs d' -> holds img own inum d nb ind c -> holds img own inum d' nb ind c.
Proof.
  intros E [A B C D F G H I]. assert (forall f, faddr img d f = faddr img d' f) as Ef by (intros f; unfold faddr; by rewrite E).
  rewrite E in *. split; try done; intros f Hf; rewrite <- Ef; auto.
Qed.

Lemma dino_meta img img' i : 0 <= i < NI -> (forall x, x < nmeta -> blk img' x = blk img x) -> dino img' i = dino img i.
Proof. intros Hi H. pose proof (iblock_range i Hi). unfold dino. rewrite H; [done|]. rewrite nmeta_val. lia. Qed.

Lemma file_ok_frame inum s own s' own' i ty c : 0 <= i < NI -> i <> inum -> frame inum s own s' own' -> file_ok (m_img s) own i ty c ->
  file_ok (m_img s') own' i ty c.
Proof.
  intros Hi N [F1 F2 F3 F4] [A B C D E F]. assert (dino (m_img s') i = dino (m_img s) i) as Ed by by apply dino_meta.
  split; rewrite ?Ed; try done. eapply holds_same; [exact F|]. intros x u Hx. split; [auto|]. by eapply F2.
Qed.

Section Files.
Variable bad : Z -> bool.
Hypothesis good : forall x, bad x = false.

Lemma wsect_eq x b s : wsect bad x b s = inl (tt, with_img (<[x := b]> (m_img s)) s).
Proof. unfold wsect. by rewrite good. Qed.

Lemma rsect_eq x s : img_ok (m_img s) -> 0 <= x < FSSIZE -> rsect bad x s = inl (blk (m_img s) x, s).
Proof. intros H Hx. unfold rsect. rewrite good. by destruct (img_ok_blk _ x H Hx) as [-> _]. Qed.

Lemma owned_block s own x u : store_ok s own -> own !! x = Some u -> xint x = x /\ x <> 0 /\ 0 <= x < FSSIZE.
Proof.
  intros O H. pose proof (so_own _ _ O _ _ H) as R. pose proof (so_free _ _ O) as Fb. rewrite nmeta_val in *.
  split; [apply xint_id; unfold FSSIZE in *|]; lia.
Qed.

(** The block to write to, when the file has it. *)
Lemma file_block_old s own inum d nb ind c f : store_ok s own -> holds (m_img s) own inum d nb ind c -> 0 <= f < nb ->
  file_block bad d f s = inl ((d, faddr (m_img s) d f), s).
Proof.
  intros O [L W Z N D Nn Nd I] Hf. destruct (D f Hf) as [D1 _]. destruct (owned_block _ _ _ _ O D1) as (X1 & X2 & _). unfold file_block, faddr in *.
  destruct (Z.ltb_spec f NDIRECT).
  - rewrite X1. destruct (Z.eqb_spec (znth 0 (d_addrs d) f) 0); [done|]. rewrite (bindM (mret d) _ s d s eq_refl). by rewrite X1.
  - rewrite (Nd ltac:(lia)) in I. destruct (owned_block _ _ _ _ O I) as (Y1 & Y2 & Y3). rewrite Y1.
    destruct (Z.eqb_spec (znth 0 (d_addrs d) NDIRECT) 0); [done|]. rewrite (bindM (mret d) _ s d s eq_refl), Y1. unfold indirect_block.
    set (ib := znth 0 (d_addrs d) NDIRECT) in *. unfold mbind at 1, M_bind at 1. rewrite (bindM _ _ _ _ _ (rsect_eq ib s (so_img _ _ O) Y3)).
    destruct (Z.eqb_spec (get_word (blk (m_img s) ib) (4 * (f - NDIRECT))) 0); [done|].
    rewrite (bindM (mret _) _ s (blk (m_img s) ib) s eq_refl), X1. done.
Qed.

(** The next block of the file: what the code allocates for it. *)
Definition grown (s : mst) (own : gmap Z (Z * use)) (inum : Z) (d : dinode) (c : list Z) (nb k : Z) (r : (dinode * Z * mst) + stop) : Prop :=
  exists a s' own', let d' := with_addrs a d in r = inl ((d', faddr (m_img s') d' nb), s') /\ store_ok s' own' /\
    holds (m_img s') own' inum d' (nb + 1) (NDIRECT <? nb + 1) c /\ frame inum s own s' own' /\ m_freeblock s' = m_freeblock s + k.

Lemma file_block_direct s own inum d nb c : store_ok s own -> holds (m_img s) own inum d nb false c -> nb < NDIRECT -> m_freeblock s < FSSIZE ->
  grown s own inum d c nb 1 (file_block bad d nb s).
Proof.
  intros O H Hn Hf. pose proof (fresh_range s own O Hf) as Rf. destruct (alloc_direct s own inum d nb false c O Hf H Hn) as [H' Ea].
  pose proof (h_none _ _ _ _ _ _ _ H nb) as Z0. pose proof (h_nb _ _ _ _ _ _ _ H) as Nb. rewrite MAXFILE_val in *. unfold NDIRECT in *.
  exists (zupd (d_addrs d) nb (m_freeblock s)), (taken s), (<[m_freeblock s := (inum, Data nb)]> own). split_and!.
  - specialize (Z0 ltac:(lia)). change (with_addrs _ d) with (set_d_addr nb (m_freeblock s) d). change (m_img (taken s)) with (m_img s). rewrite Ea.
    unfold file_block, faddr, NDIRECT in *. destruct (Z.ltb_spec nb 12); [|lia]. rewrite Z0. change (xint 0 =? 0) with true. cbn match.
    erewrite bindM; [|rewrite (bindM _ _ _ _ _ (take_block_eq s ltac:(lia))), xint_id by lia; reflexivity]. rewrite Ea, xint_id by lia. done.
  - by apply store_take.
  - change (m_img (taken s)) with (m_img s). destruct (Z.ltb_spec NDIRECT (nb + 1)) as [G|_]; [unfold NDIRECT in G; lia|exact H'].
  - by apply frame_take.
  - done.
Qed.

Lemma indirect_new s own inum d nb c : store_ok s own -> holds (m_img s) own inum d nb true c -> NDIRECT <= nb < MAXFILE -> m_freeblock s < FSSIZE ->
  exists s' own', indirect_block bad (znth 0 (d_addrs d) NDIRECT) nb s = inl (faddr (m_img s') d nb, s') /\ store_ok s' own' /\
    holds (m_img s') own' inum d (nb + 1) true c /\ frame inum s own s' own' /\ m_freeblock s' = m_freeblock s + 1.
Proof.
  intros O H Hn Hf. pose proof (fresh_range s own O Hf) as Rf. destruct (alloc_entry s own inum d nb c O Hf H Hn) as [H' Ea].
  pose proof (h_ind _ _ _ _ _ _ _ H) as I. cbn match in I. destruct (owned_block _ _ _ _ O I) as (Y1 & Y2 & Y3).
  pose proof (h_none _ _ _ _ _ _ _ H nb ltac:(lia)) as Z0. set (ib := znth 0 (d_addrs d) NDIRECT) in *. set (fb := m_freeblock s) in *.
  destruct (img_ok_blk _ ib (so_img _ _ O) Y3) as [_ Lb].
  set (b' := put_word (blk (m_img s) ib) (4 * (nb - NDIRECT)) fb) in *. rewrite MAXFILE_val in Hn. unfold NDIRECT in Hn.
  assert (length b' = 1024%nat) as Lb' by (unfold b'; rewrite length_put_word; rewrite Lb; unfold NDIRECT; lia).
  assert (get_word (blk (m_img s) ib) (4 * (nb - NDIRECT)) = 0) as G0.
  { unfold faddr in Z0. fold ib in Z0. unfold NDIRECT in Z0 at 1. destruct (Z.ltb_spec nb 12); [lia|]. by destruct (Z.eqb_spec ib 0). }
  assert (get_word b' (4 * (nb - NDIRECT)) = fb) as G1.
  { unfold b'. rewrite get_put_word_eq by (rewrite Lb; unfold NDIRECT; lia). apply u32_small. lia. }
  destruct (store_write (taken s) (<[fb := (inum, Data nb)]> own) ib b' inum Ind) as [O' F']; [by apply store_take| |done|].
  { rewrite lookup_insert_ne; [done|]. pose proof (so_own _ _ O _ _ I) as Q. fold fb in Q. lia. }
  eexists _, _. split_and!; [|exact O'|exact H'| |done].
  - cbn [with_img m_img taken]. rewrite Ea. unfold indirect_block. rewrite (bindM _ _ _ _ _ (rsect_eq ib s (so_img _ _ O) Y3)). rewrite G0.
    cbn [Z.eqb]. erewrite bindM; [|rewrite (bindM _ _ _ _ _ (take_block_eq s ltac:(lia))), xint_id by lia; fold fb b'; by rewrite (bindM _ _ _ _ _ (wsect_eq ib b' (taken s)))].
    rewrite G1, xint_id by lia. done.
  - eapply frame_trans; [|exact F']. by apply frame_take.
Qed.

Lemma file_block_indirect s own inum d nb c : store_ok s own -> holds (m_img s) own inum d nb (NDIRECT <? nb) c -> NDIRECT <= nb < MAXFILE ->
  m_freeblock s + (need (nb + 1) - need nb) <= FSSIZE -> grown s own inum d c nb (need (nb + 1) - need nb) (file_block bad d nb s).
Proof.
  intros O H Hn Hr. pose proof (h_ind _ _ _ _ _ _ _ H) as I. unfold grown. replace (NDIRECT <? nb + 1) with true by (symmetry; apply Z.ltb_lt; lia).
  unfold file_block. destruct (Z.ltb_spec nb NDIRECT); [lia|]. destruct (Z.ltb_spec NDIRECT nb) as [G|G].
  - assert (need (nb + 1) - need nb = 1) as Ek by (unfold need; repeat case_if; lia).
    destruct (owned_block _ _ _ _ O I) as (Y1 & Y2 & Y3). rewrite Y1. destruct (Z.eqb_spec (znth 0 (d_addrs d) NDIRECT) 0); [done|].
    destruct (indirect_new s own inum d nb c O H Hn ltac:(lia)) as (s' & own' & E & O' & H' & F' & B').
    exists (d_addrs d), s', own'. replace (with_addrs (d_addrs d) d) with d by by destruct d. split_and!; try done; [|lia].
    rewrite (bindM (mret d) _ s d s eq_refl), Y1. by rewrite (bindM _ _ _ _ _ E).
  - assert (nb = NDIRECT) as -> by lia. assert (need (NDIRECT + 1) - need NDIRECT = 2) as Ek by reflexivity.
    assert (m_freeblock s < FSSIZE) as Hf by lia. pose proof (fresh_range s own O Hf) as Rf. rewrite I. change (xint 0 =? 0) with true. cbn match.
    destruct (alloc_ind s own inum d c O Hf H) as [H1 E1]. set (d1 := set_d_addr NDIRECT (m_freeblock s) d) in *.
    destruct (indirect_new (taken s) (<[m_freeblock s := (inum, Ind)]> own) inum d1 NDIRECT c) as (s' & own' & E & O' & H' & F' & B');
      [by apply store_take|exact H1|done|cbn [taken m_freeblock]; lia|].
    exists (d_addrs d1), s', own'. change (with_addrs (d_addrs d1) d) with d1. cbn [taken m_freeblock] in B'. split_and!; try done; [| |lia].
    + erewrite bindM; [|rewrite (bindM _ _ _ _ _ (take_block_eq s ltac:(lia))), xint_id by lia; reflexivity]. fold d1. rewrite E1, xint_id, <- E1 by lia.
      by rewrite (bindM _ _ _ _ _ E).
    + eapply frame_trans; [|exact F']. by apply frame_take.
Qed.

Lemma file_block_spec s own inum d c nb : store_ok s own -> holds (m_img s) own inum d nb (NDIRECT <? nb) c -> nb < MAXFILE ->
  m_freeblock s + (need (nb + 1) - need nb) <= FSSIZE -> grown s own inum d c nb (need (nb + 1) - need nb) (file_block bad d nb s).
Proof.
  intros O H Hn Hr. pose proof (h_nb _ _ _ _ _ _ _ H). destruct (decide (nb < NDIRECT)); [|apply file_block_indirect; (done || lia)].
  assert (need (nb + 1) - need nb = 1) as Ek by (unfold need; repeat case_if; lia). rewrite Ek in *.
  apply file_block_direct; try done; [|lia]. by destruct (Z.ltb_spec NDIRECT nb); [lia|].
Qed.

(** The block that the next byte goes to. *)
Lemma append_block s own inum d c : store_ok s own -> let n := Z.of_nat (length c) in holds (m_img s) own inum d (nblk n) (NDIRECT <? nblk n) c ->
  n < 1024 * MAXFILE -> m_freeblock s + (need (n / 1024 + 1) - need (nblk n)) <= FSSIZE ->
  grown s own inum d c (n / 1024) (need (n / 1024 + 1) - need (nblk n)) (file_block bad d (n / 1024) s).
Proof.
  intros O n H Hm Hr. assert (0 <= n / 1024 < MAXFILE) as Hf by (split; [apply Z.div_pos; lia|apply Z.div_lt_upper_bound; lia]).
  destruct (nblk_last n ltac:(lia)) as [E|E]; rewrite E in *; [apply file_block_spec; (done || lia)|].
  rewrite Z.sub_diag in *. exists (d_addrs d), s, own. replace (with_addrs (d_addrs d) d) with d by by destruct d.
  split_and!; try done; [|lia]. eapply file_block_old; [done|exact H|lia].
Qed.

Lemma iappend_loop_spec inum : forall k p fuel d c s own, (length p <= k)%nat -> (length p <= fuel)%nat -> store_ok s own ->
  let n := Z.of_nat (length c) in let n' := Z.of_nat (length (c ++ p)) in
  holds (m_img s) own inum d (nblk n) (NDIRECT <? nblk n) c -> n' <= 1024 * MAXFILE -> m_freeblock s + (need (nblk n') - need (nblk n)) <= FSSIZE ->
  exists a s' own', iappend_loop bad fuel d n p s = inl ((with_addrs a d, n'), s') /\ store_ok s' own' /\
    holds (m_img s') own' inum (with_addrs a d) (nblk n') (NDIRECT <? nblk n') (c ++ p) /\ frame inum s own s' own' /\
    m_freeblock s' = m_freeblock s + (need (nblk n') - need (nblk n)).
Proof.
  induction k as [|k IH]; intros p fuel d c s own Hk Hfu O n n' H Hm Hr; (destruct (decide (p = [])) as [->|Np];
    [unfold n', n in *; rewrite app_nil_r in *; exists (d_addrs d), s, own; replace (with_addrs (d_addrs d) d) with d by (by destruct d);
     split_and!; try done; [by destruct fuel|lia]|]).
  - destruct p; [done|cbn in Hk; lia].
  - assert (0 < length p)%nat as Lp by (destruct p; [done|cbn; lia]). set (f := n / 1024).
    assert (1024 * f <= n < 1024 * (f + 1)) as Rf by (pose proof (Z.div_mod n 1024); pose proof (Z.mod_pos_bound n 1024); unfold f; lia).
    assert (n' = n + Z.of_nat (length p)) as En by (unfold n', n; rewrite length_app; lia).
    set (n1 := Z.to_nat (Z.min (Z.of_nat (length p)) ((f + 1) * 1024 - n))).
    assert (0 < n1 <= length p)%nat as R1 by (unfold n1; lia).
    assert (length (take n1 p) = n1) as L1 by (rewrite length_take; lia).
    assert (Z.of_nat n1 <= 1024 * (f + 1) - n) as R2 by (unfold n1; lia).
    assert (nblk (Z.of_nat (length (c ++ take n1 p))) = f + 1) as Eb by (apply nblk_in; rewrite length_app, L1; fold n; lia).
    assert (f + 1 <= nblk n') as Mb by (rewrite <- Eb; apply nblk_mono; rewrite length_app, L1; fold n; lia). apply need_mono in Mb.
    destruct (append_block s own inum d c O H ltac:(fold n; lia) ltac:(fold n f; lia)) as (a & s1 & own1 & E1 & O1 & H1 & F1 & B1). fold n f in E1, H1, B1.
    set (d1 := with_addrs a d) in *. set (x := faddr (m_img s1) d1 f) in *.
    destruct (h_data _ _ _ _ _ _ _ H1 f ltac:(lia)) as [X1 X2]. fold x in X1, X2. destruct (owned_block _ _ _ _ O1 X1) as (_ & _ & X3).
    pose proof (fblock_append c (take n1 p) f ltac:(lia) ltac:(fold n; lia) ltac:(rewrite L1; lia)) as Fa. fold n in Fa.
    pose proof (write_last s1 own1 inum d1 f _ c (take n1 p) O1 H1 ltac:(lia) ltac:(fold n; lia) ltac:(rewrite L1; lia)) as H2.
    destruct (store_write s1 own1 x (fblock (c ++ take n1 p) f) inum (Data f) O1 X1 (length_fblock _ _)) as [O2 F2].
    set (s2 := with_img (<[x := fblock (c ++ take n1 p) f]> (m_img s1)) s1) in *.
    destruct fuel as [|fuel]; [lia|].
    destruct (IH (drop n1 p) fuel d1 (c ++ take n1 p) s2 own1) as (a' & s' & own' & E3 & O3 & H3 & F3 & B3).
    { rewrite length_drop. lia. } { rewrite length_drop. lia. } { done. } { rewrite Eb. exact H2. }
    { rewrite <- app_assoc, take_drop. exact Hm. } { rewrite <- app_assoc, take_drop, Eb. fold n'. cbn [s2 with_img m_freeblock]. lia. }
    rewrite <- app_assoc, take_drop, Eb in *. fold n' in E3, H3, B3. cbn [s2 with_img m_freeblock] in B3.
    exists a', s', own'. split_and!; [|done|done|by eapply frame_trans; [|eapply frame_trans]|lia].
    destruct p as [|b p0]; [done|]. cbn [iappend_loop]. set (pp := b :: p0) in *. change BSIZE with 1024. fold f.
    rewrite (bindM (assert_that _ _) _ s tt s); [|unfold assert_that; destruct (Z.ltb_spec f MAXFILE); [done|lia]].
    rewrite (bindM _ _ _ _ _ E1). fold n1. rewrite (bindM _ _ _ _ _ (rsect_eq x s1 (so_img _ _ O1) X3)), X2, Fa.
    rewrite (bindM _ _ _ _ _ (wsect_eq x _ s1)). fold s2.
    replace (u32 (n + _)) with (Z.of_nat (length (c ++ take n1 pp))); [exact E3|].
    rewrite length_app, L1. rewrite MAXFILE_val in Hm. rewrite u32_small; unfold n1; lia.
Qed.

Lemma winode_eq inum d s : img_ok (m_img s) -> 0 <= inum < NI -> winode bad inum d s = inl (tt, with_img (put_dinode inum d (m_img s)) s).
Proof.
  intros H Hi. pose proof (iblock_range inum Hi) as [_ R]. unfold winode. rewrite (bindM _ _ _ _ _ (rsect_eq (IBLOCK inum sb) s H ltac:(unfold FSSIZE; lia))).
  apply wsect_eq.
Qed.

Lemma rinode_eq inum s : img_ok (m_img s) -> 0 <= inum < NI -> rinode bad inum s = inl (dino (m_img s) inum, s).
Proof.
  intros H Hi. pose proof (iblock_range inum Hi) as [_ R]. unfold rinode. rewrite (bindM _ _ _ _ _ (rsect_eq (IBLOCK inum sb) s H ltac:(unfold FSSIZE; lia))). done.
Qed.

Lemma zero_word n i : nth i (replicate n 0) 0 = 0.
Proof. rewrite nth_lookup. destruct (replicate n 0 !! i) eqn:E; [|done]. by apply lookup_replicate in E as [-> _]. Qed.

(** ialloc() adds an empty file. *)
Lemma ialloc_spec s own fs ty : image s own fs -> m_freeinode s < NI -> ty = T_DIR \/ ty = T_FILE ->
  exists s', ialloc bad ty s = inl (m_freeinode s, s') /\ image s' own (fs ++ [(ty, [])]).
Proof.
  intros [O I B F R U S Z] Hi Ht. set (inum := m_freeinode s) in *. assert (0 <= inum < NI) as Ri by lia.
  assert (xshort ty = ty) as Ex by (destruct Ht as [-> | ->]; reflexivity).
  set (d := mk_dinode ty 0 0 1 0 (replicate 13 0)).
  assert (Forall (fun v => 0 <= v < 2 ^ 32) (replicate 13 0)) as F0 by (apply Forall_replicate; lia).
  assert (dinode_ok d) as Od by (destruct Ht as [-> | ->]; split; first [exact F0 | done | by (split; vm_compute)]).
  set (s1 := mk_mst (m_img s) (inum + 1) (m_freeblock s)).
  assert (store_ok s1 own) as O1 by by destruct O.
  exists (with_img (put_dinode inum d (m_img s)) s1). split.
  - unfold ialloc. rewrite (bindM take_inode _ s inum s1); [|unfold take_inode, s1; fold inum; rewrite u32_small; [done|unfold NI in *; lia]].
    rewrite Ex. change (xshort 1) with 1. change (xint 0) with 0. fold d.
    by rewrite (bindM _ _ _ _ _ (winode_eq inum d s1 (so_img _ _ O1) Ri)).
  - assert (dino (put_dinode inum d (m_img s)) inum = d) as Ed by (apply dino_put_eq; [apply O|done|done]).
    split; cbn [with_img m_img m_freeinode m_freeblock s1]; rewrite ?length_app; cbn [length]; try lia.
    + by apply (store_put s1).
    + intros j ty' c Hj. apply lookup_snoc_Some in Hj as [[Lj Hj]|[-> [= <- <-]]].
      * apply (file_ok_put s); try done; try lia. by apply F.
      * replace (Z.of_nat (length fs) + 1) with inum by lia. split; rewrite ?Ed; try done. change (nblk (Z.of_nat (length (@nil BinNums.Z)))) with 0.
        split; try done; rewrite ?MAXFILE_val; try lia; intros f Hf; try lia.
        unfold faddr, d, znth. cbn [d_addrs]. change (nth (Z.to_nat NDIRECT) (replicate 13 0) 0 =? 0) with true. rewrite zero_word. by destruct (f <? NDIRECT).
    + rewrite room_app. change (need (nblk (Z.of_nat (length (ty, @nil BinNums.Z).2)))) with 0. lia.
    + intros i Hj. rewrite dino_put_ne; [apply U; lia|apply O|done|lia|done|lia].
    + rewrite blk_put_dinode by (done || lia). done.
    + intros x Hx. rewrite blk_put_dinode by (done || lia). auto.
Qed.

(** iappend() appends to a file. *)
Lemma iappend_spec s own fs j ty c p : image s own fs -> fs !! j = Some (ty, c) -> Z.of_nat (length (c ++ p)) <= 1024 * MAXFILE ->
  nmeta + room (<[j := (ty, c ++ p)]> fs) <= FSSIZE ->
  exists s' own', iappend bad (Z.of_nat j + 1) p s = inl (tt, s') /\ image s' own' (<[j := (ty, c ++ p)]> fs).
Proof.
  intros [O I B F R U S Z] Hj Hm Hr. pose proof (lookup_lt_Some _ _ _ Hj) as Lj. rewrite (room_insert _ _ _ _ _ Hj) in Hr.
  set (inum := Z.of_nat j + 1). assert (0 <= inum < NI) as Ri by (unfold inum; lia). pose proof (F j ty c Hj) as Fj. fold inum in Fj. destruct Fj as [A1 A2 A3 A4 A5 A6].
  set (d := dino (m_img s) inum) in *. set (n := Z.of_nat (length c)) in *. set (n' := Z.of_nat (length (c ++ p))) in *. assert (n' <= 1024 * 268) as Hm' by exact Hm.
  destruct (iappend_loop_spec inum (length p) p (length p) d c s own) as (a & s1 & own1 & E1 & O1 & H1 & F1 & B1); try done; fold n n'; [lia|].
  fold n n' in E1, H1, B1. set (d1 := set_d_size n' (with_addrs a d)).
  assert (dinode_ok d1) as Od1.
  { destruct A1. split; cbn; try done; [|apply H1..]. unfold n'. lia. }
  assert (forall k, 0 <= k < NI -> k <> inum -> dino (put_dinode inum d1 (m_img s1)) k = dino (m_img s) k) as Eo.
  { intros k Hk N. rewrite dino_put_ne by (done || apply O1 || apply H1). apply dino_meta; [done|apply F1]. }
  exists (with_img (put_dinode inum d1 (m_img s1)) s1), own1. split.
  - unfold iappend. rewrite (bindM _ _ _ _ _ (rinode_eq inum s (so_img _ _ O) Ri)). fold d. rewrite A5, (xint_id n) by (unfold n, n' in *; rewrite length_app in Hm'; lia).
    rewrite (bindM _ _ _ _ _ E1), xint_id by lia. by apply winode_eq; [apply O1|].
  - assert (dino (put_dinode inum d1 (m_img s1)) inum = d1) as Ed by (apply dino_put_eq; [apply O1|done|done]).
    pose proof (fr_inode _ _ _ _ _ F1) as Ei. pose proof (fr_meta _ _ _ _ _ F1) as Em. rewrite nmeta_val in Em.
    split; cbn [with_img m_img m_freeinode m_freeblock]; rewrite ?length_insert, ?Ei; try done.
    + by apply store_put; [|lia|apply H1].
    + intros k ty' c' Hk. destruct (decide (j = k)) as [<-|N].
      * rewrite list_lookup_insert_eq in Hk by done. injection Hk as <- <-. fold inum. split; rewrite ?Ed; try done. fold n'.
        apply (holds_addrs _ _ _ (with_addrs a d)); [done|]. eapply holds_same; [exact H1|]. intros x u Hx. split; [done|].
        apply blk_put_dinode; [done|]. pose proof (so_own _ _ O1 _ _ Hx) as Rx. rewrite nmeta_val in Rx. lia.
      * rewrite list_lookup_insert_ne in Hk by done. pose proof (lookup_lt_Some _ _ _ Hk). apply file_ok_put; try done; try lia; [apply H1|].
        by apply (file_ok_frame inum s own); [lia|lia| |apply F].
    + rewrite (room_insert _ _ _ _ _ Hj). fold n n'. lia.
    + intros k Hk. rewrite Eo; [by apply U|lia|]. unfold inum. lia.
    + rewrite blk_put_dinode, Em by (done || lia). done.
    + intros x Hx. rewrite blk_put_dinode, Em by (done || lia). auto.
Qed.
End Files.

(** ** Whole files *)

Lemma fblock_shift c f : 0 <= f -> fblock c (f + 1) = fblock (drop 1024 c) f.
Proof. intros H. unfold fblock. rewrite drop_drop. replace (Z.to_nat (1024 * (f + 1))) with (1024 + Z.to_nat (1024 * f))%nat by lia. done. Qed.

Lemma fblocks_concat k : forall c, (length c <= 1024 * k)%nat ->
  concat (map (fun f => fblock c (Z.of_nat f)) (seq 0 k)) = c ++ replicate (1024 * k - length c) 0.
Proof.
  induction k as [|k IH]; intros c H; [by destruct c; [|cbn in H; lia]|]. cbn [seq map concat]. rewrite <- seq_shift, map_map.
  rewrite (map_ext _ (fun f => fblock (drop 1024 c) (Z.of_nat f))) by (intros f; rewrite Nat2Z.inj_succ; by apply fblock_shift; lia).
  rewrite IH by (rewrite length_drop; lia). unfold fblock. change (Z.to_nat (1024 * Z.of_nat 0)) with 0%nat. rewrite drop_0, length_take, length_drop.
  destruct (decide (length c <= 1024)%nat).
  - rewrite take_ge, drop_ge by done. cbn [app]. rewrite <- app_assoc, <- replicate_add. do 2 f_equal. lia.
  - replace (1024 - 1024 `min` length c)%nat with 0%nat by lia. cbn [replicate]. rewrite app_nil_r, app_assoc, take_drop. do 2 f_equal. lia.
Qed.

Lemma inode_at_dino img inum : let d := dino img inum in let ip := inode_at (blk img) sb inum in
  i_type ip = d_type d /\ i_nlink ip = d_nlink d /\ i_size ip = d_size d /\ forall f, iaddr (blk img) ip f = faddr img d f.
Proof.
  intros d ip. destruct (load_dinode_bytes (blk img (IBLOCK inum sb)) (inum mod IPB) zero_inode) as (A & _ & _ & B & C & E); [apply inode_slot|].
  split_and!; [exact A|exact B|exact C|]. intros f. unfold iaddr, faddr, ip, inode_at. by rewrite E.
Qed.

(** A file that holds [c], read up to a size past its end. *)
Lemma holds_data img own inum d ind c n : holds img own inum d (nblk (Z.of_nat (length c))) ind c -> blk img 0 = zeroes ->
  Z.of_nat (length c) <= n <= 1024 * MAXFILE ->
  take (Z.to_nat n) (concat (map (fun f => blk img (faddr img d (Z.of_nat f))) (seq 0 (Z.to_nat (nblk n))))) = c ++ replicate (Z.to_nat n - length c) 0.
Proof.
  intros H Z0 Hn. pose proof (nblk_spec n ltac:(lia)) as Rn. pose proof (nblk_spec (Z.of_nat (length c)) ltac:(lia)) as Rc. rewrite MAXFILE_val in Hn.
  rewrite (map_ext_in _ (fun f => fblock c (Z.of_nat f))).
  - rewrite fblocks_concat by lia. rewrite take_app, take_ge by lia. f_equal. rewrite take_replicate. f_equal. lia.
  - intros f Hf. apply in_seq in Hf. destruct (decide (Z.of_nat f < nblk (Z.of_nat (length c)))).
    + apply (h_data _ _ _ _ _ _ _ H). lia.
    + rewrite (h_none _ _ _ _ _ _ _ H) by (rewrite MAXFILE_val; lia). rewrite Z0. symmetry. apply fblock_past. lia.
Qed.

(** ** Bits *)

Lemma bit_free_test d b : bit_free d b = negb (Z.testbit (znth 0 d (b / 8)) (b mod 8)).
Proof.
  unfold bit_free, bit_mask. set (x := znth 0 d (b / 8)). pose proof (Z.mod_pos_bound b 8 ltac:(lia)) as R. set (k := b mod 8) in *.
  rewrite Z.shiftl_1_l. destruct (Z.testbit x k) eqn:E; cbn [negb].
  - apply Z.eqb_neq. intros H. apply (f_equal (fun y => Z.testbit y k)) in H. rewrite Z.land_spec, E, Z.pow2_bits_true, Z.bits_0 in H by lia. done.
  - apply Z.eqb_eq, Z.bits_inj'. intros n Hn. rewrite Z.land_spec, Z.bits_0, Z.pow2_bits_eqb by lia. destruct (Z.eqb_spec k n) as [<-|]; [by rewrite E|apply andb_false_r].
Qed.

Lemma bit_free_set d b b' : 0 <= b < 8 * Z.of_nat (length d) -> 0 <= b' -> bit_free (bit_set d b) b' = if b' =? b then false else bit_free d b'.
Proof.
  intros Hb Hb'. rewrite !bit_free_test. unfold bit_set, bit_mask. pose proof (Z.mod_pos_bound b 8 ltac:(lia)). pose proof (Z.mod_pos_bound b' 8 ltac:(lia)).
  assert (0 <= b / 8 < Z.of_nat (length d)) by (split; [apply Z.div_pos|apply Z.div_lt_upper_bound]; lia). assert (0 <= b' / 8) by (apply Z.div_pos; lia).
  destruct (decide (b / 8 = b' / 8)) as [E|E].
  - rewrite <- E, znth_zupd_eq by done. unfold u8. rewrite Z.mod_pow2_bits_low, Z.lor_spec, Z.shiftl_1_l, Z.pow2_bits_eqb by lia.
    destruct (Z.eqb_spec b' b) as [->|N]; [by rewrite Z.eqb_refl, orb_true_r|]. destruct (Z.eqb_spec (b mod 8) (b' mod 8)) as [Em|]; [|by rewrite orb_false_r].
    exfalso. apply N. rewrite (Z.div_mod b 8), (Z.div_mod b' 8) by lia. lia.
  - rewrite znth_zupd_ne by lia. destruct (Z.eqb_spec b' b) as [->|]; done.
Qed.

Lemma bits_below used : 0 <= used <= 8192 -> let d := fold_left (fun buf i => bit_set buf (Z.of_nat i)) (seq 0 (Z.to_nat used)) zeroes in
  length d = 1024%nat /\ forall b, 0 <= b < 8192 -> bit_free d b = negb (b <? used).
Proof.
  intros H. destruct (Z_of_nat_complete_inf used) as [k ->]; [lia|]. rewrite Nat2Z.id. assert (Z.of_nat k <= 8192) as Hk by lia. clear H.
  induction k as [|k IH]; cbn zeta.
  - split; [done|]. intros b Hb. rewrite bit_free_test. cbn [seq fold_left]. unfold zeroes, znth. rewrite nth_lookup.
    destruct (Z.ltb_spec b (Z.of_nat 0)); [lia|]. destruct (replicate _ _ !! _) eqn:E; [apply lookup_replicate in E as [-> _]|]; by rewrite Z.bits_0.
  - destruct (IH ltac:(lia)) as [L B]. rewrite seq_S, fold_left_app. cbn [fold_left Nat.add]. set (d := fold_left _ _ _) in *.
    split; [unfold bit_set; by rewrite length_zupd|]. intros b Hb. rewrite bit_free_set by (rewrite ?L; lia). rewrite B by done.
    destruct (Z.eqb_spec b (Z.of_nat k)), (Z.ltb_spec b (Z.of_nat k)), (Z.ltb_spec b (Z.of_nat (S k))); (done || lia).
Qed.
