(* ===== verification/MkfsImage.v ===== *)
(** * The image that mkfs builds, as a whole (mkfs/mkfs.c, main())

    main() zeroes the disk, writes the super block, makes the root directory
    and the files, and marks the blocks it used. *)

From S2P Require Import Prelude Abi Riscv Memory KState KMonad Spinlock Kalloc Vm Proc Printf Sleeplock Bio Log BlockSpec Fs FsView Mkfs MkfsSpec.

(** ** Growing lists of files *)

(** The files of [fs'] are those of [fs] with more at their ends, and new ones. *)
Fixpoint grows (fs fs' : list (Z * list Z)) : Prop :=
  match fs, fs' with
  | [], _ => True
  | (ty, c) :: fs, (ty', c') :: fs' => ty = ty' /\ (length c <= length c')%nat /\ grows fs fs'
  | _, [] => False
  end.

Lemma need_nonneg n : 0 <= n -> 0 <= need (nblk n).
Proof. intros H. pose proof (nblk_spec n H). unfold need. case_if; lia. Qed.

Lemma room_nonneg fs : 0 <= room fs.
Proof. induction fs as [|x fs IH]; [done|]. rewrite room_cons. pose proof (need_nonneg (Z.of_nat (length x.2))). lia. Qed.

Lemma grows_room fs : forall fs', grows fs fs' -> room fs <= room fs'.
Proof.
  induction fs as [|[ty c] fs IH]; intros [|[ty' c'] fs'] H; try done; [apply room_nonneg|]. destruct H as (_ & L & H). rewrite !room_cons. cbn [snd].
  specialize (IH fs' H). assert (need (nblk (Z.of_nat (length c))) <= need (nblk (Z.of_nat (length c')))) by (apply need_mono, nblk_mono; lia). lia.
Qed.

Lemma grows_refl fs : grows fs fs.
Proof. induction fs as [|[ty c] fs IH]; done. Qed.

Lemma grows_app fs fs' : grows fs (fs ++ fs').
Proof. induction fs as [|[ty c] fs IH]; [done|]. cbn. auto. Qed.

Lemma grows_trans fs1 : forall fs2 fs3, grows fs1 fs2 -> grows fs2 fs3 -> grows fs1 fs3.
Proof.
  induction fs1 as [|[t1 c1] fs1 IH]; intros [|[t2 c2] fs2] [|[t3 c3] fs3] A B; try done. destruct A as (-> & A1 & A2), B as (-> & B1 & B2).
  split; [done|]. split; [lia|eauto].
Qed.

Lemma grows_insert fs : forall j ty c p, fs !! j = Some (ty, c) -> grows fs (<[j := (ty, c ++ p)]> fs).
Proof.
  induction fs as [|[t0 c0] fs IH]; intros [|j] ty c p H; try done.
  - assert (t0 = ty /\ c0 = c) as [-> ->] by (cbn in H; split; congruence). cbn. rewrite length_app. split; [done|]. split; [lia|apply grows_refl].
  - cbn. split; [done|]. split; [lia|]. by apply IH.
Qed.

(** ** The steps of main() *)

Section Image.
Variable bad : Z -> bool.
Variable host : list Z -> option (list (list Z)).
Hypothesis good : forall x, bad x = false.

(** iappend() of one piece after the other. *)
Lemma append_all chunks : forall s own fs j ty c, image s own fs -> fs !! j = Some (ty, c) ->
  Z.of_nat (length (c ++ concat chunks)) <= 1024 * MAXFILE -> nmeta + room (<[j := (ty, c ++ concat chunks)]> fs) <= FSSIZE ->
  exists s' own', mfor chunks (iappend bad (Z.of_nat j + 1)) s = inl (tt, s') /\ image s' own' (<[j := (ty, c ++ concat chunks)]> fs).
Proof.
  induction chunks as [|p chunks IH]; intros s own fs j ty c Im Hj Hm Hr.
  - cbn [concat] in *. rewrite app_nil_r. exists s, own. split; [done|]. by rewrite list_insert_id.
  - cbn [concat] in *. rewrite app_assoc in *. pose proof (lookup_lt_Some _ _ _ Hj) as Lj.
    assert (<[j := (ty, c ++ p)]> fs !! j = Some (ty, c ++ p)) as Hj' by by apply list_lookup_insert_eq.
    pose proof (grows_room _ _ (grows_insert _ j ty (c ++ p) (concat chunks) Hj')) as G. rewrite list_insert_twice in G.
    destruct (iappend_spec bad good s own fs j ty c p Im Hj) as (s1 & own1 & E1 & Im1); [rewrite (length_app (c ++ p)) in Hm; lia|lia|].
    destruct (IH s1 own1 _ j ty (c ++ p) Im1 Hj' Hm) as (s2 & own2 & E2 & Im2); [by rewrite list_insert_twice|].
    rewrite list_insert_twice in Im2. exists s2, own2. split; [|done]. cbn [mfor]. by rewrite (bindM _ _ _ _ _ E1).
Qed.

(** The name in the directory, the entry and the contents of an argument. *)
Definition image_name (arg : list Z) : list Z := strip_mark (strip_dir arg).
Definition entry (inum : Z) (arg : list Z) : list Z := mk_dirent inum (lstrncpy (image_name arg) DIRSIZ).
Definition contents (arg : list Z) : list Z := concat (default [] (host arg)).

Record arg_ok (arg : list Z) : Prop := {
  ao_open : is_Some (host arg);
  ao_slash : 47 ∉ strip_dir arg;
  ao_name : (length (image_name arg) <= DIRSIZ)%nat;
  ao_size : Z.of_nat (length (contents arg)) <= 1024 * MAXFILE;
}.

Lemma add_file_spec s own fs rc arg : image s own ((T_DIR, rc) :: fs) -> arg_ok arg -> let inum := Z.of_nat (length fs) + 2 in inum < NI ->
  Z.of_nat (length (rc ++ entry inum arg)) <= 1024 * MAXFILE ->
  let fs' := (T_DIR, rc ++ entry inum arg) :: fs ++ [(T_FILE, contents arg)] in nmeta + room fs' <= FSSIZE ->
  exists s' own', add_file bad host 1 arg s = inl (tt, s') /\ image s' own' fs'.
Proof.
  intros Im [Ao As An Az] inum Hi Hm fs' Hr. pose proof (im_inode _ _ _ Im) as Ei. cbn [length] in Ei.
  destruct (ialloc_spec bad good s own _ T_FILE Im ltac:(lia) ltac:(by right)) as (s1 & E1 & Im1). replace (m_freeinode s) with inum in E1 by lia.
  change (((T_DIR, rc) :: fs) ++ [(T_FILE, [])]) with ((T_DIR, rc) :: (fs ++ [(T_FILE, [])])) in Im1.
  assert (room ((T_DIR, rc ++ entry inum arg) :: fs ++ [(T_FILE, [])]) <= room fs') as G.
  { unfold fs'. rewrite !room_cons, !room_app. cbn [snd length]. change (need (nblk (Z.of_nat 0))) with 0. pose proof (need_nonneg (Z.of_nat (length (contents arg)))). lia. }
  destruct (iappend_spec bad good s1 own _ 0 T_DIR rc (entry inum arg) Im1 eq_refl Hm) as (s2 & own2 & E2 & Im2); [exact (Z.le_trans _ _ _ (Zplus_le_compat_l _ _ _ G) Hr)|].
  change (<[0%nat := (T_DIR, rc ++ entry inum arg)]> ((T_DIR, rc) :: fs ++ [(T_FILE, [])])) with ((T_DIR, rc ++ entry inum arg) :: fs ++ [(T_FILE, [])]) in Im2.
  assert (forall x, <[S (length fs) := x]> ((T_DIR, rc ++ entry inum arg) :: fs ++ [(T_FILE, [])]) = (T_DIR, rc ++ entry inum arg) :: fs ++ [x]) as Ein.
  { intros x. change (<[S (length fs) := x]> (?y :: ?l)) with (y :: <[length fs := x]> l). f_equal. by rewrite insert_app_r_alt, Nat.sub_diag by lia. }
  destruct Ao as [chunks Eh]. assert (contents arg = concat chunks) as Ec by (unfold contents; by rewrite Eh).
  destruct (append_all chunks s2 own2 _ (S (length fs)) T_FILE [] Im2) as (s3 & own3 & E3 & Im3).
  { change ((fs ++ [(T_FILE, [])]) !! length fs = Some (T_FILE, [])). by rewrite lookup_app_r, Nat.sub_diag by lia. } { cbn [app]. by rewrite <- Ec. } { rewrite Ein. cbn [app]. rewrite <- Ec. exact Hr. }
  rewrite Ein in Im3. cbn [app] in Im3. rewrite <- Ec in Im3. exists s3, own3. split; [|exact Im3].
  unfold add_file. rewrite (bindM (assert_that _ _) _ s tt s) by (rewrite bool_decide_eq_true_2; done). rewrite Eh. fold (image_name arg).
  rewrite (bindM (assert_that _ _) _ s tt s) by (rewrite bool_decide_eq_true_2; done). rewrite (bindM _ _ _ _ _ E1).
  rewrite xshort_id by (unfold NI in Hi; lia). fold (entry inum arg). change (Z.of_nat 0 + 1) with 1 in E2. rewrite (bindM _ _ _ _ _ E2).
  by replace inum with (Z.of_nat (S (length fs)) + 1) by lia.
Qed.

(** The entries of the files in the root directory, numbered from [k]. *)
Fixpoint entries (k : Z) (args : list (list Z)) : list Z :=
  match args with
  | [] => []
  | a :: args' => entry k a ++ entries (k + 1) args'
  end.

Definition file_list (args : list (list Z)) : list (Z * list Z) := map (fun a => (T_FILE, contents a)) args.

Lemma add_files_spec args : forall s own fs rc, image s own ((T_DIR, rc) :: fs) -> Forall arg_ok args -> let k := Z.of_nat (length fs) + 2 in
  k + Z.of_nat (length args) <= NI -> Z.of_nat (length (rc ++ entries k args)) <= 1024 * MAXFILE ->
  let fs' := (T_DIR, rc ++ entries k args) :: fs ++ file_list args in nmeta + room fs' <= FSSIZE ->
  exists s' own', mfor args (add_file bad host 1) s = inl (tt, s') /\ image s' own' fs'.
Proof.
  induction args as [|a args IH]; intros s own fs rc Im F k Hk Hm fs' Hr.
  - unfold fs'. cbn [entries file_list map]. rewrite !app_nil_r. by exists s, own.
  - apply Forall_cons_1 in F as [Fa F]. cbn [length] in Hk. cbn [entries] in *. rewrite app_assoc in Hm.
    assert (fs' = (T_DIR, (rc ++ entry k a) ++ entries (k + 1) args) :: (fs ++ [(T_FILE, contents a)]) ++ file_list args) as Ef.
    { unfold fs'. cbn [file_list map]. by rewrite <- !app_assoc. }
    assert (room ((T_DIR, rc ++ entry k a) :: fs ++ [(T_FILE, contents a)]) <= room fs') as G.
    { apply grows_room. rewrite Ef. split; [done|]. split; [rewrite (length_app (rc ++ entry k a)); lia|apply grows_app]. }
    destruct (add_file_spec s own fs rc a Im Fa) as (s1 & own1 & E1 & Im1); fold k; [lia|rewrite (length_app (rc ++ _)) in Hm; lia|lia|]. fold k in Im1.
    assert (Z.of_nat (length (fs ++ [(T_FILE, contents a)])) + 2 = k + 1) as Ek by (rewrite length_app; cbn [length]; lia).
    destruct (IH s1 own1 _ _ Im1 F) as (s2 & own2 & E2 & Im2); rewrite ?Ek; [lia|done|by rewrite <- Ef|].
    rewrite Ek, <- Ef in Im2. exists s2, own2. split; [|done]. cbn [mfor]. by rewrite (bindM _ _ _ _ _ E1).
Qed.

(** The empty disk. *)
Lemma zero_disk n : forall k s, exists img, mfor (seq k n) (fun i => wsect bad (Z.of_nat i) zeroes) s = inl (tt, with_img img s) /\
  forall x, img !! x = if bool_decide (Z.of_nat k <= x < Z.of_nat (k + n)) then Some zeroes else m_img s !! x.
Proof.
  induction n as [|n IH]; intros k s.
  - exists (m_img s). split; [by destruct s|]. intros x. rewrite bool_decide_eq_false_2 by lia. done.
  - cbn [seq mfor]. rewrite (bindM _ _ _ _ _ (wsect_eq bad good (Z.of_nat k) zeroes s)). destruct (IH (S k) (with_img (<[Z.of_nat k := zeroes]> (m_img s)) s)) as (img & -> & H).
    exists img. split; [done|]. intros x. rewrite H. cbn [with_img m_img]. destruct (decide (x = Z.of_nat k)) as [->|N].
    + rewrite bool_decide_eq_false_2 by lia. rewrite lookup_insert_eq, bool_decide_eq_true_2 by lia. done.
    + rewrite lookup_insert_ne by done. by erewrite bool_decide_ext by (instantiate (1 := Z.of_nat k <= x < Z.of_nat (k + S n)); lia).
Qed.

Lemma of_bytes_zero n : of_bytes (replicate n 0) = 0.
Proof. induction n as [|n IH]; [done|]. cbn [replicate of_bytes]. by rewrite IH. Qed.

Lemma dino_zero img i : blk img (IBLOCK i sb) = zeroes -> d_type (dino img i) = 0.
Proof.
  intros E. unfold dino, bytes_dinode. cbn [d_type]. rewrite E. unfold zeroes, get_half. rewrite !drop_replicate, !take_replicate, drop_replicate, take_replicate, of_bytes_zero. done.
Qed.

Definition super_block : list Z := put_bytes zeroes 0 sb_bytes.

Lemma image_start img : (forall x, 0 <= x < FSSIZE -> img !! x = Some (if x =? 1 then super_block else zeroes)) -> image (mk_mst img 1 nmeta) ∅ [].
Proof.
  intros H. assert (forall x, 0 <= x < FSSIZE -> blk img x = if x =? 1 then super_block else zeroes) as Hb by (intros x Hx; unfold blk; by rewrite H).
  rewrite nmeta_val. unfold FSSIZE in *. split; cbn [m_img m_freeinode m_freeblock]; try done.
  - split; cbn [m_img m_freeblock]; rewrite ?nmeta_val; try done.
    + intros x Hx. eexists. split; [by apply H|]. by destruct (x =? 1).
    + intros x Hx. unfold FSSIZE in Hx. rewrite Hb by lia. by destruct (Z.eqb_spec x 1); [lia|].
  - intros i Hi. apply dino_zero. destruct (iblock_range i ltac:(lia)) as [_ R]. rewrite Hb by lia. by destruct (Z.eqb_spec (IBLOCK i sb) 1); [lia|].
  - by rewrite Hb.
  - intros x Hx. rewrite Hb by lia. by destruct (Z.eqb_spec x 1); [lia|].
Qed.

(** ** The finished image *)

Definition dots : list Z := mk_dirent 1 (chars "." ++ replicate 13 0) ++ mk_dirent 1 (chars ".." ++ replicate 12 0).
Definition root_data (args : list (list Z)) : list Z := dots ++ entries 2 args.
Definition all_files (args : list (list Z)) : list (Z * list Z) := (T_DIR, root_data args) :: file_list args.

(** What the kernel finds on the disk: the super block, an empty log, the
    inode and the bytes of every file, the root directory, the other inodes
    free, and a bitmap that has exactly the blocks up to [used] as taken, the
    blocks of the files among them and all different. *)
Record good_image (img : gmap Z (list Z)) (args : list (list Z)) : Prop := {
  gi_super : map (fun k => get_word (blk img 1) (4 * Z.of_nat k)) (seq 0 8) = [FSMAGIC; FSSIZE; nblocks; NINODES; nlog; 2; 33; 46];
  gi_log : get_word (blk img 2) 0 = 0;
  gi_file j a : args !! j = Some a -> let ip := inode_at (blk img) sb (Z.of_nat j + 2) in
    i_type ip = T_FILE /\ i_nlink ip = 1 /\ i_size ip = Z.of_nat (length (contents a)) /\ file_data (blk img) ip = contents a;
  gi_root : let ip := inode_at (blk img) sb ROOTINO in let n := Z.of_nat (length (root_data args)) in
    i_type ip = T_DIR /\ i_nlink ip = 1 /\ i_size ip = (n / BSIZE + 1) * BSIZE /\
    file_data (blk img) ip = root_data args ++ replicate (Z.to_nat (i_size ip - n)) 0;
  gi_unused i : Z.of_nat (length args) + 2 <= i < NINODES -> i_type (inode_at (blk img) sb i) = 0;
  gi_bitmap b : 0 <= b < BPB -> bit_free (blk img 46) b = negb (b <? nmeta + room (all_files args));
  gi_taken j ty c f : all_files args !! j = Some (ty, c) -> 0 <= f < nblk (Z.of_nat (length c)) ->
    nmeta <= iaddr (blk img) (inode_at (blk img) sb (Z.of_nat j + 1)) f < nmeta + room (all_files args);
  gi_apart j ty c f j' ty' c' f' : all_files args !! j = Some (ty, c) -> 0 <= f < nblk (Z.of_nat (length c)) ->
    all_files args !! j' = Some (ty', c') -> 0 <= f' < nblk (Z.of_nat (length c')) ->
    iaddr (blk img) (inode_at (blk img) sb (Z.of_nat j + 1)) f = iaddr (blk img) (inode_at (blk img) sb (Z.of_nat j' + 1)) f' -> j = j' /\ f = f';
}.

(** The last two steps: the size of the root directory and the bitmap. *)
Definition finished (s : mst) (n used : Z) : gmap Z (list Z) :=
  <[46 := fold_left (fun buf i => bit_set buf (Z.of_nat i)) (seq 0 (Z.to_nat used)) zeroes]> (put_dinode 1 (set_d_size n (dino (m_img s) 1)) (m_img s)).

Lemma finished_file s own fs n used j ty c : image s own fs -> 0 <= n < 2 ^ 32 -> fs !! j = Some (ty, c) ->
  let img := finished s n used in let d := dino img (Z.of_nat j + 1) in
  d_type d = ty /\ d_nlink d = 1 /\ d_size d = (if (j =? 0)%nat then n else Z.of_nat (length c)) /\
  holds img own (Z.of_nat j + 1) d (nblk (Z.of_nat (length c))) (NDIRECT <? nblk (Z.of_nat (length c))) c.
Proof.
  intros Im Hn Hj img d. pose proof (lookup_lt_Some _ _ _ Hj) as Lj. pose proof (im_inode _ _ _ Im) as Ei. pose proof (im_bound _ _ _ Im) as Bi.
  pose proof (im_store _ _ _ Im) as O. set (d0 := set_d_size n (dino (m_img s) 1)) in *. set (inum := Z.of_nat j + 1) in *.
  assert (0 <= 1 < NI) as R1 by done. assert (0 <= inum < NI) as Ri by (unfold inum; lia).
  assert (exists ty1 c1, fs !! 0%nat = Some (ty1, c1)) as (ty1 & c1 & H0).
  { destruct fs as [|[ty1 c1] fs]; [done|]. by exists ty1, c1. }
  pose proof (im_files _ _ _ Im _ _ _ H0) as Fr. change (Z.of_nat 0 + 1) with 1 in Fr.
  assert (dinode_ok d0) as O0 by (destruct (fo_ok _ _ _ _ _ Fr); split; done).
  assert (forall x u, own !! x = Some u -> blk img x = blk (m_img s) x) as Hb.
  { intros x u Hx. pose proof (so_own _ _ O _ _ Hx) as Rx. rewrite nmeta_val in Rx. unfold img, finished. rewrite blk_insert_ne, blk_put_dinode by (done || lia). done. }
  assert (forall i, 0 <= i < NI -> dino img i = dino (put_dinode 1 d0 (m_img s)) i) as Ed.
  { intros i Hi. pose proof (iblock_range i Hi) as [_ Rb]. unfold dino, img, finished. rewrite blk_insert_ne by lia. done. }
  pose proof (im_files _ _ _ Im _ _ _ Hj) as [A1 A2 A3 A4 A5 A6]. fold inum in A1, A2, A3, A4, A5, A6.
  assert (holds img own inum (dino (m_img s) inum) (nblk (Z.of_nat (length c))) (NDIRECT <? nblk (Z.of_nat (length c))) c) as Hh.
  { eapply holds_same; [exact A6|]. intros x u Hx. split; [done|]. by eapply Hb. }
  unfold d. rewrite Ed by done. destruct (Nat.eqb_spec j 0) as [->|N].
  - change inum with 1 in *. rewrite dino_put_eq by (done || apply O). split_and!; [exact A2|exact A4|done|]. by apply (holds_addrs _ _ _ (dino (m_img s) 1)).
  - rewrite dino_put_ne by (done || apply O || apply O0 || (unfold inum; lia)). done.
Qed.

Lemma finished_block s own fs n used x : image s own fs -> ~ (33 <= x < 46) -> x <> 46 -> blk (finished s n used) x = blk (m_img s) x.
Proof. intros Im X1 X2. unfold finished. by rewrite blk_insert_ne, blk_put_dinode by done. Qed.

Lemma finished_owns s own fs n used j ty c f : image s own fs -> 0 <= n < 2 ^ 32 -> fs !! j = Some (ty, c) -> 0 <= f < nblk (Z.of_nat (length c)) ->
  let img := finished s n used in own !! iaddr (blk img) (inode_at (blk img) sb (Z.of_nat j + 1)) f = Some (Z.of_nat j + 1, Data f).
Proof.
  intros Im Hn Hj Hf img. destruct (inode_at_dino img (Z.of_nat j + 1)) as (_ & _ & _ & ->).
  destruct (finished_file s own fs n used j ty c Im Hn Hj) as (_ & _ & _ & H). by apply (h_data _ _ _ _ _ _ _ H).
Qed.

Lemma finished_data s own fs n used j ty c m : image s own fs -> 0 <= n < 2 ^ 32 -> fs !! j = Some (ty, c) ->
  let img := finished s n used in i_size (inode_at (blk img) sb (Z.of_nat j + 1)) = m -> Z.of_nat (length c) <= m <= 1024 * MAXFILE ->
  file_data (blk img) (inode_at (blk img) sb (Z.of_nat j + 1)) = c ++ replicate (Z.to_nat m - length c) 0.
Proof.
  intros Im Hn Hj img Em Hm. destruct (finished_file s own fs n used j ty c Im Hn Hj) as (_ & _ & _ & H).
  assert (blk img 0 = zeroes) as Z0 by (unfold img; rewrite (finished_block s own fs) by (done || lia); apply (im_zero _ _ _ Im); lia).
  unfold file_data, file_blocks. rewrite Em. rewrite <- (holds_data _ _ _ _ _ _ m H Z0 Hm).
  f_equal. f_equal. apply map_ext. intros f. destruct (inode_at_dino img (Z.of_nat j + 1)) as (_ & _ & _ & ->). done.
Qed.

Lemma length_lstrncpy n : forall t, length (lstrncpy t n) = n.
Proof. induction n as [|n IH]; intros t; [done|]. cbn [lstrncpy]. destruct (hd 0 t =? 0); [by rewrite length_replicate|]. cbn [length]. by rewrite IH. Qed.

Lemma length_entries args : forall k, length (entries k args) = (16 * length args)%nat.
Proof.
  induction args as [|a args IH]; intros k; [done|]. cbn [entries length]. rewrite length_app, IH. unfold entry, mk_dirent.
  rewrite length_app, length_bytes_of, length_lstrncpy. unfold DIRSIZ. lia.
Qed.

Lemma length_root args : length (root_data args) = (32 + 16 * length args)%nat.
Proof. unfold root_data. rewrite length_app, length_entries. done. Qed.

Lemma finished_good s own args : image s own (all_files args) -> Forall arg_ok args -> Z.of_nat (length args) + 2 <= NINODES ->
  good_image (finished s ((Z.of_nat (length (root_data args)) / BSIZE + 1) * BSIZE) (m_freeblock s)) args.
Proof.
  intros Im F Hl. change BSIZE with 1024. set (n := Z.of_nat (length (root_data args))). set (n' := (n / 1024 + 1) * 1024). unfold NINODES in Hl.
  assert (n = 32 + 16 * Z.of_nat (length args)) as En by (unfold n; rewrite length_root; lia).
  assert (n <= n' <= 4096) as Rn.
  { pose proof (Z.div_mod n 1024). pose proof (Z.mod_pos_bound n 1024). assert (n / 1024 < 4) by (apply Z.div_lt_upper_bound; lia). unfold n'. lia. }
  set (img := finished s n' (m_freeblock s)).
  pose proof (im_store _ _ _ Im) as O. pose proof (im_blocks _ _ _ Im) as Eb. pose proof (so_free _ _ O) as Rb.
  pose proof (fun j ty c => finished_file s own _ n' (m_freeblock s) j ty c Im ltac:(lia)) as Ff. fold img in Ff.
  pose proof (fun x => finished_block s own _ n' (m_freeblock s) x Im) as Hb. fold img in Hb.
  pose proof (fun j ty c f => finished_owns s own _ n' (m_freeblock s) j ty c f Im ltac:(lia)) as Own. cbv zeta in Own. fold img in Own.
  pose proof (fun j ty c m => finished_data s own _ n' (m_freeblock s) j ty c m Im ltac:(lia)) as Dat. cbv zeta in Dat. fold img in Dat.
  split.
  - rewrite Hb, (im_super _ _ _ Im) by lia. vm_compute. done.
  - rewrite Hb, (im_zero _ _ _ Im) by lia. apply get_word_zero.
  - intros j a Hj ip. assert (all_files args !! S j = Some (T_FILE, contents a)) as Hj' by (change (file_list args !! j = Some (T_FILE, contents a)); unfold file_list; by rewrite list_lookup_fmap, Hj).
    destruct (Ff _ _ _ Hj') as (T & N & Sz & _). cbn [Nat.eqb] in Sz. destruct (inode_at_dino img (Z.of_nat (S j) + 1)) as (I1 & I2 & I3 & _).
    replace (Z.of_nat (S j) + 1) with (Z.of_nat j + 2) in * by lia. fold ip in I1, I2, I3. rewrite T in I1. rewrite N in I2. rewrite Sz in I3. split_and!; try done.
    pose proof (Dat (S j) T_FILE (contents a) (Z.of_nat (length (contents a))) Hj') as Dj. replace (Z.of_nat (S j) + 1) with (Z.of_nat j + 2) in Dj by lia. fold ip in Dj.
    rewrite Dj, Nat2Z.id, Nat.sub_diag by (done || (split; [lia|]; rewrite Forall_forall in F; apply F; by eapply list_elem_of_lookup_2)). apply app_nil_r.
  - intros ip m. destruct (Ff 0%nat _ _ eq_refl) as (T & N & Sz & _). destruct (inode_at_dino img (Z.of_nat 0 + 1)) as (I1 & I2 & I3 & _).
    change (Z.of_nat 0 + 1) with ROOTINO in *. fold ip in I1, I2, I3. cbn [Nat.eqb] in Sz. rewrite T in I1. rewrite N in I2. rewrite Sz in I3. split_and!; try done.
    pose proof (Dat 0%nat T_DIR (root_data args) n' eq_refl I3) as D0. change (Z.of_nat 0 + 1) with ROOTINO in D0. fold ip in D0. rewrite D0 by (fold n; rewrite MAXFILE_val; lia).
    f_equal. rewrite I3. fold n in m. f_equal. unfold m. lia.
  - intros i Hi. unfold NINODES in Hi. destruct (inode_at_dino img i) as (-> & _).
    assert (0 <= i < NI) as Ri by (unfold NI; lia). pose proof (iblock_range i Ri) as [_ Rk]. unfold img, finished, dino at 1. rewrite blk_insert_ne by lia.
    fold (dino (put_dinode 1 (set_d_size n' (dino (m_img s) 1)) (m_img s)) i).
    rewrite dino_put_ne; [|apply O|done|done|apply (im_files _ _ _ Im 0%nat _ _ eq_refl)|lia]. apply (im_unused _ _ _ Im). rewrite (im_inode _ _ _ Im).
    cbn [all_files length]. unfold file_list. rewrite length_map. unfold NI. lia.
  - intros b Hb'. unfold img, finished. rewrite blk_insert_eq, <- Eb. apply bits_below; [rewrite nmeta_val in Rb; unfold FSSIZE in Rb; lia|exact Hb'].
  - intros j ty c f Hj Hf. rewrite <- Eb. eapply (so_own _ _ O). by eapply Own.
  - intros j ty c f j' ty' c' f' Hj Hf Hj' Hf' E. pose proof (Own _ _ _ _ Hj Hf) as O1. pose proof (Own _ _ _ _ Hj' Hf') as O2. rewrite E, O2 in O1.
    assert (Z.of_nat j' + 1 = Z.of_nat j + 1 /\ f' = f) as [? ?] by (split; congruence). split; [lia|done].
Qed.
End Image.

(** C21 mkfs builds the file system it is asked for.  When the
    arguments can be opened, their names fit and the files fit on the disk
    and in the inodes, the program runs to its end, however read() cuts the
    files into pieces; the kernel then finds the super block, an empty log, a
    regular file of one link with exactly the bytes of each argument, a root
    directory of all of them, the remaining inodes free, and a bitmap that
    has exactly the blocks in use as taken, no block being used twice. *)
Theorem mkfs_correct bad host args name : (forall x, bad x = false) -> Forall (arg_ok host) args ->
  Z.of_nat (length args) + 2 <= NINODES -> nmeta + room (all_files host args) <= FSSIZE ->
  exists s, mkfs_main true bad host (name :: args) mkfs_start = inl (tt, s) /\ good_image host (m_img s) args.
Proof.
  intros good F Hl Hr. unfold NINODES in Hl. unfold mkfs_main. cbn [negb].
  destruct (zero_disk bad good (Z.to_nat FSSIZE) 0 (mk_mst ∅ 1 nmeta)) as (img0 & E0 & H0).
  rewrite (bindM _ _ mkfs_start tt (mk_mst ∅ 1 nmeta) eq_refl), (bindM _ _ _ _ _ E0). clear E0.
  rewrite (bindM _ _ _ _ _ (wsect_eq bad good 1 super_block _)). cbn [with_img m_img m_freeinode m_freeblock].
  set (img1 := <[1 := super_block]> img0). assert (image (mk_mst img1 1 nmeta) ∅ []) as Im0.
  { apply image_start. intros x Hx. unfold img1. destruct (Z.eqb_spec x 1) as [->|N]; [apply lookup_insert_eq|]. rewrite lookup_insert_ne by done.
    rewrite H0, bool_decide_eq_true_2; [done|]. unfold FSSIZE in *. lia. }
  destruct (ialloc_spec bad good _ _ _ T_DIR Im0 ltac:(done) ltac:(by left)) as (s1 & E1 & Im1). change (m_freeinode _) with ROOTINO in E1.
  rewrite (bindM _ _ _ _ _ E1), (bindM _ _ s1 tt s1 eq_refl). change (xshort ROOTINO) with 1. change ROOTINO with (Z.of_nat 0 + 1) at 1 2.
  pose proof (length_root args) as Lr. assert (forall c, (length c <= length (root_data args))%nat -> nmeta + room [(T_DIR, c)] <= FSSIZE) as Hroot.
  { intros c Hc. enough (room [(T_DIR, c)] <= room (all_files host args)) by lia. apply grows_room. by cbn. }
  set (dot := mk_dirent 1 (chars "." ++ replicate 13 0)). set (dotdot := mk_dirent 1 (chars ".." ++ replicate 12 0)).
  destruct (iappend_spec bad good s1 _ _ 0 T_DIR [] dot Im1 eq_refl) as (s2 & own2 & E2 & Im2); [done|apply Hroot; rewrite Lr; cbn; lia|].
  rewrite (bindM _ _ _ _ _ E2).
  destruct (iappend_spec bad good s2 _ _ 0 T_DIR dot dotdot Im2 eq_refl) as (s3 & own3 & E3 & Im3); [done|apply Hroot; rewrite Lr; cbn; lia|].
  rewrite (bindM _ _ _ _ _ E3). change (dot ++ dotdot) with dots in Im3.
  destruct (add_files_spec bad host good args s3 own3 [] dots Im3 F) as (s4 & own4 & E4 & Im4).
  { unfold NI. cbn [length]. lia. } { change (dots ++ _) with (root_data args). rewrite Lr, MAXFILE_val. lia. } { exact Hr. }
  change (image s4 own4 (all_files host args)) in Im4. change (Z.of_nat 0 + 1) with 1. rewrite (bindM _ _ _ _ _ E4).
  pose proof (im_store _ _ _ Im4) as O. pose proof (im_files _ _ _ Im4 0%nat _ _ eq_refl) as Fr. change (Z.of_nat 0 + 1) with 1 in Fr.
  rewrite (bindM _ _ _ _ _ (rinode_eq bad good 1 s4 (so_img _ _ O) ltac:(done))). rewrite (fo_size _ _ _ _ _ Fr).
  set (n := Z.of_nat (length (root_data args))). assert (0 <= n <= 3200) as Rn by (unfold n; rewrite Lr; lia). rewrite (xint_id n) by lia. change BSIZE with 1024.
  assert (0 <= (n / 1024 + 1) * 1024 < 2 ^ 32) as R' by (pose proof (Z.div_pos n 1024); assert (n / 1024 < 4) by (apply Z.div_lt_upper_bound; lia); lia). rewrite xint_id by done.
  rewrite (bindM _ _ _ _ _ (winode_eq bad good 1 _ s4 (so_img _ _ O) ltac:(done))). unfold get_freeblock at 1.
  erewrite (bindM _ (balloc bad)) by reflexivity. cbn [with_img m_freeblock]. pose proof (so_free _ _ O) as Rb. unfold FSSIZE in Rb.
  unfold balloc. rewrite (bindM (assert_that _ _) _ _ tt _) by (destruct (Z.ltb_spec (m_freeblock s4) BPB) as [|G]; [reflexivity|change BPB with 8192 in G; lia]).
  rewrite (wsect_eq bad good). eexists. split; [reflexivity|]. by apply (finished_good host s4 own4).
Qed.

Definition demo_host (arg : list Z) : option (list (list Z)) :=
  if bool_decide (arg = chars "README") then Some [chars "a read"; chars "me"]
  else if bool_decide (arg = chars "user/_cat") then Some (replicate 14 (replicate 1024 7)) else None.

Lemma mkfs_correct_witness : exists s, mkfs_main true (fun _ => false) demo_host [chars "fs.img"; chars "README"; chars "user/_cat"] mkfs_start = inl (tt, s) /\
  good_image demo_host (m_img s) [chars "README"; chars "user/_cat"].
Proof.
  apply (mkfs_correct (fun _ => false) demo_host [chars "README"; chars "user/_cat"] (chars "fs.img")).
  - done.
  - repeat (apply Forall_cons; split); [| |apply Forall_nil; exact I].
    + split; [by eexists|apply (bool_decide_unpack _); vm_compute; done|vm_compute; lia|vm_compute; discriminate].
    + split; [by eexists|apply (bool_decide_unpack _); vm_compute; done|vm_compute; lia|vm_compute; discriminate].
  - vm_compute. discriminate.
  - vm_compute. discriminate.
Defined.
