(* ===== verification/FsSpec.v ===== *)
(** * Files and directories (kernel/fs.c), what the code does

    Reading through the buffer cache in an uncontended run: bmap(), readi()
    into a local variable, as the directory routines call it, and
    dirlookup().  What is read is what [view] says, the newest contents of a
    block whether they are in the cache, in the transaction or on the disk. *)

From S2P Require Import Prelude Abi Riscv Memory Mkfs MkfsSpec MkfsImage KState KMonad Spinlock Kalloc Vm Proc ProcSpec SleepSpec Seq.
From S2P Require Import Printf PrintSpec Sleeplock Bio BioSpec Log BlockSpec LogSpec Crash Fs FsView.

Lemma MAXFILE_split : MAXFILE = NDIRECT + NINDIRECT.
Proof. done. Qed.

Lemma take_add {A} (l : list A) n m : take (n + m) l = take n l ++ take m (drop n l).
Proof. revert l. induction n as [|n IH]; intros [|x l]; cbn; [done..|by rewrite take_nil|]. by rewrite IH. Qed.

Section FsSpec.
Variables (me : nat) (pid : Z).
Variable dev : Z.
Context {L : Layout} {D : Disk} {DL : DiskLaws me pid D}.
Variable fuel : nat.
Variable pins : list Z.
#[local] Abbreviation does := (does me pid).
#[local] Abbreviation caches := (caches dev).
#[local] Abbreviation view := (view dev).
#[local] Abbreviation settled := (settled dev pins).

(** A read leaves everything as it was, but for the order and the contents of
    the buffers that hold clean blocks. *)
Record quiet (s s' : kstate) : Prop := {
  qu_settled : settled s';
  qu_bufs : s' = set_k_bufs (k_bufs s') s;
  qu_view bn : view s' bn = view s bn;
}.

Lemma quiet_refl s : settled s -> quiet s s.
Proof. intros H. split; [done|by destruct s|done]. Qed.

Lemma quiet_trans s1 s2 s3 : quiet s1 s2 -> quiet s2 s3 -> quiet s1 s3.
Proof.
  intros [A1 A2 A3] [B1 B2 B3]. split; [done| |intros bn; by rewrite B3]. rewrite B2, A2. done.
Qed.

Lemma quiet_itable s s' : quiet s s' -> k_itable s' = k_itable s.
Proof. intros Q. rewrite (qu_bufs _ _ Q). done. Qed.

(** The cache after a block has been read and released. *)
Lemma settled_back bn b s0 s : settled s0 -> BioSpec.cache_ok dev s -> (b < NBUF)%nat ->
  (holds dev bn (bf s0 b) = true \/ b_refcnt (bf s0 b) = 0) -> (bn ∈ pins -> holds dev bn (bf s0 b) = true) ->
  (forall i, (i < NBUF)%nat -> i <> b -> body (bf s i) = body (bf s0 i)) ->
  caches bn (bf s b) = true -> b_refcnt (bf s b) = (if decide (bn ∈ pins) then 1 else 0) -> sl_locked (b_lock (bf s b)) = 0 -> settled s.
Proof.
  intros S C Hb H0 Hp O Cb R U.
  assert (forall i, (i < NBUF)%nat -> i <> b -> b_lock (bf s i) = b_lock (bf s0 i) /\ b_refcnt (bf s i) = b_refcnt (bf s0 i) /\
    forall bn', caches bn' (bf s i) = caches bn' (bf s0 i)) as Ob.
  { intros i Hi N. destruct (body_fields _ _ (O i Hi N)) as (_ & _ & _ & E1 & E2 & _). split; [done|]. split; [done|].
    intros bn'. apply body_holds. by apply O. }
  split; [done| | | |].
  - intros i Hi. destruct (decide (i = b)) as [->|N]; [done|]. destruct (Ob i Hi N) as (-> & _). by apply (se_unlocked _ _ _ S).
  - intros i Hi. destruct (decide (i = b)) as [->|N].
    + rewrite R. case_decide; [right; eauto|by left].
    + destruct (Ob i Hi N) as (_ & E & Ec). rewrite E. destruct (se_ref _ _ _ S i Hi) as [?|(? & bn' & Hn & Hc)]; [by left|]. right. split; [done|]. exists bn'. by rewrite Ec.
  - intros bn' Hn. destruct (se_pin _ _ _ S bn' Hn) as (i & Hi & Hc & Hr). destruct (decide (i = b)) as [->|N].
    + exists b. assert (bn' = bn) as ->; [|split; [done|]; split; [done|]; by rewrite decide_True in R by done].
      destruct H0 as [H0|H0]; [|lia]. by apply (caches_fun dev bn' bn (bf s0 b)).
    + destruct (Ob i Hi N) as (_ & E & Ec). exists i. by rewrite E, Ec.
  - destruct (se_room _ _ _ S) as (i & Hi & Hr). destruct (decide (i = b)) as [->|N].
    + destruct (decide (bn ∈ pins)) as [Y|Y]; [|by exists b]. specialize (Hp Y).
      pose proof (settled_ref dev pins bn b s0 S Hb Hp) as X. rewrite decide_True in X by done. lia.
    + destruct (Ob i Hi N) as (_ & E & _). exists i. by rewrite E.
Qed.

(** A block is read and given back. *)
Lemma block_back bn s : settled s ->
  exists b s1 s2, does [] (bread fuel dev bn) s b [] s1 /\ b_data (bf s1 b) = view s bn /\ s1 = set_k_bufs (k_bufs s1) s /\
    does [] (brelse b) s1 tt [] s2 /\ quiet s s2.
Proof.
  intros S. destruct (bread_spec me pid dev fuel bn s (se_ok _ _ _ S) (settled_can_read dev pins s bn S)) as (b & s1 & D1 & F).
  pose proof F as [F1 F2 F3 F4 F5 F6 F7 F8 F9].
  assert (b_refcnt (bf s1 b) = (if decide (bn ∈ pins) then 2 else 1)) as Rf.
  { destruct F9 as [[H1 H2]|(H1 & H2 & H3)].
    - rewrite H2, (settled_ref dev pins bn b s S F3 H1). by case_decide.
    - rewrite H3. case_decide as Hp; [|done]. destruct (se_pin _ _ _ S bn Hp) as (i & Hi & Hc & _). apply caches_true in Hc as [Hc _]. by rewrite H1 in Hc. }
  assert (caches bn (bf s1 b) = true) as Cb by (apply caches_true; done).
  destruct (brelse_spec me pid dev b s1 F2 F3 F7) as (s2 & D2 & Re).
  { rewrite Rf. case_decide; lia. }
  { rewrite Rf. case_decide as Hp; [lia|]. intros _ _ _. apply holds_true in F4 as [_ ->].
    rewrite F6, (touched_block b s s1 bn F1). by apply (settled_clean dev pins). }
  exists b, s1, s2. split; [exact D1|]. split; [exact F6|]. split; [apply F1|]. split; [exact D2|].
  destruct (body_fields _ _ (re_body _ _ _ _ Re)) as (E1 & E2 & E3 & E4 & E5 & E6). split.
  - apply (settled_back bn b s s2 S (re_ok _ _ _ _ Re) F3).
    + destruct F9 as [[H1 _]|(_ & H2 & _)]; [by left|by right].
    + intros Hp. destruct F9 as [[H1 _]|(H1 & _)]; [done|]. destruct (se_pin _ _ _ S bn Hp) as (i & Hi & Hc & _).
      apply caches_true in Hc as [Hc _]. by rewrite H1 in Hc.
    + intros i Hi N. rewrite (to_other _ _ _ (re_touched _ _ _ _ Re) i Hi N). by apply (to_other _ _ _ F1).
    + destruct (body_holds dev bn _ _ (re_body _ _ _ _ Re)) as [_ ->]. exact Cb.
    + rewrite E5. simpl. rewrite Rf. case_decide; by rewrite u32_small by lia.
    + by rewrite E4.
  - rewrite (to_bufs _ _ _ (re_touched _ _ _ _ Re)), (to_bufs _ _ _ F1). done.
  - intros bn'. by rewrite (re_view _ _ _ _ Re), F8.
Qed.

(** ** bmap() and readi() *)

Definition ino (s : kstate) (i : nat) : inode := nth i (k_itable s) zero_inode.

Lemma does_getino H i s : does H (getino i) s (ino s i) H s.
Proof. unfold getino, ino. by apply (does_gets _ _ H (fun s => nth i (k_itable s) zero_inode)). Qed.

Lemma quiet_ino s s' i : quiet s s' -> ino s' i = ino s i.
Proof. intros Q. unfold ino. by rewrite (quiet_itable _ _ Q). Qed.

(** The address of a block that is there. *)
Lemma bmap_read i f s : settled s -> i_dev (ino s i) = dev -> 0 <= f < MAXFILE -> iaddr (view s) (ino s i) f <> 0 ->
  exists s', does [] (bmap fuel i f) s (iaddr (view s) (ino s i) f) [] s' /\ quiet s s'.
Proof.
  intros S Hd Hf Ha. unfold bmap, iaddr in *. set (ip := ino s i) in *. destruct (Z.ltb_spec f NDIRECT) as [Hn|Hn].
  - exists s. split; [|by apply quiet_refl]. eapply does_bind; [apply does_getino|]. fold ip. destruct (Z.ltb_spec f NDIRECT); [|lia].
    destruct (Z.eqb_spec (znth 0 (i_addrs ip) f) 0); [done|]. apply does_ret.
  - destruct (Z.eqb_spec (znth 0 (i_addrs ip) NDIRECT) 0) as [|N0]; [done|]. set (ib := znth 0 (i_addrs ip) NDIRECT) in *.
    destruct (block_back ib s S) as (b & s1 & s2 & D1 & E1 & B1 & D2 & Q). exists s2. split; [|done].
    eapply does_bind; [apply does_getino|]. fold ip. destruct (Z.ltb_spec f NDIRECT); [lia|]. rewrite MAXFILE_split in Hf.
    destruct (Z.ltb_spec (f - NDIRECT) NINDIRECT); [|lia]. fold ib. destruct (Z.eqb_spec ib 0); [done|].
    eapply does_bind; [apply does_ret|]. destruct (Z.eqb_spec ib 0); [done|]. rewrite Hd.
    eapply does_bind; [exact D1|]. eapply does_bind; [apply does_getbuf|]. rewrite E1.
    destruct (Z.eqb_spec (get_word (view s ib) (4 * (f - NDIRECT))) 0); [done|]. eapply does_bind; [apply does_ret|].
    eapply does_bind; [exact D2|]. apply does_ret.
Qed.

Lemma quiet_iaddr s s' ip f : quiet s s' -> iaddr (view s') ip f = iaddr (view s) ip f.
Proof. intros Q. unfold iaddr. by rewrite (qu_view _ _ Q). Qed.

(** A block of a file is looked up, read and given back. *)
Lemma readi_block i off s : settled s -> i_dev (ino s i) = dev -> file_sound (view s) (ino s i) -> 0 <= off < i_size (ino s i) ->
  exists a b s1 s2 s3, does [] (bmap fuel i (off / BSIZE)) s a [] s1 /\ a <> 0 /\ ino s1 i = ino s i /\
    does [] (bread fuel dev a) s1 b [] s2 /\ b_data (bf s2 b) = view s (iaddr (view s) (ino s i) (off / 1024)) /\ does [] (brelse b) s2 tt [] s3 /\ quiet s s3.
Proof.
  intros S Hd [F1 F2] Ho. change BSIZE with 1024. pose proof (nblk_spec (i_size (ino s i)) ltac:(lia)) as Rn. pose proof (Z.div_mod off 1024 ltac:(lia)).
  pose proof (Z.mod_pos_bound off 1024 ltac:(lia)). assert (0 <= off / 1024) by (apply Z.div_pos; lia).
  destruct (F2 (off / 1024) ltac:(lia)) as [F3 F4]. assert (0 <= off / 1024 < MAXFILE) as Hf.
  { split; [done|]. apply Z.div_lt_upper_bound; lia. }
  destruct (bmap_read i (off / 1024) s S Hd Hf F3) as (s1 & D1 & Q1). set (a := iaddr _ _ _) in *.
  destruct (block_back a s1 (qu_settled _ _ Q1)) as (b & s2 & s3 & D2 & E2 & B2 & D3 & Q3).
  exists a, b, s1, s2, s3. split; [exact D1|]. split; [done|]. split; [by apply quiet_ino|]. split; [exact D2|].
  split; [by rewrite E2, (qu_view _ _ Q1)|]. split; [exact D3|]. by eapply quiet_trans.
Qed.

Lemma file_sound_quiet s s' ip : quiet s s' -> file_sound (view s) ip -> file_sound (view s') ip /\ file_data (view s') ip = file_data (view s) ip.
Proof.
  intros Q [F1 F2]. split.
  - split; [done|]. intros f Hf. rewrite (quiet_iaddr s s'), (qu_view _ _ Q) by done. auto.
  - unfold file_data, file_blocks. erewrite map_ext; [reflexivity|]. intros f. by rewrite (quiet_iaddr s s'), (qu_view _ _ Q) by done.
Qed.

Lemma does_copy_local l tot bs s : does [] (copy_to (Local l) tot bs) s 0 [] s.
Proof. unfold copy_to. eapply does_bind; [apply does_myproc|apply does_ret]. Qed.

(** The loop of readi() into a local variable. *)
Lemma readi_loop_spec i : forall k off n tot acc s, settled s -> i_dev (ino s i) = dev -> file_sound (view s) (ino s i) ->
  0 <= off -> 0 <= tot -> (tot < n -> off + (n - tot) <= i_size (ino s i)) -> (tot < n -> off mod 1024 + (n - tot) <= 1024 * Z.of_nat k) ->
  exists s', does [] (readi_loop fuel k i (Local []) off n tot acc) s
    (Z.max tot n, acc ++ take (Z.to_nat (n - tot)) (drop (Z.to_nat off) (file_data (view s) (ino s i)))) [] s' /\ quiet s s'.
Proof.
  induction k as [|k IH]; intros off n tot acc s S Hd F Ho Ht Hs Hk.
  - assert (n <= tot) as Hn.
    { destruct (decide (tot < n)) as [G|]; [|lia]. specialize (Hk G). pose proof (Z.mod_pos_bound off 1024). lia. }
    exists s. split; [|by apply quiet_refl]. cbn [readi_loop]. destruct (Z.ltb_spec tot n); [lia|]. rewrite Z.max_l by lia.
    replace (Z.to_nat (n - tot)) with 0%nat by lia. rewrite take_0, app_nil_r. apply does_ret.
  - cbn [readi_loop]. destruct (Z.ltb_spec tot n) as [Hn|Hn].
    2: { exists s. split; [|by apply quiet_refl]. rewrite Z.max_l by lia. replace (Z.to_nat (n - tot)) with 0%nat by lia. rewrite take_0, app_nil_r. apply does_ret. }
    specialize (Hs Hn). specialize (Hk Hn). pose proof (Z.mod_pos_bound off 1024 ltac:(lia)) as Rm.
    destruct (readi_block i off s S Hd F ltac:(lia)) as (a & b & s1 & s2 & s3 & D1 & Na & Ei & D2 & E2 & D3 & Q).
    change BSIZE with 1024 in *. set (m := Z.min (n - tot) (1024 - off mod 1024)). assert (0 < m <= n - tot) as Rk by lia.
    destruct (file_sound_quiet s s3 (ino s i) Q F) as [F' Ed].
    destruct (IH (off + m) n (tot + m) (acc ++ take (Z.to_nat m) (drop (Z.to_nat (off mod 1024)) (b_data (bf s2 b)))) s3 (qu_settled _ _ Q)) as (s' & D4 & Q').
    { by rewrite (quiet_ino s s3). } { by rewrite (quiet_ino s s3). } { lia. } { lia. } { rewrite (quiet_ino s s3) by done. lia. }
    { intros G. assert (m = 1024 - off mod 1024) as Em by lia. rewrite Em. replace (off + (1024 - off mod 1024)) with ((off / 1024 + 1) * 1024) by (pose proof (Z.div_mod off 1024); lia).
      rewrite Z.mod_mul by lia. lia. }
    exists s'. split; [|by eapply quiet_trans]. eapply does_bind; [exact D1|]. destruct (Z.eqb_spec a 0); [done|].
    eapply does_bind; [apply does_getino|]. rewrite Ei, Hd. eapply does_bind; [exact D2|]. fold m. eapply does_bind; [apply does_getbuf|].
    eapply does_bind; [apply does_copy_local|]. cbn [Z.eqb Z.opp]. eapply does_bind; [exact D3|].
    rewrite E2 in D4 |- *. rewrite (file_slice (view s) (ino s i) off m) in D4 |- * by (done || lia). rewrite (quiet_ino s s3), Ed in D4 by done.
    replace (Z.max tot n) with (Z.max (tot + m) n) by lia. set (data := file_data (view s) (ino s i)) in *. rewrite <- app_assoc in D4.
    replace (take (Z.to_nat (n - tot)) (drop (Z.to_nat off) data)) with
      (take (Z.to_nat m) (drop (Z.to_nat off) data) ++ take (Z.to_nat (n - (tot + m))) (drop (Z.to_nat (off + m)) data)); [exact D4|].
    replace (Z.to_nat (off + m)) with (Z.to_nat off + Z.to_nat m)%nat by lia. rewrite <- drop_drop. set (l := drop (Z.to_nat off) data).
    replace (Z.to_nat (n - tot)) with (Z.to_nat m + Z.to_nat (n - (tot + m)))%nat by lia. by rewrite take_add.
Qed.

Lemma readi_local i off n s : settled s -> i_dev (ino s i) = dev -> file_sound (view s) (ino s i) -> 0 <= off <= i_size (ino s i) -> 0 <= n -> off + n < 2 ^ 32 ->
  let r := Z.min n (i_size (ino s i) - off) in
  exists s', does [] (readi_bytes fuel i (Local []) off n) s (r, take (Z.to_nat r) (drop (Z.to_nat off) (file_data (view s) (ino s i)))) [] s' /\ quiet s s'.
Proof.
  intros S Hd F Ho Hn Hm r. set (n' := if i_size (ino s i) <? u32 (off + n) then i_size (ino s i) - off else n).
  assert (n' = r) as En by (unfold n', r; rewrite u32_small by lia; case_if; lia).
  pose proof (Z.div_mod n' 1024 ltac:(lia)). pose proof (Z.mod_pos_bound n' 1024 ltac:(lia)). pose proof (Z.mod_pos_bound off 1024 ltac:(lia)).
  destruct (readi_loop_spec i (Z.to_nat (n' / BSIZE) + 2) off n' 0 [] s S Hd F) as (s' & D1 & Q); [lia|lia|lia| |].
  { intros _. change BSIZE with 1024. assert (0 <= n' / 1024) by (apply Z.div_pos; lia). lia. }
  exists s'. split; [|done]. unfold readi_bytes. eapply does_bind; [apply does_getino|].
  destruct (Z.ltb_spec (i_size (ino s i)) off); [lia|]. destruct (Z.ltb_spec (u32 (off + n)) off) as [G|_]; [rewrite u32_small in G by lia; lia|]. cbn [orb].
  fold n'. rewrite Z.sub_0_r, Z.max_r, app_nil_l in D1 by lia. rewrite <- En. exact D1.
Qed.

(** ** Directories *)

(** Entry [j] of a directory. *)
Definition dirent_at (data : list Z) (j : nat) : list Z := take 16 (drop (16 * j) data).

Definition matches (name : list Z) (de : list Z) : bool := (negb (de_inum de =? 0) && (namecmp name (de_name de) =? 0))%bool.

Lemma read_dirent_spec i j msg s n : settled s -> i_dev (ino s i) = dev -> file_sound (view s) (ino s i) -> i_size (ino s i) = 16 * Z.of_nat n -> (j < n)%nat ->
  exists s', does [] (read_dirent fuel i (16 * Z.of_nat j) msg) s (dirent_at (file_data (view s) (ino s i)) j) [] s' /\ quiet s s'.
Proof.
  intros S Hd F Hs Hj. pose proof (proj2 (proj1 F)) as Hm. change (1024 * MAXFILE) with 274432 in Hm.
  destruct (readi_local i (16 * Z.of_nat j) DIRENT s S Hd F) as (s' & D1 & Q); unfold DIRENT; [lia..|].
  exists s'. split; [|done]. unfold read_dirent. eapply does_bind; [exact D1|]. unfold DIRENT.
  replace (Z.min 16 (i_size (ino s i) - 16 * Z.of_nat j)) with 16 by lia. cbn [Z.eqb Pos.eqb negb]. unfold dirent_at.
  replace (Z.to_nat (16 * Z.of_nat j)) with (16 * j)%nat by lia. apply does_ret.
Qed.

(** iget(): the entry of the inode, or the first free one made into it. *)
Definition has_ino (inum : Z) (x : inode) : bool := ((0 <? i_ref x) && (i_dev x =? dev) && (i_inum x =? inum))%bool.

Definition first_empty (s : kstate) (l : list nat) : option nat := find (fun i => i_ref (ino s i) =? 0) l.

Lemma iget_scan_spec inum s : forall l e, exists e', does [LItable] (iget_scan l dev inum e) s (find (fun i => has_ino inum (ino s i)) l, e') [LItable] s /\
  (find (fun i => has_ino inum (ino s i)) l = None -> e' = match e with None => first_empty s l | Some _ => e end).
Proof.
  induction l as [|i l IH]; intros e; [exists e; split; [apply does_ret|by destruct e]|]. cbn [iget_scan find first_empty].
  destruct (has_ino inum (ino s i)) eqn:Eh.
  - exists e. split; [|done]. eapply does_bind; [apply does_getino|]. unfold has_ino in Eh. rewrite Eh. apply does_ret.
  - destruct (IH (match e with None => if i_ref (ino s i) =? 0 then Some i else None | Some _ => e end)) as (e' & D1 & E'). exists e'. split.
    + eapply does_bind; [apply does_getino|]. unfold has_ino in Eh. rewrite Eh. exact D1.
    + intros N. rewrite (E' N). unfold first_empty. cbn [find]. destruct e; [done|]. by destruct (i_ref (ino s i) =? 0).
Qed.

Definition setino (i : nat) (x : inode) (s : kstate) : kstate := set_k_itable (<[i := x]> (k_itable s)) s.

Lemma does_updino H i f s : does H (updino i f) s tt H (setino i (f (ino s i)) s).
Proof.
  unfold updino, setino, ino. by apply (does_modify _ _ H (fun s => set_k_itable (<[i := f (nth i s.(k_itable) zero_inode)]> s.(k_itable)) s)).
Qed.

Lemma ino_setino i x s j : (i < length (k_itable s))%nat -> ino (setino i x s) j = if (j =? i)%nat then x else ino s j.
Proof.
  intros Hi. unfold ino, setino. cbn [k_itable set_k_itable]. rewrite !nth_lookup. destruct (Nat.eqb_spec j i) as [->|N].
  - by rewrite list_lookup_insert_eq.
  - by rewrite list_lookup_insert_ne.
Qed.

Lemma setino_twice i x y s : setino i x (setino i y s) = setino i x s.
Proof. unfold setino. cbn [k_itable set_k_itable]. rewrite list_insert_insert_eq. done. Qed.

(** There is an entry for the inode, or room for one. *)
Definition can_get (inum : Z) (s : kstate) : Prop :=
  (length (k_itable s) = NINODE)%nat /\ (forall i, (i < NINODE)%nat -> has_ino inum (ino s i) = true -> i_ref (ino s i) < 2 ^ 31 - 1) /\
  exists i, (i < NINODE)%nat /\ (has_ino inum (ino s i) = true \/ i_ref (ino s i) = 0).

Lemma find_seq f n : match find f (seq 0 n) with Some i => (i < n)%nat /\ f i = true | None => forall i, (i < n)%nat -> f i = false end.
Proof.
  destruct (find f (seq 0 n)) as [i|] eqn:E.
  - apply find_some in E as [H1 H2]. apply in_seq in H1. split; [lia|done].
  - intros i Hi. apply (find_none _ _ E). apply in_seq. lia.
Qed.

(** iget() changes one entry of the table, to a reference to the inode. *)
Lemma iget_spec inum s : can_get inum s ->
  exists k x, does [] (iget dev inum) s k [] (setino k x s) /\ (k < NINODE)%nat /\ i_dev x = dev /\ i_inum x = inum /\ 0 < i_ref x.
Proof.
  intros (Hl & Hr & i0 & Hi0 & H0). pose proof (find_seq (fun i => has_ino inum (ino s i)) NINODE) as Ff.
  destruct (iget_scan_spec inum s (seq 0 NINODE) None) as (e' & D1 & E').
  destruct (find (fun i => has_ino inum (ino s i)) (seq 0 NINODE)) as [k|] eqn:Ek.
  - destruct Ff as [Hk Hh]. specialize (Hr k Hk Hh). pose proof Hh as Hh'. unfold has_ino in Hh'. rewrite !andb_true_iff, Z.ltb_lt, !Z.eqb_eq in Hh'.
    exists k, (set_i_ref (s32 (i_ref (ino s k) + 1)) (ino s k)). split; [|rewrite s32_small by lia; cbn; intuition lia].
    unfold iget. eapply does_bind; [apply does_acquire, not_elem_of_nil|]. eapply does_bind; [exact D1|]. cbn match.
    eapply does_bind; [apply does_updino|]. eapply does_bind; [apply does_release, not_elem_of_nil|]. apply does_ret.
  - specialize (E' eq_refl). pose proof (find_seq (fun i => i_ref (ino s i) =? 0) NINODE) as Fe. unfold first_empty in E'.
    destruct (find (fun i => i_ref (ino s i) =? 0) (seq 0 NINODE)) as [k|].
    + destruct Fe as [Hk _]. set (x := set_i_valid 0 (set_i_ref 1 (set_i_inum inum (set_i_dev dev (ino s k))))). exists k, x. split; [|by subst x].
      unfold iget. eapply does_bind; [apply does_acquire, not_elem_of_nil|]. eapply does_bind; [exact D1|]. rewrite E'. cbn match.
      assert (forall s', length (k_itable s') = NINODE -> forall y, ino (setino k y s') k = y) as Es by (intros s' Hs y; rewrite ino_setino by lia; by rewrite Nat.eqb_refl).
      eapply does_bind; [apply does_updino|]. eapply does_bind; [apply does_updino|]. rewrite Es, setino_twice by done.
      eapply does_bind; [apply does_updino|]. rewrite Es, setino_twice by done. eapply does_bind; [apply does_updino|]. rewrite Es, setino_twice by done.
      eapply does_bind; [apply does_release, not_elem_of_nil|]. apply does_ret.
    + exfalso. destruct H0 as [H0|H0]; [by rewrite Ff in H0|]. specialize (Fe i0 Hi0). cbn in Fe. rewrite H0 in Fe. done.
Qed.

(** The loop of dirlookup(), from entry [j]. *)
Lemma dirlookup_loop_spec i name n : forall k j s, settled s -> i_dev (ino s i) = dev -> file_sound (view s) (ino s i) -> i_size (ino s i) = 16 * Z.of_nat n ->
  (j + k = n)%nat ->
  let data := file_data (view s) (ino s i) in
  (forall j', (j <= j' < n)%nat -> matches name (dirent_at data j') = true -> can_get (de_inum (dirent_at data j')) s) ->
  exists s1, quiet s s1 /\
  match find (fun j => matches name (dirent_at data j)) (seq j k) with
  | None => does [] (dirlookup_loop fuel (S k) i name (16 * Z.of_nat j)) s None [] s1
  | Some j' => exists d x, does [] (dirlookup_loop fuel (S k) i name (16 * Z.of_nat j)) s (Some (d, 16 * Z.of_nat j')) [] (setino d x s1) /\
      (d < NINODE)%nat /\ i_dev x = dev /\ i_inum x = de_inum (dirent_at data j') /\ 0 < i_ref x
  end.
Proof.
  induction k as [|k IH]; intros j s St Hd F Hs Hj data Hg.
  - exists s. split; [by apply quiet_refl|]. cbn [seq find dirlookup_loop]. eapply does_bind; [apply does_getino|].
    destruct (Z.ltb_spec (16 * Z.of_nat j) (i_size (ino s i))); [lia|]. apply does_ret.
  - destruct (read_dirent_spec i j "dirlookup read" s n St Hd F Hs ltac:(lia)) as (s1 & D1 & Q1). fold data in D1.
    destruct (file_sound_quiet s s1 (ino s i) Q1 F) as [F1 Ed]. pose proof (quiet_ino s s1 i Q1) as Ei.
    assert (forall j', (j <= j' < n)%nat -> matches name (dirent_at data j') = true -> can_get (de_inum (dirent_at data j')) s1) as Hg1.
    { intros j' Hj' Hm. destruct (Hg j' Hj' Hm) as (A & B & C). unfold can_get. rewrite (quiet_itable _ _ Q1). split; [done|]. split.
      - intros i' Hi'. rewrite (quiet_ino s s1 i') by done. by apply B.
      - destruct C as (i' & Hi' & C). exists i'. by rewrite (quiet_ino s s1 i'). }
    cbn [seq find]. unfold matches at 1. set (de := dirent_at data j) in *.
    destruct (negb (de_inum de =? 0) && (namecmp name (de_name de) =? 0))%bool eqn:Em.
    + destruct (iget_spec (de_inum de) s1 (Hg1 j ltac:(lia) Em)) as (d & x & D2 & Hd2 & X1 & X2 & X3). exists s1. split; [done|]. exists d, x. split; [|done].
      cbn [dirlookup_loop]. eapply does_bind; [apply does_getino|]. destruct (Z.ltb_spec (16 * Z.of_nat j) (i_size (ino s i))); [|lia].
      eapply does_bind; [exact D1|]. apply andb_true_iff in Em as [E1 E2]. rewrite negb_true_iff in E1. rewrite E1, E2, Hd.
      eapply does_bind; [exact D2|]. apply does_ret.
    + destruct (IH (S j) s1 (qu_settled _ _ Q1)) as (s2 & Q2 & H2); rewrite ?Ei, ?Ed; try done; [lia|intros j' Hj'; apply Hg1; lia|]. rewrite Ei, Ed in H2. fold data in H2.
      exists s2. split; [by eapply quiet_trans|].
      assert (forall r s', does [] (dirlookup_loop fuel (S k) i name (16 * Z.of_nat (S j))) s1 r [] s' ->
        does [] (dirlookup_loop fuel (S (S k)) i name (16 * Z.of_nat j)) s r [] s') as Step.
      { intros r s' Dn. cbn [dirlookup_loop]. eapply does_bind; [apply does_getino|]. destruct (Z.ltb_spec (16 * Z.of_nat j) (i_size (ino s i))); [|lia].
        eapply does_bind; [exact D1|]. replace (16 * Z.of_nat j + DIRENT) with (16 * Z.of_nat (S j)) by (unfold DIRENT; lia).
        destruct (de_inum de =? 0); [exact Dn|]. cbn [negb andb] in Em. rewrite Em. exact Dn. }
      destruct (find _ (seq (S j) k)) as [j'|]; [|by apply Step]. destruct H2 as (d & x & D2 & Hx). exists d, x. split; [by apply Step|done].
Qed.
End FsSpec.


(** The root directory of a disk that mkfs made, after boot. *)
Definition made {A E} (r : A * mst + E) : gmap Z (list Z) := match r with inl (_, m) => m_img m | inr _ => ∅ end.
Definition demo_img : gmap Z (list Z) :=
  made (mkfs_main true (fun _ => false) demo_host [chars "fs.img"; chars "README"; chars "user/_cat"] mkfs_start).

Definition demo_root : inode := set_i_dev 1 (set_i_inum ROOTINO (set_i_ref 1 (set_i_valid 1 (inode_at (blk demo_img) sb ROOTINO)))).
Definition demo_boot : kstate := set_k_itable (demo_root :: replicate 49 zero_inode) (set_k_disk demo_img idle_state).

Lemma demo_view bn : view 1 demo_boot bn = block demo_boot bn.
Proof.
  apply view_miss. intros i Hi. unfold caches, holds. rewrite (ring_fresh demo_boot zero_block eq_refl) by lia. done.
Qed.

Lemma demo_iaddr f : iaddr (view 1 demo_boot) demo_root f = iaddr (block demo_boot) demo_root f.
Proof. unfold iaddr. by rewrite demo_view. Qed.

Lemma demo_sound : file_sound (view 1 demo_boot) demo_root.
Proof.
  split; [split; vm_compute; discriminate|]. assert (nblk (i_size demo_root) = 1) as -> by (vm_compute; reflexivity). intros f Hf. assert (f = 0) as -> by lia.
  rewrite demo_iaddr, demo_view. split; [vm_compute; discriminate|vm_compute; reflexivity].
Qed.

