(* ===== verification/Balloc.v ===== *)
(** * Disk blocks (kernel/fs.c balloc(), bfree(), bzero()), what the code does

    Inside a transaction, balloc() hands out the first block whose bit of the
    bitmap is clear, sets the bit and zeroes the block; bfree() clears the bit.
    Nothing else a reader of the disk sees is changed. *)

From S2P Require Import Prelude Riscv Memory Mkfs MkfsSpec KState KMonad Spinlock Kalloc Vm Proc ProcSpec SleepSpec Seq.
From S2P Require Import Printf PrintSpec Sleeplock Bio BioSpec Log BlockSpec LogSpec Fs LogWrite.

(** Block [b] is free according to the bitmap. *)
Definition is_free (v : Z -> list Z) (sb : superblock) (b : Z) : bool := bit_free (v (BBLOCK b sb)) (b mod BPB).

(** The disk after block [b] is allocated, and after it is freed. *)
Definition with_alloc (v : Z -> list Z) (sb : superblock) (b : Z) : Z -> list Z :=
  upd (upd v (BBLOCK b sb) (bit_set (v (BBLOCK b sb)) (b mod BPB))) b zero_block.
Definition with_free (v : Z -> list Z) (sb : superblock) (b : Z) : Z -> list Z :=
  upd v (BBLOCK b sb) (bit_clear (v (BBLOCK b sb)) (b mod BPB)).

Lemma first_free_spec data n : forall bi,
  match first_free data bi n with
  | Some x => bi <= x < bi + Z.of_nat n /\ bit_free data x = true /\ forall y, bi <= y < x -> bit_free data y = false
  | None => forall y, bi <= y < bi + Z.of_nat n -> bit_free data y = false
  end.
Proof.
  induction n as [|n IH]; intros bi; cbn [first_free]; [intros; lia|]. destruct (bit_free data bi) eqn:E.
  - split; [lia|]. split; [done|]. intros; lia.
  - specialize (IH (bi + 1)). destruct (first_free data (bi + 1) n) as [x|].
    + destruct IH as (H1 & H2 & H3). split; [lia|]. split; [done|]. intros y Hy. destruct (decide (y = bi)) as [->|]; [done|]. apply H3. lia.
    + intros y Hy. destruct (decide (y = bi)) as [->|]; [done|]. apply IH. lia.
Qed.

Lemma BPB_eq : BPB = 8192.
Proof. done. Qed.

(** The blocks that share bitmap block [i]. *)
Lemma BBLOCK_group sb i bi : 0 <= bi < BPB -> BBLOCK (BPB * i + bi) sb = BBLOCK (BPB * i) sb /\ (BPB * i + bi) mod BPB = bi.
Proof.
  rewrite BPB_eq. intros H. unfold BBLOCK. rewrite BPB_eq. split.
  - do 2 f_equal. rewrite (Z.mul_comm 8192 i), Z.div_add_l, Z.div_mul, (Z.div_small bi) by lia. lia.
  - rewrite Z.add_comm, (Z.mul_comm 8192 i), Z.mod_add by lia. by apply Z.mod_small.
Qed.

Lemma BBLOCK_range b sb : 0 <= BBLOCK b sb < 2 ^ 32.
Proof. apply Z.mod_pos_bound. lia. Qed.

Section Balloc.
Variables (me : nat) (pid : Z).
Variable dev : Z.
Context {L : Layout} {D : Disk} {DL : DiskLaws me pid D}.
Variable fuel : nat.
#[local] Abbreviation does := (does me pid).
#[local] Abbreviation view := (view dev).
#[local] Abbreviation txn := (txn pid dev).
#[local] Abbreviation moved_to := (moved_to pid dev).

Lemma bzero_spec hs s b : txn hs s -> (b ∉ hs) -> b ∈ pinned s \/ room hs s -> 0 <= b < 2 ^ 32 -> lh_n (k_log s) < LOGBLOCKS ->
  exists s', does [] (bzero fuel dev b) s tt [] s' /\ moved_to hs s s' (upd (view s) b zero_block) [b] /\ b ∈ pinned s'.
Proof.
  intros T N Hr Hb Hn. destruct (txn_update me pid dev fuel hs s b T N Hr Hb Hn) as (bp & s1 & D1 & E1 & B1 & K).
  destruct (K zero_block) as (s2 & s3 & D2 & D3 & M & Hp). exists s3. split; [|done]. unfold bzero.
  eapply does_bind; [exact D1|]. eapply does_bind; [apply does_updbuf|]. eapply does_bind; [exact D2|exact D3].
Qed.

(** What balloc() needs: the bitmap blocks are in the budget and not held, and
    the blocks the caller holds are not marked free. *)
Record can_alloc (F : gset Z) (hs : list Z) (s : kstate) : Prop := {
  ca_txn : txn hs s;
  ca_hold h : h ∈ hs -> h ∈ F \/ h ∈ pinned s;
  ca_size : 0 <= sb_size (k_sb s) < 2 ^ 32;
  ca_map b : 0 <= b < sb_size (k_sb s) -> BBLOCK b (k_sb s) ∈ F /\ (BBLOCK b (k_sb s) ∉ hs);
  ca_used h : h ∈ hs -> 0 <= h < sb_size (k_sb s) -> is_free (view s) (k_sb s) h = false;
}.

Lemma balloc_one_spec F k hs s i : can_alloc F hs s -> budget F (S k) s -> BPB * Z.of_nat i < sb_size (k_sb s) ->
  let sb := k_sb s in let b0 := BPB * Z.of_nat i in
  exists r s', does [] (balloc_one fuel dev i) s r [] s' /\
  match r with
  | Some b => b0 <= b < sb_size sb /\ is_free (view s) sb b = true /\ (forall y, b0 <= y < b -> is_free (view s) sb y = false) /\
      moved_to hs s s' (with_alloc (view s) sb b) [BBLOCK b sb; b] /\ b ∈ pinned s'
  | None => (forall y, b0 <= y < b0 + BPB -> y < sb_size sb -> is_free (view s) sb y = false) /\ moved_to hs s s' (view s) []
  end.
Proof.
  intros [T Hh Hz Hm Hu] B Hi sb b0. set (bb := BBLOCK b0 sb). assert (0 <= b0 < sb_size sb) as Hb0 by (unfold b0, sb; rewrite BPB_eq in *; lia).
  destruct (Hm b0 Hb0) as [HF Hnh]. fold sb bb in HF, Hnh.
  assert (room hs s) as Hr by (by eapply budget_room). pose proof (budget_log pid dev F (S k) hs s T B) as Hn.
  set (n := Z.to_nat (Z.min BPB (sb_size sb - b0))). assert (Z.of_nat n = Z.min BPB (sb_size sb - b0)) as En by (unfold n; rewrite BPB_eq; lia).
  assert (forall x, 0 <= x < BPB -> is_free (view s) sb (b0 + x) = bit_free (view s bb) x) as Ef.
  { intros x Hx. unfold is_free. destruct (BBLOCK_group sb (Z.of_nat i) x Hx) as [E1 E2]. fold b0 in E1, E2. by rewrite E1, E2. }
  pose proof (first_free_spec (view s bb) n 0) as FF. destruct (first_free (view s bb) 0 n) as [bi|] eqn:E.
  - destruct FF as (R & Fb & Fl). set (b := b0 + bi). assert (0 <= bi < BPB) as Hbi by lia. destruct (BBLOCK_group sb (Z.of_nat i) bi Hbi) as [G1 G2]. fold b0 b in G1, G2.
    assert (b0 <= b < sb_size sb) as Hbr by (unfold b; lia). fold sb in Hz.
    assert (b ∉ hs) as Nb by (intros H; pose proof (Hu b H ltac:(fold sb; lia)) as X; fold sb in X; unfold b in X; rewrite Ef in X by done; congruence).
    destruct (txn_update me pid dev fuel hs s bb T Hnh (or_intror Hr) (BBLOCK_range _ _) Hn) as (bp & s1 & D1 & E1 & B1 & K).
    destruct (K (bit_set (view s bb) bi)) as (s2 & s3 & D2 & D3 & M3 & Hp3).
    assert (budget F (S k) s3) as B3 by (apply (budget_in F (S k) s s3 [bb] B (mt_pins _ _ _ _ _ _ _ M3)); intros x ->%list_elem_of_singleton; by left).
    destruct (bzero_spec hs s3 b (mt_txn _ _ _ _ _ _ _ M3) Nb) as (s4 & D4 & M4 & Hp4); [right; eapply budget_room; [exact B3|]; intros h [?|?]%Hh; [by left|right; by apply (mt_keep _ _ _ _ _ _ _ M3)]|lia|eapply budget_log; [apply M3|exact B3]|].
    exists (Some b), s4. split.
    + unfold balloc_one. eapply does_bind; [apply does_gets; reflexivity|]. fold sb b0 bb. cbv zeta. eapply does_bind; [exact D1|].
      eapply does_bind; [apply does_getbuf|]. rewrite E1. fold n. rewrite E.
      eapply does_bind; [apply does_updbuf|]. cbv beta. rewrite E1. eapply does_bind; [exact D2|]. eapply does_bind; [exact D3|]. eapply does_bind; [exact D4|]. apply does_ret.
    + split; [lia|]. split; [unfold b; by rewrite Ef|]. split; [|split; [|done]].
      * intros y Hy. replace y with (b0 + (y - b0)) by lia. rewrite Ef by lia. apply Fl. lia.
      * eapply moved_view; [eapply moved_weaken; [exact (moved_seq _ _ _ _ _ _ _ _ _ _ M3 M4)|]|].
        -- rewrite G1. by intros x.
        -- intros bn. unfold with_alloc. rewrite G1, G2. fold bb. unfold upd. destruct (bn =? b); [done|]. by rewrite (mt_view _ _ _ _ _ _ _ M3).
  - destruct (txn_look me pid dev fuel hs s bb T Hnh (or_intror Hr)) as (bp & s1 & s2 & D1 & E1 & B1 & D2 & M).
    exists None, s2. split; [|split; [|done]].
    + unfold balloc_one. eapply does_bind; [apply does_gets; reflexivity|]. fold sb b0 bb. cbv zeta. eapply does_bind; [exact D1|].
      eapply does_bind; [apply does_getbuf|]. rewrite E1. fold n. rewrite E. eapply does_bind; [exact D2|]. apply does_ret.
    + intros y Hy Hys. replace y with (b0 + (y - b0)) by lia. rewrite Ef by lia. apply FF. lia.
Qed.

Lemma moved_alloc F hs s s' v : can_alloc F hs s -> moved_to hs s s' v [] -> (forall bn, v bn = view s bn) -> can_alloc F hs s'.
Proof.
  intros [T Hh Hz Hm Hu] M E. assert (k_sb s' = k_sb s) as Es by (rewrite (mt_frame _ _ _ _ _ _ _ M); done).
  split; rewrite ?Es; try done; [apply M|intros h [?|?]%Hh; [by left|right; by apply (mt_keep _ _ _ _ _ _ _ M)]|]. intros h Hin Hr. unfold is_free in *. rewrite (mt_view _ _ _ _ _ _ _ M), E. by apply Hu.
Qed.

Lemma budget_same F k hs s s' v : moved_to hs s s' v [] -> budget F k s -> budget F k s'.
Proof. intros M B. apply (budget_in F k s s' [] B (mt_pins _ _ _ _ _ _ _ M)). by intros ? ?%elem_of_nil. Qed.

(** The scan of the bitmap from block [i] of it on. *)
Lemma balloc_scan F k hs : forall n i s, can_alloc F hs s -> budget F (S k) s ->
  (forall j, (i <= j < i + n)%nat -> BPB * Z.of_nat j < sb_size (k_sb s)) ->
  let sb := k_sb s in let b0 := BPB * Z.of_nat i in
  exists r s', does [] (kscan (seq i n) (balloc_one fuel dev)) s r [] s' /\
  match r with
  | Some b => b0 <= b < sb_size sb /\ is_free (view s) sb b = true /\ (forall y, b0 <= y < b -> is_free (view s) sb y = false) /\
      moved_to hs s s' (with_alloc (view s) sb b) [BBLOCK b sb; b] /\ b ∈ pinned s'
  | None => (forall y, b0 <= y < b0 + BPB * Z.of_nat n -> y < sb_size sb -> is_free (view s) sb y = false) /\ moved_to hs s s' (view s) []
  end.
Proof.
  induction n as [|n IH]; intros i s C B Hi sb b0.
  - exists None, s. split; [apply does_ret|]. split; [intros; lia|]. apply moved_same, C.
  - cbn [seq kscan]. destruct (balloc_one_spec F k hs s i C B (Hi i ltac:(lia))) as (r & s1 & D1 & H1). fold sb b0 in H1. destruct r as [b|].
    + exists (Some b), s1. split; [|done]. eapply does_bind; [exact D1|]. apply does_ret.
    + destruct H1 as [N1 M1]. assert (k_sb s1 = sb) as Es by (rewrite (mt_frame _ _ _ _ _ _ _ M1); done).
      pose proof (mt_view _ _ _ _ _ _ _ M1) as V1.
      destruct (IH (S i) s1) as (r & s2 & D2 & H2); [by eapply moved_alloc|by eapply budget_same|intros j Hj; rewrite Es; apply Hi; lia|].
      rewrite Es in H2. exists r, s2. split; [eapply does_bind; [exact D1|exact D2]|].
      assert (forall y, is_free (view s1) sb y = is_free (view s) sb y) as Ef by (intros y; unfold is_free; by rewrite V1).
      replace (BPB * Z.of_nat (S i)) with (b0 + BPB) in H2 by (unfold b0; lia). destruct r as [b|].
      * destruct H2 as (R & Fb & Fl & M2 & Hp). rewrite Ef in Fb. rewrite BPB_eq in *. split; [lia|]. split; [done|]. split; [|split; [|done]].
        -- intros y Hy. destruct (decide (y < b0 + 8192)); [apply N1; lia|]. rewrite <- Ef. apply Fl. lia.
        -- eapply moved_view; [exact (moved_seq _ _ _ _ _ _ _ _ _ _ M1 M2)|]. intros bn. unfold with_alloc, upd. by rewrite !V1.
      * destruct H2 as [N2 M2]. split; [|by eapply moved_view; [exact (moved_seq _ _ _ _ _ _ _ _ _ _ M1 M2)|]].
        intros y Hy Hs. destruct (decide (y < b0 + BPB)); [apply N1; lia|]. rewrite <- Ef. apply N2; lia.
Qed.

Lemma moved_out hs s o : txn hs s -> moved_to hs s (set_k_out o s) (view s) [].
Proof.
  intros [T1 T2 T3 T4 T5 T6 T7 T8 T9 T10]. split; try done; [|by left]. split; try done. by apply (cache_frame dev s).
Qed.

Lemma balloc_spec F k hs s : can_alloc F hs s -> budget F (S k) s ->
  let sb := k_sb s in
  exists b s', does [] (balloc fuel dev) s b [] s' /\
  (0 <= b < sb_size sb /\ is_free (view s) sb b = true /\ (forall y, 0 <= y < b -> is_free (view s) sb y = false) /\
     moved_to hs s s' (with_alloc (view s) sb b) [BBLOCK b sb; b] /\ b ∈ pinned s' /\ budget F k s' \/
   b = 0 /\ (forall y, 0 <= y < sb_size sb -> is_free (view s) sb y = false) /\ moved_to hs s s' (view s) [] /\ budget F k s').
Proof.
  intros C B sb. set (n := Z.to_nat ((sb_size sb + BPB - 1) / BPB)). pose proof (ca_size _ _ _ C) as Hz. fold sb in Hz.
  assert (sb_size sb <= BPB * Z.of_nat n < sb_size sb + BPB) as Hn.
  { unfold n. rewrite Z2Nat.id by (apply Z.div_pos; rewrite BPB_eq; lia). rewrite BPB_eq. Z.div_mod_to_equations. lia. }
  destruct (balloc_scan F k hs n 0 s C B) as (r & s1 & D1 & H1).
  { intros j Hj. fold sb. rewrite BPB_eq in *. nia. }
  fold sb in H1. change (BPB * Z.of_nat 0) with 0 in H1. destruct r as [b|].
  - destruct H1 as (R & Fb & Fl & M & Hp). exists b, s1. split.
    { unfold balloc. eapply does_bind; [apply does_gets; reflexivity|]. fold sb n. eapply does_bind; [exact D1|]. apply does_ret. }
    left. split; [done|]. split; [done|]. split; [done|]. split; [done|]. split; [done|].
    apply (budget_one F k s s1 [BBLOCK b sb; b] b B (mt_pins _ _ _ _ _ _ _ M)). intros x [->|[->|[]%elem_of_nil]%elem_of_cons]%elem_of_cons; [|by left].
    right. left. by apply (ca_map _ _ _ C).
  - destruct H1 as [N M]. destruct (prints_printf me pid [] ("balloc: out of blocks" +:+ nl) [] ltac:(by apply not_elem_of_nil) s1) as [o D2].
    exists 0, (set_k_out o s1). split.
    { unfold balloc. eapply does_bind; [apply does_gets; reflexivity|]. fold sb n. eapply does_bind; [exact D1|]. eapply does_bind; [exact D2|]. apply does_ret. }
    right. split; [done|]. split; [intros y Hy; apply N; lia|].
    assert (moved_to hs s (set_k_out o s1) (view s) []) as M2.
    { eapply moved_view; [exact (moved_seq _ _ _ _ _ _ _ _ _ _ M (moved_out hs s1 o (mt_txn _ _ _ _ _ _ _ M)))|]. apply M. }
    split; [done|]. eapply budget_same; [exact M2|]. unfold budget in *. lia.
Qed.

End Balloc.
