(* ===== verification/FileShape.v ===== *)
(** * The shape of files on the disk (kernel/fs.c bmap(), writei())

    [wfile] says that the blocks of a file are its own: marked used, distinct,
    and neither blocks of the bitmap nor the block of the inode.  [adds] is what
    an allocation does to a file and [wrote] what a write does; both keep
    [wfile]. *)

From S2P Require Import Prelude Riscv Memory Mkfs MkfsSpec KState KMonad Spinlock Kalloc Vm Proc.
From S2P Require Import Printf Sleeplock Bio BioSpec Log BlockSpec LogSpec Fs FsView LogWrite Balloc.

(** The indirect block of a file. *)
Definition ind (ip : inode) : Z := znth 0 (i_addrs ip) NDIRECT.

(** Block [a] belongs to the file. *)
Definition owns (v : Z -> list Z) (ip : inode) (a : Z) : Prop :=
  a <> 0 /\ (a = ind ip \/ exists f, 0 <= f < MAXFILE /\ iaddr v ip f = a).

Record wfile (v : Z -> list Z) (sb : superblock) (ip : inode) : Prop := {
  wf_addrs : length (i_addrs ip) = 13%nat;
  wf_size : 0 <= i_size ip <= 1024 * MAXFILE;
  wf_sb : 0 < sb_size sb < 2 ^ 32;
  wf_len bn : length (v bn) = 1024%nat;
  wf_map b : 0 <= b < sb_size sb -> 0 <= BBLOCK b sb < sb_size sb /\ is_free v sb (BBLOCK b sb) = false;
  wf_ino : 0 <= IBLOCK (i_inum ip) sb < sb_size sb /\ is_free v sb (IBLOCK (i_inum ip) sb) = false;
  wf_inomap b : 0 <= b < sb_size sb -> BBLOCK b sb <> IBLOCK (i_inum ip) sb;
  wf_zero : is_free v sb 0 = false;
  wf_own a : owns v ip a -> 0 < a < sb_size sb /\ is_free v sb a = false /\ a <> IBLOCK (i_inum ip) sb /\
    forall b, 0 <= b < sb_size sb -> BBLOCK b sb <> a;
  wf_inj f g : 0 <= f < MAXFILE -> 0 <= g < MAXFILE -> iaddr v ip f <> 0 -> iaddr v ip f = iaddr v ip g -> f = g;
  wf_ind f : 0 <= f < MAXFILE -> ind ip <> 0 -> iaddr v ip f <> ind ip;
  wf_below f : 0 <= f < nblk (i_size ip) -> iaddr v ip f <> 0;
}.

Lemma BBLOCK_inj b c sb : 0 <= b < 2 ^ 32 -> 0 <= c < 2 ^ 32 -> BBLOCK b sb = BBLOCK c sb -> b / BPB = c / BPB.
Proof.
  intros Hb Hc E. unfold BBLOCK, u32 in E. rewrite BPB_eq in *. rewrite (Z.mod_eq (b / 8192 + _)), (Z.mod_eq (c / 8192 + _)) in E by lia.
  assert (0 <= b / 8192 < 2 ^ 19 /\ 0 <= c / 8192 < 2 ^ 19) by (split; (split; [apply Z.div_pos|apply Z.div_lt_upper_bound]; lia)). lia.
Qed.

Lemma same_block b c sb : 0 <= b < 2 ^ 32 -> 0 <= c < 2 ^ 32 -> BBLOCK b sb = BBLOCK c sb -> (b mod BPB =? c mod BPB) = (b =? c).
Proof.
  intros Hb Hc E. apply BBLOCK_inj in E; [|done..]. rewrite BPB_eq in *. pose proof (Z.div_mod b 8192). pose proof (Z.div_mod c 8192).
  destruct (Z.eqb_spec (b mod 8192) (c mod 8192)), (Z.eqb_spec b c); [done|lia|subst; done|done].
Qed.

(** Allocating a block marks it and no other. *)
Lemma with_alloc_free v sb b y : 0 < sb_size sb < 2 ^ 32 -> (forall bn, length (v bn) = 1024%nat) ->
  (forall c, 0 <= c < sb_size sb -> 0 <= BBLOCK c sb < sb_size sb /\ is_free v sb (BBLOCK c sb) = false) ->
  0 <= b < sb_size sb -> is_free v sb b = true -> 0 <= y < sb_size sb ->
  is_free (with_alloc v sb b) sb y = (is_free v sb y && negb (y =? b))%bool.
Proof.
  intros Hs Hl Hm Hb Fb Hy. unfold is_free, with_alloc, upd.
  destruct (Z.eqb_spec (BBLOCK y sb) b) as [E|_]; [destruct (Hm y Hy) as [_ X]; congruence|].
  destruct (Z.eqb_spec (BBLOCK y sb) (BBLOCK b sb)) as [E|N].
  - pose proof (Z.mod_pos_bound b BPB ltac:(by rewrite BPB_eq)). pose proof (Z.mod_pos_bound y BPB ltac:(by rewrite BPB_eq)).
    rewrite bit_free_set; [|rewrite Hl; rewrite BPB_eq in *; lia|lia]. rewrite (same_block y b sb) by (lia || done). rewrite E.
    destruct (y =? b); [by rewrite andb_false_r|by rewrite andb_true_r].
  - destruct (Z.eqb_spec y b) as [->|]; [done|]. by rewrite andb_true_r.
Qed.

Lemma with_alloc_keep v sb b bn : bn <> b -> bn <> BBLOCK b sb -> with_alloc v sb b bn = v bn.
Proof. intros H1 H2. unfold with_alloc, upd. destruct (Z.eqb_spec bn b); [done|]. by destruct (Z.eqb_spec bn (BBLOCK b sb)). Qed.

Lemma with_alloc_new v sb b : with_alloc v sb b b = zero_block.
Proof. unfold with_alloc, upd. by rewrite Z.eqb_refl. Qed.

Lemma length_bit_set d b : length (bit_set d b) = length d.
Proof. apply length_zupd. Qed.

Lemma with_alloc_len v sb b bn : (forall bn, length (v bn) = 1024%nat) -> length (with_alloc v sb b bn) = 1024%nat.
Proof. intros H. unfold with_alloc, upd. destruct (bn =? b); [done|]. destruct (bn =? BBLOCK b sb); [|done]. by rewrite length_bit_set. Qed.

(** The file after block [b], which was free, has become its indirect block or
    the block at one index. *)
Record adds (v v' : Z -> list Z) (sb : superblock) (ip ip' : inode) (b : Z) : Prop := {
  ad_inode : ip' = set_i_addrs (i_addrs ip') ip;
  ad_addrs : length (i_addrs ip') = length (i_addrs ip);
  ad_len bn : length (v' bn) = 1024%nat;
  ad_range : 0 <= b < sb_size sb;
  ad_free : is_free v sb b = true;
  ad_used y : 0 <= y < sb_size sb -> is_free v' sb y = (is_free v sb y && negb (y =? b))%bool;
  ad_zero : v' b = zero_block;
  ad_keep bn : bn <> b -> bn <> BBLOCK b sb -> (bn = ind ip -> ind ip = 0) -> v' bn = v bn;
  ad_which : (exists f, 0 <= f < MAXFILE /\ iaddr v ip f = 0 /\ iaddr v' ip' f = b /\ ind ip' = ind ip /\
      forall g, 0 <= g < MAXFILE -> g <> f -> iaddr v' ip' g = iaddr v ip g) \/
    (ind ip = 0 /\ ind ip' = b /\ forall g, 0 <= g < MAXFILE -> iaddr v' ip' g = iaddr v ip g);
}.

Lemma adds_own v v' sb ip ip' b a : adds v v' sb ip ip' b -> owns v' ip' a -> a = b \/ owns v ip a.
Proof.
  intros [_ _ _ _ _ _ _ _ [(f & Hf & E1 & E2 & E3 & E4)|(E1 & E2 & E3)]] [N [->|(g & Hg & <-)]].
  - right. rewrite E3 in *. split; [done|by left].
  - destruct (decide (g = f)) as [->|Ng]; [by left|]. right. split; [done|]. right. exists g. split; [done|]. by rewrite E4.
  - by left.
  - right. split; [done|]. right. exists g. split; [done|]. by rewrite E3.
Qed.

Lemma adds_wfile v v' sb ip ip' b : wfile v sb ip -> adds v v' sb ip ip' b -> wfile v' sb ip'.
Proof.
  intros W A. pose proof (fun a => adds_own v v' sb ip ip' b a A) as Ao. destruct A as [A1 A2 A3 A4 A5 A6 A7 A8 A9]. destruct W as [W1 W2 W3 W4 W5 W6 W7 W8 W9 W10 W11 W12].
  assert (forall y, 0 <= y < sb_size sb -> is_free v sb y = false -> is_free v' sb y = false) as Us by (intros y Hy E; by rewrite A6, E).
  assert (i_size ip' = i_size ip /\ i_inum ip' = i_inum ip) as [Es En] by (rewrite A1; done).
  assert (forall a, owns v ip a -> a <> b) as Nb by (intros a Ha ->; destruct (W9 b Ha) as (_ & X & _); congruence).
  assert (b <> 0) as B0 by (intros ->; congruence).
  assert (forall f, 0 <= f < MAXFILE -> iaddr v ip f <> 0 -> owns v ip (iaddr v ip f)) as Of by (intros f Hf N; split; [done|]; right; by exists f).
  assert (forall f, 0 <= f < MAXFILE -> iaddr v ip f <> b) as Nf by (intros f Hf E; apply (Nb b); [rewrite <- E; apply Of; congruence|done]).
  split; rewrite ?Es, ?En; try done; [congruence|intros c Hc; destruct (W5 c Hc); auto|destruct W6; auto|apply Us; [lia|done]|..].
  - intros a [->|Ha]%Ao; [|destruct (W9 a Ha) as (R & X & Y & Z); split; [done|]; split; [apply Us; [lia|done]|done]].
    split; [lia|]. split; [rewrite A6, Z.eqb_refl, andb_false_r by done; done|]. split; [intros E; destruct W6; congruence|].
    intros c Hc E. destruct (W5 c Hc). congruence.
  - intros f g Hf Hg N E. destruct A9 as [(h & Hh & E1 & E2 & E3 & E4)|(E1 & E2 & E3)]; [|rewrite !E3 in * by done; by apply W10].
    destruct (decide (f = h)) as [->|Nfh], (decide (g = h)) as [->|Ngh]; [done| | |].
    + rewrite E2, E4 in E by done. by destruct (Nf g Hg).
    + rewrite E2, E4 in E by done. by destruct (Nf f Hf).
    + rewrite !E4 in * by done. by apply W10.
  - intros f Hf N. destruct A9 as [(h & Hh & E1 & E2 & E3 & E4)|(E1 & E2 & E3)]; [|rewrite E2, E3 by done; by apply Nf].
    rewrite E3 in *. destruct (decide (f = h)) as [->|Nfh]; [|rewrite E4 by done; by apply W11]. rewrite E2. intros ->. apply (Nb (ind ip)); [|done]. split; [done|by left].
  - intros f Hf. pose proof (nblk_spec (i_size ip) ltac:(lia)). assert (0 <= f < MAXFILE) as Hm by lia. specialize (W12 f Hf).
    destruct A9 as [(h & Hh & E1 & E2 & E3 & E4)|(E1 & E2 & E3)]; [|by rewrite E3]. rewrite E4; [done|done|]. intros ->. congruence.
Qed.

(** A change of blocks that are neither bitmap blocks nor the indirect block
    leaves the shape of the file. *)
Lemma wfile_same v v' sb ip : wfile v sb ip -> (forall bn, length (v' bn) = 1024%nat) ->
  (forall b, 0 <= b < sb_size sb -> v' (BBLOCK b sb) = v (BBLOCK b sb)) -> (ind ip <> 0 -> v' (ind ip) = v (ind ip)) ->
  wfile v' sb ip /\ (forall f, iaddr v' ip f = iaddr v ip f) /\ forall y, 0 <= y < sb_size sb -> is_free v' sb y = is_free v sb y.
Proof.
  intros W Hl Hb Hi. assert (forall f, iaddr v' ip f = iaddr v ip f) as Ea.
  { intros f. unfold iaddr. fold (ind ip). destruct (f <? NDIRECT); [done|]. destruct (Z.eqb_spec (ind ip) 0); [done|]. by rewrite Hi. }
  assert (forall y, 0 <= y < sb_size sb -> is_free v' sb y = is_free v sb y) as Ef by (intros y Hy; unfold is_free; by rewrite Hb).
  split; [|done]. assert (forall a, owns v' ip a -> owns v ip a) as Ow.
  { intros a [N [E|(f & Hf & E)]]; (split; [done|]); [by left|]. right. exists f. split; [done|]. by rewrite <- Ea. }
  destruct W as [W1 W2 W3 W4 W5 W6 W7 W8 W9 W10 W11 W12]. split; try done.
  - intros b Hy. rewrite Ef; [by apply W5|]. by apply W5.
  - by rewrite Ef by apply W6.
  - by rewrite Ef by lia.
  - intros a Ha%Ow. destruct (W9 a Ha) as (R & X & Y & Z). rewrite Ef by lia. done.
  - intros f g. rewrite !Ea. apply W10.
  - intros f. rewrite Ea. apply W11.
  - intros f. rewrite Ea. apply W12.
Qed.

Lemma adds_ext v v' v'' sb ip ip' b : adds v v' sb ip ip' b -> (forall bn, v'' bn = v' bn) -> adds v v'' sb ip ip' b.
Proof.
  intros [A1 A2 A3 A4 A5 A6 A7 A8 A9] E. assert (forall f, iaddr v'' ip' f = iaddr v' ip' f) as Ea by (intros f; unfold iaddr; by rewrite E).
  split; try done.
  - intros bn. by rewrite E.
  - intros y Hy. rewrite <- A6 by done. unfold is_free. by rewrite E.
  - by rewrite E.
  - intros bn. rewrite E. apply A8.
  - destruct A9 as [(f & Hf & E1 & E2 & E3 & E4)|(E1 & E2 & E3)]; [left|right]; [|split; [done|]; split; [done|]; intros g Hg; rewrite Ea; auto].
    exists f. rewrite Ea. split; [done|]. split; [done|]. split; [done|]. split; [done|]. intros g Hg N. rewrite Ea. auto.
Qed.

(** *** The three ways a file gets a block *)

Lemma owns_addr v ip f : 0 <= f < MAXFILE -> iaddr v ip f <> 0 -> owns v ip (iaddr v ip f).
Proof. intros Hf N. split; [done|]. right. by exists f. Qed.

Lemma owns_ind v ip : ind ip <> 0 -> owns v ip (ind ip).
Proof. intros N. split; [done|by left]. Qed.

(** What belongs to the file is not touched by an allocation. *)
Lemma alloc_own v sb ip b a : wfile v sb ip -> 0 <= b < sb_size sb -> is_free v sb b = true -> owns v ip a -> a <> b /\ a <> BBLOCK b sb /\ with_alloc v sb b a = v a.
Proof.
  intros W Hb Fb Ho. destruct (wf_own _ _ _ W a Ho) as (R & U & _ & M). assert (a <> b) by (intros ->; congruence).
  assert (a <> BBLOCK b sb) by (intros E; by apply (M b Hb)). split; [done|]. split; [done|]. by apply with_alloc_keep.
Qed.

Lemma set_addr_direct ip f a g : length (i_addrs ip) = 13%nat -> 0 <= f < 13 -> 0 <= g ->
  znth 0 (i_addrs (set_i_addrs (zupd (i_addrs ip) f a) ip)) g = if g =? f then a else znth 0 (i_addrs ip) g.
Proof.
  intros Hl Hf Hg. cbn [i_addrs set_i_addrs]. destruct (Z.eqb_spec g f) as [->|N]; [rewrite znth_zupd_eq by lia; done|]. apply znth_zupd_ne; lia.
Qed.

Lemma adds_direct v sb ip b f : wfile v sb ip -> 0 <= b < sb_size sb -> is_free v sb b = true -> 0 <= f < NDIRECT -> znth 0 (i_addrs ip) f = 0 ->
  adds v (with_alloc v sb b) sb ip (set_i_addrs (zupd (i_addrs ip) f b) ip) b.
Proof.
  intros W Hb Fb Hf E0. pose proof (wf_addrs _ _ _ W) as Hl. assert (NDIRECT = 12) as EN by done. set (ip' := set_i_addrs _ ip).
  assert (ind ip' = ind ip) as Ei by (unfold ind, ip'; rewrite set_addr_direct by lia; destruct (Z.eqb_spec NDIRECT f); [lia|done]).
  split; try done; [apply length_zupd|intros bn; apply with_alloc_len; apply W|intros y Hy; apply with_alloc_free; try done; apply W|apply with_alloc_new|intros; by apply with_alloc_keep|].
  left. exists f. change MAXFILE with 268. split; [lia|]. unfold iaddr. destruct (Z.ltb_spec f NDIRECT); [|lia]. split; [done|].
  unfold ip' at 1. rewrite set_addr_direct, Z.eqb_refl by lia. split; [done|]. split; [done|]. intros g Hg N. destruct (g <? NDIRECT).
  - unfold ip'. rewrite set_addr_direct by lia. by destruct (Z.eqb_spec g f).
  - fold (ind ip') (ind ip). rewrite Ei. destruct (Z.eqb_spec (ind ip) 0); [done|]. by destruct (alloc_own v sb ip b (ind ip) W Hb Fb (owns_ind _ _ ltac:(done))) as (_ & _ & ->).
Qed.

Lemma adds_ind v sb ip b : wfile v sb ip -> 0 <= b < sb_size sb -> is_free v sb b = true -> ind ip = 0 ->
  adds v (with_alloc v sb b) sb ip (set_i_addrs (zupd (i_addrs ip) NDIRECT b) ip) b.
Proof.
  intros W Hb Fb E0. pose proof (wf_addrs _ _ _ W) as Hl. assert (NDIRECT = 12) as EN by done. set (ip' := set_i_addrs _ ip).
  assert (ind ip' = b) as Ei by (unfold ind, ip'; rewrite set_addr_direct by lia; by rewrite Z.eqb_refl).
  assert (b <> 0) as B0 by (intros ->; pose proof (wf_zero _ _ _ W); congruence).
  split; try done; [apply length_zupd|intros bn; apply with_alloc_len; apply W|intros y Hy; apply with_alloc_free; try done; apply W|apply with_alloc_new|intros; by apply with_alloc_keep|].
  right. split; [done|]. split; [done|]. intros g Hg. unfold iaddr. destruct (Z.ltb_spec g NDIRECT).
  - unfold ip'. rewrite set_addr_direct by lia. destruct (Z.eqb_spec g NDIRECT); [lia|done].
  - fold (ind ip') (ind ip). rewrite Ei, E0. cbn [Z.eqb]. destruct (Z.eqb_spec b 0); [done|]. rewrite with_alloc_new. apply get_word_zero.
Qed.

Lemma adds_indirect v sb ip b f : wfile v sb ip -> 0 <= b < sb_size sb -> is_free v sb b = true -> NDIRECT <= f < MAXFILE -> ind ip <> 0 -> iaddr v ip f = 0 ->
  adds v (upd (with_alloc v sb b) (ind ip) (put_word (v (ind ip)) (4 * (f - NDIRECT)) b)) sb ip ip b.
Proof.
  intros W Hb Fb Hf N0 E0. assert (NDIRECT = 12 /\ MAXFILE = 268) as [EN EM] by done. destruct (alloc_own v sb ip b _ W Hb Fb (owns_ind v ip N0)) as (Ni & Nm & _).
  destruct (wf_own _ _ _ W _ (owns_ind v ip N0)) as (_ & _ & _ & Hm). pose proof (wf_len _ _ _ W (ind ip)) as Hl. pose proof (wf_sb _ _ _ W) as Hs.
  set (v' := upd _ _ _). assert (v' (ind ip) = put_word (v (ind ip)) (4 * (f - NDIRECT)) b) as Ev by (unfold v', upd; by rewrite Z.eqb_refl).
  assert (forall bn, bn <> ind ip -> v' bn = with_alloc v sb b bn) as Ek by (intros bn N; unfold v', upd; by destruct (Z.eqb_spec bn (ind ip))).
  split; try done.
  - intros bn. unfold v', upd. destruct (bn =? ind ip); [rewrite length_put_word by lia; done|]. apply with_alloc_len. apply W.
  - intros y Hy. rewrite <- with_alloc_free; try done; try apply W. unfold is_free. rewrite Ek; [done|]. by apply Hm.
  - rewrite Ek by done. apply with_alloc_new.
  - intros bn N1 N2 N3. rewrite Ek by (intros ->; by apply N0, N3). by apply with_alloc_keep.
  - left. exists f. split; [lia|]. split; [done|]. unfold iaddr. fold (ind ip). destruct (Z.ltb_spec f NDIRECT); [lia|]. destruct (Z.eqb_spec (ind ip) 0); [done|]. rewrite Ev.
    split; [rewrite get_put_word_eq by lia; apply u32_small; lia|]. split; [done|]. intros g Hg N. destruct (Z.ltb_spec g NDIRECT); [done|].
    apply get_put_word_ne; lia.
Qed.

(** *** The bytes of the blocks of a file *)

(** Block [f] of the file; one that is not there is taken to be zeroes. *)
Definition content (v : Z -> list Z) (ip : inode) (f : Z) : list Z := if iaddr v ip f =? 0 then zero_block else v (iaddr v ip f).
Definition contents (v : Z -> list Z) (ip : inode) : list Z := concat (map (fun f => content v ip (Z.of_nat f)) (seq 0 (Z.to_nat MAXFILE))).

Lemma contents_ext v v' ip ip' : (forall f, 0 <= f < MAXFILE -> content v' ip' f = content v ip f) -> contents v' ip' = contents v ip.
Proof. intros H. unfold contents. f_equal. apply map_ext_in. intros f Hf%in_seq. apply H. lia. Qed.

Lemma length_concat_blocks {A} (l : list (list A)) : Forall (fun x => length x = 1024%nat) l -> length (concat l) = (1024 * length l)%nat.
Proof. induction 1 as [|x l Hx _ IH]; [done|]. cbn [concat]. rewrite length_app, Hx, IH. cbn [length]. lia. Qed.

(** A write inside one of several blocks. *)
Lemma concat_put (l : list (list Z)) f x o bs : Forall (fun x => length x = 1024%nat) l -> l !! f = Some x -> 0 <= o -> (Z.to_nat o + length bs <= 1024)%nat ->
  concat (<[f := put_bytes x o bs]> l) = put_bytes (concat l) (1024 * Z.of_nat f + o) bs.
Proof.
  intros F E Ho Hb. pose proof (lookup_lt_Some _ _ _ E) as Hf. rewrite insert_take_drop by done. rewrite <- (take_drop_middle l f x E) at 3.
  rewrite !concat_app. cbn [concat]. set (a := concat (take f l)). set (c := concat (drop (S f) l)).
  assert (length a = (1024 * f)%nat) as La by (unfold a; rewrite length_concat_blocks by (by apply Forall_take); rewrite length_take; lia).
  assert (length x = 1024%nat) as Lx by (exact (Forall_lookup_1 _ _ _ _ F E)). unfold put_bytes.
  replace (Z.to_nat (1024 * Z.of_nat f + o)) with (length a + Z.to_nat o)%nat by lia.
  rewrite take_app_add, take_app_le by lia. rewrite <- Nat.add_assoc, drop_app_add', drop_app_le by lia. by rewrite <- !app_assoc.
Qed.

Lemma put_bytes_nil d off : put_bytes d off [] = d.
Proof. unfold put_bytes. cbn [length]. rewrite Nat.add_0_r, app_nil_l. apply take_drop. Qed.

(** Bytes written at most at the end are where they were written. *)
Lemma put_bytes_read d off bs : (Z.to_nat off <= length d)%nat -> take (length bs) (drop (Z.to_nat off) (put_bytes d off bs)) = bs.
Proof. intros H. unfold put_bytes. rewrite drop_app_length' by (rewrite length_take; lia). apply take_app_length. Qed.

Lemma put_bytes_app d off a b : 0 <= off -> (Z.to_nat off + length a <= length d)%nat -> put_bytes (put_bytes d off a) (off + Z.of_nat (length a)) b = put_bytes d off (a ++ b).
Proof.
  intros Ho Hl. unfold put_bytes. replace (Z.to_nat (off + Z.of_nat (length a))) with (Z.to_nat off + length a)%nat by lia. set (o := Z.to_nat off) in *.
  assert (length (take o d ++ a) = (o + length a)%nat) as Lt by (rewrite length_app, length_take; lia).
  rewrite (app_assoc (take o d)). rewrite take_app_length' by lia. rewrite drop_app_ge by lia. rewrite Lt, drop_drop, length_app, <- !app_assoc.
  do 3 f_equal. f_equal. lia.
Qed.

(** *** What a write does to the disk *)

(** The bytes [bs] have been written at offset [off] of the file: its blocks
    have grown by blocks that were free, and no other block in use has
    changed but for the bitmap. *)
Record wrote (off : Z) (bs : list Z) (v v' : Z -> list Z) (sb : superblock) (ip ip' : inode) : Prop := {
  wr_inode : ip' = set_i_addrs (i_addrs ip') ip;
  wr_ind : ind ip <> 0 -> ind ip' = ind ip;
  wr_addr f : 0 <= f < MAXFILE -> iaddr v ip f <> 0 -> iaddr v' ip' f = iaddr v ip f;
  wr_own a : owns v' ip' a -> owns v ip a \/ is_free v sb a = true;
  wr_used y : 0 <= y < sb_size sb -> is_free v sb y = false -> is_free v' sb y = false;
  wr_keep bn : (0 <= bn < sb_size sb -> is_free v sb bn = false) -> ~ owns v ip bn -> (forall b, 0 <= b < sb_size sb -> bn <> BBLOCK b sb) -> v' bn = v bn;
  wr_data : contents v' ip' = put_bytes (contents v ip) off bs;
}.

Lemma wrote_nothing off v v' sb ip : (forall bn, v' bn = v bn) -> wrote off [] v v' sb ip ip.
Proof.
  intros E. assert (forall f, iaddr v' ip f = iaddr v ip f) as Ea by (intros f; unfold iaddr; by rewrite E).
  split; try done.
  - intros a [N [->|(f & Hf & <-)]]; left; (split; [done|]); [by left|]. right. exists f. by rewrite <- Ea.
  - intros y Hy. unfold is_free. by rewrite E.
  - rewrite put_bytes_nil. apply contents_ext. intros f _. unfold content. by rewrite Ea, E.
Qed.

Lemma adds_wrote off v v' sb ip ip' b : wfile v sb ip -> adds v v' sb ip ip' b -> wrote off [] v v' sb ip ip'.
Proof.
  intros W A. pose proof (fun a => adds_own v v' sb ip ip' b a A) as Ao. destruct A as [A1 A2 A3 A4 A5 A6 A7 A8 A9].
  assert (b <> 0) as B0 by (intros ->; pose proof (wf_zero _ _ _ W); congruence).
  assert (forall f, 0 <= f < MAXFILE -> iaddr v ip f <> 0 -> iaddr v' ip' f = iaddr v ip f) as Ea.
  { intros f Hf N. destruct A9 as [(h & Hh & E1 & E2 & E3 & E4)|(E1 & E2 & E3)]; [|by apply E3]. apply E4; [done|]. intros ->. done. }
  assert (forall bn, (0 <= bn < sb_size sb -> is_free v sb bn = false) -> bn <> b) as Nb by (intros bn H ->; rewrite H in A5 by done; done).
  split; try done.
  - intros N. by destruct A9 as [(h & Hh & E1 & E2 & E3 & E4)|(E1 & E2 & E3)].
  - intros a [->|Ha]%Ao; [by right|by left].
  - intros y Hy E. by rewrite A6, E.
  - intros bn Hu Ho Hm. apply A8; [by apply Nb|by apply Hm|]. intros ->. destruct (decide (ind ip = 0)); [done|]. by destruct Ho; apply owns_ind.
  - rewrite put_bytes_nil. apply contents_ext. intros f Hf. unfold content. destruct (Z.eqb_spec (iaddr v ip f) 0) as [E0|N0].
    + destruct A9 as [(h & Hh & E1 & E2 & E3 & E4)|(E1 & E2 & E3)]; [|by rewrite E3, E0]. destruct (decide (f = h)) as [->|Nf]; [|by rewrite E4, E0].
      rewrite E2. by destruct (Z.eqb_spec b 0).
    + rewrite Ea by done. destruct (Z.eqb_spec (iaddr v ip f) 0); [done|]. destruct (wf_own _ _ _ W _ (owns_addr v ip f Hf N0)) as (R & U & _ & M).
      apply A8; [apply Nb; done|intros E; by apply (M b)|]. intros E. destruct (decide (ind ip = 0)) as [|Ni]; [done|]. by destruct (wf_ind _ _ _ W f Hf Ni).
Qed.

(** Writes one after the other. *)
Lemma wrote_seq off a b v v1 v2 sb ip ip1 ip2 : wfile v1 sb ip1 -> wfile v2 sb ip2 ->
  wrote off a v v1 sb ip ip1 -> wrote (off + Z.of_nat (length a)) b v1 v2 sb ip1 ip2 ->
  a = [] \/ 0 <= off /\ (Z.to_nat off + length a <= length (contents v ip))%nat -> wrote off (a ++ b) v v2 sb ip ip2.
Proof.
  intros W1 W2 [A1 A2 A3 A4 A5 A6 A7] [B1 B2 B3 B4 B5 B6 B7] Hl. split.
  - rewrite B1, A1. done.
  - intros N. rewrite B2; rewrite A2; done.
  - intros f Hf N. rewrite B3; rewrite ?A3; done.
  - intros x Hx. pose proof (wf_own _ _ _ W2 x Hx) as (R & _). apply B4 in Hx as [Hx|Hx]; [by apply A4|]. right.
    destruct (is_free v sb x) eqn:E; [done|]. rewrite A5 in Hx by (lia || done). done.
  - intros y Hy E. apply B5; [done|]. by apply A5.
  - intros bn Hu Hn Hm. rewrite B6; [by apply A6| | |done].
    + intros Hr. apply A5; auto.
    + intros Hx. pose proof (wf_own _ _ _ W1 bn Hx) as (R & _). apply A4 in Hx as [Hx|Hx]; [done|]. rewrite Hu in Hx by lia. done.
  - rewrite B7, A7. destruct Hl as [->|[Ho Hl]]; [|by apply put_bytes_app]. cbn [length Z.of_nat]. by rewrite Z.add_0_r, put_bytes_nil.
Qed.

Lemma content_len v sb ip f : wfile v sb ip -> length (content v ip f) = 1024%nat.
Proof. intros W. unfold content. destruct (_ =? 0); [done|]. apply W. Qed.

Lemma contents_blocks v sb ip : wfile v sb ip -> Forall (fun x => length x = 1024%nat) (map (fun f => content v ip (Z.of_nat f)) (seq 0 (Z.to_nat MAXFILE))).
Proof. intros W. apply Forall_forall. intros x (f & -> & _)%list_elem_of_fmap. by apply (content_len v sb). Qed.

Lemma length_contents v sb ip : wfile v sb ip -> length (contents v ip) = Z.to_nat (1024 * MAXFILE).
Proof. intros W. unfold contents. rewrite length_concat_blocks by (by eapply contents_blocks). rewrite length_map, length_seq. lia. Qed.

(** Bytes are written into a block of the file. *)
Lemma data_wrote v sb ip f o bs : wfile v sb ip -> 0 <= f < MAXFILE -> iaddr v ip f <> 0 -> 0 <= o -> (Z.to_nat o + length bs <= 1024)%nat ->
  let v' := upd v (iaddr v ip f) (put_bytes (v (iaddr v ip f)) o bs) in
  wfile v' sb ip /\ wrote (1024 * f + o) bs v v' sb ip ip.
Proof.
  intros W Hf Na Ho Hb v'. set (a := iaddr v ip f) in *. pose proof (owns_addr v ip f Hf Na) as Hown. fold a in Hown.
  destruct (wf_own _ _ _ W a Hown) as (R & U & _ & M). pose proof (wf_len _ _ _ W a) as La.
  assert (forall bn, bn <> a -> v' bn = v bn) as Ek by (intros bn N; unfold v', upd; by destruct (Z.eqb_spec bn a)).
  assert (v' a = put_bytes (v a) o bs) as Ea by (unfold v', upd; by rewrite Z.eqb_refl).
  destruct (wfile_same v v' sb ip W) as (W' & Ei & Ef).
  { intros bn. unfold v', upd. destruct (bn =? a); [rewrite length_put_bytes; lia|]. apply W. }
  { intros b Hr. apply Ek. by apply M. }
  { intros Ni. apply Ek. intros E. by apply (wf_ind _ _ _ W f Hf Ni). }
  split; [done|]. split; try done.
  - intros x [N [->|(g & Hg & <-)]]; left; (split; [done|]); [by left|]. right. exists g. by rewrite <- Ei.
  - intros y Hy. by rewrite Ef.
  - intros bn _ Hn _. apply Ek. intros ->. done.
  - unfold contents. pose proof (contents_blocks v sb ip W) as Fb. set (n := Z.to_nat MAXFILE) in *.
    assert (map (fun f => content v ip (Z.of_nat f)) (seq 0 n) !! Z.to_nat f = Some (v a)) as El.
    { apply list_lookup_fmap_Some. exists (Z.to_nat f). split; [|apply lookup_seq; lia]. unfold content. rewrite Z2Nat.id by lia. fold a. by destruct (Z.eqb_spec a 0). }
    pose proof (concat_put _ (Z.to_nat f) (v a) o bs Fb El Ho Hb) as E. rewrite Z2Nat.id in E by lia. rewrite <- E. f_equal. apply list_eq. intros j.
    destruct (decide (j < n)%nat) as [Hj|Hj]; [|rewrite !lookup_ge_None_2; [done|rewrite ?length_insert, length_map, length_seq; lia..]].
    rewrite list_lookup_fmap, lookup_seq_lt by done. cbn [fmap option_fmap option_map Nat.add]. destruct (decide (j = Z.to_nat f)) as [->|Nj].
    + rewrite list_lookup_insert_eq by (rewrite length_map, length_seq; lia). unfold content. rewrite Z2Nat.id, Ei by lia. fold a. destruct (Z.eqb_spec a 0); [done|]. by rewrite Ea.
    + rewrite list_lookup_insert_ne by done. rewrite list_lookup_fmap, lookup_seq_lt by done. cbn [fmap option_fmap option_map Nat.add]. f_equal.
      unfold content. rewrite Ei. destruct (Z.eqb_spec (iaddr v ip (Z.of_nat j)) 0) as [|Nz]; [done|]. apply Ek. intros E'. apply Nj. unfold a in E'.
      apply (wf_inj _ _ _ W) in E'; lia.
Qed.

(** The bytes of a file are a part of the bytes of its blocks. *)
Lemma file_contents v sb ip : wfile v sb ip -> file_data v ip = take (Z.to_nat (i_size ip)) (contents v ip).
Proof.
  intros W. pose proof (wf_size _ _ _ W) as Hs. pose proof (nblk_spec (i_size ip) ltac:(lia)) as Hn. unfold file_data, file_blocks, contents.
  set (k := Z.to_nat (nblk (i_size ip))). replace (Z.to_nat MAXFILE) with (k + (Z.to_nat MAXFILE - k))%nat by lia. rewrite seq_app, map_app, concat_app.
  assert (forall f, f ∈ seq 0 k -> content v ip (Z.of_nat f) = v (iaddr v ip (Z.of_nat f))) as E.
  { intros f Hf%elem_of_seq. unfold content. destruct (Z.eqb_spec (iaddr v ip (Z.of_nat f)) 0) as [E|]; [|done]. by apply (wf_below _ _ _ W) in E; [|lia]. }
  rewrite (map_ext_in (fun f => content v ip (Z.of_nat f)) (fun f => v (iaddr v ip (Z.of_nat f))) (seq 0 k)) by (intros f Hf; apply E; by apply list_elem_of_In).
  rewrite take_app_le; [done|]. rewrite length_concat_blocks, length_map, length_seq; [lia|]. apply Forall_forall. intros x (f & -> & _)%list_elem_of_fmap. apply W.
Qed.

(** A write at most at the end of the file, on its bytes. *)
Lemma take_put d n off bs m : (n <= length d)%nat -> 0 <= off -> (Z.to_nat off <= n)%nat -> m = Nat.max n (Z.to_nat off + length bs) -> (m <= length d)%nat ->
  take m (put_bytes d off bs) = put_bytes (take n d) off bs.
Proof.
  intros Hn Ho Hf -> Hm. unfold put_bytes. set (o := Z.to_nat off) in *. rewrite take_take, Nat.min_l by lia.
  rewrite take_app_ge, length_take, Nat.min_l by (rewrite ?length_take; lia). f_equal. rewrite take_app_ge by lia. f_equal.
  rewrite skipn_firstn_comm. destruct (decide (n <= o + length bs)%nat).
  - rewrite !(proj2 (Nat.sub_0_le _ _)) by lia. done.
  - f_equal. lia.
Qed.

(** The blocks of the first [z] bytes are there. *)
Definition covered (v : Z -> list Z) (ip : inode) (z : Z) : Prop := forall f, 0 <= f < nblk z -> iaddr v ip f <> 0.

Lemma covered_more v v' sb ip ip' off m bs : covered v ip off -> wrote off bs v v' sb ip ip' -> 0 <= off -> 0 <= m <= 1024 - off mod 1024 -> off + m <= 1024 * MAXFILE ->
  iaddr v' ip' (off / 1024) <> 0 -> covered v' ip' (off + m).
Proof.
  intros C W Ho Hm Hx N f Hf. pose proof (nblk_spec off Ho). pose proof (nblk_spec (off + m) ltac:(lia)). pose proof (Z.div_mod off 1024 ltac:(lia)).
  pose proof (Z.mod_pos_bound off 1024 ltac:(lia)). destruct (decide (f = off / 1024)) as [->|Nf]; [done|].
  assert (iaddr v ip f <> 0) as E by (apply C; lia). rewrite (wr_addr _ _ _ _ _ _ _ W); [done|lia|done].
Qed.

(** The size of a file may become anything whose blocks are there. *)
Lemma wfile_resize v sb ip z : wfile v sb ip -> 0 <= z <= 1024 * MAXFILE -> covered v ip z -> wfile v sb (set_i_size z ip).
Proof. intros [W1 W2 W3 W4 W5 W6 W7 W8 W9 W10 W11 W12] Hz C. by split. Qed.

Lemma wfile_covered v sb ip z : wfile v sb ip -> 0 <= z <= i_size ip -> covered v ip z.
Proof. intros W Hz f Hf. apply (wf_below _ _ _ W). pose proof (nblk_spec z ltac:(lia)). pose proof (nblk_spec (i_size ip) ltac:(lia)). lia. Qed.

Lemma wfile_sound v sb ip : wfile v sb ip -> file_sound v ip.
Proof. intros W. split; [apply W|]. intros f Hf. split; [by apply (wf_below _ _ _ W)|apply W]. Qed.

(** *** The inode on the disk *)

Lemma length_store_dinode ip k d : length d = 1024%nat -> length (i_addrs ip) = 13%nat -> 0 <= k < 16 -> length (store_dinode ip k d) = 1024%nat.
Proof.
  intros Hd Ha Hk. unfold store_dinode, dinode_off, put_half, put_word. assert (length (concat (map (bytes_of 4) (i_addrs ip))) = 52%nat) as Lc.
  { destruct (i_addrs ip) as [|? [|? [|? [|? [|? [|? [|? [|? [|? [|? [|? [|? [|? []]]]]]]]]]]]]]; done. }
  assert (forall d o bs, length d = 1024%nat -> (Z.to_nat o + length bs <= 1024)%nat -> length (put_bytes d o bs) = 1024%nat) as Hp by (intros; rewrite length_put_bytes; lia).
  repeat apply Hp; rewrite ?length_bytes_of, ?Lc; lia || done.
Qed.

(** Storing the inode changes neither the shape nor the bytes of the file. *)
Lemma ino_stored v v' sb ip : wfile v sb ip -> (forall bn, v' bn = upd v (IBLOCK (i_inum ip) sb) (store_dinode ip (i_inum ip mod IPB) (v (IBLOCK (i_inum ip) sb))) bn) ->
  wfile v' sb ip /\ contents v' ip = contents v ip /\ (forall y, 0 <= y < sb_size sb -> is_free v' sb y = is_free v sb y) /\ forall f, iaddr v' ip f = iaddr v ip f.
Proof.
  intros W E. set (b := IBLOCK (i_inum ip) sb) in *. assert (forall bn, bn <> b -> v' bn = v bn) as Ek by (intros bn N; rewrite E; unfold upd; by destruct (Z.eqb_spec bn b)).
  destruct (wfile_same v v' sb ip W) as (W' & Ea & Ef).
  { intros bn. rewrite E. unfold upd. destruct (bn =? b); [|apply W]. apply length_store_dinode; [apply W|apply W|]. apply Z.mod_pos_bound. done. }
  { intros c Hc. apply Ek. by apply (wf_inomap _ _ _ W). }
  { intros N. apply Ek. by apply (wf_own _ _ _ W _ (owns_ind v ip N)). }
  split; [done|]. split; [|done]. apply contents_ext. intros f Hf. unfold content. rewrite Ea. destruct (Z.eqb_spec (iaddr v ip f) 0); [done|].
  apply Ek. by apply (wf_own _ _ _ W _ (owns_addr v ip f Hf ltac:(done))).
Qed.

(** *** What a write leaves alone *)

(** Block [x] is in use, but not by this file, its inode or the bitmap. *)
Definition apart (v : Z -> list Z) (sb : superblock) (ip : inode) (x : Z) : Prop :=
  (0 <= x < sb_size sb -> is_free v sb x = false) /\ ~ owns v ip x /\ (forall b, 0 <= b < sb_size sb -> x <> BBLOCK b sb) /\ x <> IBLOCK (i_inum ip) sb.

Lemma wrote_apart off bs v v' sb ip ip' x : wfile v' sb ip' -> wrote off bs v v' sb ip ip' -> apart v sb ip x -> v' x = v x /\ apart v' sb ip' x.
Proof.
  intros W [R1 R2 R3 R4 R5 R6 R7] (A1 & A2 & A3 & A4). split; [by apply R6|]. split; [auto|]. split; [|split; [done|by rewrite R1]].
  intros Ho. pose proof (wf_own _ _ _ W x Ho) as (Hr & _). apply R4 in Ho as [Ho|Ho]; [done|]. rewrite A1 in Ho by lia. done.
Qed.

Lemma adds_apart v v' sb ip ip' b x : wfile v sb ip -> adds v v' sb ip ip' b -> apart v sb ip x ->
  x <> b /\ x <> BBLOCK b sb /\ (ind ip <> 0 -> x <> ind ip) /\ v' x = v x /\ apart v' sb ip' x.
Proof.
  intros W A P. pose proof P as (A1 & A2 & A3 & A4). split; [|split; [|split; [|by apply (wrote_apart 0 [] v v' sb ip ip'); [by eapply adds_wfile|by eapply adds_wrote|]]]].
  - intros ->. pose proof (ad_free _ _ _ _ _ _ A) as Fb. rewrite A1 in Fb by apply A. done.
  - apply A3, A.
  - intros N ->. by apply A2, owns_ind.
Qed.

Lemma same_apart v v' sb ip x : (forall f, iaddr v' ip f = iaddr v ip f) -> (forall y, 0 <= y < sb_size sb -> is_free v' sb y = is_free v sb y) -> apart v sb ip x -> apart v' sb ip x.
Proof.
  intros Ea Ef (A1 & A2 & A3 & A4). split; [intros Hx; rewrite Ef; auto|]. split; [|done]. intros [N [->|(f & Hf & <-)]]; apply A2; (split; [done|]); [by left|].
  right. exists f. by rewrite Ea.
Qed.
