(* ===== verification/FsWrite.v ===== *)
(** * Writing files (kernel/fs.c bmap(), writei(), iupdate()), what the code does

    Inside a transaction, bmap() adds a block to a file that has none at an
    index, and writei() overwrites and extends the file. *)

From S2P Require Import Prelude Riscv Memory Mkfs MkfsSpec KState KMonad Spinlock Kalloc Vm Proc ProcSpec SleepSpec Seq.
From S2P Require Import Printf PrintSpec Sleeplock Bio BioSpec Log BlockSpec LogSpec Crash Fs FsView FsSpec LogWrite Balloc FileShape.

(** ** bmap() *)

Section FsWrite.
Variables (me : nat) (pid : Z).
Variable dev : Z.
Context {L : Layout} {D : Disk} {DL : DiskLaws me pid D}.
Variable fuel : nat.
#[local] Abbreviation does := (does me pid).
#[local] Abbreviation view := (view dev).
#[local] Abbreviation txn := (txn pid dev).
#[local] Abbreviation moved_to := (moved_to pid dev).

(** A file that this process may write: a transaction is open, and the blocks
    that every write touches are in the budget. *)
Record ready (F : gset Z) (i : nat) (s : kstate) : Prop := {
  rd_txn : txn [] s;
  rd_idx : (i < length (k_itable s))%nat;
  rd_dev : i_dev (ino s i) = dev;
  rd_file : wfile (view s) (k_sb s) (ino s i);
  rd_map b : 0 <= b < sb_size (k_sb s) -> BBLOCK b (k_sb s) ∈ F;
  rd_ino : IBLOCK (i_inum (ino s i)) (k_sb s) ∈ F;
  rd_ind : ind (ino s i) <> 0 -> ind (ino s i) ∈ F \/ ind (ino s i) ∈ pinned s;
}.

(** What a write may change of the kernel's state, and of the disk. *)
Record stays (i : nat) (s s' : kstate) : Prop := {
  st_frame : s' = set_k_itable (<[i := ino s' i]> (k_itable s)) (set_k_out (k_out s') (set_k_log (k_log s') (set_k_bufs (k_bufs s') s)));
  st_log : same_log (k_log s) (k_log s');
  st_pins x : x ∈ pinned s -> x ∈ pinned s';
  st_rest x : apart (view s) (k_sb s) (ino s i) x ->
    view s' x = view s x /\ apart (view s') (k_sb s) (ino s' i) x /\ (x ∈ pinned s' -> x ∈ pinned s);
}.

(** A file without an indirect block may need one more block. *)
Definition slack (ip : inode) : nat := if ind ip =? 0 then 1%nat else 0%nat.

Lemma stays_refl i s : (i < length (k_itable s))%nat -> stays i s s.
Proof.
  intros Hi. split; [|done..]. assert (<[i := ino s i]> (k_itable s) = k_itable s) as ->; [|by destruct s].
  apply list_insert_id. unfold ino. rewrite nth_lookup. by destruct (lookup_lt_is_Some_2 _ _ Hi) as [x ->].
Qed.

Lemma stays_sb i s s' : stays i s s' -> k_sb s' = k_sb s.
Proof. intros S. by rewrite (st_frame _ _ _ S). Qed.

Lemma stays_then i s1 s2 s3 : stays i s1 s2 -> stays i s2 s3 -> stays i s1 s3.
Proof.
  intros A B. pose proof (stays_sb _ _ _ A) as Es. destruct A as [A1 A2 A3 A4], B as [B1 B2 B3 B4]. split; [|by eapply same_log_trans|auto|].
  - rewrite B1 at 1. rewrite A1. cbn [k_itable set_k_itable]. rewrite list_insert_insert_eq. done.
  - intros x (E1 & P1 & N1)%A4. rewrite <- Es in P1. apply B4 in P1 as (E2 & P2 & N2). rewrite Es in P2. split; [congruence|]. split; auto.
Qed.

Lemma moved_ino i hs s s' v T : moved_to hs s s' v T -> k_itable s' = k_itable s /\ ino s' i = ino s i.
Proof. intros M. unfold ino. by rewrite (mt_frame _ _ _ _ _ _ _ M). Qed.

(** A step that changes the blocks [T] and the inode. *)
Lemma stays_step i s s' v T ip' : (i < length (k_itable s))%nat -> moved_to [] s s' v T ->
  (forall x, apart (view s) (k_sb s) (ino s i) x -> (x ∉ T) /\ v x = view s x /\ apart (view s') (k_sb s) ip' x) ->
  stays i s (setino i ip' s') /\ ino (setino i ip' s') i = ip'.
Proof.
  intros Hi M Hx. destruct (moved_ino i _ _ _ _ _ M) as [Et _]. assert (ino (setino i ip' s') i = ip') as E by (rewrite ino_setino, Nat.eqb_refl; [done|by rewrite Et]).
  split; [|done]. split; [|apply M|apply M|].
  - rewrite E. unfold setino. rewrite Et. rewrite (mt_frame _ _ _ _ _ _ _ M). done.
  - intros x (H1 & H2 & H3)%Hx. rewrite E. split; [change (view s' x = view s x); by rewrite (mt_view _ _ _ _ _ _ _ M)|]. split; [done|].
    intros Hp. change (x ∈ pinned s') in Hp. by apply (mt_pins _ _ _ _ _ _ _ M) in Hp as [|].
Qed.

Lemma setino_id i s : (i < length (k_itable s))%nat -> setino i (ino s i) s = s.
Proof. intros Hi. symmetry. unfold setino. rewrite (st_frame _ _ _ (stays_refl i s Hi)) at 1. by destruct s. Qed.

Lemma stays_moved i s s' v T : (i < length (k_itable s))%nat -> moved_to [] s s' v T ->
  (forall x, apart (view s) (k_sb s) (ino s i) x -> (x ∉ T) /\ v x = view s x /\ apart (view s') (k_sb s) (ino s i) x) -> stays i s s'.
Proof.
  intros Hi M Hx. destruct (moved_ino i _ _ _ _ _ M) as [Et Ei]. destruct (stays_step i s s' v T (ino s i) Hi M Hx) as [S _]. rewrite <- Ei, setino_id in S; [done|by rewrite Et].
Qed.

Lemma txn_setino hs i x s : txn hs s -> txn hs (setino i x s).
Proof. intros [T1 T2 T3 T4 T5 T6 T7 T8 T9 T10]. split; try done. by apply (cache_frame dev s). Qed.

Lemma ready_alloc F i s : ready F i s -> can_alloc pid dev F [] s.
Proof.
  intros [T Hi Hd W Hm Hn Hc]. split; [done|by intros ? ?%elem_of_nil|pose proof (wf_sb _ _ _ W); lia| |by intros ? ?%elem_of_nil].
  intros b Hb. split; [by apply Hm|apply not_elem_of_nil].
Qed.

(** The file stays ready across a step that keeps the state but for what a
    write may change. *)
Lemma ready_next F i s s' : ready F i s -> stays i s s' -> txn [] s' -> wfile (view s') (k_sb s) (ino s' i) ->
  i_dev (ino s' i) = i_dev (ino s i) -> i_inum (ino s' i) = i_inum (ino s i) ->
  (ind (ino s' i) <> 0 -> ind (ino s' i) = ind (ino s i) \/ ind (ino s' i) ∈ pinned s') -> ready F i s'.
Proof.
  intros [T Hi Hd W Hm Hn Hc] S T' W' Ed En Hc'. pose proof (stays_sb _ _ _ S) as Es. split; rewrite ?Es, ?Ed, ?En; try done.
  - rewrite (st_frame _ _ _ S). cbn [k_itable set_k_itable]. by rewrite length_insert.
  - intros N. destruct (Hc' N) as [E|]; [|by right]. rewrite E in *. destruct (Hc N) as [|Hp]; [by left|right]. by apply (st_pins _ _ _ S).
Qed.

(** A step that changes no block. *)
Lemma grow_none F i s s' : ready F i s -> moved_to [] s s' (view s) [] ->
  ready F i s' /\ stays i s s' /\ ino s' i = ino s i /\ forall off, wrote off [] (view s) (view s') (k_sb s) (ino s i) (ino s' i).
Proof.
  intros R M. destruct (moved_ino i _ _ _ _ _ M) as [_ E]. destruct (wfile_same (view s) (view s') (k_sb s) (ino s i) (rd_file _ _ _ R)) as (W & Ea & Ef); [|intros; apply M..|].
  { intros bn. rewrite (mt_view _ _ _ _ _ _ _ M). apply (rd_file _ _ _ R). }
  assert (stays i s s') as S.
  { apply (stays_moved i s s' _ _ (rd_idx _ _ _ R) M). intros x P. split; [apply not_elem_of_nil|]. split; [done|]. by apply (same_apart (view s)). }
  split; [|split; [done|split; [done|intros off; rewrite E; by apply wrote_nothing, M]]].
  apply (ready_next F i s); rewrite ?E; try done; [apply M|by left].
Qed.

(** A step that gives the file a block. *)
Lemma grow_one F i s s1 T ip' v b : ready F i s -> moved_to [] s s1 v T -> adds (view s) v (k_sb s) (ino s i) ip' b ->
  (forall x, x ∈ T -> x = b \/ x = BBLOCK b (k_sb s) \/ x = ind (ino s i) /\ ind (ino s i) <> 0) ->
  (ind ip' <> 0 -> ind ip' = ind (ino s i) \/ ind ip' ∈ pinned s1) ->
  let s' := setino i ip' s1 in
  ready F i s' /\ stays i s s' /\ ino s' i = ip' /\ forall off, wrote off [] (view s) (view s') (k_sb s) (ino s i) ip'.
Proof.
  intros R M A HT Hc s'. pose proof (rd_file _ _ _ R) as W.
  assert (adds (view s) (view s1) (k_sb s) (ino s i) ip' b) as A' by (apply (adds_ext _ v); [done|apply M]).
  destruct (stays_step i s s1 v T ip' (rd_idx _ _ _ R) M) as [S E].
  { intros x P. destruct (adds_apart _ _ _ _ _ _ x W A' P) as (N1 & N2 & N3 & E & P'). split; [|split; [by rewrite <- (mt_view _ _ _ _ _ _ _ M)|done]].
    intros HinT. destruct (HT x HinT) as [?|[?|[? ?]]]; tauto. }
  split; [|split; [done|split; [done|intros off; by apply (adds_wrote off _ _ _ _ _ b)]]].
  apply (ready_next F i s); unfold s'; rewrite ?E; try done; [apply txn_setino, M|by apply (adds_wfile (view s) _ _ (ino s i) _ b)|by rewrite (ad_inode _ _ _ _ _ _ A')..].
Qed.

(** No block is free. *)
Definition full (v : Z -> list Z) (sb : superblock) : Prop := forall y, 0 <= y < sb_size sb -> is_free v sb y = false.

(** The file has grown by no bytes and is ready again. *)
Definition grown (F : gset Z) (i : nat) (s s' : kstate) : Prop :=
  ready F i s' /\ stays i s s' /\ forall off, wrote off [] (view s) (view s') (k_sb s) (ino s i) (ino s' i).

(** balloc() for the file: it gets the block, or there is none. *)
Lemma grow_alloc F i k s : ready F i s -> budget F (S k) s ->
  exists b s1, does [] (balloc fuel (i_dev (ino s i))) s b [] s1 /\
  (b <> 0 /\ 0 <= b < sb_size (k_sb s) /\ is_free (view s) (k_sb s) b = true /\ moved_to [] s s1 (with_alloc (view s) (k_sb s) b) [BBLOCK b (k_sb s); b] /\
     b ∈ pinned s1 /\ budget F k s1 \/
   b = 0 /\ full (view s1) (k_sb s) /\ moved_to [] s s1 (view s) [] /\ budget F k s1).
Proof.
  intros R B. rewrite (rd_dev _ _ _ R). destruct (balloc_spec me pid dev fuel F k [] s (ready_alloc _ _ _ R) B) as (b & s1 & D1 & [(R1 & Fb & _ & M & Hp & B1)|(E & Fu & M & B1)]);
    exists b, s1; (split; [exact D1|]); [left|right].
  - split; [|done]. intros ->. pose proof (wf_zero _ _ _ (rd_file _ _ _ R)). congruence.
  - split; [done|]. split; [|done]. intros y Hy. unfold is_free. rewrite (mt_view _ _ _ _ _ _ _ M). by apply Fu.
Qed.

(** What bmap() returns: the address of the block, which is then in the log or
    in the budget, or 0 when the disk is full. *)
Definition mapped (F : gset Z) (i : nat) (f : Z) (k : nat) (s : kstate) (a : Z) (s' : kstate) : Prop :=
  grown F i s s' /\
  (a <> 0 /\ a = iaddr (view s') (ino s' i) f /\
     (a ∈ pinned s' /\ budget F (k + slack (ino s' i)) s' \/ budget F (S (k + slack (ino s' i))) s') \/
   a = 0 /\ full (view s') (k_sb s) /\ budget F (k + slack (ino s' i)) s').

Lemma bmap_direct F i f k s : ready F i s -> budget F (S (k + slack (ino s i))) s -> 0 <= f < NDIRECT ->
  exists a s', does [] (bmap fuel i f) s a [] s' /\ mapped F i f k s a s'.
Proof.
  intros R B Hf. pose proof (rd_file _ _ _ R) as W. unfold bmap.
  destruct (Z.eqb_spec (znth 0 (i_addrs (ino s i)) f) 0) as [E0|N0].
  - destruct (grow_alloc F i _ s R B) as (b & s1 & D1 & [(N & Hb & Fb & M & Hp & B1)|(-> & Fu & M & B1)]).
    + assert (ino s1 i = ino s i) as Ei by (unfold ino; by rewrite (mt_frame _ _ _ _ _ _ _ M)).
      set (ip' := set_i_addrs (zupd (i_addrs (ino s i)) f b) (ino s i)). assert (ind ip' = ind (ino s i)) as Ed.
      { unfold ind, ip'. rewrite set_addr_direct; [|apply W|unfold NDIRECT in *; lia|unfold NDIRECT; lia]. destruct (Z.eqb_spec NDIRECT f); [lia|done]. }
      destruct (grow_one F i s s1 _ ip' _ b R M) as (R' & S' & E' & W'); [by apply adds_direct| |by left|].
      { intros x [->|[->|[]%elem_of_nil]%elem_of_cons]%elem_of_cons; auto. }
      exists b, (setino i ip' s1). split.
      * eapply does_bind; [apply does_getino|]. destruct (Z.ltb_spec f NDIRECT); [|lia]. cbv zeta. rewrite E0. cbn [Z.eqb]. eapply does_bind; [exact D1|].
        destruct (Z.eqb_spec b 0); [done|]. eapply does_bind; [apply does_updino|]. rewrite Ei. apply does_ret.
      * split; [split; [done|split; [done|by rewrite E']]|]. rewrite E'. left. split; [done|]. split; [|left; split; [done|unfold slack; by rewrite Ed]].
        unfold iaddr. destruct (Z.ltb_spec f NDIRECT); [|lia]. unfold ip'. rewrite set_addr_direct, Z.eqb_refl; [done|apply W|unfold NDIRECT in *; lia|lia].
    + destruct (grow_none F i s s1 R M) as (R' & S' & E' & W'). exists 0, s1. split; [|split; [done|right; by rewrite E']].
      eapply does_bind; [apply does_getino|]. destruct (Z.ltb_spec f NDIRECT); [|lia]. cbv zeta. rewrite E0. cbn [Z.eqb]. eapply does_bind; [exact D1|]. apply does_ret.
  - exists (znth 0 (i_addrs (ino s i)) f), s. split.
    + eapply does_bind; [apply does_getino|]. destruct (Z.ltb_spec f NDIRECT); [|lia]. cbv zeta. destruct (Z.eqb_spec (znth 0 (i_addrs (ino s i)) f) 0); [done|]. apply does_ret.
    + split; [split; [done|]; split; [apply stays_refl, R|intros off; by apply wrote_nothing]|]. left. split; [done|]. split; [|by right].
      unfold iaddr. destruct (Z.ltb_spec f NDIRECT); [done|lia].
Qed.

(** The indirect block, allocated when there is none. *)
Lemma bmap_ind F i k s : ready F i s -> budget F (S k + slack (ino s i)) s ->
  exists a s', does [] (if ind (ino s i) =? 0 then
      addr ← balloc fuel (i_dev (ino s i));
      kwhen (negb (addr =? 0)) (updino i (fun ip => set_i_addrs (zupd ip.(i_addrs) NDIRECT addr) ip)) ;; mret addr
    else mret (ind (ino s i))) s a [] s' /\ grown F i s s' /\ ind (ino s' i) = a /\ budget F (S k) s' /\ (a = 0 -> full (view s') (k_sb s)).
Proof.
  intros R B. pose proof (rd_file _ _ _ R) as W. unfold slack in B. destruct (Z.eqb_spec (ind (ino s i)) 0) as [E0|N0].
  - replace (S k + 1)%nat with (S (S k)) in B by lia. destruct (grow_alloc F i _ s R B) as (b & s1 & D1 & [(N & Hb & Fb & M & Hp & B1)|(-> & Fu & M & B1)]).
    + assert (ino s1 i = ino s i) as Ei by (unfold ino; by rewrite (mt_frame _ _ _ _ _ _ _ M)).
      set (ip' := set_i_addrs (zupd (i_addrs (ino s i)) NDIRECT b) (ino s i)). assert (ind ip' = b) as Ed.
      { unfold ind, ip'. rewrite set_addr_direct; [by rewrite Z.eqb_refl|apply W|done|done]. }
      destruct (grow_one F i s s1 _ ip' _ b R M) as (R' & S' & E' & W'); [by apply adds_ind| |rewrite Ed; by right|].
      { intros x [->|[->|[]%elem_of_nil]%elem_of_cons]%elem_of_cons; auto. }
      exists b, (setino i ip' s1). split; [|split; [split; [done|split; [done|by rewrite E']]|rewrite E'; done]].
      eapply does_bind; [exact D1|]. destruct (Z.eqb_spec b 0); [done|]. cbn [negb kwhen]. eapply does_bind; [apply does_updino|]. rewrite Ei. apply does_ret.
    + destruct (grow_none F i s s1 R M) as (R' & S' & E' & W'). exists 0, s1. split; [|split; [done|rewrite E'; done]].
      eapply does_bind; [exact D1|]. eapply does_bind; [apply does_ret|]. apply does_ret.
  - exists (ind (ino s i)), s. split; [apply does_ret|]. split; [|split; [done|split; [|done]]].
    + split; [done|]. split; [apply stays_refl, R|intros off; by apply wrote_nothing].
    + by rewrite Nat.add_0_r in B.
Qed.

(** A block is read, something is done while it is held, and it is given back. *)
Lemma held_moved bn b s s1 s2 v T : s1 = set_k_bufs (k_bufs s1) s -> moved_to [bn] s1 s2 v T -> buf_of dev bn b s2 ->
  exists s3, does [] (brelse b) s2 tt [] s3 /\ moved_to [] s s3 v T /\ pinned s3 = pinned s2.
Proof.
  intros E1 M Hb. destruct (txn_release me pid dev [] s2 bn b (mt_txn _ _ _ _ _ _ _ M) (not_elem_of_nil _) Hb) as (s3 & D3 & T3 & E3 & V3 & _).
  assert (pinned s3 = pinned s2) as P3 by (unfold pinned; by rewrite E3). assert (pinned s1 = pinned s) as P1 by (unfold pinned; by rewrite E1).
  exists s3. split; [exact D3|]. split; [|done]. split; [done| | | |by intros ? ? ?%elem_of_nil| |].
  - intros bn'. rewrite V3. apply M.
  - rewrite E3 at 1. rewrite (mt_frame _ _ _ _ _ _ _ M) at 1. rewrite E1. rewrite E3. done.
  - assert (k_log s3 = k_log s2) as -> by (by rewrite E3). assert (k_log s = k_log s1) as -> by (by rewrite E1). apply M.
  - intros x. rewrite P3, <- P1. apply M.
  - intros x. rewrite P3, <- P1. apply M.
Qed.

(** log_write() on a block that is held. *)
Lemma held_log bn b s d : txn [bn] s -> buf_of dev bn b s -> 0 <= bn < 2 ^ 32 -> lh_n (k_log s) < LOGBLOCKS ->
  exists s2, does [] (log_write b) (setbuf b (set_b_data d (bf s b)) s) tt [] s2 /\ moved_to [bn] s s2 (upd (view s) bn d) [bn] /\ buf_of dev bn b s2.
Proof.
  intros T Hb Hr Hn. destruct (txn_log me pid dev [bn] s bn b d T (list_elem_of_here _ _) Hb Hr Hn) as (s2 & D2 & T2 & V2 & K2 & E2 & Lg & Sl).
  exists s2. split; [exact D2|]. split; [|by apply K2]. split; try done.
  - rewrite E2. by destruct s.
  - intros h b' _. apply K2.
  - intros x Hx. destruct Lg as [[E _]|[E _]]; rewrite E in Hx; [by left|]. by apply elem_of_app in Hx.
  - intros x Hx. destruct Lg as [[E _]|[E _]]; rewrite E; [done|]. apply elem_of_app. by left.
Qed.

(** A block is allocated while the indirect block is held, and entered there. *)
Lemma hold_alloc F i f k s : ready F i s -> budget F (S k) s -> NDIRECT <= f < MAXFILE -> ind (ino s i) <> 0 -> iaddr (view s) (ino s i) f = 0 ->
  exists bp s1 a s2 s3, does [] (bread fuel dev (ind (ino s i))) s bp [] s1 /\ b_data (bf s1 bp) = view s (ind (ino s i)) /\
    does [] (addr ← balloc fuel dev;
              kwhen (negb (addr =? 0))
                (updbuf bp (fun x => set_b_data (put_word x.(b_data) (4 * (f - NDIRECT)) addr) x) ;;
                 log_write bp) ;;
              mret addr) s1 a [] s2 /\ does [] (brelse bp) s2 tt [] s3 /\ mapped F i f k s a s3.
Proof.
  intros R B Hf N0 E0. pose proof (rd_file _ _ _ R) as W. pose proof (rd_txn _ _ _ R) as T. set (ip := ino s i) in *. set (ib := ind ip) in *.
  destruct (wf_own _ _ _ W ib (owns_ind _ _ N0)) as (Rb & Ub & _ & Mb). pose proof (wf_sb _ _ _ W) as Hs. set (sb := k_sb s) in *.
  assert (room [] s) as Hr by (eapply budget_room; [exact B|by intros ? ?%elem_of_nil]).
  assert (slack ip = 0%nat) as Sl by (unfold slack; fold ib; by destruct (Z.eqb_spec ib 0)).
  destruct (txn_read me pid dev fuel [] s ib T (not_elem_of_nil _) (or_intror Hr)) as (bp & s1 & D1 & T1 & E1 & V1 & Hb & Ed & _).
  assert (pinned s1 = pinned s /\ k_sb s1 = sb) as [P1 Es1] by (unfold pinned; by rewrite E1).
  assert (budget F (S k) s1) as B1 by (unfold budget; by rewrite P1). pose proof (rd_ind _ _ _ R N0) as Hi. fold ip ib in Hi.
  assert (can_alloc pid dev F [ib] s1) as C.
  { split; rewrite ?Es1; [done|intros h ->%list_elem_of_singleton; by rewrite P1|lia| |].
    - intros b Hbr. split; [by apply (rd_map _ _ _ R)|]. intros E%list_elem_of_singleton. by apply (Mb b).
    - intros h ->%list_elem_of_singleton _. unfold is_free. by rewrite V1. }
  destruct (balloc_spec me pid dev fuel F k [ib] s1 C B1) as (b & s2 & D2 & H2). rewrite Es1 in H2.
  destruct H2 as [(Rg & Fb & _ & M2 & Hp2 & B2)|(-> & Fu & M2 & B2)].
  - assert (is_free (view s) sb b = true) as Fb' by (unfold is_free in *; by rewrite <- V1). assert (b <> 0) as Nb by (intros ->; pose proof (wf_zero _ _ _ W); congruence).
    pose proof (mt_bufs _ _ _ _ _ _ _ M2 ib bp (list_elem_of_here _ _) Hb) as Hb2. destruct (alloc_own _ _ _ b ib W Rg Fb' (owns_ind _ _ N0)) as (_ & _ & Ea).
    assert (forall bn, with_alloc (view s1) sb b bn = with_alloc (view s) sb b bn) as Ewa by (intros bn; unfold with_alloc, upd; by rewrite !V1).
    assert (b_data (bf s2 bp) = view s ib) as Ed2.
    { rewrite <- (view_hit dev s2 bp ib (tn_ok _ _ _ _ (mt_txn _ _ _ _ _ _ _ M2)) (proj1 Hb2) (proj2 Hb2)), (mt_view _ _ _ _ _ _ _ M2), Ewa. done. }
    set (d := put_word (view s ib) (4 * (f - NDIRECT)) b).
    destruct (held_log ib bp s2 d (mt_txn _ _ _ _ _ _ _ M2) Hb2 ltac:(lia) (budget_log _ _ _ _ _ _ (mt_txn _ _ _ _ _ _ _ M2) B2)) as (s3 & D3 & M3 & Hb3).
    assert (budget F k s3) as B3.
    { apply (budget_in F k s2 s3 [ib] B2 (mt_pins _ _ _ _ _ _ _ M3)). intros x ->%list_elem_of_singleton. destruct Hi as [|Hi]; [by left|right]. apply M2. by rewrite P1. }
    destruct (held_moved ib bp s s1 s3 _ _ E1 (moved_seq _ _ _ _ _ _ _ _ _ _ M2 M3) Hb3) as (s4 & D4 & M4 & P4).
    assert (setino i (ino s4 i) s4 = s4 /\ ino s4 i = ip) as [Eid E4].
    { destruct (moved_ino i _ _ _ _ _ M4) as [Et Ei]. split; [apply setino_id; rewrite Et; apply R|done]. }
    destruct (grow_one F i s s4 _ ip _ b R M4) as (R' & S' & E' & W').
    { apply (adds_ext _ _ _ _ _ _ _ (adds_indirect (view s) sb ip b f W Rg Fb' Hf N0 E0)). intros bn. fold ib. unfold upd. destruct (bn =? ib); [done|]. by rewrite (mt_view _ _ _ _ _ _ _ M2), Ewa. }
    { intros x [Hx|Hx]%elem_of_app; [|apply list_elem_of_singleton in Hx; auto]. apply elem_of_cons in Hx as [->|Hx%list_elem_of_singleton]; auto. }
    { by left. }
    rewrite <- E4, Eid in R', S', E', W'.
    exists bp, s1, b, s3, s4. split; [exact D1|]. split; [done|]. split.
    { eapply does_bind; [exact D2|]. destruct (Z.eqb_spec b 0); [done|]. cbn [negb kwhen]. eapply does_bind; [eapply does_bind; [apply does_updbuf|]; cbv beta; rewrite Ed2; exact D3|]. apply does_ret. }
    split; [exact D4|]. split; [done|]. left. split; [done|]. rewrite E4, Sl, Nat.add_0_r. split; [|left; rewrite P4; split; [by apply M3|unfold budget; by rewrite P4]].
    unfold iaddr. fold (ind ip). fold ib. destruct (Z.ltb_spec f NDIRECT); [lia|]. destruct (Z.eqb_spec ib 0); [done|]. rewrite (mt_view _ _ _ _ _ _ _ M4). unfold upd. rewrite Z.eqb_refl. unfold d.
    rewrite get_put_word_eq, u32_small; [done|lia|]. rewrite (wf_len _ _ _ W). change MAXFILE with 268 in Hf. unfold NDIRECT in *. lia.
  - pose proof (mt_bufs _ _ _ _ _ _ _ M2 ib bp (list_elem_of_here _ _) Hb) as Hb2. destruct (held_moved ib bp s s1 s2 _ _ E1 M2 Hb2) as (s3 & D3 & M3 & P3).
    destruct (grow_none F i s s3 R) as (R' & S' & E' & W'); [by eapply moved_view|]. exists bp, s1, 0, s2, s3. split; [exact D1|]. split; [done|].
    split; [eapply does_bind; [exact D2|]; eapply does_bind; [apply does_ret|]; apply does_ret|]. split; [exact D3|]. split; [done|]. right. split; [done|].
    rewrite E'. fold ip. rewrite Sl, Nat.add_0_r. split; [|unfold budget; by rewrite P3]. intros y Hy. specialize (Fu y Hy). unfold is_free in *. by rewrite (mt_view _ _ _ _ _ _ _ M3).
Qed.

(** The address at an index of the indirect block, allocated when there is none. *)
Lemma bmap_use F i f k s : ready F i s -> budget F (S k) s -> NDIRECT <= f < MAXFILE -> ind (ino s i) <> 0 ->
  exists a s', does [] (bp ← bread fuel (i_dev (ino s i)) (ind (ino s i));
    x ← getbuf bp;
    let addr := get_word x.(b_data) (4 * (f - NDIRECT)) in
    addr ← (if addr =? 0 then
              addr ← balloc fuel (i_dev (ino s i));
              kwhen (negb (addr =? 0))
                (updbuf bp (fun x => set_b_data (put_word x.(b_data) (4 * (f - NDIRECT)) addr) x) ;;
                 log_write bp) ;;
              mret addr
            else mret addr);
    brelse bp ;;
    mret addr) s a [] s' /\ mapped F i f k s a s'.
Proof.
  intros R B Hf N0. rewrite (rd_dev _ _ _ R). pose proof (rd_txn _ _ _ R) as T. set (ip := ino s i) in *. set (ib := ind ip) in *.
  assert (room [] s) as Hr by (eapply budget_room; [exact B|by intros ? ?%elem_of_nil]).
  assert (get_word (view s ib) (4 * (f - NDIRECT)) = iaddr (view s) ip f) as Ew.
  { unfold iaddr. fold (ind ip). fold ib. destruct (Z.ltb_spec f NDIRECT); [lia|]. by destruct (Z.eqb_spec ib 0). }
  assert (slack ip = 0%nat) as Sl by (unfold slack; fold ib; by destruct (Z.eqb_spec ib 0)).
  destruct (Z.eqb_spec (iaddr (view s) ip f) 0) as [E0|Na].
  - destruct (hold_alloc F i f k s R B Hf N0 E0) as (bp & s1 & a & s2 & s3 & D1 & E1 & D2 & D3 & M). exists a, s3. split; [|done].
    eapply does_bind; [exact D1|]. eapply does_bind; [apply does_getbuf|]. cbv zeta. rewrite E1. fold ip ib. rewrite Ew, E0. cbn [Z.eqb].
    eapply does_bind; [exact D2|]. eapply does_bind; [exact D3|]. apply does_ret.
  - destruct (txn_look me pid dev fuel [] s ib T (not_elem_of_nil _) (or_intror Hr)) as (b & s1 & s2 & D1 & E1 & _ & D2 & M).
    destruct (grow_none F i s s2 R M) as (R' & S' & E' & W'). exists (iaddr (view s) ip f), s2. split.
    + eapply does_bind; [exact D1|]. eapply does_bind; [apply does_getbuf|]. cbv zeta. rewrite E1, Ew. destruct (Z.eqb_spec (iaddr (view s) ip f) 0); [done|].
      eapply does_bind; [apply does_ret|]. eapply does_bind; [exact D2|]. apply does_ret.
    + split; [done|]. left. split; [done|]. rewrite E'. fold ip. rewrite Sl, Nat.add_0_r. split; [|right; by eapply budget_same].
      unfold iaddr. by rewrite (mt_view _ _ _ _ _ _ _ M).
Qed.

(** bmap() finds or adds the block at an index. *)
Lemma bmap_spec F i f k s : ready F i s -> budget F (S (k + slack (ino s i))) s -> 0 <= f < MAXFILE ->
  exists a s', does [] (bmap fuel i f) s a [] s' /\ mapped F i f k s a s'.
Proof.
  intros R B Hf. destruct (Z.ltb_spec f NDIRECT) as [Hd|Hd]; [apply bmap_direct; [done|done|lia]|]. rewrite MAXFILE_split in Hf.
  assert (S k + slack (ino s i) = S (k + slack (ino s i)))%nat as Ek by lia. rewrite <- Ek in B.
  destruct (bmap_ind F i k s R B) as (a & s1 & D1 & (R1 & S1 & W1) & Ei & B1 & Fu).
  destruct (Z.eqb_spec a 0) as [Ea|Na].
  - exists 0, s1. split.
    + unfold bmap. eapply does_bind; [apply does_getino|]. destruct (Z.ltb_spec f NDIRECT); [lia|]. cbv zeta. destruct (Z.ltb_spec (f - NDIRECT) NINDIRECT); [|lia].
      fold (ind (ino s i)). eapply does_bind; [exact D1|]. rewrite Ea. apply does_ret.
    + split; [done|]. right. split; [done|]. split; [auto|]. unfold slack. rewrite Ei, Ea. cbn [Z.eqb]. replace (k + 1)%nat with (S k) by lia. done.
  - subst a. destruct (bmap_use F i f k s1 R1 B1 ltac:(rewrite MAXFILE_split; lia) Na) as (c & s2 & D2 & (R2 & S2 & W2) & H2).
    assert (i_dev (ino s1 i) = i_dev (ino s i)) as Ed by (by rewrite (rd_dev _ _ _ R1), (rd_dev _ _ _ R)).
    rewrite (stays_sb _ _ _ S1) in W2, H2. exists c, s2. split.
    + unfold bmap. eapply does_bind; [apply does_getino|]. destruct (Z.ltb_spec f NDIRECT); [lia|]. cbv zeta. destruct (Z.ltb_spec (f - NDIRECT) NINDIRECT); [|lia].
      fold (ind (ino s i)). eapply does_bind; [exact D1|]. destruct (Z.eqb_spec (ind (ino s1 i)) 0); [done|]. rewrite <- Ed. exact D2.
    + split; [|exact H2]. split; [done|]. split; [by eapply stays_then|]. intros off. pose proof (rd_file _ _ _ R1) as F1. pose proof (rd_file _ _ _ R2) as F2.
      rewrite (stays_sb _ _ _ S1) in F1. rewrite (stays_sb _ _ _ S2), (stays_sb _ _ _ S1) in F2. apply (wrote_seq off [] [] _ _ _ _ _ _ _ F1 F2 (W1 off)); [|by left].
      apply W2.
Qed.

(** ** writei() *)

Lemma does_copy_from src tot m s : does [] (copy_from (Local src) tot m) s (take m (drop (Z.to_nat tot) src), true) [] s.
Proof. unfold copy_from. eapply does_bind; [apply does_myproc|apply does_ret]. Qed.

(** Bytes go into a block that bmap() returned. *)
Lemma writei_put F i k s off bs : ready F i s -> 0 <= off < 1024 * MAXFILE -> (Z.to_nat (off mod 1024) + length bs <= 1024)%nat ->
  let a := iaddr (view s) (ino s i) (off / 1024) in
  a <> 0 -> (a ∈ pinned s /\ budget F (k + slack (ino s i)) s \/ budget F (S (k + slack (ino s i))) s) ->
  exists bp s1 s2 s3, does [] (bread fuel dev a) s bp [] s1 /\ s1 = set_k_bufs (k_bufs s1) s /\
    does [] (log_write bp) (setbuf bp (set_b_data (put_bytes (b_data (bf s1 bp)) (off mod 1024) bs) (bf s1 bp)) s1) tt [] s2 /\
    does [] (brelse bp) s2 tt [] s3 /\ ready F i s3 /\ stays i s s3 /\ ino s3 i = ino s i /\
    wrote off bs (view s) (view s3) (k_sb s) (ino s i) (ino s3 i) /\ budget F (k + slack (ino s i)) s3.
Proof.
  intros R Ho Hb a Na Hbud. pose proof (rd_file _ _ _ R) as W. assert (0 <= off / 1024 < MAXFILE) as Hf by (split; [apply Z.div_pos|apply Z.div_lt_upper_bound]; lia).
  destruct (wf_own _ _ _ W a (owns_addr _ _ _ Hf Na)) as (Ra & _). pose proof (wf_sb _ _ _ W) as Hs. pose proof (Z.mod_pos_bound off 1024 ltac:(lia)).
  assert (exists j, budget F j s) as [j Bj] by (destruct Hbud as [[_ ?]|?]; eauto).
  destruct (txn_update me pid dev fuel [] s a (rd_txn _ _ _ R) (not_elem_of_nil _)) as (bp & s1 & D1 & E1 & B1 & K).
  { right. eapply budget_room; [exact Bj|by intros ? ?%elem_of_nil]. } { lia. } { eapply budget_log; [apply R|exact Bj]. }
  destruct (K (put_bytes (b_data (bf s1 bp)) (off mod 1024) bs)) as (s2 & s3 & D2 & D3 & M & Hp). rewrite E1 in M.
  exists bp, s1, s2, s3. split; [exact D1|]. split; [done|]. split; [exact D2|]. split; [exact D3|].
  destruct (moved_ino i _ _ _ _ _ M) as [_ Ei].
  destruct (data_wrote (view s) (k_sb s) (ino s i) (off / 1024) (off mod 1024) bs W Hf Na ltac:(lia) Hb) as [W' Wr].
  replace (1024 * (off / 1024) + off mod 1024) with off in Wr by (pose proof (Z.div_mod off 1024); lia). fold a in W', Wr.
  pose proof (mt_view _ _ _ _ _ _ _ M) as V. set (v' := upd (view s) a _) in *. rewrite Ei.
  assert (wfile (view s3) (k_sb s) (ino s i)) as W3.
  { apply (wfile_same v'); [done| |intros; apply V..]. intros bn. rewrite V. apply W'. }
  assert (stays i s s3) as S.
  { apply (stays_moved i s s3 _ _ (rd_idx _ _ _ R) M). intros x P. destruct (wrote_apart _ _ _ _ _ _ _ x W' Wr P) as [E P']. pose proof P as (_ & No & _).
    split; [intros ->%list_elem_of_singleton; by apply No, owns_addr|]. split; [done|]. apply (same_apart v'); [intros f; unfold iaddr; by rewrite V|intros y _; unfold is_free; by rewrite V|done]. }
  split; [|split; [done|split; [done|split]]].
  - apply (ready_next F i s); rewrite ?Ei; try done; [apply M|by left].
  - assert (wrote (off + Z.of_nat (length bs)) [] v' (view s3) (k_sb s) (ino s i) (ino s i)) as W0 by (by apply wrote_nothing).
    rewrite <- (app_nil_r bs). apply (wrote_seq off bs [] _ v' _ _ _ (ino s i)); try done. right. rewrite (length_contents _ _ _ W). split; [lia|].
    pose proof (Z.div_mod off 1024 ltac:(lia)). lia.
  - destruct Hbud as [[Hp0 Bk]|Bk].
    + apply (budget_in F _ s s3 [a] Bk (mt_pins _ _ _ _ _ _ _ M)). intros x ->%list_elem_of_singleton. by right.
    + apply (budget_one F _ s s3 [a] a Bk (mt_pins _ _ _ _ _ _ _ M)). intros x ->%list_elem_of_singleton. by left.
Qed.

(** The bytes of [src] from [tot] to [t] are in the file, and all up to [n]
    unless the disk is full. *)
Definition written (F : gset Z) (i : nat) (src : list Z) (off n tot : Z) (s : kstate) (t : Z) (s' : kstate) : Prop :=
  ready F i s' /\ stays i s s' /\ budget F 0 s' /\ tot <= t <= Z.max tot n /\ (t < n -> full (view s') (k_sb s) /\ (t = tot \/ (off + (t - tot)) mod 1024 = 0)) /\
  wrote off (take (Z.to_nat (t - tot)) (drop (Z.to_nat tot) src)) (view s) (view s') (k_sb s) (ino s i) (ino s' i) /\ covered (view s') (ino s' i) (off + (t - tot)).

Lemma written_none F i src off n tot s s' k : grown F i s s' -> budget F k s' -> (tot < n -> full (view s') (k_sb s)) -> 0 <= off <= 1024 * MAXFILE ->
  covered (view s) (ino s i) off -> written F i src off n tot s tot s'.
Proof.
  intros (R & S & W) B Fu Ho C. unfold written. rewrite Z.sub_diag, Z.add_0_r. split; [done|]. split; [done|]. split; [unfold budget in *; lia|]. split; [lia|]. split; [auto|].
  split; [apply W|]. intros f Hf. pose proof (nblk_spec off ltac:(lia)). specialize (C f Hf). rewrite (wr_addr _ _ _ _ _ _ _ (W 0)); [done|lia|done].
Qed.

(** One block, then the rest. *)
Lemma written_more F i src off n tot c s s1 s4 t s' : 0 <= off -> 0 <= tot -> 0 < c <= n - tot -> c = n - tot \/ (off + c) mod 1024 = 0 -> n <= Z.of_nat (length src) -> off + c <= 1024 * MAXFILE -> ready F i s ->
  grown F i s s1 -> ready F i s4 -> stays i s1 s4 ->
  wrote off (take (Z.to_nat c) (drop (Z.to_nat tot) src)) (view s1) (view s4) (k_sb s1) (ino s1 i) (ino s4 i) -> written F i src (off + c) n (tot + c) s4 t s' ->
  written F i src off n tot s t s'.
Proof.
  intros Ho Ht Hc Hb Hl Hx R (R1 & S1 & W1) R4 S4 W4 (R5 & S5 & B5 & Rt & Fu & W5 & C5). set (bs := take (Z.to_nat c) (drop (Z.to_nat tot) src)) in *.
  assert (length bs = Z.to_nat c) as Lb by (unfold bs; rewrite length_take, length_drop; lia). replace (off + c + (t - (tot + c))) with (off + (t - tot)) in C5 by lia.
  pose proof (rd_file _ _ _ R1) as F1. pose proof (rd_file _ _ _ R4) as F4. pose proof (rd_file _ _ _ R5) as F5. assert (k_sb s4 = k_sb s) as Es by (by rewrite (stays_sb _ _ _ S4), (stays_sb _ _ _ S1)).
  rewrite (stays_sb _ _ _ S5) in F5. rewrite Es in Fu, W5, F4, F5. rewrite (stays_sb _ _ _ S1) in F1, W4.
  assert (wrote off bs (view s) (view s4) (k_sb s) (ino s i) (ino s4 i)) as W14 by (by apply (wrote_seq off [] bs _ (view s1) _ _ _ (ino s1 i)); [| |apply W1|rewrite Z.add_0_r|left]).
  split; [done|]. split; [eapply stays_then; [exact S1|]; by eapply stays_then|]. split; [done|]. split; [lia|]. split; [|split; [|done]].
  { intros Htn. destruct (Fu Htn) as [Ff Fe]. split; [done|]. right. replace (off + c + (t - (tot + c))) with (off + (t - tot)) in Fe by lia.
    destruct Fe as [->|]; [|done]. replace (off + (tot + c - tot)) with (off + c) by lia. destruct Hb; [lia|done]. }
  replace (take (Z.to_nat (t - tot)) (drop (Z.to_nat tot) src)) with (bs ++ take (Z.to_nat (t - (tot + c))) (drop (Z.to_nat (tot + c)) src)).
  - apply (wrote_seq off bs _ _ (view s4) _ _ _ (ino s4 i)); try done; [by rewrite Lb, Z2Nat.id by lia|]. right. rewrite (length_contents _ _ _ (rd_file _ _ _ R)), Lb. lia.
  - unfold bs. replace (Z.to_nat (tot + c)) with (Z.to_nat tot + Z.to_nat c)%nat by lia. rewrite <- drop_drop, <- take_add. f_equal. lia.
Qed.

Lemma writei_loop_spec F i src : forall m k off n tot s, (m <= k)%nat -> ready F i s -> budget F (m + slack (ino s i)) s -> 0 <= off -> 0 <= tot ->
  off + Z.max 0 (n - tot) <= 1024 * MAXFILE -> n <= Z.of_nat (length src) -> (tot < n -> off mod 1024 + (n - tot) <= 1024 * Z.of_nat m) -> covered (view s) (ino s i) off ->
  exists t s', does [] (writei_loop fuel k i (Local src) off n tot) s (t, off + (t - tot)) [] s' /\ written F i src off n tot s t s'.
Proof.
  induction m as [|m IH]; intros k off n tot s Hk R B Ho Ht Hx Hl Hm C; pose proof (Z.mod_pos_bound off 1024 ltac:(lia)) as Rm;
    (destruct (decide (n <= tot)) as [Hn|Hn]; [exists tot, s; split|]; [| |specialize (Hm ltac:(lia))]); try lia.
  1,3: rewrite Z.sub_diag, Z.add_0_r; destruct k; cbn [writei_loop]; (destruct (Z.ltb_spec tot n); [lia|]); apply does_ret.
  1,2: eapply written_none; [|exact B|lia..|done]; (split; [done|]); (split; [apply stays_refl, R|intros; by apply wrote_nothing]).
  destruct k as [|k]; [lia|]. pose proof (Z.div_mod off 1024 ltac:(lia)) as Dm.
  assert (0 <= off / 1024 < MAXFILE) as Hf by (split; [apply Z.div_pos|apply Z.div_lt_upper_bound]; lia).
  destruct (bmap_spec F i (off / 1024) m s R B Hf) as (a & s1 & D1 & G & H1). pose proof G as (R1 & S1 & W1).
  set (c := Z.min (n - tot) (1024 - off mod 1024)). assert (0 < c <= n - tot) as Rc by lia.
  set (bs := take (Z.to_nat c) (drop (Z.to_nat tot) src)). assert (length bs = Z.to_nat c) as Lb by (unfold bs; rewrite length_take, length_drop; lia).
  cbn [writei_loop]. change BSIZE with 1024. destruct (Z.ltb_spec tot n); [|lia]. destruct H1 as [(Na & Ea & H1)|(-> & Fu & B1)].
  - destruct (writei_put F i m s1 off bs R1 ltac:(lia) ltac:(rewrite Lb; lia)) as (bp & s2 & s3 & s4 & D2 & E2 & D3 & D4 & R4 & S4 & E4 & W4 & B4); [by rewrite <- Ea|by rewrite <- Ea|].
    rewrite <- Ea in D2. rewrite <- E4 in B4. destruct (IH k (off + c) n (tot + c) s4) as (t & s' & D5 & H5); try done; try lia.
    { intros Gt. assert (c = 1024 - off mod 1024) as Em by lia. replace (off + c) with ((off / 1024 + 1) * 1024) by lia. rewrite Z.mod_mul by lia. lia. }
    { apply (covered_more (view s1) _ (k_sb s1) (ino s1 i) _ off c bs); try done; try lia; [intros f Hff|].
      - pose proof (nblk_spec off ltac:(lia)). specialize (C f Hff). rewrite (wr_addr _ _ _ _ _ _ _ (W1 0)); [done|lia|done].
      - pose proof (wr_addr _ _ _ _ _ _ _ W4 (off / 1024) Hf) as X. rewrite X; rewrite <- Ea; done. }
    replace (off + c + (t - (tot + c))) with (off + (t - tot)) in D5 by lia. exists t, s'. split; [|apply (written_more F i src off n tot c s s1 s4); try done; try lia].
    2: { destruct (Z.min_spec (n - tot) (1024 - off mod 1024)) as [[_ E]|[_ E]]; fold c in E; [by left|right]. replace (off + c) with ((off / 1024 + 1) * 1024) by lia. by apply Z.mod_mul. }
    eapply does_bind; [exact D1|]. destruct (Z.eqb_spec a 0); [done|]. eapply does_bind; [apply does_getino|]. rewrite (rd_dev _ _ _ R1). eapply does_bind; [exact D2|]. cbv zeta. fold c.
    eapply does_bind; [apply does_copy_from|]. fold bs. eapply does_bind; [apply does_updbuf|]. cbn [negb]. eapply does_bind; [exact D3|]. eapply does_bind; [exact D4|]. exact D5.
  - exists tot, s1. split; [rewrite Z.sub_diag, Z.add_0_r; eapply does_bind; [exact D1|apply does_ret]|]. eapply written_none; [done|exact B1|done|lia|done].
Qed.

(** iupdate() stores the inode. *)
Lemma iupdate_spec F i k s : ready F i s -> budget F k s ->
  let b := IBLOCK (i_inum (ino s i)) (k_sb s) in
  exists s', does [] (iupdate fuel i) s tt [] s' /\ ready F i s' /\ stays i s s' /\ ino s' i = ino s i /\ budget F k s' /\ b ∈ pinned s' /\
    forall bn, view s' bn = upd (view s) b (store_dinode (ino s i) (i_inum (ino s i) mod IPB) (view s b)) bn.
Proof.
  intros R B b. pose proof (rd_file _ _ _ R) as W. destruct (wf_ino _ _ _ W) as [Hb _]. fold b in Hb. pose proof (wf_sb _ _ _ W) as Hs.
  destruct (txn_update me pid dev fuel [] s b (rd_txn _ _ _ R) (not_elem_of_nil _)) as (bp & s1 & D1 & E1 & B1 & K).
  { right. eapply budget_room; [exact B|by intros ? ?%elem_of_nil]. } { lia. } { eapply budget_log; [apply R|exact B]. }
  destruct (K (store_dinode (ino s i) (i_inum (ino s i) mod IPB) (view s b))) as (s2 & s3 & D2 & D3 & M & Hp).
  destruct (moved_ino i _ _ _ _ _ M) as [_ Ei]. assert (ino s1 i = ino s i) as Ei1 by (unfold ino; rewrite B1; done).
  destruct (ino_stored (view s) (view s3) (k_sb s) (ino s i) W) as (W3 & _ & Ef & Ea); [apply M|]. assert (stays i s s3) as S.
  { apply (stays_moved i s s3 _ _ (rd_idx _ _ _ R) M). intros x P. pose proof P as (_ & _ & _ & Nx). fold b in Nx.
    split; [by intros ?%list_elem_of_singleton|]. split; [unfold upd; by destruct (Z.eqb_spec x b)|]. by apply (same_apart (view s)). }
  exists s3. split; [|split; [|split; [done|split; [done|split; [|split; [done|apply M]]]]]].
  - unfold iupdate. eapply does_bind; [apply does_getino|]. eapply does_bind; [unfold getsb; apply does_gets; reflexivity|]. rewrite (rd_dev _ _ _ R). fold b.
    eapply does_bind; [exact D1|]. eapply does_bind; [apply does_getino|]. rewrite Ei1. eapply does_bind; [apply does_updbuf|]. cbv beta. rewrite E1.
    eapply does_bind; [exact D2|exact D3].
  - apply (ready_next F i s); rewrite ?Ei; try done; [apply M|by left].
  - apply (budget_in F k s s3 [b] B (mt_pins _ _ _ _ _ _ _ M)). intros x ->%list_elem_of_singleton. left. apply R.
Qed.

(** The file after writei(). *)
Record wrote_file (i : nat) (src : list Z) (off n : Z) (s : kstate) (t : Z) (s' : kstate) : Prop := {
  wo_count : 0 <= t <= n;
  wo_short : t < n -> full (view s') (k_sb s) /\ (t = 0 \/ (off + t) mod 1024 = 0);
  wo_size : i_size (ino s' i) = Z.max (i_size (ino s i)) (off + t);
  wo_inode : ino s' i = set_i_size (i_size (ino s' i)) (set_i_addrs (i_addrs (ino s' i)) (ino s i));
  wo_data : file_data (view s') (ino s' i) = put_bytes (file_data (view s) (ino s i)) off (take (Z.to_nat t) src);
  wo_disk : let b := IBLOCK (i_inum (ino s i)) (k_sb s) in
    view s' b = store_dinode (ino s' i) (i_inum (ino s i) mod IPB) (view s b);
  wo_used y : 0 <= y < sb_size (k_sb s) -> is_free (view s) (k_sb s) y = false -> is_free (view s') (k_sb s) y = false;
  wo_keep bn : apart (view s) (k_sb s) (ino s i) bn -> view s' bn = view s bn;
}.

(** The size is set when the file has grown. *)
Lemma resized F i s z : ready F i s -> 0 <= z <= 1024 * MAXFILE -> covered (view s) (ino s i) z ->
  let ip' := if i_size (ino s i) <? z then set_i_size z (ino s i) else ino s i in
  ready F i (setino i ip' s) /\ stays i s (setino i ip' s) /\ ino (setino i ip' s) i = ip' /\ i_size ip' = Z.max (i_size (ino s i)) z /\ ip' = set_i_size (i_size ip') (ino s i).
Proof.
  intros R Hz C ip'. assert (ino (setino i ip' s) i = ip') as E by (by rewrite ino_setino, Nat.eqb_refl by apply R).
  assert (i_size ip' = Z.max (i_size (ino s i)) z /\ ip' = set_i_size (i_size ip') (ino s i)) as [Es Ei].
  { unfold ip'. destruct (Z.ltb_spec (i_size (ino s i)) z); split; cbn; done || lia. }
  assert (stays i s (setino i ip' s)) as S.
  { apply (stays_step i s s _ [] ip' (rd_idx _ _ _ R) (moved_same _ _ _ _ (rd_txn _ _ _ R))). intros x P. split; [apply not_elem_of_nil|]. split; [done|]. by rewrite Ei. }
  split; [|done]. apply (ready_next F i s); rewrite ?E; try done; [apply txn_setino, R| |by rewrite Ei..|rewrite Ei; by left].
  unfold ip'. destruct (i_size (ino s i) <? z); [by apply wfile_resize; [apply R| |]|apply R].
Qed.

(** The blocks that [n] bytes at [off] touch. *)
Definition touches (off n : Z) : nat := Z.to_nat (nblk (off mod 1024 + n)).

Lemma writei_spec F i src off n s : ready F i s -> 0 <= off <= i_size (ino s i) -> n = Z.of_nat (length src) -> off + n <= 1024 * MAXFILE ->
  budget F (touches off n + slack (ino s i)) s ->
  exists t s', does [] (writei fuel i (Local src) off n) s t [] s' /\ ready F i s' /\ stays i s s' /\ budget F 0 s' /\ IBLOCK (i_inum (ino s i)) (k_sb s) ∈ pinned s' /\ wrote_file i src off n s t s'.
Proof.
  intros R Ho En Hx B. pose proof (rd_file _ _ _ R) as W. set (ip := ino s i) in *. assert (1024 * MAXFILE = 274432) as EM by done.
  pose proof (Z.mod_pos_bound off 1024 ltac:(lia)) as Rm. pose proof (nblk_spec (off mod 1024 + n) ltac:(lia)) as Rn.
  destruct (writei_loop_spec F i src (touches off n) (Z.to_nat (n / BSIZE) + 2) off n 0 s) as (t & s1 & D1 & R1 & S1 & B1 & Rt & Fu & W1 & C1); try done; try lia.
  { unfold touches. change BSIZE with 1024. pose proof (Z.div_mod n 1024 ltac:(lia)). pose proof (Z.mod_pos_bound n 1024 ltac:(lia)).
    assert (nblk (off mod 1024 + n) < n / 1024 + 3) by lia. assert (0 <= n / 1024) by (apply Z.div_pos; lia). lia. }
  { unfold touches. lia. } { fold ip. apply (wfile_covered _ (k_sb s)); [done|lia]. }
  fold ip in W1. rewrite Z.sub_0_r, drop_0 in *. rewrite Z.max_r in Rt by lia. pose proof (wf_size _ _ _ W) as Hz.
  set (ip' := if i_size (ino s1 i) <? off + t then set_i_size (off + t) (ino s1 i) else ino s1 i). set (s2 := setino i ip' s1).
  destruct (resized F i s1 (off + t) R1 ltac:(lia) C1) as (R2 & S2 & E2 & Es & Eip). fold ip' in R2, E2, Es, Eip. fold s2 in R2, E2.
  destruct (iupdate_spec F i 0 s2 R2 B1) as (s3 & D3 & R3 & S3 & E3 & B3 & P3 & V3). rewrite E2 in E3, V3. pose proof (stays_sb _ _ _ S1) as Eb.
  assert (stays i s s3) as S by (eapply stays_then; [exact S1|]; eapply stays_then; [exact S2|exact S3]).
  assert (k_sb s2 = k_sb s) as Eb2 by exact Eb. rewrite Eb2 in V3.
  exists t, s3. split; [|split; [done|split; [done|split; [done|split]]]].
  - unfold writei. eapply does_bind; [apply does_getino|]. fold ip. destruct (Z.ltb_spec (i_size ip) off); [lia|]. rewrite u32_small by lia.
    destruct (Z.ltb_spec (off + n) off); [lia|]. cbn [orb]. destruct (Z.ltb_spec (MAXFILE * BSIZE) (off + n)) as [G|_]; [change (MAXFILE * BSIZE) with 274432 in G; lia|].
    eapply does_bind; [exact D1|]. cbv beta iota. eapply does_bind; [apply does_updino|]. eapply does_bind; [exact D3|]. rewrite s32_small by lia. apply does_ret.
  - rewrite E2, Eb2, Eip in P3. cbn [i_inum set_i_size] in P3. by rewrite (wr_inode _ _ _ _ _ _ _ W1) in P3.
  - pose proof (rd_file _ _ _ R2) as F2. rewrite E2, Eb2 in F2. pose proof (rd_file _ _ _ R3) as F3. rewrite E3, (stays_sb _ _ _ S) in F3.
    pose proof (wr_inode _ _ _ _ _ _ _ W1) as Wi. assert (i_inum ip' = i_inum ip) as Eu by (rewrite Eip, Wi; done). destruct (ino_stored _ _ _ _ F2 V3) as (_ & Ec & Ef & _).
    rewrite Eu in V3. set (b := IBLOCK (i_inum ip) (k_sb s)) in *. assert (forall bn, bn <> b -> view s3 bn = view s1 bn) as Ek by (intros bn N; rewrite V3; unfold upd; by destruct (Z.eqb_spec bn b)).
    assert (forall y, 0 <= y < sb_size (k_sb s) -> is_free (view s3) (k_sb s) y = is_free (view s1) (k_sb s) y) as Ef' by exact Ef.
    assert (i_size ip' = Z.max (i_size ip) (off + t)) as Es' by (rewrite Es; f_equal; by rewrite Wi).
    split; rewrite ?E3; fold ip; try done.
    + intros Ht. destruct (Fu Ht) as [Fy Fe]. split; [|done]. intros y Hy. rewrite Ef' by done. by apply Fy.
    + rewrite Eip, Wi. done.
    + rewrite (file_contents _ _ _ F3), (file_contents _ _ _ W), Ec, Es'. change (contents (view s2) ip') with (contents (view s1) ip').
      replace (contents (view s1) ip') with (contents (view s1) (ino s1 i)) by (rewrite Eip; done). rewrite (wr_data _ _ _ _ _ _ _ W1).
      apply take_put; rewrite ?(length_contents _ _ _ W), ?length_take; lia.
    + cbv zeta. fold b. rewrite V3. unfold upd. rewrite Z.eqb_refl. f_equal. change (view s1 b = view s b). destruct (wf_ino _ _ _ W) as [Hb Ub]. fold ip b in Hb, Ub.
      apply (wr_keep _ _ _ _ _ _ _ W1); [done| |intros c Hc E; by apply (wf_inomap _ _ _ W c Hc)]. intros Hown. by apply (wf_own _ _ _ W b Hown).
    + intros y Hy Hu. rewrite Ef' by done. by apply (wr_used _ _ _ _ _ _ _ W1).
    + intros bn P. by apply (st_rest _ _ _ S).
Qed.
End FsWrite.
