(* ===== verification/FsCrash.v ===== *)
(** * A file written in a transaction, and crashes (kernel/fs.c with kernel/log.c)

    The layers together: begin_op(), writei(), end_op() on an idle file system,
    a crash after any of the disk writes, and the recovery of the next boot.
    [file_on v] is a file as a kernel that has just booted finds it on a disk
    with the contents [v], through the inode of the disk. *)

From S2P Require Import Prelude Riscv Memory Mkfs MkfsSpec KState KMonad Spinlock Kalloc Vm Proc ProcSpec SleepSpec Seq.
From S2P Require Import Printf PrintSpec Sleeplock Bio BioSpec Log BlockSpec LogSpec Crash Fs FsView FsSpec LogWrite Balloc FileShape FsWrite.

(** ** The inode on the disk *)

Definition file_on (v : Z -> list Z) (sb : superblock) (inum : Z) : list Z := file_data v (inode_at v sb inum).

(** The inode of the disk has the blocks and the size of the one in memory. *)
Definition stored (v : Z -> list Z) (sb : superblock) (ip : inode) : Prop :=
  i_addrs (inode_at v sb (i_inum ip)) = i_addrs ip /\ i_size (inode_at v sb (i_inum ip)) = i_size ip.

Lemma store_load ip k d x : length d = 1024%nat -> 0 <= k < 16 -> length (i_addrs ip) = 13%nat -> Forall (fun a => 0 <= a < 2 ^ 32) (i_addrs ip) -> 0 <= i_size ip < 2 ^ 32 ->
  i_addrs (load_dinode (store_dinode ip k d) k x) = i_addrs ip /\ i_size (load_dinode (store_dinode ip k d) k x) = i_size ip.
Proof.
  intros Hd Hk Ha Fa Hs. unfold load_dinode, store_dinode. cbn [i_addrs set_i_addrs i_size set_i_size]. set (o := dinode_off k).
  assert (0 <= o <= 960) as Ho by (unfold o, dinode_off; lia). set (d4 := put_half _ (o + 6) _).
  assert (length d4 = 1024%nat) as L4.
  { assert (forall d o bs, length d = 1024%nat -> (Z.to_nat o + length bs <= 1024)%nat -> length (put_bytes d o bs) = 1024%nat) as Hp by (intros; rewrite length_put_bytes; lia).
    unfold d4, put_half. repeat apply Hp; rewrite ?length_bytes_of; lia || done. }
  set (bs := concat (map (bytes_of 4) (i_addrs ip))). assert (length bs = 52%nat) as Lb.
  { unfold bs. destruct (i_addrs ip) as [|? [|? [|? [|? [|? [|? [|? [|? [|? [|? [|? [|? [|? []]]]]]]]]]]]]]; done. }
  assert (length (put_word d4 (o + 8) (i_size ip)) = 1024%nat) as L5 by (rewrite length_put_word; lia). split.
  - unfold put_bytes. rewrite <- Ha at 1. apply words_at; [rewrite length_take; lia|done].
  - rewrite get_word_slice, slice_put_ne, <- get_word_slice by (rewrite ?Lb; lia). rewrite get_put_word_eq by lia. by apply u32_small.
Qed.

Lemma wfile_addrs v sb ip : wfile v sb ip -> Forall (fun a => 0 <= a < 2 ^ 32) (i_addrs ip).
Proof.
  intros W. pose proof (wf_sb _ _ _ W) as Hs. pose proof (wf_addrs _ _ _ W) as Hl. apply Forall_lookup. intros j a E. pose proof (lookup_lt_Some _ _ _ E) as Hj.
  assert (znth 0 (i_addrs ip) (Z.of_nat j) = a) as Ez by (apply znth_lookup; by rewrite Nat2Z.id). destruct (decide (a = 0)) as [->|N]; [lia|].
  assert (owns v ip a) as Ho; [|destruct (wf_own _ _ _ W a Ho); lia]. split; [done|]. destruct (decide (j = 12%nat)) as [->|Nj]; [left; by symmetry|right].
  exists (Z.of_nat j). change MAXFILE with 268. split; [lia|]. unfold iaddr. destruct (Z.ltb_spec (Z.of_nat j) NDIRECT); [done|unfold NDIRECT in *; lia].
Qed.

(** iupdate() stores the inode. *)
Lemma stored_now v sb ip d : wfile v sb ip -> length d = 1024%nat -> v (IBLOCK (i_inum ip) sb) = store_dinode ip (i_inum ip mod IPB) d -> stored v sb ip.
Proof.
  intros W Hd E. unfold stored, inode_at. rewrite E. pose proof (wf_size _ _ _ W) as Hz. change (1024 * MAXFILE) with 274432 in Hz.
  apply store_load; [done|apply Z.mod_pos_bound; done|apply W|by eapply wfile_addrs|lia].
Qed.

(** A boot on a disk that agrees on the blocks of the file finds its bytes. *)
Lemma stored_file v v' sb ip : wfile v sb ip -> stored v sb ip -> v' (IBLOCK (i_inum ip) sb) = v (IBLOCK (i_inum ip) sb) ->
  (forall a, owns v ip a -> v' a = v a) -> file_on v' sb (i_inum ip) = file_data v ip.
Proof.
  intros W [S1 S2] Ei Eo. unfold file_on. assert (inode_at v' sb (i_inum ip) = inode_at v sb (i_inum ip)) as -> by (unfold inode_at; by rewrite Ei).
  set (ip0 := inode_at v sb (i_inum ip)) in *. assert (forall f, iaddr v' ip0 f = iaddr v ip f) as Ea.
  { intros f. unfold iaddr. rewrite S1. fold (ind ip). destruct (f <? NDIRECT); [done|]. destruct (Z.eqb_spec (ind ip) 0); [done|]. by rewrite Eo by (by apply owns_ind). }
  unfold file_data, file_blocks. rewrite S2. do 2 f_equal. apply map_ext_in. intros f Hf%in_seq. rewrite Ea. apply Eo.
  pose proof (wf_size _ _ _ W). pose proof (nblk_spec (i_size ip) ltac:(lia)). apply owns_addr; [lia|]. apply (wf_below _ _ _ W). lia.
Qed.

(** ** Opening and closing a transaction *)

(** No transaction is open, and the log is empty. *)
Record log_idle (dev : Z) (l : logstate) : Prop := {
  li_dev : log_dev l = dev;
  li_n : lh_n l = 0;
  li_outstanding : log_outstanding l = 0;
  li_committing : log_committing l = 0;
  li_len : length (lh_block l) = Z.to_nat LOGBLOCKS;
  li_start : 0 <= log_start l /\ log_start l + LOGBLOCKS < 2 ^ 32;
}.

(** The header and the slots of the log. *)
Definition in_log (l : logstate) (x : Z) : Prop := exists k, 0 <= k <= LOGBLOCKS /\ x = log_start l + k.

Section FsCrash.
Variables (me : nat) (pid : Z).
Variable dev : Z.
Context {L : Layout} {D : Disk} {DL : DiskLaws me pid D}.
Variable fuel : nat.
#[local] Abbreviation does := (does me pid).
#[local] Abbreviation view := (view dev).
#[local] Abbreviation txn := (txn pid dev).
#[local] Abbreviation settled := (settled dev).

Definition opened (s : kstate) : kstate := set_k_log (set_log_outstanding 1 (k_log s)) s.

Lemma begin_op_idle s : log_idle dev (k_log s) -> does [] (begin_op fuel) s tt [] (opened s).
Proof.
  intros [H1 H2 H3 H4 H5 H6]. unfold begin_op. dstep. cbn [begin_op_loop]. eapply does_bind; [apply does_gets; reflexivity|]. rewrite H4, H2, H3.
  cbn [Z.eqb negb]. change (LOGBLOCKS <? 0 + (0 + 1) * MAXOPBLOCKS) with false. cbv iota. unfold updlog. eapply does_bind; [apply does_modify; reflexivity|].
  change (set_k_log _ s) with (set_k_log (set_log_outstanding (s32 (log_outstanding (k_log s) + 1)) (k_log s)) s). rewrite H3. apply does_release, not_elem_of_nil.
Qed.

Lemma pinned_idle s : log_idle dev (k_log s) -> pinned s = [].
Proof. intros H. unfold pinned, ntx. by rewrite (li_n _ _ H). Qed.

Lemma txn_open s : settled [] s -> log_idle dev (k_log s) -> txn [] (opened s).
Proof.
  intros S I. pose proof (pinned_idle s I) as Ep. change (pinned (opened s) = []) in Ep.
  assert (forall i, (i < NBUF)%nat -> b_refcnt (bf s i) = 0) as Hr by (intros i Hi; destruct (se_ref _ _ _ S i Hi) as [|(_ & bn & []%elem_of_nil & _)]; done).
  destruct I as [I1 I2 I3 I4 I5 I6]. split; rewrite ?Ep; try done; [by apply (cache_frame dev s); [..|apply S]|apply S|by intros bn ?%elem_of_nil| |apply NoDup_nil_2|cbn; rewrite I2; done].
  intros bn _. apply (settled_clean dev [] bn s S), not_elem_of_nil.
Qed.

(** An open transaction whose buffers are all given back. *)
Lemma txn_settled F k s : txn [] s -> budget F k s -> settled (pinned s) s.
Proof.
  intros T B. pose proof (fun i Hi => tn_ref _ _ _ _ T i Hi) as Hr. cbn [has_one existsb] in Hr.
  assert (forall i bn, (i < NBUF)%nat -> bn ∈ pinned s -> caches dev bn (bf s i) = true -> b_refcnt (bf s i) = 1) as H1.
  { intros i bn Hi Hp Hc. rewrite (Hr i Hi), (has_one_in dev _ bn) by done. done. }
  split; [apply T|exact (tn_lock _ _ _ _ T)| | |].
  - intros i Hi. destruct (has_one dev (pinned s) (bf s i)) eqn:E; [right|left; by rewrite (Hr i Hi), E].
    apply existsb_exists in E as (bn & Hp & Hc). apply list_elem_of_In in Hp. split; [by apply (H1 i bn)|by exists bn].
  - intros bn Hp. destruct (tn_in _ _ _ _ T bn) as (i & Hi & Hc); [by rewrite app_nil_r|]. exists i. split; [done|]. split; [done|]. by apply (H1 i bn).
  - apply (txn_room pid dev [] s (list_to_set (pinned s ++ []))); [done|by intros ? ?; apply elem_of_list_to_set|].
    exact (budget_room F k [] s B ltac:(by intros ? ?%elem_of_nil)).
Qed.

(** The disk writes of a commit; an empty transaction has none. *)
Definition tx_writes (s : kstate) : list (Z * list Z) := if 0 <? lh_n (k_log s) then commit_writes dev s (k_log s) else [].

(** end_op() of the last open transaction commits. *)
Lemma end_op_commits s : settled (pinned s) s -> log_outstanding (k_log s) = 1 -> log_committing (k_log s) = 0 -> tx_ok dev (k_log s) ->
  exists s', does [] (end_op fuel) s tt [] s' /\ k_dlog s' = k_dlog s ++ tx_writes s /\
    (forall bn, block s' bn = writes (block s) (tx_writes s) bn) /\ settled [] s' /\ (forall bn, view s' bn = writes (view s) (tx_writes s) bn) /\
    k_log s' = set_log_committing 0 (set_lh_n 0 (set_log_outstanding 0 (k_log s))) /\ k_itable s' = k_itable s /\ k_sb s' = k_sb s.
Proof.
  intros S Ho Hc T. set (L0 := k_log s) in *. set (L1 := set_log_committing 1 (set_log_outstanding 0 L0)). set (s1 := set_k_log L1 s).
  assert (tx_ok dev L1) as T1 by (destruct T as [T1 T2 T3 T4 T5 T6 T7]; by split).
  assert (settled (map (home L1) (seq 0 (ntx L1))) s1) as S1 by (apply (settled_frame dev _ s); [done..|exact S]).
  assert (exists s2, does [] (commit fuel) s1 tt [] s2 /\ settled [] s2 /\ (forall bn, view s2 bn = writes (view s) (tx_writes s) bn) /\
    (forall bn, block s2 bn = writes (block s) (tx_writes s) bn) /\ k_dlog s2 = k_dlog s ++ tx_writes s /\ k_log s2 = set_lh_n 0 L1 /\ k_itable s2 = k_itable s /\ k_sb s2 = k_sb s)
    as (s2 & D2 & S2 & V2 & B2 & G2 & E2 & It & Sb).
  { unfold tx_writes. fold L0. destruct (Z.ltb_spec 0 (lh_n L0)) as [Hn|Hn].
    - destruct (commit_spec me pid dev fuel s1 L1 S1 eq_refl T1 Hn) as (s2 & D2 & S2 & V2 & B2 & G2 & E2 & Fr). exists s2. do 6 (split; [done|]). rewrite Fr. done.
    - assert (lh_n L0 = 0) as E0 by (pose proof (tx_n _ _ T); lia). exists s1. split.
      { unfold commit, getlog. eapply does_bind; [apply does_gets; reflexivity|]. change (lh_n (k_log s1)) with (lh_n L0). rewrite E0. apply does_ret. }
      assert (ntx L1 = 0%nat) as En by (unfold ntx; cbn; by rewrite E0). rewrite En in S1. rewrite app_nil_r. do 4 (split; [done|]). split; [|done].
      unfold s1. cbn [k_log set_k_log]. unfold L1. destruct L0; cbn in *. by rewrite E0. }
  set (s3 := set_k_log (set_log_committing 0 (k_log s2)) s2). exists s3.
  split; [|split; [exact G2|split; [exact B2|split; [by apply (settled_frame dev [] s2)|split; [exact V2|]]]]].
  2: { split; [unfold s3; cbn [k_log set_k_log]; by rewrite E2|done]. }
  unfold end_op, updlog, getlog. dstep. eapply does_bind; [apply does_modify; reflexivity|]. eapply does_bind; [apply does_gets; reflexivity|].
  cbn [k_log set_k_log]. fold L0. cbn [log_committing set_log_outstanding log_outstanding]. rewrite Hc, Ho. cbn [Z.eqb negb]. change (s32 (1 - 1) =? 0) with true. cbv iota.
  eapply does_bind; [eapply does_bind; [apply does_modify; reflexivity|apply does_ret]|]. eapply does_bind; [apply does_release, not_elem_of_nil|]. cbn [kwhen].
  eapply does_bind; [exact D2|]. dstep. eapply does_bind; [apply does_modify; reflexivity|].
  eapply does_bind; [apply does_wakeup; by intros j ?%list_elem_of_singleton|]. apply does_release, not_elem_of_nil.
Qed.

Lemma writes_len w : forall f, (forall bn, length (f bn) = 1024%nat) -> Forall (fun x => length x.2 = 1024%nat) w -> forall bn, length (writes f w bn) = 1024%nat.
Proof.
  induction w as [|[b d] w IH]; intros f Hf Fw bn; [apply Hf|]. apply Forall_cons_1 in Fw as [Hd Fw]. rewrite writes_cons. apply IH; [|done].
  intros bn'. unfold upd. by destruct (bn' =? b).
Qed.

(** The disk after a commit: what readers saw, but for the log. *)
Lemma commit_final s l f : tx_ok dev l -> (forall bn, length (view s bn) = 1024%nat) -> (forall bn, length (f bn) = 1024%nat) ->
  (forall bn, (bn ∉ map (home l) (seq 0 (ntx l))) -> f bn = view s bn) ->
  let d := writes f (commit_writes dev s l) in
  (forall bn, length (d bn) = 1024%nat) /\ (forall bn, outside l bn -> d bn = view s bn) /\ head_n (d (hblock l)) = 0.
Proof.
  intros T Hv Hf Hc d. pose proof (tx_n _ l T) as Hn. destruct (head_data_tx l (view s (hblock l)) Hn (Hv _)) as [_ Hh].
  assert (length (commit_writes dev s l) = 2 * ntx l + 2)%nat as Lw.
  { unfold commit_writes. rewrite !length_app, length_log_writes, length_new_writes. simpl. lia. }
  assert (d = writes f (take (2 * ntx l + 2) (commit_writes dev s l))) as Ed by (unfold d; by rewrite take_ge by lia).
  split; [|split].
  - apply writes_len; [done|]. unfold commit_writes. repeat apply Forall_app_2; [| |..].
    + unfold log_writes. apply Forall_map, Forall_forall. intros i _. apply Hv.
    + by apply Forall_singleton.
    + unfold new_writes. apply Forall_map, Forall_forall. intros i _. apply Hv.
    + apply Forall_singleton. cbn. by destruct (head_data_spec 0 (lh_block l) (head_data (lh_n l) (lh_block l) (view s (hblock l))) ltac:(lia) Hh) as (-> & _).
  - intros bn O. rewrite Ed. destruct (crash_late pid dev s l (2 * ntx l + 2) f bn T ltac:(lia)) as [_ ->]; [|done]. case_decide; [done|]. by apply Hc.
  - rewrite Ed. destruct (crash_late pid dev s l (2 * ntx l + 2) f 0 T ltac:(lia)) as [-> _]. by apply head_data_none.
Qed.
(** ** The blocks that every write of a file may log *)

Definition bitmap_blocks (sb : superblock) : nat := Z.to_nat ((sb_size sb + BPB - 1) / BPB).
Definition fixed (sb : superblock) (ip : inode) : gset Z :=
  list_to_set (IBLOCK (i_inum ip) sb :: ind ip :: map (fun k => BBLOCK (BPB * Z.of_nat k) sb) (seq 0 (bitmap_blocks sb))).

Lemma size_of_list (l : list Z) : (size (list_to_set l : gset Z) <= length l)%nat.
Proof.
  induction l as [|x l IH]; [change (size (∅ : gset Z) <= 0)%nat; by rewrite size_empty|]. cbn [list_to_set length]. rewrite size_union_alt, size_singleton.
  assert (size ((list_to_set l : gset Z) ∖ {[x]}) <= size (list_to_set l : gset Z))%nat by (apply subseteq_size, subseteq_difference_l; done). lia.
Qed.

Lemma fixed_size sb ip : (size (fixed sb ip) <= 2 + bitmap_blocks sb)%nat.
Proof. unfold fixed. etrans; [apply size_of_list|]. cbn [length]. rewrite length_map, length_seq. lia. Qed.

Lemma fixed_map sb ip b : 0 <= b < sb_size sb -> BBLOCK b sb ∈ fixed sb ip.
Proof.
  intros Hb. unfold fixed. apply elem_of_list_to_set. do 2 (apply elem_of_cons; right). apply list_elem_of_fmap. exists (Z.to_nat (b / BPB)).
  assert (0 <= b / BPB) as H0 by (apply Z.div_pos; rewrite ?BPB_eq; lia). rewrite Z2Nat.id by done. pose proof (Z.mod_pos_bound b BPB ltac:(by rewrite BPB_eq)) as Hm. split.
  - destruct (BBLOCK_group sb (b / BPB) (b mod BPB) Hm) as [<- _]. f_equal. apply Z.div_mod. by rewrite BPB_eq.
  - apply elem_of_seq. unfold bitmap_blocks. rewrite BPB_eq in *. Z.div_mod_to_equations. lia.
Qed.

(** ** An idle file system with a file in memory *)

Record idle_file (i : nat) (s : kstate) : Prop := {
  if_settled : settled [] s;
  if_log : log_idle dev (k_log s);
  if_idx : (i < length (k_itable s))%nat;
  if_dev : i_dev (ino s i) = dev;
  if_file : wfile (view s) (k_sb s) (ino s i);
  if_stored : stored (view s) (k_sb s) (ino s i);
  if_apart x : in_log (k_log s) x -> apart (view s) (k_sb s) (ino s i) x;
  if_head : head_n (block s (log_start (k_log s))) = 0;
}.

(** The log has room for a write that touches [m] blocks. *)
Definition fits (sb : superblock) (m : nat) : Prop := (bitmap_blocks sb + 3 + m < NBUF)%nat.

Lemma idle_ready i s m : idle_file i s -> fits (k_sb s) m ->
  ready pid dev (fixed (k_sb s) (ino s i)) i (opened s) /\ budget (fixed (k_sb s) (ino s i)) (m + slack (ino s i)) (opened s).
Proof.
  intros [S I Hi Hd W St Ap Hh] Hf. split.
  - split; [by apply txn_open|done|done|done|intros b; apply fixed_map| |]; intros; [|left]; apply elem_of_list_to_set; [left|right; left].
  - unfold budget. change (pinned (opened s)) with (pinned s). rewrite (pinned_idle s I). cbn [list_to_set]. rewrite union_empty_l_L.
    pose proof (fixed_size (k_sb s) (ino s i)). unfold fits, slack in *. destruct (ind (ino s i) =? 0); lia.
Qed.

Lemma outside_log l l' x : log_idle dev l -> log_start l' = log_start l -> 0 <= lh_n l' <= LOGBLOCKS -> ~ in_log l x -> outside l' x.
Proof.
  intros [_ _ _ _ _ [H1 H2]] Es Hn N. split; [|intros i Hi]; intros ->; apply N.
  - exists 0. unfold hblock. rewrite Es, u32_small by lia. change LOGBLOCKS with 30. lia.
  - exists (Z.of_nat i + 1). unfold slot, ntx in *. rewrite Es, u32_small by lia. lia.
Qed.

(** The transaction that a write leaves can be committed. *)
Lemma write_tx i s s2 F : idle_file i s -> ready pid dev F i s2 -> stays dev i (opened s) s2 ->
  tx_ok dev (k_log s2) /\ log_start (k_log s2) = log_start (k_log s) /\ log_outstanding (k_log s2) = 1 /\ log_committing (k_log s2) = 0.
Proof.
  intros [S I Hi Hd W St Ap Hh] R [S1 S2 S3 S4]. pose proof I as [I1 I2 I3 I4 I5 [I6 I7]]. destruct S2 as [G1 G2 G3 G4]. cbn in G1, G2, G3, G4. pose proof (rd_txn _ _ _ _ _ R) as T.
  assert (forall k x, 0 <= k <= LOGBLOCKS -> x = log_start (k_log s) + k -> x ∉ pinned s2) as Np.
  { intros k x Hk E Hx. destruct (S4 x (Ap x ltac:(by exists k))) as (_ & _ & Hn). apply Hn in Hx. change (x ∈ pinned s) in Hx. rewrite (pinned_idle s I) in Hx. by apply elem_of_nil in Hx. }
  pose proof (tn_n _ _ _ _ T) as Hn. assert (forall j, (j < ntx (k_log s2))%nat -> home (k_log s2) j ∈ pinned s2) as Hm.
  { intros j Hj. unfold pinned. apply list_elem_of_fmap. exists j. split; [done|]. apply elem_of_seq. lia. }
  assert (forall j, (j < ntx (k_log s2))%nat -> slot (k_log s2) j = log_start (k_log s) + (Z.of_nat j + 1)) as Es.
  { intros j Hj. unfold slot, ntx in *. rewrite G1, u32_small by lia. lia. }
  assert (hblock (k_log s2) = log_start (k_log s) + 0) as Eh by (unfold hblock; rewrite G1, u32_small by lia; lia).
  split; [|split; [done|split; congruence]]. split; [congruence|done|apply T|..].
  - intros j k Hj Hk. rewrite !Es by done. lia.
  - intros j k Hj Hk E. rewrite Es in E by done. apply (Np (Z.of_nat k + 1) _ ltac:(unfold ntx in Hk; lia) E). by apply Hm.
  - intros j Hj E. rewrite Eh in E. apply (Np 0 _ ltac:(change LOGBLOCKS with 30; lia) E). by apply Hm.
  - intros j Hj. rewrite Es, Eh by done. lia.
Qed.

(** ** A transaction of its own *)

(** How the system calls use the file system: between begin_op() and
    end_op(). *)
Definition in_txn {A} (body : K A) : K A :=
  begin_op fuel ;;
  a ← body;
  end_op fuel ;;
  mret a.

(** What a body has done to the file when it ends, in the state [s2]. *)
Record body_done (i : nat) (s s2 : kstate) : Prop := {
  bd_ready : exists F, ready pid dev F i s2 /\ budget F 0 s2;
  bd_stays : stays dev i (opened s) s2;
  bd_stored : stored (view s2) (k_sb s) (ino s2 i);
  bd_inum : i_inum (ino s2 i) = i_inum (ino s i);
}.

(** The state [s2] at end_op(), the writes of the commit, and the state after. *)
Record ran (i : nat) (s s2 s' : kstate) : Prop := {
  rn_body : body_done i s s2;
  rn_file : wfile (view s2) (k_sb s) (ino s2 i);
  rn_dev : i_dev (ino s2 i) = dev;
  rn_idx : (i < length (k_itable s2))%nat;
  rn_apart x : in_log (k_log s) x -> apart (view s2) (k_sb s) (ino s2 i) x;
  rn_settled : settled (pinned s2) s2;
  rn_tx : tx_ok dev (k_log s2);
  rn_start : log_start (k_log s2) = log_start (k_log s);
  rn_disk bn : block s2 bn = block s bn;
  rn_final : settled [] s';
  rn_view bn : view s' bn = writes (view s2) (tx_writes s2) bn;
  rn_block bn : block s' bn = writes (block s) (tx_writes s2) bn;
  rn_dlog : k_dlog s' = k_dlog s ++ tx_writes s2;
  rn_log : log_idle dev (k_log s') /\ log_start (k_log s') = log_start (k_log s);
  rn_itable : k_itable s' = k_itable s2;
  rn_sb : k_sb s' = k_sb s;
}.

Lemma in_txn_runs {A} (body : K A) a i s s2 : idle_file i s -> does [] body (opened s) a [] s2 -> body_done i s s2 ->
  exists s', does [] (in_txn body) s a [] s' /\ ran i s s2 s'.
Proof.
  intros If D2 Bd. pose proof Bd as [(F & R2 & B2) S2 _ _]. destruct (write_tx i s s2 F If R2 S2) as (T & Est & Eo & Ec). pose proof (txn_settled F 0 s2 (rd_txn _ _ _ _ _ R2) B2) as Se.
  destruct (end_op_commits s2 Se Eo Ec T) as (s' & D3 & G3 & B3 & Se3 & V3 & L3 & It & Sb). pose proof (stays_sb _ _ _ _ S2) as Eb. change (k_sb (opened s)) with (k_sb s) in Eb.
  exists s'. split; [unfold in_txn; eapply does_bind; [by apply begin_op_idle, If|]; eapply does_bind; [exact D2|]; eapply does_bind; [exact D3|apply does_ret]|].
  pose proof (rd_file _ _ _ _ _ R2) as W2. rewrite Eb in W2. assert (k_disk s2 = k_disk s /\ k_dlog s2 = k_dlog s) as [Ed El] by (rewrite (st_frame _ _ _ _ S2); done).
  assert (forall bn, block s2 bn = block s bn) as Ebk by (intros bn; unfold block; by rewrite Ed).
  split; try done.
  - apply (rd_dev _ _ _ _ _ R2).
  - apply (rd_idx _ _ _ _ _ R2).
  - intros x Hl. by destruct (st_rest _ _ _ _ S2 x (if_apart _ _ If x Hl)) as (_ & H & _).
  - intros bn. rewrite B3. by apply writes_ext.
  - by rewrite G3, El.
  - destruct (if_log _ _ If) as [I1 I2 I3 I4 I5 I6]. split; [|by rewrite L3]. rewrite L3.
    split; cbn; try done; [apply T|exact (tn_len _ _ _ _ (rd_txn _ _ _ _ _ R2))|]. by rewrite Est.
  - by rewrite Sb.
Qed.

(** The blocks of the file and the bitmap are not in the log. *)
Lemma ran_outside i s s2 s' x : idle_file i s -> ran i s s2 s' -> ~ apart (view s2) (k_sb s) (ino s2 i) x -> outside (k_log s2) x.
Proof.
  intros If R Na. apply (outside_log (k_log s)); [apply (if_log _ _ If)|apply (rn_start _ _ _ _ R)|apply (tx_n _ _ (rn_tx _ _ _ _ R))|]. intros Hl. by apply Na, (rn_apart _ _ _ _ R).
Qed.

(** An empty transaction changes nothing. *)
Lemma ran_none i s s2 s' bn : ran i s s2 s' -> lh_n (k_log s2) <= 0 -> tx_writes s2 = [] /\ view s2 bn = block s bn.
Proof.
  intros R Hn. unfold tx_writes. destruct (Z.ltb_spec 0 (lh_n (k_log s2))); [lia|]. split; [done|]. rewrite <- (rn_disk _ _ _ _ R). apply (settled_clean dev _ bn s2 (rn_settled _ _ _ _ R)).
  unfold pinned, ntx. replace (Z.to_nat (lh_n (k_log s2))) with 0%nat by lia. apply not_elem_of_nil.
Qed.

(** What the disk has of the file's blocks after the commit. *)
Lemma ran_final i s s2 s' : idle_file i s -> ran i s s2 s' ->
  (forall bn, length (view s' bn) = 1024%nat) /\ (forall bn, outside (k_log s2) bn -> view s' bn = view s2 bn) /\ head_n (block s' (log_start (k_log s))) = 0.
Proof.
  intros If R. pose proof (rn_file _ _ _ _ R) as W2. pose proof (if_file _ _ If) as W. destruct (Z.le_gt_cases (lh_n (k_log s2)) 0) as [Hn|Hn].
  { pose proof (fun bn => ran_none i s s2 s' bn R Hn) as E. split; [|split]; [intros bn; rewrite (rn_view _ _ _ _ R)|intros bn _; rewrite (rn_view _ _ _ _ R)|rewrite (rn_block _ _ _ _ R)];
      rewrite (proj1 (E 0)); [apply W2|done|apply (if_head _ _ If)]. }
  assert (tx_writes s2 = commit_writes dev s2 (k_log s2)) as Ew by (unfold tx_writes; by destruct (Z.ltb_spec 0 (lh_n (k_log s2))); [|lia]).
  destruct (commit_final s2 (k_log s2) (view s2) (rn_tx _ _ _ _ R) (wf_len _ _ _ W2) (wf_len _ _ _ W2) ltac:(done)) as (F1 & F2 & _).
  destruct (commit_final s2 (k_log s2) (block s) (rn_tx _ _ _ _ R) (wf_len _ _ _ W2)) as (_ & _ & F3).
  { intros bn. rewrite <- (settled_clean dev [] bn s (if_settled _ _ If) (not_elem_of_nil _)). apply W. }
  { intros bn Nb. rewrite (settled_clean dev _ bn s2 (rn_settled _ _ _ _ R) Nb). symmetry. apply R. }
  split; [intros bn; rewrite (rn_view _ _ _ _ R), Ew; apply F1|]. split; [intros bn O; rewrite (rn_view _ _ _ _ R), Ew; by apply F2|].
  rewrite (rn_block _ _ _ _ R), Ew. unfold hblock in F3. rewrite (rn_start _ _ _ _ R), u32_small in F3; [done|]. destruct (if_log _ _ If) as [_ _ _ _ _ [H1 H2]].
  change LOGBLOCKS with 30 in H2. lia.
Qed.

(** The file system is idle again. *)
Lemma idle_after i s s2 s' : idle_file i s -> ran i s s2 s' ->
  idle_file i s' /\ file_data (view s') (ino s' i) = file_data (view s2) (ino s2 i) /\ (full (view s2) (k_sb s) -> full (view s') (k_sb s)).
Proof.
  intros If R. destruct (ran_final i s s2 s' If R) as (Hl & Hv & Hh). pose proof (rn_file _ _ _ _ R) as W2.
  assert (ino s' i = ino s2 i) as Ei by (unfold ino; by rewrite (rn_itable _ _ _ _ R)).
  assert (forall x, ~ apart (view s2) (k_sb s) (ino s2 i) x -> view s' x = view s2 x) as Ek by (intros x N; by apply Hv, (ran_outside i s s2 s')).
  assert (view s' (IBLOCK (i_inum (ino s2 i)) (k_sb s)) = view s2 (IBLOCK (i_inum (ino s2 i)) (k_sb s))) as Eib by (apply Ek; intros (_ & _ & _ & N); done).
  assert (forall a, owns (view s2) (ino s2 i) a -> view s' a = view s2 a) as Eo by (intros a Ha; apply Ek; intros (_ & N & _); done).
  destruct (wfile_same (view s2) (view s') (k_sb s) (ino s2 i) W2 Hl) as (W' & Ea & Ef).
  { intros b Hb. apply Ek. intros (_ & _ & N & _). by apply (N b). } { intros N. by apply Eo, owns_ind. }
  destruct (rn_log _ _ _ _ R) as [Li Ls]. destruct (bd_stored _ _ _ (rn_body _ _ _ _ R)) as [St1 St2]. split; [|split].
  - split; rewrite ?(rn_sb _ _ _ _ R), ?Ei, ?Ls; try done.
    + apply (rn_final _ _ _ _ R).
    + rewrite (rn_itable _ _ _ _ R). apply (rn_idx _ _ _ _ R).
    + apply (rn_dev _ _ _ _ R).
    + unfold stored, inode_at in *. by rewrite Eib.
    + intros x Hx. apply (same_apart (view s2)); [done|done|]. apply (rn_apart _ _ _ _ R). destruct Hx as (k & Hk & ->). exists k. by rewrite Ls.
  - rewrite Ei. unfold file_data, file_blocks. do 2 f_equal. apply map_ext_in. intros f Hf%in_seq. rewrite Ea. apply Eo.
    pose proof (wf_size _ _ _ W2). pose proof (nblk_spec (i_size (ino s2 i)) ltac:(lia)). apply owns_addr; [lia|]. apply (wf_below _ _ _ W2). lia.
  - intros Fu y Hy. rewrite Ef by done. by apply Fu.
Qed.

(** What the next boot finds after the first [j] writes. *)
Definition found (i : nat) (s s2 : kstate) (late : bool) (r' : kstate) : Prop :=
  file_on (block r') (k_sb s) (i_inum (ino s i)) = (if late then file_data (view s2) (ino s2 i) else file_data (view s) (ino s i)) /\
  (forall x, apart (view s) (k_sb s) (ino s i) x -> ~ in_log (k_log s) x -> block r' x = block s x) /\
  forall x, ~ in_log (k_log s) x -> block r' x = if late then view s2 x else block s x.

Lemma ran_cut i s s2 s' j r : idle_file i s -> ran i s s2 s' -> booted me pid dev (k_log s) (writes (block s) (take j (tx_writes s2))) r ->
  exists r', recover_from_log fuel r = Ret tt r' /\ found i s s2 (ntx (k_log s2) <? j)%nat r'.
Proof.
  intros If R B. pose proof (rn_tx _ _ _ _ R) as T. pose proof (if_file _ _ If) as W. pose proof (rn_file _ _ _ _ R) as W2. pose proof (rn_body _ _ _ _ R) as [_ S2 St Eu].
  destruct (if_log _ _ If) as [I1 I2 I3 I4 I5 [I6 I7]]. pose proof (rn_start _ _ _ _ R) as Est.
  assert (forall bn, view s bn = block s bn) as Vb by (intros bn; apply (settled_clean dev [] bn s (if_settled _ _ If)), not_elem_of_nil).
  assert (hblock (k_log s2) = log_start (k_log s)) as Eh by (unfold hblock; rewrite Est; apply u32_small; change LOGBLOCKS with 30 in I7; lia).
  assert (exists r', recover_from_log fuel r = Ret tt r' /\ forall bn, outside (k_log s2) bn -> block r' bn = if (ntx (k_log s2) <? j)%nat then view s2 bn else block s bn) as (r' & E & Hr).
  { destruct (Z.le_gt_cases (lh_n (k_log s2)) 0) as [Hn|Hn].
    - destruct (ran_none i s s2 s' 0 R Hn) as [Ew _]. rewrite Ew, take_nil in B.
      assert (hblock (k_log s) = log_start (k_log s)) as Eh0 by (unfold hblock in Eh |- *; by rewrite Est in Eh).
      destruct (boot_none me pid dev fuel (k_log s) (block s) r B I1) as (r' & E & Hr); [rewrite Eh0; apply (if_head _ _ If)|]. exists r'. split; [exact E|].
      intros bn [O _]. rewrite Hr by (rewrite Eh0, <- Eh; done). destruct (ran_none i s s2 s' bn R Hn) as [_ ->]. by destruct (_ <? _)%nat.
    - destruct (commit_cut me pid dev fuel s2 (k_log s2) j r (rn_settled _ _ _ _ R) T) as (r' & E & Hr).
      { rewrite (rn_disk _ _ _ _ R), <- Vb. apply W. } { rewrite Eh, (rn_disk _ _ _ _ R). apply (if_head _ _ If). }
      { unfold tx_writes in B. destruct (Z.ltb_spec 0 (lh_n (k_log s2))); [|lia]. destruct B as [B1 B2 B3 B4 B5 B6 B7 B8]. split; try done; [by rewrite Est|by rewrite (tx_dev _ _ T), B6|].
        intros bn. rewrite B8. apply writes_ext. intros b. symmetry. apply R. }
      exists r'. split; [exact E|]. intros bn O. rewrite Hr by done. by rewrite (rn_disk _ _ _ _ R). }
  assert (forall x, ~ in_log (k_log s) x -> outside (k_log s2) x) as Out by (intros x N; apply (outside_log (k_log s)); [apply (if_log _ _ If)|done|apply T|done]).
  exists r'. split; [exact E|]. split; [|split; [|intros x N; by apply Hr, Out]].
  - destruct (ntx (k_log s2) <? j)%nat.
    + rewrite <- Eu. apply stored_file; [done|done|apply Hr|intros a Ha; apply Hr]; apply (ran_outside i s s2 s' _ If R); [intros (_ & _ & _ & N); done|intros (_ & N & _); done].
    + assert (forall x, ~ apart (view s) (k_sb s) (ino s i) x -> outside (k_log s2) x) as Ho.
      { intros x N. apply Out. intros Hl. by apply N, (if_apart _ _ If). }
      apply stored_file; [done|apply If|rewrite Hr; [by symmetry|]|intros a Ha; rewrite Hr; [by symmetry|]]; apply Ho; [intros (_ & _ & _ & N)|intros (_ & N & _)]; done.
  - intros x Ha Nl. rewrite Hr by (by apply Out). destruct (ntx (k_log s2) <? j)%nat; [|done]. destruct (st_rest _ _ _ _ S2 x Ha) as (-> & _). apply Vb.
Qed.

(** ** writei() *)

Lemma write_done i src off n s : idle_file i s -> fits (k_sb s) (touches off n) -> 0 <= off <= i_size (ino s i) -> n = Z.of_nat (length src) -> off + n <= 1024 * MAXFILE ->
  exists t s2, does [] (writei fuel i (Local src) off n) (opened s) t [] s2 /\ body_done i s s2 /\ wrote_file dev i src off n (opened s) t s2 /\ 0 < lh_n (k_log s2).
Proof.
  intros If Hf Ho Hn Hx. destruct (idle_ready i s (touches off n) If Hf) as [R B]. set (F := fixed (k_sb s) (ino s i)) in *.
  destruct (writei_spec me pid dev fuel F i src off n (opened s) R Ho Hn Hx B) as (t & s2 & D2 & R2 & S2 & B2 & P2 & Wf).
  assert (i_inum (ino s2 i) = i_inum (ino s i)) as Eu by (rewrite (wo_inode _ _ _ _ _ _ _ _ Wf); done).
  exists t, s2. split; [exact D2|]. split; [|split; [done|]].
  - split; [eauto|done| |done]. pose proof (rd_file _ _ _ _ _ R2) as W2. rewrite (stays_sb _ _ _ _ S2) in W2. change (k_sb (opened s)) with (k_sb s) in W2.
    apply (stored_now _ _ _ (view s (IBLOCK (i_inum (ino s i)) (k_sb s))) W2); [apply (if_file _ _ If)|]. rewrite Eu. exact (wo_disk _ _ _ _ _ _ _ _ Wf).
  - unfold pinned, ntx in P2. destruct (Z.to_nat (lh_n (k_log s2))) eqn:E; [by apply elem_of_nil in P2|lia].
Qed.
End FsCrash.



(** A disk of 40 blocks: the log at 2, inodes at 33, the bitmap at 34 and one
    file of one block, 35, of type [ty]. *)
Section Tiny.
Variable ty : Z.

Definition tiny_sb : superblock := mk_superblock FSMAGIC 40 5 16 31 2 33 34.
Definition tiny_ip : inode := mk_inode 1 1 1 zero_sleeplock 1 ty 0 0 1 1024 (35 :: replicate 12 0).
Definition tiny_bitmap : list Z := replicate 4 255 ++ [15] ++ replicate 1019 0.
Definition tiny_disk : gmap Z (list Z) :=
  <[33 := store_dinode tiny_ip 1 zero_block]> (<[34 := tiny_bitmap]> (<[35 := replicate 1024 7]> ∅)).
Definition tiny_state : kstate :=
  set_k_sb tiny_sb (set_k_itable (tiny_ip :: replicate 49 zero_inode)
    (set_k_log (mk_logstate 2 0 0 1 0 (replicate 30 0)) (set_k_disk tiny_disk idle_state))).

Lemma tiny_view bn : view 1 tiny_state bn = block tiny_state bn.
Proof. apply view_miss. intros i Hi. unfold caches, holds. rewrite (ring_fresh tiny_state zero_block eq_refl) by lia. done. Qed.

Lemma tiny_len bn : length (block tiny_state bn) = 1024%nat.
Proof.
  unfold block, tiny_state. cbn [k_disk set_k_sb set_k_itable set_k_log set_k_disk]. unfold tiny_disk.
  destruct (decide (bn = 33)) as [->|N1]; [rewrite lookup_insert_eq; by vm_compute|rewrite lookup_insert_ne by done].
  destruct (decide (bn = 34)) as [->|N2]; [rewrite lookup_insert_eq; by vm_compute|rewrite lookup_insert_ne by done].
  destruct (decide (bn = 35)) as [->|N3]; [rewrite lookup_insert_eq; by vm_compute|rewrite lookup_insert_ne by done]. done.
Qed.

Lemma tiny_iaddr v f : 0 <= f < MAXFILE -> iaddr v tiny_ip f = if f =? 0 then 35 else 0.
Proof.
  intros Hf. unfold iaddr. change (znth 0 (i_addrs tiny_ip) NDIRECT) with 0. cbn [Z.eqb]. destruct (Z.ltb_spec f NDIRECT) as [H|H]; [|unfold NDIRECT in H; destruct (Z.eqb_spec f 0); [lia|done]].
  unfold znth. change (i_addrs tiny_ip) with (35 :: replicate 12 0). destruct (Z.eqb_spec f 0) as [->|N]; [done|].
  destruct (Z.to_nat f) as [|m] eqn:E; [lia|]. cbn [nth]. rewrite nth_lookup. destruct (replicate 12 0 !! m) eqn:El; [apply lookup_replicate in El as [-> _]|]; done.
Qed.

Lemma tiny_used b : 0 <= b < 40 -> BBLOCK b tiny_sb = 34 /\ is_free (block tiny_state) tiny_sb b = (36 <=? b).
Proof.
  intros Hb. assert (BBLOCK b tiny_sb = 34) as E by (unfold BBLOCK; rewrite BPB_eq, Z.div_small by lia; done). split; [done|]. unfold is_free. rewrite E, BPB_eq, Z.mod_small by lia.
  assert (forallb (fun k => eqb (bit_free (block tiny_state 34) (Z.of_nat k)) (36 <=? Z.of_nat k)) (seq 0 40) = true) as H by (vm_compute; reflexivity).
  rewrite forallb_forall in H. specialize (H (Z.to_nat b)). rewrite Z2Nat.id in H by lia. apply eqb_prop, H, in_seq. lia.
Qed.

Lemma tiny_owns v a : owns v tiny_ip a -> a = 35.
Proof. intros [N [->|(f & Hf & E)]]; [done|]. rewrite tiny_iaddr in E by done. destruct (f =? 0); [done|congruence]. Qed.

Lemma tiny_file : wfile (view 1 tiny_state) tiny_sb tiny_ip.
Proof.
  apply (wfile_same (block tiny_state)); [|intros; rewrite tiny_view; apply tiny_len|intros; apply tiny_view..].
  split; try done; [apply tiny_len|..].
  - intros b Hb. destruct (tiny_used b Hb) as [-> _]. split; [done|]. by apply tiny_used.
  - intros b Hb. destruct (tiny_used b Hb) as [-> _]. done.
  - intros a ->%tiny_owns. split; [done|]. split; [by apply tiny_used|]. split; [done|]. intros b Hb. destruct (tiny_used b Hb) as [-> _]. done.
  - intros f g Hf Hg. rewrite !tiny_iaddr by done. destruct (Z.eqb_spec f 0), (Z.eqb_spec g 0); subst; done.
  - intros f Hf. assert (nblk (i_size tiny_ip) = 1) as E by (vm_compute; reflexivity). rewrite E in Hf. assert (f = 0) as -> by lia. by rewrite tiny_iaddr.
Qed.

Lemma tiny_idle : idle_file 1 0 tiny_state.
Proof.
  split.
  - by apply (fresh_settled _ zero_block).
  - split; done.
  - apply Nat.ltb_lt. by vm_compute.
  - done.
  - exact tiny_file.
  - unfold stored, inode_at. change (k_sb tiny_state) with tiny_sb. change (ino tiny_state 0) with tiny_ip. rewrite tiny_view. split; vm_compute; reflexivity.
  - intros x (k & Hk & ->). change (log_start (k_log tiny_state)) with 2. change LOGBLOCKS with 30 in Hk.
    change (k_sb tiny_state) with tiny_sb. change (ino tiny_state 0) with tiny_ip. split; [|split; [|split]].
    + intros H. unfold is_free. rewrite tiny_view. destruct (tiny_used (2 + k) H) as [_ E]. unfold is_free in E. rewrite E. by apply Z.leb_gt; lia.
    + intros E%tiny_owns. lia.
    + intros b Hb. destruct (tiny_used b Hb) as [-> _]. lia.
    + change (IBLOCK (i_inum tiny_ip) tiny_sb) with 33. lia.
  - vm_compute. reflexivity.
Qed.

(** The next boot on what the writes [w] left of the disk. *)
Definition tiny_reboot (w : list (Z * list Z)) : kstate := set_k_disk (fold_left (fun m x => <[x.1 := x.2]> m) w tiny_disk) tiny_state.

Lemma tiny_booted w : booted 0 0 1 (k_log tiny_state) (writes (block tiny_state) w) (tiny_reboot w).
Proof.
  split; try done.
  - exact idle_good.
  - by apply (fresh_settled _ zero_block).
  - intros bn. unfold block, tiny_reboot. cbn [k_disk set_k_disk]. by rewrite block_writes.
Qed.

End Tiny.


