(* ===== verification/DirWrite.v ===== *)
(** * Directories that change (kernel/fs.c dirlink()), what the code does

    dirlink() in a transaction: the search for the name, the search for an
    empty entry and the write of the new one.  A read inside a transaction
    keeps what FsWrite calls a ready file. *)

From S2P Require Import Prelude Abi Riscv Memory Mkfs MkfsSpec MkfsImage KState KMonad Spinlock Kalloc Vm Proc ProcSpec SleepSpec Seq.
From S2P Require Import Printf PrintSpec Sleeplock Bio BioSpec Log BlockSpec LogSpec Crash Fs FsView FsSpec LogWrite Balloc FileShape FsWrite FsCrash.

(** ** Entries of a directory *)

(** strncpy() and strncmp() agree on what a name is. *)
Lemma namecmp_lstrncpy n : forall name, lstrncmp n name (lstrncpy name n) = 0.
Proof.
  induction n as [|n IH]; intros name; [done|]. cbn [lstrncmp lstrncpy]. destruct (Z.eqb_spec (hd 0 name) 0) as [E|N].
  - rewrite E. done.
  - cbn [hd tl negb andb]. rewrite Z.eqb_refl. destruct (Z.eqb_spec (hd 0 name) 0); [done|]. apply IH.
Qed.

Definition new_entry (name : list Z) (inum : Z) : list Z := mk_dirent inum (lstrncpy name DIRSIZ).

Lemma length_new_entry name inum : length (new_entry name inum) = 16%nat.
Proof. unfold new_entry, mk_dirent. by rewrite length_app, length_bytes_of, length_lstrncpy. Qed.

Lemma new_entry_spec name inum : 0 < inum < 2 ^ 16 -> de_inum (new_entry name inum) = inum /\ matches name (new_entry name inum) = true.
Proof.
  intros Hi. assert (de_inum (new_entry name inum) = inum) as E.
  { unfold de_inum, get_half, new_entry, mk_dirent. change (Z.to_nat 0) with 0%nat. rewrite drop_0, take_app_length' by (by rewrite length_bytes_of). rewrite of_bytes_of. apply Z.mod_small. change (256 ^ Z.of_nat 2) with (2 ^ 16). lia. }
  split; [done|]. unfold matches. rewrite E. destruct (Z.eqb_spec inum 0); [lia|]. unfold namecmp, de_name, new_entry, mk_dirent.
  change (drop 2 (bytes_of 2 inum ++ lstrncpy name DIRSIZ)) with (lstrncpy name DIRSIZ). by rewrite namecmp_lstrncpy.
Qed.

(** The slot dirlink() takes: the first empty entry, or the end. *)
Definition free_slot (data : list Z) (n : nat) : nat := default n (find (fun j => de_inum (dirent_at data j) =? 0) (seq 0 n)).

Lemma free_slot_le data n : (free_slot data n <= n)%nat.
Proof. unfold free_slot. pose proof (find_seq (fun j => de_inum (dirent_at data j) =? 0) n) as H. destruct (find _ _); cbn; lia. Qed.

(** An entry is replaced or appended. *)
Lemma dirent_at_put data n j0 de j : length data = (16 * n)%nat -> (j0 <= n)%nat -> length de = 16%nat ->
  dirent_at (put_bytes data (16 * Z.of_nat j0) de) j = if (j =? j0)%nat then de else dirent_at data j.
Proof.
  intros Hl Hj Hd. unfold dirent_at, put_bytes. replace (Z.to_nat (16 * Z.of_nat j0)) with (16 * j0)%nat by lia. rewrite Hd.
  assert (length (take (16 * j0) data) = 16 * j0)%nat as Lt by (rewrite length_take; lia). destruct (Nat.eqb_spec j j0) as [->|N].
  - rewrite drop_app_length' by lia. by rewrite take_app_length' by lia.
  - destruct (decide (j < j0)%nat).
    + rewrite drop_app_le, take_app_le by (rewrite ?length_drop; lia). rewrite skipn_firstn_comm, take_take. f_equal. lia.
    + rewrite drop_app_ge, drop_app_ge, drop_drop by lia. do 2 f_equal. lia.
Qed.

(** The name is found at the new entry when it was not there before. *)
Lemma link_found data n name inum : length data = (16 * n)%nat -> 0 < inum < 2 ^ 16 -> find (fun j => matches name (dirent_at data j)) (seq 0 n) = None ->
  let j0 := free_slot data n in let data' := put_bytes data (16 * Z.of_nat j0) (new_entry name inum) in
  find (fun j => matches name (dirent_at data' j)) (seq 0 (Nat.max n (S j0))) = Some j0 /\ de_inum (dirent_at data' j0) = inum /\
  forall j, j <> j0 -> dirent_at data' j = dirent_at data j.
Proof.
  intros Hl Hi Hn j0 data'. pose proof (free_slot_le data n) as Hj. fold j0 in Hj. destruct (new_entry_spec name inum Hi) as [E1 E2].
  assert (forall j, dirent_at data' j = if (j =? j0)%nat then new_entry name inum else dirent_at data j) as Ed by (intros j; by apply (dirent_at_put data n); [| |apply length_new_entry]).
  split; [|split; [by rewrite Ed, Nat.eqb_refl|intros j N; rewrite Ed; by apply Nat.eqb_neq in N as ->]].
  pose proof (find_seq (fun j => matches name (dirent_at data' j)) (Nat.max n (S j0))) as H.
  destruct (find (fun j => matches name (dirent_at data' j)) (seq 0 (Nat.max n (S j0)))) as [j|].
  - destruct H as [H1 H2]. rewrite Ed in H2. destruct (Nat.eqb_spec j j0) as [->|N]; [done|]. exfalso. assert (j < n)%nat as Hjn by lia.
    pose proof (find_none _ _ Hn j ltac:(apply in_seq; lia)) as X. cbv beta in X. congruence.
  - specialize (H j0 ltac:(lia)). rewrite Ed, Nat.eqb_refl in H. congruence.
Qed.

(** ** Reads in a transaction *)

Section DirWrite.
Variables (me : nat) (pid : Z).
Variable dev : Z.
Context {L : Layout} {D : Disk} {DL : DiskLaws me pid D}.
Variable fuel : nat.
#[local] Abbreviation does := (does me pid).
#[local] Abbreviation view := (view dev).
#[local] Abbreviation txn := (txn pid dev).

Lemma settled_txn s s1 : txn [] s -> k_log s1 = k_log s -> settled dev (pinned s) s1 -> txn [] s1.
Proof.
  intros T El S. assert (pinned s1 = pinned s) as Ep by (unfold pinned; by rewrite El).
  split; rewrite ?Ep, ?El; try apply T; [apply S| |intros i Hi; by apply (se_unlocked _ _ _ S)| |].
  - intros i Hi. cbn [has_one existsb Z.b2z]. destruct (has_one dev (pinned s) (bf s1 i)) eqn:E.
    + apply existsb_exists in E as (bn & Hp & Hc). apply list_elem_of_In in Hp. pose proof (settled_ref dev _ bn i s1 S Hi) as X.
      pose proof Hc as [Hh _]%caches_true. rewrite (X Hh). by rewrite decide_True.
    + destruct (se_ref _ _ _ S i Hi) as [->|(_ & bn & Hp & Hc)]; [done|]. by rewrite (has_one_in dev _ bn) in E.
  - intros bn. rewrite app_nil_r. intros Hp. destruct (se_pin _ _ _ S bn Hp) as (i & Hi & Hc & _). by exists i.
  - intros bn Hn. by apply (settled_clean dev _ bn s1 S).
Qed.

Lemma quiet_moved s s1 : txn [] s -> quiet dev (pinned s) s s1 -> moved_to pid dev [] s s1 (view s) [].
Proof.
  intros T [Q1 Q2 Q3]. assert (k_log s1 = k_log s) as El by (by rewrite Q2). assert (pinned s1 = pinned s) as Ep by (unfold pinned; by rewrite El).
  split; [by apply (settled_txn s)|done|rewrite Q2; by destruct s|by rewrite El|by intros ? ? ?%elem_of_nil|rewrite Ep; by left|by rewrite Ep].
Qed.

Lemma quiet_ready F i k s s1 : ready pid dev F i s -> budget F k s -> quiet dev (pinned s) s s1 ->
  ready pid dev F i s1 /\ stays dev i s s1 /\ budget F k s1 /\ ino s1 i = ino s i.
Proof.
  intros R B Q. pose proof (quiet_moved s s1 (rd_txn _ _ _ _ _ R) Q) as M. destruct (grow_none pid dev F i s s1 R M) as (R1 & S1 & E1 & _).
  split; [done|]. split; [done|]. split; [|done]. by eapply budget_same.
Qed.

(** The loop of dirlink() over the entries, from entry [j]. *)
Lemma empty_dirent_spec pins i n : forall k j s, settled dev pins s -> i_dev (ino s i) = dev -> file_sound (view s) (ino s i) -> i_size (ino s i) = 16 * Z.of_nat n -> (j + k = n)%nat ->
  let data := file_data (view s) (ino s i) in
  exists s1, does [] (empty_dirent fuel (S k) i (16 * Z.of_nat j)) s (16 * Z.of_nat (default n (find (fun j => de_inum (dirent_at data j) =? 0) (seq j k)))) [] s1 /\ quiet dev pins s s1.
Proof.
  induction k as [|k IH]; intros j s St Hd F Hs Hj data.
  - exists s. split; [|by apply quiet_refl]. cbn [seq find default]. eapply does_bind; [apply does_getino|]. destruct (Z.ltb_spec (16 * Z.of_nat j) (i_size (ino s i))); [lia|].
    replace n with j by lia. apply does_ret.
  - destruct (read_dirent_spec me pid dev fuel pins i j "dirlink read" s n St Hd F Hs ltac:(lia)) as (s1 & D1 & Q1). fold data in D1. set (de := dirent_at data j) in *.
    destruct (file_sound_quiet dev pins s s1 (ino s i) Q1 F) as [F1 Ed]. pose proof (quiet_ino dev pins s s1 i Q1) as Ei. cbn [seq find]. fold de.
    destruct (Z.eqb_spec (de_inum de) 0) as [E0|N0].
    + exists s1. split; [|done]. cbn [empty_dirent default]. eapply does_bind; [apply does_getino|]. destruct (Z.ltb_spec (16 * Z.of_nat j) (i_size (ino s i))); [|lia].
      eapply does_bind; [exact D1|]. rewrite E0. apply does_ret.
    + destruct (IH (S j) s1 (qu_settled _ _ _ _ Q1)) as (s2 & D2 & Q2); rewrite ?Ei; try done; [lia|]. rewrite Ei, Ed in D2. fold data in D2. exists s2. split; [|by eapply quiet_trans].
      cbn [empty_dirent]. eapply does_bind; [apply does_getino|]. destruct (Z.ltb_spec (16 * Z.of_nat j) (i_size (ino s i))); [|lia].
      eapply does_bind; [exact D1|]. destruct (Z.eqb_spec (de_inum de) 0); [done|]. replace (16 * Z.of_nat j + DIRENT) with (16 * Z.of_nat (S j)) by (unfold DIRENT; lia). exact D2.
Qed.

(** The two searches of dirlink(), for a name that is not there. *)
Lemma dirlink_search pins i n name s : settled dev pins s -> i_dev (ino s i) = dev -> i_type (ino s i) = T_DIR -> file_sound (view s) (ino s i) -> i_size (ino s i) = 16 * Z.of_nat n ->
  let data := file_data (view s) (ino s i) in find (fun j => matches name (dirent_at data j)) (seq 0 n) = None ->
  exists s1 s2, does [] (dirlookup fuel i name) s None [] s1 /\
    does [] (empty_dirent fuel (Z.to_nat (i_size (ino s1 i) / DIRENT) + 1) i 0) s1 (16 * Z.of_nat (free_slot data n)) [] s2 /\ quiet dev pins s s2.
Proof.
  intros St Hd Ht F Hs data Hn. assert (Z.to_nat (16 * Z.of_nat n / DIRENT) + 1 = S n)%nat as En by (unfold DIRENT; rewrite Z.mul_comm, Z.div_mul by lia; lia).
  destruct (dirlookup_loop_spec me pid dev fuel pins i name n n 0 s St Hd F Hs eq_refl) as (s1 & Q1 & D1).
  { intros j Hj Hm. fold data in Hm. pose proof (find_none _ _ Hn j ltac:(apply in_seq; lia)) as X. cbv beta in X. congruence. }
  fold data in D1. rewrite Hn in D1. pose proof (quiet_ino dev pins s s1 i Q1) as Ei. destruct (file_sound_quiet dev pins s s1 (ino s i) Q1 F) as [F1 Ed].
  destruct (empty_dirent_spec pins i n n 0 s1 (qu_settled _ _ _ _ Q1)) as (s2 & D2 & Q2); rewrite ?Ei; try done. rewrite Ei, Ed in D2. fold data in D2. exists s1, s2.
  split; [|split; [|by eapply quiet_trans]].
  - unfold dirlookup. eapply does_bind; [apply does_getino|]. rewrite Ht. cbn [Z.eqb negb T_DIR Pos.eqb]. rewrite Hs, En. exact D1.
  - rewrite Ei, Hs, En. exact D2.
Qed.

Lemma touches_entry j : (touches (16 * Z.of_nat j) 16 <= 1)%nat.
Proof. unfold touches, nblk. Z.div_mod_to_equations. lia. Qed.

(** What dirlink() has done: the entry is there, or the disk is full and the
    directory is as it was. *)
Definition linked (i n : nat) (name : list Z) (inum : Z) (s : kstate) (r : Z) (s' : kstate) : Prop :=
  let data := file_data (view s) (ino s i) in let j0 := free_slot data n in
  r = 0 /\ file_data (view s') (ino s' i) = put_bytes data (16 * Z.of_nat j0) (new_entry name inum) /\ i_size (ino s' i) = 16 * Z.of_nat (Nat.max n (S j0)) \/
  r = -1 /\ full (view s') (k_sb s) /\ file_data (view s') (ino s' i) = data /\ i_size (ino s' i) = 16 * Z.of_nat n.

Lemma wrote_linked i n name inum s s2 t s' F : ready pid dev F i s -> (forall bn, view s2 bn = view s bn) -> ino s2 i = ino s i -> k_sb s2 = k_sb s ->
  i_size (ino s i) = 16 * Z.of_nat n -> let j0 := free_slot (file_data (view s) (ino s i)) n in
  wrote_file dev i (new_entry name inum) (16 * Z.of_nat j0) 16 s2 t s' -> linked i n name inum s (if t =? 16 then 0 else -1) s'.
Proof.
  intros R V Ei Eb Hs j0 [H1 H2 H3 H4 H5 H6 H7 H8]. pose proof (free_slot_le (file_data (view s) (ino s i)) n) as Hj. fold j0 in Hj.
  assert (file_data (view s2) (ino s2 i) = file_data (view s) (ino s i)) as Ed.
  { rewrite Ei. unfold file_data, file_blocks. do 2 f_equal. apply map_ext. intros f. unfold iaddr. by rewrite !V. }
  rewrite Ed in H5. rewrite Ei, Hs in H3. rewrite Eb in H2. unfold linked. fold j0. destruct (Z.eqb_spec t 16) as [->|Nt]; [left|right].
  - split; [done|]. split; [|lia]. rewrite H5. f_equal. apply take_ge. by rewrite length_new_entry.
  - destruct (H2 ltac:(lia)) as [Fu Hm]. assert (t = 0) as ->.
    { destruct Hm as [|Hm]; [done|]. Z.div_mod_to_equations. lia. }
    split; [done|]. split; [done|]. split; [rewrite H5; apply put_bytes_nil|lia].
Qed.

Lemma dirlink_spec F i n name inum s : ready pid dev F i s -> budget F (1 + slack (ino s i)) s -> i_type (ino s i) = T_DIR -> i_size (ino s i) = 16 * Z.of_nat n ->
  find (fun j => matches name (dirent_at (file_data (view s) (ino s i)) j)) (seq 0 n) = None -> 16 * (Z.of_nat n + 1) <= 1024 * MAXFILE ->
  exists r s', does [] (dirlink fuel i name inum) s r [] s' /\ ready pid dev F i s' /\ stays dev i s s' /\ budget F 0 s' /\
    i_inum (ino s' i) = i_inum (ino s i) /\ stored (view s') (k_sb s) (ino s' i) /\ linked i n name inum s r s'.
Proof.
  intros R B Ht Hs Hn Hx. pose proof (rd_file _ _ _ _ _ R) as W. set (data := file_data (view s) (ino s i)) in *. set (j0 := free_slot data n). pose proof (free_slot_le data n) as Hj. fold j0 in Hj.
  destruct (dirlink_search (pinned s) i n name s (txn_settled pid dev F _ s (rd_txn _ _ _ _ _ R) B) (rd_dev _ _ _ _ _ R) Ht (wfile_sound _ _ _ W) Hs Hn) as (s1 & s2 & D1 & D2 & Q).
  fold data j0 in D2. destruct (quiet_ready F i _ s s2 R B Q) as (R2 & S2 & B2 & E2). pose proof (stays_sb _ _ _ _ S2) as Eb.
  destruct (writei_spec me pid dev fuel F i (new_entry name inum) (16 * Z.of_nat j0) 16 s2 R2) as (t & s3 & D3 & R3 & S3 & B3 & _ & Wf).
  { rewrite E2, Hs. lia. } { by rewrite length_new_entry. } { lia. } { rewrite E2. pose proof (touches_entry j0). unfold budget in *. lia. }
  assert (stays dev i s s3) as S by (by eapply stays_then). exists (if t =? 16 then 0 else -1), s3. split.
  { unfold dirlink. eapply does_bind; [exact D1|]. eapply does_bind; [apply does_getino|]. eapply does_bind; [exact D2|]. eapply does_bind; [exact D3|]. apply does_ret. }
  pose proof (wo_inode _ _ _ _ _ _ _ _ Wf) as Wi. assert (i_inum (ino s3 i) = i_inum (ino s i)) as Eu by (rewrite Wi, E2; done).
  split; [done|]. split; [done|]. split; [done|]. split; [done|]. split.
  - pose proof (rd_file _ _ _ _ _ R3) as W3. rewrite (stays_sb _ _ _ _ S) in W3. apply (stored_now _ _ _ (view s2 (IBLOCK (i_inum (ino s i)) (k_sb s))) W3); [apply (rd_file _ _ _ _ _ R2)|].
    rewrite Eu. pose proof (wo_disk _ _ _ _ _ _ _ _ Wf) as Dk. rewrite E2, Eb in Dk. exact Dk.
  - apply (wrote_linked i n name inum s s2 t s3 F R (qu_view _ _ _ _ Q) E2 Eb Hs Wf).
Qed.
End DirWrite.


