(* ===== verification/Itrunc.v ===== *)
(** * Freeing the blocks of a file (kernel/fs.c bfree(), itrunc()), what the code does

    itrunc() clears the bit of every block of the file, the indirect block
    last, and stores an empty inode: the blocks that become free are exactly
    the blocks of the file. *)

From S2P Require Import Prelude Riscv Memory Mkfs MkfsSpec KState KMonad Spinlock Kalloc Vm Proc ProcSpec SleepSpec Seq.
From S2P Require Import Printf PrintSpec Sleeplock Bio BioSpec Log BlockSpec LogSpec Crash Fs FsView FsSpec LogWrite Balloc FileShape FsWrite FsCrash.

(** ** Bits of the bitmap *)

Lemma bit_free_clear d b b' : 0 <= b < 8 * Z.of_nat (length d) -> 0 <= b' -> bit_free (bit_clear d b) b' = if b' =? b then true else bit_free d b'.
Proof.
  intros Hb Hb'. rewrite !bit_free_test. unfold bit_clear, bit_mask. pose proof (Z.mod_pos_bound b 8 ltac:(lia)). pose proof (Z.mod_pos_bound b' 8 ltac:(lia)).
  assert (0 <= b / 8 < Z.of_nat (length d)) by (split; [apply Z.div_pos|apply Z.div_lt_upper_bound]; lia). assert (0 <= b' / 8) by (apply Z.div_pos; lia).
  destruct (decide (b / 8 = b' / 8)) as [E|E].
  - rewrite <- E, znth_zupd_eq by done. unfold u8. rewrite Z.mod_pow2_bits_low, Z.land_spec, Z.lnot_spec, Z.shiftl_1_l, Z.pow2_bits_eqb by lia.
    destruct (Z.eqb_spec b' b) as [->|N]; [by rewrite Z.eqb_refl, andb_false_r|]. destruct (Z.eqb_spec (b mod 8) (b' mod 8)) as [Em|]; [|by rewrite andb_true_r].
    exfalso. apply N. rewrite (Z.div_mod b 8), (Z.div_mod b' 8) by lia. lia.
  - rewrite znth_zupd_ne by lia. destruct (Z.eqb_spec b' b) as [->|]; done.
Qed.

(** The disk after the blocks [X] have been freed. *)
Record freed (v v' : Z -> list Z) (sb : superblock) (X : Z -> Prop) : Prop := {
  fr_len bn : length (v' bn) = 1024%nat;
  fr_free y : 0 <= y < sb_size sb -> is_free v' sb y = true <-> is_free v sb y = true \/ X y;
  fr_keep bn : (forall b, 0 <= b < sb_size sb -> bn <> BBLOCK b sb) -> v' bn = v bn;
}.

Lemma with_free_spec v sb b y : 0 < sb_size sb < 2 ^ 32 -> (forall bn, length (v bn) = 1024%nat) -> 0 <= b < sb_size sb -> 0 <= y < sb_size sb ->
  is_free (with_free v sb b) sb y = (is_free v sb y || (y =? b))%bool.
Proof.
  intros Hs Hl Hb Hy. unfold is_free, with_free, upd. destruct (Z.eqb_spec (BBLOCK y sb) (BBLOCK b sb)) as [E|N].
  - pose proof (Z.mod_pos_bound b BPB ltac:(by rewrite BPB_eq)). pose proof (Z.mod_pos_bound y BPB ltac:(by rewrite BPB_eq)).
    rewrite bit_free_clear; [|rewrite Hl; rewrite BPB_eq in *; lia|lia]. rewrite (same_block y b sb) by (lia || done). rewrite E.
    destruct (y =? b); [by rewrite orb_true_r|by rewrite orb_false_r].
  - destruct (Z.eqb_spec y b) as [->|]; [done|]. by rewrite orb_false_r.
Qed.

Lemma freed_none v v' sb X : (forall bn, length (v bn) = 1024%nat) -> (forall bn, v' bn = v bn) -> (forall y, ~ X y) -> freed v v' sb X.
Proof. intros Hl E N. split; [intros bn; by rewrite E| |intros; apply E]. intros y Hy. unfold is_free. rewrite E. split; [by left|]. intros [|Hx]; [done|]. by destruct (N y). Qed.

Lemma freed_one v v1 v2 sb (X X' : Z -> Prop) b : 0 < sb_size sb < 2 ^ 32 -> freed v v1 sb X -> 0 <= b < sb_size sb -> (forall bn, v2 bn = with_free v1 sb b bn) ->
  (forall y, X' y <-> X y \/ y = b) -> freed v v2 sb X'.
Proof.
  intros Hs [F1 F2 F3] Hb E Hx. split.
  - intros bn. rewrite E. unfold with_free, upd. destruct (bn =? _); [unfold bit_clear; by rewrite length_zupd|done].
  - intros y Hy. assert (is_free v2 sb y = is_free (with_free v1 sb b) sb y) as -> by (unfold is_free; by rewrite E).
    rewrite with_free_spec, orb_true_iff, F2, Hx, Z.eqb_eq by done. tauto.
  - intros bn Hn. rewrite E. unfold with_free, upd. destruct (Z.eqb_spec bn (BBLOCK b sb)) as [->|]; [by destruct (Hn b Hb)|]. by apply F3.
Qed.

Lemma freed_ext v v' sb (X X' : Z -> Prop) : freed v v' sb X -> (forall y, X' y <-> X y) -> freed v v' sb X'.
Proof. intros [F1 F2 F3] H. split; try done. intros y Hy. by rewrite H, F2. Qed.

(** The blocks of the file below index [k]. *)
Definition below (v : Z -> list Z) (ip : inode) (k y : Z) : Prop := y <> 0 /\ exists f, 0 <= f < k /\ iaddr v ip f = y.

Lemma below_zero v ip k : 0 <= k -> iaddr v ip k = 0 -> forall y, below v ip (k + 1) y <-> below v ip k y.
Proof.
  intros Hk E y. unfold below. split; intros (N & f & Hf & Ef); (split; [done|]); exists f; (split; [|done]); [|lia]. destruct (decide (f = k)) as [->|]; [congruence|lia].
Qed.

Lemma below_next v ip k : 0 <= k -> iaddr v ip k <> 0 -> forall y, below v ip (k + 1) y <-> below v ip k y \/ y = iaddr v ip k.
Proof.
  intros Hk N y. unfold below. split.
  - intros (Ny & f & Hf & Ef). destruct (decide (f = k)) as [->|]; [by right|]. left. split; [done|]. exists f. split; [lia|done].
  - intros [(Ny & f & Hf & Ef)| ->]; [split; [done|]; exists f; split; [lia|done]|]. split; [done|]. exists k. split; [lia|done].
Qed.

(** The next block of the file is in use and was not freed before. *)
Lemma next_used v v' sb ip k : wfile v sb ip -> freed v v' sb (below v ip k) -> 0 <= k < MAXFILE -> iaddr v ip k <> 0 ->
  0 <= iaddr v ip k < sb_size sb /\ is_free v' sb (iaddr v ip k) = false.
Proof.
  intros W Fr Hk N. destruct (wf_own _ _ _ W _ (owns_addr v ip k Hk N)) as (R & U & _). split; [lia|]. apply not_true_is_false. intros H.
  apply (fr_free _ _ _ _ Fr) in H; [|lia]. destruct H as [|(_ & f & Hf & Ef)]; [congruence|]. assert (f = k) by (apply (wf_inj _ _ _ W); [lia|done|congruence|done]). lia.
Qed.

(** ** The file when it is empty *)

Definition emptied (ip : inode) : inode := set_i_size 0 (set_i_addrs (replicate 13 0) ip).

Lemma emptied_addr v ip f : 0 <= f < MAXFILE -> iaddr v (emptied ip) f = 0.
Proof.
  intros Hf. unfold iaddr. change (znth 0 (i_addrs (emptied ip)) NDIRECT) with 0. cbn [Z.eqb]. destruct (f <? NDIRECT); [|done].
  unfold znth. change (i_addrs (emptied ip)) with (replicate 13 0). rewrite nth_lookup. destruct (replicate 13 0 !! Z.to_nat f) eqn:E; [apply lookup_replicate in E as [-> _]|]; done.
Qed.

Lemma emptied_owns v ip a : ~ owns v (emptied ip) a.
Proof. intros [N [->|(f & Hf & E)]]; [done|]. rewrite emptied_addr in E by done. congruence. Qed.

(** What is not of the file stays in use. *)
Lemma freed_used v v' sb ip x : freed v v' sb (owns v ip) -> 0 <= x < sb_size sb -> is_free v sb x = false -> ~ owns v ip x -> is_free v' sb x = false.
Proof. intros F Hx U N. apply not_true_is_false. intros [|]%(fr_free _ _ _ _ F); [congruence|done|done]. Qed.

Lemma emptied_wfile v v' sb ip : wfile v sb ip -> freed v v' sb (owns v ip) -> wfile v' sb (emptied ip).
Proof.
  intros W F. pose proof W as [W1 W2 W3 W4 W5 W6 W7 W8 W9 W10 W11 W12]. split; try done.
  - apply F.
  - intros b Hb. destruct (W5 b Hb) as [R U]. split; [done|]. apply (freed_used v v' sb ip); [done|done|done|]. intros Ho. destruct (W9 _ Ho) as (_ & _ & _ & N). by apply (N b Hb).
  - destruct W6 as [R U]. split; [done|]. apply (freed_used v v' sb ip); [done|done|done|]. intros Ho. by destruct (W9 _ Ho) as (_ & _ & N & _).
  - apply (freed_used v v' sb ip); [done|lia|done|]. by intros [N _].
  - by intros a ?%emptied_owns.
  - intros f g Hf Hg. by rewrite emptied_addr.
  - intros f Hf. change (nblk (i_size (emptied ip))) with 0 in Hf. lia.
Qed.

Lemma freed_apart v v' sb ip x : freed v v' sb (owns v ip) -> apart v sb ip x -> v' x = v x /\ apart v' sb (emptied ip) x.
Proof.
  intros F (A1 & A2 & A3 & A4). split; [by apply F|]. split; [intros Hx; apply (freed_used v v' sb ip); auto|]. split; [apply emptied_owns|done].
Qed.

(** All blocks below the last index, and the indirect block, are all there are. *)
Lemma owns_below v ip y : owns v ip y <-> below v ip MAXFILE y \/ (ind ip <> 0 /\ y = ind ip).
Proof.
  unfold owns, below. split.
  - intros [N [->|H]]; [by right|by left].
  - intros [[N H]|[N ->]]; (split; [done|]); [by right|by left].
Qed.

Lemma below_direct v ip y : ind ip = 0 -> owns v ip y <-> below v ip NDIRECT y.
Proof.
  intros E. rewrite owns_below. unfold below. split.
  - intros [(N & f & Hf & Ef)|[N _]]; [|done]. split; [done|]. exists f. split; [|done]. destruct (Z.ltb_spec f NDIRECT) as [|H]; [lia|]. exfalso. apply N. rewrite <- Ef.
    unfold iaddr. destruct (Z.ltb_spec f NDIRECT); [lia|]. fold (ind ip). by rewrite E.
  - intros (N & f & Hf & Ef). left. split; [done|]. exists f. split; [|done]. rewrite MAXFILE_split. change NINDIRECT with 256. lia.
Qed.

(** Zeroing the addresses one by one. *)
Lemma zeroed_nth (l : list Z) k : nth k (replicate k 0 ++ drop k l) 0 = nth k l 0.
Proof. rewrite app_nth2 by (rewrite length_replicate; lia). rewrite length_replicate, Nat.sub_diag. rewrite !nth_lookup, lookup_drop. by rewrite Nat.add_0_r. Qed.

Lemma zeroed_step (l : list Z) k : (k < length l)%nat -> <[k := 0]> (replicate k 0 ++ drop k l) = replicate (S k) 0 ++ drop (S k) l.
Proof.
  intros Hk. destruct (lookup_lt_is_Some_2 l k Hk) as [x Ex]. rewrite (drop_S l x k Ex). rewrite insert_app_r_alt by (rewrite length_replicate; lia).
  rewrite length_replicate, Nat.sub_diag. cbn [insert list_insert]. rewrite replicate_S_end, <- app_assoc. done.
Qed.

Lemma zeroed_same (l : list Z) k : (k < length l)%nat -> nth k l 0 = 0 -> replicate k 0 ++ drop k l = replicate (S k) 0 ++ drop (S k) l.
Proof.
  intros Hk E. rewrite <- zeroed_step by done. symmetry. apply list_insert_id. rewrite lookup_app_r by (rewrite length_replicate; lia). rewrite length_replicate, Nat.sub_diag, lookup_drop, Nat.add_0_r.
  destruct (lookup_lt_is_Some_2 l k Hk) as [x Ex]. rewrite nth_lookup, Ex in E. cbn in E. by rewrite Ex, E.
Qed.

(** ** bfree() and itrunc() *)

Section Itrunc.
Variables (me : nat) (pid : Z).
Variable dev : Z.
Context {L : Layout} {D : Disk} {DL : DiskLaws me pid D}.
Variable fuel : nat.
#[local] Abbreviation does := (does me pid).
#[local] Abbreviation view := (view dev).
#[local] Abbreviation txn := (txn pid dev).
#[local] Abbreviation moved_to := (moved_to pid dev).

Definition bitmap (sb : superblock) (x : Z) : Prop := exists b, 0 <= b < sb_size sb /\ x = BBLOCK b sb.

Lemma bfree_spec hs s b : txn hs s -> (BBLOCK b (k_sb s) ∉ hs) -> room hs s -> lh_n (k_log s) < LOGBLOCKS -> is_free (view s) (k_sb s) b = false ->
  exists s', does [] (bfree fuel dev b) s tt [] s' /\ moved_to hs s s' (with_free (view s) (k_sb s) b) [BBLOCK b (k_sb s)].
Proof.
  intros T N Hr Hn U. destruct (txn_update me pid dev fuel hs s (BBLOCK b (k_sb s)) T N (or_intror Hr) (BBLOCK_range _ _) Hn) as (bp & s1 & D1 & E1 & B1 & K).
  destruct (K (bit_clear (view s (BBLOCK b (k_sb s))) (b mod BPB))) as (s2 & s3 & D2 & D3 & M & _). exists s3. split; [|done]. unfold bfree.
  eapply does_bind; [unfold getsb; apply does_gets; reflexivity|]. eapply does_bind; [exact D1|]. cbv zeta. eapply does_bind; [apply does_getbuf|]. rewrite E1.
  unfold is_free in U. rewrite U. eapply does_bind; [apply does_updbuf|]. cbv beta. rewrite E1. eapply does_bind; [exact D2|exact D3].
Qed.

(** The state while the blocks are freed: only the bitmap has been logged. *)
Record evolves (i : nat) (s s' : kstate) : Prop := {
  ev_txn : txn [] s';
  ev_frame : s' = set_k_itable (<[i := ino s' i]> (k_itable s)) (set_k_out (k_out s') (set_k_log (k_log s') (set_k_bufs (k_bufs s') s)));
  ev_log : same_log (k_log s) (k_log s');
  ev_pins x : x ∈ pinned s -> x ∈ pinned s';
  ev_new x : x ∈ pinned s' -> x ∈ pinned s \/ bitmap (k_sb s) x;
}.

Lemma evolves_refl i s : txn [] s -> (i < length (k_itable s))%nat -> evolves i s s.
Proof. intros T Hi. split; [done|apply (st_frame dev _ _ _ (stays_refl dev i s Hi))|done|done|by left]. Qed.

Lemma evolves_idx i s s' : evolves i s s' -> k_sb s' = k_sb s /\ length (k_itable s') = length (k_itable s).
Proof. intros E. rewrite (ev_frame _ _ _ E). cbn [k_sb k_itable set_k_itable]. by rewrite length_insert. Qed.

Lemma evolves_step i s s1 s2 v T ip' : (i < length (k_itable s))%nat -> evolves i s s1 -> moved_to [] s1 s2 v T -> (forall x, x ∈ T -> bitmap (k_sb s) x) -> evolves i s (setino i ip' s2).
Proof.
  intros Hi E M HT. destruct (evolves_idx _ _ _ E) as [Es El]. destruct (moved_ino pid dev i _ _ _ _ _ M) as [Et _]. assert (ino (setino i ip' s2) i = ip') as Ei by (rewrite ino_setino, Nat.eqb_refl; [done|by rewrite Et, El]).
  destruct E as [E1 E2 E3 E4 E5]. split; [apply txn_setino, M| |eapply same_log_trans; [exact E3|apply M]|intros x Hx; change (x ∈ pinned s2); by apply M, E4|].
  - rewrite Ei. unfold setino. rewrite Et. rewrite (mt_frame _ _ _ _ _ _ _ M) at 1. rewrite E2. cbn [k_itable set_k_itable set_k_out set_k_log set_k_bufs]. rewrite list_insert_insert_eq. done.
  - intros x Hx. change (x ∈ pinned s2) in Hx. apply (mt_pins _ _ _ _ _ _ _ M) in Hx as [Hx|Hx]; [auto|right; auto].
Qed.

Lemma evolves_budget F k i s s' : evolves i s s' -> (forall b, 0 <= b < sb_size (k_sb s) -> BBLOCK b (k_sb s) ∈ F) -> budget F k s -> budget F k s'.
Proof.
  intros E HF B. apply (budget_in F k s s' (pinned s') B); [by right|]. intros x [|(b & Hb & ->)]%(ev_new _ _ _ E); [by right|left; auto].
Qed.

(** After the direct blocks below [k]. *)
Record cut (i : nat) (s : kstate) (k : nat) (s' : kstate) : Prop := {
  ct_ev : evolves i s s';
  ct_freed : freed (view s) (view s') (k_sb s) (below (view s) (ino s i) (Z.of_nat k));
  ct_ino : ino s' i = set_i_addrs (replicate k 0 ++ drop k (i_addrs (ino s i))) (ino s i);
}.

Lemma itrunc_direct_spec F i s j k s' : ready pid dev F i s -> budget F k s -> (j < 12)%nat -> cut i s j s' ->
  exists s'', does [] (itrunc_direct fuel i j) s' tt [] s'' /\ cut i s (S j) s''.
Proof.
  intros R B Hj [E Fr Ei]. pose proof (rd_file _ _ _ _ _ R) as W. pose proof (wf_addrs _ _ _ W) as Hl. destruct (evolves_idx _ _ _ E) as [Es El]. pose proof (rd_idx _ _ _ _ _ R) as Hi.
  set (ip := ino s i) in *. assert (nth j (i_addrs ip) 0 = iaddr (view s) ip (Z.of_nat j)) as Ea.
  { unfold iaddr. destruct (Z.ltb_spec (Z.of_nat j) NDIRECT); [|unfold NDIRECT in *; lia]. unfold znth. by rewrite Nat2Z.id. }
  assert (nth j (i_addrs (ino s' i)) 0 = iaddr (view s) ip (Z.of_nat j)) as Ea' by (rewrite Ei; cbn [i_addrs set_i_addrs]; by rewrite zeroed_nth).
  assert (Z.of_nat (S j) = Z.of_nat j + 1) as Ez by lia. destruct (Z.eqb_spec (iaddr (view s) ip (Z.of_nat j)) 0) as [E0|N0].
  - exists s'. split; [|split; [done| |]].
    + unfold itrunc_direct. eapply does_bind; [apply does_getino|]. cbv zeta. rewrite Ea', E0. apply does_ret.
    + rewrite Ez. eapply freed_ext; [exact Fr|]. intros y. apply below_zero; [lia|done].
    + rewrite Ei. fold ip. f_equal. apply zeroed_same; [lia|]. congruence.
  - set (a := iaddr (view s) ip (Z.of_nat j)) in *. destruct (next_used _ _ _ _ _ W Fr ltac:(change MAXFILE with 268; lia) N0) as [Ra Ua]. fold a in Ra, Ua.
    pose proof (evolves_budget F k i s s' E (rd_map _ _ _ _ _ R) B) as B'.
    destruct (bfree_spec [] s' a (ev_txn _ _ _ E) (not_elem_of_nil _) (budget_room F k [] s' B' ltac:(by intros ? ?%elem_of_nil)) (budget_log pid dev F k [] s' (ev_txn _ _ _ E) B')) as (s1 & D1 & M); [by rewrite Es|].
    rewrite Es in M. destruct (moved_ino pid dev i _ _ _ _ _ M) as [Et Ei1]. set (ip' := set_i_addrs (<[j := 0]> (i_addrs (ino s' i))) (ino s' i)). exists (setino i ip' s1). split.
    + unfold itrunc_direct. eapply does_bind; [apply does_getino|]. cbv zeta. rewrite Ea'. fold a. destruct (Z.eqb_spec a 0); [done|]. cbn [negb kwhen].
      eapply does_bind; [|eapply LogWrite.does_eq; [apply does_updino|unfold ip'; by rewrite Ei1]]. assert (i_dev (ino s' i) = dev) as -> by (rewrite Ei; apply (rd_dev _ _ _ _ _ R)). exact D1.
    + split.
      * apply (evolves_step i s s' s1 _ _ ip' Hi E M). intros x ->%list_elem_of_singleton. by exists a.
      * rewrite Ez. apply (freed_one (view s) (view s') _ _ _ _ a (wf_sb _ _ _ W) Fr Ra); [apply M|]. intros y. by apply below_next; [lia|].
      * rewrite ino_setino, Nat.eqb_refl by (by rewrite Et, El). unfold ip'. rewrite Ei. cbn [i_addrs set_i_addrs]. rewrite zeroed_step by lia. done.
Qed.

(** Some list of the bitmap blocks. *)
Definition all_bitmap (sb : superblock) (T : list Z) : Prop := forall x, x ∈ T <-> bitmap sb x.

Lemma bitmap_list sb : exists T, all_bitmap sb T.
Proof.
  exists (map (fun b => BBLOCK (Z.of_nat b) sb) (seq 0 (Z.to_nat (sb_size sb)))). intros x. rewrite list_elem_of_fmap. unfold bitmap. split.
  - intros (b & -> & Hb%elem_of_seq). exists (Z.of_nat b). split; [lia|done].
  - intros (b & Hb & ->). exists (Z.to_nat b). rewrite Z2Nat.id by lia. split; [done|]. apply elem_of_seq. lia.
Qed.

(** The words of the indirect block, which is held in buffer [bp]. *)
Lemma free_words F i s k s2 bp T : ready pid dev F i s -> ind (ino s i) <> 0 -> let ib := ind (ino s i) in
  txn [ib] s2 -> buf_of dev ib bp s2 -> budget F k s2 -> (ib ∈ F \/ ib ∈ pinned s2) -> k_sb s2 = k_sb s -> all_bitmap (k_sb s) T ->
  freed (view s) (view s2) (k_sb s) (below (view s) (ino s i) NDIRECT) ->
  exists s3 v', does [] (kfor (seq 0 (Z.to_nat NINDIRECT)) (fun j =>
       x ← getbuf bp;
       let a := get_word x.(b_data) (4 * Z.of_nat j) in
       kwhen (negb (a =? 0)) (bfree fuel dev a))) s2 tt [] s3 /\
    moved_to [ib] s2 s3 v' T /\ freed (view s) v' (k_sb s) (below (view s) (ino s i) MAXFILE).
Proof.
  intros R N0 ib Tx Hb B Hh Es HT Fr. pose proof (rd_file _ _ _ _ _ R) as W. set (ip := ino s i) in *. set (v := view s) in *. set (sb := k_sb s) in *.
  destruct (wf_own _ _ _ W ib (owns_ind _ _ N0)) as (_ & _ & _ & Nm). change (Z.to_nat NINDIRECT) with 256%nat.
  destruct (does_kfor me pid (fun j s' => exists v', moved_to [ib] s2 s' v' T /\ freed v v' sb (below v ip (NDIRECT + Z.of_nat j))) []
    (fun j => x ← getbuf bp; let a := get_word x.(b_data) (4 * Z.of_nat j) in kwhen (negb (a =? 0)) (bfree fuel dev a)) 256 0 s2) as (s3 & D3 & v' & M3 & F3).
  - intros j s' Hj (v' & M & F'). pose proof (mt_bufs _ _ _ _ _ _ _ M ib bp (list_elem_of_here _ _) Hb) as Hb'. pose proof (mt_txn _ _ _ _ _ _ _ M) as T'.
    assert (k_sb s' = sb) as Es' by (rewrite (mt_frame _ _ _ _ _ _ _ M); exact Es).
    assert (b_data (bf s' bp) = v ib) as Ed.
    { rewrite <- (view_hit dev s' bp ib (tn_ok _ _ _ _ T') (proj1 Hb') (proj2 Hb')), (mt_view _ _ _ _ _ _ _ M). apply F'. intros b Hbr E. by apply (Nm b). }
    assert (get_word (v ib) (4 * Z.of_nat j) = iaddr v ip (NDIRECT + Z.of_nat j)) as Ew.
    { unfold iaddr. fold (ind ip). fold ib. destruct (Z.ltb_spec (NDIRECT + Z.of_nat j) NDIRECT); [lia|]. destruct (Z.eqb_spec ib 0); [done|]. do 2 f_equal. lia. }
    assert (NDIRECT + Z.of_nat (S j) = NDIRECT + Z.of_nat j + 1) as Ez by lia. assert (0 <= NDIRECT + Z.of_nat j < MAXFILE) as Hm by (rewrite MAXFILE_split; change NINDIRECT with 256; change NDIRECT with 12; lia).
    destruct (Z.eqb_spec (iaddr v ip (NDIRECT + Z.of_nat j)) 0) as [E0|Na].
    + exists s'. split; [eapply does_bind; [apply does_getbuf|]; cbv zeta; rewrite Ed, Ew, E0; apply does_ret|]. exists v'. split; [done|]. rewrite Ez.
      eapply freed_ext; [exact F'|]. intros y. apply below_zero; [lia|done].
    + set (a := iaddr v ip (NDIRECT + Z.of_nat j)) in *. destruct (next_used _ _ _ _ _ W F' Hm Na) as [Ra Ua]. fold a in Ra, Ua.
      assert (budget F k s') as B'.
      { apply (budget_in F k s2 s' T B (mt_pins _ _ _ _ _ _ _ M)). intros x (b & Hbr & ->)%HT. left. by apply (rd_map _ _ _ _ _ R). }
      destruct (bfree_spec [ib] s' a T') as (s1 & D1 & M1); rewrite ?Es'.
      { intros E%list_elem_of_singleton. by apply (Nm a Ra). }
      { apply (budget_room F k [ib] s' B'). intros h ->%list_elem_of_singleton. destruct Hh as [|Hh]; [by left|right; by apply M]. }
      { exact (budget_log pid dev F k [ib] s' T' B'). }
      { unfold is_free in *. by rewrite (mt_view _ _ _ _ _ _ _ M). }
      rewrite Es' in M1. exists s1. split; [eapply does_bind; [apply does_getbuf|]; cbv zeta; rewrite Ed, Ew; fold a; destruct (Z.eqb_spec a 0); [done|]; exact D1|].
      exists (with_free (view s') sb a). split.
      * eapply moved_weaken; [exact (moved_seq _ _ _ _ _ _ _ _ _ _ M M1)|]. intros x [Hx|Hx]%elem_of_app; [done|]. apply list_elem_of_singleton in Hx as ->. apply HT. by exists a.
      * rewrite Ez. apply (freed_one v v' _ _ _ _ a (wf_sb _ _ _ W) F' Ra); [|intros y; by apply below_next; [lia|]].
        intros bn. unfold with_free, upd. by rewrite !(mt_view _ _ _ _ _ _ _ M).
  - exists (view s2). split; [|rewrite Z.add_0_r; done]. eapply moved_weaken; [by apply moved_same|]. by intros x ?%elem_of_nil.
  - exists s3, v'. split; [exact D3|]. split; [done|]. exact F3.
Qed.

(** After all blocks. *)
Record cut_all (i : nat) (s s' : kstate) : Prop := {
  ca_ev : evolves i s s';
  ca_freed : freed (view s) (view s') (k_sb s) (owns (view s) (ino s i));
  ca_ino : ino s' i = set_i_addrs (replicate 13 0) (ino s i);
}.

Lemma itrunc_ind_spec F i s k s1 : ready pid dev F i s -> budget F k s -> cut i s 12 s1 ->
  exists s2, does [] (kwhen (negb (znth 0 (i_addrs (ino s1 i)) NDIRECT =? 0))
    (bp ← bread fuel (i_dev (ino s1 i)) (znth 0 (i_addrs (ino s1 i)) NDIRECT);
     kfor (seq 0 (Z.to_nat NINDIRECT)) (fun j =>
       x ← getbuf bp;
       let a := get_word x.(b_data) (4 * Z.of_nat j) in
       kwhen (negb (a =? 0)) (bfree fuel (i_dev (ino s1 i)) a)) ;;
     brelse bp ;;
     bfree fuel (i_dev (ino s1 i)) (znth 0 (i_addrs (ino s1 i)) NDIRECT) ;;
     updino i (fun ip => set_i_addrs (zupd ip.(i_addrs) NDIRECT 0) ip))) s1 tt [] s2 /\ cut_all i s s2.
Proof.
  intros R B [E Fr Ei]. pose proof (rd_file _ _ _ _ _ R) as W. pose proof (wf_addrs _ _ _ W) as Hl. destruct (evolves_idx _ _ _ E) as [Es El]. pose proof (rd_idx _ _ _ _ _ R) as Hi.
  assert (i_dev (ino s1 i) = dev) as Hd by (rewrite Ei; apply (rd_dev _ _ _ _ _ R)). assert (znth 0 (i_addrs (ino s1 i)) NDIRECT = ind (ino s i)) as Eind by (rewrite Ei; unfold znth; cbn [i_addrs set_i_addrs]; apply zeroed_nth).
  rewrite Hd, Eind. pose proof (evolves_budget F k i s s1 E (rd_map _ _ _ _ _ R) B) as B1. set (ip := ino s i) in *. set (ib := ind ip) in *.
  destruct (Z.eqb_spec ib 0) as [E0|N0].
  - exists s1. split; [apply does_ret|]. split; [done|eapply freed_ext; [exact Fr|]; intros y; by apply below_direct|]. rewrite Ei. fold ip. f_equal. rewrite (zeroed_same (i_addrs ip) 12); [|lia|exact E0].
    by rewrite drop_ge, app_nil_r by lia.
  - destruct (wf_own _ _ _ W ib (owns_ind _ _ N0)) as (Ri & Ui & _ & Nm). destruct (bitmap_list (k_sb s)) as [T HT].
    destruct (txn_read me pid dev fuel [] s1 ib (ev_txn _ _ _ E) (not_elem_of_nil _)) as (bp & s2 & D2 & T2 & E2 & V2 & Hb & _ & _).
    { right. exact (budget_room F k [] s1 B1 ltac:(by intros ? ?%elem_of_nil)). }
    assert (pinned s2 = pinned s1 /\ k_sb s2 = k_sb s) as [P2 Es2] by (unfold pinned; rewrite E2; done).
    destruct (free_words F i s k s2 bp T R N0 T2 Hb) as (s3 & v3 & D3 & M3 & F3); try done.
    { unfold budget. by rewrite P2. } { destruct (rd_ind _ _ _ _ _ R N0) as [|Hp]; [by left|right; rewrite P2; by apply E]. }
    { destruct Fr as [F1 F2 F3]. split; [intros bn; rewrite V2; done|intros y Hy; unfold is_free; rewrite V2; by apply F2|intros bn Hn; rewrite V2; by apply F3]. }
    fold ip in F3. fold ib in M3. destruct (held_moved me pid dev ib bp s1 s2 s3 v3 T E2 M3 (mt_bufs _ _ _ _ _ _ _ M3 ib bp (list_elem_of_here _ _) Hb)) as (s4 & D4 & M4 & _).
    assert (evolves i s s4) as E4.
    { destruct (moved_ino pid dev i _ _ _ _ _ M4) as [Et4 Ei4]. pose proof (evolves_step i s s1 s4 v3 T (ino s4 i) Hi E M4 ltac:(intros x; by apply HT)) as X.
      assert (i < length (k_itable s4))%nat as H4 by (by rewrite Et4, El). by rewrite (setino_id dev i s4 H4) in X. }
    destruct (evolves_idx _ _ _ E4) as [Es4 El4]. pose proof (evolves_budget F k i s s4 E4 (rd_map _ _ _ _ _ R) B) as B4. pose proof (mt_view _ _ _ _ _ _ _ M4) as V4.
    assert (freed (view s) (view s4) (k_sb s) (below (view s) ip MAXFILE)) as F4.
    { destruct F3 as [F1 F2 F5]. split; [intros bn; rewrite V4; done|intros y Hy; unfold is_free; rewrite V4; by apply F2|intros bn Hn; rewrite V4; by apply F5]. }
    destruct (bfree_spec [] s4 ib (ev_txn _ _ _ E4) (not_elem_of_nil _) (budget_room F k [] s4 B4 ltac:(by intros ? ?%elem_of_nil)) (budget_log pid dev F k [] s4 (ev_txn _ _ _ E4) B4)) as (s5 & D5 & M5).
    { rewrite Es4. apply not_true_is_false. intros H. apply (fr_free _ _ _ _ F4) in H; [|lia]. destruct H as [|(_ & f & Hf & Ef)]; [congruence|]. by apply (wf_ind _ _ _ W f Hf N0). }
    rewrite Es4 in M5. destruct (moved_ino pid dev i _ _ _ _ _ M5) as [Et5 Ei5]. assert (ino s4 i = ino s1 i) as Ei4 by (by destruct (moved_ino pid dev i _ _ _ _ _ M4)).
    set (ip' := set_i_addrs (zupd (i_addrs (ino s5 i)) NDIRECT 0) (ino s5 i)). exists (setino i ip' s5). split.
    + cbn [negb kwhen]. eapply does_bind; [exact D2|]. eapply does_bind; [exact D3|]. eapply does_bind; [exact D4|]. eapply does_bind; [exact D5|]. apply does_updino.
    + split.
      * apply (evolves_step i s s4 s5 _ _ ip' Hi E4 M5). intros x ->%list_elem_of_singleton. exists ib. split; [lia|done].
      * apply (freed_one (view s) (view s4) _ _ (below (view s) ip MAXFILE) _ ib (wf_sb _ _ _ W) F4 ltac:(lia)); [apply M5|]. intros y. fold ip. rewrite owns_below. fold ib. tauto.
      * rewrite ino_setino, Nat.eqb_refl by (by rewrite Et5, El4). unfold ip'. rewrite Ei5, Ei4, Ei. cbn [i_addrs set_i_addrs]. unfold zupd. change (Z.to_nat NDIRECT) with 12%nat. rewrite zeroed_step by lia.
        fold ip. rewrite drop_ge by lia. rewrite app_nil_r. done.
Qed.

(** itrunc() empties the file. *)
Lemma itrunc_spec F i s k : ready pid dev F i s -> budget F k s ->
  exists s', does [] (itrunc fuel i) s tt [] s' /\ ready pid dev F i s' /\ stays dev i s s' /\ budget F k s' /\ ino s' i = emptied (ino s i) /\ stored (view s') (k_sb s) (ino s' i) /\
    forall y, 0 <= y < sb_size (k_sb s) -> is_free (view s') (k_sb s) y = true <-> is_free (view s) (k_sb s) y = true \/ owns (view s) (ino s i) y.
Proof.
  intros R B. pose proof (rd_file _ _ _ _ _ R) as W. pose proof (rd_idx _ _ _ _ _ R) as Hi. set (ip := ino s i).
  destruct (does_kfor me pid (cut i s) [] (itrunc_direct fuel i) 12 0 s) as (s1 & D1 & C1).
  { intros j s' Hj. apply (itrunc_direct_spec F i s j k s' R B). lia. }
  { split; [apply evolves_refl; [apply R|done]|apply freed_none; [apply W|done|intros y (_ & f & Hf & _); lia]|by destruct (ino s i)]. }
  destruct (itrunc_ind_spec F i s k s1 R B C1) as (s2 & D2 & [E2 F2 I2]). destruct (evolves_idx _ _ _ E2) as [Es2 El2]. fold ip in I2.
  set (s3 := setino i (emptied ip) s2). assert (ino s3 i = emptied ip) as I3 by (unfold s3; by rewrite ino_setino, Nat.eqb_refl by (by rewrite El2)).
  assert (evolves i s s3) as E3 by (apply (evolves_step i s s2 s2 (view s2) [] (emptied ip) Hi E2); [apply moved_same, E2|by intros x ?%elem_of_nil]).
  assert (stays dev i s s3) as S3.
  { split; [apply E3|apply E3|apply E3|]. rewrite I3. intros x P. destruct (freed_apart _ _ _ _ x F2 P) as [Ev P']. split; [exact Ev|]. split; [exact P'|].
    intros [|(b & Hb & ->)]%(ev_new _ _ _ E3); [done|]. destruct P as (_ & _ & N & _). by destruct (N b Hb). }
  assert (wfile (view s3) (k_sb s) (emptied ip)) as W3 by exact (emptied_wfile _ _ _ _ W F2).
  assert (ready pid dev F i s3) as R3 by (apply (ready_next pid dev F i s); rewrite ?I3; try done; apply E3).
  destruct (iupdate_spec me pid dev fuel F i k s3 R3) as (s4 & D4 & R4 & S4 & I4 & B4 & _ & V4).
  { exact (evolves_budget F k i s s3 E3 (rd_map _ _ _ _ _ R) B). }
  rewrite I3 in I4, V4. change (k_sb s3) with (k_sb s2) in V4. rewrite Es2 in V4. destruct (ino_stored _ _ _ _ W3 V4) as (W4 & _ & Ef & _).
  exists s4. split; [|split; [done|split; [by eapply stays_then|split; [done|split; [done|split]]]]].
  - unfold itrunc. eapply does_bind; [exact D1|]. eapply does_bind; [apply does_getino|]. cbv zeta. eapply does_bind; [exact D2|]. eapply does_bind; [|exact D4].
    eapply LogWrite.does_eq; [apply does_updino|]. unfold s3. by rewrite I2.
  - rewrite I4. apply (stored_now _ _ _ (view s3 (IBLOCK (i_inum (emptied ip)) (k_sb s))) W4); [apply W3|]. rewrite V4. unfold upd. by rewrite Z.eqb_refl.
  - intros y Hy. rewrite Ef by done. by apply (fr_free _ _ _ _ F2).
Qed.
End Itrunc.


