(* ===== verification/FileApi.v ===== *)
(** * A file as a sequence of bytes (kernel/fs.c with kernel/log.c)

    The promise of the write side of the file system: a file is a list of
    bytes, the operations on it are write and truncate, each in a transaction
    of its own, and after a crash the file is what it was between two
    operations.  [after] is the abstract operation; [history] is the list of
    the contents a sequence of operations goes through. *)

From S2P Require Import Prelude Riscv Memory Mkfs MkfsSpec KState KMonad Spinlock Kalloc Vm Proc ProcSpec SleepSpec Seq.
From S2P Require Import Printf PrintSpec Sleeplock Bio BioSpec Log BlockSpec LogSpec Crash Fs FsView FsSpec LogWrite Balloc FileShape FsWrite FsCrash Itrunc.

(** ** The abstract file *)

Inductive fop := FWrite (off : Z) (src : list Z) | FTrunc.

Definition size_of (bs : list Z) : Z := Z.of_nat (length bs).

(** A write that writei() accepts: not past the end, not too large. *)
Definition accepts (data : list Z) (off : Z) (src : list Z) : bool := ((off <=? size_of data) && (off + size_of src <=? 1024 * MAXFILE))%bool.

(** The file after an operation that returned [r]. *)
Definition after (data : list Z) (op : fop) (r : Z) : list Z :=
  match op with
  | FWrite off src => if accepts data off src then put_bytes data off (take (Z.to_nat r) src) else data
  | FTrunc => []
  end.

(** What an operation may return: the number of bytes written, -1 when the
    write is refused. *)
Definition returns (data : list Z) (op : fop) (r : Z) : Prop :=
  match op with
  | FWrite off src => if accepts data off src then 0 <= r <= size_of src else r = -1
  | FTrunc => r = 0
  end.

Fixpoint history (data : list Z) (ops : list fop) (rs : list Z) : list (list Z) :=
  match ops, rs with
  | op :: ops', r :: rs' => data :: history (after data op r) ops' rs'
  | _, _ => [data]
  end.

Fixpoint all_return (data : list Z) (ops : list fop) (rs : list Z) : Prop :=
  match ops, rs with
  | op :: ops', r :: rs' => returns data op r /\ all_return (after data op r) ops' rs'
  | [], [] => True
  | _, _ => False
  end.

Lemma history_head data ops rs : exists h, history data ops rs = data :: h.
Proof. destruct ops, rs; eexists; reflexivity. Qed.

Section FileApi.
Variables (me : nat) (pid : Z).
Variable dev : Z.
Context {L : Layout} {D : Disk} {DL : DiskLaws me pid D}.
Variable fuel : nat.
#[local] Abbreviation does := (does me pid).
#[local] Abbreviation view := (view dev).

(** ** The operations of the kernel *)

Definition run_op (i : nat) (op : fop) : K Z :=
  in_txn fuel
    match op with
    | FWrite off src => writei fuel i (Local src) off (size_of src)
    | FTrunc => itrunc fuel i ;; mret 0
    end.

Fixpoint run_ops (i : nat) (ops : list fop) : K (list Z) :=
  match ops with
  | [] => mret []
  | op :: ops' => r ← run_op i op; rs ← run_ops i ops'; mret (r :: rs)
  end.

(** The offset and the length are unsigned ints, and the log has room. *)
Definition op_fits (sb : superblock) (op : fop) : Prop :=
  match op with
  | FWrite off src => 0 <= off < 2 ^ 32 /\ size_of src < 2 ^ 32 /\ fits sb (touches off (size_of src))
  | FTrunc => fits sb 0
  end.

(** writei() refuses. *)
Lemma writei_refused i src off s : 0 <= off < 2 ^ 32 -> size_of src < 2 ^ 32 -> i_size (ino s i) < off \/ 1024 * MAXFILE < off + size_of src ->
  does [] (writei fuel i (Local src) off (size_of src)) s (-1) [] s.
Proof.
  intros Ho Hn H. unfold writei. eapply does_bind; [apply does_getino|]. destruct (Z.ltb_spec (i_size (ino s i)) off) as [|H1]; [apply does_ret|].
  destruct (Z.ltb_spec (u32 (off + size_of src)) off) as [|H2]; [apply does_ret|]. cbn [orb]. change (MAXFILE * BSIZE) with 274432. change (1024 * MAXFILE) with 274432 in H.
  assert (0 <= size_of src) as H0 by (unfold size_of; lia). assert (off + size_of src < 2 ^ 32) as Hs.
  { destruct (Z.lt_ge_cases (off + size_of src) (2 ^ 32)) as [|G]; [done|]. exfalso. unfold u32 in H2. rewrite (Z.mod_eq _ (2 ^ 32)) in H2 by lia.
    assert ((off + size_of src) / 2 ^ 32 = 1) as E by (symmetry; apply (Z.div_unique _ _ _ (off + size_of src - 2 ^ 32)); lia). lia. }
  rewrite u32_small by lia. destruct (Z.ltb_spec 274432 (off + size_of src)); [apply does_ret|lia].
Qed.

(** One operation. *)
Lemma op_runs i op s : idle_file dev i s -> op_fits (k_sb s) op -> let data := file_data (view s) (ino s i) in
  exists r s2 s', does [] (run_op i op) s r [] s' /\ ran pid dev i s s2 s' /\ returns data op r /\ file_data (view s2) (ino s2 i) = after data op r.
Proof.
  intros If Hf data. pose proof (length_file_data _ _ (wfile_sound _ _ _ (if_file _ _ _ If))) as Hl. fold data in Hl. destruct op as [off src|]; cbn [op_fits] in Hf.
  - destruct Hf as (Ho & Hn & Hf). unfold returns, after. destruct (accepts data off src) eqn:Ea.
    + apply andb_true_iff in Ea as [E1%Z.leb_le E2%Z.leb_le]. unfold size_of in E1 at 1. rewrite Hl in E1.
      destruct (write_done me pid dev fuel i src off (size_of src) s If Hf ltac:(lia) eq_refl E2) as (t & s2 & D2 & Bd & Wf & _).
      destruct (in_txn_runs me pid dev fuel _ t i s s2 If D2 Bd) as (s' & Dn & R). exists t, s2, s'. split; [exact Dn|]. split; [done|]. split; [apply Wf|exact (wo_data _ _ _ _ _ _ _ _ Wf)].
    + assert (does [] (writei fuel i (Local src) off (size_of src)) (opened s) (-1) [] (opened s)) as D2.
      { apply writei_refused; [done|done|]. apply andb_false_iff in Ea as [E%Z.leb_gt|E%Z.leb_gt]; [left|by right]. unfold size_of in E. rewrite Hl in E. exact E. }
      destruct (idle_ready pid dev i s _ If Hf) as [R0 B0]. assert (body_done pid dev i s (opened s)) as Bd.
      { split; [eexists; split; [exact R0|unfold budget in *; lia]|apply stays_refl, (rd_idx _ _ _ _ _ R0)|apply (if_stored _ _ _ If)|done]. }
      destruct (in_txn_runs me pid dev fuel _ (-1) i s (opened s) If D2 Bd) as (s' & Dn & R). exists (-1), (opened s), s'. done.
  - destruct (idle_ready pid dev i s 0 If Hf) as [R0 B0]. destruct (itrunc_spec me pid dev fuel _ i (opened s) _ R0 B0) as (s2 & D2 & R2 & S2 & B2 & I2 & St & _).
    assert (body_done pid dev i s s2) as Bd by (split; [eexists; split; [exact R2|unfold budget in *; lia]|done|exact St|by rewrite I2]).
    destruct (in_txn_runs me pid dev fuel (itrunc fuel i ;; mret 0) 0 i s s2 If) as (s' & Dn & R); [eapply does_bind; [exact D2|apply does_ret]|done|].
    exists 0, s2, s'. split; [exact Dn|]. split; [done|]. split; [done|]. by rewrite I2.
Qed.

(** What the next boot finds when [j] of the writes [W] have reached the disk:
    one of the contents [h], the last one when all have. *)
Definition recovers (i : nat) (s : kstate) (W : list (Z * list Z)) (h : list (list Z)) : Prop :=
  forall j b, booted me pid dev (k_log s) (writes (block s) (take j W)) b ->
    exists b' k, recover_from_log fuel b = Ret tt b' /\ h !! k = Some (file_on (block b') (k_sb s) (i_inum (ino s i))) /\
      ((length W <= j)%nat -> S k = length h).

(** The operation [op] and then the others. *)
Lemma recovers_more i s s2 s' W h : idle_file dev i s -> ran pid dev i s s2 s' ->
  (exists h', h = file_data (view s2) (ino s2 i) :: h') -> recovers i s' W h -> recovers i s (tx_writes dev s2 ++ W) (file_data (view s) (ino s i) :: h).
Proof.
  intros If R (h' & Eh) Rec j b B. set (W1 := tx_writes dev s2) in *. destruct (rn_log _ _ _ _ _ _ R) as [Li Ls]. pose proof (rn_body _ _ _ _ _ _ R) as [_ _ _ Eu].
  assert (ino s' i = ino s2 i) as Ei by (unfold ino; by rewrite (rn_itable _ _ _ _ _ _ R)).
  destruct (Nat.le_gt_cases (length W1) j) as [Hj|Hj].
  - assert (take j (W1 ++ W) = W1 ++ take (j - length W1) W) as Et by (rewrite take_app_ge by lia; done). rewrite Et, writes_app in B.
    destruct (Rec (j - length W1)%nat b) as (b' & k & E & Hk & Hl).
    { destruct B as [B1 B2 B3 B4 B5 B6 B7 B8]. split; try done; [by rewrite Ls|rewrite B6, (li_dev _ _ (if_log _ _ _ If)); symmetry; apply Li|].
      intros bn. rewrite B8. apply writes_ext. intros x. symmetry. apply (rn_block _ _ _ _ _ _ R). }
    exists b', (S k). rewrite (rn_sb _ _ _ _ _ _ R), Ei, Eu in Hk. split; [exact E|]. split; [exact Hk|]. rewrite length_app. intros Hw. cbn [length]. rewrite Hl by lia. done.
  - rewrite take_app_le in B by lia. destruct (ran_cut me pid dev fuel i s s2 s' j b If R B) as (b' & E & Hf & _). exists b', (if (ntx (k_log s2) <? j)%nat then 1%nat else 0%nat).
    split; [exact E|]. split; [|rewrite length_app; lia]. rewrite Hf, Eh. by destruct (ntx (k_log s2) <? j)%nat.
Qed.

(** A boot of an idle disk. *)
Lemma idle_boot i s b : idle_file dev i s -> booted me pid dev (k_log s) (block s) b ->
  exists b', recover_from_log fuel b = Ret tt b' /\ file_on (block b') (k_sb s) (i_inum (ino s i)) = file_data (view s) (ino s i).
Proof.
  intros If B. destruct (if_log _ _ _ If) as [I1 I2 I3 I4 I5 [I6 I7]]. change LOGBLOCKS with 30 in I7. pose proof (if_file _ _ _ If) as W.
  assert (hblock (k_log s) = log_start (k_log s)) as Eh by (unfold hblock; apply u32_small; lia).
  destruct (boot_none me pid dev fuel (k_log s) (block s) b B I1) as (b' & E & Hb); [rewrite Eh; apply (if_head _ _ _ If)|]. exists b'. split; [exact E|].
  assert (forall x, ~ apart (view s) (k_sb s) (ino s i) x -> block b' x = view s x) as Ek.
  { intros x N. rewrite Hb; [symmetry; apply (settled_clean dev [] x s (if_settled _ _ _ If)), not_elem_of_nil|]. rewrite Eh. intros ->. apply N, (if_apart _ _ _ If). exists 0. change LOGBLOCKS with 30. lia. }
  apply stored_file; [done|apply (if_stored _ _ _ If)| |intros a Ha]; apply Ek; [intros (_ & _ & _ & N)|intros (_ & N & _)]; done.
Qed.

Lemma ops_run i : forall ops s, idle_file dev i s -> Forall (op_fits (k_sb s)) ops -> let data := file_data (view s) (ino s i) in
  exists rs s' W, does [] (run_ops i ops) s rs [] s' /\ idle_file dev i s' /\ k_dlog s' = k_dlog s ++ W /\ all_return data ops rs /\
    last (history data ops rs) = Some (file_data (view s') (ino s' i)) /\ recovers i s W (history data ops rs).
Proof.
  induction ops as [|op ops IH]; intros s If Hf data.
  - exists [], s, []. split; [apply does_ret|]. split; [done|]. split; [by rewrite app_nil_r|]. split; [done|]. split; [done|].
    intros j b B. rewrite take_nil in B. destruct (idle_boot i s b If B) as (b' & E & Hb). exists b', 0%nat. split; [exact E|]. split; [|done]. cbn [history]. by rewrite Hb.
  - apply Forall_cons_1 in Hf as [Ho Hf]. destruct (op_runs i op s If Ho) as (r & s2 & s1 & D1 & R1 & Hr & Ea). fold data in Hr, Ea.
    destruct (idle_after pid dev i s s2 s1 If R1) as (If1 & Ed & _). rewrite <- (rn_sb _ _ _ _ _ _ R1) in Hf.
    destruct (IH s1 If1 Hf) as (rs & s' & W & D2 & If2 & Ew & Ha & Hl & Rec). rewrite Ed, Ea in Ha, Hl, Rec. exists (r :: rs), s', (tx_writes dev s2 ++ W).
    split; [cbn [run_ops]; eapply does_bind; [exact D1|]; eapply does_bind; [exact D2|]; apply does_ret|]. split; [done|].
    split; [by rewrite Ew, (rn_dlog _ _ _ _ _ _ R1), app_assoc|]. split; [done|]. destruct (history_head (after data op r) ops rs) as [h Eh]. cbn [history]. split.
    + rewrite Eh in *. exact Hl.
    + apply (recovers_more i s s2 s1); [done|done|rewrite Ea; by exists h|done].
Qed.
End FileApi.


(** A write across a block boundary, one past the end, a truncation, and a
    write into the empty file. *)
Definition tiny_ops : list fop := [FWrite 1020 [1; 2; 3; 4; 5; 6; 7; 8]; FWrite 3000 [1]; FTrunc; FWrite 0 [9; 9]].

