(* ===== verification/Plic.v ===== *)
(** * Memory-mapped registers and the interrupt controller (kernel/plic.c)

    A read of a device register is what the hardware answers in the current
    state ([Mmio]); the writes are recorded in [k_mmio]. *)

From S2P Require Import Prelude Riscv Memory KState KMonad Spinlock.

Class Mmio := {
  mmio_read : Z -> kstate -> Z;
}.

Definition mmio_write (a v : Z) : K unit := modify (fun s => set_k_mmio ((a, v) :: s.(k_mmio)) s).

Definition plicinit : K unit :=
  mmio_write (PLIC + UART0_IRQ * 4) 1 ;;
  mmio_write (PLIC + VIRTIO0_IRQ * 4) 1.

Definition plicinithart : K unit :=
  hart ← cpuid;
  mmio_write (PLIC_SENABLE hart) (Z.lor (Z.shiftl 1 UART0_IRQ) (Z.shiftl 1 VIRTIO0_IRQ)) ;;
  mmio_write (PLIC_SPRIORITY hart) 0.

Definition plic_claim {M : Mmio} : K Z :=
  hart ← cpuid;
  irq ← gets (mmio_read (PLIC_SCLAIM hart));
  mret (s32 irq).

Definition plic_complete (irq : Z) : K unit :=
  hart ← cpuid;
  mmio_write (PLIC_SCLAIM hart) (u32 irq).
