(* ===== verification/Console.v ===== *)
(** * Console and UART (kernel/console.c, uart.c)

    The UART's receive queue is [k_rx] and the characters sent to it [k_out];
    its other registers are read through [Mmio] and their writes recorded in
    [k_mmio].  procdump(), which only the console calls, is here too. *)

From S2P Require Import Prelude Riscv Memory KState KMonad Spinlock Kalloc Vm Proc Printf Plic.

Definition IER : Z := 1.
Definition FCR : Z := 2.
Definition LCR : Z := 3.
Definition LSR : Z := 5.
Definition LSR_TX_IDLE : Z := Z.shiftl 1 5.
Definition INPUT_BUF_SIZE : Z := 128.
Definition CONSOLE : nat := 1.

(** Control-x. *)
Definition Ctl (x : Z) : Z := x - 64.

Definition getcons : K consbuf := gets (fun s => s.(k_cons)).
Definition updcons (f : consbuf -> consbuf) : K unit := modify (fun s => set_k_cons (f s.(k_cons)) s).

Definition uartinit : K unit :=
  mmio_write (UART0 + IER) 0 ;;
  mmio_write (UART0 + LCR) (Z.shiftl 1 7) ;;
  mmio_write (UART0 + 0) 3 ;;
  mmio_write (UART0 + 1) 0 ;;
  mmio_write (UART0 + LCR) 3 ;;
  mmio_write (UART0 + FCR) (Z.lor 1 (Z.shiftl 3 1)) ;;
  mmio_write (UART0 + IER) (Z.lor 2 1) ;;
  initlock LTx.

(** The inner loop of uartwrite(): wait until the UART is not busy. *)
Fixpoint uart_wait (fuel : nat) : K unit :=
  busy ← gets (fun s => s.(k_tx_busy));
  if busy =? 0 then mret tt else
  match fuel with
  | O => unbounded
  | S fuel' => sleep ChTx LTx ;; uart_wait fuel'
  end.

Fixpoint uartwrite_loop (fuel : nat) (buf : list Z) : K unit :=
  match buf with
  | [] => mret tt
  | c :: buf' =>
      uart_wait fuel ;;
      modify (fun s => set_k_out (u8 c :: s.(k_out)) s) ;;
      modify (set_k_tx_busy 1) ;;
      uartwrite_loop fuel buf'
  end.

Definition uartwrite (fuel : nat) (buf : list Z) : K unit :=
  acquire LTx ;;
  uartwrite_loop fuel buf ;;
  release LTx.

Definition uartgetc : K Z :=
  rx ← gets (fun s => s.(k_rx));
  match rx with
  | [] => mret (-1)
  | c :: rx' => modify (set_k_rx rx') ;; mret c
  end.

Definition state_name (st : procstate) : list Z :=
  match st with
  | UNUSED => chars "unused" | USED => chars "used" | SLEEPING => chars "sleep "
  | RUNNABLE => chars "runble" | RUNNING => chars "run   " | ZOMBIE => chars "zombie"
  end.

Definition procdump : K unit :=
  printf nl [] ;;
  kfor all_procs (fun i =>
    p ← getproc i;
    kwhen (negb (bool_decide (p.(p_state) = UNUSED)))
      (printf "%d %s %s" [PInt p.(p_pid); PStr (Some (state_name p.(p_state))); PStr (Some (cstr p.(p_name)))] ;;
       printf nl [])).

(** The loop of the kill-line character; it ends at [w]. *)
Fixpoint kill_line (n : nat) : K unit :=
  c ← getcons;
  if (negb (c.(cons_e) =? c.(cons_w))
      && negb (znth 0 c.(cons_buf) (u32 (c.(cons_e) - 1) mod INPUT_BUF_SIZE) =? 10))%bool then
    match n with
    | O => unbounded
    | S n' =>
        updcons (fun c => set_cons_e (u32 (c.(cons_e) - 1)) c) ;;
        consputc BACKSPACE ;;
        kill_line n'
    end
  else mret tt.

Definition consoleintr (c : Z) : K unit :=
  acquire LCons ;;
  (if c =? Ctl 80 then procdump
   else if c =? Ctl 85 then
     cons ← getcons;
     kill_line (Z.to_nat (u32 (cons.(cons_e) - cons.(cons_w))))
   else if ((c =? Ctl 72) || (c =? 0x7f))%bool then
     cons ← getcons;
     kwhen (negb (cons.(cons_e) =? cons.(cons_w)))
       (updcons (fun c => set_cons_e (u32 (c.(cons_e) - 1)) c) ;;
        consputc BACKSPACE)
   else
     cons ← getcons;
     kwhen (negb (c =? 0) && (u32 (cons.(cons_e) - cons.(cons_r)) <? INPUT_BUF_SIZE))%bool
       (let c := if c =? 13 then 10 else c in
        consputc c ;;
        updcons (fun k => set_cons_e (u32 (k.(cons_e) + 1))
                   (set_cons_buf (zupd k.(cons_buf) (k.(cons_e) mod INPUT_BUF_SIZE) (u8 c)) k)) ;;
        cons ← getcons;
        kwhen ((c =? 10) || (c =? Ctl 68) || (u32 (cons.(cons_e) - cons.(cons_r)) =? INPUT_BUF_SIZE))%bool
          (updcons (fun k => set_cons_w k.(cons_e) k) ;;
           wakeup ChCons))) ;;
  release LCons.

Section Console.
Context {L : Layout}.
Variable fuel : nat.

Fixpoint consolewrite_loop (k : nat) (user_src : bool) (src n i : Z) : K Z :=
  if i <? n then
    match k with
    | O => unbounded
    | S k' =>
        let nn := if n - i <? 32 then n - i else 32 in
        '(buf, ok) ← either_copyin user_src (u64 (src + i)) (Z.to_nat nn);
        if negb ok then mret i else
        uartwrite fuel buf ;;
        consolewrite_loop k' user_src src n (i + nn)
    end
  else mret i.

Definition consolewrite (user_src : bool) (src n : Z) : K Z :=
  consolewrite_loop (Z.to_nat (n / 32) + 1) user_src src n 0.

(** Wait for input: false when the process is killed. *)
Fixpoint cons_wait (k : nat) : K bool :=
  c ← getcons;
  if c.(cons_r) =? c.(cons_w) then
    match k with
    | O => unbounded
    | S k' =>
        '(i, _) ← curproc;
        kd ← killed i;
        if negb (kd =? 0) then mret false else
        sleep ChCons LCons ;;
        cons_wait k'
    end
  else mret true.

Fixpoint consoleread_loop (k : nat) (user_dst : bool) (dst n target : Z) : K Z :=
  if 0 <? n then
    match k with
    | O => unbounded
    | S k' =>
        ok ← cons_wait fuel;
        if negb ok then release LCons ;; mret (-1) else
        cons ← getcons;
        let c := znth 0 cons.(cons_buf) (cons.(cons_r) mod INPUT_BUF_SIZE) in
        updcons (fun k => set_cons_r (u32 (k.(cons_r) + 1)) k) ;;
        if c =? Ctl 68 then
          kwhen (n <? target) (updcons (fun k => set_cons_r (u32 (k.(cons_r) - 1)) k)) ;;
          release LCons ;;
          mret (target - n)
        else
        r ← either_copyout user_dst dst [c];
        if r =? -1 then release LCons ;; mret (target - n) else
        if c =? 10 then release LCons ;; mret (target - (n - 1)) else
        consoleread_loop k' user_dst (u64 (dst + 1)) (n - 1) target
    end
  else release LCons ;; mret (target - n).

Definition consoleread (user_dst : bool) (dst n : Z) : K Z :=
  acquire LCons ;;
  consoleread_loop (Z.to_nat n) user_dst dst n n.

Definition consoleinit : K unit :=
  initlock LCons ;;
  uartinit ;;
  modify (fun s => set_k_devsw (<[CONSOLE := Some DevConsole]> s.(k_devsw)) s).

Context {M : Mmio}.

(** The loop of uartintr() over the characters waiting. *)
Fixpoint uart_drain (n : nat) : K unit :=
  c ← uartgetc;
  if c =? -1 then mret tt else
  match n with
  | O => unbounded
  | S n' => consoleintr c ;; uart_drain n'
  end.

Definition uartintr : K unit :=
  acquire LTx ;;
  lsr ← gets (mmio_read (UART0 + LSR));
  kwhen (negb (Z.land lsr LSR_TX_IDLE =? 0))
    (modify (set_k_tx_busy 0) ;;
     wakeup ChTx) ;;
  release LTx ;;
  rx ← gets (fun s => s.(k_rx));
  uart_drain (length rx).

End Console.
