(* ===== verification/Pipe.v ===== *)
(** * Pipes (kernel/pipe.c), the code

    A pipe is found by the address of its page.  [fuel] bounds how often the
    caller waits for the other end; pipealloc() is in File, with the file
    table it needs. *)

From S2P Require Import Prelude Riscv Memory KState KMonad Spinlock Kalloc Vm Proc.

Definition PIPESIZE : Z := 512.

(** A page just allocated, seen as a pipe: kalloc() fills it with 5. *)
Definition fresh_pipe : pipe :=
  let w := 0x05050505 in mk_pipe (replicate (Z.to_nat PIPESIZE) 5) w w w w.

Definition getpipe (pi : Z) : K pipe := gets (fun s => default fresh_pipe (s.(k_pipes) !! pi)).
Definition updpipe (pi : Z) (f : pipe -> pipe) : K unit :=
  modify (fun s => set_k_pipes (<[pi := f (default fresh_pipe (s.(k_pipes) !! pi))]> s.(k_pipes)) s).

Section Pipe.
Context {L : Layout}.

Definition pipeclose (pi : Z) (writable : bool) : K unit :=
  acquire (LPipe pi) ;;
  (if writable then
     updpipe pi (set_pi_writeopen 0) ;;
     wakeup (ChPipeRead pi)
   else
     updpipe pi (set_pi_readopen 0) ;;
     wakeup (ChPipeWrite pi)) ;;
  p ← getpipe pi;
  release (LPipe pi) ;;
  kwhen ((p.(pi_readopen) =? 0) && (p.(pi_writeopen) =? 0))%bool
    (modify (fun s => set_k_pipes (delete pi s.(k_pipes)) s) ;;
     kfree pi).

(** The loop of pipewrite(), from byte [i]: None is the early return of -1. *)
Fixpoint pipewrite_loop (k : nat) (pr : nat) (pi addr n i : Z) : K (option Z) :=
  if i <? n then
    match k with
    | O => unbounded
    | S k' =>
        p ← getpipe pi;
        kd ← (if p.(pi_readopen) =? 0 then mret 1 else killed pr);
        if negb (kd =? 0) then
          release (LPipe pi) ;;
          mret None
        else if p.(pi_nwrite) =? u32 (p.(pi_nread) + PIPESIZE) then
          wakeup (ChPipeRead pi) ;;
          sleep (ChPipeWrite pi) (LPipe pi) ;;
          pipewrite_loop k' pr pi addr n i
        else
          x ← getproc pr;
          r ← copyin x.(p_pagetable) (u64 (addr + i)) 1;
          match r with
          | None => mret (Some i)
          | Some ch =>
              updpipe pi (fun p => set_pi_nwrite (u32 (p.(pi_nwrite) + 1))
                (set_pi_data (zupd p.(pi_data) (p.(pi_nwrite) mod PIPESIZE) (hd 0 ch)) p)) ;;
              pipewrite_loop k' pr pi addr n (i + 1)
          end
    end
  else mret (Some i).

Definition pipewrite (fuel : nat) (pi addr n : Z) : K Z :=
  '(pr, _) ← curproc;
  acquire (LPipe pi) ;;
  o ← pipewrite_loop (Z.to_nat n + fuel) pr pi addr n 0;
  match o with
  | None => mret (-1)
  | Some i =>
      wakeup (ChPipeRead pi) ;;
      release (LPipe pi) ;;
      mret i
  end.

(** The wait for data: false when the process is killed. *)
Fixpoint pipe_wait (k : nat) (pr : nat) (pi : Z) : K bool :=
  p ← getpipe pi;
  if ((p.(pi_nread) =? p.(pi_nwrite)) && negb (p.(pi_writeopen) =? 0))%bool then
    match k with
    | O => unbounded
    | S k' =>
        kd ← killed pr;
        if negb (kd =? 0) then mret false else
        sleep (ChPipeRead pi) (LPipe pi) ;;
        pipe_wait k' pr pi
    end
  else mret true.

(** The copy loop, from byte [i] with [k] bytes to go. *)
Fixpoint piperead_loop (k : nat) (pr : nat) (pi addr i : Z) : K Z :=
  match k with
  | O => mret i
  | S k' =>
      p ← getpipe pi;
      if p.(pi_nread) =? p.(pi_nwrite) then mret i else
      let ch := znth 0 p.(pi_data) (p.(pi_nread) mod PIPESIZE) in
      x ← getproc pr;
      r ← copyout x.(p_pagetable) (u64 (addr + i)) [ch];
      if r =? -1 then mret (if i =? 0 then -1 else i) else
      updpipe pi (fun p => set_pi_nread (u32 (p.(pi_nread) + 1)) p) ;;
      piperead_loop k' pr pi addr (i + 1)
  end.

Definition piperead (fuel : nat) (pi addr n : Z) : K Z :=
  '(pr, _) ← curproc;
  acquire (LPipe pi) ;;
  ok ← pipe_wait fuel pr pi;
  if negb ok then release (LPipe pi) ;; mret (-1) else
  i ← piperead_loop (Z.to_nat n) pr pi addr 0;
  wakeup (ChPipeWrite pi) ;;
  release (LPipe pi) ;;
  mret i.

End Pipe.
