(* ===== verification/PipeSpec.v ===== *)
(** * Pipes (kernel/pipe.c), interleaved

    Any number of processes write to and read from one pipe, in any
    interleaving of their turns.  A pipe is a bounded queue of bytes: what the
    readers take is, in order, what the writers put in. *)

From S2P Require Import Prelude Riscv Memory KState KMonad Spinlock Kalloc Vm VmSpec UvmSpec CopySpec Pages Proc ProcSpec SleepSpec Turn.
From S2P Require Import Pipe.

(** ** The ring of bytes *)

(** The bytes in the pipe, oldest first. *)
Definition fill (p : pipe) : Z := u32 (pi_nwrite p - pi_nread p).
Definition byte_at (p : pipe) (k : Z) : Z := znth 0 (pi_data p) ((pi_nread p + k) mod PIPESIZE).
Definition bytes (p : pipe) : list Z := map (fun k => byte_at p (Z.of_nat k)) (seq 0 (Z.to_nat (fill p))).

Record pipe_ok (p : pipe) : Prop := {
  po_data : length (pi_data p) = Z.to_nat PIPESIZE;
  po_nread : 0 <= pi_nread p < 2 ^ 32;
  po_nwrite : 0 <= pi_nwrite p < 2 ^ 32;
  po_fill : fill p <= PIPESIZE;
  po_byte : Forall (fun b => 0 <= b < 256) (pi_data p);
}.

Lemma length_bytes p : Z.of_nat (length (bytes p)) = fill p.
Proof. unfold bytes. rewrite length_map, length_seq, Z2Nat.id; [done|]. apply Z.mod_pos_bound. lia. Qed.

Lemma fill_range p : 0 <= fill p < 2 ^ 32.
Proof. apply Z.mod_pos_bound. lia. Qed.

Lemma pipe_full p : pipe_ok p -> (pi_nwrite p =? u32 (pi_nread p + PIPESIZE)) = (fill p =? PIPESIZE).
Proof.
  intros [_ H1 H2 _ _]. unfold fill, u32, PIPESIZE in *. destruct (Z.eqb_spec (pi_nwrite p) ((pi_nread p + 512) mod 2 ^ 32)) as [E|E]; symmetry.
  - apply Z.eqb_eq. rewrite E. rewrite Zminus_mod_idemp_l. by replace (pi_nread p + 512 - pi_nread p) with 512 by lia.
  - apply Z.eqb_neq. intros F. apply E. rewrite <- F at 1. rewrite Zplus_mod_idemp_r.
    replace (pi_nread p + (pi_nwrite p - pi_nread p)) with (pi_nwrite p) by lia. symmetry. by apply Z.mod_small.
Qed.

Lemma pipe_empty p : pipe_ok p -> (pi_nread p =? pi_nwrite p) = (fill p =? 0).
Proof.
  intros [_ H1 H2 _ _]. unfold fill, u32. destruct (Z.eqb_spec (pi_nread p) (pi_nwrite p)) as [->|E]; symmetry; [by rewrite Z.sub_diag|].
  apply Z.eqb_neq. intros F. apply E. destruct (decide (pi_nread p <= pi_nwrite p)).
  - rewrite Z.mod_small in F by lia. lia.
  - rewrite <- (Z_mod_plus_full _ 1), Z.mod_small in F by lia. lia.
Qed.

Definition enq (c : Z) (p : pipe) : pipe :=
  set_pi_nwrite (u32 (pi_nwrite p + 1)) (set_pi_data (zupd (pi_data p) (pi_nwrite p mod PIPESIZE) c) p).
Definition deq (p : pipe) : pipe := set_pi_nread (u32 (pi_nread p + 1)) p.

Lemma u32_slot x : u32 x mod PIPESIZE = x mod PIPESIZE.
Proof. unfold u32, PIPESIZE. apply Z.mod_mod_divide. by exists (2 ^ 23). Qed.

Lemma fill_enq c p : pipe_ok p -> fill p < PIPESIZE -> fill (enq c p) = fill p + 1.
Proof.
  intros H Hf. unfold fill, enq, u32, PIPESIZE in *. cbn [pi_nwrite pi_nread set_pi_nwrite set_pi_data].
  rewrite Zminus_mod_idemp_l. replace (pi_nwrite p + 1 - pi_nread p) with (pi_nwrite p - pi_nread p + 1) by lia.
  rewrite <- Zplus_mod_idemp_l. apply Z.mod_small. pose proof (fill_range p). unfold fill, u32 in *. lia.
Qed.

(** Where the next byte goes. *)
Lemma slot_write p : pipe_ok p -> pi_nwrite p mod PIPESIZE = (pi_nread p + fill p) mod PIPESIZE.
Proof.
  intros [_ H1 H2 _ _]. rewrite <- (u32_slot (pi_nread p + fill p)). f_equal. unfold fill, u32. rewrite Zplus_mod_idemp_r.
  replace (pi_nread p + (pi_nwrite p - pi_nread p)) with (pi_nwrite p) by lia. symmetry. by apply Z.mod_small.
Qed.

Lemma slot_range x : (Z.to_nat (x mod PIPESIZE) < Z.to_nat PIPESIZE)%nat.
Proof. pose proof (Z.mod_pos_bound x PIPESIZE ltac:(done)). unfold PIPESIZE in *. lia. Qed.

Lemma bytes_enq c p : pipe_ok p -> fill p < PIPESIZE -> 0 <= c < 256 -> pipe_ok (enq c p) /\ bytes (enq c p) = bytes p ++ [c].
Proof.
  intros H Hf Hc. pose proof (fill_enq c p H Hf) as E. pose proof (slot_write p H) as Sl. destruct H as [H1 H2 H3 H4 H5]. pose proof (fill_range p) as Hr. split.
  - split; [cbn; by rewrite length_zupd|done|apply Z.mod_pos_bound; lia|lia|by apply Forall_insert].
  - unfold bytes. rewrite E. replace (Z.to_nat (fill p + 1)) with (Z.to_nat (fill p) + 1)%nat by lia. rewrite seq_app, map_app.
    unfold byte_at, enq, znth, zupd. cbn [pi_data pi_nread set_pi_nwrite set_pi_data]. rewrite Sl. f_equal.
    + apply map_ext_in. intros k Hk%in_seq. rewrite !nth_lookup, list_lookup_insert_ne; [done|]. intros F.
      apply Z2Nat.inj in F; [|apply Z.mod_pos_bound; done..]. unfold PIPESIZE in *. Z.div_mod_to_equations. lia.
    + cbn [seq map]. rewrite Nat.add_0_l, Z2Nat.id by lia. by rewrite nth_lookup, list_lookup_insert_eq by (rewrite H1; apply slot_range).
Qed.

Lemma bytes_deq p : pipe_ok p -> 0 < fill p -> pipe_ok (deq p) /\ bytes p = znth 0 (pi_data p) (pi_nread p mod PIPESIZE) :: bytes (deq p).
Proof.
  intros [H1 H2 H3 H4 H5] Hf. pose proof (fill_range p) as Hr. assert (fill (deq p) = fill p - 1) as E.
  { unfold fill, deq, u32 in *. cbn [pi_nwrite pi_nread set_pi_nread]. rewrite Zminus_mod_idemp_r.
    replace (pi_nwrite p - (pi_nread p + 1)) with (pi_nwrite p - pi_nread p - 1) by lia. rewrite <- Zminus_mod_idemp_l. apply Z.mod_small. lia. }
  split; [split; [done|apply Z.mod_pos_bound; lia|done|lia|done]|]. unfold bytes. rewrite E. replace (Z.to_nat (fill p)) with (S (Z.to_nat (fill p - 1))) by lia.
  cbn [seq map]. f_equal; [unfold byte_at; do 2 f_equal; lia|]. rewrite <- seq_shift, map_map. apply map_ext. intros k. unfold byte_at, deq.
  cbn [pi_data pi_nread set_pi_nread]. f_equal. rewrite <- (Zplus_mod_idemp_l (u32 _)), u32_slot, Zplus_mod_idemp_l. f_equal. lia.
Qed.

(** ** The caller's memory *)

Section User.
Context {L : Layout}.

Definition ptab (i : nat) (s : kstate) : Z := p_pagetable (nth i (k_procs s) zero_proc).

(** The bytes [src] at [addr] that process [i] wants to write. *)
Definition source (s : kstate) (i : nat) (addr : Z) (src : list Z) : Prop :=
  exists G fl, vmok s G fl /\ G !! (ptab i s, 2%nat, 0) = Some (ptab i s) /\ 0 <= addr /\ addr + Z.of_nat (length src) <= MAXVA /\
    (forall v, addr <= v < addr + Z.of_nat (length src) -> uaddr (k_mem s) (ptab i s) v <> 0) /\
    uread (k_mem s) (ptab i s) addr (length src) = src.

(** The room for [n] bytes at [addr] that process [i] wants to read. *)
Definition dest (s : kstate) (i : nat) (addr : Z) (n : nat) : Prop :=
  exists G fl, vmok s G fl /\ G !! (ptab i s, 2%nat, 0) = Some (ptab i s) /\ writable s G fl (ptab i s) addr n.

(** What the memory of a process depends on. *)
Record same_memory (i : nat) (s s' : kstate) : Prop := {
  sm_mem : k_mem s' = k_mem s;
  sm_kmem : k_kmem s' = k_kmem s;
  sm_lock : k_locks s' !! LKmem = k_locks s !! LKmem;
  sm_cpu : cpu_ok (k_cpu s');
  sm_ptab : ptab i s' = ptab i s;
}.

Lemma vmok_frame s s' G fl : k_mem s' = k_mem s -> k_kmem s' = k_kmem s -> k_locks s' !! LKmem = k_locks s !! LKmem ->
  cpu_ok (k_cpu s') -> vmok s G fl -> vmok s' G fl.
Proof.
  intros M K Lk C [[_ V1] [I1 I2 I3 I4 I5] V3 V4]. split; [split; [done|by rewrite Lk]| |by rewrite M|done].
  split; rewrite ?M, ?K; done.
Qed.

Lemma vmok_same i s s' G fl : same_memory i s s' -> vmok s G fl -> vmok s' G fl.
Proof. intros [M K Lk C _]. by apply vmok_frame. Qed.

Lemma source_same i s s' addr src : same_memory i s s' -> source s i addr src -> source s' i addr src.
Proof.
  intros S (G & fl & V & R & H). exists G, fl. split; [by eapply vmok_same|]. destruct S as [M _ _ _ P]. by rewrite M, P.
Qed.

Lemma writable_same i s s' G fl r addr n : same_memory i s s' -> writable s G fl r addr n -> writable s' G fl r addr n.
Proof. intros [M _ _ _ _] [W1 W2 W3 W4 W5 W6]. split; rewrite ?M; done. Qed.

Lemma dest_same i s s' addr n : same_memory i s s' -> dest s i addr n -> dest s' i addr n.
Proof.
  intros S (G & fl & V & R & W). exists G, fl. split; [by eapply vmok_same|]. rewrite (sm_ptab _ _ _ S). split; [done|]. by eapply writable_same.
Qed.

(** One byte of the source. *)
Lemma source_byte s i addr src j : source s i addr src -> (j < length src)%nat ->
  exists b, copyin (ptab i s) (u64 (addr + Z.of_nat j)) 1 s = Ret (Some [b]) s /\ src !! j = Some b /\ 0 <= b < 256.
Proof.
  intros (G & fl & V & R & H0 & H1 & U & E) Hj. pose proof MAXVA_lt. exists (mget (k_mem s) (utrans (k_mem s) (ptab i s) (addr + Z.of_nat j))).
  rewrite u64_small by lia. split; [|split].
  - rewrite (copyin_eq (ptab i s) _ 1 s G fl V R); [|lia|lia|intros v Hv; apply U; lia]. unfold uread. cbn [seq map]. do 5 f_equal. lia.
  - rewrite <- E. unfold uread. rewrite list_lookup_fmap, lookup_seq_lt by done. done.
  - apply (ki_mem _ _ (vo_kmem _ _ _ V)).
Qed.

End User.

#[export] Instance pipe_section pi : SectionLock (LPipe pi).
Proof. done. Qed.

(** ** One turn of a writer *)

Section Writer.
Context {L : Layout}.
Variable pi : Z.

Definition pp (s : kstate) : pipe := default fresh_pipe (k_pipes s !! pi).
Definition setpp (p : pipe) (s : kstate) : kstate := set_k_pipes (<[pi := p]> (k_pipes s)) s.

Lemma pp_setpp p s : pp (setpp p s) = p.
Proof. unfold pp, setpp. cbn. by rewrite lookup_insert_eq. Qed.

Lemma turn_setpp i p s : turn (LPipe pi) i s -> turn (LPipe pi) i (setpp p s).
Proof. by apply turn_frame. Qed.

Lemma turn_wk i ch s : turn (LPipe pi) i s -> turn (LPipe pi) i (wk ch s).
Proof. apply turn_frame; [done|done|apply wk_len]. Qed.

Lemma turn_cpu_ok i s : turn (LPipe pi) i s -> cpu_ok (k_cpu s).
Proof. intros T. apply (one_lock_cpu_ok _ _ _ (tu_one _ _ T)). Qed.

Lemma ptab_wk i ch s : ptab i (wk ch s) = ptab i s.
Proof.
  unfold ptab, wk, wake_all. cbn. rewrite !nth_lookup, list_lookup_imap. destruct (k_procs s !! i) as [p|]; [|done]. cbn.
  case_bool_decide; [done|]. unfold wake. by destruct (sleeping_on ch p).
Qed.

Lemma same_setpp i p s : turn (LPipe pi) i s -> same_memory i s (setpp p s).
Proof. intros T. split; try done. exact (turn_cpu_ok _ _ T). Qed.

Lemma same_wk i ch s : turn (LPipe pi) i s -> same_memory i s (wk ch s).
Proof. intros T. split; try done; [exact (turn_cpu_ok _ _ T)|apply ptab_wk]. Qed.

Lemma killed_turn i s : turn (LPipe pi) i s -> killed i s = Ret (p_killed (nth i (k_procs s) zero_proc)) s.
Proof.
  intros T. pose proof (turn_cpu_ok _ _ T) as C. assert (lk_free (LProc i) s) as F by (split; [done|exact (tu_free _ _ T)]).
  unfold killed. rewrite (bind_ret _ _ _ _ _ (acquire_eq _ s F)). unfold getproc. kstep.
  rewrite (bind_ret _ _ _ _ _ (release_eq _ _ (acq_held (LProc i) s C))), rel_acq by done.
  by rewrite (inside_settled (lk := LPipe pi)) by exact (tu_inside _ _ T).
Qed.

(** The rest of pipewrite() when [idx] bytes are written. *)
Definition write_rest (o : option Z) : K Z :=
  match o with
  | None => mret (-1)
  | Some i =>
      wakeup (ChPipeRead pi) ;;
      release (LPipe pi) ;;
      mret i
  end.

Variables (i : nat) (addr : Z) (src : list Z).
Abbreviation n := (Z.of_nat (length src)).

Definition write_from (k : nat) (idx : nat) : K Z := pipewrite_loop k i pi addr n (Z.of_nat idx) ≫= write_rest.

(** The bytes from [idx] up to [j] are in the pipe. *)
Definition wrote (s s' : kstate) (idx j : nat) : Prop :=
  pipe_ok (pp s') /\ bytes (pp s') = bytes (pp s) ++ take (j - idx) (drop idx src) /\ pi_nread (pp s') = pi_nread (pp s).

Lemma wrote_step s s1 s' idx j b : pi_nread (pp s1) = pi_nread (pp s) -> bytes (pp s1) = bytes (pp s) ++ [b] -> src !! idx = Some b -> (S idx <= j)%nat ->
  wrote s1 s' (S idx) j -> wrote s s' idx j.
Proof.
  intros N E Hb Hj (P & B & N'). split; [done|]. split; [|congruence]. rewrite B, E, <- app_assoc. f_equal. rewrite (drop_S _ _ _ Hb).
  replace (j - idx)%nat with (S (j - S idx)) by lia. done.
Qed.

(** No reader is left, or the process is killed. *)
Definition gave_up (s : kstate) : Prop := pi_readopen (pp s) = 0 \/ p_killed (nth i (k_procs s) zero_proc) <> 0.

Inductive write_result (k : nat) (s : kstate) (idx : nat) : res Z -> Prop :=
| wr_all s' : wrote s s' idx (length src) -> write_result k s idx (Ret n s')
| wr_cut s' j : (idx <= j <= length src)%nat -> wrote s s' idx j -> gave_up s' -> write_result k s idx (Ret (-1) s')
| wr_sleep s' c j k' ie : (idx <= j < length src)%nat -> (k' + j + 1 = k + idx)%nat -> wrote s s' idx j ->
    (forall s2, back (LPipe pi) i s2 -> c s2 = write_from k' j (awake (LPipe pi) i ie s2)) -> write_result k s idx (Switch s' c)
| wr_out : (k + idx < length src)%nat -> write_result k s idx Unbounded.

(** The end of a write of all bytes. *)
Lemma write_end_eq s v : turn (LPipe pi) i s -> write_rest (Some v) s = Ret v (rel (LPipe pi) (wk (ChPipeRead pi) s)).
Proof.
  intros T. unfold write_rest. rewrite (bind_ret _ _ _ _ _ (wakeup_inside _ _ (tu_inside _ _ T))).
  by rewrite (bind_ret _ _ _ _ _ (release_eq _ _ (in_held _ (tu_inside _ _ (turn_wk _ _ _ T))))).
Qed.

Lemma write_end k s : turn (LPipe pi) i s -> pipe_ok (pp s) -> write_result k s (length src) (write_rest (Some n) s).
Proof.
  intros T P. rewrite write_end_eq by done. apply wr_all.
  split; [done|]. rewrite Nat.sub_diag. cbn [take]. by rewrite app_nil_r.
Qed.

(** There is a reader, and the process is not killed. *)
Definition can_write (s : kstate) : Prop := pi_readopen (pp s) <> 0 /\ p_killed (nth i (k_procs s) zero_proc) = 0.

Lemma write_killed s : turn (LPipe pi) i s ->
  exists kd, (if pi_readopen (pp s) =? 0 then mret 1 else killed i) s = Ret kd s /\ (kd <> 0 -> gave_up s) /\ (kd = 0 -> can_write s).
Proof.
  intros T. destruct (Z.eqb_spec (pi_readopen (pp s)) 0); [exists 1; split; [done|split; [by left|done]]|].
  eexists. split; [by apply killed_turn|]. split; [by right|done].
Qed.

Lemma wrote_refl s idx : pipe_ok (pp s) -> wrote s s idx idx.
Proof. intros P. split; [done|]. by rewrite Nat.sub_diag, app_nil_r. Qed.

(** One byte. *)
Lemma write_byte k s idx : turn (LPipe pi) i s -> pipe_ok (pp s) -> source s i addr src -> (idx < length src)%nat ->
  can_write s -> fill (pp s) <> PIPESIZE ->
  exists b s1, src !! idx = Some b /\ s1 = setpp (enq b (pp s)) s /\ write_from (S k) idx s = write_from k (S idx) s1 /\
    turn (LPipe pi) i s1 /\ source s1 i addr src /\ pipe_ok (pp s1) /\ bytes (pp s1) = bytes (pp s) ++ [b] /\
    pi_nread (pp s1) = pi_nread (pp s).
Proof.
  intros T P Src Hi Cw Fu. destruct (source_byte _ _ _ _ idx Src Hi) as (b & Eb & Hb & Hr). pose proof (po_fill _ P).
  exists b, (setpp (enq b (pp s)) s). split; [done|]. split; [done|]. split; [|split; [by apply turn_setpp|split; [|rewrite pp_setpp]]].
  - unfold write_from. cbn [pipewrite_loop]. destruct (Z.ltb_spec (Z.of_nat idx) n); [|lia].
    unfold getpipe. erewrite bind_bind_ret by reflexivity. fold (pp s). destruct (write_killed s T) as (kd & Ek & Hkd & _). rewrite (bind_bind_ret _ _ _ _ _ _ Ek).
    destruct (Z.eqb_spec kd 0) as [->|Nk]; cbn [negb]; [|destruct (Hkd Nk); destruct Cw; congruence].
    rewrite (pipe_full _ P). destruct (Z.eqb_spec (fill (pp s)) PIPESIZE); [done|].
    unfold getproc. erewrite bind_bind_ret by reflexivity. rewrite (bind_bind_ret _ _ _ _ _ _ Eb). cbn [hd].
    unfold updpipe. erewrite bind_bind_ret by reflexivity. by replace (Z.of_nat idx + 1) with (Z.of_nat (S idx)) by lia.
  - eapply source_same; [by apply same_setpp|done].
  - destruct (bytes_enq b (pp s) P ltac:(lia) Hr) as [P' B']. done.
Qed.

Lemma write_run k : forall s idx, turn (LPipe pi) i s -> pipe_ok (pp s) -> source s i addr src -> (idx <= length src)%nat ->
  write_result k s idx (write_from k idx s).
Proof.
  induction k as [|k IH]; intros s idx T P Src Hi.
  - unfold write_from. cbn [pipewrite_loop].
    destruct (Z.ltb_spec (Z.of_nat idx) n); [apply wr_out; lia|]. replace idx with (length src) by lia. kstep. by apply write_end.
  - destruct (decide (idx < length src)%nat) as [Hlt|Hge].
    2: { unfold write_from. cbn [pipewrite_loop]. destruct (Z.ltb_spec (Z.of_nat idx) n); [lia|].
         replace idx with (length src) by lia. kstep. by apply write_end. }
    destruct (write_killed s T) as (kd & Ek & Hkd & Hc). destruct (decide (kd = 0 /\ fill (pp s) <> PIPESIZE)) as [[-> Fu]|Hn].
    + destruct (write_byte k s idx T P Src Hlt (Hc eq_refl) Fu) as (b & s1 & Hb & _ & -> & T1 & Src1 & P1 & B1 & N1).
      destruct (IH s1 (S idx)) as [s' W|s' j Hj W Hg|s' c j k' ie Hj Hk W Hc'|Hk]; [done|done|done|lia| | | |].
      * apply wr_all. eapply (wrote_step s s1); eauto; lia.
      * apply (wr_cut _ _ _ _ j); [lia| |done]. eapply (wrote_step s s1); eauto; lia.
      * apply (wr_sleep _ _ _ _ _ j k' ie); [lia|lia| |done]. eapply (wrote_step s s1); eauto; lia.
      * apply wr_out. lia.
    + unfold write_from. cbn [pipewrite_loop]. destruct (Z.ltb_spec (Z.of_nat idx) n); [|lia].
      unfold getpipe. erewrite bind_bind_ret by reflexivity. fold (pp s). rewrite (bind_bind_ret _ _ _ _ _ _ Ek).
      destruct (Z.eqb_spec kd 0) as [->|Nk]; cbn [negb].
      * rewrite (pipe_full _ P). destruct (Z.eqb_spec (fill (pp s)) PIPESIZE) as [Fu|Fu]; [|by destruct Hn].
        rewrite (bind_bind_ret _ _ _ _ _ _ (wakeup_inside _ _ (tu_inside _ _ T))).
        destruct (turn_sleep (ChPipeWrite pi) i _ (pipewrite_loop k i pi addr n (Z.of_nat idx)) write_rest (turn_wk i (ChPipeRead pi) s T)) as (c & -> & ie & Hk).
        apply (wr_sleep _ _ _ _ _ idx k ie); [lia|lia|exact (wrote_refl s idx P)|done].
      * rewrite (bind_bind_ret _ _ _ _ _ _ (release_eq _ _ (in_held _ (tu_inside _ _ T)))). kstep.
        apply (wr_cut _ _ _ _ idx); [lia|exact (wrote_refl s idx P)|exact (Hkd Nk)].
Qed.

(** A write that fits does not wait. *)
Lemma write_room k : forall s idx, turn (LPipe pi) i s -> pipe_ok (pp s) -> source s i addr src -> (idx + k = length src)%nat ->
  can_write s -> fill (pp s) + Z.of_nat k <= PIPESIZE -> forall k', exists s', write_from (k + k') idx s = Ret n s'.
Proof.
  induction k as [|k IH]; intros s idx T P Src Hi Cw Hf k'.
  - replace idx with (length src) by lia. unfold write_from. destruct k'; cbn [Nat.add pipewrite_loop];
      (destruct (Z.ltb_spec n n); [lia|]; kstep; eexists; by apply write_end_eq).
  - destruct (write_byte (k + k') s idx T P Src ltac:(lia) Cw ltac:(lia)) as (b & s1 & Hb & E1 & E & T1 & Src1 & P1 & B1 & N1).
    cbn [Nat.add]. rewrite E. apply IH; [done|done|done|lia| |].
    + subst s1. unfold can_write in *. by rewrite pp_setpp.
    + pose proof (length_bytes (pp s)). pose proof (length_bytes (pp s1)) as L1. rewrite B1, length_app in L1. cbn in L1. lia.
Qed.

End Writer.

(** ** One turn of a reader *)

Section Reader.
Context {L : Layout}.
Variables (pi : Z) (i : nat) (addr : Z) (n : nat).
Abbreviation pp := (pp pi).

Definition read_rest (ok : bool) : K Z :=
  if negb ok then release (LPipe pi) ;; mret (-1) else
  j ← piperead_loop n i pi addr 0;
  wakeup (ChPipeWrite pi) ;;
  release (LPipe pi) ;;
  mret j.

Definition read_from (k : nat) : K Z := pipe_wait k i pi ≫= read_rest.

(** The copy loop changes the pipe and the bytes of the buffer only. *)
Record reading (s s' : kstate) : Prop := {
  rg_cpu : k_cpu s' = k_cpu s;
  rg_locks : k_locks s' = k_locks s;
  rg_procs : k_procs s' = k_procs s;
  rg_kmem : k_kmem s' = k_kmem s;
  rg_mem : mem_ok (k_mem s');
}.

Section Loop.
Variables (s0 : kstate) (G : tables) (fl : list Z).
Abbreviation r := (ptab i s0).
Hypothesis OK : vmok s0 G fl.
Hypothesis R : G !! (r, 2%nat, 0) = Some r.
Hypothesis W : writable s0 G fl r addr n.

(** After [ds] is copied out. *)
Definition copied_out (ds : list Z) (s : kstate) : Prop :=
  reading s0 s /\ pipe_ok (pp s) /\ written (k_mem s0) (k_mem s) r addr ds /\ pi_writeopen (pp s) = pi_writeopen (pp s0).

Lemma copied_pte ds s : copied_out ds s -> (length ds <= n)%nat ->
  vmok s G fl /\ forall v, 0 <= v < MAXVA -> pte_of (k_mem s) r v = pte_of (k_mem s0) r v.
Proof.
  intros ([C Lk Pr K M] & _ & [_ Fr] & _) Hl.
  destruct (vm_user_write s0 G fl r addr (length ds) (k_mem s) OK R) as [OK1 P1]; [eapply writable_sub; [exact W|lia|lia]|done|done|].
  split; [|intros v Hv; by apply P1]. apply (vmok_same i (set_k_mem (k_mem s) s0)); [|done].
  split; cbn; [done|done|by rewrite Lk|rewrite C; apply (vo_lock _ _ _ OK)|unfold ptab; by rewrite Pr].
Qed.

(** One byte. *)
Lemma copied_byte ds s : copied_out ds s -> (length ds < n)%nat -> 0 < fill (pp s) ->
  exists b s', bytes (pp s) = b :: bytes (pp s') /\ copied_out (ds ++ [b]) s' /\
    forall k, piperead_loop (S k) i pi addr (Z.of_nat (length ds)) s = piperead_loop k i pi addr (Z.of_nat (length ds) + 1) s'.
Proof.
  intros Co Hl Hf. destruct (copied_pte _ _ Co ltac:(lia)) as [OK1 P1]. destruct Co as ([C Lk Pr K M] & P & Wr & Wo).
  pose proof (wr_low _ _ _ _ _ _ W) as H1. pose proof (wr_high _ _ _ _ _ _ W) as H2. pose proof MAXVA_lt.
  set (b := znth 0 (pi_data (pp s)) (pi_nread (pp s) mod PIPESIZE)).
  assert (writable s G fl r addr n) as W1.
  { apply (writable_same i (set_k_mem (k_mem s) s0)); [|by apply writable_mem].
    split; cbn; [done|done|by rewrite Lk|rewrite C; apply (vo_lock _ _ _ OK)|unfold ptab; by rewrite Pr]. }
  destruct (copyout_loop_spec r G fl R 1 [b] (addr + Z.of_nat (length ds)) s OK1) as (m & E & Mm & Wm);
    [eapply writable_sub; [exact W1|lia|cbn; lia]|done|].
  destruct (bytes_deq (pp s) P Hf) as [P' B']. exists b, (setpp pi (deq (pp s)) (set_k_mem m s)).
  split; [rewrite pp_setpp; exact B'|]. split.
  - split; [by split|]. split; [by rewrite pp_setpp|]. split; [|by rewrite pp_setpp].
    apply (written_app s0 G fl r addr ds [b] (k_mem s)); try done. rewrite length_app. cbn. eapply writable_sub; [exact W|lia|lia].
  - intros k. cbn [piperead_loop]. unfold getpipe. kstep. fold (pp s). rewrite (pipe_empty _ P). destruct (Z.eqb_spec (fill (pp s)) 0); [lia|].
    unfold getproc. kstep. fold (ptab i s). assert (ptab i s = r) as -> by (unfold ptab; by rewrite Pr). fold b.
    rewrite u64_small by lia. unfold copyout. rewrite (bind_ret _ _ _ _ _ E). change (0 =? -1) with false. cbv iota.
    unfold updpipe. kstep. done.
Qed.

Lemma copied_run k : forall ds s, copied_out ds s -> (length ds + k = n)%nat ->
  exists ds' s', piperead_loop k i pi addr (Z.of_nat (length ds)) s = Ret (Z.of_nat (length (ds ++ ds'))) s' /\
    copied_out (ds ++ ds') s' /\ bytes (pp s) = ds' ++ bytes (pp s') /\ length ds' = Nat.min k (length (bytes (pp s))).
Proof.
  induction k as [|k IH]; intros ds s Co Hl.
  - exists [], s. by rewrite app_nil_r.
  - destruct (decide (0 < fill (pp s))) as [Hf|Hf].
    + destruct (copied_byte ds s Co ltac:(lia) Hf) as (b & s1 & B & Co1 & E). rewrite E.
      replace (Z.of_nat (length ds) + 1) with (Z.of_nat (length (ds ++ [b]))) by (rewrite length_app; cbn; lia).
      destruct (IH (ds ++ [b]) s1 Co1) as (ds' & s' & E' & Co' & B' & Hn); [rewrite length_app; cbn; lia|].
      exists (b :: ds'), s'. rewrite <- app_assoc in E', Co'. split; [exact E'|]. split; [exact Co'|]. rewrite B, B'.
      split; [done|]. cbn. rewrite Hn, B'. done.
    + exists [], s. rewrite app_nil_r. pose proof (length_bytes (pp s)) as Lb. pose proof (fill_range (pp s)). split; [|split; [done|split; [done|cbn [length]; lia]]].
      cbn [piperead_loop]. unfold getpipe. kstep. fold (pp s). rewrite (pipe_empty _ (proj1 (proj2 Co))).
      destruct (Z.eqb_spec (fill (pp s)) 0); [done|lia].
Qed.

End Loop.

(** [ds] is taken from the pipe and is in the buffer, and nothing else of
    memory has changed. *)
Definition took (s s' : kstate) (ds : list Z) : Prop :=
  pipe_ok (pp s') /\ bytes (pp s) = ds ++ bytes (pp s') /\ length ds = Nat.min n (length (bytes (pp s))) /\
  uread (k_mem s') (ptab i s') addr (length ds) = ds /\ pi_writeopen (pp s') = pi_writeopen (pp s) /\
  (forall b, (forall v, addr <= v < addr + Z.of_nat (length ds) -> b <> utrans (k_mem s) (ptab i s) v) -> mget (k_mem s') b = mget (k_mem s) b).

Inductive read_result (k : nat) (s : kstate) : res Z -> Prop :=
| rd_killed s' : pp s' = pp s -> bytes (pp s) = [] -> p_killed (nth i (k_procs s') zero_proc) <> 0 -> read_result k s (Ret (-1) s')
| rd_some s' ds : took s s' ds -> bytes (pp s) <> [] \/ pi_writeopen (pp s) = 0 -> read_result k s (Ret (Z.of_nat (length ds)) s')
| rd_sleep s' c k' ie : pp s' = pp s -> bytes (pp s) = [] -> (k' + 1 = k)%nat ->
    (forall s2, back (LPipe pi) i s2 -> c s2 = read_from k' (awake (LPipe pi) i ie s2)) -> read_result k s (Switch s' c)
| rd_out : k = 0%nat -> bytes (pp s) = [] -> read_result k s Unbounded.

(** The copy and the end of a read. *)
Lemma read_end s : turn (LPipe pi) i s -> pipe_ok (pp s) -> dest s i addr n ->
  exists s' ds, read_rest true s = Ret (Z.of_nat (length ds)) s' /\ took s s' ds.
Proof.
  intros T P (G & fl & OK & R & W). assert (copied_out s [] s) as Co.
  { split; [split; try done; apply (vo_kmem _ _ _ OK)|]. split; [done|]. split; [split; [cbn; lia|done]|done]. }
  destruct (copied_run s G fl OK R W n [] s Co) as (ds & s1 & E & Co1 & B & Hn); [done|]. cbn [app length] in E, Co1.
  assert (turn (LPipe pi) i s1) as T1 by (destruct Co1 as [[C1 L1 P1 _ _] _]; apply (turn_frame i s); [done|done|by rewrite P1|done]).
  exists (rel (LPipe pi) (wk (ChPipeWrite pi) s1)), ds. split.
  - unfold read_rest. cbn [negb]. change 0 with (Z.of_nat 0) at 1. rewrite (bind_ret _ _ _ _ _ E), (bind_ret _ _ _ _ _ (wakeup_inside _ _ (tu_inside _ _ T1))).
    by rewrite (bind_ret _ _ _ _ _ (release_eq _ _ (in_held _ (tu_inside _ _ (turn_wk _ _ _ _ T1))))).
  - destruct (copied_pte s G fl OK R W ds s1 Co1 ltac:(lia)) as [_ Pt]. destruct Co1 as ([C1 L1 Pr1 _ _] & P1 & Wr & Wo).
    split; [exact P1|]. split; [exact B|]. split; [done|]. split; [|split; [exact Wo|apply Wr]]. change (ptab i (rel _ ?x)) with (ptab i x).
    rewrite ptab_wk. change (k_mem (rel _ (wk _ s1))) with (k_mem s1). replace (ptab i s1) with (ptab i s) by (unfold ptab; by rewrite Pr1).
    pose proof (wr_low _ _ _ _ _ _ W). pose proof (wr_high _ _ _ _ _ _ W). apply (written_uread (k_mem s)); [|apply Forall_forall|done].
    + intros v Hv. unfold uaddr. by rewrite Pt by lia.
    + intros b Hb. assert (b ∈ bytes (pp s)) as Hb' by (rewrite B; apply elem_of_app; by left).
      apply list_elem_of_fmap in Hb' as (k & -> & _). unfold byte_at, znth. rewrite nth_lookup. destruct (pi_data (pp s) !! _) eqn:El; [|cbn; lia].
      apply (proj1 (Forall_forall _ _) (po_byte _ P)). by eapply list_elem_of_lookup_2.
Qed.

Lemma read_go s r : turn (LPipe pi) i s -> pipe_ok (pp s) -> dest s i addr n ->
  bytes (pp s) <> [] \/ pi_writeopen (pp s) = 0 -> r = read_rest true s -> forall k, read_result k s r.
Proof. intros T P D Hb -> k. destruct (read_end s T P D) as (s' & ds & -> & Tk). by apply rd_some. Qed.

Lemma read_run k s : turn (LPipe pi) i s -> pipe_ok (pp s) -> dest s i addr n -> read_result k s (read_from k s).
Proof.
  intros T P D. pose proof (length_bytes (pp s)) as Lb. unfold read_from. destruct k as [|k]; cbn [pipe_wait]; unfold getpipe;
    erewrite bind_bind_ret by reflexivity; fold (pp s); rewrite (pipe_empty _ P);
    (destruct (Z.eqb_spec (fill (pp s)) 0) as [E|E]; [|eapply read_go; [done..|left|done]; intros F; rewrite F in Lb; cbn in Lb; lia]);
    (destruct (Z.eqb_spec (pi_writeopen (pp s)) 0) as [Ew|Ew]; [eapply read_go; [done..|by right|done]|]); cbn [andb negb];
    assert (bytes (pp s) = []) as B by (apply length_zero_iff_nil; lia).
  - by apply rd_out.
  - rewrite (bind_bind_ret _ _ _ _ _ _ (killed_turn pi i s T)). match goal with |- context [?x =? 0] => destruct (Z.eqb_spec x 0) as [_|Nk]; cbn [negb] end.
    2: { kstep. unfold read_rest. cbn [negb]. rewrite (bind_ret _ _ _ _ _ (release_eq _ _ (in_held _ (tu_inside _ _ T)))). by apply rd_killed. }
    destruct (turn_sleep (ChPipeRead pi) i s (pipe_wait k i pi) read_rest T) as (c & -> & ie & Hc).
    apply (rd_sleep _ _ _ _ k ie); [done|done|lia|done].
Qed.

End Reader.

(** ** Writers and readers interleaved *)

Inductive call := CWrite (addr : Z) (src : list Z) | CRead (addr : Z) (n : nat).

(** A call that sleeps: how many of its bytes are in the pipe, how often it has
    slept, and how it goes on. *)
Record pending := mk_pending { pe_proc : nat; pe_call : call; pe_put : nat; pe_waits : nat; pe_cont : kstate -> res Z }.

(** A call that has returned [rt_val] in state [rt_end]. *)
Record ret := mk_ret { rt_proc : nat; rt_call : call; rt_put : nat; rt_val : Z; rt_end : kstate }.

Section Machine.
Context {L : Layout}.
Variables (pi : Z) (fuel : nat).
Abbreviation pp := (pp pi).
Abbreviation lk := (LPipe pi).

Definition code (c : call) : K Z :=
  match c with
  | CWrite addr src => pipewrite fuel pi addr (Z.of_nat (length src))
  | CRead addr n => piperead fuel pi addr (Z.of_nat n)
  end.

(** The buffer of a call is mapped: with the bytes to write, or writable. *)
Definition buffer (s : kstate) (i : nat) (c : call) : Prop :=
  match c with
  | CWrite addr src => source s i addr src
  | CRead addr n => dest s i addr n
  end.

(** The bytes a call has put into the pipe between [s] and [s'], seen from the
    counter of the pipe. *)
Definition puts (c : call) (s s' : kstate) : nat :=
  match c with
  | CWrite _ _ => Z.to_nat (u32 (pi_nwrite (pp s') - pi_nwrite (pp s)))
  | CRead _ _ => 0
  end.

(** The bytes that are sent when the number put goes from [d] to [d']. *)
Definition sends (c : call) (d d' : nat) : list Z :=
  match c with
  | CWrite _ src => take (d' - d) (drop d src)
  | CRead _ _ => []
  end.

(** The bytes in the caller's buffer when a read returns [v]. *)
Definition gets_back (c : call) (i : nat) (s : kstate) (v : Z) : list Z :=
  match c with
  | CWrite _ _ => []
  | CRead addr _ => uread (k_mem s) (ptab i s) addr (Z.to_nat v)
  end.

(** [Up]: the calls asleep, the bytes sent and received, and the calls that
    have returned with the number of bytes put and the value.  [Stop w]: the
    fuel of a call is used up after [w] sleeps. *)
Inductive mstate :=
| Up (s : kstate) (pool : list pending) (sent rcvd : list Z) (rets : list ret)
| Down
| Stop (w : nat).

(** How a turn that began in [s] ends. *)
Definition after (s : kstate) (i : nat) (c : call) (d w : nat) (pool : list pending) (sent rcvd : list Z) (rets : list ret) (r : res Z) : mstate :=
  match r with
  | Ret v s' =>
      let d' := (d + puts c s s')%nat in
      Up s' pool (sent ++ sends c d d') (rcvd ++ gets_back c i s' v) (rets ++ [mk_ret i c d' v s'])
  | Switch s' k =>
      let d' := (d + puts c s s')%nat in
      Up s' (pool ++ [mk_pending i c d' (S w) k]) (sent ++ sends c d d') rcvd rets
  | Unbounded => Stop w
  | _ => Down
  end.

(** A call begins; a call that was asleep is scheduled; or the rest of the
    kernel runs, which leaves the bytes of the pipe alone, but may open and
    close its ends, kill processes and schedule them. *)
Inductive step : mstate -> mstate -> Prop :=
| st_call i c s pool sent rcvd rets : at_large lk i s -> buffer s i c ->
    step (Up s pool sent rcvd rets) (after s i c 0 0 pool sent rcvd rets (code c s))
| st_resume q s pool1 pool2 sent rcvd rets : back lk (pe_proc q) s -> plocks_free s -> length (k_procs s) = NPROC ->
    buffer s (pe_proc q) (pe_call q) ->
    step (Up s (pool1 ++ q :: pool2) sent rcvd rets)
      (after s (pe_proc q) (pe_call q) (pe_put q) (pe_waits q) (pool1 ++ pool2) sent rcvd rets (pe_cont q s))
| st_other s s' pool sent rcvd rets : pi_data (pp s') = pi_data (pp s) -> pi_nread (pp s') = pi_nread (pp s) ->
    pi_nwrite (pp s') = pi_nwrite (pp s) -> step (Up s pool sent rcvd rets) (Up s' pool sent rcvd rets).

(** As pipealloc() leaves the pipe. *)
Definition new_pipe (s : kstate) : Prop := pipe_ok (pp s) /\ pi_nread (pp s) = 0 /\ pi_nwrite (pp s) = 0.

Definition reachable (m : mstate) : Prop :=
  exists s, new_pipe s /\ rtc step (Up s [] [] [] []) m.

(** *** The invariant *)

(** A sleeping call goes on with its loop where it stopped. *)
Definition goes_on (q : pending) : Prop :=
  exists k ie, match pe_call q with
  | CWrite addr src => (pe_put q <= length src)%nat /\ (k + pe_put q + pe_waits q = length src + fuel)%nat /\
      forall s, back lk (pe_proc q) s -> pe_cont q s = write_from pi (pe_proc q) addr src k (pe_put q) (awake lk (pe_proc q) ie s)
  | CRead addr n => (k + pe_waits q = fuel)%nat /\
      forall s, back lk (pe_proc q) s -> pe_cont q s = read_from pi (pe_proc q) addr n k (awake lk (pe_proc q) ie s)
  end.

(** What the value of a call says.  A write returns the number of bytes it was
    asked for, and has put them all, or -1 when no reader is left or the process
    is killed.  A read returns how many bytes it got, 0 only at the end of the
    data, or -1 when the process is killed. *)
Definition honest (x : ret) : Prop :=
  let dead := p_killed (nth (rt_proc x) (k_procs (rt_end x)) zero_proc) <> 0 in
  match rt_call x with
  | CWrite _ src =>
      rt_val x = Z.of_nat (length src) /\ rt_put x = length src \/
      rt_val x = -1 /\ (pi_readopen (pp (rt_end x)) = 0 \/ dead)
  | CRead _ n =>
      0 <= rt_val x <= Z.of_nat n /\ (rt_val x = 0 -> n = 0%nat \/ pi_writeopen (pp (rt_end x)) = 0) \/
      rt_val x = -1 /\ dead
  end.

Definition inv (m : mstate) : Prop :=
  match m with
  | Up s pool sent rcvd rets => pipe_ok (pp s) /\ sent = rcvd ++ bytes (pp s) /\ Forall goes_on pool /\ Forall honest rets
  | Down => False
  | Stop w => (fuel <= w)%nat
  end.

Lemma wrote_puts addr src s s' idx j : pipe_ok (pp s) -> wrote pi src s s' idx j -> (idx <= j <= length src)%nat -> puts (CWrite addr src) s s' = (j - idx)%nat.
Proof.
  intros P (P' & B & N) Hj. unfold puts. pose proof (length_bytes (pp s)) as L1. pose proof (length_bytes (pp s')) as L2.
  rewrite B, length_app, length_take, length_drop in L2. pose proof (po_fill _ P'). pose proof (fill_range (pp s)). unfold PIPESIZE in *.
  replace (u32 (pi_nwrite (pp s') - pi_nwrite (pp s))) with (u32 (fill (pp s') - fill (pp s))).
  - rewrite <- L1, <- L2. unfold u32. rewrite Z.mod_small by lia. lia.
  - unfold fill, u32. rewrite N, <- Zminus_mod. f_equal. lia.
Qed.

Lemma wrote_sends addr src s0 s s' idx j sent rcvd : pp s = pp s0 -> pipe_ok (pp s) -> wrote pi src s s' idx j -> (idx <= j <= length src)%nat ->
  sent = rcvd ++ bytes (pp s) ->
  (idx + puts (CWrite addr src) s0 s')%nat = j /\ sent ++ sends (CWrite addr src) idx j = rcvd ++ bytes (pp s').
Proof.
  intros Es P W Hj ->. pose proof (wrote_puts addr src s s' idx j P W Hj) as Hp. unfold puts in *. rewrite <- Es, Hp.
  destruct W as (_ & B & _). split; [lia|]. cbn [sends]. by rewrite B, app_assoc.
Qed.

Lemma inv_write i addr src k s0 s idx w pool sent rcvd rets : turn lk i s -> pp s = pp s0 -> source s i addr src -> (idx <= length src)%nat ->
  (k + idx + w = length src + fuel)%nat -> inv (Up s0 pool sent rcvd rets) ->
  inv (after s0 i (CWrite addr src) idx w pool sent rcvd rets (write_from pi i addr src k idx s)).
Proof.
  intros T Es Src Hi Hk (P & Hs & Hp & Hr). rewrite <- Es in P, Hs. cbn [inv].
  destruct (write_run pi i addr src k s idx T P Src Hi) as [s' W|s' j Hj W Hg|s' c j k' ie Hj Hk' W Hc|Ho]; unfold after; cbn [inv gets_back]; [| | |lia].
  - destruct (wrote_sends addr src s0 s s' idx (length src) sent rcvd) as [-> ->]; [done..|]. rewrite app_nil_r.
    split; [apply W|]. split; [done|]. split; [done|]. apply Forall_app. split; [done|]. constructor; [by left|constructor].
  - destruct (wrote_sends addr src s0 s s' idx j sent rcvd) as [-> ->]; [done..|]. rewrite app_nil_r.
    split; [apply W|]. split; [done|]. split; [done|]. apply Forall_app. split; [done|]. constructor; [by right|constructor].
  - destruct (wrote_sends addr src s0 s s' idx j sent rcvd) as [-> ->]; [done|done|done|lia|done|].
    split; [apply W|]. split; [done|]. split; [|done]. apply Forall_app. split; [done|]. constructor; [|constructor].
    exists k', ie. cbn. split; [lia|]. split; [lia|done].
Qed.

Lemma inv_read i addr n k s0 s d w pool sent rcvd rets : turn lk i s -> pp s = pp s0 -> dest s i addr n ->
  (k + w = fuel)%nat -> inv (Up s0 pool sent rcvd rets) ->
  inv (after s0 i (CRead addr n) d w pool sent rcvd rets (read_from pi i addr n k s)).
Proof.
  intros T Es D Hk (P & Hs & Hp & Hr). rewrite <- Es in P, Hs.
  destruct (read_run pi i addr n k s T P D) as [s' E B Hk0|s' ds (P' & B & Hn & U & Wo & _) Hw|s' c k' ie E B Hk' Hc|Hk0 _]; unfold after; cbn [inv gets_back sends puts];
    rewrite ?app_nil_r; [| | |lia].
  - rewrite E. split; [done|]. split; [done|]. split; [done|]. apply Forall_app. split; [done|]. constructor; [by right|constructor].
  - rewrite Nat2Z.id, U, Hs, B, app_assoc. split; [done|]. split; [done|]. split; [done|]. apply Forall_app. split; [done|].
    constructor; [|constructor]. left. cbn [rt_val rt_end]. split; [lia|]. intros Hz. rewrite Wo. destruct Hw as [Hw|Hw]; [left|by right].
    destruct (bytes (pp s)); [done|]. cbn [length] in Hn. lia.
  - rewrite E. split; [done|]. split; [done|]. split; [|done]. apply Forall_app. split; [done|]. constructor; [|constructor].
    exists k', ie. cbn. split; [lia|done].
Qed.

(** *** Starting and resuming *)

Lemma same_acq i s : at_large lk i s -> same_memory i s (acq lk s).
Proof.
  intros H. pose proof (turn_cpu_ok _ _ _ (ready_turn (lk := lk) i s H)) as C. split; [done|done| |exact C|done].
  cbn. by rewrite lookup_insert_ne.
Qed.

Lemma same_awake i ie s : turn lk i (awake lk i ie s) -> (i < length (k_procs s))%nat -> same_memory i s (awake lk i ie s).
Proof.
  intros T Hi. split; [done|done| |exact (turn_cpu_ok _ _ _ T)|].
  - cbn. rewrite lookup_insert_ne, lookup_delete_ne by done. done.
  - unfold ptab. cbn. by rewrite nth_lookup, list_lookup_insert_eq.
Qed.

Lemma buffer_same i s s' c : same_memory i s s' -> buffer s i c -> buffer s' i c.
Proof. destruct c; [apply source_same|apply dest_same]. Qed.

Lemma code_eq i c s : at_large lk i s -> code c s =
  match c with
  | CWrite addr src => write_from pi i addr src (length src + fuel) 0 (acq lk s)
  | CRead addr n => read_from pi i addr n fuel (acq lk s)
  end.
Proof.
  intros [Ro Rn Rp Rf Rl]. destruct (ou_free _ Ro) as [C _].
  destruct c; unfold code, pipewrite, piperead; rewrite (bind_ret _ _ _ _ _ (curproc_eq s i C Rp));
    erewrite bind_ret by (rewrite acquire_settle; apply acquire_eq; split; [done|apply Ro]); rewrite Nat2Z.id; done.
Qed.

Lemma pipe_step m m' : step m m' -> inv m -> inv m'.
Proof.
  intros [i c s pool sent rcvd rets A B|q s pool1 pool2 sent rcvd rets Bk Pf Hl B|s s' pool sent rcvd rets H1 H2 H3] I.
  - rewrite (code_eq i) by done. apply (buffer_same i s (acq lk s)) in B; [|by apply same_acq]. pose proof (ready_turn (lk := lk) i s A) as T.
    destruct c; [apply inv_write|apply inv_read]; try done; lia.
  - destruct I as (P & Hs & Hp & Hr). apply Forall_app in Hp as [Hp1 [Hq Hp2]%Forall_cons].
    destruct q as [i c d w k]. cbn [pe_proc pe_call pe_put pe_waits pe_cont] in *. destruct Hq as (k' & ie & Hq). cbn in Hq.
    pose proof (turn_awake (lk := lk) i ie s Bk Pf Hl) as T.
    apply (buffer_same i s (awake lk i ie s)) in B; [|apply same_awake; [done|apply Bk]].
    assert (inv (Up s (pool1 ++ pool2) sent rcvd rets)) as I' by (split; [done|split; [done|split; [by apply Forall_app|done]]]).
    destruct c; [destruct Hq as (H1 & H2 & Hq); rewrite Hq by done; by apply inv_write|destruct Hq as (H1 & Hq); rewrite Hq by done; by apply inv_read].
  - destruct I as (P & Hs & Hp & Hr). assert (bytes (pp s') = bytes (pp s)) as E by (unfold bytes, fill, byte_at; by rewrite H1, H2, H3).
    split; [|by rewrite E]. destruct P as [P1 P2 P3 P4 P5]. split; unfold fill; rewrite ?H1, ?H2, ?H3; done.
Qed.

Lemma inv_reachable m : reachable m -> inv m.
Proof.
  intros (s & (P & N1 & N2) & Hr). assert (inv (Up s [] [] [] [])) as I.
  { split; [done|]. split; [|by split]. unfold bytes, fill. by rewrite N1, N2. }
  induction Hr as [|? ? ? S _ IH]; [done|]. by apply IH, (pipe_step _ _ S).
Qed.

(** C26 A pipe is a bounded first-in first-out queue of bytes,
    whatever the interleaving.  Any number of processes call pipewrite() and
    piperead() on it, their calls take turns wherever they sleep, and in
    between other code may close an end or kill them.  No call ever panics or
    blocks on a lock.  The bytes that writers have put in are, in order, those
    that readers have found in their buffers, followed by at most 512 bytes in
    the pipe.  A write that returns its length has put in all its bytes; it
    returns -1 only when no reader is left or the process is killed.  A read
    returns 0 only for an empty buffer or when no writer is left, and -1 only
    when the process is killed.  The model of a call runs out of fuel only
    after it has slept [fuel] times. *)
Theorem pipe_fifo m : reachable m ->
  match m with
  | Up s pool sent rcvd rets =>
      sent = rcvd ++ bytes (pp s) /\ Z.of_nat (length (bytes (pp s))) <= PIPESIZE /\ Forall honest rets
  | Down => False
  | Stop w => (fuel <= w)%nat
  end.
Proof.
  intros I%inv_reachable. destruct m as [s pool sent rcvd rets| |w]; [|done..].
  destruct I as (P & Hs & _ & Hr). split; [done|]. split; [|done]. rewrite length_bytes. apply P.
Qed.

(** A write into an empty pipe, and a read of all its bytes. *)
Lemma step_write i addr src s : at_large lk i s -> source s i addr src -> new_pipe s -> can_write pi i s -> Z.of_nat (length src) <= PIPESIZE ->
  exists s' rets, step (Up s [] [] [] []) (Up s' [] src [] rets) /\ pipe_ok (pp s') /\ bytes (pp s') = src.
Proof.
  intros A B (P & N1 & N2) Cw Hl. pose proof (ready_turn (lk := lk) i s A) as T.
  assert (source (acq lk s) i addr src) as B' by (eapply source_same; [by apply same_acq|done]).
  assert (bytes (pp s) = []) as E0 by (unfold bytes, fill; by rewrite N1, N2).
  pose proof (length_bytes (pp s)) as F0. rewrite E0 in F0. cbn in F0.
  destruct (write_room pi i addr src (length src) (acq lk s) 0 T P B' eq_refl Cw) with (k' := fuel) as [s' E]; [change (pp (acq lk s)) with (pp s); lia|].
  pose proof (write_run pi i addr src (length src + fuel) _ 0 T P B' ltac:(lia)) as W. rewrite E in W.
  assert (wrote pi src (acq lk s) s' 0 (length src)) as Wr by (inversion W; [done|lia]).
  destruct (wrote_sends addr src s (acq lk s) s' 0 (length src) [] [] eq_refl P Wr ltac:(lia)) as [Ep Es]; [exact (eq_sym E0)|].
  pose proof (st_call i (CWrite addr src) s [] [] [] [] A B) as S. rewrite (code_eq i) in S by done. rewrite E in S. unfold after in S. rewrite Ep, Es in S.
  cbn [app gets_back] in S, Es. destruct Wr as (P' & Bs & _). change (pp (acq lk s)) with (pp s) in Bs. rewrite E0, drop_0, Nat.sub_0_r, firstn_all in Bs.
  eexists s', _. rewrite Bs in S. split; [exact S|]. done.
Qed.

Lemma step_read i addr n s pool sent rets : at_large lk i s -> dest s i addr n -> pipe_ok (pp s) -> bytes (pp s) <> [] -> length (bytes (pp s)) = n ->
  exists s' rets', step (Up s pool sent [] rets) (Up s' pool sent (bytes (pp s)) rets').
Proof.
  intros A D P Ne Hn. pose proof (ready_turn (lk := lk) i s A) as T.
  assert (dest (acq lk s) i addr n) as D' by (eapply dest_same; [by apply same_acq|done]).
  pose proof (st_call i (CRead addr n) s pool sent [] rets A D) as S. rewrite (code_eq i) in S by done.
  destruct (read_run pi i addr n fuel (acq lk s) T P D') as [s' _ E _|s' ds (P' & Bs & Hl & U & _) _|s' c k' ie _ E _ _|_ E]; [done| |done|done].
  change (pp (acq lk s)) with (pp s) in *. rewrite Hn, Nat.min_id in Hl. rewrite Bs, length_app in Hn.
  assert (bytes (pp s') = []) as E by (apply length_zero_iff_nil; lia). rewrite E, app_nil_r in Bs.
  unfold after in S. cbn [sends gets_back puts] in S. rewrite Nat2Z.id, U, app_nil_r in S. cbn [app] in S. rewrite Bs. eauto.
Qed.

End Machine.

(** *** A pipe of a process with three pages *)

Definition demo_pipe : Z := 0x80100000.

Definition demo_state (r : Z) (p : pipe) (s : kstate) : kstate :=
  set_k_procs (replicate NPROC (set_p_pagetable r zero_proc))
    (set_k_locks ∅ (set_k_cpu (mk_cpu 0 (Some 0%nat) 0 true true) (set_k_pipes {[demo_pipe := p]} s))).

Lemma demo_pp r p s : pp demo_pipe (demo_state r p s) = p.
Proof. unfold pp. change (k_pipes _) with ({[demo_pipe := p]} : gmap Z pipe). by rewrite lookup_singleton_eq. Qed.

Lemma demo_large r p s : at_large (LPipe demo_pipe) 0 (demo_state r p s).
Proof. split; [|done|done|done|unfold NPROC; lia]. split; [done| |done]. split; [split; cbn; lia|done]. Qed.

Lemma demo_vmok r p s G fl : @vmok small_layout s G fl -> @vmok small_layout (demo_state r p s) G fl.
Proof. intros V. apply (@vmok_frame small_layout s); [done|done| |split; cbn; lia|done]. symmetry. apply (vo_lock _ _ _ V). Qed.

Lemma pipe_fifo_witness : exists s rets src, length src = 2%nat /\
  @reachable small_layout demo_pipe 1 (Up s [] src src rets) /\ bytes (pp demo_pipe s) = [].
Proof.
  destruct (user_pages PTE_W) as (s0 & G0 & fl0 & r & s & G & fl & ps & OK0 & R0 & R & Hl & AL & _); [done|].
  pose proof (@al_ok small_layout _ _ _ _ _ _ _ _ _ _ AL) as OK. set (src := uread (k_mem s) r 0 2).
  assert (forall a, 0 <= a <= 0x10 -> writable s G fl r a 2) as W.
  { intros a Ha. apply (@alloced_writable small_layout _ _ _ _ _ _ _ _ _ _ _ _ OK0 AL); try done; rewrite ?Hl; (done || unfold PGSIZE; lia). }
  set (p0 := mk_pipe (replicate 512 0) 0 0 1 1).
  assert (@new_pipe demo_pipe (demo_state r p0 s)) as Np.
  { split; [|done]. split; [done|done|done|done|]. by apply Forall_replicate. }
  destruct (@step_write small_layout demo_pipe 1 0 0 src (demo_state r p0 s)) as (s2 & rt2 & S1 & P2 & B2); try done.
  - apply demo_large.
  - exists G, fl. split; [by apply demo_vmok|]. pose proof (W 0 ltac:(lia)) as [_ _ U _ _ _]. done.
  - set (s3 := demo_state r (pp demo_pipe s2) s).
    assert (pp demo_pipe s3 = pp demo_pipe s2) as E3 by apply demo_pp.
    destruct (@step_read small_layout demo_pipe 1 0 0x10 2 s3 [] src rt2) as (s4 & rt4 & S3); rewrite ?E3, ?B2; try done.
    + apply demo_large.
    + exists G, fl. split; [by apply demo_vmok|]. split; [done|]. destruct (W 0x10 ltac:(lia)). by split.
    + assert (@reachable small_layout demo_pipe 1 (Up s4 [] src src rt4)) as Hr.
      { exists (demo_state r p0 s). split; [done|]. eapply rtc_l; [exact S1|]. eapply rtc_l; [by apply st_other with (s' := s3); rewrite E3|].
        rewrite E3, B2 in S3. by apply rtc_once. }
      exists s4, rt4, src. split; [done|]. split; [exact Hr|]. destruct (pipe_fifo demo_pipe 1 _ Hr) as (H & _).
      rewrite <- (app_nil_r src) in H at 1. by apply app_inv_head in H.
Defined.
