(* ===== verification/File.v ===== *)
(** * Open files (kernel/file.c, pipealloc() of pipe.c), the code

    A [struct file *] is the index of an entry of [k_ftable]. *)

From S2P Require Import Prelude Riscv Memory KState KMonad Spinlock Kalloc Vm Proc Printf Sleeplock Bio Log Fs.
From S2P Require Import Plic Console Pipe.

Definition getfile (f : nat) : K file := gets (fun s => nth f s.(k_ftable) zero_file).
Definition updfile (f : nat) (g : file -> file) : K unit :=
  modify (fun s => set_k_ftable (<[f := g (nth f s.(k_ftable) zero_file)]> s.(k_ftable)) s).

Definition fileinit : K unit := initlock LFtable.

Definition filealloc : K (option nat) :=
  acquire LFtable ;;
  r ← kscan (seq 0 NFILE) (fun f =>
    x ← getfile f;
    if x.(f_ref) =? 0 then
      updfile f (set_f_ref 1) ;;
      release LFtable ;;
      mret (Some f)
    else mret None);
  match r with
  | Some f => mret (Some f)
  | None => release LFtable ;; mret None
  end.

Definition filedup (f : nat) : K nat :=
  acquire LFtable ;;
  x ← getfile f;
  if x.(f_ref) <? 1 then kpanic "filedup" else
  updfile f (fun x => set_f_ref (s32 (x.(f_ref) + 1)) x) ;;
  release LFtable ;;
  mret f.

(** The table [devsw]: is there a driver with this major number? *)
Definition devsw_at (major : Z) : K (option device) :=
  if ((major <? 0) || (NDEV <=? major))%bool then mret None else
  gets (fun s => znth None s.(k_devsw) major).

Section File.
Context {L : Layout} {D : Disk}.
Variable fuel : nat.

Definition iput_ptr (o : option nat) : K unit :=
  match o with Some ip => iput fuel ip | None => kpanic "kerneltrap" end.

Definition fileclose (f : nat) : K unit :=
  acquire LFtable ;;
  x ← getfile f;
  if x.(f_ref) <? 1 then kpanic "fileclose" else
  updfile f (fun x => set_f_ref (s32 (x.(f_ref) - 1)) x) ;;
  ff ← getfile f;
  if 0 <? ff.(f_ref) then release LFtable else
  updfile f (set_f_ref 0) ;;
  updfile f (set_f_type FD_NONE) ;;
  release LFtable ;;
  match ff.(f_type) with
  | FD_PIPE => pipeclose ff.(f_pipe) (negb (ff.(f_writable) =? 0))
  | FD_INODE | FD_DEVICE =>
      begin_op fuel ;;
      iput_ptr ff.(f_ip) ;;
      end_op fuel
  | FD_NONE => mret tt
  end.

Definition close_ptr (o : option nat) : K unit :=
  match o with Some f => fileclose f | None => mret tt end.

(** pipealloc(): the two files, or None for -1. *)
Definition pipealloc : K (option (nat * nat)) :=
  f0 ← filealloc;
  match f0 with
  | None => mret None
  | Some a =>
      f1 ← filealloc;
      match f1 with
      | None => close_ptr f0 ;; mret None
      | Some b =>
          pi ← kalloc;
          if pi =? 0 then close_ptr f0 ;; close_ptr f1 ;; mret None else
          modify (fun s => set_k_pipes (<[pi := fresh_pipe]> s.(k_pipes)) s) ;;
          updpipe pi (set_pi_readopen 1) ;;
          updpipe pi (set_pi_writeopen 1) ;;
          updpipe pi (set_pi_nwrite 0) ;;
          updpipe pi (set_pi_nread 0) ;;
          initlock (LPipe pi) ;;
          updfile a (fun x => set_f_pipe pi (set_f_writable 0 (set_f_readable 1 (set_f_type FD_PIPE x)))) ;;
          updfile b (fun x => set_f_pipe pi (set_f_writable 1 (set_f_readable 0 (set_f_type FD_PIPE x)))) ;;
          mret (Some (a, b))
      end
  end.

(** [st] is what the uninitialised local variable has. *)
Definition filestat (st : list Z) (f : nat) (addr : Z) : K Z :=
  '(i, _) ← curproc;
  x ← getfile f;
  match x.(f_type) with
  | FD_INODE | FD_DEVICE =>
      ilock fuel x.(f_ip) ;;
      ip ← (match x.(f_ip) with Some k => getino k | None => kpanic "ilock" end);
      iunlock x.(f_ip) ;;
      p ← getproc i;
      r ← copyout p.(p_pagetable) addr (stati ip st);
      mret (if r <? 0 then -1 else 0)
  | _ => mret (-1)
  end.

Definition fileread (f : nat) (addr n : Z) : K Z :=
  x ← getfile f;
  if x.(f_readable) =? 0 then mret (-1) else
  match x.(f_type) with
  | FD_PIPE => piperead fuel x.(f_pipe) addr n
  | FD_DEVICE =>
      d ← devsw_at x.(f_major);
      match d with
      | Some DevConsole => consoleread fuel true addr n
      | None => mret (-1)
      end
  | FD_INODE =>
      ilock fuel x.(f_ip) ;;
      r ← (match x.(f_ip) with
           | Some i => readi fuel i (UserAt addr) x.(f_off) (u32 n)
           | None => kpanic "ilock"
           end);
      kwhen (0 <? r) (updfile f (fun x => set_f_off (u32 (x.(f_off) + r)) x)) ;;
      iunlock x.(f_ip) ;;
      mret r
  | FD_NONE => kpanic "fileread"
  end.

(** The most bytes one transaction of filewrite() writes. *)
Definition write_max : Z := (MAXOPBLOCKS - 1 - 1 - 2) / 2 * BSIZE.

(** One transaction of filewrite(). *)
Definition filewrite_some (f ip : nat) (addr n1 : Z) : K Z :=
  begin_op fuel ;;
  ilock fuel (Some ip) ;;
  x ← getfile f;
  r ← writei fuel ip (UserAt addr) x.(f_off) n1;
  kwhen (0 <? r) (updfile f (fun x => set_f_off (u32 (x.(f_off) + r)) x)) ;;
  iunlock (Some ip) ;;
  end_op fuel ;;
  mret r.

Fixpoint filewrite_loop (k : nat) (f ip : nat) (addr n i : Z) : K Z :=
  if i <? n then
    match k with
    | O => unbounded
    | S k' =>
        let n1 := if write_max <? n - i then write_max else n - i in
        r ← filewrite_some f ip (u64 (addr + i)) n1;
        if negb (r =? n1) then mret i else
        filewrite_loop k' f ip addr n (i + r)
    end
  else mret i.

Definition filewrite (f : nat) (addr n : Z) : K Z :=
  x ← getfile f;
  if x.(f_writable) =? 0 then mret (-1) else
  match x.(f_type) with
  | FD_PIPE => pipewrite fuel x.(f_pipe) addr n
  | FD_DEVICE =>
      d ← devsw_at x.(f_major);
      match d with
      | Some DevConsole => consolewrite fuel true addr n
      | None => mret (-1)
      end
  | FD_INODE =>
      match x.(f_ip) with
      | None => kpanic "ilock"
      | Some ip =>
          i ← filewrite_loop (Z.to_nat (n / write_max) + 1) f ip addr n 0;
          mret (if i =? n then n else -1)
      end
  | FD_NONE => kpanic "filewrite"
  end.

End File.
