(* ===== verification/Exec.v ===== *)
(** * exec (kernel/exec.c, elf.h), the code

    The ELF and program headers are local variables, kept as their bytes.
    The argument strings are lists of bytes without the NUL. *)

From S2P Require Import Prelude Riscv Memory KState KMonad Spinlock Kalloc Vm Proc Printf Sleeplock Bio Log Fs.

Definition ELF_MAGIC : Z := 0x464C457F.
Definition ELF_PROG_LOAD : Z := 1.
Definition ELFHDR : Z := 64.
Definition PROGHDR : Z := 56.

Definition get_dword (data : list Z) (off : Z) : Z := of_bytes (take 8 (drop (Z.to_nat off) data)).

(** The fields of [struct elfhdr] and [struct proghdr] the code reads. *)
Definition elf_magic (h : list Z) : Z := get_word h 0.
Definition elf_entry (h : list Z) : Z := get_dword h 24.
Definition elf_phoff (h : list Z) : Z := get_dword h 32.
Definition elf_phnum (h : list Z) : Z := get_half h 56.
Definition ph_type (h : list Z) : Z := get_word h 0.
Definition ph_flags (h : list Z) : Z := get_word h 4.
Definition ph_off (h : list Z) : Z := get_dword h 8.
Definition ph_vaddr (h : list Z) : Z := get_dword h 16.
Definition ph_filesz (h : list Z) : Z := get_dword h 32.
Definition ph_memsz (h : list Z) : Z := get_dword h 40.

Definition flags2perm (flags : Z) : Z :=
  let perm := if has flags 1 then PTE_X else 0 in
  if has flags 2 then Z.lor perm PTE_W else perm.

(** safestrcpy(dst, src, n) over byte lists: the rest of [dst] is kept. *)
Definition lsafestrcpy (dst src : list Z) (n : nat) : list Z :=
  put_bytes dst 0 (take (n - 1) (cstr src) ++ [0]).

(** What follows the last slash. *)
Fixpoint last_elem (last s : list Z) : list Z :=
  match s with
  | [] => last
  | c :: s' => last_elem (if c =? 47 then s' else last) s'
  end.

Section Exec.
Context {L : Layout} {D : Disk}.
Variable fuel : nat.

Fixpoint loadseg_loop (k : nat) (pagetable va : Z) (ip : nat) (offset sz i : Z) : K Z :=
  if i <? sz then
    match k with
    | O => unbounded
    | S k' =>
        pa ← walkaddr pagetable (u64 (va + i));
        if pa =? 0 then kpanic "loadseg: address should exist" else
        let n := if sz - i <? PGSIZE then sz - i else PGSIZE in
        r ← readi fuel ip (KernAt pa) (u32 (offset + i)) n;
        if negb (u32 r =? n) then mret (-1) else
        loadseg_loop k' pagetable va ip offset sz (u32 (i + PGSIZE))
    end
  else mret 0.

Definition loadseg (pagetable va : Z) (ip : nat) (offset sz : Z) : K Z :=
  loadseg_loop (Z.to_nat (sz / PGSIZE) + 1) pagetable va ip offset sz 0.

(** The loop over the program headers: the size so far, and false for
    [goto bad]. *)
Fixpoint load_segments (n : nat) (pagetable : Z) (ip : nat) (off sz : Z) : K (Z * bool) :=
  match n with
  | O => mret (sz, true)
  | S n' =>
      '(r, ph) ← readi_bytes fuel ip (Local []) (u32 off) PROGHDR;
      if negb (r =? PROGHDR) then mret (sz, false) else
      if negb (ph_type ph =? ELF_PROG_LOAD) then load_segments n' pagetable ip (s32 (off + PROGHDR)) sz else
      if ph_memsz ph <? ph_filesz ph then mret (sz, false) else
      if u64 (ph_vaddr ph + ph_memsz ph) <? ph_vaddr ph then mret (sz, false) else
      if negb (ph_vaddr ph mod PGSIZE =? 0) then mret (sz, false) else
      sz1 ← uvmalloc pagetable sz (u64 (ph_vaddr ph + ph_memsz ph)) (flags2perm (ph_flags ph));
      if sz1 =? 0 then mret (sz, false) else
      r ← loadseg pagetable (ph_vaddr ph) ip (u32 (ph_off ph)) (u32 (ph_filesz ph));
      if r <? 0 then mret (sz1, false) else
      load_segments n' pagetable ip (s32 (off + PROGHDR)) sz1
  end.

(** The loop that pushes the argument strings: the stack pointer and the
    addresses of the strings, or None for [goto bad]. *)
Fixpoint push_args (argv : list (list Z)) (pagetable sp stackbase : Z) (ustack : list Z)
  : K (option (Z * list Z)) :=
  match argv with
  | [] => mret (Some (sp, ustack))
  | arg :: argv' =>
      if (MAXARG <=? length ustack)%nat then mret None else
      let sp := u64 (sp - (Z.of_nat (length arg) + 1)) in
      let sp := u64 (sp - sp mod 16) in
      if sp <? stackbase then mret None else
      r ← copyout pagetable sp (arg ++ [0]);
      if r <? 0 then mret None else
      push_args argv' pagetable sp stackbase (ustack ++ [sp])
  end.

(** The code at the label [bad]. *)
Definition exec_bad (pagetable sz : Z) (ip : option nat) : K Z :=
  kwhen (negb (pagetable =? 0)) (proc_freepagetable pagetable sz) ;;
  match ip with
  | Some i => iunlockput fuel i ;; end_op fuel
  | None => mret tt
  end ;;
  mret (-1).

(** After the arguments are on the stack: commit to the new image. *)
Definition exec_commit (path : list Z) (elf : list Z) (pagetable sz oldsz sp argc : Z) : K Z :=
  '(i, p) ← curproc;
  kstore (p.(p_trapframe) + TF_a 1) sp ;;
  updproc i (fun p => set_p_name (lsafestrcpy p.(p_name) (last_elem path path) 16) p) ;;
  let oldpagetable := p.(p_pagetable) in
  updproc i (set_p_pagetable pagetable) ;;
  updproc i (set_p_sz sz) ;;
  kstore (p.(p_trapframe) + TF_epc) (elf_entry elf) ;;
  kstore (p.(p_trapframe) + TF_sp) sp ;;
  proc_freepagetable oldpagetable oldsz ;;
  mret argc.

(** The part of kexec() that builds the user stack. *)
Definition exec_stack (path : list Z) (argv : list (list Z)) (elf : list Z) (pagetable sz : Z) : K Z :=
  '(_, p) ← curproc;
  let oldsz := p.(p_sz) in
  let sz := PGROUNDUP sz in
  sz1 ← uvmalloc pagetable sz (u64 (sz + (USERSTACK + 1) * PGSIZE)) PTE_W;
  if sz1 =? 0 then exec_bad pagetable sz None else
  let sz := sz1 in
  uvmclear pagetable (u64 (sz - (USERSTACK + 1) * PGSIZE)) ;;
  let stackbase := u64 (sz - USERSTACK * PGSIZE) in
  o ← push_args argv pagetable sz stackbase [];
  match o with
  | None => exec_bad pagetable sz None
  | Some (sp, ustack) =>
      let argc := Z.of_nat (length ustack) in
      let sp := u64 (sp - (argc + 1) * 8) in
      let sp := u64 (sp - sp mod 16) in
      if sp <? stackbase then exec_bad pagetable sz None else
      r ← copyout pagetable sp (concat (map (bytes_of 8) (ustack ++ [0])));
      if r <? 0 then exec_bad pagetable sz None else
      exec_commit path elf pagetable sz oldsz sp argc
  end.

Definition kexec (path : list Z) (argv : list (list Z)) : K Z :=
  '(i, _) ← curproc;
  begin_op fuel ;;
  o ← namei fuel path;
  match o with
  | None => end_op fuel ;; mret (-1)
  | Some ip =>
      ilock fuel (Some ip) ;;
      '(r, elf) ← readi_bytes fuel ip (Local []) 0 ELFHDR;
      if negb (r =? ELFHDR) then exec_bad 0 0 (Some ip) else
      if negb (elf_magic elf =? ELF_MAGIC) then exec_bad 0 0 (Some ip) else
      pagetable ← proc_pagetable i;
      if pagetable =? 0 then exec_bad 0 0 (Some ip) else
      '(sz, ok) ← load_segments (Z.to_nat (elf_phnum elf)) pagetable ip (s32 (elf_phoff elf)) 0;
      if negb ok then exec_bad pagetable sz (Some ip) else
      iunlockput fuel ip ;;
      end_op fuel ;;
      exec_stack path argv elf pagetable sz
  end.

End Exec.
