(* ===== verification/Life.v ===== *)
(** * Creating and ending processes (kernel/proc.c, trap.c, sysproc.c)

    userinit(), kfork(), kexit(), forkret() and prepare_return(), which call
    the file system; the system calls fork and exit. *)

From S2P Require Import Prelude Riscv Memory KState KMonad Spinlock Kalloc Vm Proc Printf Sleeplock Bio Log Fs.
From S2P Require Import Plic Console Pipe File Exec Syscall.

(** ** Control registers

    The SIE bit of sstatus is [c_intr]. *)
Definition read_csr (r : csr) (s : kstate) : Z :=
  match r with
  | Sstatus =>
      let x := Z.land (s.(k_csr) Sstatus) (Z.lnot SSTATUS_SIE) in
      if s.(k_cpu).(c_intr) then Z.lor x SSTATUS_SIE else x
  | Tp => s.(k_cpu).(c_id)
  | _ => s.(k_csr) r
  end.

Definition r_csr (r : csr) : K Z := gets (read_csr r).

Definition w_csr (r : csr) (v : Z) : K unit :=
  modify (fun s =>
    let s := set_k_csr (fun r' => if bool_decide (r' = r) then u64 v else s.(k_csr) r') s in
    match r with
    | Sstatus => set_k_cpu (set_c_intr (has v SSTATUS_SIE) s.(k_cpu)) s
    | Tp => set_k_cpu (set_c_id v s.(k_cpu)) s
    | _ => s
    end).

Section Life.
Context {L : Layout} {D : Disk}.
Variable fuel : nat.

Definition prepare_return : K unit :=
  '(_, p) ← curproc;
  intr_off ;;
  w_csr Stvec (TRAMPOLINE + (kuservec - ktrampoline)) ;;
  satp ← r_csr Satp;
  kstore (p.(p_trapframe) + TF_kernel_satp) satp ;;
  kstore (p.(p_trapframe) + TF_kernel_sp) (u64 (p.(p_kstack) + PGSIZE)) ;;
  kstore (p.(p_trapframe) + TF_kernel_trap) kusertrap ;;
  tp ← r_csr Tp;
  kstore (p.(p_trapframe) + TF_kernel_hartid) tp ;;
  x ← r_csr Sstatus;
  w_csr Sstatus (Z.lor (Z.land x (Z.lnot SSTATUS_SPP)) SSTATUS_SPIE) ;;
  epc ← kload (p.(p_trapframe) + TF_epc);
  w_csr Sepc epc.

Definition userinit : K unit :=
  o ← allocproc;
  match o with
  | None => kpanic "kerneltrap"
  | Some i =>
      modify (set_k_initproc (Some i)) ;;
      cwd ← namei fuel [47];
      updproc i (set_p_cwd cwd) ;;
      updproc i (set_p_state RUNNABLE) ;;
      release (LProc i)
  end.

(** Copy one slot of the table of open files. *)
Definition dup_ofile (i np : nat) (fd : nat) : K unit :=
  p ← getproc i;
  match nth fd p.(p_ofile) None with
  | None => mret tt
  | Some f =>
      f ← filedup f;
      updproc np (fun x => set_p_ofile (<[fd := Some f]> x.(p_ofile)) x)
  end.

Definition kfork : K Z :=
  '(i, p) ← curproc;
  o ← allocproc;
  match o with
  | None => mret (-1)
  | Some np =>
      x ← getproc np;
      r ← uvmcopy p.(p_pagetable) x.(p_pagetable) p.(p_sz);
      if r <? 0 then freeproc np ;; release (LProc np) ;; mret (-1) else
      updproc np (set_p_sz p.(p_sz)) ;;
      updproc np (set_p_tickets p.(p_tickets)) ;;
      kmemmove x.(p_trapframe) p.(p_trapframe) TF_size ;;
      kstore (x.(p_trapframe) + TF_a 0) 0 ;;
      kfor (seq 0 NOFILE) (dup_ofile i np) ;;
      cwd ← (match p.(p_cwd) with Some c => idup c | None => kpanic "kerneltrap" end);
      updproc np (set_p_cwd (Some cwd)) ;;
      updproc np (fun x => set_p_name (lsafestrcpy x.(p_name) p.(p_name) 16) x) ;;
      x ← getproc np;
      let pid := x.(p_pid) in
      release (LProc np) ;;
      acquire LWait ;;
      updproc np (set_p_parent (Some i)) ;;
      release LWait ;;
      acquire (LProc np) ;;
      updproc np (set_p_state RUNNABLE) ;;
      release (LProc np) ;;
      mret pid
  end.

(** Close one slot of the table of open files. *)
Definition close_ofile (i : nat) (fd : nat) : K unit :=
  p ← getproc i;
  match nth fd p.(p_ofile) None with
  | None => mret tt
  | Some f =>
      fileclose fuel f ;;
      updproc i (fun x => set_p_ofile (<[fd := None]> x.(p_ofile)) x)
  end.

(** A process other than init has a parent, so the wake-up is on it. *)
Definition kexit (status : Z) : K unit :=
  '(i, _) ← curproc;
  init ← gets (fun s => s.(k_initproc));
  if bool_decide (init = Some i) then kpanic "init exiting" else
  kfor (seq 0 NOFILE) (close_ofile i) ;;
  begin_op fuel ;;
  p ← getproc i;
  iput_ptr fuel p.(p_cwd) ;;
  end_op fuel ;;
  updproc i (set_p_cwd None) ;;
  acquire LWait ;;
  reparent i ;;
  p ← getproc i;
  match p.(p_parent) with Some q => wakeup (ChProc q) | None => mret tt end ;;
  acquire (LProc i) ;;
  updproc i (set_p_xstate status) ;;
  updproc i (set_p_state ZOMBIE) ;;
  release LWait ;;
  sched ;;
  kpanic "zombie exit".

(** forkret(): the satp value it jumps to userret with. *)
Definition forkret : K Z :=
  '(i, _) ← curproc;
  release (LProc i) ;;
  first ← gets (fun s => s.(k_first));
  kwhen first
    (fsinit fuel ROOTDEV ;;
     modify (set_k_first false) ;;
     p ← getproc i;
     let init := chars "/init" in
     r ← kexec fuel init [init];
     kstore (p.(p_trapframe) + TF_a 0) (u64 r) ;;
     if u64 r =? u64 (-1) then kpanic "exec" else mret tt) ;;
  prepare_return ;;
  p ← getproc i;
  mret (MAKE_SATP p.(p_pagetable)).

Definition sys_fork : K Z :=
  r ← kfork;
  mret (u64 r).

Definition sys_exit : K Z :=
  n ← argint 0;
  kexit n ;;
  mret 0.

End Life.
