(* ===== verification/Sysfile.v ===== *)
(** * File system calls (kernel/sysfile.c), the code *)

From S2P Require Import Prelude Abi Riscv Memory KState KMonad Spinlock Kalloc Vm Proc Printf Sleeplock Bio Log Fs.
From S2P Require Import Plic Console Pipe File Exec Syscall.

(** The result -1 of a system call. *)
Definition MINUS1 : Z := u64 (-1).

(** argfd(): the descriptor and the file, or None for -1. *)
Definition argfd (n : Z) : K (option (Z * nat)) :=
  fd ← argint n;
  if ((fd <? 0) || (Z.of_nat NOFILE <=? fd))%bool then mret None else
  '(_, p) ← curproc;
  mret (match znth None p.(p_ofile) fd with Some f => Some (fd, f) | None => None end).

Definition set_ofile (i : nat) (fd : Z) (o : option nat) : K unit :=
  updproc i (fun p => set_p_ofile (zupd p.(p_ofile) fd o) p).

(** fdalloc(): None is -1. *)
Definition fdalloc (f : nat) : K (option Z) :=
  '(i, _) ← curproc;
  kscan (seq 0 NOFILE) (fun fd =>
    p ← getproc i;
    match nth fd p.(p_ofile) None with
    | None => set_ofile i (Z.of_nat fd) (Some f) ;; mret (Some (Z.of_nat fd))
    | Some _ => mret None
    end).

Definition sys_dup : K Z :=
  o ← argfd 0;
  match o with
  | None => mret MINUS1
  | Some (_, f) =>
      o ← fdalloc f;
      match o with
      | None => mret MINUS1
      | Some fd => filedup f ;; mret fd
      end
  end.

Section Sysfile.
Context {L : Layout} {D : Disk}.
Variable fuel : nat.

Definition sys_read : K Z :=
  p ← argaddr 1;
  n ← argint 2;
  o ← argfd 0;
  match o with
  | None => mret MINUS1
  | Some (_, f) => r ← fileread fuel f p n; mret (u64 r)
  end.

Definition sys_write : K Z :=
  p ← argaddr 1;
  n ← argint 2;
  o ← argfd 0;
  match o with
  | None => mret MINUS1
  | Some (_, f) => r ← filewrite fuel f p n; mret (u64 r)
  end.

Definition sys_close : K Z :=
  o ← argfd 0;
  match o with
  | None => mret MINUS1
  | Some (fd, f) =>
      '(i, _) ← curproc;
      set_ofile i fd None ;;
      fileclose fuel f ;;
      mret 0
  end.

(** [junk] is what the local variable of filestat() has. *)
Definition sys_fstat (junk : list Z) : K Z :=
  st ← argaddr 1;
  o ← argfd 0;
  match o with
  | None => mret MINUS1
  | Some (_, f) => r ← filestat fuel junk f st; mret (u64 r)
  end.

Definition upd_nlink (i : nat) (d : Z) : K unit :=
  updino i (fun ip => set_i_nlink (s16 (ip.(i_nlink) + d)) ip).

Definition link_bad (ip : nat) : K Z :=
  ilock fuel (Some ip) ;;
  upd_nlink ip (-1) ;;
  iupdate fuel ip ;;
  iunlockput fuel ip ;;
  end_op fuel ;;
  mret MINUS1.

(** sys_link() after its arguments are read. *)
Definition do_link (old new : list Z) : K Z :=
  begin_op fuel ;;
  o ← namei fuel old;
  match o with
  | None => end_op fuel ;; mret MINUS1
  | Some ip =>
      ilock fuel (Some ip) ;;
      x ← getino ip;
      if x.(i_type) =? T_DIR then iunlockput fuel ip ;; end_op fuel ;; mret MINUS1 else
      upd_nlink ip 1 ;;
      iupdate fuel ip ;;
      iunlock (Some ip) ;;
      '(o, name) ← nameiparent fuel new;
      match o with
      | None => link_bad ip
      | Some dp =>
          ilock fuel (Some dp) ;;
          d ← getino dp;
          x ← getino ip;
          r ← (if negb (d.(i_dev) =? x.(i_dev)) then mret (-1) else dirlink fuel dp name x.(i_inum));
          if r <? 0 then iunlockput fuel dp ;; link_bad ip else
          iunlockput fuel dp ;;
          iput fuel ip ;;
          end_op fuel ;;
          mret 0
      end
  end.

Definition sys_link : K Z :=
  o ← argstr 0 (Z.to_nat MAXPATH);
  match o with
  | None => mret MINUS1
  | Some old =>
      o ← argstr 1 (Z.to_nat MAXPATH);
      match o with
      | None => mret MINUS1
      | Some new => do_link old new
      end
  end.

Fixpoint isdirempty_loop (k : nat) (i : nat) (off : Z) : K bool :=
  dp ← getino i;
  if off <? dp.(i_size) then
    match k with
    | O => unbounded
    | S k' =>
        de ← read_dirent fuel i off "isdirempty: readi";
        if negb (de_inum de =? 0) then mret false else isdirempty_loop k' i (off + DIRENT)
    end
  else mret true.

Definition isdirempty (i : nat) : K bool :=
  dp ← getino i;
  isdirempty_loop (Z.to_nat (dp.(i_size) / DIRENT) + 1) i (2 * DIRENT).

Definition unlink_bad (dp : nat) : K Z :=
  iunlockput fuel dp ;;
  end_op fuel ;;
  mret MINUS1.

(** sys_unlink() once the entry is known to be removable. *)
Definition unlink_entry (dp ip : nat) (off : Z) : K Z :=
  r ← writei fuel dp (Local (replicate 16 0)) off DIRENT;
  if negb (r =? DIRENT) then kpanic "unlink: writei" else
  x ← getino ip;
  kwhen (x.(i_type) =? T_DIR) (upd_nlink dp (-1) ;; iupdate fuel dp) ;;
  iunlockput fuel dp ;;
  upd_nlink ip (-1) ;;
  iupdate fuel ip ;;
  iunlockput fuel ip ;;
  end_op fuel ;;
  mret 0.

Definition do_unlink (path : list Z) : K Z :=
  begin_op fuel ;;
  '(o, name) ← nameiparent fuel path;
  match o with
  | None => end_op fuel ;; mret MINUS1
  | Some dp =>
      ilock fuel (Some dp) ;;
      if ((namecmp name [46] =? 0) || (namecmp name [46; 46] =? 0))%bool then unlink_bad dp else
      o ← dirlookup fuel dp name;
      match o with
      | None => unlink_bad dp
      | Some (ip, off) =>
          ilock fuel (Some ip) ;;
          x ← getino ip;
          if x.(i_nlink) <? 1 then kpanic "unlink: nlink < 1" else
          empty ← (if x.(i_type) =? T_DIR then isdirempty ip else mret true);
          if negb empty then iunlockput fuel ip ;; unlink_bad dp else
          unlink_entry dp ip off
      end
  end.

Definition sys_unlink : K Z :=
  o ← argstr 0 (Z.to_nat MAXPATH);
  match o with
  | None => mret MINUS1
  | Some path => do_unlink path
  end.

Definition create_fail (ip dp : nat) : K (option nat) :=
  updino ip (set_i_nlink 0) ;;
  iupdate fuel ip ;;
  iunlockput fuel ip ;;
  iunlockput fuel dp ;;
  mret None.

(** create() after the inode is allocated and locked. *)
Definition create_new (dp ip : nat) (name : list Z) (type major minor : Z) : K (option nat) :=
  updino ip (set_i_major (s16 major)) ;;
  updino ip (set_i_minor (s16 minor)) ;;
  updino ip (set_i_nlink 1) ;;
  iupdate fuel ip ;;
  x ← getino ip;
  r ← (if type =? T_DIR then
         r ← dirlink fuel ip [46] x.(i_inum);
         if r <? 0 then mret r else
         d ← getino dp;
         dirlink fuel ip [46; 46] d.(i_inum)
       else mret 0);
  if r <? 0 then create_fail ip dp else
  r ← dirlink fuel dp name x.(i_inum);
  if r <? 0 then create_fail ip dp else
  kwhen (type =? T_DIR) (upd_nlink dp 1 ;; iupdate fuel dp) ;;
  iunlockput fuel dp ;;
  mret (Some ip).

Definition create (path : list Z) (type major minor : Z) : K (option nat) :=
  '(o, name) ← nameiparent fuel path;
  match o with
  | None => mret None
  | Some dp =>
      ilock fuel (Some dp) ;;
      o ← dirlookup fuel dp name;
      match o with
      | Some (ip, _) =>
          iunlockput fuel dp ;;
          ilock fuel (Some ip) ;;
          x ← getino ip;
          if ((type =? T_FILE) && ((x.(i_type) =? T_FILE) || (x.(i_type) =? T_DEVICE)))%bool then mret (Some ip)
          else iunlockput fuel ip ;; mret None
      | None =>
          d ← getino dp;
          o ← ialloc fuel d.(i_dev) type;
          match o with
          | None => iunlockput fuel dp ;; mret None
          | Some ip =>
              ilock fuel (Some ip) ;;
              create_new dp ip name type major minor
          end
      end
  end.

(** sys_open() after the inode is found and locked. *)
Definition open_inode (ip : nat) (omode : Z) : K Z :=
  x ← getino ip;
  if ((x.(i_type) =? T_DEVICE) && ((x.(i_major) <? 0) || (NDEV <=? x.(i_major))))%bool then
    iunlockput fuel ip ;; end_op fuel ;; mret MINUS1
  else
  o ← filealloc;
  match o with
  | None => iunlockput fuel ip ;; end_op fuel ;; mret MINUS1
  | Some f =>
      o ← fdalloc f;
      match o with
      | None => fileclose fuel f ;; iunlockput fuel ip ;; end_op fuel ;; mret MINUS1
      | Some fd =>
          x ← getino ip;
          (if x.(i_type) =? T_DEVICE then updfile f (fun y => set_f_major x.(i_major) (set_f_type FD_DEVICE y))
           else updfile f (fun y => set_f_off 0 (set_f_type FD_INODE y))) ;;
          updfile f (set_f_ip (Some ip)) ;;
          updfile f (set_f_readable (if has omode O_WRONLY then 0 else 1)) ;;
          updfile f (set_f_writable (if (has omode O_WRONLY || has omode O_RDWR)%bool then 1 else 0)) ;;
          kwhen (has omode O_TRUNC && (x.(i_type) =? T_FILE))%bool (itrunc fuel ip) ;;
          iunlock (Some ip) ;;
          end_op fuel ;;
          mret fd
      end
  end.

Definition do_open (path : list Z) (omode : Z) : K Z :=
  begin_op fuel ;;
  if has omode O_CREATE then
    o ← create path T_FILE 0 0;
    match o with
    | None => end_op fuel ;; mret MINUS1
    | Some ip => open_inode ip omode
    end
  else
    o ← namei fuel path;
    match o with
    | None => end_op fuel ;; mret MINUS1
    | Some ip =>
        ilock fuel (Some ip) ;;
        x ← getino ip;
        if ((x.(i_type) =? T_DIR) && negb (omode =? O_RDONLY))%bool then
          iunlockput fuel ip ;; end_op fuel ;; mret MINUS1
        else open_inode ip omode
    end.

Definition sys_open : K Z :=
  omode ← argint 1;
  o ← argstr 0 (Z.to_nat MAXPATH);
  match o with
  | None => mret MINUS1
  | Some path => do_open path omode
  end.

(** The end of sys_mkdir() and sys_mknod(). *)
Definition made (o : option nat) : K Z :=
  match o with
  | None => end_op fuel ;; mret MINUS1
  | Some ip => iunlockput fuel ip ;; end_op fuel ;; mret 0
  end.

Definition sys_mkdir : K Z :=
  begin_op fuel ;;
  o ← argstr 0 (Z.to_nat MAXPATH);
  match o with
  | None => made None
  | Some path => o ← create path T_DIR 0 0; made o
  end.

Definition sys_mknod : K Z :=
  begin_op fuel ;;
  major ← argint 1;
  minor ← argint 2;
  o ← argstr 0 (Z.to_nat MAXPATH);
  match o with
  | None => made None
  | Some path => o ← create path T_DEVICE major minor; made o
  end.

Definition do_chdir (i : nat) (path : list Z) : K Z :=
  o ← namei fuel path;
  match o with
  | None => end_op fuel ;; mret MINUS1
  | Some ip =>
      ilock fuel (Some ip) ;;
      x ← getino ip;
      if negb (x.(i_type) =? T_DIR) then iunlockput fuel ip ;; end_op fuel ;; mret MINUS1 else
      iunlock (Some ip) ;;
      p ← getproc i;
      iput_ptr fuel p.(p_cwd) ;;
      end_op fuel ;;
      updproc i (set_p_cwd (Some ip)) ;;
      mret 0
  end.

Definition sys_chdir : K Z :=
  '(i, _) ← curproc;
  begin_op fuel ;;
  o ← argstr 0 (Z.to_nat MAXPATH);
  match o with
  | None => end_op fuel ;; mret MINUS1
  | Some path => do_chdir i path
  end.

(** The loop of sys_exec(): the pages and strings of the arguments so far, and
    false for [goto bad].  [n] is how many slots of [argv] are left. *)
Fixpoint fetch_args (n : nat) (uargv : Z) (pages : list Z) (argv : list (list Z))
  : K (list Z * list (list Z) * bool) :=
  match n with
  | O => mret (pages, argv, false)
  | S n' =>
      o ← fetchaddr uargv;
      match o with
      | None => mret (pages, argv, false)
      | Some uarg =>
          if uarg =? 0 then mret (pages, argv, true) else
          pg ← kalloc;
          if pg =? 0 then mret (pages, argv, false) else
          o ← fetchstr uarg PGBYTES;
          match o with
          | None => mret (pages ++ [pg], argv, false)
          | Some str =>
              kwrite pg (str ++ [0]) ;;
              fetch_args n' (u64 (uargv + 8)) (pages ++ [pg]) (argv ++ [str])
          end
      end
  end.

Fixpoint free_args (pages : list Z) : K unit :=
  match pages with
  | [] => mret tt
  | pg :: pages' => kfree pg ;; free_args pages'
  end.

Definition sys_exec : K Z :=
  uargv ← argaddr 1;
  o ← argstr 0 (Z.to_nat MAXPATH);
  match o with
  | None => mret MINUS1
  | Some path =>
      '(pages, argv, ok) ← fetch_args MAXARG uargv [] [];
      if ok : bool then
        ret ← kexec fuel path argv;
        free_args pages ;;
        mret (u64 ret)
      else
        free_args pages ;;
        mret MINUS1
  end.

(** Undo sys_pipe(). *)
Definition pipe_bad (i rf wf : nat) (fds : list Z) : K Z :=
  kfor (map Z.to_nat fds) (fun fd => set_ofile i (Z.of_nat fd) None) ;;
  fileclose fuel rf ;;
  fileclose fuel wf ;;
  mret MINUS1.

Definition sys_pipe : K Z :=
  '(i, _) ← curproc;
  fdarray ← argaddr 0;
  o ← pipealloc fuel;
  match o with
  | None => mret MINUS1
  | Some (rf, wf) =>
      o0 ← fdalloc rf;
      match o0 with
      | None => pipe_bad i rf wf []
      | Some fd0 =>
          o1 ← fdalloc wf;
          match o1 with
          | None => pipe_bad i rf wf [fd0]
          | Some fd1 =>
              p ← getproc i;
              r ← copyout p.(p_pagetable) fdarray (bytes_of 4 fd0);
              if r <? 0 then pipe_bad i rf wf [fd0; fd1] else
              r ← copyout p.(p_pagetable) (u64 (fdarray + 4)) (bytes_of 4 fd1);
              if r <? 0 then pipe_bad i rf wf [fd0; fd1] else
              mret 0
          end
      end
  end.

End Sysfile.
