(* ===== verification/Virtio.v ===== *)
(** * The disk driver (kernel/virtio_disk.c), the code

    The queues are the record [vdisk]: the descriptor table, the available
    and the used ring with their indices ([vd_dev_idx] is [used->idx], which
    the device advances), and the driver's own bookkeeping.  [fuel] bounds how
    often a caller is woken. *)

From S2P Require Import Prelude Riscv Memory KState KMonad Spinlock Kalloc Vm Proc Printf Plic Sleeplock Bio Log.

Definition VRING_DESC_F_NEXT : Z := 1.
Definition VRING_DESC_F_WRITE : Z := 2.
Definition VIRTIO_BLK_T_IN : Z := 0.
Definition VIRTIO_BLK_T_OUT : Z := 1.

(** The address of virtio register [r]. *)
Definition VR (r : Z) : Z := VIRTIO0 + r.

Definition getvd : K vdisk := gets (fun s => s.(k_vdisk)).
Definition updvd (f : vdisk -> vdisk) : K unit := modify (fun s => set_k_vdisk (f s.(k_vdisk)) s).
Definition zero_desc : vdesc := mk_vdesc VNull 0 0 0.
Definition upddesc (i : nat) (f : vdesc -> vdesc) : K unit :=
  updvd (fun d => set_vd_desc (<[i := f (nth i d.(vd_desc) zero_desc)]> d.(vd_desc)) d).

Definition clear_bit (n x : Z) : Z := Z.land x (Z.lnot (Z.shiftl 1 n)).

Section Init.
Context {L : Layout} {M : Mmio}.

Definition rd (r : Z) : K Z := gets (mmio_read (VR r)).

(** The features the driver accepts. *)
Definition accept_features (features : Z) : Z :=
  clear_bit 28 (clear_bit 29 (clear_bit 27 (clear_bit 12 (clear_bit 11 (clear_bit 7 (clear_bit 5 features)))))).

Definition virtio_disk_init : K unit :=
  initlock LVdisk ;;
  magic ← rd 0x000; version ← rd 0x004; device_id ← rd 0x008; vendor ← rd 0x00c;
  if (negb (magic =? 0x74726976) || negb (version =? 2) || negb (device_id =? 2)
      || negb (vendor =? 0x554d4551))%bool then kpanic "could not find virtio disk" else
  mmio_write (VR 0x070) 0 ;;
  mmio_write (VR 0x070) 1 ;;
  mmio_write (VR 0x070) 3 ;;
  features ← rd 0x010;
  mmio_write (VR 0x020) (u32 (accept_features features)) ;;
  mmio_write (VR 0x070) 11 ;;
  status ← rd 0x070;
  if Z.land status 8 =? 0 then kpanic "virtio disk FEATURES_OK unset" else
  mmio_write (VR 0x030) 0 ;;
  ready ← rd 0x044;
  if negb (ready =? 0) then kpanic "virtio disk should not be ready" else
  max ← rd 0x034;
  if max =? 0 then kpanic "virtio disk has no queue 0" else
  if max <? Z.of_nat NUM then kpanic "virtio disk max queue too short" else
  desc ← kalloc;
  avail ← kalloc;
  used ← kalloc;
  if ((desc =? 0) || (avail =? 0) || (used =? 0))%bool then kpanic "virtio disk kalloc" else
  kmemset desc 0 PGBYTES ;;
  kmemset avail 0 PGBYTES ;;
  kmemset used 0 PGBYTES ;;
  updvd (fun d => set_vd_desc (replicate NUM zero_desc) d) ;;
  updvd (fun d => set_vd_avail_ring (replicate NUM 0) (set_vd_avail_idx 0 d)) ;;
  updvd (fun d => set_vd_used_ring (replicate NUM 0) (set_vd_dev_idx 0 d)) ;;
  mmio_write (VR 0x038) (Z.of_nat NUM) ;;
  mmio_write (VR 0x080) (u32 desc) ;;
  mmio_write (VR 0x084) (u32 (Z.shiftr desc 32)) ;;
  mmio_write (VR 0x090) (u32 avail) ;;
  mmio_write (VR 0x094) (u32 (Z.shiftr avail 32)) ;;
  mmio_write (VR 0x0a0) (u32 used) ;;
  mmio_write (VR 0x0a4) (u32 (Z.shiftr used 32)) ;;
  mmio_write (VR 0x044) 1 ;;
  kfor (seq 0 NUM) (fun i => updvd (fun d => set_vd_free (<[i := 1]> d.(vd_free)) d)) ;;
  mmio_write (VR 0x070) (Z.lor status 4).

End Init.

(** alloc_desc(): None is -1. *)
Definition alloc_desc : K (option nat) :=
  kscan (seq 0 NUM) (fun i =>
    d ← getvd;
    if nth i d.(vd_free) 0 =? 0 then mret None else
    updvd (fun d => set_vd_free (<[i := 0]> d.(vd_free)) d) ;;
    mret (Some i)).

Definition free_desc (i : nat) : K unit :=
  if (NUM <=? i)%nat then kpanic "free_desc 1" else
  d ← getvd;
  if negb (nth i d.(vd_free) 0 =? 0) then kpanic "free_desc 2" else
  upddesc i (fun _ => zero_desc) ;;
  updvd (fun d => set_vd_free (<[i := 1]> d.(vd_free)) d) ;;
  wakeup ChDiskFree.

(** A chain has at most [NUM] descriptors: freeing one twice is a panic. *)
Fixpoint free_chain_loop (n : nat) (i : nat) : K unit :=
  match n with
  | O => unbounded
  | S n' =>
      d ← getvd;
      let x := nth i d.(vd_desc) zero_desc in
      free_desc i ;;
      if has x.(vq_flags) VRING_DESC_F_NEXT then free_chain_loop n' (Z.to_nat x.(vq_next))
      else mret tt
  end.

Definition free_chain (i : nat) : K unit := free_chain_loop (S NUM) i.

(** alloc3_desc(): the three indices, or None for -1. *)
Definition alloc3_desc : K (option (nat * nat * nat)) :=
  o0 ← alloc_desc;
  match o0 with
  | None => mret None
  | Some i0 =>
      o1 ← alloc_desc;
      match o1 with
      | None => free_desc i0 ;; mret None
      | Some i1 =>
          o2 ← alloc_desc;
          match o2 with
          | None => free_desc i0 ;; free_desc i1 ;; mret None
          | Some i2 => mret (Some (i0, i1, i2))
          end
      end
  end.

Fixpoint alloc3_wait (k : nat) : K (nat * nat * nat) :=
  o ← alloc3_desc;
  match o with
  | Some idx => mret idx
  | None =>
      match k with
      | O => unbounded
      | S k' => sleep ChDiskFree LVdisk ;; alloc3_wait k'
      end
  end.

(** Wait until the interrupt handler has marked the buffer done. *)
Fixpoint disk_wait (k : nat) (b : nat) : K unit :=
  x ← getbuf b;
  if x.(b_disk) =? 1 then
    match k with
    | O => unbounded
    | S k' => sleep (ChBuf b) LVdisk ;; disk_wait k' b
    end
  else mret tt.

(** Format the three descriptors and give them to the device. *)
Definition submit (b : nat) (write : bool) (sector : Z) (i0 i1 i2 : nat) : K unit :=
  updvd (fun d => set_vd_ops (<[i0 := (if write then VIRTIO_BLK_T_OUT else VIRTIO_BLK_T_IN, sector)]> d.(vd_ops)) d) ;;
  upddesc i0 (fun _ => mk_vdesc (VOps i0) 16 VRING_DESC_F_NEXT (Z.of_nat i1)) ;;
  upddesc i1 (fun _ => mk_vdesc (VData b) BSIZE
    (Z.lor (if write then 0 else VRING_DESC_F_WRITE) VRING_DESC_F_NEXT) (Z.of_nat i2)) ;;
  updvd (fun d => set_vd_status (<[i0 := 0xff]> d.(vd_status)) d) ;;
  upddesc i2 (fun _ => mk_vdesc (VStatus i0) 1 VRING_DESC_F_WRITE 0) ;;
  updbuf b (set_b_disk 1) ;;
  updvd (fun d => set_vd_info_b (<[i0 := Some b]> d.(vd_info_b)) d) ;;
  updvd (fun d => set_vd_avail_ring
    (zupd d.(vd_avail_ring) (d.(vd_avail_idx) mod Z.of_nat NUM) (Z.of_nat i0)) d) ;;
  updvd (fun d => set_vd_avail_idx (u16 (d.(vd_avail_idx) + 1)) d) ;;
  mmio_write (VR 0x050) 0.

Definition disk_rw (fuel : nat) (b : nat) (write : bool) : K unit :=
  x ← getbuf b;
  let sector := u32 (x.(b_blockno) * (BSIZE / 512)) in
  acquire LVdisk ;;
  '(i0, i1, i2) ← alloc3_wait fuel;
  submit b write sector i0 i1 i2 ;;
  disk_wait fuel b ;;
  updvd (fun d => set_vd_info_b (<[i0 := None]> d.(vd_info_b)) d) ;;
  free_chain i0 ;;
  release LVdisk.

(** The driver is a disk for the buffer cache. *)
Definition virtio_disk (fuel : nat) : Disk := {| virtio_disk_rw := disk_rw fuel |}.

(** The loop of virtio_disk_intr(), over the completed requests. *)
Fixpoint intr_loop (n : nat) : K unit :=
  d ← getvd;
  if negb (d.(vd_used_idx) =? d.(vd_dev_idx)) then
    match n with
    | O => unbounded
    | S n' =>
        let id := Z.to_nat (znth 0 d.(vd_used_ring) (d.(vd_used_idx) mod Z.of_nat NUM)) in
        if negb (nth id d.(vd_status) 0 =? 0) then kpanic "virtio_disk_intr status" else
        match nth id d.(vd_info_b) None with
        | None => kpanic "kerneltrap"
        | Some b =>
            updbuf b (set_b_disk 0) ;;
            wakeup (ChBuf b) ;;
            updvd (fun d => set_vd_used_idx (u16 (d.(vd_used_idx) + 1)) d) ;;
            intr_loop n'
        end
    end
  else mret tt.

Definition virtio_disk_intr {M : Mmio} : K unit :=
  acquire LVdisk ;;
  st ← rd 0x060;
  mmio_write (VR 0x064) (Z.land st 3) ;;
  d ← getvd;
  intr_loop (Z.to_nat (u16 (d.(vd_dev_idx) - d.(vd_used_idx)))) ;;
  release LVdisk.
