(* ===== verification/VirtioSpec.v ===== *)
(** * The disk driver (kernel/virtio_disk.c), interleaved

    Any number of threads call virtio_disk_rw(), the device fetches and
    completes requests in any order, and the interrupt handler runs, in any
    interleaving.  The device is a parameter, the class [Device]: what it may
    do is what the virtio specification says of a block device that has no
    media errors.  The invariant [drv] says which request owns which
    descriptors and where in the queues it is. *)

From S2P Require Import Prelude Riscv Memory KState KMonad Spinlock Kalloc Vm Proc ProcSpec SleepSpec Turn Seq.
From S2P Require Import Printf Plic Sleeplock Bio BioSpec Log Virtio.

#[export] Instance vdisk_section : SectionLock LVdisk.
Proof. done. Qed.

(** The critical sections of the driver. *)
Abbreviation inside := (in_section LVdisk).
Abbreviation outside := (out_section LVdisk).
Abbreviation turn := (turn LVdisk).
Abbreviation back := (back LVdisk).

(** ** The device *)

(** A block request, as the device reads it from the descriptors. *)
Record breq := mk_breq { q_out : bool; q_sector : Z; q_buf : nat; q_status : nat }.

Definition decode (v : vdisk) (id : nat) : option breq :=
  let h := nth id (vd_desc v) zero_desc in
  let x := nth (Z.to_nat (vq_next h)) (vd_desc v) zero_desc in
  let t := nth (Z.to_nat (vq_next x)) (vd_desc v) zero_desc in
  match vq_addr h, vq_addr x, vq_addr t with
  | VOps o, VData b, VStatus st =>
      let '(ty, sector) := nth o (vd_ops v) (0, 0) in
      let out := ty =? VIRTIO_BLK_T_OUT in
      if ((vq_len h =? 16) && (vq_flags h =? VRING_DESC_F_NEXT) && (vq_len x =? BSIZE) &&
          (vq_flags x =? (if out then VRING_DESC_F_NEXT else VRING_DESC_F_NEXT + VRING_DESC_F_WRITE)) &&
          (vq_len t =? 1) && (vq_flags t =? VRING_DESC_F_WRITE) &&
          ((ty =? VIRTIO_BLK_T_IN) || out))%bool
      then Some (mk_breq out sector b st) else None
  | _, _, _ => None
  end.

(** The data is moved between the buffer and the two sectors of the block. *)
Definition transfer (q : breq) (s : kstate) : kstate :=
  if q_out q then disk_put (q_sector q / 2) (b_data (bf s (q_buf q))) s
  else setbuf (q_buf q) (set_b_data (block s (q_sector q / 2)) (bf s (q_buf q))) s.

(** The device's report: the status byte, then the used ring. *)
Definition report (id : nat) (st : nat) (v : vdisk) : vdisk :=
  set_vd_dev_idx (u16 (vd_dev_idx v + 1))
    (set_vd_used_ring (zupd (vd_used_ring v) (vd_dev_idx v mod Z.of_nat NUM) (Z.of_nat id))
      (set_vd_status (<[st := 0]> (vd_status v)) v)).

(** What a device has of its own: how far it has read the available ring, and
    the requests it has fetched and not completed.  In one step it fetches the
    next request, or completes one it has fetched. *)
Class Device := {
  dstate : Type;
  d_seen : dstate -> Z;
  d_taken : dstate -> list nat;
  dstep : dstate -> kstate -> dstate -> kstate -> Prop;
  dstep_law d s d' s' : dstep d s d' s' ->
    (d_seen d <> vd_avail_idx (k_vdisk s) /\ s' = s /\ d_seen d' = u16 (d_seen d + 1) /\
     d_taken d' = Z.to_nat (znth 0 (vd_avail_ring (k_vdisk s)) (d_seen d mod Z.of_nat NUM)) :: d_taken d) \/
    (exists id rest, d_taken d ≡ₚ id :: rest /\
       forall q, decode (k_vdisk s) id = Some q ->
         d_seen d' = d_seen d /\ d_taken d' ≡ₚ rest /\
         s' = set_k_vdisk (report id (q_status q) (k_vdisk s)) (transfer q s));
}.

(** ** Threads and requests *)

(** A thread inside virtio_disk_rw(): its process, the call's arguments, the
    block and what the transfer moves. *)
Record thread := mk_thread {
  t_proc : nat;
  t_buf : nat;
  t_out : bool;
  t_block : Z;
  t_data : list Z;
}.

(** A submitted request and its three descriptors. *)
Record req := mk_req { r_t : thread; r_0 : nat; r_1 : nat; r_2 : nat }.

Definition chain (r : req) : list nat := [r_0 r; r_1 r; r_2 r].
Definition r_buf (r : req) : nat := t_buf (r_t r).
Definition r_block (r : req) : Z := t_block (r_t r).

(** [l] is what lies in a ring between the indices [lo] and [hi]. *)
Definition ring_holds (ring : list Z) (lo hi : Z) (l : list nat) : Prop :=
  0 <= lo < 2 ^ 16 /\ hi = u16 (lo + Z.of_nat (length l)) /\ length ring = NUM /\ (length l < NUM)%nat /\
  forall k x, l !! k = Some x -> znth 0 ring ((lo + Z.of_nat k) mod Z.of_nat NUM) = Z.of_nat x.

(** The descriptors, the header and the owner of a request. *)
Record posted (v : vdisk) (r : req) : Prop := {
  po_0 : nth (r_0 r) (vd_desc v) zero_desc = mk_vdesc (VOps (r_0 r)) 16 VRING_DESC_F_NEXT (Z.of_nat (r_1 r));
  po_1 : nth (r_1 r) (vd_desc v) zero_desc = mk_vdesc (VData (r_buf r)) BSIZE
    (Z.lor (if t_out (r_t r) then 0 else VRING_DESC_F_WRITE) VRING_DESC_F_NEXT) (Z.of_nat (r_2 r));
  po_2 : nth (r_2 r) (vd_desc v) zero_desc = mk_vdesc (VStatus (r_0 r)) 1 VRING_DESC_F_WRITE 0;
  po_op : nth (r_0 r) (vd_ops v) (0, 0) =
    (if t_out (r_t r) then VIRTIO_BLK_T_OUT else VIRTIO_BLK_T_IN, r_block r * 2);
  po_b : nth (r_0 r) (vd_info_b v) None = Some (r_buf r);
}.

(** The buffer of a call, and the data before and after the transfer. *)
Definition bound (s : kstate) (t : thread) : Prop :=
  (t_buf t < NBUF)%nat /\ b_blockno (bf s (t_buf t)) = t_block t /\ 0 <= t_block t < 2 ^ 31.
Definition before (s : kstate) (t : thread) : Prop :=
  if t_out t then b_data (bf s (t_buf t)) = t_data t else block s (t_block t) = t_data t.
Definition moved (s : kstate) (t : thread) : Prop :=
  b_data (bf s (t_buf t)) = t_data t /\ block s (t_block t) = t_data t.

(** Waiting for descriptors, and waiting for the device. *)
Definition finish (i0 : nat) : K unit :=
  updvd (fun d => set_vd_info_b (<[i0 := None]> d.(vd_info_b)) d) ;;
  free_chain i0 ;;
  release LVdisk.

(** The first part of the call, from the allocation of the descriptors on. *)
Definition from_alloc (fuel fuel' : nat) (t : thread) : K unit :=
  '(i0, i1, i2) ← alloc3_wait fuel;
  submit (t_buf t) (t_out t) (t_block t * 2) i0 i1 i2 ;;
  disk_wait fuel' (t_buf t) ;;
  finish i0.

Definition at_alloc (pool : gmap nat (kstate -> res unit)) (t : thread) : Prop :=
  exists k, pool !! t_proc t = Some k /\ exists fuel fuel' ie, forall s, back (t_proc t) s ->
    k s = from_alloc fuel fuel' t (awake LVdisk (t_proc t) ie s).

Definition at_wait (pool : gmap nat (kstate -> res unit)) (r : req) : Prop :=
  exists k, pool !! t_proc (r_t r) = Some k /\ exists fuel ie, forall s, back (t_proc (r_t r)) s ->
    k s = (disk_wait fuel (r_buf r) ;; finish (r_0 r)) (awake LVdisk (t_proc (r_t r)) ie s).

(** The suspended calls: [W] wait for descriptors, [R] for the device. *)
Record susp (pool : gmap nat (kstate -> res unit)) (W : list thread) (R : list req) : Prop := {
  su_alloc t : t ∈ W -> at_alloc pool t;
  su_wait r : r ∈ R -> at_wait pool r;
  su_dom i : is_Some (pool !! i) -> i ∈ map t_proc (W ++ map r_t R);
}.

(** ** The invariant *)

(** The descriptors [X] are allocated and not yet in a request; all others
    that are not free belong to the requests [R]. *)
Record own (X : list nat) (R : list req) (v : vdisk) : Prop := {
  ow_desc : length (vd_desc v) = NUM;
  ow_frees : length (vd_free v) = NUM;
  ow_info : length (vd_info_b v) = NUM;
  ow_stat : length (vd_status v) = NUM;
  ow_ops : length (vd_ops v) = NUM;
  ow_nodup : NoDup (X ++ R ≫= chain);
  ow_range i : i ∈ X ++ R ≫= chain -> (i < NUM)%nat;
  ow_free i : (i < NUM)%nat -> nth i (vd_free v) 0 = 0 <-> i ∈ X ++ R ≫= chain;
  ow_posted r : r ∈ R -> posted v r;
}.

(** The callers are different processes, on different buffers and blocks. *)
Record calls (C : list thread) (s : kstate) : Prop := {
  ca_len : length (k_bufs s) = S NBUF;
  ca_procs : NoDup (map t_proc C);
  ca_bufs : NoDup (map t_buf C);
  ca_blocks : NoDup (map t_block C);
  ca_bound t : t ∈ C -> bound s t;
}.

(** A request before the transfer, after it, and after the interrupt. *)
Definition queued (s : kstate) (r : req) : Prop := b_disk (bf s (r_buf r)) = 1 /\ before s (r_t r).
Definition served (s : kstate) (r : req) : Prop :=
  b_disk (bf s (r_buf r)) = 1 /\ moved s (r_t r) /\ nth (r_0 r) (vd_status (k_vdisk s)) 0 = 0.
Definition ended (s : kstate) (r : req) : Prop := b_disk (bf s (r_buf r)) = 0 /\ moved s (r_t r).

Section Driver.
Context {V : Device}.

(** The requests [A] are in the available ring, [T] at the device, [U] in the
    used ring and [E] were reported to their threads; [W] have none yet. *)
Record flow (W : list thread) (A T U E : list req) (d : dstate) (s : kstate) : Prop := {
  fl_before t : t ∈ W -> before s t;
  fl_queued r : r ∈ A ++ T -> queued s r;
  fl_served r : r ∈ U -> served s r;
  fl_ended r : r ∈ E -> ended s r;
  fl_avail : ring_holds (vd_avail_ring (k_vdisk s)) (d_seen d) (vd_avail_idx (k_vdisk s)) (map r_0 A);
  fl_used : ring_holds (vd_used_ring (k_vdisk s)) (vd_used_idx (k_vdisk s)) (vd_dev_idx (k_vdisk s)) (map r_0 U);
  fl_taken : d_taken d ≡ₚ map r_0 T;
}.

Record drv (X : list nat) (W : list thread) (A T U E : list req) (d : dstate) (s : kstate) : Prop := {
  dr_own : own X (A ++ T ++ U ++ E) (k_vdisk s);
  dr_calls : calls (W ++ map r_t (A ++ T ++ U ++ E)) s;
  dr_flow : flow W A T U E d s;
}.

End Driver.

(** The requests and the threads are sets. *)
Lemma own_perm X X' R R' v : X ≡ₚ X' -> R ≡ₚ R' -> own X R v -> own X' R' v.
Proof.
  intros HX HR [L1 L2 L3 L4 L5 N Rg F P].
  assert (X ++ R ≫= chain ≡ₚ X' ++ R' ≫= chain) as Hp by (rewrite HX, HR; done).
  split; try done.
  - by rewrite <- Hp.
  - intros i Hi. apply Rg. by rewrite Hp.
  - intros i Hi. rewrite F, Hp by done. done.
  - intros r Hr. apply P. by rewrite HR.
Qed.

Lemma calls_perm C C' s : C ≡ₚ C' -> calls C s -> calls C' s.
Proof.
  intros H [L N0 N1 N2 B]. split; [done|by rewrite <- H..|]. intros t Ht. apply B. by rewrite H.
Qed.

#[export] Instance calls_proper : Proper ((≡ₚ) ==> eq ==> iff) calls.
Proof. intros C C' H s ? <-. split; apply calls_perm; [done|by symmetry]. Qed.

Lemma nth_ins {A} (l : list A) i x j d : (i < length l)%nat ->
  nth j (<[i := x]> l) d = if (j =? i)%nat then x else nth j l d.
Proof.
  intros H. rewrite !nth_lookup. destruct (Nat.eqb_spec j i) as [->|N].
  - by rewrite list_lookup_insert_eq.
  - by rewrite list_lookup_insert_ne.
Qed.

Lemma nth_ins_ne {A} (l : list A) i x j d : j <> i -> nth j (<[i := x]> l) d = nth j l d.
Proof. intros N. by rewrite !nth_lookup, list_lookup_insert_ne. Qed.

(** A request is read from its own descriptors. *)
Lemma posted_frame v v' r :
  (forall i, i ∈ chain r -> nth i (vd_desc v') zero_desc = nth i (vd_desc v) zero_desc) ->
  nth (r_0 r) (vd_ops v') (0, 0) = nth (r_0 r) (vd_ops v) (0, 0) ->
  nth (r_0 r) (vd_info_b v') None = nth (r_0 r) (vd_info_b v) None ->
  posted v r -> posted v' r.
Proof.
  intros H1 H2 H3 [P0 P1 P2 P3 P4]. unfold chain in H1.
  split; rewrite ?H1, ?H2, ?H3; rewrite ?elem_of_cons; tauto.
Qed.

Lemma chain_in r R i : r ∈ R -> i ∈ chain r -> i ∈ R ≫= chain.
Proof. intros. apply list_elem_of_bind. eauto. Qed.

(** ** Descriptors *)

Definition take_desc (i : nat) (v : vdisk) : vdisk := set_vd_free (<[i := 0]> (vd_free v)) v.
Definition put_desc (i : nat) (v : vdisk) : vdisk :=
  set_vd_free (<[i := 1]> (vd_free v)) (set_vd_desc (<[i := zero_desc]> (vd_desc v)) v).

Lemma own_take X R v i : own X R v -> (i < NUM)%nat -> nth i (vd_free v) 0 <> 0 -> own (i :: X) R (take_desc i v).
Proof.
  intros [L1 L2 L3 L4 L5 N Rg F P] Hi Hf. assert (i ∉ X ++ R ≫= chain) as Hn by (by rewrite <- F).
  split; try done; cbn [app].
  - unfold take_desc. cbn. by rewrite length_insert.
  - by constructor.
  - intros j [->|Hj]%elem_of_cons; [done|by apply Rg].
  - intros j Hj. unfold take_desc. cbn [vd_free set_vd_free]. rewrite nth_ins, elem_of_cons by lia.
    destruct (Nat.eqb_spec j i) as [->|Ne]; [tauto|]. rewrite F by done. tauto.
  - intros r Hr. by apply (posted_frame v), P.
Qed.

Lemma own_put X R v i : own (i :: X) R v -> own X R (put_desc i v).
Proof.
  intros [L1 L2 L3 L4 L5 N Rg F P]. cbn [app] in *. apply NoDup_cons in N as [Hn N].
  assert (i < NUM)%nat as Hi by (apply Rg, list_elem_of_here).
  split; try done; unfold put_desc; cbn [vd_free vd_desc set_vd_free set_vd_desc]; rewrite ?length_insert; try done.
  - intros j Hj. by apply Rg, list_elem_of_further.
  - intros j Hj. rewrite nth_ins by lia. destruct (Nat.eqb_spec j i) as [->|Ne]; [done|].
    rewrite F, elem_of_cons by done. tauto.
  - intros r Hr. apply (posted_frame v); try done; [|by apply P]. intros j Hj. cbn [vd_desc set_vd_free set_vd_desc].
    apply nth_ins_ne. intros ->. apply Hn. apply elem_of_app. right. by apply (chain_in r).
Qed.

(** A request takes three descriptors. *)
Lemma chains_length R : length (R ≫= chain) = (3 * length R)%nat.
Proof. induction R as [|r R IH]; [done|]. change ((r :: R) ≫= chain) with (chain r ++ R ≫= chain). rewrite length_app, IH. cbn. lia. Qed.

Lemma own_count X R v : own X R v -> (length X + 3 * length R <= NUM)%nat.
Proof.
  intros O. rewrite <- chains_length, <- length_app. replace NUM with (length (seq 0 NUM)) by done. apply submseteq_length, NoDup_submseteq; [apply O|].
  intros i Hi. apply elem_of_seq. pose proof (ow_range _ _ _ O i Hi). lia.
Qed.

(** Without a free descriptor all of them are in use. *)
Lemma own_full X R v : own X R v -> (forall i, (i < NUM)%nat -> nth i (vd_free v) 0 = 0) -> (NUM <= length X + 3 * length R)%nat.
Proof.
  intros O H. rewrite <- chains_length, <- length_app. replace NUM with (length (seq 0 NUM)) by done.
  apply submseteq_length, NoDup_submseteq; [apply NoDup_seq|]. intros i Hi%elem_of_seq. apply (ow_free _ _ _ O); [lia|apply H; lia].
Qed.

Lemma alloc_desc_spec s :
  (alloc_desc s = Ret None s /\ forall i, (i < NUM)%nat -> nth i (vd_free (k_vdisk s)) 0 = 0) \/
  (exists i, (i < NUM)%nat /\ nth i (vd_free (k_vdisk s)) 0 <> 0 /\
     alloc_desc s = Ret (Some i) (set_k_vdisk (take_desc i (k_vdisk s)) s)).
Proof.
  unfold alloc_desc. set (v := k_vdisk s).
  assert (forall n k, (forall i, (i < k)%nat -> nth i (vd_free v) 0 = 0) -> forall s1, k_vdisk s1 = v ->
    let m := kscan (seq k n) (fun i => d ← getvd;
      if nth i (vd_free d) 0 =? 0 then mret None else updvd (fun d => set_vd_free (<[i := 0]> (vd_free d)) d) ;; mret (Some i)) in
    (m s1 = Ret None s1 /\ forall i, (i < k + n)%nat -> nth i (vd_free v) 0 = 0) \/
    (exists i, (i < k + n)%nat /\ nth i (vd_free v) 0 <> 0 /\ m s1 = Ret (Some i) (set_k_vdisk (take_desc i v) s1))) as H.
  { induction n as [|n IH]; intros k Hk s1 Es m; subst m; cbn [seq kscan].
    { left. split; [done|]. intros i Hi. apply Hk. lia. }
    unfold getvd, updvd. unfold mbind, K_bind, gets, modify. cbn [res_bind]. rewrite Es.
    destruct (Z.eqb_spec (nth k (vd_free v) 0) 0) as [E|E].
    - cbn [res_bind mret K_ret]. replace (k + S n)%nat with (S k + n)%nat by lia. apply (IH (S k)); [|done].
      intros i Hi. destruct (decide (i = k)) as [->|]; [done|]. apply Hk. lia.
    - right. exists k. split; [lia|]. split; [done|]. cbn [res_bind mret K_ret]. unfold mret, K_ret. by rewrite Es. }
  apply (H NUM 0%nat); [lia|done].
Qed.

(** Only descriptors, free marks, owners and sleeping processes change. *)
Record stays (s s' : kstate) : Prop := {
  sy_bufs : k_bufs s' = k_bufs s;
  sy_disk : k_disk s' = k_disk s;
  sy_status : vd_status (k_vdisk s') = vd_status (k_vdisk s);
  sy_aring : vd_avail_ring (k_vdisk s') = vd_avail_ring (k_vdisk s);
  sy_aidx : vd_avail_idx (k_vdisk s') = vd_avail_idx (k_vdisk s);
  sy_uring : vd_used_ring (k_vdisk s') = vd_used_ring (k_vdisk s);
  sy_uidx : vd_used_idx (k_vdisk s') = vd_used_idx (k_vdisk s);
  sy_didx : vd_dev_idx (k_vdisk s') = vd_dev_idx (k_vdisk s);
  sy_cpu : k_cpu s' = k_cpu s;
  sy_locks : k_locks s' = k_locks s;
  sy_len : length (k_procs s') = length (k_procs s);
}.

Lemma stays_trans s1 s2 s3 : stays s1 s2 -> stays s2 s3 -> stays s1 s3.
Proof. intros [] []. split; congruence. Qed.

Lemma stays_inside s s' : stays s s' -> inside s -> inside s'.
Proof. intros []. by apply inside_frame. Qed.

Lemma free_desc_spec X R i s : inside s -> own (i :: X) R (k_vdisk s) ->
  exists s', free_desc i s = Ret tt s' /\ k_vdisk s' = put_desc i (k_vdisk s) /\ stays s s'.
Proof.
  intros I O. assert (i < NUM)%nat as Hi by (apply (ow_range _ _ _ O), list_elem_of_here).
  set (s' := wk ChDiskFree (set_k_vdisk (put_desc i (k_vdisk s)) s)). exists s'. split; [|split; [done|split; try done; apply (wk_len ChDiskFree (set_k_vdisk (put_desc i (k_vdisk s)) s))]].
  unfold free_desc. destruct (Nat.leb_spec NUM i); [lia|]. unfold getvd. kstep.
  assert (nth i (vd_free (k_vdisk s)) 0 = 0) as -> by (apply (ow_free _ _ _ O); [done|apply list_elem_of_here]).
  cbn [Z.eqb negb]. unfold upddesc, updvd. do 2 kstep. apply (wakeup_inside (lk := LVdisk)). by apply (inside_frame s).
Qed.

Lemma alloc3_desc_spec R s : inside s -> own [] R (k_vdisk s) ->
  exists o s', alloc3_desc s = Ret o s' /\ stays s s' /\
    match o with
    | Some (i0, i1, i2) => own [i2; i1; i0] R (k_vdisk s')
    | None => own [] R (k_vdisk s') /\ (NUM <= 2 + 3 * length R)%nat
    end.
Proof.
  intros I O. unfold alloc3_desc. destruct (alloc_desc_spec s) as [[E0 A0]|(i0 & H0 & F0 & E0)]; rewrite (bind_ret _ _ _ _ _ E0).
  { exists None, s. split; [done|]. split; [done|]. split; [done|]. pose proof (own_full _ _ _ O A0). cbn in *; lia. }
  set (s0 := set_k_vdisk _ s). pose proof (own_take _ _ _ _ O H0 F0) as O0. assert (stays s s0) as S0 by done.
  destruct (alloc_desc_spec s0) as [[E1 A1]|(i1 & H1 & F1 & E1)]; rewrite (bind_ret _ _ _ _ _ E1).
  { destruct (free_desc_spec [] R i0 s0) as (s1 & X1 & V1 & S1); [by apply (stays_inside s)|done|].
    rewrite (bind_ret _ _ _ _ _ X1). exists None, s1. split; [done|]. split; [by apply (stays_trans _ s0)|].
    rewrite V1. split; [by apply own_put|]. pose proof (own_full _ _ _ O0 A1). cbn in *; lia. }
  set (s1 := set_k_vdisk _ s0). pose proof (own_take _ _ _ _ O0 H1 F1) as O1. assert (stays s s1) as S1 by done.
  destruct (alloc_desc_spec s1) as [[E2 A2]|(i2 & H2 & F2 & E2)]; rewrite (bind_ret _ _ _ _ _ E2).
  { pose proof (own_full _ _ _ O1 A2) as Hf. apply (own_perm _ [i0; i1] R R) in O1; [|apply Permutation_swap|done].
    destruct (free_desc_spec [i1] R i0 s1) as (s2 & X2 & V2 & S2); [by apply (stays_inside s)|done|].
    rewrite (bind_ret _ _ _ _ _ X2). pose proof (own_put _ _ _ _ O1) as O2.
    destruct (free_desc_spec [] R i1 s2) as (s3 & X3 & V3 & S3); [|by rewrite V2|].
    { apply (stays_inside s1); [done|]. by apply (stays_inside s). }
    rewrite (bind_ret _ _ _ _ _ X3). exists None, s3. split; [done|].
    split; [apply (stays_trans _ s1), (stays_trans _ s2); done|]. rewrite V3, V2. split; [by apply own_put|cbn in *; lia]. }
  exists (Some (i0, i1, i2)), (set_k_vdisk (take_desc i2 (k_vdisk s1)) s1). split; [done|]. split; [done|].
  by apply own_take.
Qed.

(** What a request is to the device. *)
Lemma posted_decode v r : posted v r ->
  decode v (r_0 r) = Some (mk_breq (t_out (r_t r)) (r_block r * 2) (r_buf r) (r_0 r)).
Proof.
  intros [P0 P1 P2 P3 P4]. unfold decode. rewrite P0. cbn [vq_next vq_addr vq_len vq_flags]. rewrite Nat2Z.id, P1.
  cbn [vq_next vq_addr vq_len vq_flags]. rewrite Nat2Z.id, P2. cbn [vq_next vq_addr vq_len vq_flags]. rewrite P3.
  by destruct (t_out (r_t r)).
Qed.

(** ** Rings *)

Ltac mod_lia := Z.div_mod_to_equations; lia.

Lemma ring_snoc ring lo hi l x : ring_holds ring lo hi l -> (S (length l) < NUM)%nat ->
  ring_holds (zupd ring (hi mod Z.of_nat NUM) (Z.of_nat x)) lo (u16 (hi + 1)) (l ++ [x]).
Proof.
  intros (Hlo & -> & Hr & _ & H) Hl. unfold u16 in *. split; [done|]. rewrite length_app, length_zupd. cbn [length].
  split; [rewrite Zplus_mod_idemp_l; apply (f_equal (fun x => x mod 2 ^ 16)); lia|]. split; [done|]. split; [lia|].
  change (Z.of_nat NUM) with 8 in *. unfold NUM in Hr, Hl.
  assert (((lo + Z.of_nat (length l)) mod 2 ^ 16) mod 8 = (lo + Z.of_nat (length l)) mod 8) as -> by (clear H; mod_lia).
  intros k y Hk. apply lookup_app_Some in Hk as [Hk|[Hk1 Hk2]].
  - pose proof (lookup_lt_Some _ _ _ Hk). rewrite znth_zupd_ne; [by apply H|mod_lia|mod_lia|]. clear H. mod_lia.
  - apply list_lookup_singleton_Some in Hk2 as [Hk2 <-]. assert (k = length l) as -> by lia. apply znth_zupd_eq. clear H. mod_lia.
Qed.

Lemma vring_tail ring lo hi x l : ring_holds ring lo hi (x :: l) ->
  lo <> hi /\ znth 0 ring (lo mod Z.of_nat NUM) = Z.of_nat x /\ ring_holds ring (u16 (lo + 1)) hi l.
Proof.
  intros (Hlo & -> & Hr & Hl & H). cbn [length] in *. unfold u16. change (Z.of_nat NUM) with 8 in *. unfold NUM in Hl.
  split; [clear H; intros X; mod_lia|]. split; [rewrite <- (H 0%nat x eq_refl); f_equal; by rewrite Z.add_0_r|]. split; [clear H; mod_lia|].
  split; [unfold u16; rewrite Zplus_mod_idemp_l; apply (f_equal (fun x => x mod 2 ^ 16)); lia|]. split; [done|]. split; [unfold NUM; lia|]. change (Z.of_nat NUM) with 8. intros k y Hk. rewrite <- (H (S k) y Hk). f_equal. clear H. mod_lia.
Qed.

Lemma ring_nil ring lo hi : ring_holds ring lo hi [] -> lo = hi.
Proof. intros (Hlo & -> & _). unfold u16. cbn [length]. mod_lia. Qed.

Lemma ring_empty ring : length ring = NUM -> ring_holds ring 0 0 [].
Proof. intros H. split; [lia|]. split; [done|]. split; [done|]. split; [cbn; unfold NUM; lia|done]. Qed.

(** ** Submitting a request *)

Definition post_vd (b : nat) (w : bool) (sector : Z) (i0 i1 i2 : nat) (v : vdisk) : vdisk :=
  mk_vdisk
    (<[i2 := mk_vdesc (VStatus i0) 1 VRING_DESC_F_WRITE 0]>
      (<[i1 := mk_vdesc (VData b) BSIZE (Z.lor (if w then 0 else VRING_DESC_F_WRITE) VRING_DESC_F_NEXT) (Z.of_nat i2)]>
        (<[i0 := mk_vdesc (VOps i0) 16 VRING_DESC_F_NEXT (Z.of_nat i1)]> (vd_desc v))))
    (u16 (vd_avail_idx v + 1))
    (zupd (vd_avail_ring v) (vd_avail_idx v mod Z.of_nat NUM) (Z.of_nat i0))
    (vd_dev_idx v) (vd_used_ring v) (vd_free v) (vd_used_idx v)
    (<[i0 := Some b]> (vd_info_b v)) (<[i0 := 0xff]> (vd_status v))
    (<[i0 := (if w then VIRTIO_BLK_T_OUT else VIRTIO_BLK_T_IN, sector)]> (vd_ops v)).

Definition post (b : nat) (w : bool) (sector : Z) (i0 i1 i2 : nat) (s : kstate) : kstate :=
  set_k_mmio ((VR 0x050, 0) :: k_mmio s)
    (setbuf b (set_b_disk 1 (bf s b)) (set_k_vdisk (post_vd b w sector i0 i1 i2 (k_vdisk s)) s)).

Lemma submit_eq b w sector i0 i1 i2 s : submit b w sector i0 i1 i2 s = Ret tt (post b w sector i0 i1 i2 s).
Proof. reflexivity. Qed.

Lemma own_post t i0 i1 i2 R v : own [i2; i1; i0] R v ->
  own [] (mk_req t i0 i1 i2 :: R) (post_vd (t_buf t) (t_out t) (t_block t * 2) i0 i1 i2 v).
Proof.
  intros O. assert (own [i0; i1; i2] R v) as [L1 L2 L3 L4 L5 N Rg F P].
  { apply (own_perm [i2; i1; i0] _ R); [|done|done]. apply Permutation_rev. }
  cbn [app] in N. pose proof N as N'. rewrite !NoDup_cons, !elem_of_cons in N. destruct N as (N0 & N1 & N2 & _).
  assert (forall i, i ∈ R ≫= chain -> i <> i0 /\ i <> i1 /\ i <> i2) as Ne by (intros i Hi; split_and!; intros ->; tauto).
  assert (i0 < NUM /\ i1 < NUM /\ i2 < NUM)%nat as (B0 & B1 & B2) by (split_and!; apply Rg; cbn [app]; rewrite !elem_of_cons; tauto).
  split; cbn [post_vd vd_desc vd_free vd_info_b vd_status vd_ops]; rewrite ?length_insert; try done.
  intros r [->|Hr]%elem_of_cons.
  - split; cbn [r_0 r_1 r_2 post_vd vd_desc vd_info_b vd_ops r_t r_buf r_block].
    + rewrite !nth_ins_ne, nth_ins, Nat.eqb_refl by (rewrite ?length_insert; try lia; tauto). done.
    + rewrite nth_ins_ne, nth_ins, Nat.eqb_refl by (rewrite ?length_insert; try lia; tauto). done.
    + rewrite nth_ins, Nat.eqb_refl by (rewrite ?length_insert; lia). done.
    + rewrite nth_ins, Nat.eqb_refl by lia. done.
    + rewrite nth_ins, Nat.eqb_refl by lia. done.
  - assert (r_0 r <> i0) as Nr by (apply Ne, (chain_in r); [done|apply list_elem_of_here]).
    apply (posted_frame v); cbn [post_vd vd_desc vd_info_b vd_ops]; [|by rewrite nth_ins_ne..|by apply P].
    intros i Hi. destruct (Ne i (chain_in r R i Hr Hi)) as (? & ? & ?). by rewrite !nth_ins_ne.
Qed.

(** ** The data and the marks of the buffers *)

Lemma thread_frame s s' t : b_data (bf s' (t_buf t)) = b_data (bf s (t_buf t)) ->
  block s' (t_block t) = block s (t_block t) -> (before s t -> before s' t) /\ (moved s t -> moved s' t).
Proof. unfold before, moved. intros -> ->. done. Qed.

Lemma calls_frame C s s' : length (k_bufs s') = length (k_bufs s) ->
  (forall b, b_blockno (bf s' b) = b_blockno (bf s b)) -> calls C s -> calls C s'.
Proof.
  intros H1 H2 [L N0 N1 N2 B]. split; [congruence|done|done|done|]. intros t Ht. unfold bound. rewrite H2. by apply B.
Qed.

Lemma calls_tail t C s : calls (t :: C) s -> calls C s.
Proof.
  intros [L N0 N1 N2 B]. cbn [map] in *. apply NoDup_cons in N0 as [_ N0], N1 as [_ N1], N2 as [_ N2]. split; [done..|].
  intros x Hx. by apply B, list_elem_of_further.
Qed.

Lemma calls_other t C s t' : calls (t :: C) s -> t' ∈ C ->
  t_buf t' <> t_buf t /\ t_block t' <> t_block t /\ t_proc t' <> t_proc t.
Proof.
  intros [_ N0 N1 N2 _] H. cbn [map] in *. apply NoDup_cons in N0 as [N0 _], N1 as [N1 _], N2 as [N2 _].
  split_and!; intros E; [apply N1|apply N2|apply N0]; rewrite <- E; by apply list_elem_of_fmap_2.
Qed.

Lemma calls_lt t C s : calls (t :: C) s -> (t_buf t < length (k_bufs s))%nat.
Proof. intros H. destruct (ca_bound _ _ H t (list_elem_of_here _ _)) as [? _]. rewrite (ca_len _ _ H). lia. Qed.

(** Setting a buffer's mark touches nothing else. *)
Definition mark (x : Z) (b : nat) (s : kstate) : kstate := setbuf b (set_b_disk x (bf s b)) s.

Lemma bf_mark x b s b' : (b < length (k_bufs s))%nat ->
  bf (mark x b s) b' = if (b' =? b)%nat then set_b_disk x (bf s b) else bf s b'.
Proof. apply bf_setbuf. Qed.

Lemma mark_keeps x b s b' : (b < length (k_bufs s))%nat ->
  b_data (bf (mark x b s) b') = b_data (bf s b') /\ b_blockno (bf (mark x b s) b') = b_blockno (bf s b').
Proof. intros H. rewrite bf_mark by done. by destruct (Nat.eqb_spec b' b) as [->|]. Qed.

Lemma calls_mark C x t s : t ∈ C -> calls C s -> calls C (mark x (t_buf t) s).
Proof.
  intros Ht H. destruct (ca_bound _ _ H t Ht) as [Hb _]. assert (t_buf t < length (k_bufs s))%nat by (rewrite (ca_len _ _ H); lia).
  apply (calls_frame _ s); [apply length_setbuf| |done]. intros b. by apply mark_keeps.
Qed.

Lemma thread_mark x b s t : (b < length (k_bufs s))%nat ->
  (before s t -> before (mark x b s) t) /\ (moved s t -> moved (mark x b s) t).
Proof. intros H. apply thread_frame; [by apply mark_keeps|done]. Qed.

Section Flow.
Context {V : Device}.

Lemma flow_post W A T U E d s t i0 i1 i2 : own [i2; i1; i0] (A ++ T ++ U ++ E) (k_vdisk s) ->
  calls (t :: W ++ map r_t (A ++ T ++ U ++ E)) s -> before s t -> flow W A T U E d s ->
  flow W (A ++ [mk_req t i0 i1 i2]) T U E d (post (t_buf t) (t_out t) (t_block t * 2) i0 i1 i2 s).
Proof.
  intros O C Bt [F1 F2 F3 F4 F5 F6 F7]. pose proof (calls_lt _ _ _ C) as Hb.
  set (s' := post _ _ _ _ _ _ _). set (m := mark 1 (t_buf t) s).
  assert (forall b, bf s' b = bf m b) as Eb by done. assert (forall bn, block s' bn = block s bn) as Ek by done.
  assert (forall x, (before s x -> before s' x) /\ (moved s x -> moved s' x)) as Ft.
  { intros x. apply thread_frame; [|done]. rewrite Eb. by apply mark_keeps. }
  assert (forall r, r ∈ A ++ T ++ U ++ E -> bf s' (r_buf r) = bf s (r_buf r)) as Er.
  { intros r Hr. rewrite Eb. unfold m. rewrite bf_mark by done.
    destruct (calls_other _ _ _ (r_t r) C) as [Ne _]; [apply elem_of_app; right; by apply list_elem_of_fmap_2|].
    by destruct (Nat.eqb_spec (r_buf r) (t_buf t)). }
  split; cbn [post setbuf set_k_mmio set_k_vdisk k_vdisk post_vd vd_avail_ring vd_avail_idx vd_used_ring vd_used_idx vd_dev_idx].
  - intros x Hx. by apply Ft, F1.
  - intros r Hr. unfold queued.
    assert (r = mk_req t i0 i1 i2 \/ r ∈ A ++ T) as [->|Hr'] by (rewrite !elem_of_app, list_elem_of_singleton in *; tauto).
    + split; [|by apply Ft]. cbn [r_buf r_t]. rewrite Eb. unfold m. by rewrite bf_mark, Nat.eqb_refl.
    + destruct (F2 r Hr') as [Q1 Q2]. rewrite Er by (rewrite !elem_of_app in *; tauto). split; [done|by apply Ft].
  - intros r Hr. destruct (F3 r Hr) as (Q1 & Q2 & Q3). assert (r ∈ A ++ T ++ U ++ E) as Hr' by (rewrite !elem_of_app; tauto).
    unfold served. rewrite Er by done. split; [done|]. split; [by apply Ft|].
    cbn [s' post setbuf set_k_mmio set_k_vdisk set_k_bufs k_vdisk post_vd vd_status]. rewrite nth_ins_ne; [done|]. intros X.
    pose proof (ow_nodup _ _ _ O) as N. cbn [app] in N. rewrite !NoDup_cons, !elem_of_cons in N.
    assert (i0 ∈ (A ++ T ++ U ++ E) ≫= chain) by (rewrite <- X; apply (chain_in r); [done|apply list_elem_of_here]). tauto.
  - intros r Hr. destruct (F4 r Hr) as (Q1 & Q2). unfold ended. rewrite Er by (rewrite !elem_of_app; tauto).
    split; [done|by apply Ft].
  - rewrite map_app. apply ring_snoc; [done|]. rewrite length_map. pose proof (own_count _ _ _ O) as Hc.
    rewrite length_app in Hc. cbn [length] in Hc. unfold NUM in *. lia.
  - done.
  - done.
Qed.

(** The device moves the data of one call and touches nothing else. *)
Lemma transfer_spec q s t C : calls (t :: C) s -> q = mk_breq (t_out t) (t_block t * 2) (t_buf t) (q_status q) -> before s t ->
  let s' := transfer q s in
  moved s' t /\ (forall x, x ∈ C -> (before s x -> before s' x) /\ (moved s x -> moved s' x)) /\
  (forall b, b_disk (bf s' b) = b_disk (bf s b) /\ b_blockno (bf s' b) = b_blockno (bf s b)) /\
  length (k_bufs s') = length (k_bufs s) /\ k_vdisk s' = k_vdisk s.
Proof.
  intros C1 -> B. pose proof (calls_lt _ _ _ C1) as Hb. unfold transfer, before, moved in *. cbn [q_out q_sector q_buf].
  rewrite Z.div_mul by lia. destruct (t_out t).
  - cbv zeta. change (bf (disk_put (t_block t) (b_data (bf s (t_buf t))) s)) with (bf s). split; [|split; [|done]].
    { split; [done|]. unfold block, disk_put. cbn. by rewrite lookup_insert_eq. }
    intros x Hx. destruct (calls_other _ _ _ _ C1 Hx) as (_ & N & _).
    assert (block (disk_put (t_block t) (b_data (bf s (t_buf t))) s) (t_block x) = block s (t_block x)) as ->; [|done].
    unfold block, disk_put. cbn. by rewrite lookup_insert_ne.
  - cbv zeta. set (s' := setbuf _ _ _). assert (forall bn, block s' bn = block s bn) as Ek by done.
    assert (forall b, bf s' b = if (b =? t_buf t)%nat then set_b_data (block s (t_block t)) (bf s (t_buf t)) else bf s b) as Eb
      by (intros b; by apply bf_setbuf).
    split; [rewrite Ek, Eb, Nat.eqb_refl; done|]. split; [|split; [|by split; [apply length_setbuf|]]].
    + intros x Hx. destruct (calls_other _ _ _ _ C1 Hx) as [N _]. rewrite Ek, Eb. by destruct (Nat.eqb_spec (t_buf x) (t_buf t)).
    + intros b. rewrite Eb. by destruct (Nat.eqb_spec b (t_buf t)) as [->|].
Qed.

Lemma own_report X R v id st : own X R v -> own X R (report id st v).
Proof.
  intros [L1 L2 L3 L4 L5 N Rg F P]. split; try done; [unfold report; cbn; by rewrite length_insert|].
  intros r Hr. by apply (posted_frame v), P.
Qed.

Lemma flow_complete W A r T U E d d' s : own [] (A ++ (r :: T) ++ U ++ E) (k_vdisk s) ->
  calls (W ++ map r_t (A ++ (r :: T) ++ U ++ E)) s -> flow W A (r :: T) U E d s ->
  d_seen d' = d_seen d -> d_taken d' ≡ₚ map r_0 T ->
  let s' := set_k_vdisk (report (r_0 r) (r_0 r) (k_vdisk s)) (transfer (mk_breq (t_out (r_t r)) (r_block r * 2) (r_buf r) (r_0 r)) s) in
  flow W A T (U ++ [r]) E d' s' /\ calls (W ++ map r_t (A ++ (r :: T) ++ U ++ E)) s'.
Proof.
  intros O C [F1 F2 F3 F4 F5 F6 F7] Hs Ht s'. set (C' := W ++ map r_t (A ++ T ++ U ++ E)).
  assert (W ++ map r_t (A ++ (r :: T) ++ U ++ E) ≡ₚ r_t r :: C') as Hp.
  { unfold C'. cbn [app]. rewrite <- !Permutation_middle. cbn [map]. by rewrite <- Permutation_middle. }
  assert (queued s r) as [Qd Qb] by (apply F2, elem_of_app; right; apply list_elem_of_here).
  destruct (transfer_spec (mk_breq (t_out (r_t r)) (r_block r * 2) (r_buf r) (r_0 r)) s (r_t r) C') as (M & Ft & Eb & El & Ev);
    [by apply (calls_perm (W ++ map r_t (A ++ (r :: T) ++ U ++ E)))|done|done|].
  set (s1 := transfer _ s) in *.
  assert (forall x, x ∈ A ++ T ++ U ++ E -> r_t x ∈ C') as Hc by (intros x Hx; apply elem_of_app; right; by apply list_elem_of_fmap_2).
  assert (r_0 r < NUM)%nat as H0.
  { apply (ow_range _ _ _ O). cbn [app]. apply (chain_in r); [|apply list_elem_of_here]. rewrite !elem_of_app, elem_of_cons. tauto. }
  split; [split|].
  - intros x Hx. apply (Ft x); [apply elem_of_app; by left|by apply F1].
  - intros x Hx. destruct (F2 x) as [X1 X2]; [rewrite elem_of_app, elem_of_cons in *; tauto|]. split; [by rewrite <- X1; apply Eb|].
    apply (Ft (r_t x)); [apply Hc; rewrite !elem_of_app in *; tauto|done].
  - intros x Hx. assert (moved s1 (r_t x) /\ b_disk (bf s (r_buf x)) = 1 /\
      (x = r \/ nth (r_0 x) (vd_status (k_vdisk s)) 0 = 0)) as (X1 & X2 & X3).
    { apply elem_of_app in Hx as [Hx|Hx]; [|apply list_elem_of_singleton in Hx as ->; auto].
      destruct (F3 x Hx) as (Y1 & Y2 & Y3). split; [|auto]. apply (Ft (r_t x)); [apply Hc; rewrite !elem_of_app in *; tauto|done]. }
    split; [by rewrite <- X2; apply Eb|]. split; [done|]. cbn [s' set_k_vdisk k_vdisk report set_vd_dev_idx set_vd_used_ring set_vd_status vd_status].
    rewrite nth_ins by (rewrite (ow_stat _ _ _ O); lia). destruct (Nat.eqb_spec (r_0 x) (r_0 r)); [done|]. destruct X3 as [->|X3]; done.
  - intros x Hx. destruct (F4 x Hx) as [X1 X2]. split; [by rewrite <- X1; apply Eb|].
    apply (Ft (r_t x)); [apply Hc; rewrite !elem_of_app in *; tauto|done].
  - by rewrite Hs.
  - rewrite map_app. apply (ring_snoc (vd_used_ring (k_vdisk s))); [done|]. rewrite length_map.
    pose proof (own_count _ _ _ O) as Hl. rewrite !length_app in Hl. cbn [length] in Hl. unfold NUM in *. lia.
  - done.
  - apply (calls_frame _ s); [done| |done]. intros b. apply Eb.
Qed.

Lemma drv_device W A T U E d s d' s' : drv [] W A T U E d s -> dstep d s d' s' ->
  exists A' T' U', drv [] W A' T' U' E d' s' /\ A ++ T ++ U ++ E ≡ₚ A' ++ T' ++ U' ++ E.
Proof.
  intros [O C F] D. destruct (dstep_law _ _ _ _ D) as [(Ne & -> & Es & Et)|(id & rest & Ep & Hq)].
  - destruct F as [F1 F2 F3 F4 F5 F6 F7]. destruct A as [|r A]; [by apply ring_nil in F5|]. cbn [map] in F5.
    destruct (vring_tail _ _ _ _ _ F5) as (_ & Er & F5'). rewrite Er, Nat2Z.id in Et.
    assert ((r :: A) ++ T ++ U ++ E ≡ₚ A ++ (r :: T) ++ U ++ E) as Hp by (cbn [app]; by rewrite Permutation_middle).
    exists A, (r :: T), U. split; [|done]. split; [by apply (own_perm [] _ _ _ _ (Permutation_refl _) Hp)|by rewrite <- Hp|].
    split; try done; [|by rewrite Es|by rewrite Et, F7].
    intros x Hx. apply F2. cbn [app]. rewrite <- Permutation_middle in Hx. done.
  - assert (id ∈ map r_0 T) as (r & -> & Hr)%list_elem_of_fmap by (rewrite <- (fl_taken _ _ _ _ _ _ _ F), Ep; apply list_elem_of_here).
    apply elem_of_Permutation in Hr as [T' HT].
    assert (A ++ T ++ U ++ E ≡ₚ A ++ (r :: T') ++ U ++ E) as Hp by (by rewrite HT).
    assert (A ++ T ++ U ++ E ≡ₚ A ++ T' ++ (U ++ [r]) ++ E) as Hp'.
    { rewrite Hp. cbn [app]. rewrite <- app_assoc. cbn [app]. rewrite <- !Permutation_middle. done. }
    apply (own_perm [] [] _ _ _ (Permutation_refl _) Hp) in O. rewrite Hp in C.
    destruct (Hq _ (posted_decode _ _ (ow_posted _ _ _ O r ltac:(rewrite !elem_of_app, elem_of_cons; tauto)))) as (Es & Et & ->).
    exists A, T', (U ++ [r]).
    assert (rest ≡ₚ map r_0 T') as Hrest.
    { apply (Permutation_cons_inv (a := r_0 r)). rewrite <- Ep, (fl_taken _ _ _ _ _ _ _ F), HT. done. }
    destruct (flow_complete W A r T' U E d d' s) as [F' C']; [done|done| |done|by rewrite Et|].
    { destruct F as [F1 F2 F3 F4 F5 F6 F7]. split; try done; [intros x; rewrite <- HT; apply F2|by rewrite F7, HT]. }
    split; [|done]. split; [|rewrite <- Hp', Hp; exact C'|exact F'].
    apply (own_perm [] [] (A ++ (r :: T') ++ U ++ E)); [done|by rewrite <- Hp, Hp'|].
    cbn [q_status k_vdisk set_k_vdisk]. by apply own_report.
Qed.

(** ** The interrupt handler *)

Definition ack (r : req) (s : kstate) : kstate :=
  let s1 := wk (ChBuf (r_buf r)) (mark 0 (r_buf r) s) in
  set_k_vdisk (set_vd_used_idx (u16 (vd_used_idx (k_vdisk s1) + 1)) (k_vdisk s1)) s1.

Lemma drv_ack W A T r U E d s : drv [] W A T (r :: U) E d s -> drv [] W A T U (r :: E) d (ack r s).
Proof.
  intros [O C [F1 F2 F3 F4 F5 F6 F7]].
  assert (A ++ T ++ (r :: U) ++ E ≡ₚ A ++ T ++ U ++ r :: E) as Hp by (by rewrite <- (Permutation_middle U)).
  assert (W ++ map r_t (A ++ T ++ (r :: U) ++ E) ≡ₚ r_t r :: W ++ map r_t (A ++ T ++ U ++ E)) as Hc.
  { cbn [app]. rewrite <- !Permutation_middle. cbn [map]. by rewrite <- Permutation_middle. }
  pose proof (calls_lt _ _ _ (calls_perm _ _ _ Hc C)) as Hb. fold (r_buf r) in Hb.
  assert (forall x, (before s x -> before (ack r s) x) /\ (moved s x -> moved (ack r s) x)) as Ft by (intros x; by apply thread_mark).
  assert (forall x, x ∈ A ++ T ++ U ++ E -> b_disk (bf (ack r s) (r_buf x)) = b_disk (bf s (r_buf x))) as Eb.
  { intros x Hx. change (bf (ack r s)) with (bf (mark 0 (r_buf r) s)). rewrite bf_mark by done.
    destruct (calls_other _ _ _ (r_t x) (calls_perm _ _ _ Hc C)) as [Ne _]; [apply elem_of_app; right; by apply list_elem_of_fmap_2|].
    by destruct (Nat.eqb_spec (r_buf x) (r_buf r)). }
  split; [|rewrite <- Hp|].
  - apply (own_perm [] [] _ _ _ (Permutation_refl _) Hp) in O. destruct O as [L1 L2 L3 L4 L5 N Rg Fr P].
    split; try done. intros x Hx. by apply (posted_frame (k_vdisk s)), P.
  - apply (calls_mark _ 0 (r_t r)) in C; [by apply (calls_frame _ (mark 0 (r_buf r) s))|]. rewrite Hc. apply list_elem_of_here.
  - split.
    + intros x Hx. by apply Ft, F1.
    + intros x Hx. destruct (F2 x Hx). split; [rewrite Eb by (rewrite !elem_of_app in *; tauto); done|by apply Ft].
    + intros x Hx. destruct (F3 x) as (X1 & X2 & X3); [by apply list_elem_of_further|].
      split; [rewrite Eb by (rewrite !elem_of_app in *; tauto); done|]. split; [by apply Ft|done].
    + intros x [->|Hx]%elem_of_cons.
      * destruct (F3 r) as (_ & X2 & _); [apply list_elem_of_here|]. split; [|by apply Ft].
        change (bf (ack r s)) with (bf (mark 0 (r_buf r) s)). by rewrite bf_mark, Nat.eqb_refl.
      * destruct (F4 x Hx). split; [rewrite Eb by (rewrite !elem_of_app in *; tauto); done|by apply Ft].
    + done.
    + by apply (vring_tail _ _ _ (r_0 r)).
    + done.
Qed.

Lemma inside_ack r s : inside s -> inside (ack r s).
Proof. intros I. apply (inside_frame (wk (ChBuf (r_buf r)) (mark 0 (r_buf r) s))); [done..|]. by apply inside_wk, (inside_frame s). Qed.

Lemma intr_loop_spec W A T U : forall E d s, inside s -> drv [] W A T U E d s ->
  exists s', intr_loop (length U) s = Ret tt s' /\ inside s' /\ drv [] W A T [] (rev U ++ E) d s'.
Proof.
  induction U as [|r U IH]; intros E d s I H; pose proof (fl_used _ _ _ _ _ _ _ (dr_flow _ _ _ _ _ _ _ _ H)) as Hu.
  - apply ring_nil in Hu. exists s. split; [|done]. cbn [length intr_loop]. unfold getvd. kstep. by rewrite Hu, Z.eqb_refl.
  - destruct (vring_tail _ _ _ _ _ Hu) as (Ne & Er & _). destruct (IH (r :: E) d (ack r s)) as (s' & X & I' & H').
    { by apply inside_ack. } { by apply drv_ack. }
    exists s'. split; [|split; [done|]; cbn [rev]; by rewrite <- app_assoc]. cbn [length intr_loop]. unfold getvd. kstep.
    destruct (Z.eqb_spec (vd_used_idx (k_vdisk s)) (vd_dev_idx (k_vdisk s))) as [Eq|_]; [done|]. cbn [negb].
    rewrite Er, Nat2Z.id.
    destruct (fl_served _ _ _ _ _ _ _ (dr_flow _ _ _ _ _ _ _ _ H) r (list_elem_of_here _ _)) as (_ & _ & ->). cbn [Z.eqb negb].
    rewrite (po_b _ _ (ow_posted _ _ _ (dr_own _ _ _ _ _ _ _ _ H) r ltac:(rewrite !elem_of_app, elem_of_cons; tauto))).
    unfold updbuf. kstep. rewrite (bind_ret _ _ _ _ _ (wakeup_inside (lk := LVdisk) (ChBuf (r_buf r)) (mark 0 (r_buf r) s) ltac:(by apply (inside_frame s)))).
    unfold updvd. kstep. exact X.
Qed.

(** The invariant is about the queues, the buffers and the disk. *)
Lemma drv_other X W A T U E d s s' : k_vdisk s' = k_vdisk s -> length (k_bufs s') = length (k_bufs s) -> k_disk s' = k_disk s ->
  (forall t, t ∈ W ++ map r_t (A ++ T ++ U ++ E) -> bf s' (t_buf t) = bf s (t_buf t)) ->
  drv X W A T U E d s -> drv X W A T U E d s'.
Proof.
  intros H1 H2 H3 Eb [O C F].
  assert (forall t, t ∈ W ++ map r_t (A ++ T ++ U ++ E) -> (before s t -> before s' t) /\ (moved s t -> moved s' t)) as Ft.
  { intros t Ht. apply thread_frame; [by rewrite Eb|unfold block; by rewrite H3]. }
  assert (forall r, r ∈ A ++ T ++ U ++ E -> r_t r ∈ W ++ map r_t (A ++ T ++ U ++ E)) as Hm.
  { intros r Hr. apply elem_of_app. right. by apply list_elem_of_fmap_2. }
  split; [by rewrite H1| |].
  - destruct C as [L N0 N1 N2 B]. split; [congruence|done..|]. intros t Ht. unfold bound. rewrite Eb by done. by apply B.
  - destruct F as [F1 F2 F3 F4 F5 F6 F7]. split; rewrite ?H1; try done.
    + intros t Ht. apply (Ft t); [apply elem_of_app; by left|by apply F1].
    + intros r Hr. assert (r ∈ A ++ T ++ U ++ E) as Hr' by (rewrite !elem_of_app in *; tauto).
      destruct (F2 r Hr). split; [unfold r_buf; rewrite Eb; auto|by apply (Ft (r_t r)); [apply Hm|]].
    + intros r Hr. assert (r ∈ A ++ T ++ U ++ E) as Hr' by (rewrite !elem_of_app in *; tauto).
      destruct (F3 r Hr) as (? & ? & ?). split_and!; [unfold r_buf; rewrite Eb; auto|by apply (Ft (r_t r)); [apply Hm|]|by rewrite H1].
    + intros r Hr. assert (r ∈ A ++ T ++ U ++ E) as Hr' by (rewrite !elem_of_app in *; tauto).
      destruct (F4 r Hr). split; [unfold r_buf; rewrite Eb; auto|by apply (Ft (r_t r)); [apply Hm|]].
Qed.

Lemma drv_frame X W A T U E d s s' : k_vdisk s' = k_vdisk s -> k_bufs s' = k_bufs s -> k_disk s' = k_disk s ->
  drv X W A T U E d s -> drv X W A T U E d s'.
Proof. intros H1 H2 H3. apply drv_other; [done|by rewrite H2|done|]. intros t _. unfold bf. by rewrite H2. Qed.

Lemma drv_permW X W W' A T U E d s : W ≡ₚ W' -> drv X W A T U E d s -> drv X W' A T U E d s.
Proof.
  intros H [O C [F1 F2 F3 F4 F5 F6 F7]]. split; [done|by rewrite <- H|]. split; try done. intros t. rewrite <- H. apply F1.
Qed.

Lemma flow_stays W A T U E d s s' : stays s s' -> flow W A T U E d s -> flow W A T U E d s'.
Proof.
  intros S F. assert (forall t, (before s t -> before s' t) /\ (moved s t -> moved s' t)) as Ft
    by (intros t; apply thread_frame; unfold bf, block; [by rewrite (sy_bufs _ _ S)|by rewrite (sy_disk _ _ S)]).
  destruct F as [F1 F2 F3 F4 F5 F6 F7].
  assert (forall b, bf s' b = bf s b) as Eb by (intros b; unfold bf; by rewrite (sy_bufs _ _ S)).
  destruct S as [S1 S2 S3 S4 S5 S6 S7 S8 S9 S10 S11].
  split; rewrite ?S4, ?S5, ?S6, ?S7, ?S8; try done.
  - intros t Ht. by apply Ft, F1.
  - intros r Hr. destruct (F2 r Hr). split; [by rewrite Eb|by apply Ft].
  - intros r Hr. destruct (F3 r Hr) as (? & ? & ?). split_and!; [by rewrite Eb|by apply Ft|by rewrite S3].
  - intros r Hr. destruct (F4 r Hr). split; [by rewrite Eb|by apply Ft].
Qed.

Lemma calls_stays C s s' : stays s s' -> calls C s -> calls C s'.
Proof. intros S. apply calls_frame; [by rewrite (sy_bufs _ _ S)|intros b; unfold bf; by rewrite (sy_bufs _ _ S)]. Qed.

Lemma intr_spec {M : Mmio} W A T U E d s : outside s -> drv [] W A T U E d s ->
  exists s', virtio_disk_intr s = Ret tt s' /\ drv [] W A T [] (rev U ++ E) d s'.
Proof.
  intros H D. unfold virtio_disk_intr. erewrite bind_ret by (apply acquire_eq; split; apply H). unfold rd, mmio_write, getvd. do 3 kstep.
  set (s1 := set_k_mmio _ (acq LVdisk s)).
  destruct (intr_loop_spec W A T U E d s1) as (s2 & X & I & D').
  { apply (inside_frame (acq LVdisk s)); [done..|]. by apply outside_acq. } { by apply (drv_frame _ _ _ _ _ _ _ s). }
  assert (Z.to_nat (u16 (vd_dev_idx (k_vdisk s1) - vd_used_idx (k_vdisk s1))) = length U) as ->.
  { change (k_vdisk s1) with (k_vdisk s). destruct (fl_used _ _ _ _ _ _ _ (dr_flow _ _ _ _ _ _ _ _ D)) as (Hl & -> & _ & Hn & _).
    rewrite length_map in *. unfold NUM in Hn. unfold u16. rewrite Zminus_mod_idemp_l, Z.add_simpl_l, Z.mod_small; lia. }
  rewrite (bind_ret _ _ _ _ _ X). rewrite release_eq by apply I. eexists. split; [done|]. by apply (drv_frame _ _ _ _ _ _ _ s2).
Qed.

(** ** The end of a call *)

Lemma own_clear r R v : own [] (r :: R) v ->
  own [r_0 r; r_1 r; r_2 r] R (set_vd_info_b (<[r_0 r := None]> (vd_info_b v)) v).
Proof.
  intros [L1 L2 L3 L4 L5 N Rg F P]. change ([] ++ (r :: R) ≫= chain) with ([r_0 r; r_1 r; r_2 r] ++ R ≫= chain) in *.
  split; try done; [by cbn; rewrite length_insert|]. intros x Hx.
  apply (posted_frame v); try done; [|by apply P, list_elem_of_further]. cbn [vd_info_b set_vd_info_b]. apply nth_ins_ne. intros X.
  apply NoDup_app in N as (_ & N & _). apply (N (r_0 r)); [apply list_elem_of_here|]. rewrite <- X. apply (chain_in x); [done|apply list_elem_of_here].
Qed.

Lemma free_chain_spec r R s : inside s -> own (chain r) R (k_vdisk s) -> (exists v, posted v r /\ vd_desc v = vd_desc (k_vdisk s)) ->
  exists s', free_chain (r_0 r) s = Ret tt s' /\ stays s s' /\ own [] R (k_vdisk s').
Proof.
  intros I O (v & [P0 P1 P2 _ _] & Ev). rewrite Ev in P0, P1, P2. pose proof (ow_nodup _ _ _ O) as N. cbn [chain app] in N. rewrite !NoDup_cons, !elem_of_cons in N.
  assert (r_1 r <> r_0 r /\ r_2 r <> r_0 r /\ r_2 r <> r_1 r) as (N1 & N2 & N3) by (split_and!; intros X; rewrite X in N; tauto).
  unfold free_chain. cbn [free_chain_loop NUM]. unfold getvd. kstep. rewrite P0. cbn [vq_flags vq_next].
  destruct (free_desc_spec _ _ _ s I O) as (s1 & X1 & V1 & S1). rewrite (bind_ret _ _ _ _ _ X1).
  change (has VRING_DESC_F_NEXT VRING_DESC_F_NEXT) with true. cbv iota. rewrite Nat2Z.id.
  pose proof (own_put _ _ _ _ O) as O1. rewrite <- V1 in O1. pose proof (stays_inside _ _ S1 I) as I1.
  kstep. rewrite V1. cbn [put_desc set_vd_free set_vd_desc vd_desc]. rewrite nth_ins_ne, P1 by done. cbn [vq_flags vq_next].
  destruct (free_desc_spec _ _ _ s1 I1 O1) as (s2 & X2 & V2 & S2). rewrite (bind_ret _ _ _ _ _ X2).
  replace (has (Z.lor (if t_out (r_t r) then 0 else VRING_DESC_F_WRITE) VRING_DESC_F_NEXT) VRING_DESC_F_NEXT) with true by (by destruct (t_out (r_t r))).
  rewrite Nat2Z.id. pose proof (own_put _ _ _ _ O1) as O2. rewrite <- V2 in O2. pose proof (stays_inside _ _ S2 I1) as I2.
  kstep. rewrite V2, V1. cbn [put_desc set_vd_free set_vd_desc vd_desc]. rewrite !nth_ins_ne, P2 by done. cbn [vq_flags vq_next].
  destruct (free_desc_spec _ _ _ s2 I2 O2) as (s3 & X3 & V3 & S3). rewrite (bind_ret _ _ _ _ _ X3).
  change (has VRING_DESC_F_WRITE VRING_DESC_F_NEXT) with false. cbv iota. exists s3. split; [done|].
  split; [by apply (stays_trans _ s1), (stays_trans _ s2)|]. rewrite V3. by apply own_put.
Qed.

Lemma finish_spec W A T U r E d s : inside s -> drv [] W A T U (r :: E) d s ->
  exists s', finish (r_0 r) s = Ret tt s' /\ drv [] W A T U E d s' /\ moved s' (r_t r).
Proof.
  intros I [O C F]. assert (A ++ T ++ U ++ r :: E ≡ₚ r :: A ++ T ++ U ++ E) as Hp by (by rewrite <- !Permutation_middle).
  apply (own_perm [] [] _ _ _ (Permutation_refl _) Hp) in O. unfold finish, updvd. kstep. set (s1 := set_k_vdisk _ s).
  assert (stays s s1) as S1 by done.
  destruct (free_chain_spec r (A ++ T ++ U ++ E) s1) as (s2 & X & S2 & O2); [by apply (stays_inside s)|by apply own_clear| |].
  { exists (k_vdisk s). split; [apply (ow_posted _ _ _ O), list_elem_of_here|done]. }
  rewrite (bind_ret _ _ _ _ _ X). pose proof (stays_trans _ _ _ S1 S2) as S. rewrite release_eq by (by apply (stays_inside s)).
  eexists. split; [done|]. assert (flow W A T U (r :: E) d s2) as F2 by (by apply (flow_stays _ _ _ _ _ _ s)).
  split; [|destruct (fl_ended _ _ _ _ _ _ _ F2 r (list_elem_of_here _ _)); done].
  apply (drv_frame _ _ _ _ _ _ _ s2); [done..|]. split; [done| |].
  - apply (calls_stays _ s); [done|]. rewrite Hp in C. cbn [map] in C. rewrite <- Permutation_middle in C. by apply calls_tail in C.
  - destruct F2 as [F1 F3 F4 F5 F6 F7 F8]. split; try done. intros x Hx. by apply F5, list_elem_of_further.
Qed.

Lemma drv_asleep ch i X W A T U E d s : drv X W A T U E d s -> drv X W A T U E d (asleep ch LVdisk i s).
Proof. by apply drv_frame. Qed.

(** Waiting for the device: the call ends, or it sleeps again. *)
Lemma wait_run fuel r W A T U E d s : turn (t_proc (r_t r)) s -> drv [] W A T U E d s -> r ∈ A ++ T ++ U ++ E ->
  let m := disk_wait fuel (r_buf r) ;; finish (r_0 r) in
  (exists E' s', E ≡ₚ r :: E' /\ m s = Ret tt s' /\ drv [] W A T U E' d s' /\ moved s' (r_t r)) \/
  (r ∈ A ++ T ++ U /\ ((m s = Unbounded /\ fuel = O) \/ exists s' k, m s = Switch s' k /\ drv [] W A T U E d s' /\ k_vdisk s' = k_vdisk s /\
     exists fuel' ie, forall s2, back (t_proc (r_t r)) s2 ->
       k s2 = (disk_wait fuel' (r_buf r) ;; finish (r_0 r)) (awake LVdisk (t_proc (r_t r)) ie s2))).
Proof.
  intros Tu D Hr m. assert (r ∈ A ++ T ++ U \/ r ∈ E) as [H|H] by (rewrite !elem_of_app in *; tauto).
  - right. split; [done|]. assert (b_disk (bf s (r_buf r)) = 1) as Hb.
    { pose proof (dr_flow _ _ _ _ _ _ _ _ D) as F. rewrite app_assoc in H. apply elem_of_app in H as [H|H];
        [apply (fl_queued _ _ _ _ _ _ _ F r H)|apply (fl_served _ _ _ _ _ _ _ F r H)]. }
    subst m. destruct fuel as [|fuel]; cbn [disk_wait].
    + left. split; [|done]. unfold getbuf. unfold mbind, K_bind, gets. cbn [res_bind]. fold (bf s (r_buf r)). rewrite Hb. done.
    + right. destruct (turn_sleep (ChBuf (r_buf r)) _ s (disk_wait fuel (r_buf r)) (fun _ => finish (r_0 r)) Tu) as (k & X & ie & Hk).
      exists (asleep (ChBuf (r_buf r)) LVdisk (t_proc (r_t r)) s), k. split; [|split; [by apply drv_asleep|split; [done|by exists fuel, ie]]].
      rewrite <- X. unfold getbuf. unfold mbind, K_bind, gets. cbn [res_bind]. fold (bf s (r_buf r)). by rewrite Hb.
  - left. apply elem_of_Permutation in H as [E' HE]. assert (drv [] W A T U (r :: E') d s) as D'.
    { destruct D as [O C F]. assert (A ++ T ++ U ++ E ≡ₚ A ++ T ++ U ++ r :: E') as Hp by (by rewrite HE).
      split; [by apply (own_perm [] _ _ _ _ (Permutation_refl _) Hp)|by rewrite <- Hp|].
      destruct F as [F1 F2 F3 F4 F5 F6 F7]. split; try done. intros x. rewrite <- HE. apply F4. }
    destruct (finish_spec _ _ _ _ _ _ _ s (tu_inside _ _ Tu) D') as (s' & X & D2 & M). exists E', s'. split; [done|]. split; [|done].
    subst m. rewrite <- X. destruct (fl_ended _ _ _ _ _ _ _ (dr_flow _ _ _ _ _ _ _ _ D') r (list_elem_of_here _ _)) as [Hb _].
    destruct fuel; cbn [disk_wait]; unfold getbuf; unfold mbind, K_bind, gets; cbn [res_bind]; fold (bf s (r_buf r)); by rewrite Hb.
Qed.

Lemma drv_post t i0 i1 i2 W A T U E d s : drv [i2; i1; i0] (t :: W) A T U E d s ->
  drv [] W (A ++ [mk_req t i0 i1 i2]) T U E d (post (t_buf t) (t_out t) (t_block t * 2) i0 i1 i2 s).
Proof.
  intros [O C F]. set (r := mk_req t i0 i1 i2). set (s' := post _ _ _ _ _ _ _).
  assert (r :: A ++ T ++ U ++ E ≡ₚ (A ++ [r]) ++ T ++ U ++ E) as Hp by (rewrite <- app_assoc; cbn [app]; by rewrite Permutation_middle).
  split.
  - apply (own_perm [] [] _ _ _ (Permutation_refl _) Hp). by apply (own_post t).
  - rewrite <- Hp. cbn [map r_t]. rewrite <- Permutation_middle. apply (calls_frame _ (mark 1 (t_buf t) s)); [done|done|].
    apply calls_mark; [apply list_elem_of_here|done].
  - apply flow_post; [done|done|apply (fl_before _ _ _ _ _ _ _ F), list_elem_of_here|].
    destruct F as [F1 F2 F3 F4 F5 F6 F7]. split; try done. intros x Hx. by apply F1, list_elem_of_further.
Qed.

Lemma alloc_run fuel fuel' t W A T U E d s : turn (t_proc t) s -> drv [] (t :: W) A T U E d s ->
  let m := from_alloc fuel fuel' t in
  (m s = Unbounded /\ (fuel = O \/ fuel' = O)) \/
  (exists s' k, m s = Switch s' k /\ drv [] (t :: W) A T U E d s' /\ (NUM <= 2 + 3 * length (A ++ T ++ U ++ E))%nat /\
     exists f f' ie, forall s2, back (t_proc t) s2 -> k s2 = from_alloc f f' t (awake LVdisk (t_proc t) ie s2)) \/
  (exists i0 i1 i2 s' k, m s = Switch s' k /\ drv [] W (A ++ [mk_req t i0 i1 i2]) T U E d s' /\
     vd_avail_idx (k_vdisk s') = u16 (vd_avail_idx (k_vdisk s) + 1) /\ exists f ie, forall s2, back (t_proc t) s2 -> k s2 = (disk_wait f (t_buf t) ;; finish i0) (awake LVdisk (t_proc t) ie s2)).
Proof.
  intros Tu D m. destruct (alloc3_desc_spec _ s (tu_inside _ _ Tu) (dr_own _ _ _ _ _ _ _ _ D)) as (o & s1 & X & S & O).
  assert (forall Y, own Y (A ++ T ++ U ++ E) (k_vdisk s1) -> drv Y (t :: W) A T U E d s1) as D1.
  { intros Y OY. destruct D as [_ C F]. split; [done|by apply (calls_stays _ s)|by apply (flow_stays _ _ _ _ _ _ s)]. }
  assert (turn (t_proc t) s1) as Tu1 by (by apply (turn_frame _ s); try apply S).
  destruct o as [[[i0 i1] i2]|].
  - pose proof (drv_post _ _ _ _ _ _ _ _ _ _ _ (D1 _ O)) as D2. set (s2 := post _ _ _ _ _ _ _) in D2. set (r := mk_req t i0 i1 i2) in *.
    assert (m s = (disk_wait fuel' (r_buf r) ;; finish (r_0 r)) s2) as Em.
    { subst m. unfold from_alloc. destruct fuel; cbn [alloc3_wait]; by rewrite (bind_bind_ret _ _ _ _ _ _ X). }
    rewrite Em. destruct (wait_run fuel' r W (A ++ [r]) T U E d s2) as [(E' & s' & HE & _)|(_ & [[Un ->]|(s' & k & Xs & D3 & Ev & Hk)])].
    + by apply (turn_frame _ s1).
    + done.
    + rewrite !elem_of_app, list_elem_of_singleton. tauto.
    + exfalso. destruct (fl_ended _ _ _ _ _ _ _ (dr_flow _ _ _ _ _ _ _ _ D2) r) as [Z0 _]; [rewrite HE; apply list_elem_of_here|].
      destruct (fl_queued _ _ _ _ _ _ _ (dr_flow _ _ _ _ _ _ _ _ D2) r) as [Z1 _]; [rewrite !elem_of_app, list_elem_of_singleton; tauto|]. lia.
    + left. auto.
    + right. right. exists i0, i1, i2, s', k. split; [done|]. split; [done|]. split; [|done]. rewrite Ev. cbn. by rewrite (sy_aidx _ _ S).
  - destruct fuel as [|fuel].
    + left. split; [|by left]. subst m. unfold from_alloc. cbn [alloc3_wait]. by rewrite (bind_bind_ret _ _ _ _ _ _ X).
    + right. left. subst m. unfold from_alloc. cbn [alloc3_wait]. rewrite (bind_bind_ret _ _ _ _ _ _ X).
      destruct (turn_sleep ChDiskFree _ s1 (alloc3_wait fuel) (fun '(i0, i1, i2) => submit (t_buf t) (t_out t) (t_block t * 2) i0 i1 i2 ;;
        disk_wait fuel' (t_buf t) ;; finish i0) Tu1) as (k & Xs & ie & Hk).
      eexists _, k. split; [exact Xs|]. split; [by apply drv_asleep, D1, O|]. split; [apply O|]. by exists fuel, fuel', ie.
Qed.

End Flow.

(** ** All interleavings *)

Module Driver.
Section Driver.
Context {V : Device} {M : Mmio}.

(** The kernel's state, the device, the rests of the suspended calls by
    process, and the calls in progress.  [Down] is a panic; [Stop] is a call
    that is woken more often than its bound. *)
Inductive mstate :=
| Up (s : kstate) (d : dstate) (pool : gmap nat (kstate -> res unit)) (C : list thread)
| Down (msg : string)
| Stop.

Definition after (i : nat) (r : res unit) (d : dstate) (pool : gmap nat (kstate -> res unit)) (C : list thread) : mstate :=
  match r with
  | Ret _ s => Up s d (delete i pool) (filter (fun t => t_proc t <> i) C)
  | Switch s k => Up s d (<[i := k]> pool) C
  | Panic msg _ => Down msg
  | Spin _ _ _ => Down "spin"
  | Unbounded => Stop
  end.

(** The call of process [i] in state [s]. *)
Definition caller (i b : nat) (w : bool) (s : kstate) : thread :=
  mk_thread i b w (b_blockno (bf s b)) (if w then b_data (bf s b) else block s (b_blockno (bf s b))).

(** A process calls virtio_disk_rw() with a buffer that is its own; a
    suspended call goes on, woken for whatever reason; the interrupt handler
    runs; the device makes a step; other code changes what is not in use by
    the driver. *)
Inductive step : mstate -> mstate -> Prop :=
| st_call fuel i b w s d pool C : at_large LVdisk i s -> pool !! i = None -> (b < NBUF)%nat -> 0 <= b_blockno (bf s b) < 2 ^ 31 ->
    (forall t, t ∈ C -> t_buf t <> b /\ t_block t <> b_blockno (bf s b)) ->
    step (Up s d pool C) (after i (disk_rw fuel b w s) d pool (caller i b w s :: C))
| st_resume i k s d pool C : pool !! i = Some k -> back i s -> plocks_free s -> length (k_procs s) = NPROC ->
    step (Up s d pool C) (after i (k s) d pool C)
| st_intr s d pool C : outside s ->
    step (Up s d pool C) (match virtio_disk_intr s with Ret _ s' => Up s' d pool C | Panic msg _ => Down msg | _ => Down "stuck" end)
| st_device s d s' d' pool C : dstep d s d' s' -> step (Up s d pool C) (Up s' d' pool C)
| st_other s s' d pool C : k_vdisk s' = k_vdisk s -> k_disk s' = k_disk s -> length (k_bufs s') = length (k_bufs s) ->
    (forall t, t ∈ C -> bf s' (t_buf t) = bf s (t_buf t)) -> step (Up s d pool C) (Up s' d pool C).

(** The queues as virtio_disk_init() leaves them. *)
Definition fresh_queues (s : kstate) (d : dstate) : Prop :=
  k_vdisk s = set_vd_free (replicate NUM 1) zero_vdisk /\ d_seen d = 0 /\ d_taken d = [] /\ length (k_bufs s) = S NBUF.

Definition inv (m : mstate) : Prop :=
  match m with
  | Up s d pool C => exists W A T U E, drv [] W A T U E d s /\ susp pool W (A ++ T ++ U ++ E) /\ C ≡ₚ W ++ map r_t (A ++ T ++ U ++ E)
  | Down _ => False
  | Stop => True
  end.

Lemma drv_init s d : fresh_queues s d -> inv (Up s d ∅ []).
Proof.
  intros (Hv & Hs & Ht & Hl). exists [], [], [], [], []. split; [|split; [|done]].
  - split; [| |split]; rewrite ?Hv, ?Hs, ?Ht; try (by intros ? ?%elem_of_nil); try done.
    + split; try done; [constructor|by intros ? ?%elem_of_nil| |by intros ? ?%elem_of_nil].
      intros i Hi. cbn [vd_free set_vd_free]. rewrite nth_lookup, lookup_replicate_2 by done. split; [done|by intros ?%elem_of_nil].
    + split; [done|constructor..|by intros ? ?%elem_of_nil].
    + by apply ring_empty.
    + by apply ring_empty.
  - split; try (by intros ? ?%elem_of_nil). intros i. rewrite lookup_empty. by intros [].
Qed.

Lemma at_alloc_other pool pool' t : pool' !! t_proc t = pool !! t_proc t -> at_alloc pool t -> at_alloc pool' t.
Proof. unfold at_alloc. by intros ->. Qed.

Lemma at_wait_other pool pool' r : pool' !! t_proc (r_t r) = pool !! t_proc (r_t r) -> at_wait pool r -> at_wait pool' r.
Proof. unfold at_wait. by intros ->. Qed.

(** The suspended calls other than [t] are as they were. *)
Lemma susp_other pool pool' t W R C s : calls (t :: C) s -> W ++ map r_t R ≡ₚ C ->
  (forall j, j <> t_proc t -> pool' !! j = pool !! j) ->
  (forall x, x ∈ W -> at_alloc pool x) -> (forall x, x ∈ R -> at_wait pool x) ->
  (forall x, x ∈ W -> at_alloc pool' x) /\ (forall x, x ∈ R -> at_wait pool' x).
Proof.
  intros Hc Hp Ho H1 H2. split; intros x Hx.
  - apply (at_alloc_other pool); [|by apply H1]. apply Ho. apply (calls_other _ _ _ _ Hc). rewrite <- Hp. apply elem_of_app. by left.
  - apply (at_wait_other pool); [|by apply H2]. apply Ho. apply (calls_other _ _ _ _ Hc). rewrite <- Hp.
    apply elem_of_app. right. by apply list_elem_of_fmap_2.
Qed.

Lemma filter_others t C s : calls (t :: C) s -> filter (fun x => t_proc x <> t_proc t) (t :: C) = C.
Proof.
  intros H. rewrite filter_cons_False by tauto. assert (forall x, x ∈ C -> t_proc x <> t_proc t) as Hx.
  { intros x Hx. by apply (calls_other _ _ _ _ H). }
  clear H. induction C as [|x C IH]; [done|]. rewrite filter_cons_True by apply Hx, list_elem_of_here. f_equal. apply IH.
  intros y Hy. by apply Hx, list_elem_of_further.
Qed.

(** A call that looks for descriptors. *)
Lemma inv_alloc t W A T U E d s pool fuel fuel' C : turn (t_proc t) s -> drv [] (t :: W) A T U E d s ->
  susp (delete (t_proc t) pool) W (A ++ T ++ U ++ E) -> C ≡ₚ t :: W ++ map r_t (A ++ T ++ U ++ E) ->
  inv (after (t_proc t) (from_alloc fuel fuel' t s) d pool C).
Proof.
  intros Tu D [S1 S2 S3] HC. set (R := A ++ T ++ U ++ E) in *.
  destruct (alloc_run fuel fuel' t W A T U E d s Tu D) as [[-> _]|[(s' & k & -> & D' & _ & Hk)|(i0 & i1 & i2 & s' & k & -> & D' & _ & Hk)]]; [done|..];
    cbn [after inv];
    destruct (susp_other (delete (t_proc t) pool) (<[t_proc t := k]> pool) t W R _ s (dr_calls _ _ _ _ _ _ _ _ D) (Permutation_refl _)) as [O1 O2];
    try done; try (intros j Hj; by rewrite lookup_insert_ne, lookup_delete_ne).
  - exists (t :: W), A, T, U, E. split; [done|]. split; [|done]. split; [|exact O2|].
    + intros x [->|Hx]%elem_of_cons; [|by apply O1]. exists k. by rewrite lookup_insert_eq.
    + intros j Hj. cbn [app map]. destruct (decide (j = t_proc t)) as [->|N]; [apply list_elem_of_here|].
      apply list_elem_of_further, S3. rewrite lookup_delete_ne by done. by rewrite lookup_insert_ne in Hj.
  - set (r := mk_req t i0 i1 i2) in *. exists W, (A ++ [r]), T, U, E.
    assert ((A ++ [r]) ++ T ++ U ++ E ≡ₚ r :: R) as Hp by (rewrite <- app_assoc; cbn [app]; by rewrite <- Permutation_middle).
    split; [done|]. split; [|rewrite Hp; cbn [map]; by rewrite <- Permutation_middle]. split; [exact O1| |].
    + intros x. rewrite Hp. intros [->|Hx]%elem_of_cons; [|by apply O2]. exists k. by rewrite lookup_insert_eq.
    + intros j Hj. rewrite Hp. cbn [map]. rewrite <- Permutation_middle. cbn [map].
      destruct (decide (j = t_proc t)) as [->|N]; [apply list_elem_of_here|].
      apply list_elem_of_further, S3. rewrite lookup_delete_ne by done. by rewrite lookup_insert_ne in Hj.
Qed.

(** A call that waits for the device. *)
Lemma inv_wait r W A T U E d s pool fuel C : turn (t_proc (r_t r)) s -> drv [] W A T U E d s -> r ∈ A ++ T ++ U ++ E ->
  susp pool W (A ++ T ++ U ++ E) -> C ≡ₚ W ++ map r_t (A ++ T ++ U ++ E) ->
  inv (after (t_proc (r_t r)) ((disk_wait fuel (r_buf r) ;; finish (r_0 r)) s) d pool C).
Proof.
  intros Tu D Hr [S1 S2 S3] HC. set (R := A ++ T ++ U ++ E) in *. pose proof (proj1 (elem_of_Permutation _ _) Hr) as [R' HR].
  assert (W ++ map r_t R ≡ₚ r_t r :: W ++ map r_t R') as Hp by (rewrite HR; cbn [map]; by rewrite Permutation_middle).
  pose proof (dr_calls _ _ _ _ _ _ _ _ D) as Ca. fold R in Ca. rewrite Hp in Ca.
  assert (forall x, x ∈ R' -> at_wait pool x) as S2' by (intros x Hx; apply S2; rewrite HR; by apply list_elem_of_further).
  destruct (wait_run fuel r W A T U E d s Tu D Hr) as [(E' & s' & HE & -> & D' & _)|(_ & [[-> _]|(s' & k & -> & D' & _ & Hk)])]; [|done|]; cbn [after inv].
  - destruct (susp_other pool (delete (t_proc (r_t r)) pool) (r_t r) W R' _ s Ca (Permutation_refl _)) as [O1 O2];
      try done; try (intros j Hj; by rewrite lookup_delete_ne).
    assert (A ++ T ++ U ++ E' ≡ₚ R') as Hq.
    { apply (Permutation_cons_inv (a := r)). rewrite <- HR. unfold R. rewrite HE. by rewrite <- !Permutation_middle. }
    exists W, A, T, U, E'. split; [done|]. split; [split|].
    + exact O1.
    + intros x. rewrite Hq. apply O2.
    + intros j Hj. rewrite Hq. destruct (decide (j = t_proc (r_t r))) as [->|N]; [rewrite lookup_delete_eq in Hj; by destruct Hj|].
      rewrite lookup_delete_ne in Hj by done. apply S3 in Hj. rewrite Hp in Hj. cbn [map] in Hj. by apply elem_of_cons in Hj as [->|Hj].
    + rewrite Hq, HC, Hp. by rewrite (filter_others _ _ _ Ca).
  - destruct (susp_other pool (<[t_proc (r_t r) := k]> pool) (r_t r) W R' _ s Ca (Permutation_refl _)) as [O1 O2];
      try done; try (intros j Hj; by rewrite lookup_insert_ne).
    exists W, A, T, U, E. split; [done|]. split; [|done]. fold R. split; [exact O1| |].
    + intros x. rewrite HR. intros [->|Hx]%elem_of_cons; [|by apply O2]. exists k. by rewrite lookup_insert_eq.
    + intros j Hj. destruct (decide (j = t_proc (r_t r))) as [->|N]; [rewrite Hp; apply list_elem_of_here|].
      apply S3. by rewrite lookup_insert_ne in Hj.
Qed.

Lemma inv_resume i k s d pool C : inv (Up s d pool C) -> pool !! i = Some k -> back i s -> plocks_free s ->
  length (k_procs s) = NPROC -> inv (after i (k s) d pool C).
Proof.
  intros (W & A & T & U & E & D & S & HC) Hi Hb Hp Hl. set (R := A ++ T ++ U ++ E) in *.
  destruct (proj1 (list_elem_of_fmap _ _ _) (su_dom _ _ _ S i ltac:(by eexists))) as (t & -> & [Ht|Ht]%elem_of_app).
  - destruct (su_alloc _ _ _ S t Ht) as (k' & Ek & fuel & fuel' & ie & Hk). rewrite Hi in Ek. injection Ek as <-. rewrite Hk by done.
    apply elem_of_Permutation in Ht as [W' HW]. apply (drv_permW _ _ _ _ _ _ _ _ _ HW) in D.
    apply (inv_alloc t W' A T U E); [by apply turn_awake|by apply (drv_frame _ _ _ _ _ _ _ s)| |by rewrite HC, HW]. fold R.
    assert (forall x, x ∈ W' -> at_alloc pool x) as S1 by (intros x Hx; apply (su_alloc _ _ _ S); rewrite HW; by apply list_elem_of_further).
    destruct (susp_other pool (delete (t_proc t) pool) t W' R _ s (dr_calls _ _ _ _ _ _ _ _ D) (Permutation_refl _)) as [O1 O2];
      [intros j Hj; by rewrite lookup_delete_ne|done|apply S|].
    split; [done|done|]. intros j Hj. destruct (decide (j = t_proc t)) as [->|N]; [rewrite lookup_delete_eq in Hj; by destruct Hj|].
    rewrite lookup_delete_ne in Hj by done. apply (su_dom _ _ _ S) in Hj. rewrite HW in Hj. by apply elem_of_cons in Hj as [->|Hj].
  - apply list_elem_of_fmap in Ht as (r & -> & Hr). destruct (su_wait _ _ _ S r Hr) as (k' & Ek & fuel & ie & Hk).
    rewrite Hi in Ek. injection Ek as <-. rewrite Hk by done.
    apply (inv_wait r W A T U E); [by apply turn_awake|by apply (drv_frame _ _ _ _ _ _ _ s)|done..].
Qed.

Lemma disk_rw_eq fuel i b w s : outside s -> 0 <= b_blockno (bf s b) < 2 ^ 31 ->
  disk_rw fuel b w s = from_alloc fuel fuel (caller i b w s) (acq LVdisk s).
Proof.
  intros H Hb. unfold disk_rw, getbuf. kstep. fold (bf s b). rewrite (bind_ret _ _ _ _ _ (acquire_eq LVdisk s (conj (proj1 (ou_free _ H)) (ou_lock _ H)))).
  unfold from_alloc, caller. cbn [t_buf t_out t_block]. change (BSIZE / 512) with 2. unfold u32. rewrite Z.mod_small by lia. done.
Qed.

(** A call joins those that have no descriptors. *)
Lemma drv_call i b w W A T U E d s pool C : drv [] W A T U E d s -> susp pool W (A ++ T ++ U ++ E) ->
  C ≡ₚ W ++ map r_t (A ++ T ++ U ++ E) -> pool !! i = None -> (b < NBUF)%nat -> 0 <= b_blockno (bf s b) < 2 ^ 31 ->
  (forall t, t ∈ C -> t_buf t <> b /\ t_block t <> b_blockno (bf s b)) -> drv [] (caller i b w s :: W) A T U E d (acq LVdisk s).
Proof.
  intros D S HC Hi Hb Hbn Hd. set (t := caller i b w s).
  apply (drv_frame _ _ _ _ _ _ _ s); [done..|]. destruct D as [O Ca F]. split; [done| |].
  - destruct Ca as [L N0 N1 N2 B]. cbn [app map] in *. rewrite <- HC in *.
    split; [done|..]; cbn [map].
    + constructor; [|done]. intros (x & Ex & Hx)%list_elem_of_fmap. cbn [t caller t_proc] in Ex. rewrite HC in Hx.
      apply elem_of_app in Hx as [Hx|Hx].
      * destruct (su_alloc _ _ _ S x Hx) as (k & Ek & _). congruence.
      * apply list_elem_of_fmap in Hx as (r & -> & Hr). destruct (su_wait _ _ _ S r Hr) as (k & Ek & _). congruence.
    + constructor; [|done]. intros (x & Ex & Hx)%list_elem_of_fmap. destruct (Hd x Hx) as [X _]. by apply X.
    + constructor; [|done]. intros (x & Ex & Hx)%list_elem_of_fmap. destruct (Hd x Hx) as [_ X]. by apply X.
    + intros x [->|Hx]%elem_of_cons; [done|apply B; by rewrite <- HC].
  - destruct F as [F1 F2 F3 F4 F5 F6 F7]. split; try done. intros x [->|Hx]%elem_of_cons; [|by apply F1].
    unfold before. cbn [t caller t_out t_data t_buf t_block]. by destruct w.
Qed.

Lemma inv_call fuel i b w s d pool C : inv (Up s d pool C) -> at_large LVdisk i s -> pool !! i = None -> (b < NBUF)%nat ->
  0 <= b_blockno (bf s b) < 2 ^ 31 -> (forall t, t ∈ C -> t_buf t <> b /\ t_block t <> b_blockno (bf s b)) ->
  inv (after i (disk_rw fuel b w s) d pool (caller i b w s :: C)).
Proof.
  intros (W & A & T & U & E & D & S & HC) Hr Hi Hb Hbn Hd. rewrite (disk_rw_eq fuel i) by (try apply Hr; done).
  set (t := caller i b w s). change i with (t_proc t). apply (inv_alloc t W A T U E); [| |by rewrite delete_id|by rewrite HC].
  - by apply ready_turn.
  - by apply (drv_call i b w W A T U E d s pool C).
Qed.

Lemma drv_step m m' : inv m -> step m m' -> inv m'.
Proof.
  intros I S. destruct S as [fuel i b w s d pool C R Hi Hb Hn Hd|i k s d pool C Hi Hb Hp Hl|s d pool C Ho|s d s' d' pool C Hd|s s' d pool C H1 H2 H3 H4].
  - by apply inv_call.
  - by apply inv_resume.
  - destruct I as (W & A & T & U & E & D & S & HC). destruct (intr_spec W A T U E d s Ho D) as (s' & -> & D').
    assert (A ++ T ++ U ++ E ≡ₚ A ++ T ++ [] ++ rev U ++ E) as Hp by (cbn [app]; by rewrite <- (Permutation_rev U)).
    exists W, A, T, [], (rev U ++ E). split; [done|]. split; [|by rewrite <- Hp].
    destruct S as [S1 S2 S3]. split; [done|intros x; rewrite <- Hp; apply S2|intros j; rewrite <- Hp; apply S3].
  - destruct I as (W & A & T & U & E & D & S & HC). destruct (drv_device _ _ _ _ _ _ _ _ _ D Hd) as (A' & T' & U' & D' & Hp).
    exists W, A', T', U', E. split; [done|]. split; [|by rewrite <- Hp].
    destruct S as [S1 S2 S3]. split; [done|intros x; rewrite <- Hp; apply S2|intros j; rewrite <- Hp; apply S3].
  - destruct I as (W & A & T & U & E & D & S & HC). exists W, A, T, U, E. split; [|done].
    apply (drv_other _ _ _ _ _ _ _ s); try done. intros t Ht. apply H4. by rewrite HC.
Qed.

(** A call returns in state [s']: at once, or when it goes on. *)
Inductive returns : mstate -> thread -> kstate -> Prop :=
| rt_call fuel i b w s d pool C s' : at_large LVdisk i s -> pool !! i = None -> (b < NBUF)%nat -> 0 <= b_blockno (bf s b) < 2 ^ 31 ->
    (forall t, t ∈ C -> t_buf t <> b /\ t_block t <> b_blockno (bf s b)) ->
    disk_rw fuel b w s = Ret tt s' -> returns (Up s d pool C) (caller i b w s) s'
| rt_resume t k s d pool C s' : t ∈ C -> pool !! t_proc t = Some k -> back (t_proc t) s -> plocks_free s ->
    length (k_procs s) = NPROC -> k s = Ret tt s' -> returns (Up s d pool C) t s'.

Lemma resume_moved t k W A T U E d s s' pool : drv [] W A T U E d s -> susp pool W (A ++ T ++ U ++ E) ->
  t ∈ W ++ map r_t (A ++ T ++ U ++ E) -> pool !! t_proc t = Some k -> back (t_proc t) s -> plocks_free s ->
  length (k_procs s) = NPROC -> k s = Ret tt s' -> moved s' t.
Proof.
  intros D S Ht Hi Hb Hp Hl Ek. apply elem_of_app in Ht as [Ht|Ht].
  - destruct (su_alloc _ _ _ S t Ht) as (k' & Ek' & fuel & fuel' & ie & Hk). rewrite Hi in Ek'. injection Ek' as <-. rewrite Hk in Ek by done.
    apply elem_of_Permutation in Ht as [W' HW]. apply (drv_permW _ _ _ _ _ _ _ _ _ HW) in D.
    destruct (alloc_run fuel fuel' t W' A T U E d (awake LVdisk (t_proc t) ie s)) as [[X _]|[(? & ? & X & _)|(? & ? & ? & ? & ? & X & _)]];
      [by apply turn_awake|by apply (drv_frame _ _ _ _ _ _ _ s)|congruence..].
  - apply list_elem_of_fmap in Ht as (r & -> & Hr). destruct (su_wait _ _ _ S r Hr) as (k' & Ek' & fuel & ie & Hk).
    rewrite Hi in Ek'. injection Ek' as <-. rewrite Hk in Ek by done.
    destruct (wait_run fuel r W A T U E d (awake LVdisk (t_proc (r_t r)) ie s)) as [(? & ? & _ & X & _ & M1)|(_ & [[X _]|(? & ? & X & _)])];
      [by apply turn_awake|by apply (drv_frame _ _ _ _ _ _ _ s)|done|congruence..].
Qed.

Lemma returns_moved m t s' : inv m -> returns m t s' -> moved s' t.
Proof.
  intros I R. destruct R as [fuel i b w s d pool C s' Hr Hi Hb Hn Hd X|t k s d pool C s' Ht Hi Hb Hp Hl X];
    destruct I as (W & A & T & U & E & D & S & HC).
  - rewrite (disk_rw_eq fuel i) in X by (try done; apply Hr).
    destruct (alloc_run fuel fuel (caller i b w s) W A T U E d (acq LVdisk s)) as [[Y _]|[(? & ? & Y & _)|(? & ? & ? & ? & ? & Y & _)]];
      [by apply ready_turn|by apply (drv_call i b w W A T U E d s pool C)|congruence..].
  - apply (resume_moved t k W A T U E d s s' pool); try done. by rewrite <- HC.
Qed.

(** C4 Whatever the interleaving of calls of virtio_disk_rw(), device
    steps, interrupts and spurious wake-ups, starting from the queues
    virtio_disk_init() leaves: the driver never panics, and a call returns only
    when its transfer is done.  A write's block then holds the data the buffer
    had when it was called, and a read's buffer holds what the block held. *)
Theorem virtio_driver_safe s d m : fresh_queues s d -> star step (Up s d ∅ []) m ->
  (forall msg, m <> Down msg) /\
  (forall t s', returns m t s' -> b_data (bf s' (t_buf t)) = t_data t /\ block s' (t_block t) = t_data t).
Proof.
  intros F S. assert (inv m) as I by (apply (star_invariant step inv (fun x y S I => drv_step x y I S) _ m S), drv_init, F).
  split; [by intros msg ->|]. intros t s' R. by apply (returns_moved m).
Qed.

(** The device and the interrupt handler have nothing left to do. *)
Definition idle (s : kstate) (d : dstate) : Prop :=
  d_seen d = vd_avail_idx (k_vdisk s) /\ d_taken d = [] /\ vd_used_idx (k_vdisk s) = vd_dev_idx (k_vdisk s).

Lemma ring_done ring lo l : ring_holds ring lo lo l -> l = [].
Proof. destruct l as [|x l]; [done|]. intros (? & _)%vring_tail. done. Qed.

Lemma idle_ended W A T U E d s : drv [] W A T U E d s -> idle s d -> A = [] /\ T = [] /\ U = [].
Proof.
  intros [_ _ [F1 F2 F3 F4 F5 F6 F7]] (I1 & I2 & I3). rewrite I1 in F5. rewrite I3 in F6. rewrite I2 in F7.
  apply ring_done in F5, F6. apply Permutation_nil_l in F7. by destruct A, T, U.
Qed.


(** virtio_disk_init() leaves fresh queues to a device that is just reset. *)
Definition hoare {A} (P : kstate -> Prop) (m : K A) (Q : kstate -> Prop) : Prop := forall s a s', P s -> m s = Ret a s' -> Q s'.

Lemma hoare_bind {A B} P Q R (m : K A) (f : A -> K B) : hoare P m Q -> (forall a, hoare Q (f a) R) -> hoare P (m ≫= f) R.
Proof. intros H1 H2 s b s' Hs (x & s1 & E & H)%bind_ret_inv. exact (H2 x s1 b s' (H1 s x s1 Hs E) H). Qed.

Lemma hoare_modify P Q g : (forall s, P s -> Q (g s)) -> hoare P (modify g) Q.
Proof. intros H s a s' Hs [= _ <-]. by apply H. Qed.

Lemma hoare_gets {A} P (g : kstate -> A) : hoare P (gets g) P.
Proof. by intros s a s' Hs [= _ <-]. Qed.

Lemma hoare_ret {A} P (a : A) : hoare P (mret a) P.
Proof. by intros s b s' Hs [= _ <-]. Qed.

Lemma hoare_panic {A} P Q msg : hoare P (kpanic msg : K A) Q.
Proof. by intros s a s' Hs H. Qed.

Definition vds (v : vdisk) (s : kstate) : Prop := k_vdisk s = v /\ length (k_bufs s) = S NBUF.

(** [keep v] goes through code that leaves the queues as they are. *)
Ltac keep v := repeat lazymatch goal with
  | |- hoare _ (gets _) _ => apply hoare_gets
  | |- hoare _ (mret _) _ => apply hoare_ret
  | |- hoare _ (kpanic _) _ => apply hoare_panic
  | |- hoare _ (modify _) _ => apply hoare_modify; intros ? [? ?]; split; assumption
  | |- hoare _ (if ?b then _ else _) _ => destruct b
  | |- hoare _ (kwhen ?b _) _ => destruct b; unfold kwhen
  | |- hoare _ (kfor _ _ ≫= _) _ => fail
  | |- hoare _ (_ ≫= _) _ => apply (hoare_bind _ (vds v)); [|intros ?]
  end.

Lemma hoare_acquire v lk : hoare (vds v) (acquire lk) (vds v).
Proof.
  unfold acquire, push_off, intr_get, intr_off, mycpu, holding. keep v. intros s a' s' Hs H.
  destruct (k_locks s !! lk); [done|]. by injection H as _ <-.
Qed.

Lemma hoare_release v lk : hoare (vds v) (release lk) (vds v).
Proof. unfold release, pop_off, holding, intr_get, mycpu, intr_on. keep v. Qed.

Lemma hoare_kalloc v : hoare (vds v) kalloc (vds v).
Proof. unfold kalloc. keep v; try apply hoare_acquire; apply hoare_release. Qed.

Lemma hoare_updvd v f : hoare (vds v) (updvd f) (vds (f v)).
Proof. apply hoare_modify. intros s [<- H]. by split. Qed.

Lemma virtio_disk_init_fresh s s' d : virtio_disk_init s = Ret tt s' -> vds zero_vdisk s -> d_seen d = 0 -> d_taken d = [] -> fresh_queues s' d.
Proof.
  intros H Hv Hs Ht. assert (vds (set_vd_free (replicate NUM 1) zero_vdisk) s') as [H1 H2]; [|done].
  assert (hoare (vds zero_vdisk) virtio_disk_init (vds (set_vd_free (replicate NUM 1) zero_vdisk))) as X; [|by apply (X s tt)].
  unfold virtio_disk_init, initlock, rd, mmio_write, kmemset. keep zero_vdisk; try apply hoare_kalloc.
  1-3: apply (hoare_updvd zero_vdisk).
  apply (hoare_bind _ (vds (set_vd_free (replicate NUM 1) zero_vdisk))); [|intros ?; keep zero_vdisk].
  cbn [seq kfor NUM]. do 8 (eapply hoare_bind; [apply hoare_updvd|intros _]). apply hoare_ret.
Qed.

End Driver.
End Driver.

(** ** A run

    A device that completes the requests in order serves one read. *)

Module Run.
Import Driver.

Inductive simple_step : Z * list nat -> kstate -> Z * list nat -> kstate -> Prop :=
| ss_fetch n l s : n <> vd_avail_idx (k_vdisk s) ->
    simple_step (n, l) s (u16 (n + 1), Z.to_nat (znth 0 (vd_avail_ring (k_vdisk s)) (n mod Z.of_nat NUM)) :: l) s
| ss_complete n id l s q : decode (k_vdisk s) id = Some q ->
    simple_step (n, id :: l) s (n, l) (set_k_vdisk (report id (q_status q) (k_vdisk s)) (transfer q s)).

#[local] Program Instance simple_device : Device := {
  dstate := Z * list nat;
  d_seen := fst;
  d_taken := snd;
  dstep := simple_step;
}.
Next Obligation.
  intros d s d' s' [n l x H|n id l x q H]; cbn; [left; done|]. right. exists id, l. split; [done|]. intros q' Hq. by rewrite H in Hq; injection Hq as <-.
Qed.

#[local] Instance no_mmio : Mmio := {| mmio_read := fun _ _ => 0 |}.

(** Process 0 runs; buffer 3 is for block 5, which is full of sevens. *)
Definition sevens : list Z := replicate 1024 7.
Definition start : kstate :=
  set_k_disk {[5 := sevens]} (set_k_vdisk (set_vd_free (replicate NUM 1) zero_vdisk)
    (set_k_bufs (<[3%nat := set_b_blockno 5 zero_buf]> (replicate (S NBUF) zero_buf)) (set_k_cpu (mk_cpu 0 (Some 0%nat) 0 true true) bss))).

Lemma start_ready : at_large LVdisk 0 start.
Proof.
  split; [|done|done|done|unfold NPROC; lia]. split; [done| |done]. split; [split; cbn; lia|]. intros i _. apply lookup_empty.
Qed.

Definition dev0 : dstate := (0, []).

Lemma start_fresh : fresh_queues start dev0.
Proof. done. Qed.

(** The scheduler and other code between the steps of the driver. *)
Definition sched_out (s : kstate) : kstate :=
  set_k_locks ∅ (set_k_cpu (mk_cpu 0 None 0 true true) (set_k_procs (replicate NPROC zero_proc) s)).
Definition sched_in (s : kstate) : kstate :=
  set_k_locks {[LProc 0 := 0]} (set_k_cpu (mk_cpu 0 (Some 0%nat) 1 true false) (set_k_procs (replicate NPROC zero_proc) s)).

Lemma sched_out_outside s : outside (sched_out s).
Proof. split; [done| |done]. split; [split; cbn; lia|]. intros i _. apply lookup_empty. Qed.

Lemma sched_in_back s : back 0 (sched_in s) /\ plocks_free (sched_in s).
Proof.
  split; [split; [split|]|split].
  - split; [apply lookup_singleton_eq|]. split; [done|cbn; lia].
  - done.
  - done.
  - cbn. unfold NPROC. lia.
  - by apply lookup_singleton_ne.
  - split; [cbn; lia|done].
  - intros i Hi. apply lookup_singleton_ne. intros [= <-]. by apply Hi.
Qed.

Definition reader : thread := caller 0 3 false start.

(** The call, the device's two steps and the interrupt. *)
Lemma one_call : exists s d k r, star step (Up start dev0 ∅ []) (Up s d {[0%nat := k]} [reader]) /\ r_t r = reader /\
  drv [] [] [] [] [] [r] d s /\ exists fuel ie, forall s2, back 0 s2 -> k s2 = (disk_wait fuel 3 ;; finish (r_0 r)) (awake LVdisk 0 ie s2).
Proof.
  destruct (drv_init start dev0 start_fresh) as (W & A & T & U & E & D0 & S0 & HC). apply Permutation_nil_l in HC.
  destruct W; [|done]. destruct A; [|done]. destruct T; [|done]. destruct U; [|done]. destruct E; [|done]. clear HC.
  pose proof (drv_call 0 3 false [] [] [] [] [] dev0 start ∅ [] D0 S0 (Permutation_refl _) (lookup_empty _) ltac:(unfold NBUF; lia)
    ltac:(cbn; lia) ltac:(by intros ? ?%elem_of_nil)) as D1. fold reader in D1.
  destruct (alloc_run 1 1 reader [] [] [] [] [] dev0 (acq LVdisk start)) as [[_ [X|X]]|[(s' & k' & _ & _ & X & _)|(i0 & i1 & i2 & s1 & k & X & D2 & Ev & fuel & ie & Hk)]];
    [by apply ready_turn, start_ready|done|done|done|unfold NUM in X; cbn in X; lia|].
  set (r := mk_req reader i0 i1 i2) in D2. cbn [app] in D2.
  assert (step (Up start dev0 ∅ []) (Up s1 dev0 {[0%nat := k]} [reader])) as St1.
  { change (Up s1 dev0 {[0%nat := k]} [reader]) with (after 0 (Switch s1 k) dev0 ∅ [reader]). rewrite <- X.
    unfold reader. rewrite <- (disk_rw_eq 1 0 3 false start); [|apply start_ready|cbn; lia].
    apply (st_call 1 0 3 false); [apply start_ready|done|unfold NBUF; lia|cbn; lia|by intros ? ?%elem_of_nil]. }
  destruct (vring_tail _ _ _ _ _ (fl_avail _ _ _ _ _ _ _ (dr_flow _ _ _ _ _ _ _ _ D2))) as (Ne & Er & _). change (d_seen dev0) with 0 in Ne, Er.
  pose proof (ss_fetch 0 [] s1 Ne) as F1. rewrite Er, Nat2Z.id in F1.
  destruct (drv_device _ _ _ _ _ _ _ _ _ D2 F1) as (A1 & T1 & U1 & D3 & P1). rewrite !app_nil_r in P1. cbn [app] in P1.
  assert (decode (k_vdisk s1) (r_0 r) = Some (mk_breq false (5 * 2) 3 (r_0 r))) as Hq.
  { apply (posted_decode _ r), (ow_posted _ _ _ (dr_own _ _ _ _ _ _ _ _ D3)). rewrite app_nil_r, <- P1. apply list_elem_of_here. }
  pose proof (ss_complete (u16 (0 + 1)) (r_0 r) [] s1 _ Hq) as F2. set (s2 := set_k_vdisk _ _) in F2.
  destruct (drv_device _ _ _ _ _ _ _ _ _ D3 F2) as (A2 & T2 & U2 & D4 & P2). rewrite !app_nil_r, <- P1 in P2.
  assert (T2 = []) as -> by (pose proof (fl_taken _ _ _ _ _ _ _ (dr_flow _ _ _ _ _ _ _ _ D4)) as X1; apply Permutation_nil_l in X1; by destruct T2).
  assert (A2 = []) as ->.
  { pose proof (fl_avail _ _ _ _ _ _ _ (dr_flow _ _ _ _ _ _ _ _ D4)) as X1. change (vd_avail_idx (k_vdisk s2)) with (vd_avail_idx (k_vdisk s1)) in X1.
    rewrite Ev in X1. apply ring_done in X1. by destruct A2. }
  cbn [app] in P2. apply Permutation_singleton_l in P2. subst U2.
  pose proof (drv_frame _ _ _ _ _ _ _ s2 (sched_out s2) eq_refl eq_refl eq_refl D4) as D5.
  destruct (intr_spec [] [] [] [r] [] _ _ (sched_out_outside s2) D5) as (s3 & X3 & D6).
  exists s3, (u16 (0 + 1), []), k, r. split; [|split; [done|split; [exact D6|by exists fuel, ie]]].
  eapply star_step; [exact St1|]. eapply star_step; [apply st_device, F1|]. eapply star_step; [apply st_device, F2|].
  eapply star_step; [apply (st_other s2 (sched_out s2)); done|]. apply star_one.
  pose proof (st_intr (sched_out s2) (u16 (0 + 1), []) {[0%nat := k]} [reader] (sched_out_outside s2)) as X4. by rewrite X3 in X4.
Qed.

Lemma virtio_driver_safe_witness : exists m s', star step (Up start dev0 ∅ []) m /\ returns m reader s' /\ b_data (bf s' 3) = sevens.
Proof.
  destruct one_call as (s & d & k & r & S & Er & D & fuel & ie & Hk). destruct (sched_in_back s) as [B1 B2].
  assert (step (Up s d {[0%nat := k]} [reader]) (Up (sched_in s) d {[0%nat := k]} [reader])) as S2 by (by apply st_other).
  assert (star step (Up start dev0 ∅ []) (Up (sched_in s) d {[0%nat := k]} [reader])) as S3 by (eapply star_trans; [exact S|apply star_one, S2]).
  destruct (wait_run fuel r [] [] [] [] [r] d (awake LVdisk 0 ie (sched_in s))) as [(E' & s' & _ & X & _)|(X & _)].
  - rewrite Er. by apply turn_awake.
  - by apply (drv_frame _ _ _ _ _ _ _ s).
  - apply list_elem_of_here.
  - exists (Up (sched_in s) d {[0%nat := k]} [reader]), s'. split; [exact S3|].
    assert (returns (Up (sched_in s) d {[0%nat := k]} [reader]) reader s') as R.
    { apply (rt_resume reader k); [apply list_elem_of_here|apply lookup_singleton_eq|done|done|done|]. rewrite Hk by done.
      unfold r_buf in X. rewrite Er in X. exact X. }
    split; [exact R|]. destruct (proj2 (virtio_driver_safe start dev0 _ start_fresh S3) reader s' R) as [X1 _]. exact X1.
  - by apply elem_of_nil in X.
Defined.


End Run.
