(* ===== verification/Trap.v ===== *)
(** * System call dispatch and traps (kernel/syscall.c, trap.c), the code *)

From S2P Require Import Prelude Riscv Memory KState KMonad Spinlock Kalloc Vm Proc Printf Sleeplock Bio Log Fs.
From S2P Require Import Plic Console Pipe File Exec Syscall Sysproc Sysfile Life Virtio.

Section Trap.
Context {L : Layout} {D : Disk} {M : Mmio}.
Variable fuel : nat.
(** What the uninitialised local variable of filestat() has. *)
Variable junk : list Z.

(** The table [syscalls]. *)
Definition syscalls (num : Z) : option (K Z) :=
  match num with
  | 1 => Some (sys_fork) | 2 => Some (sys_exit fuel) | 3 => Some (sys_wait fuel) | 4 => Some (sys_pipe fuel)
  | 5 => Some (sys_read fuel) | 6 => Some sys_kill | 7 => Some (sys_exec fuel) | 8 => Some (sys_fstat fuel junk)
  | 9 => Some (sys_chdir fuel) | 10 => Some sys_dup | 11 => Some sys_getpid | 12 => Some sys_sbrk
  | 13 => Some (sys_pause fuel) | 14 => Some sys_uptime | 15 => Some (sys_open fuel) | 16 => Some (sys_write fuel)
  | 17 => Some (sys_mknod fuel) | 18 => Some (sys_unlink fuel) | 19 => Some (sys_link fuel)
  | 20 => Some (sys_mkdir fuel) | 21 => Some (sys_close fuel) | 22 => Some sys_settickets
  | 23 => Some sys_memstat | 24 => Some sys_encrypt | 25 => Some sys_decrypt | 26 => Some sys_freemem
  | 27 => Some sys_buffer_init | 28 => Some sys_produce | 29 => Some sys_consume | 30 => Some sys_buffer_status
  | _ => None
  end.

Definition syscall : K unit :=
  '(i, p) ← curproc;
  a7 ← kload (p.(p_trapframe) + TF_a 7);
  let num := s32 a7 in
  match syscalls num with
  | Some f =>
      r ← f;
      p ← getproc i;
      kstore (p.(p_trapframe) + TF_a 0) r
  | None =>
      printf ("%d %s: unknown sys call %d" +:+ nl) [PInt p.(p_pid); PStr (Some (cstr p.(p_name))); PInt num] ;;
      kstore (p.(p_trapframe) + TF_a 0) MINUS1
  end.

Definition trapinit : K unit := initlock LTicks.
Definition trapinithart : K unit := w_csr Stvec kernelvec.

Definition clockintr : K unit :=
  id ← cpuid;
  kwhen (id =? 0)
    (acquire LTicks ;;
     modify (fun s => set_k_ticks (u32 (s.(k_ticks) + 1)) s) ;;
     wakeup ChTicks ;;
     release LTicks) ;;
  t ← r_csr Time;
  w_csr Stimecmp (u64 (t + 1000000)).

(** scause of a supervisor external and a timer interrupt. *)
Definition SCAUSE_EXT : Z := 0x8000000000000009.
Definition SCAUSE_TIMER : Z := 0x8000000000000005.

Definition devintr : K Z :=
  scause ← r_csr Scause;
  if scause =? SCAUSE_EXT then
    irq ← plic_claim;
    (if irq =? UART0_IRQ then uartintr
     else if irq =? VIRTIO0_IRQ then virtio_disk_intr
     else kwhen (negb (irq =? 0)) (printf ("unexpected interrupt irq=%d" +:+ nl) [PInt irq])) ;;
    kwhen (negb (irq =? 0)) (plic_complete irq) ;;
    mret 1
  else if scause =? SCAUSE_TIMER then
    clockintr ;;
    mret 2
  else mret 0.

(** A trap from user space that is not a system call: which device it was. *)
Definition user_exception (i : nat) : K Z :=
  which_dev ← devintr;
  if negb (which_dev =? 0) then mret which_dev else
  scause ← r_csr Scause;
  stval ← r_csr Stval;
  p ← getproc i;
  r ← (if ((scause =? 15) || (scause =? 13))%bool then vmfault p.(p_pagetable) stval (scause =? 13) else mret 0);
  if negb (r =? 0) then mret 0 else
  sepc ← r_csr Sepc;
  printf ("usertrap(): unexpected scause 0x%lx pid=%d" +:+ nl) [PInt scause; PInt p.(p_pid)] ;;
  printf ("            sepc=0x%lx stval=0x%lx" +:+ nl) [PInt sepc; PInt stval] ;;
  setkilled i ;;
  mret 0.

(** usertrap(): the satp value for the trampoline. *)
Definition usertrap : K Z :=
  sstatus ← r_csr Sstatus;
  if negb (Z.land sstatus SSTATUS_SPP =? 0) then kpanic "usertrap: not from user mode" else
  w_csr Stvec kernelvec ;;
  '(i, p) ← curproc;
  sepc ← r_csr Sepc;
  kstore (p.(p_trapframe) + TF_epc) sepc ;;
  scause ← r_csr Scause;
  which_dev ←
    (if scause =? 8 then
       kd ← killed i;
       kwhen (negb (kd =? 0)) (kexit fuel (-1)) ;;
       epc ← kload (p.(p_trapframe) + TF_epc);
       kstore (p.(p_trapframe) + TF_epc) (u64 (epc + 4)) ;;
       intr_on ;;
       syscall ;;
       mret 0
     else user_exception i);
  kd ← killed i;
  kwhen (negb (kd =? 0)) (kexit fuel (-1)) ;;
  kwhen (which_dev =? 2) yield ;;
  prepare_return ;;
  p ← getproc i;
  mret (MAKE_SATP p.(p_pagetable)).

Definition kerneltrap : K unit :=
  sepc ← r_csr Sepc;
  sstatus ← r_csr Sstatus;
  scause ← r_csr Scause;
  if Z.land sstatus SSTATUS_SPP =? 0 then kpanic "kerneltrap: not from supervisor mode" else
  i ← intr_get;
  if i : bool then kpanic "kerneltrap: interrupts enabled" else
  which_dev ← devintr;
  if which_dev =? 0 then
    sepc' ← r_csr Sepc;
    stval ← r_csr Stval;
    printf ("scause=0x%lx sepc=0x%lx stval=0x%lx" +:+ nl) [PInt scause; PInt sepc'; PInt stval] ;;
    kpanic "kerneltrap"
  else
  me ← (if which_dev =? 2 then myproc else mret None);
  kwhen (match me with Some _ => true | None => false end) yield ;;
  w_csr Sepc sepc ;;
  w_csr Sstatus sstatus.

End Trap.
