(* ===== verification/Boot.v ===== *)
(** * Start-up (kernel/start.c, main.c and the kernel page table of vm.c) *)

From S2P Require Import Prelude Riscv Memory KState KMonad Spinlock Kalloc Vm Proc Printf Sleeplock Bio Log Fs.
From S2P Require Import Plic Console Pipe File Exec Syscall Sysproc Sysfile Life Virtio Trap.

(** ** Machine mode *)

Definition MSTATUS_MPP_MASK : Z := Z.shiftl 3 11.
Definition MSTATUS_MPP_S : Z := Z.shiftl 1 11.
Definition SIE_SEIE : Z := Z.shiftl 1 9.
Definition SIE_STIE : Z := Z.shiftl 1 5.
Definition MIE_STIE : Z := Z.shiftl 1 5.

Definition timerinit : K unit :=
  mie ← r_csr Mie;
  w_csr Mie (Z.lor mie MIE_STIE) ;;
  menvcfg ← r_csr Menvcfg;
  w_csr Menvcfg (Z.lor menvcfg (Z.shiftl 1 63)) ;;
  mcounteren ← r_csr Mcounteren;
  w_csr Mcounteren (Z.lor mcounteren 2) ;;
  t ← r_csr Time;
  w_csr Stimecmp (u64 (t + 1000000)).

(** start() up to its mret instruction; [main] is the address of main(). *)
Definition start (main : Z) : K unit :=
  x ← r_csr Mstatus;
  w_csr Mstatus (Z.lor (Z.land x (Z.lnot MSTATUS_MPP_MASK)) MSTATUS_MPP_S) ;;
  w_csr Mepc main ;;
  w_csr Satp 0 ;;
  w_csr Medeleg 0xffff ;;
  w_csr Mideleg 0xffff ;;
  sie ← r_csr Sie;
  w_csr Sie (Z.lor (Z.lor sie SIE_SEIE) SIE_STIE) ;;
  w_csr Pmpaddr0 0x3fffffffffffff ;;
  w_csr Pmpcfg0 0xf ;;
  timerinit ;;
  id ← r_csr Mhartid;
  w_csr Tp (s32 id).

(** ** The kernel page table *)

Section Boot.
Context {L : Layout}.

Definition kvmmake : K Z :=
  kpgtbl ← kalloc;
  kmemset kpgtbl 0 PGBYTES ;;
  kvmmap kpgtbl UART0 UART0 PGSIZE (Z.lor PTE_R PTE_W) ;;
  kvmmap kpgtbl VIRTIO0 VIRTIO0 PGSIZE (Z.lor PTE_R PTE_W) ;;
  kvmmap kpgtbl PLIC PLIC 0x4000000 (Z.lor PTE_R PTE_W) ;;
  kvmmap kpgtbl KERNBASE KERNBASE (ketext - KERNBASE) (Z.lor PTE_R PTE_X) ;;
  kvmmap kpgtbl ketext ketext (PHYSTOP - ketext) (Z.lor PTE_R PTE_W) ;;
  kvmmap kpgtbl TRAMPOLINE ktrampoline PGSIZE (Z.lor PTE_R PTE_X) ;;
  proc_mapstacks kpgtbl ;;
  mret kpgtbl.

Definition kvminit : K unit :=
  kpgtbl ← kvmmake;
  modify (set_k_kpgtbl kpgtbl).

Definition kvminithart : K unit :=
  kpgtbl ← gets (fun s => s.(k_kpgtbl));
  w_csr Satp (MAKE_SATP kpgtbl).

(** main() up to its call of scheduler().  A hart other than 0 waits for
    [started]; as long as it is not set, the wait does not end. *)
Definition main {M : Mmio} {D : Disk} (fuel : nat) : K unit :=
  id ← cpuid;
  if id =? 0 then
    consoleinit ;;
    printfinit ;;
    printf nl [] ;;
    printf ("xv6 kernel is booting" +:+ nl) [] ;;
    printf nl [] ;;
    kinit ;;
    kvminit ;;
    kvminithart ;;
    procinit ;;
    trapinit ;;
    trapinithart ;;
    plicinit ;;
    plicinithart ;;
    binit ;;
    iinit ;;
    fileinit ;;
    virtio_disk_init ;;
    userinit fuel ;;
    modify (set_k_started 1)
  else
    started ← gets (fun s => s.(k_started));
    if started =? 0 then unbounded else
    printf ("hart %d starting" +:+ nl) [PInt id] ;;
    kvminithart ;;
    trapinithart ;;
    plicinithart.

End Boot.
