(* ===== verification/User.v ===== *)
(** * User programs

    A user program is an interaction tree whose events are the system calls of
    user/user.h: what it computes between two calls is a function, a call
    hands control to the kernel and resumes with the kernel's answer, and a
    loop that need not end is [ITree.iter].  The kernel a program runs on is a
    parameter, the function [h] that answers a call and changes the world.
    [ends] is total correctness: the run is finite and reaches the outcome. *)

From ITree Require Import Core.ITreeDefinition.
From S2P Require Import Prelude.

(** ** System calls (user/user.h) *)

(** What fstat() reports (kernel/stat.h). *)
Record stat := mk_stat {
  st_dev : Z;
  st_ino : Z;
  st_type : Z;
  st_nlink : Z;
  st_size : Z;
}.

(** A call with the bytes it passes and the type of what comes back: the
    return value, with the bytes or the struct the kernel fills in. *)
Inductive sysE : Type -> Type :=
| SFork : sysE Z
| SExit (status : Z) : sysE Empty_set
| SWait : sysE (Z * Z)
| SPipe : sysE (Z * (Z * Z))
| SWrite (fd : Z) (bytes : list Z) : sysE Z
| SRead (fd : Z) (n : Z) : sysE (Z * list Z)
| SClose (fd : Z) : sysE Z
| SKill (pid : Z) : sysE Z
| SExec (path : list Z) (argv : list (list Z)) : sysE Z
| SOpen (path : list Z) (mode : Z) : sysE Z
| SMknod (path : list Z) (major minor : Z) : sysE Z
| SUnlink (path : list Z) : sysE Z
| SFstat (fd : Z) : sysE (Z * stat)
| SLink (old new : list Z) : sysE Z
| SMkdir (path : list Z) : sysE Z
| SChdir (path : list Z) : sysE Z
| SDup (fd : Z) : sysE Z
| SGetpid : sysE Z
| SSbrk (n flag : Z) : sysE Z
| SPause (n : Z) : sysE Z
| SUptime : sysE Z.

Definition prog := itree sysE.

#[export] Instance prog_ret : MRet prog := fun A a => Ret a.
#[export] Instance prog_bind : MBind prog := fun A B f m => ITree.bind m f.

Definition call {A} (e : sysE A) : prog A := ITree.trigger e.

(** exit() does not return. *)
Definition exit {A} (status : Z) : prog A := v ← call (SExit status); match v : Empty_set with end.

(** [for(;;) body], left with [inr]. *)
Definition loop {I A} (body : I -> prog (I + A)) (i : I) : prog A := ITree.iter body i.

(** The statements of a bounded [for]. *)
Fixpoint for_each {A} (l : list A) (body : A -> prog unit) : prog unit :=
  match l with
  | [] => mret tt
  | x :: l' => body x ;; for_each l' body
  end.

(** ** Running a program *)

Section Run.
Context {W : Type}.

(** The kernel: it answers a call, or ends the process. *)
Variable h : forall A, sysE A -> W -> (A * W) + W.

Inductive outcome (A : Type) :=
| Done (a : A) (w : W)
| Gone (w : W).
Arguments Done {A} a w.
Arguments Gone {A} w.

Fixpoint run {A} (n : nat) (t : prog A) (w : W) : option (outcome A) :=
  match n with
  | O => None
  | S n =>
      match observe t with
      | RetF a => Some (Done a w)
      | TauF t => run n t w
      | VisF e k =>
          match h _ e w with
          | inl (b, w') => run n (k b) w'
          | inr w' => Some (Gone w')
          end
      end
  end.

Definition ends {A} (t : prog A) (w : W) (o : outcome A) : Prop := exists n, run n t w = Some o.

Lemma run_more {A} n m (t : prog A) w o : (n <= m)%nat -> run n t w = Some o -> run m t w = Some o.
Proof.
  revert m t w. induction n as [|n IH]; intros m t w Hm E; [done|].
  destruct m as [|m]; [lia|]. cbn [run] in *. destruct (observe t) as [a|t'|X e k]; [done|apply IH; [lia|done]|].
  destruct (h X e w) as [[b w']|w']; [apply IH; [lia|done]|done].
Qed.

(** A program has at most one outcome. *)
Lemma ends_fun {A} (t : prog A) w o o' : ends t w o -> ends t w o' -> o = o'.
Proof.
  intros [n En] [m Em]. apply (run_more n (n + m)) in En; [|lia]. apply (run_more m (n + m)) in Em; [|lia]. congruence.
Qed.

Lemma ends_ret {A} (a : A) w : ends (mret a) w (Done a w).
Proof. by exists 1%nat. Qed.

Lemma observe_bind {A B} (t : prog A) (k : A -> prog B) : observe (t ≫= k) =
  match observe t with
  | RetF r => observe (k r)
  | TauF t' => TauF (t' ≫= k)
  | VisF e ke => VisF e (fun x => ke x ≫= k)
  end.
Proof. unfold mbind, prog_bind, observe. cbn. unfold observe. by destruct (_observe t). Qed.

(** A run depends on what a tree shows, not on how it is written. *)
Lemma run_observe {A} n (t t' : prog A) w : observe t = observe t' -> run n t w = run n t' w.
Proof. intros E. destruct n as [|n]; [done|]. cbn [run]. by rewrite E. Qed.

Lemma observe_loop {I A} (body : I -> prog (I + A)) i : observe (loop body i) =
  observe (body i ≫= (fun r => match r with inl j => Tau (loop body j) | inr a => Ret a end)).
Proof. reflexivity. Qed.

Lemma run_bind {A B} n m (t : prog A) (k : A -> prog B) w a w' o :
  run n t w = Some (Done a w') -> run m (k a) w' = Some o -> run (n + m) (t ≫= k) w = Some o.
Proof.
  revert t w. induction n as [|n IH]; intros t w E1 E2; [done|].
  cbn [run Nat.add] in *. rewrite observe_bind.
  destruct (observe t) as [r|t'|X e ke].
  - injection E1 as -> ->. change (run (S (n + m)) (k a) w' = Some o). by apply (run_more m); [lia|].
  - by apply IH.
  - destruct (h X e w) as [[b w1]|w1]; [by apply IH|done].
Qed.

Lemma ends_bind {A B} (t : prog A) (k : A -> prog B) w a w' o :
  ends t w (Done a w') -> ends (k a) w' o -> ends (t ≫= k) w o.
Proof. intros [n En] [m Em]. exists (n + m)%nat. by eapply run_bind. Qed.

Lemma run_assoc {A B C} n (t : prog A) (f : A -> prog B) (k : B -> prog C) w :
  run n (t ≫= fun a => f a ≫= k) w = run n ((t ≫= f) ≫= k) w.
Proof.
  revert t w. induction n as [|n IH]; intros t w; [done|]. cbn [run]. rewrite !observe_bind.
  destruct (observe t) as [r|t'|X e ke]; [by rewrite observe_bind|apply IH|].
  destruct (h X e w) as [[b w1]|w1]; [apply IH|done].
Qed.

Lemma run_bind_gone {A B} n (t : prog A) (k : A -> prog B) w w' :
  run n t w = Some (Gone w') -> run n (t ≫= k) w = Some (Gone w').
Proof.
  revert t w. induction n as [|n IH]; intros t w E1; [done|].
  cbn [run] in *. rewrite observe_bind.
  destruct (observe t) as [r|t'|X e ke]; [done|by apply IH|].
  destruct (h X e w) as [[b w1]|w1]; [by apply IH|by injection E1 as ->].
Qed.

Lemma ends_bind_gone {A B} (t : prog A) (k : A -> prog B) w w' :
  ends t w (Gone w') -> ends (t ≫= k) w (Gone w').
Proof. intros [n En]. exists n. by apply run_bind_gone. Qed.

Lemma ends_call {A} (e : sysE A) w a w' : h A e w = inl (a, w') -> ends (call e) w (Done a w').
Proof. intros E. exists 2%nat. cbn. by rewrite E. Qed.

Lemma ends_exit {A} st w w' : h _ (SExit st) w = inr w' -> ends (exit (A := A) st) w (Gone w').
Proof. intros E. exists 1%nat. cbn. by rewrite E. Qed.

Lemma ends_tau {A} (t : prog A) w o : ends t w o -> ends (Tau t) w o.
Proof. intros [n E]. by exists (S n). Qed.

(** One turn of a loop. *)
Lemma ends_loop {I A} (body : I -> prog (I + A)) i w j w' o :
  ends (body i) w (Done (inl j) w') -> ends (loop body j) w' o -> ends (loop body i) w o.
Proof.
  intros H1 [m H2]. assert (ends (body i ≫= (fun r => match r with inl j => Tau (loop body j) | inr a => Ret a end)) w o) as [n E].
  { eapply ends_bind; [exact H1|]. apply ends_tau. by exists m. }
  exists n. by rewrite (run_observe n _ _ w (observe_loop body i)).
Qed.

Lemma ends_loop_exit {I A} (body : I -> prog (I + A)) i w a w' :
  ends (body i) w (Done (inr a) w') -> ends (loop body i) w (Done a w').
Proof.
  intros H1. assert (ends (body i ≫= (fun r => match r with inl j => Tau (loop body j) | inr a => Ret a end)) w (Done a w')) as [n E].
  { eapply ends_bind; [exact H1|]. by exists 1%nat. }
  exists n. by rewrite (run_observe n _ _ w (observe_loop body i)).
Qed.

Lemma ends_loop_gone {I A} (body : I -> prog (I + A)) i w w' :
  ends (body i) w (Gone w') -> ends (loop body i) w (Gone w').
Proof.
  intros H1. assert (ends (body i ≫= (fun r => match r with inl j => Tau (loop body j) | inr a => Ret a end)) w (Gone w')) as [n E].
  { by apply ends_bind_gone. }
  exists n. by rewrite (run_observe n _ _ w (observe_loop body i)).
Qed.

End Run.
Arguments Done {W A} a w.
Arguments Gone {W A} w.
