(* ===== verification/Uprintf.v ===== *)
(** * Formatted output of user programs (user/printf.c)

    The functions write one character at a time; the arguments of a call are
    the list of the values va_arg() takes. *)

From S2P Require Import Prelude User.

Definition digits : list Z := chars "0123456789ABCDEF".
Definition digit (d : Z) : Z := nth (Z.to_nat d) digits 0.

Definition putc (fd c : Z) : prog unit :=
  call (SWrite fd [u8 c]) ;;
  mret tt.

Definition putcs (fd : Z) (l : list Z) : prog unit := for_each l (putc fd).

(** The do-while loop of printint(), last digit first; a 64-bit number has at
    most 64 digits. *)
Fixpoint int_digits (fuel : nat) (x base : Z) : list Z :=
  digit (x mod base) ::
  match fuel with
  | O => []
  | S fuel' => if x / base =? 0 then [] else int_digits fuel' (x / base) base
  end.

(** The contents of [buf] after the loop. *)
Definition int_buf (xx base : Z) (sgn : bool) : list Z :=
  let neg := (sgn && (xx <? 0))%bool in
  let x := if neg then u64 (- xx) else u64 xx in
  int_digits 63 x base ++ (if neg then [45] else []).

Definition printint (fd xx base : Z) (sgn : bool) : prog unit := putcs fd (rev (int_buf xx base sgn)).

Fixpoint ptr_digits (n : nat) (x : Z) : list Z :=
  match n with
  | O => []
  | S n' => digit (Z.shiftr x 60) :: ptr_digits n' (u64 (Z.shiftl x 4))
  end.

Definition printptr (fd x : Z) : prog unit :=
  putc fd 48 ;;
  putc fd 120 ;;
  putcs fd (ptr_digits 16 x).

(** An argument: an integer register, or a string pointer that may be null. *)
Inductive uarg := UInt (z : Z) | UStr (s : option (list Z)).

Definition int_arg (l : list uarg) : Z := match l with UInt z :: _ => z | _ => 0 end.
Definition str_arg (l : list uarg) : list Z :=
  match l with UStr (Some s) :: _ => s | _ => chars "(null)" end.

(** The loop of vprintf() over the characters of the format; [pct] is
    [state == '%'].  A conversion takes one argument, [%%] and an unknown one
    none. *)
Fixpoint vprintf (fd : Z) (fmt : list Z) (pct : bool) (ap : list uarg) : prog unit :=
  match fmt with
  | [] => mret tt
  | c0 :: fmt1 =>
      if negb pct then
        if c0 =? 37 then vprintf fd fmt1 true ap
        else putc fd c0 ;; vprintf fd fmt1 false ap
      else
        let c1 := nth 0 fmt1 0 in
        let c2 := nth 1 fmt1 0 in
        let one := vprintf fd fmt1 false (drop 1 ap) in
        let two := match fmt1 with _ :: fmt2 => vprintf fd fmt2 false (drop 1 ap) | [] => mret tt end in
        let three := match fmt1 with _ :: _ :: fmt3 => vprintf fd fmt3 false (drop 1 ap) | _ => mret tt end in
        let x := int_arg ap in
        if c0 =? 100 then printint fd (s32 x) 10 true ;; one
        else if ((c0 =? 108) && (c1 =? 100))%bool then printint fd (s64 x) 10 true ;; two
        else if ((c0 =? 108) && (c1 =? 108) && (c2 =? 100))%bool then printint fd (s64 x) 10 true ;; three
        else if c0 =? 117 then printint fd (u32 x) 10 false ;; one
        else if ((c0 =? 108) && (c1 =? 117))%bool then printint fd (s64 x) 10 false ;; two
        else if ((c0 =? 108) && (c1 =? 108) && (c2 =? 117))%bool then printint fd (s64 x) 10 false ;; three
        else if c0 =? 120 then printint fd (u32 x) 16 false ;; one
        else if ((c0 =? 108) && (c1 =? 120))%bool then printint fd (s64 x) 16 false ;; two
        else if ((c0 =? 108) && (c1 =? 108) && (c2 =? 120))%bool then printint fd (s64 x) 16 false ;; three
        else if c0 =? 112 then printptr fd (u64 x) ;; one
        else if c0 =? 99 then putc fd (u32 x) ;; one
        else if c0 =? 115 then putcs fd (str_arg ap) ;; one
        else if c0 =? 37 then putc fd 37 ;; vprintf fd fmt1 false ap
        else putc fd 37 ;; putc fd c0 ;; vprintf fd fmt1 false ap
  end.

Definition fprintf (fd : Z) (fmt : string) (ap : list uarg) : prog unit := vprintf fd (chars fmt) false ap.
Definition printf (fmt : string) (ap : list uarg) : prog unit := vprintf 1 (chars fmt) false ap.
