(* ===== verification/UserSpec.v ===== *)
(** * What user programs rely on in the kernel's files

    [Files] states what read(), write() and exit() promise: read() delivers
    the next bytes of the input in chunks of any size, write() appends to the
    output.  The theorems about user programs hold for every kernel that
    keeps this promise.  What printf() writes is computed by [format]. *)

From S2P Require Import Prelude User Ulib Uprintf.

Class Files {W : Type} (h : forall A, sysE A -> W -> (A * W) + W) := {
  input : W -> Z -> list Z;
  output : W -> Z -> list Z;
  status : W -> option Z;
  read_some w fd n : 0 < n -> input w fd <> [] ->
    exists bs w', h _ (SRead fd n) w = inl ((Z.of_nat (length bs), bs), w') /\
      bs <> [] /\ Z.of_nat (length bs) <= n /\ input w fd = bs ++ input w' fd /\
      (forall fd', fd' <> fd -> input w' fd' = input w fd') /\ (forall fd', output w' fd' = output w fd');
  read_eof w fd n : 0 < n -> input w fd = [] ->
    exists w', h _ (SRead fd n) w = inl ((0, []), w') /\
      (forall fd', input w' fd' = input w fd') /\ (forall fd', output w' fd' = output w fd');
  write_all w fd bs : exists w', h _ (SWrite fd bs) w = inl (Z.of_nat (length bs), w') /\
      (forall fd', input w' fd' = input w fd') /\
      (forall fd', output w' fd' = if decide (fd' = fd) then output w fd ++ bs else output w fd');
  exit_gone w st : exists w', h _ (SExit st) w = inr w' /\ status w' = Some st /\
      (forall fd', output w' fd' = output w fd');
}.

(** [w'] is [w] with [bs] written to [fd]. *)
Definition wrote `{Files W h} (fd : Z) (bs : list Z) (w w' : W) : Prop :=
  (forall fd', input w' fd' = input w fd') /\
  (forall fd', output w' fd' = if decide (fd' = fd) then output w fd ++ bs else output w fd').

(** ** What printf() writes *)

Definition int_text (xx base : Z) (sgn : bool) : list Z := rev (int_buf xx base sgn).
Definition ptr_text (x : Z) : list Z := 48 :: 120 :: ptr_digits 16 x.

(** A conversion: its text and the number of format characters after the
    first one that belong to it. *)
Definition conversion (c0 c1 c2 : Z) (ap : list uarg) : option (list Z * nat) :=
  let x := int_arg ap in
  if c0 =? 100 then Some (int_text (s32 x) 10 true, 0%nat)
  else if ((c0 =? 108) && (c1 =? 100))%bool then Some (int_text (s64 x) 10 true, 1%nat)
  else if ((c0 =? 108) && (c1 =? 108) && (c2 =? 100))%bool then Some (int_text (s64 x) 10 true, 2%nat)
  else if c0 =? 117 then Some (int_text (u32 x) 10 false, 0%nat)
  else if ((c0 =? 108) && (c1 =? 117))%bool then Some (int_text (s64 x) 10 false, 1%nat)
  else if ((c0 =? 108) && (c1 =? 108) && (c2 =? 117))%bool then Some (int_text (s64 x) 10 false, 2%nat)
  else if c0 =? 120 then Some (int_text (u32 x) 16 false, 0%nat)
  else if ((c0 =? 108) && (c1 =? 120))%bool then Some (int_text (s64 x) 16 false, 1%nat)
  else if ((c0 =? 108) && (c1 =? 108) && (c2 =? 120))%bool then Some (int_text (s64 x) 16 false, 2%nat)
  else if c0 =? 112 then Some (ptr_text (u64 x), 0%nat)
  else if c0 =? 99 then Some ([u32 x], 0%nat)
  else if c0 =? 115 then Some (str_arg ap, 0%nat)
  else None.

(** The text of a format: plain characters, and after a [%] either a
    conversion or the characters themselves. *)
Fixpoint format (fuel : nat) (fmt : list Z) (ap : list uarg) : list Z :=
  match fuel, fmt with
  | S n, c :: fmt1 =>
      if negb (c =? 37) then c :: format n fmt1 ap else
      match fmt1 with
      | [] => []
      | c0 :: fmt2 =>
          let c1 := nth 0 fmt2 0 in
          let c2 := nth 1 fmt2 0 in
          match conversion c0 c1 c2 ap with
          | Some (text, k) => text ++ format n (drop k fmt2) (drop 1 ap)
          | None => (if c0 =? 37 then [37] else [37; c0]) ++ format n fmt2 ap
          end
      end
  | _, _ => []
  end.

Definition text (fmt : string) (ap : list uarg) : list Z := map u8 (format (length (chars fmt)) (chars fmt) ap).

Section Output.
Context {W : Type} {h : forall A, sysE A -> W -> (A * W) + W} {F : Files h}.

Lemma wrote_nil fd w : wrote fd [] w w.
Proof. split; [by intros fd'|]. intros fd'. case_decide; [subst; by rewrite app_nil_r|done]. Qed.

Lemma wrote_app fd bs bs' w w1 w2 : wrote fd bs w w1 -> wrote fd bs' w1 w2 -> wrote fd (bs ++ bs') w w2.
Proof.
  intros [I1 O1] [I2 O2]. split; [intros fd'; by rewrite I2, I1|]. intros fd'. rewrite O2. case_decide as E.
  - rewrite O1, decide_True by done. by rewrite app_assoc.
  - by rewrite O1, decide_False by done.
Qed.

(** [t] writes [bs] to [fd] and does nothing else. *)
Definition emits (fd : Z) (t : prog unit) (bs : list Z) : Prop :=
  forall w, exists w', ends h t w (Done tt w') /\ wrote fd bs w w'.

Lemma emits_ret fd : emits fd (mret tt) [].
Proof. intros w. exists w. split; [apply ends_ret|apply wrote_nil]. Qed.

Lemma emits_seq fd t1 t2 bs1 bs2 : emits fd t1 bs1 -> emits fd t2 bs2 -> emits fd (t1 ;; t2) (bs1 ++ bs2).
Proof.
  intros E1 E2 w. destruct (E1 w) as (w1 & X1 & Y1). destruct (E2 w1) as (w2 & X2 & Y2).
  exists w2. split; [by eapply ends_bind|by eapply wrote_app].
Qed.

Lemma emits_putc fd c : emits fd (putc fd c) [u8 c].
Proof.
  intros w. destruct (write_all w fd [u8 c]) as (w' & X & I1 & O1). exists w'.
  split; [|by split]. eapply ends_bind; [by apply ends_call|apply ends_ret].
Qed.

Lemma emits_putcs fd l : emits fd (putcs fd l) (map u8 l).
Proof.
  induction l as [|c l IH]; [apply emits_ret|]. change (map u8 (c :: l)) with ([u8 c] ++ map u8 l).
  apply emits_seq; [apply emits_putc|exact IH].
Qed.

Lemma emits_printint fd xx base sgn : emits fd (printint fd xx base sgn) (map u8 (int_text xx base sgn)).
Proof. apply emits_putcs. Qed.

Lemma emits_printptr fd x : emits fd (printptr fd x) (map u8 (ptr_text x)).
Proof.
  unfold printptr, ptr_text. cbn [map]. change (?a :: ?b :: ?l) with ([a] ++ [b] ++ l).
  repeat apply emits_seq; [apply emits_putc|apply emits_putc|apply emits_putcs].
Qed.

Lemma emits_seq1 fd t1 t2 c l : emits fd t1 [c] -> emits fd t2 l -> emits fd (t1 ;; t2) (c :: l).
Proof. intros H1 H2. by apply (emits_seq fd t1 t2 [c] l). Qed.

Create HintDb emits discriminated.
#[local] Hint Resolve emits_ret emits_putc emits_putcs emits_printint emits_printptr : emits.

(** vprintf() writes the text of its format. *)
Lemma emits_vprintf fd n fmt ap : (length fmt <= n)%nat -> emits fd (vprintf fd fmt false ap) (map u8 (format n fmt ap)).
Proof.
  revert fmt ap. induction n as [n IH] using lt_wf_ind. intros fmt ap Hn.
  destruct fmt as [|c fmt1]; [destruct n; apply emits_ret|]. destruct n as [|n]; [cbn in Hn; lia|].
  cbn [vprintf format negb]. destruct (c =? 37) eqn:Ec; cbn [negb].
  2: { cbn [map]. apply emits_seq1; [apply emits_putc|]. apply IH; cbn in *; lia. }
  destruct fmt1 as [|c0 fmt2]; [apply emits_ret|]. cbn [vprintf negb].
  assert (forall k ap, emits fd (vprintf fd (drop k fmt2) false ap) (map u8 (format n (drop k fmt2) ap))) as R.
  { intros k ap'. apply IH; [lia|]. rewrite length_drop. cbn in Hn. lia. }
  pose proof (R 0%nat) as R0. rewrite drop_0 in R0.
  assert (forall ap', emits fd (match fmt2 with _ :: fmt3 => vprintf fd fmt3 false ap' | [] => mret tt end) (map u8 (format n (drop 1 fmt2) ap'))) as R1.
  { intros ap'. specialize (R 1%nat ap'). destruct fmt2; [|exact R]. destruct n; apply emits_ret. }
  assert (forall ap', emits fd (match fmt2 with _ :: _ :: fmt4 => vprintf fd fmt4 false ap' | _ => mret tt end) (map u8 (format n (drop 2 fmt2) ap'))) as R2.
  { intros ap'. specialize (R 2%nat ap'). destruct fmt2 as [|? [|? ?]]; [destruct n; apply emits_ret|destruct n; apply emits_ret|exact R]. }
  clear R IH Hn.
  unfold conversion. set (c1 := nth 0 fmt2 0). set (c2 := nth 1 fmt2 0).
  repeat match goal with |- context [if ?b then _ else _] => destruct b end;
    rewrite map_app; cbn [drop map app]; auto using emits_seq with emits.
  all: repeat apply emits_seq1; auto with emits.
Qed.

Lemma emits_fprintf fd fmt ap : emits fd (fprintf fd fmt ap) (text fmt ap).
Proof. by apply emits_vprintf. Qed.

Lemma emits_printf fmt ap : emits 1 (printf fmt ap) (text fmt ap).
Proof. by apply emits_vprintf. Qed.

End Output.

(** ** Numbers, printed and read back *)

Lemma digit_dec d : 0 <= d < 10 -> digit d = 48 + d.
Proof.
  intros H. assert (d ∈ seqZ 0 10) as E by (apply elem_of_seqZ; lia). clear H. revert d E.
  apply Forall_forall. repeat constructor.
Qed.

Lemma atoi_loop_digit n d s : 0 <= d < 10 -> - 2 ^ 31 <= n * 10 + d < 2 ^ 31 ->
  atoi_loop n ((48 + d) :: s) = atoi_loop (n * 10 + d) s.
Proof.
  intros Hd Hn. cbn [atoi_loop]. destruct (Z.leb_spec 48 (48 + d)); [|lia]. destruct (Z.leb_spec (48 + d) 57); [|lia].
  cbn [andb]. replace (n * 10 + (48 + d) - 48) with (n * 10 + d) by lia. by rewrite s32_small.
Qed.

Lemma atoi_int_digits fuel : forall x s, 0 <= x < 2 ^ 31 -> x < 10 ^ (Z.of_nat fuel + 1) ->
  atoi_loop 0 (rev (int_digits fuel x 10) ++ s) = atoi_loop x s.
Proof.
  induction fuel as [|fuel IH]; intros x s Hx Hf.
  - change (10 ^ _) with 10 in Hf. cbn [int_digits rev app]. rewrite Z.mod_small, digit_dec by lia.
    rewrite atoi_loop_digit by lia. f_equal.
  - cbn [int_digits rev]. rewrite <- app_assoc. cbn [app].
    pose proof (Z.mod_pos_bound x 10 ltac:(lia)) as Hm. pose proof (Z.div_mod x 10 ltac:(lia)) as Hd.
    rewrite digit_dec by lia. destruct (Z.eqb_spec (x / 10) 0) as [E|E].
    + cbn [rev app]. rewrite atoi_loop_digit by lia. f_equal. lia.
    + rewrite IH; [rewrite atoi_loop_digit by lia; f_equal; lia| |].
      * split; [apply Z.div_pos; lia|]. apply Z.div_lt_upper_bound; lia.
      * apply Z.div_lt_upper_bound; [lia|]. rewrite <- Z.pow_succ_r by lia. rewrite Nat2Z.inj_succ in Hf.
        replace (Z.succ (Z.of_nat fuel + 1)) with (Z.succ (Z.of_nat fuel) + 1) by lia. done.
Qed.

Lemma map_u8_small l : Forall (fun c => 0 <= c < 256) l -> map u8 l = l.
Proof. induction 1 as [|c l Hc _ IH]; [done|]. cbn. rewrite IH, u8_small by lia. done. Qed.

Lemma digit_range d : 0 <= digit d < 256.
Proof.
  unfold digit. destruct (decide (Z.to_nat d < length digits)%nat) as [H|H]; [|rewrite nth_overflow by lia; lia].
  assert (Forall (fun c => 0 <= c < 256) digits) as F by (repeat constructor; lia).
  rewrite Forall_forall in F. apply F, list_elem_of_In, nth_In, H.
Qed.

Lemma int_digits_bytes fuel x base : Forall (fun c => 0 <= c < 256) (int_digits fuel x base).
Proof.
  revert x. induction fuel as [|fuel IH]; intros x; cbn [int_digits]; constructor; try apply digit_range; [constructor|].
  destruct (x / base =? 0); [constructor|apply IH].
Qed.

(** printf() and atoi() are inverse on the non-negative values of
    int: the characters that [printf("%d", x)] writes to the standard output,
    followed by anything that does not start with a digit, are read back as
    [x] by atoi(). *)
Theorem printf_atoi {W} {h : forall A, sysE A -> W -> (A * W) + W} {F : Files h} x rest w :
  0 <= x < 2 ^ 31 -> ~ (48 <= nth 0 rest 0 <= 57) ->
  exists w' bs, ends h (printf "%d" [UInt x]) w (Done tt w') /\ output w' 1 = output w 1 ++ bs /\ atoi (bs ++ rest) = x.
Proof.
  intros Hx Hr. destruct (emits_printf "%d" [UInt x] w) as (w' & X & _ & O). exists w'. eexists. split; [exact X|].
  split; [by rewrite O, decide_True|]. unfold text. cbn [chars length].
  change (format _ _ _) with (int_text (s32 x) 10 true ++ []). rewrite app_nil_r, s32_small by lia.
  unfold int_text, int_buf. destruct (Z.ltb_spec x 0); [lia|]. cbn [andb]. rewrite app_nil_r, u64_small by lia.
  rewrite map_u8_small by (apply Forall_rev, int_digits_bytes).
  unfold atoi. rewrite atoi_int_digits; [|done|].
  - destruct rest as [|c rest]; [done|]. cbn [nth] in Hr. cbn [atoi_loop].
    destruct (Z.leb_spec 48 c), (Z.leb_spec c 57); cbn [andb]; try done. lia.
  - apply (Z.lt_le_trans _ (2 ^ 31)); [lia|]. vm_compute. discriminate.
Qed.

(** ** A kernel of streams *)

(** The bytes each descriptor has left to read and has received, the sizes
    of the next chunks, and the exit status. *)
Record world := mk_world {
  w_in : gmap Z (list Z);
  w_out : gmap Z (list Z);
  w_sizes : list nat;
  w_status : option Z;
}.

Definition w_input (w : world) (fd : Z) : list Z := default [] (w_in w !! fd).
Definition w_output (w : world) (fd : Z) : list Z := default [] (w_out w !! fd).

(** read() gives as many bytes as the next size says, at least one and at
    most what was asked for; calls on names fail. *)
Definition stream_read (fd n : Z) (w : world) : (Z * list Z) * world :=
  let k := Nat.min (Z.to_nat n) (S (nth 0 (w_sizes w) (Z.to_nat n))) in
  let bs := take k (w_input w fd) in
  ((Z.of_nat (length bs), bs),
   mk_world (<[fd := drop k (w_input w fd)]> (w_in w)) (w_out w) (drop 1 (w_sizes w)) (w_status w)).

Definition streams (A : Type) (e : sysE A) (w : world) : (A * world) + world :=
  match e in sysE A return (A * world) + world with
  | SExit st => inr (mk_world (w_in w) (w_out w) (w_sizes w) (Some st))
  | SRead fd n => inl (stream_read fd n w)
  | SWrite fd bs => inl (Z.of_nat (length bs), mk_world (w_in w) (<[fd := w_output w fd ++ bs]> (w_out w)) (w_sizes w) (w_status w))
  | SWait => inl ((-1, 0), w)
  | SPipe => inl ((-1, (0, 0)), w)
  | SFstat _ => inl ((-1, mk_stat 0 0 0 0 0), w)
  | SFork | SClose _ | SKill _ | SExec _ _ | SOpen _ _ | SMknod _ _ _ | SUnlink _ | SLink _ _ | SMkdir _
  | SChdir _ | SDup _ | SGetpid | SSbrk _ _ | SPause _ | SUptime => inl (-1, w)
  end.

#[export] Instance streams_files : Files streams.
Proof.
  refine {| input := w_input; output := w_output; status := w_status |}.
  - intros w fd n Hn Hi. unfold streams, stream_read. set (k := Nat.min _ _). eexists _, _. split; [reflexivity|].
    assert (0 < k)%nat by lia. split; [|split; [|split; [|split]]].
    + destruct (w_input w fd); [done|]. by destruct k; [lia|].
    + rewrite length_take. lia.
    + unfold w_input at 3. cbn. rewrite lookup_insert_eq. cbn. by rewrite take_drop.
    + intros fd' N. unfold w_input. cbn. by rewrite lookup_insert_ne.
    + done.
  - intros w fd n Hn Hi. unfold streams, stream_read. rewrite Hi, take_nil. eexists. split; [reflexivity|]. split; [|done].
    intros fd'. unfold w_input in *. cbn. destruct (decide (fd' = fd)) as [->|N].
    + rewrite lookup_insert_eq, drop_nil. by rewrite Hi.
    + by rewrite lookup_insert_ne.
  - intros w fd bs. eexists. split; [reflexivity|]. split; [done|]. intros fd'. unfold w_output at 1. cbn.
    case_decide as E; [subst; by rewrite lookup_insert_eq|by rewrite lookup_insert_ne].
  - intros w st. eexists. split; [reflexivity|]. done.
Defined.

(** A world with an input on descriptor [fd]. *)
Definition with_input (fd : Z) (bs : list Z) (sizes : list nat) : world := mk_world {[fd := bs]} ∅ sizes None.

Lemma printf_atoi_witness : exists w' bs, ends streams (printf "%d" [UInt 1905]) (with_input 0 [] []) (Done tt w') /\
  w_output w' 1 = bs /\ atoi (bs ++ [32]) = 1905.
Proof.
  destruct (printf_atoi (h := streams) 1905 [32] (with_input 0 [] [])) as (w' & bs & X & Y & Z1); [lia|simpl; lia|].
  exists w', bs. split; [exact X|]. split; [exact Y|exact Z1].
Defined.
