(* ===== verification/Utils.v ===== *)
(** * Small user programs (user/cat.c, wc.c, echo.c, kill.c, ln.c, mkdir.c,
      rm.c, ls.c, init.c, zombie.c, dorphan.c, forphan.c)

    One function per C function; a [main] takes argv as the list of its
    strings.  The theorems show that cat copies its input and that wc counts
    lines, words and bytes, however the kernel cuts the input into reads. *)

From S2P Require Import Prelude Abi User Ulib Uprintf UserSpec.

(** The array [buf] after read() stored [bs] at index [off]. *)
Definition fill (buf : list Z) (off : nat) (bs : list Z) : list Z := take off buf ++ bs ++ drop (off + length bs) buf.

Definition arg (argv : list (list Z)) (i : nat) : list Z := nth i argv [].
Definition str (s : list Z) : uarg := UStr (Some s).

(** ** cat.c *)

(** One turn of the loop of cat(): on with the buffer, or out with [n]. *)
Definition cat_body (fd : Z) (buf : list Z) : prog (list Z + Z) :=
  '(n, bs) ← call (SRead fd 512);
  let buf := fill buf 0 bs in
  if 0 <? n then
    r ← call (SWrite 1 (take (Z.to_nat n) buf));
    if negb (r =? n) then fprintf 2 ("cat: write error" +:+ nl) [] ;; exit 1 else mret (inl buf)
  else mret (inr n).

Definition cat (fd : Z) : prog unit :=
  n ← loop (cat_body fd) (replicate 512 0);
  if n <? 0 then fprintf 2 ("cat: read error" +:+ nl) [] ;; exit 1 else mret tt.

Definition cat_main (argv : list (list Z)) : prog Z :=
  if (length argv <=? 1)%nat then cat 0 ;; exit 0 else
  for_each (drop 1 argv) (fun a =>
    fd ← call (SOpen a O_RDONLY);
    if fd <? 0 then fprintf 2 ("cat: cannot open %s" +:+ nl) [str a] ;; exit 1 else
    cat fd ;;
    call (SClose fd) ;;
    mret tt) ;;
  exit 0.

(** ** wc.c *)

Definition spaces : list Z := [32; 13; 9; 10; 11].

(** The counters of wc(). *)
Record counts := mk_counts { wc_l : Z; wc_w : Z; wc_c : Z; wc_inword : bool }.

Definition wc_char (s : counts) (x : Z) : counts :=
  let c := s32 (wc_c s + 1) in
  let l := if x =? 10 then s32 (wc_l s + 1) else wc_l s in
  if bool_decide (is_Some (strchr spaces x)) then mk_counts l (wc_w s) c false
  else if negb (wc_inword s) then mk_counts l (s32 (wc_w s + 1)) c true
  else mk_counts l (wc_w s) c (wc_inword s).

Definition wc_body (fd : Z) (x : list Z * counts) : prog (list Z * counts + Z * counts) :=
  let '(buf, s) := x in
  '(n, bs) ← call (SRead fd 512);
  let buf := fill buf 0 bs in
  if 0 <? n then mret (inl (buf, fold_left wc_char (take (Z.to_nat n) buf) s))
  else mret (inr (n, s)).

Definition wc (fd : Z) (name : list Z) : prog unit :=
  '(n, s) ← loop (wc_body fd) (replicate 512 0, mk_counts 0 0 0 false);
  if n <? 0 then printf ("wc: read error" +:+ nl) [] ;; exit 1 else
  printf ("%d %d %d %s" +:+ nl) [UInt (wc_l s); UInt (wc_w s); UInt (wc_c s); str name].

Definition wc_main (argv : list (list Z)) : prog Z :=
  if (length argv <=? 1)%nat then wc 0 [] ;; exit 0 else
  for_each (drop 1 argv) (fun a =>
    fd ← call (SOpen a O_RDONLY);
    if fd <? 0 then printf ("wc: cannot open %s" +:+ nl) [str a] ;; exit 1 else
    wc fd a ;;
    call (SClose fd) ;;
    mret tt) ;;
  exit 0.

(** ** echo.c, kill.c, ln.c, mkdir.c, rm.c *)

Fixpoint echo_args (l : list (list Z)) : prog unit :=
  match l with
  | [] => mret tt
  | a :: l' =>
      call (SWrite 1 (take (strlen a) a)) ;;
      call (SWrite 1 (match l' with [] => [10] | _ => [32] end)) ;;
      echo_args l'
  end.

Definition echo_main (argv : list (list Z)) : prog Z := echo_args (drop 1 argv) ;; exit 0.

Definition kill_main (argv : list (list Z)) : prog Z :=
  if (length argv <? 2)%nat then fprintf 2 ("usage: kill pid..." +:+ nl) [] ;; exit 1 else
  for_each (drop 1 argv) (fun a => call (SKill (atoi a)) ;; mret tt) ;;
  exit 0.

Definition ln_main (argv : list (list Z)) : prog Z :=
  if negb (length argv =? 3)%nat then fprintf 2 ("Usage: ln old new" +:+ nl) [] ;; exit 1 else
  r ← call (SLink (arg argv 1) (arg argv 2));
  (if r <? 0 then fprintf 2 ("link %s %s: failed" +:+ nl) [str (arg argv 1); str (arg argv 2)] else mret tt) ;;
  exit 0.

(** The loops of mkdir and rm stop at the first failure. *)
Fixpoint mkdir_args (l : list (list Z)) : prog unit :=
  match l with
  | [] => mret tt
  | a :: l' =>
      r ← call (SMkdir a);
      if r <? 0 then fprintf 2 ("mkdir: %s failed to create" +:+ nl) [str a] else mkdir_args l'
  end.

Definition mkdir_main (argv : list (list Z)) : prog Z :=
  if (length argv <? 2)%nat then fprintf 2 ("Usage: mkdir files..." +:+ nl) [] ;; exit 1 else
  mkdir_args (drop 1 argv) ;;
  exit 0.

Fixpoint rm_args (l : list (list Z)) : prog unit :=
  match l with
  | [] => mret tt
  | a :: l' =>
      r ← call (SUnlink a);
      if r <? 0 then fprintf 2 ("rm: %s failed to delete" +:+ nl) [str a] else rm_args l'
  end.

Definition rm_main (argv : list (list Z)) : prog Z :=
  if (length argv <? 2)%nat then fprintf 2 ("Usage: rm files..." +:+ nl) [] ;; exit 1 else
  rm_args (drop 1 argv) ;;
  exit 0.

(** ** ls.c *)

(** The scan back from the end of [path], here from the front of its reversal,
    to the last slash. *)
Fixpoint last_name (rpath acc : list Z) : list Z :=
  match rpath with
  | [] => acc
  | c :: r => if c =? 47 then acc else last_name r (c :: acc)
  end.

(** The string fmtname() returns. *)
Definition fmtname (path : list Z) : list Z :=
  let p := last_name (rev path) [] in
  if (DIRSIZ <=? length p)%nat then p else p ++ replicate (DIRSIZ - length p) 32.

Definition ls_line (name : list Z) (st : stat) : prog unit :=
  printf ("%s %d %d %d" +:+ nl) [str name; UInt (st_type st); UInt (st_ino st); UInt (s32 (st_size st))].

(** The loop over the entries of the directory: an inode number of two bytes
    and a name of DIRSIZ. *)
Definition ls_dir (fd : Z) (path : list Z) : stat -> prog unit :=
  loop (fun st =>
    '(n, de) ← call (SRead fd 16);
    if negb (n =? 16) then mret (inr tt) else
    let inum := nth 0 de 0 + 256 * nth 1 de 0 in
    if inum =? 0 then mret (inl st) else
    let buf := path ++ [47] ++ cstr (take DIRSIZ (drop 2 de)) in
    '(r, st) ← ustat buf st;
    if r <? 0 then printf ("ls: cannot stat %s" +:+ nl) [str buf] ;; mret (inl st) else
    ls_line (fmtname buf) st ;; mret (inl st)).

Definition ls (path : list Z) : prog unit :=
  fd ← call (SOpen path O_RDONLY);
  if fd <? 0 then fprintf 2 ("ls: cannot open %s" +:+ nl) [str path] else
  '(r, st) ← call (SFstat fd);
  if r <? 0 then
    fprintf 2 ("ls: cannot stat %s" +:+ nl) [str path] ;;
    call (SClose fd) ;;
    mret tt
  else
  (if ((st_type st =? T_DEVICE) || (st_type st =? T_FILE))%bool then ls_line (fmtname path) st
   else if st_type st =? T_DIR then
     if (512 <? length path + 1 + DIRSIZ + 1)%nat then printf ("ls: path too long" +:+ nl) []
     else ls_dir fd path st
   else mret tt) ;;
  call (SClose fd) ;;
  mret tt.

Definition ls_main (argv : list (list Z)) : prog Z :=
  if (length argv <? 2)%nat then ls [46] ;; exit 0 else
  for_each (drop 1 argv) ls ;;
  exit 0.

(** ** init.c *)

Definition CONSOLE : Z := 1.

(** The inner loop: wait until the shell exits. *)
Definition init_wait (pid : Z) : prog unit :=
  loop (fun _ : unit =>
    '(wpid, _) ← call SWait;
    if wpid =? pid then mret (inr tt)
    else if wpid <? 0 then printf ("init: wait returned an error" +:+ nl) [] ;; exit 1
    else mret (inl tt)) tt.

Definition init_main : prog Z :=
  fd ← call (SOpen (chars "console") O_RDWR);
  (if fd <? 0 then
     call (SMknod (chars "console") CONSOLE 0) ;;
     call (SOpen (chars "console") O_RDWR) ;;
     mret tt
   else mret tt) ;;
  call (SDup 0) ;;
  call (SDup 0) ;;
  loop (fun _ : unit =>
    printf ("init: starting sh" +:+ nl) [] ;;
    pid ← call SFork;
    if pid <? 0 then printf ("init: fork failed" +:+ nl) [] ;; exit 1
    else if pid =? 0 then
      call (SExec (chars "sh") [chars "sh"]) ;;
      printf ("init: exec sh failed" +:+ nl) [] ;;
      exit 1
    else init_wait pid ;; mret (inl tt)) tt.

(** ** zombie.c, dorphan.c, forphan.c *)

Definition zombie_main : prog Z :=
  pid ← call SFork;
  (if 0 <? pid then call (SPause 5) ;; mret tt else mret tt) ;;
  exit 0.

(** [for(;;) pause(1000)] *)
Definition pause_forever : prog Z := loop (fun _ : unit => call (SPause 1000) ;; mret (inl tt)) tt.

Definition dorphan_main (argv : list (list Z)) : prog Z :=
  let s := arg argv 0 in
  r ← call (SMkdir (chars "dd"));
  if negb (r =? 0) then printf ("%s: mkdir dd failed" +:+ nl) [str s] ;; exit 1 else
  r ← call (SChdir (chars "dd"));
  if negb (r =? 0) then printf ("%s: chdir dd failed" +:+ nl) [str s] ;; exit 1 else
  r ← call (SUnlink (chars "../dd"));
  if r <? 0 then printf ("%s: unlink failed" +:+ nl) [str s] ;; exit 1 else
  printf ("wait for kill and reclaim" +:+ nl) [] ;;
  pause_forever.

Definition forphan_main (argv : list (list Z)) : prog Z :=
  let s := arg argv 0 in
  let ff := chars "file0" in
  fd ← call (SOpen ff (Z.lor O_CREATE O_WRONLY));
  if fd <? 0 then printf ("%s: open failed" +:+ nl) [str s] ;; exit 1 else
  '(r, st) ← call (SFstat fd);
  if r <? 0 then fprintf 2 ("%s: cannot stat %s" +:+ nl) [str s; str (chars "ff")] ;; exit 1 else
  r ← call (SUnlink ff);
  if r <? 0 then printf ("%s: unlink failed" +:+ nl) [str s] ;; exit 1 else
  r ← call (SOpen ff O_RDONLY);
  if negb (r =? -1) then printf ("%s: open successed" +:+ nl) [str s] ;; exit 1 else
  printf ("wait for kill and reclaim %d" +:+ nl) [UInt (st_ino st)] ;;
  pause_forever.

(** ** Reading a whole input *)

Section Reading.
Context {W : Type} {h : forall A, sysE A -> W -> (A * W) + W} {F : Files h}.

Lemma take_fill buf bs : take (Z.to_nat (Z.of_nat (length bs))) (fill buf 0 bs) = bs.
Proof. unfold fill. rewrite take_0, app_nil_l, Nat2Z.id. apply take_app_length. Qed.

(** A loop that reads [fd] to the end: when each chunk takes the loop from a
    state to the next and does not change the input, and what it does to the
    world is described by the relation [R] on the bytes read so far, then the
    loop ends and [R] relates the worlds over the whole input.  [size] is how
    much the loop asks for. *)
Lemma read_loop {S A} (body : S -> prog (S + A)) (fd : Z) (size : S -> Z) (R : list Z -> S -> W -> Prop) (E : A -> W -> Prop) :
  (forall done s w, R done s w -> 0 < size s) ->
  (forall done s w bs w1, R done s w -> bs <> [] -> Z.of_nat (length bs) <= size s ->
     input w fd = bs ++ input w1 fd -> h _ (SRead fd (size s)) w = inl ((Z.of_nat (length bs), bs), w1) ->
     (forall fd', output w1 fd' = output w fd') ->
     exists s' w', ends h (body s) w (Done (inl s') w') /\ R (done ++ bs) s' w' /\ input w' fd = input w1 fd) ->
  (forall done s w w1, R done s w -> input w fd = [] -> h _ (SRead fd (size s)) w = inl ((0, []), w1) ->
     (forall fd', output w1 fd' = output w fd') ->
     exists a w', ends h (body s) w (Done (inr a) w') /\ E a w') ->
  forall s w, R [] s w -> exists a w', ends h (loop body s) w (Done a w') /\ E a w'.
Proof.
  intros Hsz Hstep Hend s w HR. remember (length (input w fd)) as k eqn:Ek. revert HR. generalize (@nil Z) as don.
  revert s w Ek. induction k as [k IH] using lt_wf_ind. intros s w -> don HR.
  destruct (decide (input w fd = [])) as [E0|N].
  - destruct (read_eof w fd (size s) (Hsz _ _ _ HR) E0) as (w1 & X & _ & O1).
    destruct (Hend _ _ _ _ HR E0 X O1) as (a & w' & Y & Z1). exists a, w'. split; [by apply ends_loop_exit|done].
  - destruct (read_some w fd (size s) (Hsz _ _ _ HR) N) as (bs & w1 & X & Nb & Hb & I1 & _ & O1).
    destruct (Hstep _ _ _ _ _ HR Nb Hb I1 X O1) as (s' & w' & Y & R' & I').
    destruct (IH (length (input w' fd))) with (s := s') (w := w') (don := don ++ bs) as (a & w2 & Y2 & E2); try done.
    { rewrite I1, I', length_app. destruct bs; [done|]. cbn. lia. }
    exists a, w2. split; [by eapply ends_loop|done].
Qed.

(** cat() copies what [fd] has to the standard output. *)
Lemma cat_spec fd w : exists w', ends h (cat fd) w (Done tt w') /\
  output w' 1 = output w 1 ++ input w fd /\ forall fd', fd' <> 1 -> output w' fd' = output w fd'.
Proof.
  unfold cat.
  destruct (read_loop (cat_body fd) fd (fun _ => 512) (fun don _ w' => input w fd = don ++ input w' fd /\ output w' 1 = output w 1 ++ don /\
      forall fd', fd' <> 1 -> output w' fd' = output w fd')
    (fun n w' => n = 0 /\ output w' 1 = output w 1 ++ input w fd /\ forall fd', fd' <> 1 -> output w' fd' = output w fd') )
    with (s := replicate 512 0) (w := w) as (n & w' & X & -> & Y).
  1: done.
  3: { split; [done|]. by rewrite app_nil_r. }
  3: { exists w'. split; [|exact Y]. eapply ends_bind; [exact X|apply ends_ret]. }
  - intros don buf w0 bs w1 (I0 & O0 & O0') Nb Hb I1 X O1.
    destruct (write_all w1 1 bs) as (w2 & X2 & I2 & O2). eexists _, w2. split; [|split; [split; [|split]|apply I2]].
    + eapply ends_bind; [by apply ends_call|]. cbn beta iota zeta.
      destruct (Z.ltb_spec 0 (Z.of_nat (length bs))) as [_|C]; [|destruct bs; [done|cbn in C; lia]].
      rewrite take_fill. eapply ends_bind; [by apply ends_call|]. rewrite Z.eqb_refl. apply ends_ret.
    + by rewrite I0, I1, I2, app_assoc.
    + rewrite O2, decide_True, O1, O0 by done. by rewrite app_assoc.
    + intros fd' N. by rewrite O2, decide_False, O1, O0'.
  - intros don buf w0 w1 (I0 & O0 & O0') E0 X O1. exists 0, w1. split; [|split; [done|]].
    + eapply ends_bind; [by apply ends_call|apply ends_ret].
    + rewrite I0, E0, app_nil_r. split; [by rewrite O1, O0|]. intros fd' N. by rewrite O1, O0'.
Qed.

(** ** Counting *)

(** The text cut at its white space, and the words: the pieces that are not
    empty. *)
Fixpoint pieces (l : list Z) : list (list Z) :=
  match l with
  | [] => [[]]
  | c :: l' =>
      if bool_decide (c ∈ spaces) then [] :: pieces l'
      else match pieces l' with p :: r => (c :: p) :: r | [] => [[c]] end
  end.

Definition nonempty (p : list Z) : bool := match p with [] => false | _ => true end.
Definition words (l : list Z) : list (list Z) := List.filter nonempty (pieces l).
Definition lines (l : list Z) : list Z := List.filter (Z.eqb 10) l.

Lemma strchr_spaces x : is_Some (strchr spaces x) <-> x ∈ spaces.
Proof. apply strchr_elem. repeat constructor; done. Qed.

Lemma pieces_cons l : exists p r, pieces l = p :: r.
Proof. destruct l as [|c l]; cbn; [eauto|]. case_if; [eauto|]. destruct (pieces l); eauto. Qed.

(** The words that start in [l], after a character that is in a word or not. *)
Definition new_words (inword : bool) (l : list Z) : nat :=
  length (List.filter nonempty (if inword then tail (pieces l) else pieces l)).

Lemma wc_fold l : forall s, let s' := fold_left wc_char l s in
  s32 (wc_l s') = s32 (wc_l s + Z.of_nat (length (lines l))) /\
  s32 (wc_w s') = s32 (wc_w s + Z.of_nat (new_words (wc_inword s) l)) /\
  s32 (wc_c s') = s32 (wc_c s + Z.of_nat (length l)).
Proof.
  assert (forall x y z, s32 (s32 (x + 1) + Z.of_nat y) = z -> s32 (x + Z.of_nat (S y)) = z) as Step.
  { intros x y z <-. rewrite s32_add. f_equal. lia. }
  induction l as [|c l IH]; intros s; cbn [fold_left].
  - unfold new_words, lines. cbn. rewrite !Z.add_0_r. split; [done|]. split; [|done].
    destruct (wc_inword s); cbn; by rewrite Z.add_0_r.
  - destruct (IH (wc_char s c)) as (L & N & C). rewrite L, N, C. clear IH L N C. split; [|split].
    + unfold lines. cbn [List.filter]. rewrite (Z.eqb_sym 10 c). unfold wc_char. destruct (c =? 10); cbn [length].
      * symmetry. apply Step. by destruct (bool_decide _), (wc_inword s).
      * by destruct (bool_decide _), (wc_inword s).
    + unfold wc_char, new_words. cbn [pieces]. destruct (pieces_cons l) as (p & r & ->).
      rewrite (bool_decide_ext _ _ (strchr_spaces c)). destruct (bool_decide (c ∈ spaces)).
      * cbn. by destruct (wc_inword s).
      * destruct (wc_inword s) eqn:E; cbn; [by rewrite ?E|]. symmetry. by apply Step.
    + cbn [length]. symmetry. apply Step. unfold wc_char. by destruct (bool_decide _), (wc_inword s).
Qed.

Lemma wc_text l n c name : text ("%d %d %d %s" +:+ nl) [UInt l; UInt n; UInt c; str name] =
  map u8 (int_text (s32 l) 10 true ++ 32 :: int_text (s32 n) 10 true ++ 32 :: int_text (s32 c) 10 true ++ 32 :: name ++ [10]).
Proof. reflexivity. Qed.

(** wc() prints the numbers of lines, words and bytes. *)
Lemma wc_spec fd name w : exists w', ends h (wc fd name) w (Done tt w') /\
  let t := input w fd in
  output w' 1 = output w 1 ++ text ("%d %d %d %s" +:+ nl)
    [UInt (Z.of_nat (length (lines t))); UInt (Z.of_nat (length (words t))); UInt (Z.of_nat (length t)); str name].
Proof.
  unfold wc.
  destruct (read_loop (wc_body fd) fd (fun _ => 512)
    (fun don x w' => input w fd = don ++ input w' fd /\ output w' 1 = output w 1 /\ x.2 = fold_left wc_char don (mk_counts 0 0 0 false))
    (fun x w' => x.1 = 0 /\ x.2 = fold_left wc_char (input w fd) (mk_counts 0 0 0 false) /\ output w' 1 = output w 1))
    with (s := (replicate 512 0, mk_counts 0 0 0 false)) (w := w) as ([n s] & w1 & X & En & Es & O1).
  - done.
  - intros don [buf s] w0 bs w1 (I0 & O0 & S0) Nb Hb I1 X O1. eexists (_, _), w1. split; [|split; [split; [|split]|done]].
    + eapply ends_bind; [by apply ends_call|]. cbn beta iota zeta.
      destruct (Z.ltb_spec 0 (Z.of_nat (length bs))) as [_|C]; [|destruct bs; [done|cbn in C; lia]].
      rewrite take_fill. apply ends_ret.
    + by rewrite I0, I1, app_assoc.
    + by rewrite O1, O0.
    + cbn in *. by rewrite S0, fold_left_app.
  - intros don [buf s] w0 w1 (I0 & O0 & S0) E0 X O1. exists (0, s), w1. split; [|split; [done|split]].
    + eapply ends_bind; [by apply ends_call|apply ends_ret].
    + cbn in *. by rewrite S0, I0, E0, app_nil_r.
    + by rewrite O1, O0.
  - done.
  - cbn in En, Es. subst n.
    destruct (emits_printf ("%d %d %d %s" +:+ nl) [UInt (wc_l s); UInt (wc_w s); UInt (wc_c s); str name] w1) as (w2 & X2 & _ & O2).
    exists w2. split; [eapply ends_bind; [exact X|exact X2]|]. cbv zeta. rewrite O2, decide_True, O1 by done. f_equal.
    destruct (wc_fold (input w fd) (mk_counts 0 0 0 false)) as (L & N & C). rewrite <- Es in L, N, C.
    by rewrite !wc_text, L, N, C.
Qed.

End Reading.

(** cat without arguments copies its standard input: on every kernel
    whose read() delivers the input in chunks of any sizes and whose write()
    succeeds, it terminates with status 0, and the standard output has
    received exactly the bytes of the input, in order. *)
Theorem cat_copies {W} {h : forall A, sysE A -> W -> (A * W) + W} {F : Files h} w :
  exists w', ends h (cat_main [chars "cat"]) w (Gone w') /\ status w' = Some 0 /\ output w' 1 = output w 1 ++ input w 0.
Proof.
  destruct (cat_spec 0 w) as (w1 & X & O & _). destruct (exit_gone w1 0) as (w2 & Y & S & O2).
  exists w2. split; [|split; [done|by rewrite O2]]. eapply ends_bind; [exact X|]. by apply ends_exit.
Qed.

(** C35 wc without arguments terminates with status 0 and prints one
    line: the number of newlines, the number of words (maximal runs of
    characters other than blank, tab, newline, carriage return and vertical
    tab) and the number of bytes of its standard input, as int values,
    independently of how the input is cut into reads. *)
Theorem wc_counts {W} {h : forall A, sysE A -> W -> (A * W) + W} {F : Files h} w :
  exists w', ends h (wc_main [chars "wc"]) w (Gone w') /\ status w' = Some 0 /\
    let t := input w 0 in
    output w' 1 = output w 1 ++ text ("%d %d %d %s" +:+ nl)
      [UInt (Z.of_nat (length (lines t))); UInt (Z.of_nat (length (words t))); UInt (Z.of_nat (length t)); str []].
Proof.
  destruct (wc_spec 0 [] w) as (w1 & X & O). destruct (exit_gone w1 0) as (w2 & Y & S & O2).
  exists w2. split; [|split; [done|by rewrite O2]]. eapply ends_bind; [exact X|]. by apply ends_exit.
Qed.

Definition sample : list Z := chars "it is a" ++ [10] ++ chars "sample  text" ++ [10].

Lemma cat_copies_witness : exists w', ends streams (cat_main [chars "cat"]) (with_input 0 sample [2; 0; 7]%nat) (Gone w') /\
  w_output w' 1 = sample.
Proof.
  destruct (cat_copies (h := streams) (with_input 0 sample [2; 0; 7]%nat)) as (w' & X & _ & Y). exists w'. split; [exact X|exact Y].
Defined.

Lemma wc_counts_witness : exists w', ends streams (wc_main [chars "wc"]) (with_input 0 sample [2; 0; 7]%nat) (Gone w') /\
  w_output w' 1 = chars ("2 5 21 " +:+ nl).
Proof.
  destruct (wc_counts (h := streams) (with_input 0 sample [2; 0; 7]%nat)) as (w' & X & _ & Y). exists w'. split; [exact X|].
  etransitivity; [exact Y|]. vm_compute. reflexivity.
Defined.
