(* ===== verification/Grind.v ===== *)
(** * grind (user/grind.c)

    Random system calls in parallel, for ever.  The generator is do_rand(),
    the program is a tree of system calls as in Utils, and the theorems show
    that the generator is the one of Park and Miller and that a turn of the
    loop gives back every descriptor it opens. *)

From S2P Require Import Prelude Abi User Ulib Uprintf UserSpec Utils.

(** ** The generator *)

(** do_rand(): the return value and the new [*ctx]. *)
Definition do_rand (ctx : Z) : Z * Z :=
  let x := s64 (u64 (ctx mod 0x7ffffffe + 1)) in
  let hi := Z.quot x 127773 in
  let lo := Z.rem x 127773 in
  let x := s64 (s64 (16807 * lo) - s64 (2836 * hi)) in
  let x := if x <? 0 then s64 (x + 0x7fffffff) else x in
  let x := s64 (x - 1) in
  (s32 x, u64 x).

(** rand(), with [rand_next] threaded through. *)
Definition rand (rand_next : Z) : Z * Z := do_rand rand_next.

(** ** go() *)

(** The variables of the loop of go(), and [rand_next]. *)
Record gstate := mk_gstate { g_fd : Z; g_buf : list Z; g_iters : Z; g_rand : Z }.

Definition set_g_fd (v : Z) (r : gstate) : gstate := mk_gstate v (g_buf r) (g_iters r) (g_rand r).
Definition set_g_buf (v : list Z) (r : gstate) : gstate := mk_gstate (g_fd r) v (g_iters r) (g_rand r).
Definition set_g_iters (v : Z) (r : gstate) : gstate := mk_gstate (g_fd r) (g_buf r) v (g_rand r).
Definition set_g_rand (v : Z) (r : gstate) : gstate := mk_gstate (g_fd r) (g_buf r) (g_iters r) v.

(** [fprintf(fd, msg); exit(status)]; printf() writes to descriptor 1. *)
Definition fail1 {A} (fd : Z) (msg : string) (status : Z) : prog A :=
  fprintf fd (msg +:+ nl) [] ;;
  exit status.

(** [close(open(path, O_CREATE|O_RDWR))] *)
Definition touch (path : string) : prog unit :=
  fd ← call (SOpen (chars path) (Z.lor O_CREATE O_RDWR));
  call (SClose fd) ;;
  mret tt.

(** fork(), with the code of the child, which exits, and the check. *)
Definition spawn (child : prog unit) : prog Z :=
  pid ← call SFork;
  if pid =? 0 then child ;; exit 0
  else if pid <? 0 then fail1 1 "grind: fork failed" 1
  else mret pid.

Definition go_4 : prog unit :=
  r ← call (SChdir (chars "grindir"));
  (if negb (r =? 0) then fail1 1 "grind: chdir grindir failed" 1 else mret tt) ;;
  call (SUnlink (chars "../b")) ;;
  call (SChdir (chars "/")) ;;
  mret tt.

Definition go_16 (break0 : Z) : prog unit :=
  b ← sbrk 0;
  if break0 <? b then
    b ← sbrk 0;
    sbrk (s32 (- (b - break0))) ;;
    mret tt
  else mret tt.

Definition go_17 : prog unit :=
  pid ← spawn (touch "a");
  r ← call (SChdir (chars "../grindir/.."));
  (if negb (r =? 0) then fail1 1 "grind: chdir failed" 1 else mret tt) ;;
  call (SKill pid) ;;
  call SWait ;;
  mret tt.

Definition go_18 : prog unit :=
  spawn (pid ← call SGetpid; call (SKill pid) ;; mret tt) ;;
  call SWait ;;
  mret tt.

Definition go_19 : prog unit :=
  '(r, (fds0, fds1)) ← call SPipe;
  (if r <? 0 then fail1 1 "grind: pipe failed" 1 else mret tt) ;;
  spawn (
    call SFork ;;
    call SFork ;;
    n ← call (SWrite fds1 (chars "x"));
    (if negb (n =? 1) then printf ("grind: pipe write failed" +:+ nl) [] else mret tt) ;;
    '(n, _) ← call (SRead fds0 1);
    (if negb (n =? 1) then printf ("grind: pipe read failed" +:+ nl) [] else mret tt)) ;;
  call (SClose fds0) ;;
  call (SClose fds1) ;;
  call SWait ;;
  mret tt.

Definition go_20 : prog unit :=
  spawn (
    call (SUnlink (chars "a")) ;;
    call (SMkdir (chars "a")) ;;
    call (SChdir (chars "a")) ;;
    call (SUnlink (chars "../a")) ;;
    call (SOpen (chars "x") (Z.lor O_CREATE O_RDWR)) ;;
    call (SUnlink (chars "x")) ;;
    mret tt) ;;
  call SWait ;;
  mret tt.

Definition go_21 : prog unit :=
  call (SUnlink (chars "c")) ;;
  fd1 ← call (SOpen (chars "c") (Z.lor O_CREATE O_RDWR));
  (if fd1 <? 0 then fail1 1 "grind: create c failed" 1 else mret tt) ;;
  n ← call (SWrite fd1 (chars "x"));
  (if negb (n =? 1) then fail1 1 "grind: write c failed" 1 else mret tt) ;;
  '(r, st) ← call (SFstat fd1);
  (if negb (r =? 0) then fail1 1 "grind: fstat failed" 1 else mret tt) ;;
  (if negb (st_size st =? 1) then
     printf ("grind: fstat reports wrong size %d" +:+ nl) [UInt (s32 (st_size st))] ;; exit 1
   else mret tt) ;;
  (if 200 <? st_ino st then
     printf ("grind: fstat reports crazy i-number %d" +:+ nl) [UInt (st_ino st)] ;; exit 1
   else mret tt) ;;
  call (SClose fd1) ;;
  call (SUnlink (chars "c")) ;;
  mret tt.

(** echo hi | cat.  [aa] and [bb] are the two pipes. *)
Definition go_22_echo (aa0 aa1 bb0 bb1 : Z) : prog Z :=
  call (SClose bb0) ;;
  call (SClose bb1) ;;
  call (SClose aa0) ;;
  call (SClose 1) ;;
  d ← call (SDup aa1);
  (if negb (d =? 1) then fail1 2 "grind: dup failed" 1 else mret tt) ;;
  call (SClose aa1) ;;
  call (SExec (chars "grindir/../echo") [chars "echo"; chars "hi"]) ;;
  fail1 2 "grind: echo: not found" 2.

Definition go_22_cat (aa0 aa1 bb0 bb1 : Z) : prog Z :=
  call (SClose aa1) ;;
  call (SClose bb0) ;;
  call (SClose 0) ;;
  d ← call (SDup aa0);
  (if negb (d =? 0) then fail1 2 "grind: dup failed" 4 else mret tt) ;;
  call (SClose aa0) ;;
  call (SClose 1) ;;
  d ← call (SDup bb1);
  (if negb (d =? 1) then fail1 2 "grind: dup failed" 5 else mret tt) ;;
  call (SClose bb1) ;;
  call (SExec (chars "/cat") [chars "cat"]) ;;
  fail1 2 "grind: cat: not found" 6.

(** The status of a failed wait() is what is in the uninitialised variable,
    and is the answer of the call like any other. *)
Definition go_22 : prog unit :=
  '(r, (aa0, aa1)) ← call SPipe;
  (if r <? 0 then fail1 2 "grind: pipe failed" 1 else mret tt) ;;
  '(r, (bb0, bb1)) ← call SPipe;
  (if r <? 0 then fail1 2 "grind: pipe failed" 1 else mret tt) ;;
  pid1 ← call SFork;
  (if pid1 =? 0 then go_22_echo aa0 aa1 bb0 bb1 ;; mret tt
   else if pid1 <? 0 then fail1 2 "grind: fork failed" 3
   else mret tt) ;;
  pid2 ← call SFork;
  (if pid2 =? 0 then go_22_cat aa0 aa1 bb0 bb1 ;; mret tt
   else if pid2 <? 0 then fail1 2 "grind: fork failed" 7
   else mret tt) ;;
  call (SClose aa0) ;;
  call (SClose aa1) ;;
  call (SClose bb1) ;;
  '(_, bs) ← call (SRead bb0 1);
  let buf := fill [0; 0; 0; 0] 0 bs in
  '(_, bs) ← call (SRead bb0 1);
  let buf := fill buf 1 bs in
  '(_, bs) ← call (SRead bb0 1);
  let buf := fill buf 2 bs in
  call (SClose bb0) ;;
  '(_, st1) ← call SWait;
  '(_, st2) ← call SWait;
  if (negb (st1 =? 0) || negb (st2 =? 0) || negb (strcmp buf (chars "hi" ++ [10]) =? 0))%bool then
    vprintf 1 (chars "grind: exec pipeline failed %d %d " ++ [34] ++ chars "%s" ++ [34; 10]) false
      [UInt st1; UInt st2; str (cstr buf)] ;;
    exit 1
  else mret tt.

(** The chain of tests on [what]. *)
Definition go_what (break0 what : Z) (st : gstate) : prog gstate :=
  let keep (t : prog unit) : prog gstate := t ;; mret st in
  if what =? 1 then keep (touch "grindir/../a")
  else if what =? 2 then keep (touch "grindir/../grindir/../b")
  else if what =? 3 then keep (call (SUnlink (chars "grindir/../a")) ;; mret tt)
  else if what =? 4 then keep go_4
  else if what =? 5 then
    call (SClose (g_fd st)) ;;
    fd ← call (SOpen (chars "/grindir/../a") (Z.lor O_CREATE O_RDWR));
    mret (set_g_fd fd st)
  else if what =? 6 then
    call (SClose (g_fd st)) ;;
    fd ← call (SOpen (chars "/./grindir/./../b") (Z.lor O_CREATE O_RDWR));
    mret (set_g_fd fd st)
  else if what =? 7 then keep (call (SWrite (g_fd st) (g_buf st)) ;; mret tt)
  else if what =? 8 then
    '(_, bs) ← call (SRead (g_fd st) 999);
    mret (set_g_buf (fill (g_buf st) 0 bs) st)
  else if what =? 9 then keep (
    call (SMkdir (chars "grindir/../a")) ;;
    touch "a/../a/./a" ;;
    call (SUnlink (chars "a/a")) ;; mret tt)
  else if what =? 10 then keep (
    call (SMkdir (chars "/../b")) ;;
    touch "grindir/../b/b" ;;
    call (SUnlink (chars "b/b")) ;; mret tt)
  else if what =? 11 then keep (
    call (SUnlink (chars "b")) ;;
    call (SLink (chars "../grindir/./../a") (chars "../b")) ;; mret tt)
  else if what =? 12 then keep (
    call (SUnlink (chars "../grindir/../a")) ;;
    call (SLink (chars ".././b") (chars "/grindir/../a")) ;; mret tt)
  else if what =? 13 then keep (spawn (mret tt) ;; call SWait ;; mret tt)
  else if what =? 14 then keep (spawn (call SFork ;; call SFork ;; mret tt) ;; call SWait ;; mret tt)
  else if what =? 15 then keep (sbrk 6011 ;; mret tt)
  else if what =? 16 then keep (go_16 break0)
  else if what =? 17 then keep go_17
  else if what =? 18 then keep go_18
  else if what =? 19 then keep go_19
  else if what =? 20 then keep go_20
  else if what =? 21 then keep go_21
  else if what =? 22 then keep go_22
  else mret st.

(** One turn of the loop. *)
Definition go_body (which_child break0 : Z) (st : gstate) : prog (gstate + Z) :=
  let iters := u64 (g_iters st + 1) in
  (if iters mod 500 =? 0 then call (SWrite 1 (chars (if negb (which_child =? 0) then "B" else "A"))) ;; mret tt else mret tt) ;;
  let '(x, rand_next) := rand (g_rand st) in
  let what := Z.rem x 23 in
  st' ← go_what break0 what (set_g_rand rand_next (set_g_iters iters st));
  mret (inl st').

Definition go (which_child rand_next : Z) : prog Z :=
  break0 ← sbrk 0;
  call (SMkdir (chars "grindir")) ;;
  r ← call (SChdir (chars "grindir"));
  (if negb (r =? 0) then fail1 1 "grind: chdir grindir failed" 1 else mret tt) ;;
  call (SChdir (chars "/")) ;;
  loop (go_body which_child break0) (mk_gstate (-1) (replicate 999 0) 0 rand_next).

(** The first [n] turns of the loop. *)
Fixpoint go_turns (n : nat) (which_child break0 : Z) (st : gstate) : prog gstate :=
  match n with
  | O => mret st
  | S n' =>
      r ← go_body which_child break0 st;
      match r with
      | inl st' => go_turns n' which_child break0 st'
      | inr _ => mret st
      end
  end.

(** ** iter() and main() *)

Definition iter (rand_next : Z) : prog Z :=
  call (SUnlink (chars "a")) ;;
  call (SUnlink (chars "b")) ;;
  pid1 ← call SFork;
  (if pid1 <? 0 then fail1 1 "grind: fork failed" 1 else mret tt) ;;
  (if pid1 =? 0 then go 0 (Z.lxor rand_next 31) ;; exit 0 else mret tt) ;;
  pid2 ← call SFork;
  (if pid2 <? 0 then fail1 1 "grind: fork failed" 1 else mret tt) ;;
  (if pid2 =? 0 then go 1 (Z.lxor rand_next 7177) ;; exit 0 else mret tt) ;;
  '(r, st) ← call SWait;
  let st1 := if r <? 0 then -1 else st in
  (if negb (st1 =? 0) then call (SKill pid1) ;; call (SKill pid2) ;; mret tt else mret tt) ;;
  call SWait ;;
  exit 0.

Definition grind_main : prog Z :=
  loop (fun rand_next : Z =>
    pid ← call SFork;
    (if pid =? 0 then iter rand_next ;; exit 0 else mret tt) ;;
    (if 0 <? pid then call SWait ;; mret tt else mret tt) ;;
    call (SPause 20) ;;
    mret (inl (u64 (rand_next + 1)))) 1.

(** ** do_rand() *)

(** [(7^5 * x) mod (2^31 - 1)] *)
Definition park_miller (x : Z) : Z := (7 ^ 5 * x) mod (2 ^ 31 - 1).

Lemma park_miller_range x : 1 <= x < 2 ^ 31 - 1 -> 1 <= park_miller x < 2 ^ 31 - 1.
Proof.
  intros H. unfold park_miller. pose proof (Z.mod_pos_bound (7 ^ 5 * x) (2 ^ 31 - 1) ltac:(lia)).
  assert ((7 ^ 5 * x) mod (2 ^ 31 - 1) <> 0); [|lia]. intros E%Z.mod_divide; [|lia].
  apply Z.gauss in E; [|by vm_compute]. apply Z.divide_pos_le in E; lia.
Qed.

(** Schrage's method, over the integers. *)
Lemma schrage x : 1 <= x < 2 ^ 31 - 1 ->
  let y := 16807 * (x mod 127773) - 2836 * (x / 127773) in park_miller x = if y <? 0 then y + (2 ^ 31 - 1) else y.
Proof.
  intros H y. symmetry. apply (Z.mod_unique_pos _ _ (x / 127773 + if y <? 0 then -1 else 0)).
  - unfold y. destruct (Z.ltb_spec (16807 * (x mod 127773) - 2836 * (x / 127773)) 0); Z.div_mod_to_equations; lia.
  - unfold y. destruct (Z.ltb_spec (16807 * (x mod 127773) - 2836 * (x / 127773)) 0); Z.div_mod_to_equations; lia.
Qed.

Lemma s64_small x : - 2 ^ 63 <= x < 2 ^ 63 -> s64 x = x.
Proof. apply (sext_small 64); lia. Qed.

(** C39 grind's do_rand(), which avoids products of more than 31 bits,
    is the minimal standard generator its comment names: from any [*ctx] the
    new [*ctx] is [(7^5 * x) mod (2^31 - 1)] shifted down by one, where [x] is
    the old one brought to [1 .. 2^31-2], and it is also the return value.  It
    lies between 0 and [2^31 - 3], so no intermediate value overflows, the
    truncation to int is harmless, and [rand() % 23] picks one of 23 cases. *)
Theorem do_rand_park_miller ctx : 0 <= ctx < 2 ^ 64 ->
  let x := park_miller (ctx mod (2 ^ 31 - 2) + 1) - 1 in
  do_rand ctx = (x, x) /\ 0 <= x <= 2 ^ 31 - 3 /\ 0 <= Z.rem (fst (rand ctx)) 23 < 23.
Proof.
  intros H x. set (y := ctx mod (2 ^ 31 - 2) + 1) in *. assert (1 <= y < 2 ^ 31 - 1) as Hy by (unfold y; Z.div_mod_to_equations; lia).
  pose proof (park_miller_range y Hy) as Hp. pose proof (schrage y Hy) as Hs.
  assert (do_rand ctx = (x, x)) as E.
  { unfold do_rand. change 0x7ffffffe with (2 ^ 31 - 2). change 0x7fffffff with (2 ^ 31 - 1). fold y. rewrite u64_small, (s64_small y) by lia.
    rewrite Z.quot_div_nonneg, Z.rem_mod_nonneg by lia. cbv zeta in Hs.
    assert (0 <= y mod 127773 < 127773 /\ 0 <= y / 127773 <= 16807) as [H1 H2] by (Z.div_mod_to_equations; lia).
    rewrite (s64_small (16807 * _)), (s64_small (2836 * _)), (s64_small (_ - 2836 * _)) by lia.
    set (z := 16807 * (y mod 127773) - 2836 * (y / 127773)) in *. assert (- 2 ^ 62 <= z <= 2 ^ 62) as Hz by (unfold z; lia).
    rewrite (s64_small (z + _)) by lia. rewrite <- Hs. fold x. rewrite s64_small by (unfold x; lia). by rewrite s32_small, u64_small by (unfold x; lia). }
  split; [done|]. unfold rand. rewrite E. cbn [fst]. split; [unfold x; lia|]. rewrite Z.rem_mod_nonneg by (unfold x; lia). apply Z.mod_pos_bound. lia.
Qed.

Lemma do_rand_park_miller_witness : do_rand 1 = (33613, 33613) /\ 0 <= 33613 <= 2 ^ 31 - 3.
Proof. destruct (do_rand_park_miller 1 ltac:(lia)) as (E & H & _). exact (conj E H). Defined.

(** ** Descriptors *)

(** What a call does to the set of open descriptors of the process. *)
Definition opens (fd : Z) (F F' : gset Z) : Prop :=
  fd < 0 /\ F' = F \/ 0 <= fd /\ (fd ∉ F) /\ F' = {[fd]} ∪ F.

Definition effect {A} (e : sysE A) : A -> gset Z -> gset Z -> Prop :=
  match e in sysE A return A -> gset Z -> gset Z -> Prop with
  | SOpen _ _ => opens
  | SDup _ => opens
  | SPipe => fun '(r, (a, b)) F F' =>
      r < 0 /\ F' = F \/ 0 <= r /\ 0 <= a /\ 0 <= b /\ (a ∉ F) /\ (b ∉ F) /\ a <> b /\ F' = {[a; b]} ∪ F
  | SClose fd => fun _ F F' => F' = F ∖ {[fd]}
  | _ => fun _ F F' => F' = F
  end.

(** A kernel that keeps track of descriptors: any call may end the process
    (it is killed, exits or runs another program), or answers and changes the
    descriptors as the call says. *)
Class Descriptors {W : Type} (h : forall A, sysE A -> W -> (A * W) + W) := {
  fds : W -> gset Z;
  fds_nonneg w fd : fd ∈ fds w -> 0 <= fd;
  answers {A} (e : sysE A) w :
    (exists w', h A e w = inr w') \/ exists a w', h A e w = inl (a, w') /\ effect e a (fds w) (fds w');
}.

Section Holds.
Context {W : Type} {h : forall A, sysE A -> W -> (A * W) + W} {D : Descriptors h}.

(** From descriptors [F] the program ends, or returns with a result and
    descriptors as [Q] says. *)
Definition holds {A} (F : gset Z) (t : prog A) (Q : A -> gset Z -> Prop) : Prop :=
  forall w, fds w = F -> exists o, ends h t w o /\ match o with Done a w' => Q a (fds w') | Gone _ => True end.

Lemma holds_ret {A} F (a : A) Q : Q a F -> holds F (mret a) Q.
Proof. intros H w <-. exists (Done a w). split; [apply ends_ret|done]. Qed.

Lemma holds_bind {A B} F (t : prog A) (k : A -> prog B) P Q :
  holds F t P -> (forall a F', P a F' -> (forall fd, fd ∈ F' -> 0 <= fd) -> holds F' (k a) Q) -> holds F (t ≫= k) Q.
Proof.
  intros Ht Hk w Hw. destruct (Ht w Hw) as ([a w1|w1] & E & H).
  - destruct (Hk a (fds w1) H (fds_nonneg w1) w1 eq_refl) as (o & E' & H'). exists o. split; [by eapply ends_bind|done].
  - exists (Gone w1). split; [by apply ends_bind_gone|done].
Qed.

Lemma holds_call {A} F (e : sysE A) (Q : A -> gset Z -> Prop) :
  (forall a F', effect e a F F' -> Q a F') -> holds F (call e) Q.
Proof.
  intros H w <-. destruct (answers e w) as [[w' E]|(a & w' & E & Ef)].
  - exists (Gone w'). split; [|done]. exists 1%nat. cbn. by rewrite E.
  - exists (Done a w'). split; [by apply ends_call|]. by apply H.
Qed.

Lemma holds_exit {A} F st (Q : A -> gset Z -> Prop) : holds F (exit st) Q.
Proof. eapply holds_bind; [by apply (holds_call F (SExit st) (fun _ _ => True))|]. by intros []. Qed.

Lemma holds_step {A B} F (e : sysE A) (k : A -> prog B) Q :
  (forall a F', effect e a F F' -> (forall fd, fd ∈ F' -> 0 <= fd) -> holds F' (k a) Q) -> holds F (call e ≫= k) Q.
Proof. intros H. eapply holds_bind; [by apply (holds_call F e (fun a F' => effect e a F F'))|done]. Qed.

(** Programs that leave the descriptors alone. *)
Definition quiet {A} (t : prog A) : Prop := forall F, holds F t (fun _ F' => F' = F).

Lemma quiet_ret {A} (a : A) : quiet (mret a).
Proof. intros F. by apply holds_ret. Qed.

Lemma quiet_bind {A B} (t : prog A) (k : A -> prog B) : quiet t -> (forall a, quiet (k a)) -> quiet (t ≫= k).
Proof. intros Ht Hk F. eapply holds_bind; [apply Ht|]. intros a F' -> _. apply Hk. Qed.

Lemma quiet_exit {A} st : quiet (exit (A := A) st).
Proof. intros F. apply holds_exit. Qed.

Lemma quiet_putcs fd l : quiet (putcs fd l).
Proof.
  induction l as [|c l IH]; [apply quiet_ret|]. apply quiet_bind; [|done]. unfold putc. apply quiet_bind; [|by intros; apply quiet_ret].
  intros F. by apply holds_call.
Qed.

Lemma quiet_putc fd c : quiet (putc fd c).
Proof. apply (quiet_bind (call _)); [|by intros; apply quiet_ret]. intros F. by apply holds_call. Qed.

Lemma quiet_vprintf fd n : forall fmt pct ap, (length fmt <= n)%nat -> quiet (vprintf fd fmt pct ap).
Proof.
  assert (forall t1 t2 : prog unit, quiet t1 -> quiet t2 -> quiet (t1 ;; t2)) as Seq by (intros; by apply quiet_bind).
  induction n as [|n IH]; intros [|c0 fmt] pct ap Hl; cbn [length] in Hl; try lia; try apply quiet_ret. cbn [vprintf].
  assert (forall pct ap, quiet (vprintf fd fmt pct ap)) as H1 by (intros; apply IH; lia).
  assert (forall ap, quiet (match fmt with _ :: f => vprintf fd f false ap | [] => mret tt end)) as H2
    by (intros; destruct fmt; [apply quiet_ret|apply IH; cbn [length] in Hl; lia]).
  assert (forall ap, quiet (match fmt with _ :: _ :: f => vprintf fd f false ap | _ => mret tt end)) as H3
    by (intros; destruct fmt as [|? [|? ?]]; [apply quiet_ret..|apply IH; cbn [length] in Hl; lia]).
  pose proof (quiet_putc fd). pose proof (quiet_putcs fd). unfold printint, printptr.
  repeat case_match; auto 6.
Qed.

Lemma quiet_fprintf fd fmt ap : quiet (fprintf fd fmt ap).
Proof. by apply (quiet_vprintf fd (length (chars fmt))). Qed.

Lemma quiet_printf fmt ap : quiet (printf fmt ap).
Proof. by apply (quiet_vprintf 1 (length (chars fmt))). Qed.

(** The programs that run to an end, whatever the descriptors. *)
Definition runs {A} (t : prog A) : Prop := forall F, holds F t (fun _ _ => True).

Lemma holds_weaken {A} F (t : prog A) (P Q : A -> gset Z -> Prop) : holds F t P -> (forall a F', P a F' -> Q a F') -> holds F t Q.
Proof. intros H I w Hw. destruct (H w Hw) as (o & E & X). exists o. split; [done|]. destruct o; [by apply I|done]. Qed.

Lemma quiet_runs {A} (t : prog A) : quiet t -> runs t.
Proof. intros H F. by eapply holds_weaken; [apply H|]. Qed.

Lemma runs_bind {A B} (t : prog A) (k : A -> prog B) : runs t -> (forall a, runs (k a)) -> runs (t ≫= k).
Proof. intros Ht Hk F. eapply holds_bind; [apply Ht|]. intros a F' _ _. apply Hk. Qed.

Lemma runs_call {A} (e : sysE A) : runs (call e).
Proof. intros F. by apply holds_call. Qed.

Lemma quiet_call {A} (e : sysE A) : (forall a F F', effect e a F F' -> F' = F) -> quiet (call e).
Proof. intros H F. apply holds_call. intros a F'. apply H. Qed.

Lemma holds_nonneg {A} F (t : prog A) Q : ((forall fd, fd ∈ F -> 0 <= fd) -> holds F t Q) -> holds F t Q.
Proof. intros H w Hw. apply H; [|done]. intros fd Hfd. apply (fds_nonneg w). by rewrite Hw. Qed.

End Holds.

Create HintDb quiet discriminated.
#[export] Hint Resolve quiet_ret quiet_exit quiet_printf quiet_fprintf quiet_vprintf : quiet.

(** Straight code that only makes calls without effect on descriptors. *)
Ltac quiet_step :=
  first
  [ solve [eauto 2 with quiet]
  | apply quiet_call; done
  | apply quiet_bind; [|intros ?]
  | case_match ].
Ltac runs_step :=
  first
  [ apply quiet_runs; solve [eauto 2 with quiet]
  | apply runs_call
  | apply runs_bind; [|intros ?]
  | case_match ].

Section Grind.
Context {W : Type} {h : forall A, sysE A -> W -> (A * W) + W} {D : Descriptors h}.

#[local] Opaque vprintf chars.

Lemma quiet_fail {A} fd msg st : quiet (fail1 (A := A) fd msg st).
Proof. unfold fail1. repeat quiet_step. Qed.
#[local] Hint Resolve quiet_fail : quiet.

Lemma close_new F fd F' : (forall x, x ∈ F -> 0 <= x) -> opens fd F F' -> F' ∖ {[fd]} = F.
Proof.
  intros N [[H ->]|(H & H' & ->)]; [|set_solver +H'].
  apply difference_disjoint_L, disjoint_singleton_r. intros Hx%N. lia.
Qed.

Lemma quiet_touch path : quiet (touch path).
Proof.
  intros F. apply holds_nonneg. intros N. apply holds_step. intros fd F' Ef _. apply holds_step. intros r F'' -> _. apply holds_ret. by apply close_new.
Qed.
#[local] Hint Resolve quiet_touch : quiet.

(** The child never returns from spawn(). *)
Lemma quiet_spawn child : runs child -> quiet (spawn child).
Proof.
  intros H. unfold spawn. apply quiet_bind; [by apply quiet_call|]. intros pid. repeat case_match; [|apply quiet_fail|apply quiet_ret].
  intros F. eapply holds_bind; [apply H|]. intros ? ? _ _. apply holds_exit.
Qed.

Lemma quiet_go_4 : quiet go_4.
Proof. unfold go_4. repeat quiet_step. Qed.

Lemma quiet_go_16 break0 : quiet (go_16 break0).
Proof. unfold go_16, sbrk. repeat quiet_step. Qed.

Lemma quiet_go_17 : quiet go_17.
Proof. unfold go_17. apply quiet_bind; [apply quiet_spawn; repeat runs_step|intros ?]. repeat quiet_step. Qed.

Lemma quiet_go_18 : quiet go_18.
Proof. unfold go_18. apply quiet_bind; [apply quiet_spawn; repeat runs_step|intros ?]. repeat quiet_step. Qed.

Lemma quiet_go_20 : quiet go_20.
Proof. unfold go_20. apply quiet_bind; [apply quiet_spawn; repeat runs_step|intros ?]. repeat quiet_step. Qed.

Lemma holds_fail {A} F fd msg st (Q : A -> gset Z -> Prop) : holds F (fail1 fd msg st) Q.
Proof. eapply holds_bind; [apply quiet_fprintf|]. intros. apply holds_exit. Qed.

(** A test whose branch does not return. *)
Lemma holds_check {A} F (b : bool) (t : prog unit) (k : prog A) Q : holds F t (fun _ _ => False) -> (b = false -> holds F k Q) ->
  holds F ((if b then t else mret tt) ;; k) Q.
Proof.
  intros Ht Hk. destruct b; [by eapply holds_bind; [exact Ht|]|]. eapply holds_bind; [by apply holds_ret with (Q := fun _ F' => F' = F)|].
  intros ? ? -> _. by apply Hk.
Qed.

Lemma holds_quiet {A B} F (t : prog A) (k : A -> prog B) Q : quiet t -> (forall a, holds F (k a) Q) -> holds F (t ≫= k) Q.
Proof. intros Ht Hk. eapply holds_bind; [apply Ht|]. intros a F' -> _. apply Hk. Qed.

Lemma quiet_go_19 : quiet go_19.
Proof.
  unfold go_19. intros F. apply holds_step. intros [r [a b]] F1 Ef _. cbn in Ef. apply holds_check; [apply holds_fail|]. intros Hr%Z.ltb_ge.
  destruct Ef as [[? _]|(_ & _ & _ & Na & Nb & _ & ->)]; [lia|]. apply holds_quiet; [apply quiet_spawn; repeat runs_step|intros _].
  apply holds_step; intros ? F2 -> _. apply holds_step; intros ? F3 -> _. apply holds_step; intros ? F4 -> _. apply holds_ret.
  clear - Na Nb. set_solver.
Qed.

Lemma quiet_go_21 : quiet go_21.
Proof.
  unfold go_21. intros F. apply holds_nonneg. intros N. apply holds_step. intros ? ? -> _. apply holds_step. intros fd F1 Ef _.
  apply holds_check; [apply holds_fail|intros _]. apply holds_step. intros ? ? -> _. apply holds_check; [apply holds_fail|intros _].
  apply holds_step. intros [r st] ? -> _. apply holds_check; [apply holds_fail|intros _].
  do 2 (apply holds_check; [apply holds_quiet; [apply quiet_printf|intros; apply holds_exit]|intros _]).
  apply holds_step. intros ? ? -> _. apply holds_step. intros ? ? -> _. apply holds_ret. by apply close_new.
Qed.

(** The programs that do not return. *)
Definition dies {A} (t : prog A) : Prop := forall F, holds F t (fun _ _ => False).

Lemma dies_bind {A B} (t : prog A) (k : A -> prog B) : runs t -> (forall a, dies (k a)) -> dies (t ≫= k).
Proof. intros Ht Hk F. eapply holds_bind; [apply Ht|]. intros a F' _ _. apply Hk. Qed.

Lemma dies_fail {A} fd msg st : dies (fail1 (A := A) fd msg st).
Proof. intros F. apply holds_fail. Qed.

Lemma dies_go_22_echo aa0 aa1 bb0 bb1 : dies (go_22_echo aa0 aa1 bb0 bb1).
Proof. unfold go_22_echo. repeat first [apply dies_fail|apply dies_bind; [repeat runs_step|intros ?]]. Qed.

Lemma dies_go_22_cat aa0 aa1 bb0 bb1 : dies (go_22_cat aa0 aa1 bb0 bb1).
Proof. unfold go_22_cat. repeat first [apply dies_fail|apply dies_bind; [repeat runs_step|intros ?]]. Qed.

(** A fork() whose child [t] dies. *)
Lemma quiet_fork_dies (t : prog Z) fd msg st : dies t -> quiet (pid ← call SFork;
  if pid =? 0 then t ;; mret tt else if pid <? 0 then fail1 fd msg st else mret tt).
Proof.
  intros H. apply quiet_bind; [by apply quiet_call|intros pid]. repeat case_match; [|apply quiet_fail|apply quiet_ret].
  intros F. by eapply holds_bind; [apply H|].
Qed.

Lemma holds_assoc {A B C} F (t : prog A) (f : A -> prog B) (k : B -> prog C) Q :
  holds F ((t ≫= f) ≫= k) Q -> holds F (t ≫= fun a => f a ≫= k) Q.
Proof. intros H w Hw. destruct (H w Hw) as (o & [n E] & X). exists o. split; [|done]. exists n. by rewrite run_assoc. Qed.

Lemma quiet_go_22 : quiet go_22.
Proof.
  unfold go_22. intros F. apply holds_step. intros [r [a0 a1]] F1 Ef N1. cbn in Ef. apply holds_check; [apply holds_fail|]. intros Hr%Z.ltb_ge.
  destruct Ef as [[? _]|(_ & _ & _ & Na0 & Na1 & Na & ->)]; [lia|]. clear r Hr.
  apply holds_step. intros [r [b0 b1]] F2 Ef N2. cbn in Ef. apply holds_check; [apply holds_fail|]. intros Hr%Z.ltb_ge.
  destruct Ef as [[? _]|(_ & _ & _ & Nb0 & Nb1 & Nb & ->)]; [lia|]. clear r Hr.
  apply holds_assoc, holds_quiet; [apply quiet_fork_dies, dies_go_22_echo|intros _].
  apply holds_assoc, holds_quiet; [apply quiet_fork_dies, dies_go_22_cat|intros _].
  do 3 (apply holds_step; intros ? ? -> _). do 3 (apply holds_step; intros [? ?] ? -> _; cbv zeta).
  apply holds_step; intros ? ? -> _. apply holds_step; intros [? st1] ? -> _. apply holds_step; intros [? st2] ? -> _.
  case_match; [apply holds_quiet; [by eapply quiet_vprintf|intros; apply holds_exit]|apply holds_ret].
  clear - Na0 Na1 Nb0 Nb1. set_solver.
Qed.

(** The process has the descriptors [base] and, when it is open, [fd]. *)
Definition has_open (base : gset Z) (fd : Z) (F : gset Z) : Prop :=
  (fd ∉ base) /\ F = if fd <? 0 then base else {[fd]} ∪ base.

Lemma has_open_close base fd F : (forall x, x ∈ F -> 0 <= x) -> has_open base fd F -> F ∖ {[fd]} = base.
Proof.
  intros N [H E]. apply close_new; [|destruct (Z.ltb_spec fd 0); [by left|by right]].
  intros x Hx. apply N. rewrite E. destruct (fd <? 0); [done|]. apply elem_of_union_r. done.
Qed.

Lemma opens_has_open base fd F : (forall x, x ∈ base -> 0 <= x) -> opens fd base F -> has_open base fd F.
Proof.
  intros N [[H ->]|(H & H' & ->)]; unfold has_open; destruct (Z.ltb_spec fd 0); try lia; split; try done. intros Hx%N. lia.
Qed.

(** Cases that open [fd] anew. *)
Lemma holds_reopen base F path st : has_open base (g_fd st) F -> holds F (
    call (SClose (g_fd st)) ;;
    fd ← call (SOpen path (Z.lor O_CREATE O_RDWR));
    mret (set_g_fd fd st)) (fun st' F' => has_open base (g_fd st') F').
Proof.
  intros H. apply holds_nonneg. intros N. apply holds_step. intros ? F' -> N'. cbn in N'. rewrite (has_open_close base) in * by done.
  apply holds_step. intros fd F'' Ef _. apply holds_ret. by apply opens_has_open.
Qed.

Lemma holds_keep {Q : gstate -> gset Z -> Prop} F (t : prog unit) st : quiet t -> Q st F -> holds F (t ;; mret st) Q.
Proof. intros H HQ. apply holds_quiet; [done|]. intros _. by apply holds_ret. Qed.

Lemma holds_go_what base break0 what F st : has_open base (g_fd st) F ->
  holds F (go_what break0 what st) (fun st' F' => has_open base (g_fd st') F').
Proof.
  intros H. unfold go_what.
  repeat (match goal with |- holds _ (if ?b then _ else _) _ => destruct b; [try (apply holds_keep; [|exact H])|] end);
    try (by apply holds_reopen).
  - apply quiet_touch.
  - apply quiet_touch.
  - repeat quiet_step.
  - apply quiet_go_4.
  - repeat quiet_step.
  - apply holds_step. intros [? bs] ? -> _. by apply holds_ret.
  - repeat quiet_step.
  - repeat quiet_step.
  - repeat quiet_step.
  - repeat quiet_step.
  - apply quiet_bind; [apply quiet_spawn; repeat runs_step|intros ?]. repeat quiet_step.
  - apply quiet_bind; [apply quiet_spawn; repeat runs_step|intros ?]. repeat quiet_step.
  - unfold sbrk. repeat quiet_step.
  - apply quiet_go_16.
  - apply quiet_go_17.
  - apply quiet_go_18.
  - apply quiet_go_19.
  - apply quiet_go_20.
  - apply quiet_go_21.
  - apply quiet_go_22.
  - by apply holds_ret.
Qed.

Lemma holds_go_body base which break0 F st : has_open base (g_fd st) F ->
  holds F (go_body which break0 st) (fun r F' => match r with inl st' => has_open base (g_fd st') F' | inr _ => False end).
Proof.
  intros H. unfold go_body. cbv zeta. apply holds_quiet; [repeat quiet_step|intros _]. destruct (rand (g_rand st)) as [x rn].
  eapply holds_bind; [by apply holds_go_what|]. intros st' F' H' _. by apply holds_ret.
Qed.

Lemma holds_go_turns base which break0 n : forall F st, has_open base (g_fd st) F ->
  holds F (go_turns n which break0 st) (fun st' F' => has_open base (g_fd st') F').
Proof.
  induction n as [|n IH]; intros F st H; [by apply holds_ret|]. cbn [go_turns]. eapply holds_bind; [by apply holds_go_body|].
  intros [st'|?] F' H' _; [by apply IH|done].
Qed.

(** C38 The loop of grind does not leak descriptors: on every kernel,
    whatever it answers, after any number of turns of the loop of go() the
    process has exited, or been killed, or has exactly the descriptors it began
    with and the one in [fd].  Each turn ends; all other files and pipes it
    opens are closed again on every path that goes on, and the children it
    forks never come back into the loop. *)
Theorem go_keeps_descriptors n which break0 rand_next w :
  exists o, ends h (go_turns n which break0 (mk_gstate (-1) (replicate 999 0) 0 rand_next)) w o /\
    match o with
    | Done st w' => (g_fd st ∉ fds w) /\ fds w' = if g_fd st <? 0 then fds w else {[g_fd st]} ∪ fds w
    | Gone _ => True
    end.
Proof.
  apply (holds_go_turns (fds w) which break0 n (fds w)); [|done]. split; [|done]. intros H%fds_nonneg. cbn in H. lia.
Qed.

End Grind.

(** A kernel with descriptors and nothing else: its world is the set of open
    descriptors, fork() is answered in the parent. *)
Definition table (A : Type) (e : sysE A) (w : gset nat) : (A * gset nat) + gset nat :=
  match e in sysE A return (A * gset nat) + gset nat with
  | SExit _ => inr w
  | SExec _ _ => inr w
  | SOpen _ _ => let n := fresh w in inl (Z.of_nat n, {[n]} ∪ w)
  | SDup _ => let n := fresh w in inl (Z.of_nat n, {[n]} ∪ w)
  | SPipe => let n := fresh w in let m := fresh ({[n]} ∪ w) in inl ((0, (Z.of_nat n, Z.of_nat m)), {[n; m]} ∪ w)
  | SClose fd => inl (0, if fd <? 0 then w else w ∖ {[Z.to_nat fd]})
  | SFork => inl (1, w)
  | SWait => inl ((1, 0), w)
  | SWrite _ bs => inl (Z.of_nat (length bs), w)
  | SRead _ n => inl ((1, [104]), w)
  | SFstat _ => inl ((0, mk_stat 1 1 2 1 1), w)
  | _ => inl (0, w)
  end.

Definition table_fds (w : gset nat) : gset Z := set_map Z.of_nat w.

Lemma table_not n w : n ∉ w -> Z.of_nat n ∉ table_fds w.
Proof. intros H (m & E & Hm)%elem_of_map. apply H. by replace n with m by lia. Qed.

Lemma table_add n w : table_fds ({[n]} ∪ w) = {[Z.of_nat n]} ∪ table_fds w.
Proof. unfold table_fds. by rewrite set_map_union_L, set_map_singleton_L. Qed.

Lemma table_opens w : opens (Z.of_nat (fresh w)) (table_fds w) (table_fds ({[fresh w]} ∪ w)).
Proof. right. split; [lia|]. split; [apply table_not, is_fresh|apply table_add]. Qed.

Lemma table_close fd w : table_fds (if fd <? 0 then w else w ∖ {[Z.to_nat fd]}) = table_fds w ∖ {[fd]}.
Proof.
  apply set_eq. intros x. unfold table_fds. rewrite elem_of_difference, !elem_of_map, elem_of_singleton. destruct (Z.ltb_spec fd 0); split.
  - intros (m & -> & Hm). split; [by exists m|lia].
  - by intros [Hm _].
  - intros (m & -> & [Hm Hn]%elem_of_difference). split; [by exists m|]. intros <-. apply Hn. rewrite Nat2Z.id. set_solver.
  - intros [(m & -> & Hm) Hn]. exists m. split; [done|]. apply elem_of_difference. split; [done|]. intros ->%elem_of_singleton. lia.
Qed.

Lemma table_answers {A} (e : sysE A) w :
  (exists w', table A e w = inr w') \/ exists a w', table A e w = inl (a, w') /\ effect e a (table_fds w) (table_fds w').
Proof.
  destruct e; cbn [table effect]; try (by left; eexists); right; eexists _, _; (split; [reflexivity|]); try done; try apply table_opens; [|apply table_close].
  right. set (n := fresh w). set (m := fresh ({[n]} ∪ w)). pose proof (is_fresh w) as Hn. pose proof (is_fresh ({[n]} ∪ w)) as Hm. fold n in Hn. fold m in Hm.
  split_and!; [lia..|by apply table_not|apply table_not; set_solver +Hm|intros E; apply Hm; set_solver by lia|].
  unfold table_fds. by rewrite !set_map_union_L, !set_map_singleton_L.
Qed.

Lemma table_nonneg w fd : fd ∈ table_fds w -> 0 <= fd.
Proof. intros (n & -> & _)%elem_of_map. lia. Qed.

#[export] Instance table_descriptors : Descriptors table :=
  {| fds := table_fds; fds_nonneg := table_nonneg; answers := @table_answers |}.

Lemma go_keeps_descriptors_witness : exists o, ends table (go_turns 40 1 0x4000 (mk_gstate (-1) (replicate 999 0) 0 7176)) {[0%nat; 1%nat; 2%nat]} o /\
  match o with
  | Done st w' => (g_fd st ∉ table_fds {[0%nat; 1%nat; 2%nat]}) /\
      table_fds w' = if g_fd st <? 0 then table_fds {[0%nat; 1%nat; 2%nat]} else {[g_fd st]} ∪ table_fds {[0%nat; 1%nat; 2%nat]}
  | Gone _ => True
  end.
Proof. exact (go_keeps_descriptors (h := table) 40 1 0x4000 7176 {[0%nat; 1%nat; 2%nat]}). Defined.
