(* ===== verification/Tests.v ===== *)
(** * Small test programs (user/forktest.c, user/stressfs.c)

    forktest fills the process table and collects its children.  [Forks]
    states what fork() and wait() promise; on every kernel that keeps the
    promise and has fewer than 1000 free slots, the test passes. *)

From S2P Require Import Prelude Abi User Ulib Uprintf Utils.

(** ** forktest.c *)

Definition FORKN : nat := 1000.

Definition print (s : string) : prog unit :=
  call (SWrite 1 (chars (s +:+ nl))) ;;
  mret tt.

(** The loop that forks, with [k] turns to go: the value of [n] it leaves
    with. *)
Fixpoint fork_loop (k : nat) (n : nat) : prog nat :=
  match k with
  | O => mret n
  | S k' =>
      pid ← call SFork;
      if pid <? 0 then mret n
      else if pid =? 0 then exit 0
      else fork_loop k' (S n)
  end.

(** The loop that waits for [n] children. *)
Fixpoint wait_loop (n : nat) : prog unit :=
  match n with
  | O => mret tt
  | S n' =>
      '(r, _) ← call SWait;
      (if r <? 0 then print "wait stopped early" ;; exit 1 else mret tt) ;;
      wait_loop n'
  end.

Definition forktest : prog unit :=
  print "fork test" ;;
  n ← fork_loop FORKN 0;
  (if (n =? FORKN)%nat then print "fork claimed to work N times!" ;; exit 1 else mret tt) ;;
  wait_loop n ;;
  '(r, _) ← call SWait;
  (if negb (r =? -1) then print "wait got too many" ;; exit 1 else mret tt) ;;
  print "fork test OK".

Definition forktest_main : prog Z := forktest ;; exit 0.

(** ** stressfs.c *)

(** The loop that forks, from [i]: a parent leaves it, a child goes on. *)
Fixpoint stress_fork (k : nat) (i : Z) : prog Z :=
  match k with
  | O => mret i
  | S k' =>
      pid ← call SFork;
      if 0 <? pid then mret i else stress_fork k' (i + 1)
  end.

Definition stressfs_main : prog Z :=
  printf ("stressfs starting" +:+ nl) [] ;;
  let data := memset (replicate 512 0) 97 512 in
  i ← stress_fork 4 0;
  printf ("write %d" +:+ nl) [UInt i] ;;
  let path := chars "stressfs" ++ [u8 (48 + i)] in
  fd ← call (SOpen path (Z.lor O_CREATE O_RDWR));
  for_each (seq 0 20) (fun _ => call (SWrite fd data) ;; mret tt) ;;
  call (SClose fd) ;;
  printf ("read" +:+ nl) [] ;;
  fd ← call (SOpen path O_RDONLY);
  for_each (seq 0 20) (fun _ => call (SRead fd 512) ;; mret tt) ;;
  call (SClose fd) ;;
  call SWait ;;
  exit 0.

(** ** What forktest relies on *)

(** [kids] are the children not yet waited for, [room] the free slots of the
    process table.  fork() returns in the parent or, with 0, in the child. *)
Class Forks {W : Type} (h : forall A, sysE A -> W -> (A * W) + W) := {
  kids : W -> nat;
  room : W -> nat;
  exited : W -> option Z;
  fork_some w : (0 < room w)%nat -> exists pid w', h _ SFork w = inl (pid, w') /\ 0 <= pid /\
    (0 < pid -> kids w' = S (kids w) /\ S (room w') = room w);
  fork_full w : room w = 0%nat -> exists w', h _ SFork w = inl (-1, w') /\ kids w' = kids w /\ room w' = room w;
  wait_some w : (0 < kids w)%nat -> exists pid st w', h _ SWait w = inl ((pid, st), w') /\ 0 < pid /\ S (kids w') = kids w;
  wait_none w : kids w = 0%nat -> exists st w', h _ SWait w = inl ((-1, st), w') /\ kids w' = kids w;
  write_any w fd bs : exists n w', h _ (SWrite fd bs) w = inl (n, w') /\ kids w' = kids w /\ room w' = room w;
  exit_with w st : exists w', h _ (SExit st) w = inr w' /\ exited w' = Some st;
}.

Section Forktest.
Context {W : Type} {h : forall A, sysE A -> W -> (A * W) + W} {K : Forks h}.

Lemma ends_print s w : exists w', ends h (print s) w (Done tt w') /\ kids w' = kids w /\ room w' = room w.
Proof.
  destruct (write_any w 1 (chars (s +:+ nl))) as (n & w' & E & H). exists w'. split; [|done].
  eapply ends_bind; [by apply ends_call|apply ends_ret].
Qed.

Definition exits {A} (t : prog A) (w : W) (st : Z) : Prop := exists w', ends h t w (Gone w') /\ exited w' = Some st.

Lemma exits_exit {A} st w : exits (exit (A := A) st) w st.
Proof. destruct (exit_with w st) as (w' & E & H). exists w'. split; [by apply ends_exit|done]. Qed.

Lemma exits_bind {A B} (t : prog A) (k : A -> prog B) w st : exits t w st -> exits (t ≫= k) w st.
Proof. intros (w' & E & H). exists w'. split; [by apply ends_bind_gone|done]. Qed.

Lemma exits_after {A B} (t : prog A) (k : A -> prog B) w a w' st : ends h t w (Done a w') -> exits (k a) w' st -> exits (t ≫= k) w st.
Proof. intros E (w2 & E2 & H). exists w2. split; [by eapply ends_bind|done]. Qed.

(** The loop forks until the table is full, or is the child of a fork(). *)
Lemma fork_loop_spec k : forall n w, exits (fork_loop k n) w 0 \/
  exists w', ends h (fork_loop k n) w (Done (n + Nat.min k (room w))%nat w') /\ kids w' = (kids w + Nat.min k (room w))%nat.
Proof.
  induction k as [|k IH]; intros n w.
  - right. exists w. rewrite Nat.add_0_r. split; [apply ends_ret|cbn; lia].
  - cbn [fork_loop]. destruct (decide (room w = 0%nat)) as [H0|H0].
    + right. destruct (fork_full w H0) as (w' & E & Hk & _). exists w'. rewrite H0, Nat.min_0_r, !Nat.add_0_r. split; [|done].
      eapply ends_bind; [by apply ends_call|]. apply ends_ret.
    + destruct (fork_some w ltac:(lia)) as (pid & w1 & E & Hp & Hk). destruct (decide (pid = 0)) as [->|Np].
      { left. eapply exits_after; [by apply ends_call|]. apply exits_exit. }
      destruct (Hk ltac:(lia)) as [Hk1 Hr1].
      destruct (IH (S n) w1) as [X|(w' & X & Hw)]; [left|right].
      * eapply exits_after; [by apply ends_call|]. destruct (Z.ltb_spec pid 0); [lia|]. by destruct (Z.eqb_spec pid 0).
      * exists w'. rewrite <- Hr1. replace (n + Nat.min (S k) (S (room w1)))%nat with (S n + Nat.min k (room w1))%nat by (cbn; lia).
        split; [|cbn in *; lia]. eapply ends_bind; [by apply ends_call|]. cbn beta. destruct (Z.ltb_spec pid 0); [lia|]. by destruct (Z.eqb_spec pid 0).
Qed.

Lemma wait_loop_spec n : forall w, (n <= kids w)%nat -> exists w', ends h (wait_loop n) w (Done tt w') /\ (kids w' + n = kids w)%nat.
Proof.
  induction n as [|n IH]; intros w Hn; [exists w; split; [apply ends_ret|lia]|]. cbn [wait_loop].
  destruct (wait_some w ltac:(lia)) as (pid & st & w1 & E & Hp & Hk). destruct (IH w1 ltac:(lia)) as (w' & E' & Hk'). exists w'. split; [|lia].
  eapply ends_bind; [by apply ends_call|]. cbn beta iota. destruct (Z.ltb_spec pid 0); [lia|]. by eapply ends_bind; [apply ends_ret|].
Qed.

(** forktest passes on every kernel whose fork() and wait() keep
    their contract and whose process table has fewer than 1000 free slots: the
    program ends, and the parent and every child exit with status 0.  With 1000
    slots or more the parent exits with status 1. *)
Theorem forktest_passes w : kids w = 0%nat ->
  exits forktest_main w 0 \/ (FORKN <= room w)%nat /\ exits forktest_main w 1.
Proof.
  intros H0. unfold forktest_main, forktest. destruct (ends_print "fork test" w) as (w1 & E1 & Hk1 & Hr1).
  destruct (fork_loop_spec FORKN 0 w1) as [X|(w2 & E2 & Hk2)].
  { left. eapply exits_bind, exits_after; [exact E1|]. by apply exits_bind. }
  rewrite Nat.add_0_l, Hr1 in *. destruct (decide (FORKN <= room w)%nat) as [Hf|Hf]; [right; split; [done|]|left].
  - eapply exits_bind, exits_after; [exact E1|]. eapply exits_after; [exact E2|]. cbn beta. replace (Nat.min FORKN (room w)) with FORKN by lia.
    rewrite Nat.eqb_refl. apply exits_bind. destruct (ends_print "fork claimed to work N times!" w2) as (w3 & E3 & _).
    eapply exits_after; [exact E3|]. apply exits_exit.
  - destruct (wait_loop_spec (Nat.min FORKN (room w)) w2 ltac:(lia)) as (w3 & E3 & Hk3).
    destruct (wait_none w3 ltac:(lia)) as (st & w4 & E4 & _). destruct (ends_print "fork test OK" w4) as (w5 & E5 & _).
    eapply exits_after; [|apply (exits_exit 0 w5)]. eapply ends_bind; [exact E1|]. eapply ends_bind; [exact E2|]. cbn beta.
    destruct (Nat.eqb_spec (Nat.min FORKN (room w)) FORKN); [lia|]. eapply ends_bind; [apply ends_ret|]. eapply ends_bind; [exact E3|].
    eapply ends_bind; [by apply ends_call|]. cbn beta iota. eapply ends_bind; [apply ends_ret|]. exact E5.
Qed.

End Forktest.

(** A process table with [room] slots, seen from the parent. *)
Record slots := mk_slots { sl_kids : nat; sl_room : nat; sl_status : option Z }.

Definition slot_kernel (A : Type) (e : sysE A) (w : slots) : (A * slots) + slots :=
  match e in sysE A return (A * slots) + slots with
  | SFork => if (sl_room w =? 0)%nat then inl (-1, w) else inl (2, mk_slots (S (sl_kids w)) (pred (sl_room w)) (sl_status w))
  | SWait => if (sl_kids w =? 0)%nat then inl ((-1, 0), w) else inl ((2, 0), mk_slots (pred (sl_kids w)) (S (sl_room w)) (sl_status w))
  | SWrite _ bs => inl (Z.of_nat (length bs), w)
  | SExit st => inr (mk_slots (sl_kids w) (sl_room w) (Some st))
  | _ => inr w
  end.

#[export] Instance slot_forks : Forks slot_kernel.
Proof.
  refine {| kids := sl_kids; room := sl_room; exited := sl_status |}.
  - intros w H. unfold slot_kernel. destruct (Nat.eqb_spec (sl_room w) 0); [lia|]. eexists _, _. split; [done|]. cbn. lia.
  - intros w H. unfold slot_kernel. rewrite H. by exists w.
  - intros w H. unfold slot_kernel. destruct (Nat.eqb_spec (sl_kids w) 0); [lia|]. eexists _, _, _. split; [done|]. cbn. lia.
  - intros w H. unfold slot_kernel. rewrite H. by exists 0, w.
  - intros w fd bs. by eexists _, w.
  - intros w st. by eexists.
Defined.

Lemma forktest_passes_witness : exits (h := slot_kernel) forktest_main (mk_slots 0 61 None) 0.
Proof. destruct (forktest_passes (K := slot_forks) (mk_slots 0 61 None) eq_refl) as [H|[H _]]; [exact H|]. cbn in H. unfold FORKN in H. lia. Defined.
