(* ===== verification/Grep.v ===== *)
(** * grep (user/grep.c)

    The matcher of Kernighan and Pike on strings as lists of characters
    without their NUL, and the loop that cuts the input into lines.  The
    matcher is proved equivalent to the usual meaning of its patterns as
    regular expressions, and grep() to a filter of the lines. *)

From S2P Require Import Prelude Abi User Ulib Uprintf UserSpec Utils.

(** ** The matcher *)

(** matchstar() for the rest [re] of the pattern, given as its matcher. *)
Definition matchstar (matchhere_re : list Z -> bool) (c : Z) : list Z -> bool :=
  fix star (text : list Z) : bool :=
    if matchhere_re text then true else
    match text with
    | [] => false
    | t :: text' => if ((t =? c) || (c =? 46))%bool then star text' else false
    end.

Fixpoint matchhere (re : list Z) (text : list Z) : bool :=
  match re with
  | [] => true
  | r0 :: re1 =>
      let next :=
        if ((r0 =? 36) && match re1 with [] => true | _ => false end)%bool then match text with [] => true | _ => false end
        else match text with
             | t :: text' => if ((r0 =? 46) || (r0 =? t))%bool then matchhere re1 text' else false
             | [] => false
             end in
      match re1 with
      | r1 :: re2 => if r1 =? 42 then matchstar (matchhere re2) r0 text else next
      | [] => next
      end
  end.

(** The do-while loop of match() over the positions of the text. *)
Fixpoint match_from (re : list Z) (text : list Z) : bool :=
  if matchhere re text then true else
  match text with
  | [] => false
  | _ :: text' => match_from re text'
  end.

Definition match_ (re text : list Z) : bool :=
  match re with
  | r0 :: re1 => if r0 =? 94 then matchhere re1 text else match_from re text
  | [] => match_from re text
  end.

(** ** The loop over the input *)

(** The inner loop: [p] is the start of the next line. *)
Definition grep_line (pattern : list Z) (x : list Z * Z) : prog (list Z * Z + list Z * Z) :=
  let '(buf, p) := x in
  match strchr (drop (Z.to_nat p) buf) 10 with
  | None => mret (inr (buf, p))
  | Some suffix =>
      let q := Z.of_nat (length buf) - Z.of_nat (length suffix) in
      let buf := zupd buf q 0 in
      if match_ pattern (cstr (drop (Z.to_nat p) buf)) then
        let buf := zupd buf q 10 in
        call (SWrite 1 (take (Z.to_nat (q + 1 - p)) (drop (Z.to_nat p) buf))) ;;
        mret (inl (buf, q + 1))
      else mret (inl (buf, q + 1))
  end.

Definition grep_body (pattern : list Z) (fd : Z) (x : list Z * Z) : prog (list Z * Z + unit) :=
  let '(buf, m) := x in
  '(n, bs) ← call (SRead fd (1024 - m - 1));
  if 0 <? n then
    let buf := fill buf (Z.to_nat m) bs in
    let m := m + n in
    let buf := zupd buf m 0 in
    '(buf, p) ← loop (grep_line pattern) (buf, 0);
    if 0 <? m then mret (inl (memmove buf 0 p (m - p), m - p)) else mret (inl (buf, m))
  else mret (inr tt).

Definition grep (pattern : list Z) (fd : Z) : prog unit := loop (grep_body pattern fd) (replicate 1024 0, 0).

Definition grep_main (argv : list (list Z)) : prog Z :=
  if (length argv <=? 1)%nat then fprintf 2 ("usage: grep pattern [file ...]" +:+ nl) [] ;; exit 1 else
  let pattern := arg argv 1 in
  if (length argv <=? 2)%nat then grep pattern 0 ;; exit 0 else
  for_each (drop 2 argv) (fun a =>
    fd ← call (SOpen a O_RDONLY);
    if fd <? 0 then printf ("grep: cannot open %s" +:+ nl) [str a] ;; exit 1 else
    grep pattern fd ;;
    call (SClose fd) ;;
    mret tt) ;;
  exit 0.

(** ** Patterns as regular expressions *)

Inductive atom := Any | Lit (c : Z).
Inductive item := One (a : atom) | Many (a : atom).

Definition to_atom (c : Z) : atom := if c =? 46 then Any else Lit c.
Definition atom_has (a : atom) (c : Z) : Prop := match a with Any => True | Lit x => c = x end.

(** The items of a pattern after [^], and whether it ends in [$]. *)
Fixpoint to_items (re : list Z) : list item * bool :=
  match re with
  | [] => ([], false)
  | r0 :: re1 =>
      match re1 with
      | r1 :: re2 =>
          if r1 =? 42 then let '(l, e) := to_items re2 in (Many (to_atom r0) :: l, e)
          else let '(l, e) := to_items re1 in (One (to_atom r0) :: l, e)
      | [] => if r0 =? 36 then ([], true) else ([One (to_atom r0)], false)
      end
  end.

(** The words of an item and of a sequence of items. *)
Definition item_lang (i : item) (w : list Z) : Prop :=
  match i with
  | One a => exists c, w = [c] /\ atom_has a c
  | Many a => Forall (atom_has a) w
  end.

Fixpoint lang (l : list item) (w : list Z) : Prop :=
  match l with
  | [] => w = []
  | i :: l' => exists w1 w2, w = w1 ++ w2 /\ item_lang i w1 /\ lang l' w2
  end.

(** What a pattern means: some factor of the text is in the language, at the
    start and at the end of the text if the pattern is anchored there. *)
Definition has_match (re text : list Z) : Prop :=
  let '(bol, body) := match re with r0 :: re1 => if r0 =? 94 then (true, re1) else (false, re) | [] => (false, re) end in
  let '(l, eol) := to_items body in
  exists pre w post, text = pre ++ w ++ post /\ lang l w /\ (bol = true -> pre = []) /\ (eol = true -> post = []).

(** A match at the start of [text]. *)
Definition here (x : list item * bool) (text : list Z) : Prop :=
  exists w post, text = w ++ post /\ lang x.1 w /\ (x.2 = true -> post = []).

Lemma atom_test c t : ((t =? c) || (c =? 46))%bool = true <-> atom_has (to_atom c) t.
Proof.
  unfold to_atom. destruct (Z.eqb_spec c 46) as [->|N]; cbn.
  - by rewrite orb_true_r.
  - rewrite orb_false_r. apply Z.eqb_eq.
Qed.

Lemma here_one c l e text :
  here (One (to_atom c) :: l, e) text <-> exists t text', text = t :: text' /\ atom_has (to_atom c) t /\ here (l, e) text'.
Proof.
  split.
  - intros (w & post & -> & (w1 & w2 & -> & (t & -> & Ht) & Hl) & He). exists t, (w2 ++ post). split; [done|]. split; [done|].
    exists w2, post. done.
  - intros (t & text' & -> & Ht & (w & post & -> & Hl & He)). exists (t :: w), post. split; [done|]. split; [|done].
    exists [t], w. split; [done|]. split; [by exists t|done].
Qed.

Lemma here_many c l e text : here (Many (to_atom c) :: l, e) text <->
  exists w rest, text = w ++ rest /\ Forall (atom_has (to_atom c)) w /\ here (l, e) rest.
Proof.
  split.
  - intros (w & post & -> & (w1 & w2 & -> & H1 & Hl) & He). exists w1, (w2 ++ post). rewrite app_assoc. split; [done|].
    split; [done|]. exists w2, post. done.
  - intros (w & rest & -> & Hw & (w2 & post & -> & Hl & He)). exists (w ++ w2), post. rewrite app_assoc. split; [done|].
    split; [|done]. exists w, w2. done.
Qed.

Lemma matchstar_spec f c (P : list Z -> Prop) : (forall t, f t = true <-> P t) ->
  forall text, matchstar f c text = true <-> exists w rest, text = w ++ rest /\ Forall (atom_has (to_atom c)) w /\ P rest.
Proof.
  intros Hf. induction text as [|t text IH]; cbn [matchstar].
  - destruct (f []) eqn:E.
    + split; [|done]. intros _. exists [], []. rewrite <- Hf. done.
    + split; [done|]. intros (w & rest & X & _ & Y). symmetry in X. apply app_eq_nil in X as [-> ->]. apply Hf in Y. congruence.
  - destruct (f (t :: text)) eqn:E.
    { split; [|done]. intros _. exists [], (t :: text). rewrite <- Hf. done. }
    destruct ((t =? c) || (c =? 46))%bool eqn:B.
    + rewrite IH. apply atom_test in B. split.
      * intros (w & rest & -> & Hw & Hr). exists (t :: w), rest. split; [done|]. split; [by constructor|done].
      * intros ([|x w] & rest & X & Hw & Hr); simplify_eq/=; [apply Hf in Hr; congruence|].
        inversion Hw. eauto.
    + split; [done|]. intros ([|x w] & rest & X & Hw & Hr); simplify_eq/=; [apply Hf in Hr; congruence|].
      inversion Hw as [|? ? Ha]; subst. apply atom_test in Ha. congruence.
Qed.

Lemma matchhere_spec n : forall re, (length re <= n)%nat -> forall text, matchhere re text = true <-> here (to_items re) text.
Proof.
  induction n as [|n IH]; intros [|r0 re1] Hn text; try (cbn in Hn; lia).
  1, 2: split; [|done]; intros _; exists [], text; done.
  assert (forall l e, (forall text', matchhere re1 text' = true <-> here (l, e) text') ->
    match text with t :: text' => if ((r0 =? 46) || (r0 =? t))%bool then matchhere re1 text' else false | [] => false end = true <->
    here (One (to_atom r0) :: l, e) text) as Next.
  { intros l e He. rewrite here_one. destruct text as [|t text']; [split; [done|by intros (? & ? & ? & _)]|].
    rewrite orb_comm, (Z.eqb_sym r0 t). destruct ((t =? r0) || (r0 =? 46))%bool eqn:B.
    - rewrite He. apply atom_test in B. split; [intros; by exists t, text'|]. intros (? & ? & ? & _ & H); by simplify_eq.
    - split; [done|]. intros (? & ? & ? & Ha & _); simplify_eq. apply atom_test in Ha. congruence. }
  cbn [length] in Hn. destruct re1 as [|r1 re2].
  - cbn [matchhere to_items]. destruct (Z.eqb_spec r0 36) as [->|N]; cbn [andb].
    + destruct text as [|t text]; split; try done; [intros _; by exists [], []|].
      intros (w & post & X & -> & He). by rewrite He in X.
    + apply (Next [] false). intros text'. split; [|done]. intros _. by exists [], text'.
  - change (matchhere (r0 :: r1 :: re2) text) with
      (if r1 =? 42 then matchstar (matchhere re2) r0 text else
       if ((r0 =? 36) && false)%bool then match text with [] => true | _ => false end
       else match text with t :: text' => if ((r0 =? 46) || (r0 =? t))%bool then matchhere (r1 :: re2) text' else false | [] => false end).
    change (to_items (r0 :: r1 :: re2)) with
      (if r1 =? 42 then let '(l, e) := to_items re2 in (Many (to_atom r0) :: l, e)
       else let '(l, e) := to_items (r1 :: re2) in (One (to_atom r0) :: l, e)).
    rewrite andb_false_r. destruct (r1 =? 42).
    + destruct (to_items re2) as [l e] eqn:E. rewrite here_many. apply matchstar_spec. intros t. rewrite <- E. apply IH. cbn in Hn. lia.
    + destruct (to_items (r1 :: re2)) as [l e] eqn:E. apply Next. intros t. rewrite <- E. apply IH. cbn in *. lia.
Qed.

Lemma match_from_spec re text : match_from re text = true <-> exists pre rest, text = pre ++ rest /\ here (to_items re) rest.
Proof.
  induction text as [|t text IH]; cbn [match_from].
  - destruct (matchhere re []) eqn:E.
    + split; [|done]. intros _. exists [], []. split; [done|]. by apply (matchhere_spec (length re)).
    + split; [done|]. intros (pre & rest & X & H). symmetry in X. apply app_eq_nil in X as [-> ->].
      apply (matchhere_spec (length re)) in H; [congruence|done].
  - destruct (matchhere re (t :: text)) eqn:E.
    { split; [|done]. intros _. exists [], (t :: text). split; [done|]. by apply (matchhere_spec (length re)). }
    rewrite IH. split.
    + intros (pre & rest & -> & H). by exists (t :: pre), rest.
    + intros ([|x pre] & rest & X & H); simplify_eq/=; [|by exists pre, rest].
      apply (matchhere_spec (length re)) in H; [congruence|done].
Qed.

(** C29 The matcher of grep decides the regular expression its pattern
    denotes: match() returns 1 exactly when the text has a factor in the
    language of the items of the pattern ([.] any character, [c*] any number
    of [c]), at the beginning of the text when the pattern starts with [^]
    and at its end when the pattern ends with [$]. *)
Theorem match_regexp re text : match_ re text = true <-> has_match re text.
Proof.
  assert (forall bol body, (if bol : bool then matchhere body text = true else match_from body text = true) <->
    (let '(l, eol) := to_items body in
     exists pre w post, text = pre ++ w ++ post /\ lang l w /\ (bol = true -> pre = []) /\ (eol = true -> post = []))) as H.
  { intros [] body.
    - rewrite (matchhere_spec (length body)) by done. destruct (to_items body) as [l e]. split.
      + intros (w & post & -> & Hl & He). by exists [], w, post.
      + intros (pre & w & post & -> & Hl & Hb & He). rewrite Hb by done. by exists w, post.
    - rewrite match_from_spec. destruct (to_items body) as [l e]. split.
      + intros (pre & rest & -> & w & post & -> & Hl & He). by exists pre, w, post.
      + intros (pre & w & post & -> & Hl & _ & He). exists pre, (w ++ post). split; [done|]. by exists w, post. }
  unfold match_, has_match. destruct re as [|r0 re1]; [apply (H false)|].
  destruct (r0 =? 94); [apply (H true)|apply (H false)].
Qed.

(** ** Lines *)

(** A text cut into its complete lines, without their newlines, and what
    follows the last newline. *)
Fixpoint cut (t : list Z) : list (list Z) * list Z :=
  match t with
  | [] => ([], [])
  | c :: t' =>
      let '(ls, r) := cut t' in
      if c =? 10 then ([] :: ls, r)
      else match ls with l :: ls' => ((c :: l) :: ls', r) | [] => ([], c :: r) end
  end.

(** The lines that match, as grep prints them. *)
Definition selected (re : list Z) (ls : list (list Z)) : list Z :=
  concat (map (fun l => l ++ [10]) (List.filter (match_ re) ls)).

Lemma selected_app re l1 l2 : selected re (l1 ++ l2) = selected re l1 ++ selected re l2.
Proof. unfold selected. by rewrite List.filter_app, map_app, concat_app. Qed.

Lemma cut_plain r : (10 ∉ r) -> forall t, cut (r ++ t) =
  match cut t with (l :: ls, r') => ((r ++ l) :: ls, r') | ([], r') => ([], r ++ r') end.
Proof.
  induction r as [|c r IH]; intros N t; cbn [app cut]; [by destruct (cut t) as [[|] ?]|].
  apply not_elem_of_cons in N as [Nc N]. rewrite (IH N t). destruct (Z.eqb_spec c 10); [done|].
  by destruct (cut t) as [[|l ls] r'].
Qed.

Lemma cut_none r : (10 ∉ r) -> cut r = ([], r).
Proof. intros N. rewrite <- (app_nil_r r) at 1. rewrite cut_plain by done. cbn. by rewrite app_nil_r. Qed.

Lemma cut_rest t : 10 ∉ (cut t).2.
Proof.
  induction t as [|c t IH]; cbn [cut]; [apply not_elem_of_nil|]. destruct (cut t) as [[|l ls] r]; cbn in *.
  - destruct (Z.eqb_spec c 10); cbn; [done|]. apply not_elem_of_cons. done.
  - by destruct (c =? 10).
Qed.

Lemma cut_nonzero t : Forall (fun x => x <> 0) t -> Forall (fun x => x <> 0) (cut t).2.
Proof.
  induction 1 as [|c t Hc _ IH]; cbn [cut]; [constructor|]. destruct (cut t) as [[|l ls] r]; cbn in *.
  - destruct (Z.eqb_spec c 10); cbn; [done|]. by constructor.
  - by destruct (c =? 10).
Qed.

Lemma cut_line l t : (10 ∉ l) -> cut (l ++ 10 :: t) = (l :: (cut t).1, (cut t).2).
Proof. intros N. rewrite cut_plain by done. cbn. destruct (cut t) as [ls r]. cbn. by rewrite app_nil_r. Qed.

(** Cutting a text that arrives in two parts. *)
Lemma cut_app t1 t2 : cut (t1 ++ t2) =
  let '(ls, r) := cut t1 in let '(ls', r') := cut (r ++ t2) in (ls ++ ls', r').
Proof.
  induction t1 as [|c t1 IH]; cbn [app cut]; [by destruct (cut t2)|]. rewrite IH. clear IH.
  pose proof (cut_rest t1) as Hr. destruct (cut t1) as [ls r]. cbn in Hr.
  destruct (Z.eqb_spec c 10) as [->|N]; [by destruct (cut (r ++ t2))|].
  destruct ls as [|l ls]; [|by destruct (cut (r ++ t2))].
  cbn [app cut]. destruct (Z.eqb_spec c 10); [done|]. destruct (cut (r ++ t2)) as [[|l' ls'] r']; done.
Qed.

Lemma cut_longest t1 t2 n : Forall (fun l => (length l < n)%nat) ((cut (t1 ++ t2)).1) -> (length (cut (t1 ++ t2)).2 < n)%nat ->
  (length (cut t1).2 < n)%nat.
Proof.
  rewrite cut_app. pose proof (cut_rest t1) as Hr. destruct (cut t1) as [ls r]. cbn in Hr |- *. rewrite cut_plain by done.
  destruct (cut t2) as [[|l ls'] r']; cbn; intros F H.
  - rewrite length_app in H. lia.
  - apply Forall_app in F as [_ F]. apply Forall_cons_1 in F as [F _]. rewrite length_app in F. lia.
Qed.

(** The first newline. *)
Lemma split_newline d : (10 ∉ d) \/ exists l d', d = l ++ 10 :: d' /\ 10 ∉ l.
Proof.
  induction d as [|c d IH]; [left; apply not_elem_of_nil|]. destruct (Z.eq_dec c 10) as [->|N].
  - right. exists [], d. split; [done|apply not_elem_of_nil].
  - destruct IH as [H|(l & d' & -> & H)].
    + left. by apply not_elem_of_cons.
    + right. exists (c :: l), d'. split; [done|]. by apply not_elem_of_cons.
Qed.

Lemma strchr_none d tl : (10 ∉ d) -> Forall (fun x => x <> 0) d -> strchr (d ++ 0 :: tl) 10 = None.
Proof.
  intros N F. induction F as [|c d Hc _ IH]; [done|]. apply not_elem_of_cons in N as [Nc N]. cbn [app strchr].
  destruct (Z.eqb_spec c 0); [done|]. destruct (Z.eqb_spec c 10); [congruence|by apply IH].
Qed.

Lemma strchr_some l tl : (10 ∉ l) -> Forall (fun x => x <> 0) l -> strchr (l ++ 10 :: tl) 10 = Some (10 :: tl).
Proof.
  intros N F. induction F as [|c d Hc _ IH]; [done|]. apply not_elem_of_cons in N as [Nc N]. cbn [app strchr].
  destruct (Z.eqb_spec c 0); [done|]. destruct (Z.eqb_spec c 10); [congruence|by apply IH].
Qed.

Lemma cstr_app l tl : Forall (fun x => x <> 0) l -> cstr (l ++ 0 :: tl) = l.
Proof.
  intros F. assert (strlen (l ++ 0 :: tl) = length l) as E.
  { induction F as [|c d Hc _ IH]; [done|]. cbn. destruct (Z.eqb_spec c 0); [done|]. by rewrite IH. }
  unfold cstr. by rewrite E, take_app_length.
Qed.

Lemma zupd_app (pre : list Z) x tl y : zupd (pre ++ x :: tl) (Z.of_nat (length pre)) y = pre ++ y :: tl.
Proof. unfold zupd. rewrite Nat2Z.id. rewrite insert_app_r_alt by lia. by rewrite Nat.sub_diag. Qed.

(** ** grep() as a filter *)

Section Filter.
Context {W : Type} {h : forall A, sysE A -> W -> (A * W) + W} {F : Files h}.

(** One line: it is printed if it matches; otherwise a NUL replaces its
    newline. *)
Lemma grep_line_step re pre l tl w : (10 ∉ l) -> Forall (fun x => x <> 0) l ->
  exists x w1, ends h (grep_line re (pre ++ l ++ 10 :: tl, Z.of_nat (length pre))) w
      (Done (inl ((pre ++ l ++ [x]) ++ tl, Z.of_nat (length (pre ++ l ++ [x])))) w1) /\
    wrote 1 (if match_ re l then l ++ [10] else []) w w1.
Proof.
  intros N Hl. unfold grep_line. rewrite Nat2Z.id, drop_app_length, strchr_some by done.
  replace (Z.of_nat (length (pre ++ l ++ 10 :: tl)) - Z.of_nat (length (10 :: tl))) with (Z.of_nat (length (pre ++ l)))
    by (rewrite !length_app; cbn; lia).
  rewrite !(app_assoc pre l). rewrite !zupd_app. rewrite <- !(app_assoc pre l). rewrite !drop_app_length, cstr_app by done.
  assert (forall x, Z.of_nat (length (pre ++ l)) + 1 = Z.of_nat (length (pre ++ l ++ [x]))) as El
    by (intros; rewrite !length_app; cbn; lia).
  destruct (match_ re l).
  - destruct (write_all w 1 (l ++ [10])) as (w1 & X & I1 & O1). exists 10, w1. split; [|done].
    replace (Z.to_nat (Z.of_nat (length (pre ++ l)) + 1 - Z.of_nat (length pre))) with (length (l ++ [10]))
      by (rewrite !length_app; cbn; lia).
    replace (take (length (l ++ [10])) (l ++ 10 :: tl)) with (l ++ [10])
      by (change (l ++ 10 :: tl) with (l ++ [10] ++ tl); by rewrite app_assoc, take_app_length).
    eapply ends_bind; [by apply ends_call|]. rewrite (El 10), <- !app_assoc. apply ends_ret.
  - exists 0, w. split; [|apply wrote_nil]. rewrite (El 0), <- !app_assoc. apply ends_ret.
Qed.

(** The inner loop on a buffer with the data [d] from index [length pre] on:
    it prints the complete lines that match, and stops at the rest. *)
Lemma grep_line_loop re tl : forall k d pre w, (length d <= k)%nat -> Forall (fun x => x <> 0) d ->
  exists pre' w', ends h (loop (grep_line re) (pre ++ d ++ 0 :: tl, Z.of_nat (length pre))) w
      (Done (pre' ++ (cut d).2 ++ 0 :: tl, Z.of_nat (length pre')) w') /\
    length (pre' ++ (cut d).2) = length (pre ++ d) /\ wrote 1 (selected re (cut d).1) w w'.
Proof.
  induction k as [|k IH]; intros d pre w Hk Hd.
  { destruct d as [|? ?]; [|cbn in Hk; lia]. exists pre, w. split; [|split; [done|apply wrote_nil]].
    apply ends_loop_exit. unfold grep_line. rewrite Nat2Z.id, drop_app_length. apply ends_ret. }
  destruct (split_newline d) as [N|(l & d' & -> & N)].
  { exists pre, w. rewrite cut_none by done. split; [|split; [done|apply wrote_nil]].
    apply ends_loop_exit. unfold grep_line. rewrite Nat2Z.id, drop_app_length, strchr_none by done. apply ends_ret. }
  apply Forall_app in Hd as [Hl Hd']. apply Forall_cons_1 in Hd' as [_ Hd']. rewrite cut_line by done.
  destruct (grep_line_step re pre l (d' ++ 0 :: tl) w N Hl) as (x & w1 & E1 & Wr1).
  rewrite length_app in Hk. cbn in Hk.
  destruct (IH d' (pre ++ l ++ [x]) w1 ltac:(lia) Hd') as (pre' & w' & E & L & Wr). exists pre', w'. split; [|split].
  - rewrite <- app_assoc. by eapply ends_loop.
  - cbn [snd]. rewrite L, !length_app. cbn. lia.
  - cbn [fst]. change (l :: (cut d').1) with ([l] ++ (cut d').1). rewrite selected_app.
    apply (wrote_app 1 _ _ w w1 w'); [|done]. unfold selected. cbn [List.filter]. destruct (match_ re l); [|done].
    cbn. by rewrite app_nil_r.
Qed.

(** The rest of a line moves to the front of the buffer. *)
Lemma move_rest pre r tl : let buf := pre ++ r ++ tl in
  length (memmove buf 0 (Z.of_nat (length pre)) (Z.of_nat (length r))) = length buf /\
  take (length r) (memmove buf 0 (Z.of_nat (length pre)) (Z.of_nat (length r))) = r.
Proof.
  intros buf. assert (length buf = (length pre + length r + length tl)%nat) as Lb by (unfold buf; rewrite !length_app; lia).
  destruct (memmove_spec buf 0 (Z.of_nat (length pre)) (Z.of_nat (length r))) as [L E]; try lia. split; [done|].
  apply (nth_ext _ _ 0 0); [rewrite length_take; lia|]. intros i Hi. rewrite length_take in Hi.
  specialize (E (Z.of_nat i) ltac:(lia)). rewrite decide_True in E by lia. unfold znth in E. rewrite Nat2Z.id in E.
  rewrite nth_lookup, lookup_take_lt, <- nth_lookup by lia. rewrite E. unfold buf. rewrite app_nth2 by lia. rewrite app_nth1 by lia. f_equal. lia.
Qed.

(** The state of the outer loop after the input [don]: the buffer starts with
    the unfinished line, and the complete lines are filtered. *)
Definition grep_inv (re : list Z) (fd : Z) (w0 : W) (don : list Z) (x : list Z * Z) (w : W) : Prop :=
  let '(buf, m) := x in let r := (cut don).2 in
  input w0 fd = don ++ input w fd /\ length buf = 1024%nat /\ m = Z.of_nat (length r) /\ take (length r) buf = r /\
  output w 1 = output w0 1 ++ selected re (cut don).1.

Lemma grep_chunk re fd w0 don buf m w bs w1 : grep_inv re fd w0 don (buf, m) w -> (length (cut don).2 < 1023)%nat ->
  Forall (fun x => x <> 0) (input w0 fd) -> bs <> [] -> Z.of_nat (length bs) <= 1024 - m - 1 ->
  input w fd = bs ++ input w1 fd -> h _ (SRead fd (1024 - m - 1)) w = inl ((Z.of_nat (length bs), bs), w1) ->
  (forall fd', output w1 fd' = output w fd') ->
  exists x' w', ends h (grep_body re fd (buf, m)) w (Done (inl x') w') /\ grep_inv re fd w0 (don ++ bs) x' w' /\ input w' fd = input w1 fd.
Proof.
  intros (I0 & Lb & -> & Tk & O0) Hr Nz Nb Hb I1 X O1. pose proof (cut_app don bs) as Ec.
  destruct (cut don) as [ls r] eqn:Ed. cbn [snd fst] in *.
  rewrite I0, I1 in Nz. apply Forall_app in Nz as [Nd Nz]. apply Forall_app in Nz as [Nz _].
  assert (Forall (fun x => x <> 0) (r ++ bs)) as Nrb.
  { apply Forall_app. split; [|done]. pose proof (cut_nonzero don Nd) as X1. by rewrite Ed in X1. }
  set (tl := drop (length r + length bs + 1) buf).
  assert (zupd (fill buf (Z.to_nat (Z.of_nat (length r))) bs) (Z.of_nat (length r) + Z.of_nat (length bs)) 0 = [] ++ (r ++ bs) ++ 0 :: tl) as Eb.
  { unfold fill. rewrite Nat2Z.id, Tk. replace (Z.of_nat (length r) + Z.of_nat (length bs)) with (Z.of_nat (length (r ++ bs)))
      by (rewrite length_app; lia).
    destruct (drop (length r + length bs) buf) as [|y tl0] eqn:Ey; [apply (f_equal length) in Ey; rewrite length_drop in Ey; cbn in Ey; lia|].
    rewrite app_assoc, zupd_app. cbn [app]. do 2 f_equal. unfold tl. rewrite <- drop_drop, Ey. done. }
  destruct (grep_line_loop re tl (length (r ++ bs)) (r ++ bs) [] w1 ltac:(done) Nrb) as (pre' & w2 & E2 & L2 & Wr2).
  destruct (cut (r ++ bs)) as [ls' r'] eqn:Erb. cbn [fst snd] in E2, L2, Wr2.
  eexists _, w2. split; [|split; [|apply Wr2]].
  - eapply ends_bind; [by apply ends_call|]. cbn beta iota zeta.
    destruct (Z.ltb_spec 0 (Z.of_nat (length bs))) as [_|C]; [|destruct bs; [done|cbn in C; lia]].
    rewrite Eb. eapply ends_bind; [exact E2|]. cbn beta iota.
    destruct (Z.ltb_spec 0 (Z.of_nat (length r) + Z.of_nat (length bs))) as [_|C]; [|destruct bs; [done|cbn in C; lia]].
    apply ends_ret.
  - unfold grep_inv. rewrite Ec. cbn [fst snd]. rewrite !length_app in L2. cbn in L2.
    replace (Z.of_nat (length r) + Z.of_nat (length bs) - Z.of_nat (length pre')) with (Z.of_nat (length r')) by lia.
    destruct (move_rest pre' r' (0 :: tl)) as [M1 M2]. split; [|split; [|split; [done|split; [exact M2|]]]].
    + rewrite I0, I1, (proj1 Wr2). by rewrite app_assoc.
    + rewrite M1, !length_app. cbn. unfold tl. rewrite length_drop. lia.
    + rewrite (proj2 Wr2), decide_True, O1, O0, selected_app by done. by rewrite app_assoc.
Qed.

End Filter.

(** C30 grep filters lines: [grep pattern] on a standard input whose
    lines, and whose unfinished last line, are shorter than 1023 characters
    and contain no NUL terminates with status 0, however the input is cut
    into reads, and prints exactly the complete lines that the pattern
    matches, in order; what follows the last newline is ignored. *)
Theorem grep_filters {W} {h : forall A, sysE A -> W -> (A * W) + W} {F : Files h} re w :
  Forall (fun x => x <> 0) (input w 0) ->
  Forall (fun l => (length l < 1023)%nat) (cut (input w 0)).1 -> (length (cut (input w 0)).2 < 1023)%nat ->
  exists w', ends h (grep_main [chars "grep"; re]) w (Gone w') /\ status w' = Some 0 /\
    output w' 1 = output w 1 ++ selected re (cut (input w 0)).1.
Proof.
  intros Nz Hl Hr.
  destruct (read_loop (grep_body re 0) 0 (fun x => 1024 - x.2 - 1)
    (fun don x w' => grep_inv re 0 w don x w' /\ (length (cut don).2 < 1023)%nat)
    (fun _ w' => output w' 1 = output w 1 ++ selected re (cut (input w 0)).1))
    with (s := (replicate 1024 0, 0)) (w := w) as (u & w1 & X & O1).
  - intros don [buf m] w1 [(_ & _ & -> & _) H]. cbn [snd]. lia.
  - intros don [buf m] w1 bs w2 [I H] Nb Hb I1 X O1. cbn [snd] in *.
    destruct (grep_chunk re 0 w don buf m w1 bs w2 I H Nz Nb Hb I1 X O1) as (x' & w' & E & I' & J). exists x', w'.
    split; [done|]. split; [split; [done|]|done]. destruct x' as [buf' m']. destruct I' as (I' & _).
    rewrite I' in Hl, Hr. by eapply cut_longest.
  - intros don [buf m] w1 w2 [(I0 & _ & _ & _ & O0) _] E0 X O1. exists tt, w2. split.
    + eapply ends_bind; [by apply ends_call|apply ends_ret].
    + rewrite O1, O0, I0, E0. by rewrite app_nil_r.
  - split; [|cbn; lia]. unfold grep_inv. cbn. rewrite app_nil_r. done.
  - destruct (exit_gone w1 0) as (w2 & Y & S & O2). exists w2. split; [|split; [done|by rewrite O2]].
    destruct u. eapply ends_bind; [exact X|]. by apply ends_exit.
Qed.

Lemma grep_filters_witness : exists w', ends streams (grep_main [chars "grep"; chars "^s.*t$"]) (with_input 0 sample [2; 0; 7]%nat) (Gone w') /\
  w_output w' 1 = chars ("sample  text" +:+ nl).
Proof.
  destruct (grep_filters (h := streams) (chars "^s.*t$") (with_input 0 sample [2; 0; 7]%nat)) as (w' & X & _ & Y).
  - change (Forall (fun x => x <> 0) sample). repeat constructor; done.
  - change (Forall (fun l => (length l < 1023)%nat) (cut sample).1). repeat constructor; apply Nat.ltb_lt; reflexivity.
  - apply Nat.ltb_lt. reflexivity.
  - exists w'. split; [exact X|]. etransitivity; [exact Y|]. vm_compute. reflexivity.
Defined.
