(* ===== verification/Umalloc.v ===== *)
(** * The storage allocator of user programs (user/umalloc.c)

    The circular free list of Kernighan and Ritchie.  [ptr] and [siz] are the
    two fields of the header at an address, sizes count headers of 16 bytes,
    and [base] is the address of the static header the list starts with.  The
    loops are those of the source; that they end is part of the theorems. *)

From S2P Require Import Prelude User Ulib.

Definition SBRK_ERROR : Z := 2 ^ 64 - 1.
Definition HDR : Z := 16.

(** The headers and the static variable [freep]. *)
Record ualloc := mk_ualloc {
  u_ptr : gmap Z Z;
  u_siz : gmap Z Z;
  u_freep : Z;
}.

Definition ptr (s : ualloc) (a : Z) : Z := default 0 (u_ptr s !! a).
Definition siz (s : ualloc) (a : Z) : Z := default 0 (u_siz s !! a).
Definition set_ptr (a v : Z) (s : ualloc) : ualloc := mk_ualloc (<[a := v]> (u_ptr s)) (u_siz s) (u_freep s).
Definition set_siz (a v : Z) (s : ualloc) : ualloc := mk_ualloc (u_ptr s) (<[a := u32 v]> (u_siz s)) (u_freep s).
Definition set_freep (v : Z) (s : ualloc) : ualloc := mk_ualloc (u_ptr s) (u_siz s) v.

(** The [for] of free(): the header after which [bp] belongs. *)
Definition free_search (s : ualloc) (bp : Z) : Z -> prog Z :=
  loop (fun p =>
    if ((p <? bp) && (bp <? ptr s p))%bool then mret (inr p)
    else if ((ptr s p <=? p) && ((p <? bp) || (bp <? ptr s p)))%bool then mret (inr p)
    else mret (inl (ptr s p))).

(** Linking [bp] after [p], with the two joins. *)
Definition free_link (s : ualloc) (bp p : Z) : ualloc :=
  let s :=
    if bp + HDR * siz s bp =? ptr s p
    then let s' := set_siz bp (siz s bp + siz s (ptr s p)) s in set_ptr bp (ptr s' (ptr s' p)) s'
    else set_ptr bp (ptr s p) s in
  let s :=
    if p + HDR * siz s p =? bp
    then let s' := set_siz p (siz s p + siz s bp) s in set_ptr p (ptr s' bp) s'
    else set_ptr p bp s in
  set_freep p s.

Definition free (s : ualloc) (ap : Z) : prog ualloc :=
  let bp := ap - HDR in
  p ← free_search s bp (u_freep s);
  mret (free_link s bp p).

(** morecore(): the new [freep], or 0. *)
Definition morecore (s : ualloc) (nu : Z) : prog (ualloc * Z) :=
  let nu := if nu <? 4096 then 4096 else nu in
  p ← sbrk (s32 (nu * HDR));
  if p =? SBRK_ERROR then mret (s, 0) else
  let s := set_siz p nu s in
  s ← free s (p + HDR);
  mret (s, u_freep s).

(** Taking [nunits] from the block [p] after [prevp]: the block or its tail. *)
Definition carve (s : ualloc) (prevp p nunits : Z) : ualloc * Z :=
  if siz s p =? nunits then (set_freep prevp (set_ptr prevp (ptr s p) s), p + HDR)
  else
    let s := set_siz p (siz s p - nunits) s in
    let p := p + HDR * siz s p in
    (set_freep prevp (set_siz p nunits s), p + HDR).

Definition malloc_scan (nunits : Z) : ualloc * Z * Z -> prog (ualloc * Z) :=
  loop (fun '(s, prevp, p) =>
    if nunits <=? siz s p then mret (inr (carve s prevp p nunits))
    else if p =? u_freep s then
      '(s, p) ← morecore s nunits;
      if p =? 0 then mret (inr (s, 0)) else mret (inl (s, p, ptr s p))
    else mret (inl (s, p, ptr s p))).

Definition malloc (base : Z) (s : ualloc) (nbytes : Z) : prog (ualloc * Z) :=
  let nunits := u32 ((nbytes + HDR - 1) / HDR + 1) in
  let s := if u_freep s =? 0 then set_siz base 0 (set_ptr base base (set_freep base s)) else s in
  let prevp := u_freep s in
  malloc_scan nunits (s, prevp, ptr s prevp).
