(* ===== verification/UmallocSpec.v ===== *)
(** * Correctness of malloc() and free()

    The free list is abstracted to the list of its blocks in address order,
    from the static header on; the blocks that are in use are a second list.
    [heap_ok] says that the two are apart from each other and that the headers
    in memory represent them.  malloc() and free() keep it. *)

From S2P Require Import Prelude Abi User Ulib Umalloc.

(** ** Blocks *)

(** A block: the address of its header and its size in headers. *)
Definition blk : Type := Z * Z.
Definition bend (b : blk) : Z := b.1 + HDR * b.2.

(** Two blocks of the free list in order: not even adjacent. *)
Definition gap (x y : blk) : Prop := bend x < y.1.
Definition apart (x y : blk) : Prop := bend x <= y.1 \/ bend y <= x.1.

Fixpoint sorted (l : list blk) : Prop :=
  match l with
  | [] => True
  | x :: l' => Forall (gap x) l' /\ sorted l'
  end.

Lemma sorted_app l1 l2 : sorted (l1 ++ l2) <-> sorted l1 /\ sorted l2 /\ forall x y, x ∈ l1 -> y ∈ l2 -> gap x y.
Proof.
  induction l1 as [|a l1 IH]; cbn [app sorted].
  - split; [|tauto]. intros H. split; [done|]. split; [done|]. intros x y Hx. by apply not_elem_of_nil in Hx.
  - rewrite Forall_app, IH. split.
    + intros [[F1 F2] (S1 & S2 & G)]. split; [done|]. split; [done|]. intros x y Hx Hy.
      apply elem_of_cons in Hx as [->|Hx]; [|by apply G]. rewrite Forall_forall in F2. by apply F2.
    + intros [[F1 S1] (S2 & G)]. split; [split; [done|]|].
      * apply Forall_forall. intros y Hy. apply G; [apply elem_of_cons; by left|done].
      * split; [done|]. split; [done|]. intros x y Hx Hy. apply G; [apply elem_of_cons; by right|done].
Qed.

(** ** Linked paths *)

Fixpoint path (f : Z -> Z) (l : list Z) : Prop :=
  match l with
  | a :: (b :: _) as t => f a = b /\ path f t
  | _ => True
  end.

Lemma path_app f l1 x l2 : path f (l1 ++ x :: l2) <-> path f (l1 ++ [x]) /\ path f (x :: l2).
Proof.
  induction l1 as [|a l1 IH]; [cbn; tauto|]. destruct l1 as [|b l1]; [cbn; tauto|].
  change ((a :: b :: l1) ++ x :: l2) with (a :: b :: (l1 ++ x :: l2)).
  change ((a :: b :: l1) ++ [x]) with (a :: b :: (l1 ++ [x])). cbn [path]. cbn [app] in IH. tauto.
Qed.

(** The last pointer does not matter. *)
Lemma path_ext f g l z : (forall a, a ∈ l -> g a = f a) -> path f (l ++ [z]) -> path g (l ++ [z]).
Proof.
  induction l as [|a l IH]; intros E P; [done|]. destruct l as [|b l].
  - cbn in *. rewrite E; [done|]. apply elem_of_cons. by left.
  - change ((a :: b :: l) ++ [z]) with (a :: b :: (l ++ [z])) in *. destruct P as [P1 P2]. split.
    + rewrite E; [done|]. apply elem_of_cons. by left.
    + apply IH; [|done]. intros c Hc. apply E. apply elem_of_cons. by right.
Qed.

(** ** Headers *)

Lemma ptr_set_ptr a v s c : ptr (set_ptr a v s) c = if decide (c = a) then v else ptr s c.
Proof. unfold ptr, set_ptr. cbn. case_decide as E; [subst; by rewrite lookup_insert_eq|by rewrite lookup_insert_ne]. Qed.

Lemma siz_set_siz a v s c : siz (set_siz a v s) c = if decide (c = a) then u32 v else siz s c.
Proof. unfold siz, set_siz. cbn. case_decide as E; [subst; by rewrite lookup_insert_eq|by rewrite lookup_insert_ne]. Qed.

Lemma ptr_set_siz a v s c : ptr (set_siz a v s) c = ptr s c.
Proof. done. Qed.
Lemma siz_set_ptr a v s c : siz (set_ptr a v s) c = siz s c.
Proof. done. Qed.
Lemma ptr_set_freep v s c : ptr (set_freep v s) c = ptr s c.
Proof. done. Qed.
Lemma siz_set_freep v s c : siz (set_freep v s) c = siz s c.
Proof. done. Qed.

Ltac headers := repeat first [rewrite ptr_set_freep | rewrite siz_set_freep | rewrite ptr_set_siz | rewrite siz_set_ptr | rewrite ptr_set_ptr | rewrite siz_set_siz].

Section Alloc.
Variable base : Z.

(** A list of blocks, the static header included, as memory has it. *)
Record ring (s : ualloc) (F : list blk) : Prop := {
  ri_sorted : sorted F;
  ri_path : path (ptr s) (map fst F ++ [base]);
  ri_siz b : b ∈ F -> siz s b.1 = b.2;
  ri_pos b : b ∈ F -> 0 <= b.2;
}.

(** The list [l] of free blocks after the static header. *)
Record free_ok (s : ualloc) (l : list blk) : Prop := {
  fo_ring : ring s ((base, 0) :: l);
  fo_pos b : b ∈ l -> 1 <= b.2;
  fo_freep : u_freep s ∈ base :: map fst l;
}.

(** All blocks end below the break; sizes fit in a uint. *)
Definition LIMIT : Z := 2 ^ 36.

(** [live] has the blocks in use: the address of the header and the size. *)
Record heap_ok (s : ualloc) (l : list blk) (live : gmap Z Z) (brk : Z) : Prop := {
  ho_free : free_ok s l;
  ho_base : 0 < base < brk;
  ho_brk : brk < LIMIT;
  ho_end b : b ∈ l -> bend b <= brk;
  ho_live a n : live !! a = Some n -> base < a /\ 1 <= n /\ bend (a, n) <= brk /\ siz s a = n;
  ho_apart b a n : b ∈ l -> live !! a = Some n -> apart b (a, n);
  ho_lives a n a' n' : live !! a = Some n -> live !! a' = Some n' -> a <> a' -> apart (a, n) (a', n');
}.

(** ** The search of free() *)

Section Search.
Context {W : Type} (h : forall A, sysE A -> W -> (A * W) + W).

(** Addresses that grow. *)
Fixpoint upward (l : list Z) : Prop :=
  match l with
  | a :: (b :: _) as t => a < b /\ upward t
  | _ => True
  end.

Lemma upward_hd x mid : upward (mid ++ [x]) -> hd x mid <= x.
Proof.
  induction mid as [|b mid IH]; cbn [hd app]; [lia|]. intros U. assert (b < hd x mid /\ upward (mid ++ [x])) as [H1 H2].
  { destruct mid; cbn in U |- *; tauto. }
  specialize (IH H2). lia.
Qed.

(** Below [bp] the search moves up to the last header before it. *)
Lemma search_up s bp x y w : x < bp -> (bp < y \/ y <= x) ->
  forall mid, path (ptr s) (mid ++ [x; y]) -> upward (mid ++ [x]) ->
  ends h (free_search s bp (hd x mid)) w (Done x w).
Proof.
  intros Hx Hy. induction mid as [|a mid IH]; intros P U.
  - cbn in P |- *. destruct P as [Px _]. apply ends_loop_exit. rewrite Px.
    destruct (Z.ltb_spec x bp); [|lia]. destruct (Z.ltb_spec bp y); [apply ends_ret|]. cbn [andb].
    destruct (Z.leb_spec y x); [apply ends_ret|lia].
  - cbn [hd]. assert (ptr s a = hd x mid /\ path (ptr s) (mid ++ [x; y]) /\ a < hd x mid /\ upward (mid ++ [x])) as (Pa & P' & Ua & U').
    { destruct mid; cbn in P, U |- *; tauto. }
    pose proof (upward_hd x mid U') as Hle.
    eapply ends_loop; [|exact (IH P' U')]. rewrite Pa.
    destruct (Z.ltb_spec a bp); [|lia]. destruct (Z.ltb_spec bp (hd x mid)); [lia|]. cbn [andb].
    destruct (Z.leb_spec (hd x mid) a); [lia|]. apply ends_ret.
Qed.

(** Above [bp] it moves to the end of the list and on to its start. *)
Lemma search_down s bp w o : base < bp -> ends h (free_search s bp base) w o ->
  forall a mid, path (ptr s) ((a :: mid) ++ [base]) -> upward (a :: mid) -> bp < a ->
  ends h (free_search s bp a) w o.
Proof.
  intros Hb E a mid. revert a. induction mid as [|b mid IH]; intros a P U Ha.
  - destruct P as [Pa _]. eapply ends_loop; [|exact E]. rewrite Pa.
    destruct (Z.ltb_spec a bp); [lia|]. cbn [andb]. destruct (Z.leb_spec base a); [|lia]. destruct (Z.ltb_spec bp base); [lia|].
    cbn [andb orb]. apply ends_ret.
  - destruct P as [Pa P]. destruct U as [Ua U]. eapply ends_loop; [|apply (IH b P U); lia]. rewrite Pa.
    destruct (Z.ltb_spec a bp); [lia|]. cbn [andb]. destruct (Z.leb_spec b a); [lia|]. cbn [andb]. apply ends_ret.
Qed.

Lemma upward_app l1 l2 : upward (l1 ++ l2) -> upward l1 /\ upward l2.
Proof.
  induction l1 as [|a l1 IH]; intros U; [done|]. destruct l1 as [|b l1].
  - split; [done|]. destruct l2; [done|]. apply U.
  - destruct U as [Ua U]. destruct (IH U). done.
Qed.

Lemma sorted_upward l : sorted l -> Forall (fun b => 0 <= b.2) l -> upward (map fst l).
Proof.
  induction l as [|x l IH]; intros S F; [done|]. destruct S as [G S]. apply Forall_cons_1 in F as [Fx F].
  destruct l as [|y l]; [done|]. split; [|by apply IH].
  apply Forall_cons_1 in G as [G _]. unfold gap, bend, HDR in G. cbn in *. lia.
Qed.

Lemma free_upward s l : free_ok s l -> upward (base :: map fst l).
Proof.
  intros O. apply (sorted_upward ((base, 0) :: l)); [apply (fo_ring _ _ O)|].
  apply Forall_forall. apply (fo_ring _ _ O).
Qed.

(** The search from any header of the list ends at the last header before [bp]. *)
Lemma free_search_ends s l1 l2 bp p w : free_ok s (l1 ++ l2) -> base < bp ->
  Forall (fun b => b.1 < bp) l1 -> Forall (fun b => bp < b.1) l2 -> p ∈ base :: map fst (l1 ++ l2) ->
  ends h (free_search s bp p) w (Done (List.last (base :: map fst l1) base) w).
Proof.
  intros O Hb F1 F2 Hp. pose proof (free_upward s _ O) as U. pose proof (ri_path _ _ (fo_ring _ _ O)) as P. cbn [map fst app] in P.
  rewrite map_app in *. set (x := List.last (base :: map fst l1) base).
  assert (exists A0, base :: map fst l1 = A0 ++ [x]) as [A0 EA] by (exists (removelast (base :: map fst l1)); by apply app_removelast_last).
  clearbody x. assert (x < bp) as Hx.
  { assert (x ∈ base :: map fst l1) as H by (rewrite EA; apply elem_of_app; right; apply elem_of_cons; by left).
    apply elem_of_cons in H as [->|H]; [done|]. apply list_elem_of_fmap in H as (b & -> & H). rewrite Forall_forall in F1. by apply F1. }
  assert ((base :: map fst l1) ++ map fst l2 ++ [base] = A0 ++ [x; hd base (map fst l2)] ++ tail (map fst l2 ++ [base])) as EC
    by (rewrite EA, <- !app_assoc; cbn; by destruct l2).
  assert (path (ptr s) (A0 ++ [x; hd base (map fst l2)])) as P1.
  { change (base :: (map fst l1 ++ map fst l2) ++ [base]) with (((base :: map fst l1) ++ map fst l2) ++ [base]) in P.
    rewrite <- app_assoc, EC in P. cbn [app] in P. rewrite path_app in P. destruct P as [Pa Pb].
    rewrite path_app. split; [done|]. destruct Pb as [Pb _]. done. }
  change (base :: map fst l1 ++ map fst l2) with ((base :: map fst l1) ++ map fst l2) in U, Hp.
  assert (bp < hd base (map fst l2) \/ hd base (map fst l2) <= x) as Hy.
  { destruct l2 as [|b l2]; [right|left; by apply Forall_cons_1 in F2 as [F2 _]]. cbn [hd map].
    rewrite app_nil_r, EA in U. apply upward_hd in U. destruct A0; cbn in EA, U; simplify_eq; lia. }
  assert (forall A1 A2, A0 ++ [x] = A1 ++ A2 -> ends h (free_search s bp (hd x A2)) w (Done x w)) as Up.
  { intros A1 A2 E. destruct A2 as [|a A2]; [apply (search_up s bp x _ w Hx Hy []); [|done]|].
    - rewrite path_app in P1. apply P1.
    - destruct (exists_last (l := a :: A2)) as (A3 & z & EA2); [done|]. rewrite EA2 in E |- *.
      rewrite app_assoc in E. apply app_inj_tail in E as [-> <-]. replace (hd x (A3 ++ [x])) with (hd x A3) by by destruct A3.
      apply (search_up s bp x _ w Hx Hy A3).
      + rewrite <- app_assoc in P1. destruct A3 as [|c A3]; [rewrite app_nil_l in P1; rewrite path_app in P1; apply P1|].
        cbn [app] in P1. rewrite path_app in P1. apply P1.
      + rewrite EA in U. apply upward_app in U as [U _]. rewrite <- app_assoc in U. by apply upward_app in U as [_ U]. }
  apply elem_of_app in Hp as [Hp|Hp].
  - rewrite EA in Hp. apply list_elem_of_split in Hp as (A1 & A2 & E). rewrite <- (app_nil_l A2) in E. apply (Up A1 (p :: A2)). done.
  - assert (ends h (free_search s bp base) w (Done x w)) as E0.
    { pose proof (Up [] (A0 ++ [x]) eq_refl) as E. rewrite <- EA in E. exact E. }
    apply list_elem_of_split in Hp as (A1 & A2 & E). apply (search_down s bp w _ Hb E0 p A2).
    + change (base :: (map fst l1 ++ map fst l2) ++ [base]) with (((base :: map fst l1) ++ map fst l2) ++ [base]) in P.
      rewrite E in P. rewrite <- !app_assoc in P. cbn [app] in P.
      change (base :: map fst l1 ++ A1 ++ p :: A2 ++ [base]) with ((base :: map fst l1) ++ A1 ++ p :: A2 ++ [base]) in P.
      rewrite app_assoc, path_app in P. apply P.
    + rewrite E in U. apply upward_app in U as [_ U]. by apply upward_app in U as [_ U].
    + assert (p ∈ map fst l2) as H by (rewrite E; apply elem_of_app; right; apply elem_of_cons; by left).
      apply list_elem_of_fmap in H as (b & -> & H). rewrite Forall_forall in F2. by apply F2.
Qed.

End Search.

(** ** The joins of free() *)

(** [b] with the block right after it, and with the block right before it. *)
Definition join_right (b : blk) (l2 : list blk) : blk * list blk :=
  match l2 with
  | y :: l3 => if bend b =? y.1 then ((b.1, b.2 + y.2), l3) else (b, l2)
  | [] => (b, [])
  end.
Definition join_left (x b : blk) : list blk := if bend x =? b.1 then [(x.1, x.2 + b.2)] else [x; b].

Definition next (l : list blk) : Z := hd base (map fst l).

Definition right_half (s : ualloc) (bp p : Z) : ualloc :=
  if bp + HDR * siz s bp =? ptr s p
  then let s' := set_siz bp (siz s bp + siz s (ptr s p)) s in set_ptr bp (ptr s' (ptr s' p)) s'
  else set_ptr bp (ptr s p) s.
Definition left_half (s : ualloc) (bp p : Z) : ualloc :=
  if p + HDR * siz s p =? bp
  then let s' := set_siz p (siz s p + siz s bp) s in set_ptr p (ptr s' bp) s'
  else set_ptr p bp s.

Lemma free_link_halves s bp p : free_link s bp p = set_freep p (left_half (right_half s bp p) bp p).
Proof. done. Qed.

Lemma ring_next s A x l2 : ring s (A ++ x :: l2) -> ptr s x.1 = next l2.
Proof.
  intros R. pose proof (ri_path _ _ R) as P. rewrite map_app, <- app_assoc in P. cbn [map app] in P.
  rewrite path_app in P. destruct P as [_ P]. unfold next. destruct l2; apply P.
Qed.

Lemma ring_tail s A x l2 : ring s (A ++ x :: l2) -> path (ptr s) (map fst l2 ++ [base]).
Proof.
  intros R. pose proof (ri_path _ _ R) as P. rewrite map_app, <- app_assoc in P. cbn [map app] in P.
  rewrite path_app in P. destruct P as [_ P]. destruct l2 as [|y l2]; [done|]. apply P.
Qed.

Lemma ring_head s A x l2 : ring s (A ++ x :: l2) -> path (ptr s) (map fst A ++ [x.1]).
Proof.
  intros R. pose proof (ri_path _ _ R) as P. rewrite map_app, <- app_assoc in P. cbn [map app] in P.
  rewrite path_app in P. apply P.
Qed.

(** [b] can be inserted between [x] and [l2]. *)
Record fits (x b : blk) (l2 : list blk) : Prop := {
  fi_base : base < b.1;
  fi_lt : x.1 < b.1;
  fi_pos : 1 <= b.2;
  fi_left : bend x <= b.1;
  fi_right y : y ∈ l2 -> bend b <= y.1;
  fi_limit y : y ∈ x :: b :: l2 -> 0 <= y.1 /\ bend y < LIMIT;
}.

Lemma right_half_spec s A x l2 b : ring s (A ++ x :: l2) -> siz s b.1 = b.2 -> fits x b l2 ->
  let s1 := right_half s b.1 x.1 in let '(b', r) := join_right b l2 in
  siz s1 b.1 = b'.2 /\ ptr s1 b.1 = next r /\ forall a, a <> b.1 -> ptr s1 a = ptr s a /\ siz s1 a = siz s a.
Proof.
  intros R Sb Fi. cbv zeta. unfold right_half. rewrite (ring_next s A x l2 R), Sb. change (b.1 + HDR * b.2) with (bend b).
  assert (forall v a, a <> b.1 -> ptr (set_ptr b.1 v s) a = ptr s a) as Other
    by (intros v a N; rewrite ptr_set_ptr, decide_False by done; done).
  destruct l2 as [|y l3]; cbn [join_right next hd map].
  - destruct (Z.eqb_spec (bend b) base) as [E|_].
    { pose proof (fi_base _ _ _ Fi). pose proof (fi_pos _ _ _ Fi). unfold bend, HDR in E. lia. }
    split; [done|]. split; [by rewrite ptr_set_ptr, decide_True|]. eauto.
  - destruct (Z.eqb_spec (bend b) y.1) as [E|N].
    + assert (y ∈ A ++ x :: y :: l3) as Hy by (rewrite elem_of_app, !elem_of_cons; tauto).
      pose proof (ri_siz _ _ R y Hy) as Sy. pose proof (ri_pos _ _ R y Hy) as Py.
      assert (y.1 <> b.1) as Nyb by (pose proof (fi_pos _ _ _ Fi); unfold bend, HDR in E; lia).
      rewrite Sy, ptr_set_siz, siz_set_ptr, ptr_set_siz. cbn [fst snd]. split; [|split].
      * rewrite siz_set_siz, decide_True by done. apply u32_small.
        destruct (fi_limit _ _ _ Fi y) as [_ L]; [rewrite !elem_of_cons; tauto|]. pose proof (fi_base _ _ _ Fi). pose proof (fi_pos _ _ _ Fi).
        destruct (fi_limit _ _ _ Fi b) as [Hb0 _]; [rewrite !elem_of_cons; tauto|].
        unfold bend, HDR, LIMIT in *. lia.
      * rewrite ptr_set_ptr, decide_True by done. change (x.1) with (x.1). rewrite (ring_next s A x (y :: l3) R).
        change (next (y :: l3)) with y.1. apply (ring_next s (A ++ [x]) y l3). by rewrite <- app_assoc.
      * intros a Na. rewrite ptr_set_ptr, siz_set_ptr, siz_set_siz, !decide_False by done. done.
    + split; [done|]. split; [by rewrite ptr_set_ptr, decide_True|]. eauto.
Qed.

Lemma join_right_facts x b l2 b' r : join_right b l2 = (b', r) -> sorted l2 -> fits x b l2 -> (forall y, y ∈ l2 -> 0 <= y.2) ->
  b'.1 = b.1 /\ b.2 <= b'.2 /\ bend b' < LIMIT /\ Forall (gap b') r /\ sorted r /\ forall z, z ∈ r -> z ∈ l2.
Proof.
  intros E S Fi Pos. pose proof (fi_pos _ _ _ Fi) as Pb.
  destruct (fi_limit _ _ _ Fi b) as [_ Lb]; [rewrite !elem_of_cons; tauto|]. destruct l2 as [|y l3]; cbn in E; simplify_eq.
  { do 5 (split; [done|]). done. }
  destruct S as [Gy S3]. destruct (Z.eqb_spec (bend b) y.1) as [Ey|N]; simplify_eq.
  - assert (bend (b.1, b.2 + y.2) = bend y) as Eb by (unfold bend, HDR in *; cbn [fst snd]; lia).
    destruct (fi_limit _ _ _ Fi y) as [_ Ly]; [rewrite !elem_of_cons; tauto|].
    assert (0 <= y.2) by (apply Pos; rewrite elem_of_cons; tauto).
    split; [done|]. split; [cbn; lia|]. split; [by rewrite Eb|]. split; [|split; [done|]].
    + eapply Forall_impl; [exact Gy|]. intros z. unfold gap. by rewrite Eb.
    + intros z Hz. apply elem_of_cons. by right.
  - split; [done|]. split; [lia|]. split; [done|]. split; [|done].
    pose proof (fi_right _ _ _ Fi y ltac:(rewrite elem_of_cons; tauto)) as Hy.
    constructor; [unfold gap; lia|]. eapply Forall_impl; [exact Gy|]. intros z. unfold gap.
    assert (0 <= y.2) by (apply Pos; rewrite elem_of_cons; tauto). unfold bend, HDR in *. lia.
Qed.

Lemma join_right_path f l2 b b' r : join_right b l2 = (b', r) -> path f (map fst l2 ++ [base]) -> path f (map fst r ++ [base]).
Proof.
  intros E P. destruct l2 as [|y l3]; cbn in E; simplify_eq; [done|]. destruct (bend b =? y.1); simplify_eq; [|done].
  destruct r; apply P.
Qed.

Lemma join_left_sorted A x b' r : sorted (A ++ [x]) -> (forall a z, a ∈ A -> z ∈ r -> gap a z) -> 0 <= x.2 -> 1 <= b'.2 ->
  bend x <= b'.1 -> Forall (gap b') r -> sorted r -> sorted (A ++ join_left x b' ++ r).
Proof.
  intros S GA Px Pb Lx Gb Sr. apply sorted_app in S as (SA & _ & Gx). assert (forall a, a ∈ A -> gap a x) as Gx'.
  { intros a Ha. apply Gx; [done|]. apply elem_of_cons. by left. }
  unfold join_left. destruct (Z.eqb_spec (bend x) b'.1) as [E|N]; cbn [app].
  - assert (bend (x.1, x.2 + b'.2) = bend b') as Eb by (unfold bend, HDR in *; cbn [fst snd]; lia).
    apply sorted_app. split; [done|]. split; [split; [|done]|].
    + eapply Forall_impl; [exact Gb|]. intros z. unfold gap. by rewrite Eb.
    + intros a z Ha Hz. apply elem_of_cons in Hz as [->|Hz]; [by apply Gx'|by apply GA].
  - assert (gap x b') as Gxb by (unfold gap; lia). assert (forall z, z ∈ r -> gap x z) as Gxr.
    { intros z Hz. rewrite Forall_forall in Gb. specialize (Gb z Hz). unfold gap, bend, HDR in *. lia. }
    apply sorted_app. split; [done|]. split; [split; [constructor; [done|by apply Forall_forall]|by split]|].
    intros a z Ha Hz. specialize (Gx' a Ha). apply elem_of_cons in Hz as [->|Hz]; [done|].
    apply elem_of_cons in Hz as [->|Hz]; [|by apply GA]. unfold gap, bend, HDR in *. lia.
Qed.

(** The state after linking, in terms of the fields of the headers. *)
Lemma free_link_fields s A x l2 b b' r : ring s (A ++ x :: l2) -> siz s b.1 = b.2 -> fits x b l2 -> join_right b l2 = (b', r) ->
  bend b' < LIMIT -> 1 <= b'.2 ->
  let s2 := free_link s b.1 x.1 in
  (forall a, a <> x.1 -> a <> b.1 -> ptr s2 a = ptr s a /\ siz s2 a = siz s a) /\
  (if bend x =? b.1 then ptr s2 x.1 = next r /\ siz s2 x.1 = x.2 + b'.2
   else ptr s2 x.1 = b.1 /\ siz s2 x.1 = x.2 /\ ptr s2 b.1 = next r /\ siz s2 b.1 = b'.2).
Proof.
  intros R Sb Fi Ej Lb Pb s2. pose proof (right_half_spec s A x l2 b R Sb Fi) as H. cbv zeta in H. rewrite Ej in H.
  destruct H as (S1 & P1 & O1). unfold s2. rewrite free_link_halves. set (s1 := right_half s b.1 x.1) in *. clearbody s1.
  pose proof (fi_lt _ _ _ Fi) as Hxb. assert (x.1 <> b.1) as N by lia.
  assert (siz s1 x.1 = x.2) as Sx.
  { rewrite (proj2 (O1 _ N)). apply R. rewrite elem_of_app, elem_of_cons. tauto. }
  assert (0 <= x.2) as Px by (apply (ri_pos _ _ R); rewrite elem_of_app, elem_of_cons; tauto).
  unfold left_half. rewrite Sx. change (x.1 + HDR * x.2) with (bend x). destruct (Z.eqb_spec (bend x) b.1) as [E|Nx].
  - split.
    + intros a Na Nb. headers. rewrite !decide_False by done. by apply O1.
    + headers. rewrite !decide_True by done. split; [done|]. rewrite S1. apply u32_small.
      destruct (fi_limit _ _ _ Fi x) as [X0 _]; [rewrite elem_of_cons; tauto|].
      assert (b'.1 = b.1) as Eb by (destruct l2 as [|y l3]; cbn in Ej; [|destruct (bend b =? y.1)]; simplify_eq; done).
      pose proof (fi_base _ _ _ Fi). unfold bend, HDR, LIMIT in *. lia.
  - split.
    + intros a Na Nb. headers. rewrite !decide_False by done. by apply O1.
    + headers. rewrite decide_True by done. rewrite decide_False by done. auto.
Qed.

(** Linking [b] gives the ring with [b] joined to its neighbours. *)
Lemma free_link_ring s A x l2 b b' r : ring s (A ++ x :: l2) -> siz s b.1 = b.2 -> fits x b l2 -> join_right b l2 = (b', r) ->
  ring (free_link s b.1 x.1) (A ++ join_left x b' ++ r).
Proof.
  intros R Sb Fi Ej. pose proof (ri_sorted _ _ R) as So. assert (forall z, z ∈ A ++ x :: l2 -> 0 <= z.2) as Pos by apply R.
  pose proof So as So'. apply sorted_app in So' as (SA & [Gx S2] & GA).
  destruct (join_right_facts x b l2 b' r Ej S2 Fi) as (B1 & B2 & B3 & B4 & B5 & B6).
  { intros y Hy. apply Pos. rewrite elem_of_app, elem_of_cons. tauto. }
  pose proof (fi_pos _ _ _ Fi) as Pb. pose proof (fi_left _ _ _ Fi) as Lx. pose proof (fi_lt _ _ _ Fi) as Hxb.
  destruct (free_link_fields s A x l2 b b' r R Sb Fi Ej B3 ltac:(lia)) as [Old New]. set (s2 := free_link s b.1 x.1) in *. clearbody s2.
  assert (0 <= x.2) as Px by (apply Pos; rewrite elem_of_app, elem_of_cons; tauto).
  assert (forall a, a ∈ A \/ a ∈ r -> ptr s2 a.1 = ptr s a.1 /\ siz s2 a.1 = siz s a.1) as Same.
  { intros a [Ha|Ha]; apply Old.
    1, 2: assert (gap a x) as G by (apply GA; [done|rewrite elem_of_cons; tauto]);
      assert (0 <= a.2) by (apply Pos; rewrite elem_of_app; tauto); unfold gap, bend, HDR in G; lia.
    all: pose proof (fi_right _ _ _ Fi a (B6 a Ha)); unfold bend, HDR in *; lia. }
  assert (path (ptr s2) (map fst r ++ [base])) as Pr.
  { apply (path_ext (ptr s)); [|apply (join_right_path _ l2 b b'); [done|by eapply ring_tail]].
    intros a Ha. apply list_elem_of_fmap in Ha as (z & -> & Hz). apply Same. by right. }
  assert (path (ptr s2) (map fst A ++ [x.1])) as PA.
  { apply (path_ext (ptr s)); [|by eapply ring_head].
    intros a Ha. apply list_elem_of_fmap in Ha as (z & -> & Hz). apply Same. by left. }
  assert (forall c, path (ptr s2) (c :: map fst r ++ [base]) <-> ptr s2 c = next r) as Pc.
  { intros c. unfold next. destruct r; cbn in *; tauto. }
  split.
  - apply join_left_sorted; try done; [|intros a z Ha Hz; apply GA; [done|rewrite elem_of_cons; auto]|lia|lia].
    replace (A ++ x :: l2) with ((A ++ [x]) ++ l2) in So by (by rewrite <- app_assoc). apply sorted_app in So. apply So.
  - unfold join_left. rewrite B1, !map_app, <- !app_assoc. destruct (bend x =? b.1); cbn [map fst app]; rewrite path_app; (split; [done|]).
    + apply Pc, New.
    + destruct New as (N1 & _ & N3 & _). split; [by rewrite B1|]. rewrite B1. by apply Pc.
  - intros z Hz. rewrite !elem_of_app in Hz. destruct Hz as [Hz|[Hz|Hz]].
    1, 3: rewrite (proj2 (Same z ltac:(tauto))); apply (ri_siz _ _ R); rewrite elem_of_app, elem_of_cons; auto.
    unfold join_left in Hz. rewrite B1 in Hz. destruct (bend x =? b.1); rewrite !elem_of_cons, elem_of_nil in Hz.
    + destruct Hz as [->|[]]. apply New.
    + destruct New as (_ & N2 & _ & N4). destruct Hz as [->|[->|[]]]; [done|by rewrite B1].
  - intros z Hz. rewrite !elem_of_app in Hz. destruct Hz as [Hz|[Hz|Hz]].
    1, 3: apply Pos; rewrite elem_of_app, elem_of_cons; auto.
    unfold join_left in Hz. destruct (bend x =? b'.1); rewrite !elem_of_cons, elem_of_nil in Hz; destruct Hz as [->|Hz]; cbn; try lia.
    destruct Hz as [->|[]]. lia.
Qed.

(** ** free() on the whole heap *)

(** What holds of the blocks and is kept by joins holds after them. *)
Definition closed (Q : blk -> Prop) : Prop := forall u v, Q u -> Q v -> bend u = v.1 -> Q (u.1, u.2 + v.2).

Lemma join_right_closed Q b l2 b' r : closed Q -> join_right b l2 = (b', r) -> Q b -> (forall z, z ∈ l2 -> Q z) ->
  Q b' /\ forall z, z ∈ r -> Q z.
Proof.
  intros J E Qb Q2. destruct l2 as [|y l3]; cbn in E; simplify_eq; [done|].
  destruct (Z.eqb_spec (bend b) y.1); simplify_eq; [|done].
  split; [apply J; [done|apply Q2, elem_of_cons; by left|done]|]. intros z Hz. apply Q2, elem_of_cons. by right.
Qed.

Lemma join_left_closed Q x b : closed Q -> Q x -> Q b -> forall z, z ∈ join_left x b -> Q z.
Proof.
  intros J Qx Qb z. unfold join_left. destruct (Z.eqb_spec (bend x) b.1); rewrite !elem_of_cons, elem_of_nil.
  - intros [->|[]]. by apply J.
  - by intros [->|[->|[]]].
Qed.

(** The addresses in the blocks. *)
Definition covers (l : list blk) (a : Z) : Prop := exists b, b ∈ l /\ b.1 <= a < bend b.

Lemma covers_app l1 l2 a : covers (l1 ++ l2) a <-> covers l1 a \/ covers l2 a.
Proof.
  unfold covers. split.
  - intros (b & H & Hb). apply elem_of_app in H as [H|H]; eauto.
  - intros [(b & H & Hb)|(b & H & Hb)]; exists b; rewrite elem_of_app; auto.
Qed.

Lemma covers_cons b l a : covers (b :: l) a <-> b.1 <= a < bend b \/ covers l a.
Proof.
  unfold covers. split.
  - intros (c & H & Hc). apply elem_of_cons in H as [->|H]; eauto.
  - intros [H|(c & H & Hc)]; [exists b|exists c]; rewrite elem_of_cons; auto.
Qed.

Lemma covers_nil a : ~ covers [] a.
Proof. intros (b & H & _). by apply not_elem_of_nil in H. Qed.

Lemma join_range u v a : bend u = v.1 -> 0 <= u.2 -> 0 <= v.2 ->
  u.1 <= a < bend (u.1, u.2 + v.2) <-> u.1 <= a < bend u \/ v.1 <= a < bend v.
Proof. unfold bend, HDR. cbn [fst snd]. lia. Qed.

Lemma join_right_covers b l2 b' r a : join_right b l2 = (b', r) -> 0 <= b.2 -> (forall z, z ∈ l2 -> 0 <= z.2) ->
  covers (b' :: r) a <-> b.1 <= a < bend b \/ covers l2 a.
Proof.
  intros E Pb P2. destruct l2 as [|y l3]; cbn in E; simplify_eq; [by rewrite covers_cons|].
  destruct (Z.eqb_spec (bend b) y.1) as [Ey|N]; simplify_eq; rewrite !covers_cons; [|tauto].
  cbn [fst]. rewrite (join_range b y) by (done || apply P2, elem_of_cons; by left). tauto.
Qed.

Lemma join_left_covers x b r a : 0 <= x.2 -> 0 <= b.2 ->
  covers (join_left x b ++ r) a <-> x.1 <= a < bend x \/ covers (b :: r) a.
Proof.
  intros Px Pb. unfold join_left. destruct (Z.eqb_spec (bend x) b.1) as [E|N]; cbn [app]; rewrite !covers_cons; [|tauto].
  cbn [fst]. rewrite (join_range x b) by done. tauto.
Qed.

Lemma apart_closed y : 1 <= y.2 -> closed (fun z => apart z y).
Proof. intros Py u v Hu Hv E. unfold apart, bend, HDR in *. cbn [fst snd]. lia. Qed.

Lemma pos_closed : closed (fun z => 1 <= z.2).
Proof. intros u v Hu Hv E. cbn. lia. Qed.

Lemma end_closed m : closed (fun z => bend z <= m).
Proof. intros u v Hu Hv E. unfold bend, HDR in *. cbn [fst snd]. lia. Qed.

(** A sorted list splits at an address that no block starts at. *)
Lemma split_at l bp : sorted l -> (forall z, z ∈ l -> 0 <= z.2 /\ z.1 <> bp) ->
  exists l1 l2, l = l1 ++ l2 /\ Forall (fun b => b.1 < bp) l1 /\ Forall (fun b => bp < b.1) l2.
Proof.
  induction l as [|x l IH]; intros S N; [by exists [], []|]. destruct S as [G S].
  destruct (N x ltac:(rewrite elem_of_cons; tauto)) as [Px Nx]. destruct (Z.lt_ge_cases x.1 bp) as [L|L].
  - destruct IH as (l1 & l2 & -> & F1 & F2); [done|intros z Hz; apply N, elem_of_cons; by right|].
    exists (x :: l1), l2. split; [done|]. split; [by constructor|done].
  - exists [], (x :: l). split; [done|]. split; [constructor|]. constructor; [lia|].
    eapply Forall_impl; [exact G|]. intros z. unfold gap, bend, HDR. lia.
Qed.

(** A block that can be given back to the free list [l]. *)
Record loose (s : ualloc) (l : list blk) (b : blk) (brk : Z) : Prop := {
  lo_siz : siz s b.1 = b.2;
  lo_pos : 1 <= b.2;
  lo_base : 0 < base < b.1;
  lo_apart z : z ∈ l -> apart z b;
  lo_end : bend b <= brk;
  lo_ends z : z ∈ l -> bend z <= brk;
  lo_brk : brk < LIMIT;
}.

(** What free() does to the free list. *)
Record gives (s : ualloc) (l : list blk) (b : blk) (s' : ualloc) (l' : list blk) : Prop := {
  gi_free : free_ok s' l';
  gi_closed Q : closed Q -> (forall z, z ∈ l -> Q z) -> Q b -> forall z, z ∈ l' -> Q z;
  gi_covers a : covers l' a <-> covers l a \/ b.1 <= a < bend b;
  gi_siz a : a <> b.1 -> (a ∉ base :: map fst l) -> siz s' a = siz s a;
  gi_room : exists z, z ∈ l' /\ b.2 <= z.2;
}.

Lemma loose_split s l b brk : free_ok s l -> loose s l b brk ->
  exists A x l1 l2, (base, 0) :: l1 = A ++ [x] /\ l = l1 ++ l2 /\ Forall (fun z => z.1 < b.1) l1 /\ Forall (fun z => b.1 < z.1) l2 /\
    fits x b l2 /\ ring s (A ++ x :: l2) /\ List.last (base :: map fst l1) base = x.1.
Proof.
  intros O Lo. pose proof (lo_pos _ _ _ _ Lo) as Pb. pose proof (lo_base _ _ _ _ Lo) as Hb. pose proof (lo_brk _ _ _ _ Lo) as Hk.
  assert (forall z, z ∈ l -> base < z.1) as Up.
  { intros z Hz. destruct (ri_sorted _ _ (fo_ring _ _ O)) as [G _]. rewrite Forall_forall in G. specialize (G z Hz).
    unfold gap, bend, HDR in G. cbn in G. lia. }
  destruct (split_at l b.1) as (l1 & l2 & -> & F1 & F2).
  { apply (ri_sorted _ _ (fo_ring _ _ O)). }
  { intros z Hz. pose proof (fo_pos _ _ O z Hz). pose proof (lo_apart _ _ _ _ Lo z Hz) as H1. unfold apart, bend, HDR in H1. lia. }
  destruct (exists_last (l := (base, 0) :: l1)) as (A & x & EA); [done|]. exists A, x, l1, l2.
  assert (x ∈ (base, 0) :: l1) as Hx by (rewrite EA; apply elem_of_app; right; apply elem_of_cons; by left).
  rewrite Forall_forall in F1, F2. split; [done|]. split; [done|]. split; [by apply Forall_forall|]. split; [by apply Forall_forall|].
  assert (forall z, z ∈ l1 ++ l2 -> 0 <= z.1 /\ bend z < LIMIT) as Lim.
  { intros z Hz. specialize (Up z Hz). pose proof (lo_ends _ _ _ _ Lo z Hz). lia. }
  split; [split; try done; try lia|split].
  - apply elem_of_cons in Hx as [->|Hx]; [cbn; lia|by apply F1].
  - apply elem_of_cons in Hx as [->|Hx]; [unfold bend, HDR; cbn; lia|].
    specialize (F1 x Hx). cbn in F1. pose proof (lo_apart _ _ _ _ Lo x ltac:(rewrite elem_of_app; tauto)) as H1.
    unfold apart, bend, HDR in *. lia.
  - intros y Hy. specialize (F2 y Hy). cbn in F2. pose proof (lo_apart _ _ _ _ Lo y ltac:(rewrite elem_of_app; tauto)) as H1.
    pose proof (fo_pos _ _ O y ltac:(rewrite elem_of_app; tauto)). unfold apart, bend, HDR in *. lia.
  - intros y Hy. apply elem_of_cons in Hy as [->|Hy]; [|apply elem_of_cons in Hy as [->|Hy]].
    + apply elem_of_cons in Hx as [->|Hx]; [unfold bend, HDR; cbn; pose proof (lo_end _ _ _ _ Lo) as E; unfold bend, HDR in E; lia|].
      apply Lim. rewrite elem_of_app. tauto.
    + pose proof (lo_end _ _ _ _ Lo). lia.
    + apply Lim. rewrite elem_of_app. tauto.
  - pose proof (fo_ring _ _ O) as R. change ((base, 0) :: l1 ++ l2) with (((base, 0) :: l1) ++ l2) in R.
    rewrite EA, <- app_assoc in R. exact R.
  - change (base :: map fst l1) with (map fst ((base, 0) :: l1)). rewrite EA, map_app. apply last_last.
Qed.

(** The new list, without the static header. *)
Lemma link_list A x l1 l2 b b' r : (base, 0) :: l1 = A ++ [x] -> join_right b l2 = (b', r) ->
  b'.1 = b.1 -> 1 <= b.2 <= b'.2 -> base < b.1 -> (forall z, z ∈ l1 ++ l2 -> 1 <= z.2) ->
  exists l', A ++ join_left x b' ++ r = (base, 0) :: l' /\
    (forall Q, closed Q -> (forall z, z ∈ l1 ++ l2 -> Q z) -> Q b -> forall z, z ∈ l' -> Q z) /\
    (forall a, covers l' a <-> covers (l1 ++ l2) a \/ b.1 <= a < bend b) /\
    exists z, z ∈ l' /\ b.2 <= z.2.
Proof.
  intros EA Ej Eb Pb Hb Pos.
  assert (forall z, z ∈ l2 -> 0 <= z.2) as Pos2 by (intros z Hz; specialize (Pos z ltac:(rewrite elem_of_app; tauto)); lia).
  assert (forall Q, closed Q -> (forall z, z ∈ l1 ++ l2 -> Q z) -> Q b -> Q b' /\ forall z, z ∈ r -> Q z) as Cl.
  { intros Q J Ql Qb. apply (join_right_closed Q b l2); try done. intros z Hz. apply Ql, elem_of_app. by right. }
  destruct A as [|a0 A]; cbn in EA; simplify_eq.
  - exists (b' :: r). unfold join_left, bend. cbn [fst snd]. rewrite Eb. destruct (Z.eqb_spec (base + HDR * 0) b.1); [unfold HDR in *; lia|].
    split; [done|]. split; [|split].
    + intros Q J Ql Qb z Hz. destruct (Cl Q J Ql Qb) as [Q1 Q2]. apply elem_of_cons in Hz as [->|Hz]; auto.
    + intros a. rewrite (join_right_covers b l2) by (done || lia). tauto.
    + exists b'. split; [apply elem_of_cons; by left|lia].
  - exists (A ++ join_left x b' ++ r). split; [done|].
    assert (1 <= x.2) as Px by (apply Pos; rewrite !elem_of_app, elem_of_cons; tauto). split; [|split].
    + intros Q J Ql Qb z Hz. destruct (Cl Q J Ql Qb) as [Q1 Q2]. rewrite !elem_of_app in Hz. destruct Hz as [Hz|[Hz|Hz]].
      * apply Ql. rewrite !elem_of_app. tauto.
      * apply (join_left_closed Q x b'); try done. apply Ql. rewrite !elem_of_app, elem_of_cons. tauto.
      * auto.
    + intros a. rewrite (covers_app A), join_left_covers, (join_right_covers b l2) by (done || lia).
      rewrite <- app_assoc. cbn [app]. rewrite (covers_app A), covers_cons. tauto.
    + exists (if bend x =? b'.1 then (x.1, x.2 + b'.2) else b'). unfold join_left.
      destruct (bend x =? b'.1); rewrite !elem_of_app, !elem_of_cons; cbn; (split; [tauto|lia]).
Qed.

Lemma free_gives s l b brk : free_ok s l -> loose s l b brk ->
  exists s' l', gives s l b s' l' /\
    forall W (h : forall A, sysE A -> W -> (A * W) + W) w, ends h (free s (b.1 + HDR)) w (Done s' w).
Proof.
  intros O Lo. destruct (loose_split s l b brk O Lo) as (A & x & l1 & l2 & EA & -> & F1 & F2 & Fi & R & Ex).
  destruct (join_right b l2) as [b' r] eqn:Ej. pose proof (lo_pos _ _ _ _ Lo) as Pb.
  pose proof (free_link_ring s A x l2 b b' r R (lo_siz _ _ _ _ Lo) Fi Ej) as R'.
  destruct (join_right_facts x b l2 b' r Ej) as (B1 & B2 & B3 & _); [|done| |].
  { pose proof (ri_sorted _ _ R) as S. apply sorted_app in S. apply S. }
  { intros y Hy. apply R. rewrite elem_of_app, elem_of_cons. tauto. }
  destruct (free_link_fields s A x l2 b b' r R (lo_siz _ _ _ _ Lo) Fi Ej B3 ltac:(lia)) as [Old _].
  destruct (link_list A x l1 l2 b b' r EA Ej B1 ltac:(lia) ltac:(apply Lo) (fo_pos _ _ O)) as (l' & El & Cl & Co & Rm).
  exists (free_link s b.1 x.1), l'. split.
  - split; try done.
    + split; [by rewrite <- El| |].
      * apply (Cl (fun z => 1 <= z.2) pos_closed); [apply O|done].
      * change (base :: map fst l') with (map fst ((base, 0) :: l')). rewrite <- El, !map_app, !elem_of_app. right. left.
        change (u_freep (free_link s b.1 x.1)) with x.1. unfold join_left. destruct (bend x =? b'.1); apply elem_of_cons; by left.
    + intros a Na Nl. apply Old; [|done]. intros ->. apply Nl. change (base :: map fst (l1 ++ l2)) with (map fst (((base, 0) :: l1) ++ l2)).
      rewrite EA, !map_app, !elem_of_app. left. right. apply elem_of_cons. by left.
  - intros W h w. unfold free. replace (b.1 + HDR - HDR) with b.1 by lia.
    eapply ends_bind; [|apply ends_ret]. rewrite <- Ex. apply (free_search_ends h s l1 l2 b.1); try done; [apply Lo|apply O].
Qed.

Lemma free_above s l z : free_ok s l -> z ∈ l -> base < z.1.
Proof.
  intros O Hz. destruct (ri_sorted _ _ (fo_ring _ _ O)) as [G _]. rewrite Forall_forall in G. specialize (G z Hz).
  unfold gap, bend, HDR in G. cbn in G. lia.
Qed.

(** No header of the free list is the header of a block in use. *)
Lemma live_not_free s l live brk a n : heap_ok s l live brk -> live !! a = Some n -> a ∉ base :: map fst l.
Proof.
  intros H Ha N. destruct (ho_live _ _ _ _ H a n Ha) as (L1 & L2 & _). apply elem_of_cons in N as [->|N]; [lia|].
  apply list_elem_of_fmap in N as (z & -> & Hz). pose proof (ho_apart _ _ _ _ H z _ n Hz Ha) as A.
  pose proof (fo_pos _ _ (ho_free _ _ _ _ H) z Hz). unfold apart, bend, HDR in A. cbn in A. lia.
Qed.

(** free() of a block in use. *)
Lemma free_heap s l live brk a n : heap_ok s l live brk -> live !! a = Some n ->
  exists s' l', heap_ok s' l' (delete a live) brk /\ (forall x, covers l' x <-> covers l x \/ a <= x < bend (a, n)) /\
    forall W (h : forall A, sysE A -> W -> (A * W) + W) w, ends h (free s (a + HDR)) w (Done s' w).
Proof.
  intros H Ha. pose proof (ho_free _ _ _ _ H) as O. destruct (ho_live _ _ _ _ H a n Ha) as (L1 & L2 & L3 & L4).
  assert (loose s l (a, n) brk) as Lo.
  { split; try done; try apply H.
    - split; [apply H|done].
    - intros z Hz. by apply (ho_apart _ _ _ _ H). }
  destruct (free_gives s l (a, n) brk O Lo) as (s' & l' & G & E). exists s', l'.
  split; [|split; [intros x; by rewrite (gi_covers _ _ _ _ _ G)|exact E]].
  assert (forall a' n', delete a live !! a' = Some n' -> a' <> a /\ live !! a' = Some n') as Del
    by (intros a' n' D; by apply lookup_delete_Some in D as [? ?]). split.
  - apply G.
  - apply H.
  - apply H.
  - apply (gi_closed _ _ _ _ _ G _ (end_closed brk)); [apply H|done].
  - intros a' n' [N D]%Del. destruct (ho_live _ _ _ _ H a' n' D) as (M1 & M2 & M3 & M4). split; [done|]. split; [done|]. split; [done|].
    rewrite (gi_siz _ _ _ _ _ G); [done|done|]. by eapply live_not_free.
  - intros z a' n' Hz [N D]%Del. destruct (ho_live _ _ _ _ H a' n' D) as (M1 & M2 & _).
    apply (gi_closed _ _ _ _ _ G _ (apart_closed (a', n') M2)); [|by apply (ho_lives _ _ _ _ H)|done].
    intros x Hx. by apply (ho_apart _ _ _ _ H).
  - intros a1 n1 a2 n2 [N1 D1]%Del [N2 D2]%Del Ne. by apply (ho_lives _ _ _ _ H).
Qed.

(** ** The break *)

(** What malloc() relies on in sbrk(): it fails, or it moves the break up and
    returns the old one. *)
Class Break {W : Type} (h : forall A, sysE A -> W -> (A * W) + W) := {
  brk : W -> Z;
  brk_limit w : brk w < LIMIT;
  sbrk_grows w n : 0 < n < 2 ^ 31 -> exists r w', h _ (SSbrk n SBRK_EAGER) w = inl (r, w') /\
    ((r = SBRK_ERROR /\ brk w' = brk w) \/ (r = brk w /\ brk w' = brk w + n));
}.

Section Malloc.
Context {W : Type} {h : forall A, sysE A -> W -> (A * W) + W} {B : Break h}.

Lemma heap_brk s l live k k' : heap_ok s l live k -> k <= k' < LIMIT -> heap_ok s l live k'.
Proof.
  intros H Hk. split; try apply H; try lia.
  - pose proof (ho_base _ _ _ _ H). lia.
  - intros b Hb. pose proof (ho_end _ _ _ _ H b Hb). lia.
  - intros a n Ha. destruct (ho_live _ _ _ _ H a n Ha) as (? & ? & ? & ?). repeat split; try done. lia.
Qed.

Lemma freep_pos s l : 0 < base -> free_ok s l -> u_freep s <> 0.
Proof.
  intros Hb O. pose proof (fo_freep _ _ O) as F. apply elem_of_cons in F as [->|F]; [lia|].
  apply list_elem_of_fmap in F as (z & -> & Hz). pose proof (free_above s l z O Hz). lia.
Qed.

(** A header written at the break touches no block. *)
Lemma set_siz_brk s l live k v : heap_ok s l live k -> heap_ok (set_siz k v s) l live k.
Proof.
  intros H. pose proof (ho_base _ _ _ _ H) as Hb.
  assert (forall z, z ∈ l -> z.1 <> k) as N.
  { intros z Hz. pose proof (ho_end _ _ _ _ H z Hz) as E. pose proof (fo_pos _ _ (ho_free _ _ _ _ H) z Hz). unfold bend, HDR in E. lia. }
  split; try apply H.
  - destruct (ho_free _ _ _ _ H) as [R P F]. split; [|done|done]. split; try apply R. intros b Hb'. rewrite siz_set_siz.
    rewrite decide_False; [by apply R|]. apply elem_of_cons in Hb' as [->|Hb']; [cbn; lia|by apply N].
  - intros a n Ha. destruct (ho_live _ _ _ _ H a n Ha) as (L1 & L2 & L3 & L4). rewrite siz_set_siz, decide_False; [done|].
    unfold bend, HDR in L3. cbn in L3. lia.
Qed.

(** Giving a new block above the break to the free list. *)
Lemma grow_heap s l live k n : heap_ok s l live k -> 1 <= n -> k + HDR * n < LIMIT -> siz s k = n ->
  exists s' l', heap_ok s' l' live (k + HDR * n) /\ (forall x, covers l' x <-> covers l x \/ k <= x < k + HDR * n) /\
    (exists z, z ∈ l' /\ n <= z.2) /\ forall w, ends h (free s (k + HDR)) w (Done s' w).
Proof.
  intros H Hn Hk Sk. pose proof (ho_free _ _ _ _ H) as O. pose proof (ho_base _ _ _ _ H) as Hb.
  assert (forall z, z ∈ l -> apart z (k, n)) as Ap by (intros z Hz; left; by apply H).
  assert (loose s l (k, n) (k + HDR * n)) as Lo.
  { split; try done; cbn [fst snd].
    - intros z Hz. pose proof (ho_end _ _ _ _ H z Hz). unfold HDR in *. lia. }
  destruct (free_gives s l (k, n) _ O Lo) as (s' & l' & G & E). exists s', l'. split; [|split; [|split; [apply G|intros w; apply E]]].
  2: { intros x. by rewrite (gi_covers _ _ _ _ _ G). }
  assert (heap_ok s l live (k + HDR * n)) as H' by (apply (heap_brk _ _ _ k); [done|unfold HDR in *; lia]).
  split.
  - apply G.
  - apply H'.
  - apply H'.
  - apply (gi_closed _ _ _ _ _ G _ (end_closed _)); [apply H'|done].
  - intros a m D. destruct (ho_live _ _ _ _ H a m D) as (M1 & M2 & M3 & M4). destruct (ho_live _ _ _ _ H' a m D) as (_ & _ & M3' & _).
    split; [done|]. split; [done|]. split; [done|]. rewrite (gi_siz _ _ _ _ _ G); [done| |by eapply live_not_free].
    unfold bend, HDR in M3. cbn in M3 |- *. lia.
  - intros z a m Hz D. destruct (ho_live _ _ _ _ H a m D) as (M1 & M2 & M3 & _).
    apply (gi_closed _ _ _ _ _ G _ (apart_closed (a, m) M2)); [|by right|done]. intros x Hx. by apply (ho_apart _ _ _ _ H).
  - apply H.
Qed.

(** morecore(): a new block of at least [nu] headers joins the free list. *)
Lemma morecore_ok s l live w nu : heap_ok s l live (brk w) -> 0 < nu -> nu * HDR < 2 ^ 31 ->
  exists s' p w', ends h (morecore s nu) w (Done (s', p) w') /\
    ((s' = s /\ p = 0 /\ brk w' = brk w) \/
     exists l' k, heap_ok s' l' live (brk w') /\ p = u_freep s' /\ p <> 0 /\ nu <= k /\
       (forall x, covers l' x <-> covers l x \/ brk w <= x < brk w + HDR * k) /\ exists z, z ∈ l' /\ nu <= z.2).
Proof.
  intros H Hn Hs. unfold morecore. set (k := if nu <? 4096 then 4096 else nu).
  assert (nu <= k /\ 1 <= k /\ k * HDR < 2 ^ 31) as (K1 & K2 & K3) by (unfold k, HDR in *; destruct (Z.ltb_spec nu 4096); lia).
  clearbody k. rewrite s32_small by (unfold HDR in *; lia).
  destruct (sbrk_grows w (k * HDR)) as (r & w' & X & [[-> E]|[-> E]]); [unfold HDR in *; lia| |].
  - exists s, 0, w'. split; [|by left]. eapply ends_bind; [by apply ends_call|]. rewrite Z.eqb_refl. apply ends_ret.
  - pose proof (brk_limit w') as Lw. rewrite E in Lw. replace (brk w + k * HDR) with (brk w + HDR * k) in * by lia.
    destruct (grow_heap (set_siz (brk w) k s) l live (brk w) k) as (s' & l' & H' & C & (z & Hz & Zk) & F); try done.
    { by apply set_siz_brk. } { rewrite siz_set_siz, decide_True by done. apply u32_small. unfold HDR in K3. lia. }
    exists s', (u_freep s'), w'. split.
    + eapply ends_bind; [by apply ends_call|]. destruct (Z.eqb_spec (brk w) SBRK_ERROR) as [Er|_].
      { pose proof (brk_limit w). unfold SBRK_ERROR, LIMIT in *. lia. }
      eapply ends_bind; [apply F|apply ends_ret].
    + right. exists l', k. split; [by rewrite E|]. split; [done|]. split; [|split; [done|split; [done|]]].
      * apply (freep_pos s' l'); [apply H|apply H'].
      * exists z. split; [done|lia].
Qed.

(** ** Taking a block *)

(** The list after [n] headers are taken from [z], and where they are. *)
Definition taken (z : blk) (n : Z) : list blk := if z.2 =? n then [] else [(z.1, z.2 - n)].
Definition taken_at (z : blk) (n : Z) : Z := z.1 + HDR * (z.2 - n).

(** The order of the addresses around [u] and [z]. *)
Lemma ring_order s A u z C : ring s (A ++ u :: z :: C) ->
  (forall a, a ∈ A -> a.1 < u.1) /\ u.1 < z.1 /\ forall c, c ∈ C -> bend z < c.1.
Proof.
  intros R. pose proof (ri_sorted _ _ R) as S. apply sorted_app in S as (_ & [Gu [Gz _]] & GA).
  assert (forall b, b ∈ A ++ u :: z :: C -> 0 <= b.2) as Pos by apply R. split; [|split].
  - intros a Ha. assert (gap a u) as G by (apply GA; [done|rewrite elem_of_cons; tauto]).
    assert (0 <= a.2) by (apply Pos; rewrite elem_of_app; tauto). unfold gap, bend, HDR in G. lia.
  - apply Forall_cons_1 in Gu as [G _]. assert (0 <= u.2) by (apply Pos; rewrite elem_of_app, !elem_of_cons; tauto).
    unfold gap, bend, HDR in G. lia.
  - intros c Hc. rewrite Forall_forall in Gz. by apply Gz.
Qed.

Lemma taken_sorted A u z C n : sorted (A ++ u :: z :: C) -> 1 <= n <= z.2 -> sorted (A ++ u :: taken z n ++ C).
Proof.
  intros S Hn. replace (A ++ u :: z :: C) with ((A ++ [u]) ++ z :: C) in S by (by rewrite <- app_assoc).
  replace (A ++ u :: taken z n ++ C) with ((A ++ [u]) ++ taken z n ++ C) by (by rewrite <- app_assoc).
  apply sorted_app in S as (S1 & [Gz S2] & G). apply sorted_app. split; [done|]. unfold taken. destruct (z.2 =? n); cbn [app].
  - split; [done|]. intros x y Hx Hy. apply G; [done|]. apply elem_of_cons. by right.
  - split; [split; [|done]|].
    + eapply Forall_impl; [exact Gz|]. intros c. unfold gap, bend, HDR. cbn. lia.
    + intros x y Hx Hy. apply elem_of_cons in Hy as [->|Hy]; [|apply G; [done|apply elem_of_cons; by right]].
      assert (gap x z) as Gx by (apply G; [done|apply elem_of_cons; by left]). exact Gx.
Qed.

(** The fields of the headers after the block is taken. *)
Lemma carve_fields s A u z C n : ring s (A ++ u :: z :: C) -> 1 <= n <= z.2 -> z.2 < 2 ^ 32 ->
  exists s', carve s u.1 z.1 n = (s', taken_at z n + HDR) /\ u_freep s' = u.1 /\
    ptr s' u.1 = next (taken z n ++ C) /\ (forall a, a <> u.1 -> ptr s' a = ptr s a) /\
    siz s' (taken_at z n) = n /\ (z.2 <> n -> siz s' z.1 = z.2 - n) /\
    forall a, a <> z.1 -> a <> taken_at z n -> siz s' a = siz s a.
Proof.
  intros R Hn Hz. destruct (ring_order s A u z C R) as (OA & Ou & OC).
  assert (siz s z.1 = z.2) as Sz by (apply R; rewrite elem_of_app, !elem_of_cons; tauto).
  pose proof (ring_next s (A ++ [u]) z C) as Pz. rewrite <- app_assoc in Pz. specialize (Pz R).
  pose proof (ring_next s A u (z :: C) R) as Pu. change (next (z :: C)) with z.1 in Pu.
  unfold carve, taken. rewrite Sz. destruct (Z.eqb_spec z.2 n) as [E|N]; cbn [app].
  - assert (taken_at z n = z.1) as Et by (unfold taken_at, HDR; lia). rewrite Et.
    eexists. split; [reflexivity|]. split; [done|]. headers. rewrite decide_True by done. split; [done|].
    split; [intros a Na; headers; by rewrite decide_False|]. split; [headers; lia|]. split; [done|]. intros a _ _. by headers.
  - rewrite siz_set_siz, decide_True by done. rewrite u32_small by lia. change (z.1 + HDR * (z.2 - n)) with (taken_at z n).
    assert (z.1 < taken_at z n) as Lt by (unfold taken_at, HDR; lia).
    eexists. split; [reflexivity|]. split; [done|]. headers. split; [done|]. split; [intros a Na; by headers|].
    rewrite decide_True by done. split; [apply u32_small; lia|]. split.
    + intros _. headers. rewrite decide_False by lia. rewrite decide_True by done. apply u32_small. lia.
    + intros a Na Nt. headers. by rewrite !decide_False.
Qed.

Lemma carve_ring s A u z C n : ring s (A ++ u :: z :: C) -> 1 <= n <= z.2 -> z.2 < 2 ^ 32 ->
  exists s', carve s u.1 z.1 n = (s', taken_at z n + HDR) /\ ring s' (A ++ u :: taken z n ++ C) /\ u_freep s' = u.1 /\
    siz s' (taken_at z n) = n /\ forall a, a <> z.1 -> a <> taken_at z n -> siz s' a = siz s a.
Proof.
  intros R Hn Hz. destruct (ring_order s A u z C R) as (OA & Ou & OC).
  destruct (carve_fields s A u z C n R Hn Hz) as (s' & E & F & Pu & Po & St & Sz & So).
  exists s'. split; [done|]. split; [|done].
  assert (z.1 <= taken_at z n < bend z) as Ht by (unfold taken_at, bend, HDR; lia).
  assert (path (ptr s') (map fst C ++ [base])) as PC.
  { apply (path_ext (ptr s)); [|apply (ring_tail s (A ++ [u]) z); by rewrite <- app_assoc].
    intros a Ha. apply list_elem_of_fmap in Ha as (c & -> & Hc). apply Po. specialize (OC c Hc). lia. }
  split.
  - apply taken_sorted; [apply R|done].
  - rewrite map_app, <- app_assoc. cbn [map app]. rewrite path_app. split.
    + apply (path_ext (ptr s)); [|by apply (ring_head s A u (z :: C))]. intros a Ha.
      apply list_elem_of_fmap in Ha as (b & -> & Hb). apply Po. specialize (OA b Hb). lia.
    + unfold taken in *. destruct (z.2 =? n); cbn [map app] in *; [unfold next in Pu; destruct C; cbn in *; tauto|].
      split; [done|]. assert (ptr s' z.1 = next C) as Pz; [|unfold next in Pz; destruct C; cbn in *; tauto].
      rewrite Po by lia. pose proof (ring_next s (A ++ [u]) z C) as X. rewrite <- app_assoc in X. by apply X.
  - intros b Hb. assert (b ∈ A ++ u :: C \/ b ∈ taken z n) as [Hb'|Hb'].
    { rewrite !elem_of_app, !elem_of_cons, !elem_of_app in *. tauto. }
    + rewrite So; [apply R; rewrite !elem_of_app, !elem_of_cons in *; tauto| |];
        rewrite elem_of_app, elem_of_cons in Hb'; destruct Hb' as [H|[->|H]]; try specialize (OA b H); try specialize (OC b H); lia.
    + unfold taken in Hb'. destruct (Z.eqb_spec z.2 n); [by apply not_elem_of_nil in Hb'|].
      apply elem_of_cons in Hb' as [->|Hb']; [by apply Sz|by apply not_elem_of_nil in Hb'].
  - intros b Hb. rewrite elem_of_app, elem_of_cons, elem_of_app in Hb. unfold taken in Hb. assert (b ∈ A ++ u :: C \/ 0 <= b.2) as [H|]; [|apply (ri_pos _ _ R); rewrite elem_of_app, !elem_of_cons in *; tauto|done].
    destruct (Z.eqb_spec z.2 n); [rewrite elem_of_nil in Hb|rewrite elem_of_cons, elem_of_nil in Hb]; rewrite elem_of_app, elem_of_cons.
    + tauto.
    + destruct Hb as [H|[H|[[->|[]]|H]]]; try tauto. right. cbn. lia.
Qed.

(** Two consecutive headers of the list, the second one a block of it. *)
Lemma ring_pair s l v z : free_ok s l -> v ∈ (base, 0) :: l -> z ∈ l -> ptr s v.1 = z.1 -> exists A C, (base, 0) :: l = A ++ v :: z :: C.
Proof.
  intros O Hv Hz P. apply list_elem_of_split in Hv as (A & l2 & E). pose proof (fo_ring _ _ O) as R. rewrite E in R.
  rewrite (ring_next s A v l2 R) in P. unfold next in P. destruct l2 as [|y C]; cbn in P.
  - pose proof (free_above s l z O Hz). lia.
  - exists A, C. rewrite E. do 2 f_equal. assert (y ∈ (base, 0) :: l) as Hy by (rewrite E, elem_of_app, !elem_of_cons; tauto).
    pose proof (ri_siz _ _ (fo_ring _ _ O) y Hy) as S1.
    pose proof (ri_siz _ _ (fo_ring _ _ O) z ltac:(rewrite elem_of_cons; tauto)) as S2. rewrite P in S1. destruct y, z. cbn in *. f_equal. congruence.
Qed.

Lemma apart_sub z b y : apart z y -> z.1 <= b.1 -> bend b <= bend z -> apart b y.
Proof. unfold apart. lia. Qed.

Lemma apart_sym x y : apart x y -> apart y x.
Proof. unfold apart. tauto. Qed.

Lemma covers_base l a : covers ((base, 0) :: l) a <-> covers l a.
Proof. rewrite covers_cons. unfold bend, HDR. cbn. split; [intros [?|?]; [lia|done]|by right]. Qed.

(** The blocks of the list when a part of [z] is taken. *)
Lemma taken_list s A v z C l n : ring s (A ++ v :: z :: C) -> 1 <= n <= z.2 -> (base, 0) :: l = A ++ v :: z :: C ->
  exists l', A ++ v :: taken z n ++ C = (base, 0) :: l' /\ (forall b, b ∈ l' -> b ∈ taken z n \/ (b ∈ l /\ apart b z)) /\
    forall x, covers l x <-> covers l' x \/ taken_at z n <= x < bend z.
Proof.
  intros R Hn E. destruct (ring_order s A v z C R) as (OA & Ou & OC).
  assert (forall b, b ∈ A ++ v :: C -> apart b z) as Ap.
  { intros b. rewrite elem_of_app, elem_of_cons. intros Hb. pose proof (ri_sorted _ _ R) as S. apply sorted_app in S as (_ & [Gv [Gz _]] & GA).
    destruct Hb as [Hb|[->|Hb]].
    - left. assert (gap b z) as G by (apply GA; [done|rewrite !elem_of_cons; tauto]). unfold gap in G. lia.
    - left. apply Forall_cons_1 in Gv as [G _]. unfold gap in G. lia.
    - right. specialize (OC b Hb). lia. }
  assert (exists l', A ++ v :: taken z n ++ C = (base, 0) :: l' /\ forall b, b ∈ l' -> b ∈ taken z n \/ (b ∈ l /\ b ∈ A ++ v :: C)) as (l' & El & Mem).
  { destruct A as [|a A]; cbn in E; simplify_eq; eexists; (split; [done|]); intros b.
    - cbn [app]. rewrite elem_of_app, !elem_of_cons. tauto.
    - cbn [app]. rewrite !elem_of_app, !elem_of_cons, !elem_of_app, !elem_of_cons. tauto. }
  exists l'. split; [done|]. split; [intros b Hb; destruct (Mem b Hb) as [?|[? ?]]; auto|].
  intros x. rewrite <- covers_base, E, <- (covers_base l'), <- El, !covers_app, !covers_cons, covers_app.
  assert (z.1 <= x < bend z <-> covers (taken z n) x \/ taken_at z n <= x < bend z) as Z1; [|tauto].
  unfold taken, taken_at. destruct (Z.eqb_spec z.2 n).
  - pose proof (covers_nil x). unfold bend, HDR. replace (z.1 + 16 * (z.2 - n)) with z.1 by lia. tauto.
  - rewrite covers_cons. pose proof (covers_nil x). unfold bend, HDR. cbn [fst snd]. split.
    + intros Hx. destruct (Z.lt_ge_cases x (z.1 + 16 * (z.2 - n))); [left; left; lia|right; lia].
    + intros [[?|?]|?]; [lia|done|lia].
Qed.

(** A block [z] is large enough: malloc() takes it, or its end. *)
Lemma carve_heap s l live k v z n : heap_ok s l live k -> v ∈ (base, 0) :: l -> z ∈ l -> ptr s v.1 = z.1 -> 1 <= n <= z.2 ->
  exists s' a l', carve s v.1 z.1 n = (s', a + HDR) /\ live !! a = None /\ base < a /\ heap_ok s' l' (<[a := n]> live) k /\
    forall x, covers l x <-> covers l' x \/ a <= x < bend (a, n).
Proof.
  intros H Hv Hz P Hn. pose proof (ho_free _ _ _ _ H) as O. destruct (ring_pair s l v z O Hv Hz P) as (A & C & E).
  pose proof (fo_ring _ _ O) as R. rewrite E in R. pose proof (free_above s l z O Hz) as Ab.
  pose proof (ho_end _ _ _ _ H z Hz) as Ez. pose proof (ho_brk _ _ _ _ H) as Hk. pose proof (ho_base _ _ _ _ H) as Hb.
  destruct (carve_ring s A v z C n R Hn) as (s' & Ec & R' & F' & St & So); [unfold bend, HDR, LIMIT in *; lia|].
  destruct (ring_order s A v z C R) as (OA & Ou & OC).
  assert (z.1 <= taken_at z n /\ bend (taken_at z n, n) = bend z) as [T1 T2] by (unfold taken_at, bend, HDR; cbn; lia).
  destruct (taken_list s A v z C l n R Hn E) as (l' & El & Mem & Cov).
  assert (forall a m, live !! a = Some m -> apart z (a, m)) as Az by (intros; by apply (ho_apart _ _ _ _ H)).
  assert (forall b, b ∈ taken z n -> b.1 = z.1 /\ bend b = taken_at z n /\ 1 <= b.2) as Tk.
  { intros b. unfold taken. destruct (Z.eqb_spec z.2 n); [by intros ?%not_elem_of_nil|]. rewrite elem_of_cons, elem_of_nil.
    intros [->|[]]. unfold taken_at, bend, HDR. cbn. lia. }
  assert (taken_at z n < bend z) as T3 by (rewrite <- T2; unfold bend, HDR; cbn; lia).
  assert (forall a m, live !! a = Some m -> a <> z.1 /\ a <> taken_at z n) as Na.
  { intros a m La. specialize (Az _ _ La). destruct (ho_live _ _ _ _ H _ _ La) as (_ & L2 & _).
    unfold apart, bend, HDR in *. cbn in *. lia. }
  assert (live !! taken_at z n = None) as Nl by (destruct (live !! taken_at z n) as [m|] eqn:El'; [by destruct (Na _ _ El')|done]).
  exists s', (taken_at z n), l'. split; [done|]. split; [done|]. split; [lia|].
  split; [split; try done|intros x; rewrite T2; apply Cov].
  - split; [by rewrite <- El| |].
    + intros b Hb'. destruct (Mem b Hb') as [Hb2|[Hb2 _]]; [by apply Tk|by apply O].
    + rewrite F'. change (base :: map fst l') with (map fst ((base, 0) :: l')). rewrite <- El, map_app. apply elem_of_app. right.
      apply elem_of_cons. by left.
  - intros b Hb'. destruct (Mem b Hb') as [Hb2|[Hb2 _]]; [|by apply H]. destruct (Tk b Hb2) as (_ & -> & _). lia.
  - intros a m La. apply lookup_insert_Some in La as [[<- <-]|[Ne La]]; [rewrite T2; repeat split; try done; lia|].
    destruct (Na _ _ La). rewrite So by done. by apply H.
  - intros b a m Hb' La. apply lookup_insert_Some in La as [[<- <-]|[Ne La]].
    + destruct (Mem b Hb') as [Hb2|[_ Hb2]]; [left; destruct (Tk b Hb2) as (_ & -> & _); done|].
      apply apart_sym, (apart_sub z); [by apply apart_sym|done|lia].
    + destruct (Mem b Hb') as [Hb2|[Hb2 _]]; [|by apply H]. destruct (Tk b Hb2) as (B1 & B2 & _). apply (apart_sub z); [by apply Az|lia|lia].
  - intros a1 n1 a2 n2 L1 L2 Ne. apply lookup_insert_Some in L1 as [[<- <-]|[N1 L1]], L2 as [[<- <-]|[N2 L2]]; try done.
    + apply (apart_sub z); [by apply Az|done|lia].
    + apply apart_sym, (apart_sub z); [by apply Az|done|lia].
    + by apply (ho_lives _ _ _ _ H).
Qed.

(** ** The scan of malloc() *)

(** Walking over [mid] to the header [u] that [freep] points to: a header that
    is large enough is taken; otherwise the scan arrives at [u]. *)
Lemma scan_walk s l w n (Post : outcome (ualloc * Z) -> Prop) u : free_ok s l -> u.1 = u_freep s ->
  (forall v z, v ∈ (base, 0) :: l -> z ∈ (base, 0) :: l -> ptr s v.1 = z.1 -> n <= z.2 -> Post (Done (carve s v.1 z.1 n) w)) ->
  u ∈ (base, 0) :: l ->
  forall mid v, v ∈ (base, 0) :: l -> (forall z, z ∈ mid -> z ∈ (base, 0) :: l /\ z.1 <> u.1) -> path (ptr s) (map fst (v :: mid ++ [u])) ->
  ((forall z, z ∈ mid ++ [u] -> z.2 < n) -> forall prevp, exists o, ends h (malloc_scan n (s, prevp, u.1)) w o /\ Post o) ->
  exists o, ends h (malloc_scan n (s, v.1, ptr s v.1)) w o /\ Post o.
Proof.
  intros O Hu Hfit Hul. induction mid as [|z mid IH]; intros v Hv Hm P Hend.
  - destruct P as [Pv _]. rewrite Pv. pose proof (ri_siz _ _ (fo_ring _ _ O) u Hul) as Su.
    destruct (Z.le_gt_cases n u.2) as [L|L].
    + exists (Done (carve s v.1 u.1 n) w). split; [|by apply Hfit]. apply ends_loop_exit. rewrite Su.
      destruct (Z.leb_spec n u.2); [apply ends_ret|lia].
    + apply Hend. intros z Hz. cbn in Hz. apply elem_of_cons in Hz as [->|Hz]; [done|by apply not_elem_of_nil in Hz].
  - destruct P as [Pv P]. rewrite Pv. destruct (Hm z ltac:(rewrite elem_of_cons; tauto)) as [Hz Nz].
    pose proof (ri_siz _ _ (fo_ring _ _ O) z Hz) as Sz. destruct (Z.le_gt_cases n z.2) as [L|L].
    + exists (Done (carve s v.1 z.1 n) w). split; [|by apply Hfit]. apply ends_loop_exit. rewrite Sz.
      destruct (Z.leb_spec n z.2); [apply ends_ret|lia].
    + destruct (IH z Hz) as (o & E & Po); [intros y Hy; apply Hm, elem_of_cons; by right|exact P| |].
      { intros Hall. apply Hend. intros y Hy. cbn in Hy. apply elem_of_cons in Hy as [->|Hy]; [done|by apply Hall]. }
      exists o. split; [|done]. eapply ends_loop; [|exact E]. rewrite Sz. destruct (Z.leb_spec n z.2); [lia|].
      rewrite <- Hu. destruct (Z.eqb_spec z.1 u.1); [done|]. apply ends_ret.
Qed.

(** Once around the list from [freep]. *)
Lemma scan_pass s l w n (Post : outcome (ualloc * Z) -> Prop) : free_ok s l ->
  (forall v z, v ∈ (base, 0) :: l -> z ∈ (base, 0) :: l -> ptr s v.1 = z.1 -> n <= z.2 -> Post (Done (carve s v.1 z.1 n) w)) ->
  ((forall z, z ∈ l -> z.2 < n) -> forall prevp, exists o, ends h (malloc_scan n (s, prevp, u_freep s)) w o /\ Post o) ->
  exists o, ends h (malloc_scan n (s, u_freep s, ptr s (u_freep s))) w o /\ Post o.
Proof.
  intros O Hfit Hend. pose proof (fo_freep _ _ O) as F. change (base :: map fst l) with (map fst ((base, 0) :: l)) in F.
  apply list_elem_of_fmap in F as (u & Eu & Hu). rewrite Eu in *. pose proof Hu as Hu'.
  apply list_elem_of_split in Hu' as (A & l2 & E). pose proof (fo_ring _ _ O) as R. rewrite E in R.
  pose proof (ri_sorted _ _ R) as S. apply sorted_app in S as (_ & [Gu _] & GA).
  assert (forall z, z ∈ A ++ u :: l2 -> 0 <= z.2) as Pos by apply R.
  apply (scan_walk s l w n Post u O (eq_sym Eu) Hfit Hu (l2 ++ A) u Hu).
  - intros z Hz. split; [rewrite E; rewrite elem_of_app, elem_of_cons; rewrite elem_of_app in Hz; tauto|].
    apply elem_of_app in Hz as [Hz|Hz].
    + rewrite Forall_forall in Gu. specialize (Gu z Hz). assert (0 <= u.2) by (apply Pos; rewrite elem_of_app, elem_of_cons; tauto).
      unfold gap, bend, HDR in Gu. lia.
    + assert (gap z u) as G by (apply GA; [done|apply elem_of_cons; by left]).
      assert (0 <= z.2) by (apply Pos; rewrite elem_of_app; tauto). unfold gap, bend, HDR in G. lia.
  - pose proof (ri_path _ _ R) as P. rewrite map_app, <- app_assoc in P. cbn [map app] in P. rewrite path_app in P. destruct P as [P1 P2].
    destruct A as [|a A]; cbn in E; simplify_eq; cbn [map]; rewrite !map_app, ?app_nil_r; [exact P2|].
    rewrite <- app_assoc. cbn [map app fst]. change (u.1 :: map fst l2 ++ base :: map fst A ++ [u.1]) with ((u.1 :: map fst l2) ++ base :: map fst A ++ [u.1]).
    rewrite path_app. split; [exact P2|exact P1].
  - intros Hall prevp. apply Hend. intros z Hz. apply Hall. assert (z ∈ (base, 0) :: l) as H by (apply elem_of_cons; by right).
    rewrite E in H. rewrite !elem_of_app, elem_of_cons in *. rewrite elem_of_nil. tauto.
Qed.

(** ** malloc() *)

(** The state of the allocator of a process: not used yet, or a heap. *)
Definition heap (s : ualloc) (live : gmap Z Z) (k : Z) : Prop :=
  (u_freep s = 0 /\ live = ∅ /\ 0 < base < k /\ k < LIMIT) \/ exists l, heap_ok s l live k.

(** The result of malloc(): 0, or a block of [n] headers that was not in use. *)
Definition malloced (n : Z) (live : gmap Z Z) (o : outcome (ualloc * Z)) : Prop :=
  exists s' r w', o = Done (s', r) w' /\
    ((r = 0 /\ exists l', heap_ok s' l' live (brk w')) \/
     exists a l', r = a + HDR /\ live !! a = None /\ base < a /\ heap_ok s' l' (<[a := n]> live) (brk w')).

Lemma fit_post s l live w n : heap_ok s l live (brk w) -> 1 <= n ->
  forall v z, v ∈ (base, 0) :: l -> z ∈ (base, 0) :: l -> ptr s v.1 = z.1 -> n <= z.2 -> malloced n live (Done (carve s v.1 z.1 n) w).
Proof.
  intros H Hn v z Hv Hz P L. apply elem_of_cons in Hz as [->|Hz]; [cbn in L; lia|].
  destruct (carve_heap s l live (brk w) v z n H Hv Hz P ltac:(lia)) as (s' & a & l' & E & N & Ab & H' & _).
  exists s', (a + HDR), w. split; [by rewrite E|]. right. exists a, l'. done.
Qed.

Lemma malloc_scan_ok s l live w n : heap_ok s l live (brk w) -> 1 <= n -> n * HDR < 2 ^ 31 ->
  exists o, ends h (malloc_scan n (s, u_freep s, ptr s (u_freep s))) w o /\ malloced n live o.
Proof.
  intros H Hn Hs. apply (scan_pass s l); [apply H|by apply (fit_post s l)|]. intros Hno prevp.
  destruct (morecore_ok s l live w n H ltac:(lia) Hs) as (s' & p & w' & E & [(-> & -> & Eb)|(l' & k & H' & -> & Np & _ & _ & z & Hz & Lz)]).
  all: assert (siz s (u_freep s) < n) as Lf by
    (pose proof (fo_freep _ _ (ho_free _ _ _ _ H)) as F; change (base :: map fst l) with (map fst ((base, 0) :: l)) in F;
     apply list_elem_of_fmap in F as (u & -> & Hu); rewrite (ri_siz _ _ (fo_ring _ _ (ho_free _ _ _ _ H)) u Hu);
     apply elem_of_cons in Hu as [->|Hu]; [cbn; lia|by apply Hno]).
  - exists (Done (s, 0) w'). split; [|exists s, 0, w'; split; [done|left; split; [done|exists l; by rewrite Eb]]].
    apply ends_loop_exit. destruct (Z.leb_spec n (siz s (u_freep s))); [lia|]. rewrite Z.eqb_refl.
    eapply ends_bind; [exact E|]. cbn. apply ends_ret.
  - destruct (scan_pass s' l' w' n (malloced n live)) as (o & Eo & Po); [apply H'|by apply (fit_post s' l')| |].
    { intros Hno'. specialize (Hno' z Hz). lia. }
    exists o. split; [|done]. eapply ends_loop; [|exact Eo]. destruct (Z.leb_spec n (siz s (u_freep s))); [lia|]. rewrite Z.eqb_refl.
    eapply ends_bind; [exact E|]. cbn beta iota. destruct (Z.eqb_spec (u_freep s') 0); [done|]. apply ends_ret.
Qed.

(** The first call makes the list of the static header alone. *)
Lemma first_heap s k : 0 < base < k -> k < LIMIT ->
  heap_ok (set_siz base 0 (set_ptr base base (set_freep base s))) [] ∅ k.
Proof.
  intros Hb Hk. split; try done; try (by intros ? ?%not_elem_of_nil); try (by intros ? ? ?%not_elem_of_nil).
  - split; [split| |].
    + by split; [constructor|].
    + cbn. headers. by rewrite decide_True.
    + intros b Hb'. apply elem_of_cons in Hb' as [->|Hb']; [|by apply not_elem_of_nil in Hb']. cbn. headers. by rewrite decide_True.
    + intros b Hb'. apply elem_of_cons in Hb' as [->|Hb']; [|by apply not_elem_of_nil in Hb']. cbn. lia.
    + by intros ? ?%not_elem_of_nil.
    + apply elem_of_cons. by left.
Qed.


(** C20 free() is safe and terminates: given a pointer to a block in
    use, it takes the block out of use and keeps the heap invariant, joining
    it with free neighbours; the addresses of the free blocks are then exactly
    the old ones and those of the block, so that no memory is lost. *)
Theorem free_correct s live w a n l : heap_ok s l live (brk w) -> live !! a = Some n ->
  exists s' l', ends h (free s (a + HDR)) w (Done s' w) /\ heap_ok s' l' (delete a live) (brk w) /\
    forall x, covers l' x <-> covers l x \/ a <= x < a + HDR * n.
Proof. intros H Ha. destruct (free_heap s l live (brk w) a n H Ha) as (s' & l' & H' & C & E). exists s', l'. eauto. Qed.
End Malloc.
End Alloc.

(** ** A process with a growing break *)

(** The world is the break; sbrk() fails above 64 MB. *)
Definition brk_kernel (A : Type) (e : sysE A) (k : Z) : (A * Z) + Z :=
  match e in sysE A return (A * Z) + Z with
  | SExit _ => inr k
  | SSbrk n _ => inl (if k + n <? 2 ^ 26 then (k, k + n) else (SBRK_ERROR, k))
  | SRead _ _ => inl ((-1, []), k)
  | SWait => inl ((-1, 0), k)
  | SPipe => inl ((-1, (0, 0)), k)
  | SFstat _ => inl ((-1, mk_stat 0 0 0 0 0), k)
  | SWrite _ _ | SFork | SClose _ | SKill _ | SExec _ _ | SOpen _ _ | SMknod _ _ _ | SUnlink _ | SLink _ _ | SMkdir _
  | SChdir _ | SDup _ | SGetpid | SPause _ | SUptime => inl (-1, k)
  end.

#[export] Instance brk_break : Break brk_kernel.
Proof.
  refine {| brk := fun k => Z.min k (2 ^ 26) |}.
  - intros k. unfold LIMIT. lia.
  - intros k n Hn. unfold brk_kernel. destruct (Z.ltb_spec (k + n) (2 ^ 26)).
    + exists k, (k + n). split; [done|]. right. lia.
    + exists SBRK_ERROR, k. split; [done|]. by left.
Defined.

(** The allocator before its first call, with its static header at 0x1000 and
    the break at 0x4000. *)
Definition fresh_alloc : ualloc := mk_ualloc ∅ ∅ 0.

Lemma fresh_heap : heap 0x1000 fresh_alloc ∅ 0x4000.
Proof. left. unfold LIMIT. split; [done|]. split; [done|]. lia. Qed.


(** One block of four headers in use, nothing free. *)
Definition one_live : ualloc := mk_ualloc {[0x1000 := 0x1000]} {[0x1000 := 0; 0x2000 := 4]} 0x1000.

Lemma one_live_heap : heap_ok 0x1000 one_live [] {[0x2000 := 4]} 0x4000.
Proof.
  split; try done; try (by intros ? ?%not_elem_of_nil); try (by intros ? ? ? ?%not_elem_of_nil).
  - split; [split| |].
    + by split; [constructor|].
    + done.
    + intros b Hb. apply elem_of_cons in Hb as [->|Hb]; [done|by apply not_elem_of_nil in Hb].
    + intros b Hb. apply elem_of_cons in Hb as [->|Hb]; [done|by apply not_elem_of_nil in Hb].
    + by intros ? ?%not_elem_of_nil.
    + apply elem_of_cons. by left.
  - intros a n H. apply lookup_singleton_Some in H as [<- <-]. repeat split; try lia; done.
  - intros a n a' n' H H' N. apply lookup_singleton_Some in H as [<- <-], H' as [<- <-]. done.
Qed.

Lemma free_correct_witness : exists s' l', ends brk_kernel (free one_live 0x2010) 0x4000 (Done s' 0x4000) /\
  heap_ok 0x1000 s' l' ∅ 0x4000 /\ covers l' 0x2020.
Proof.
  destruct (free_correct 0x1000 (h := brk_kernel) (B := brk_break) one_live {[0x2000 := 4]} 0x4000 0x2000 4 [] one_live_heap)
    as (s' & l' & E & H & C); [done|].
  exists s', l'. split; [exact E|]. split; [exact H|]. apply C. right. unfold HDR. lia.
Defined.
