(* ===== verification/Sh.v ===== *)
(** * The shell (user/sh.c)

    The parser works on the command line [text] (without its NUL).  A pointer
    into the line is the number of characters from it to the end [es], and a
    parsing function takes the characters that are left and returns those it
    leaves, as the code does through [ps].  Every node is a malloc(); when one
    fails, the memset() that follows faults.  A panic ends the process. *)

From S2P Require Import Prelude Abi User Ulib Uprintf UserSpec Utils.

Definition MAXARGS : nat := 10.

(** A token: pointers to its first character and past its last one. *)
Definition tok : Type := nat * nat.

(** The nodes; [argv] and [eargv] of an execcmd are one list of tokens. *)
Inductive cmd :=
| EXEC (argv : list tok)
| REDIR (c : cmd) (file : tok) (mode fd : Z)
| PIPE (left right : cmd)
| LIST (left right : cmd)
| BACK (c : cmd).

(** ** The parser's monad *)

(** The characters that are left, and how many malloc()s will succeed. *)
Record pst := mk_pst { p_s : list Z; p_mallocs : nat }.

Inductive pres (A : Type) :=
| POk (a : A) (s : pst)
| PPanic (msg : string)
| PLeftovers (s : list Z)
| PFault
| PFuel.
Arguments POk {A} a s.
Arguments PPanic {A} msg.
Arguments PLeftovers {A} s.
Arguments PFault {A}.
Arguments PFuel {A}.

Definition P (A : Type) : Type := pst -> pres A.
#[export] Instance P_ret : MRet P := fun A a s => POk a s.
#[export] Instance P_bind : MBind P := fun A B f m s =>
  match m s with
  | POk a s' => f a s'
  | PPanic msg => PPanic msg
  | PLeftovers l => PLeftovers l
  | PFault => PFault
  | PFuel => PFuel
  end.

Definition panic {A} (msg : string) : P A := fun _ => PPanic msg.

Definition out_of_fuel {A} : P A := fun _ => PFuel.

(** malloc() and memset() of a node. *)
Definition node : P unit := fun s =>
  match p_mallocs s with
  | O => PFault
  | S n => POk tt (mk_pst (p_s s) n)
  end.

Definition execcmd : P unit := node.
Definition redircmd (c : cmd) (file : tok) (mode fd : Z) : P cmd := node ;; mret (REDIR c file mode fd).
Definition pipecmd (l r : cmd) : P cmd := node ;; mret (PIPE l r).
Definition listcmd (l r : cmd) : P cmd := node ;; mret (LIST l r).
Definition backcmd (c : cmd) : P cmd := node ;; mret (BACK c).

(** ** Tokens *)

Definition whitespace : list Z := [32; 9; 13; 10; 11].
Definition symbols : list Z := chars "<|>&;()".

Definition in_set (l : list Z) (c : Z) : bool := bool_decide (is_Some (strchr l c)).
Definition wordchar (c : Z) : bool := (negb (in_set whitespace c) && negb (in_set symbols c))%bool.

Fixpoint skip (s : list Z) : list Z :=
  match s with
  | [] => []
  | c :: s' => if in_set whitespace c then skip s' else s
  end.

Fixpoint skip_word (s : list Z) : list Z :=
  match s with
  | [] => []
  | c :: s' => if wordchar c then skip_word s' else s
  end.

(** The kind of the token, its pointers, and the characters after it. *)
Definition gettoken_at (s : list Z) : Z * tok * list Z :=
  let s := skip s in
  let '(ret, e) :=
    match s with
    | [] => (0, s)
    | c :: s1 =>
        if c =? 0 then (0, s)
        else if bool_decide (c ∈ chars "|();&<") then (c, s1)
        else if c =? 62 then
          match s1 with
          | c1 :: s2 => if c1 =? 62 then (43, s2) else (62, s1)
          | [] => (62, s1)
          end
        else (97, skip_word s)
    end in
  (ret, (length s, length e), skip e).

Definition gettoken : P (Z * tok) := fun s =>
  let '(ret, t, s') := gettoken_at (p_s s) in POk (ret, t) (mk_pst s' (p_mallocs s)).

Definition peek (toks : list Z) : P bool := fun s =>
  let s' := skip (p_s s) in
  POk (match s' with c :: _ => (negb (c =? 0) && in_set toks c)%bool | [] => false end) (mk_pst s' (p_mallocs s)).

(** ** Commands *)

(** The loop of parseredirs(); every turn reads a character. *)
Fixpoint parseredirs (fuel : nat) (c : cmd) : P cmd :=
  b ← peek (chars "<>");
  if negb b then mret c else
  match fuel with
  | O => out_of_fuel
  | S fuel' =>
      '(t, _) ← gettoken;
      '(t', q) ← gettoken;
      if negb (t' =? 97) then panic "missing file for redirection" else
      c ← (if t =? 60 then redircmd c q O_RDONLY 0
           else if t =? 62 then redircmd c q (Z.lor (Z.lor O_WRONLY O_CREATE) O_TRUNC) 1
           else if t =? 43 then redircmd c q (Z.lor O_WRONLY O_CREATE) 1
           else mret c);
      parseredirs fuel' c
  end.

(** A node that parseredirs() puts around the execcmd whose arguments are
    still being read: file, mode and descriptor. *)
Fixpoint replace_exec (c : cmd) (argv : list tok) : cmd :=
  match c with
  | REDIR c' f m d => REDIR (replace_exec c' argv) f m d
  | _ => EXEC argv
  end.

(** The loop of parseexec().  [ret] has the execcmd innermost, under the
    redirections read so far; storing an argument changes it in place. *)
Fixpoint parse_args (fuel : nat) (argv : list tok) (ret : cmd) : P cmd :=
  b ← peek (chars "|)&;");
  if b : bool then mret (replace_exec ret argv) else
  match fuel with
  | O => out_of_fuel
  | S fuel' =>
      '(t, q) ← gettoken;
      if t =? 0 then mret (replace_exec ret argv)
      else if negb (t =? 97) then panic "syntax" else
      let argv := argv ++ [q] in
      if (MAXARGS <=? length argv)%nat then panic "too many args" else
      ret ← parseredirs fuel' ret;
      parse_args fuel' argv ret
  end.

(** The loop over the [&]s of parseline(). *)
Fixpoint parse_backs (fuel : nat) (c : cmd) : P cmd :=
  b ← peek (chars "&");
  if negb b then mret c else
  match fuel with
  | O => out_of_fuel
  | S fuel' =>
      gettoken ;;
      c ← backcmd c;
      parse_backs fuel' c
  end.

Fixpoint parseline (fuel : nat) : P cmd :=
  match fuel with
  | O => out_of_fuel
  | S fuel' =>
      c ← parsepipe fuel';
      c ← parse_backs fuel' c;
      b ← peek (chars ";");
      if b : bool then
        gettoken ;;
        r ← parseline fuel';
        listcmd c r
      else mret c
  end
with parsepipe (fuel : nat) : P cmd :=
  match fuel with
  | O => out_of_fuel
  | S fuel' =>
      c ← parseexec fuel';
      b ← peek (chars "|");
      if b : bool then
        gettoken ;;
        r ← parsepipe fuel';
        pipecmd c r
      else mret c
  end
with parseexec (fuel : nat) : P cmd :=
  match fuel with
  | O => out_of_fuel
  | S fuel' =>
      b ← peek (chars "(");
      if b : bool then parseblock fuel' else
      execcmd ;;
      ret ← parseredirs fuel' (EXEC []);
      parse_args fuel' [] ret
  end
with parseblock (fuel : nat) : P cmd :=
  match fuel with
  | O => out_of_fuel
  | S fuel' =>
      b ← peek (chars "(");
      if negb b then panic "parseblock" else
      gettoken ;;
      c ← parseline fuel';
      b ← peek (chars ")");
      if negb b then panic "syntax - missing )" else
      gettoken ;;
      parseredirs fuel' c
  end.

(** ** NUL-termination *)

(** Store a NUL at the pointer [e] of a line of [n] characters. *)
Definition put_nul (n : nat) (buf : list Z) (e : nat) : list Z := <[(n - e)%nat := 0]> buf.

Fixpoint nulterminate (n : nat) (c : cmd) (buf : list Z) : list Z :=
  match c with
  | EXEC argv => fold_left (fun b t => put_nul n b t.2) argv buf
  | REDIR c f _ _ => put_nul n (nulterminate n c buf) f.2
  | PIPE l r | LIST l r => nulterminate n r (nulterminate n l buf)
  | BACK c => nulterminate n c buf
  end.

(** The fuel is enough for every line: a character is read at least every
    four calls. *)
Definition parse_fuel (text : list Z) : nat := (4 * length text + 8)%nat.

(** The test [s != es] of parsecmd(). *)
Definition at_end : P unit := fun s =>
  match p_s s with
  | [] => POk tt s
  | l => PLeftovers l
  end.

(** parsecmd(): the tree and the line with its strings terminated. *)
Definition parsecmd (text : list Z) : P (cmd * list Z) :=
  c ← parseline (parse_fuel text);
  peek [] ;;
  at_end ;;
  mret (c, nulterminate (length text) c (text ++ [0])).

(** ** Running commands *)

Definition spanic {A} (s : string) : prog A := fprintf 2 ("%s" +:+ nl) [str (chars s)] ;; exit 1.

Definition fork1 : prog Z :=
  pid ← call SFork;
  if pid =? -1 then spanic "fork" else mret pid.

(** The string at a token of the terminated line [buf] of [n] characters. *)
Definition tok_str (n : nat) (buf : list Z) (t : tok) : list Z := cstr (drop (n - t.1) buf).

Fixpoint runcmd (n : nat) (buf : list Z) (c : cmd) : prog Empty_set :=
  match c with
  | EXEC [] => exit 1
  | EXEC (a :: argv) =>
      call (SExec (tok_str n buf a) (map (tok_str n buf) (a :: argv))) ;;
      fprintf 2 ("exec %s failed" +:+ nl) [str (tok_str n buf a)] ;;
      exit 0
  | REDIR c f mode fd =>
      call (SClose fd) ;;
      r ← call (SOpen (tok_str n buf f) mode);
      if r <? 0 then fprintf 2 ("open %s failed" +:+ nl) [str (tok_str n buf f)] ;; exit 1
      else runcmd n buf c
  | LIST l r =>
      pid ← fork1;
      if pid =? 0 then runcmd n buf l else
      call SWait ;;
      runcmd n buf r
  | PIPE l r =>
      '(e, (p0, p1)) ← call SPipe;
      if e <? 0 then spanic "pipe" else
      pid ← fork1;
      if pid =? 0 then
        call (SClose 1) ;; call (SDup p1) ;; call (SClose p0) ;; call (SClose p1) ;;
        runcmd n buf l
      else
      pid ← fork1;
      if pid =? 0 then
        call (SClose 0) ;; call (SDup p0) ;; call (SClose p0) ;; call (SClose p1) ;;
        runcmd n buf r
      else
      call (SClose p0) ;; call (SClose p1) ;;
      call SWait ;; call SWait ;;
      exit 0
  | BACK c =>
      pid ← fork1;
      if pid =? 0 then runcmd n buf c else exit 0
  end.

(** The child of the shell: parse and run.  A fault ends the process with the
    status the kernel gives it. *)
Definition run_line (mallocs : nat) (text : list Z) : prog Empty_set :=
  match parsecmd text (mk_pst text mallocs) with
  | POk (c, buf) _ => runcmd (length text) buf c
  | PPanic msg => spanic msg
  | PLeftovers s => fprintf 2 ("leftovers: %s" +:+ nl) [str s] ;; spanic "syntax"
  | PFault => exit (-1)
  | PFuel => loop (fun _ : unit => mret (inl tt)) tt
  end.

(** getcmd(): the buffer, or none at the end of the input. *)
Definition getcmd (nbuf : nat) : prog (option (list Z)) :=
  call (SWrite 2 (chars "$ ")) ;;
  buf ← gets (memset (replicate nbuf 0) 0 nbuf) (Z.of_nat nbuf);
  mret (if nth 0 buf 0 =? 0 then None else Some buf).

Fixpoint skip_blanks (s : list Z) : list Z :=
  match s with
  | c :: s' => if ((c =? 32) || (c =? 9))%bool then skip_blanks s' else s
  | [] => []
  end.

(** One command: [true] when the shell goes on. *)
Definition sh_step (mallocs : nat) : prog bool :=
  b ← getcmd 100;
  match b with
  | None => mret false
  | Some buf =>
      let c := skip_blanks buf in
      if nth 0 c 0 =? 10 then mret true
      else if ((nth 0 c 0 =? 99) && (nth 1 c 0 =? 100) && (nth 2 c 0 =? 32))%bool then
        let dir := cstr (drop 3 (<[(strlen c - 1)%nat := 0]> c)) in
        r ← call (SChdir dir);
        (if r <? 0 then fprintf 2 ("cannot cd %s" +:+ nl) [str dir] else mret tt) ;;
        mret true
      else
        pid ← fork1;
        (if pid =? 0 then v ← run_line mallocs (cstr c); match v : Empty_set with end else mret tt) ;;
        call SWait ;;
        mret true
  end.

Definition sh_main (mallocs : nat) : prog Z :=
  loop (fun _ : unit =>
    fd ← call (SOpen (chars "console") O_RDWR);
    if 0 <=? fd then
      if 3 <=? fd then call (SClose fd) ;; mret (inr tt) else mret (inl tt)
    else mret (inr tt)) tt ;;
  loop (fun _ : unit => b ← sh_step mallocs; mret (if b : bool then inl tt else inr tt)) tt ;;
  exit 0.
