(* ===== verification/ShSpec.v ===== *)
(** * The shell's parser

    Every command line is parsed or refused: the fuel of the model is always
    enough.  The strings of the tree are the words of the line, although the
    parser cuts them out of the line in place.  A command tree, written out as
    a line, is parsed back to itself. *)

From S2P Require Import Prelude Abi User Ulib Uprintf UserSpec Utils Sh.

(** ** Characters *)

Lemma in_set_elem l c : Forall (fun x => x <> 0) l -> in_set l c = true <-> c ∈ l.
Proof. intros F. unfold in_set. rewrite bool_decide_eq_true. by apply strchr_elem. Qed.

Lemma skip_suffix s : exists p, s = p ++ skip s.
Proof. induction s as [|c s [p IH]]; [by exists []|]. cbn [skip]. destruct (in_set whitespace c); [|by exists []]. exists (c :: p). cbn. congruence. Qed.

Lemma skip_word_split s : exists w, s = w ++ skip_word s /\ Forall (fun c => wordchar c = true) w /\
  match skip_word s with [] => True | c :: _ => wordchar c = false end.
Proof.
  induction s as [|c s (w & IH & F & H)]; [by exists []|]. cbn [skip_word]. destruct (wordchar c) eqn:E.
  - exists (c :: w). split; [cbn; congruence|]. split; [by constructor|done].
  - exists []. done.
Qed.

Lemma skip_length s : (length (skip s) <= length s)%nat.
Proof. destruct (skip_suffix s) as [p E]. rewrite E at 2. rewrite length_app. lia. Qed.

Lemma skip_head s : match skip s with [] => True | c :: _ => in_set whitespace c = false end.
Proof. induction s as [|c s IH]; [done|]. cbn [skip]. by destruct (in_set whitespace c) eqn:E. Qed.

(** The characters that are left stay a suffix of the line. *)
Definition suff (s t : list Z) : Prop := exists p, t = p ++ s.

Lemma suff_refl s : suff s s.
Proof. by exists []. Qed.

Lemma suff_trans a b c : suff a b -> suff b c -> suff a c.
Proof. intros [p ->] [q ->]. exists (q ++ p). by rewrite app_assoc. Qed.

Lemma suff_skip s : suff (skip s) s.
Proof. apply skip_suffix. Qed.

Lemma suff_cons c s : suff s (c :: s).
Proof. by exists [c]. Qed.

Lemma suff_length a b : suff a b -> (length a <= length b)%nat.
Proof. intros [p ->]. rewrite length_app. lia. Qed.

Create HintDb sh discriminated.
#[local] Hint Resolve suff_refl suff_trans suff_skip suff_cons : sh.

(** ** Words *)

(** The token [t] is a word of the line: a maximal run of word characters. *)
Definition word_tok (text : list Z) (t : tok) : Prop :=
  exists p w e, text = p ++ w ++ e /\ t = (length (w ++ e), length e) /\ Forall (fun c => wordchar c = true) w /\
    match e with [] => True | c :: _ => wordchar c = false end.

Lemma symbol_cases c : bool_decide (c ∈ chars "|();&<") = true -> c <> 97 /\ c <> 0 /\ c <> 43.
Proof.
  rewrite bool_decide_eq_true. change (chars _) with [124; 40; 41; 59; 38; 60]. rewrite !elem_of_cons, elem_of_nil. lia.
Qed.

(** What gettoken() leaves; a token other than the end has characters. *)
Lemma gettoken_spec text s : suff s text -> let '(ret, t, s') := gettoken_at s in
  suff s' s /\ (ret = 97 -> word_tok text t) /\ (ret <> 0 -> (length s' < length s)%nat).
Proof.
  intros St. unfold gettoken_at. pose proof (skip_length s) as Ls. pose proof (suff_skip s) as Ss.
  assert (forall e c s1, skip s = c :: s1 -> suff e s1 -> suff (skip e) s /\ (length (skip e) < length s)%nat) as Short.
  { intros e c s1 E H. pose proof (suff_length _ _ H). pose proof (skip_length e). rewrite E in Ls, Ss. cbn in Ls. split; [|lia]. eauto with sh. }
  destruct (skip s) as [|c s1] eqn:E.
  { cbn. split; [done|]. done. }
  destruct (Z.eqb_spec c 0) as [->|N0].
  { split; [|done]. pose proof (suff_skip (0 :: s1)). eauto with sh. }
  destruct (bool_decide (c ∈ chars "|();&<")) eqn:Es.
  { destruct (symbol_cases c Es) as (? & ? & ?). destruct (Short s1 c s1 eq_refl (suff_refl _)). done. }
  destruct (Z.eqb_spec c 62) as [->|N62].
  { destruct s1 as [|c1 s2]; [destruct (Short [] 62 [] eq_refl (suff_refl _)); done|].
    destruct (Z.eqb_spec c1 62); [destruct (Short s2 62 (c1 :: s2) eq_refl (suff_cons _ _)); done|].
    destruct (Short (c1 :: s2) 62 (c1 :: s2) eq_refl (suff_refl _)); done. }
  assert (wordchar c = true) as Hc.
  { pose proof (skip_head s) as Hh. rewrite E in Hh. unfold wordchar. rewrite Hh. apply negb_true_iff, not_true_iff_false.
    rewrite in_set_elem by (repeat constructor; done). intros Hs. apply bool_decide_eq_false in Es. apply Es.
    change (chars "|();&<") with [124; 40; 41; 59; 38; 60]. change symbols with [60; 124; 62; 38; 59; 40; 41] in Hs.
    rewrite !elem_of_cons in *. tauto. }
  destruct (skip_word_split (c :: s1)) as (w & Ew & Fw & He). cbn [skip_word] in *. rewrite Hc in *.
  destruct w as [|c' w]; [apply (f_equal length) in Ew; cbn in Ew; destruct (skip_word_split s1) as (w1 & E1 & _); rewrite E1, length_app in Ew at 1; lia|].
  injection Ew as <- Ew. destruct (Short (skip_word s1) c s1 eq_refl) as [S1 S2]; [by exists w|]. split; [done|]. split; [|done]. intros _.
  destruct (suff_trans _ _ _ Ss St) as [p Ep]. exists p, (c :: w), (skip_word s1). split; [by rewrite Ep, Ew at 1|]. split; [|done].
  cbn. do 2 f_equal. by rewrite <- Ew.
Qed.

Lemma gettoken_end s : let '(ret, _, _) := gettoken_at s in ret = 0 -> match skip s with [] => True | c :: _ => c = 0 end.
Proof.
  unfold gettoken_at. destruct (skip s) as [|c s1]; [done|]. destruct (Z.eqb_spec c 0) as [|N]; [done|].
  destruct (bool_decide _) eqn:Es; [by destruct (symbol_cases c Es)|]. destruct (c =? 62); [|done].
  destruct s1 as [|c1 s2]; [done|]. by destruct (c1 =? 62).
Qed.

(** A token that peek() saw has characters. *)
Lemma gettoken_seen text s toks : suff s text -> (match skip s with c :: _ => (negb (c =? 0) && in_set toks c)%bool | [] => false end) = true ->
  let '(_, _, s') := gettoken_at (skip s) in suff s' s /\ (length s' < length s)%nat.
Proof.
  intros St B. pose proof (gettoken_spec text (skip s)) as G. pose proof (gettoken_end (skip s)) as E.
  destruct (gettoken_at (skip s)) as [[ret t] s']. destruct G as (G1 & _ & G3); [eauto with sh|].
  split; [eauto with sh|]. pose proof (skip_length s). destruct (Z.eq_dec ret 0) as [->|N]; [|specialize (G3 N); lia].
  specialize (E eq_refl). assert (skip (skip s) = skip s) as Sk.
  { pose proof (skip_head s) as Hh. destruct (skip s) as [|c s1]; [done|]. cbn. by rewrite Hh. }
  rewrite Sk in E. destruct (skip s) as [|c s1]; [done|]. subst. done.
Qed.

(** ** What every parsing function returns *)

Fixpoint toks (c : cmd) : list tok :=
  match c with
  | EXEC argv => argv
  | REDIR c f _ _ => f :: toks c
  | PIPE l r | LIST l r => toks l ++ toks r
  | BACK c => toks c
  end.

(** The run is not out of fuel; a result leaves a suffix of what it was given
    and has words of the line as tokens. *)
Definition fine (text : list Z) (s : pst) (r : pres cmd) : Prop :=
  match r with
  | POk c s' => suff (p_s s') (p_s s) /\ Forall (word_tok text) (toks c)
  | PFuel => False
  | _ => True
  end.

Lemma fine_more text s s' r : suff (p_s s') (p_s s) -> fine text s' r -> fine text s r.
Proof. intros H F. destruct r; try done. destruct F as [F1 F2]. split; [eauto with sh|done]. Qed.

Lemma fine_node text s (c : cmd) : Forall (word_tok text) (toks c) -> fine text s ((node ;; mret c) s).
Proof. intros F. unfold node, mbind, P_bind, mret, P_ret. destruct (p_mallocs s); [done|]. split; [apply suff_refl|done]. Qed.

(** A run of [m] and then [k], when [m] is fine. *)
Lemma fine_bind text s (m : P cmd) (k : cmd -> P cmd) :
  fine text s (m s) -> (forall c s', suff (p_s s') (p_s s) -> Forall (word_tok text) (toks c) -> fine text s' (k c s')) ->
  fine text s ((m ≫= k) s).
Proof.
  intros F K. unfold mbind, P_bind. destruct (m s) as [c s'| | | |]; try done. destruct F as [F1 F2].
  apply (fine_more _ _ s'); [done|by apply K].
Qed.

(** peek() and then [k]; when it sees a token, the next gettoken() reads it. *)
Lemma fine_peek text s toks (k : bool -> P cmd) : suff (p_s s) text ->
  (forall s', suff (p_s s') (p_s s) -> fine text s' (k false s')) ->
  (forall s', suff (p_s s') (p_s s) ->
     (let '(_, _, r) := gettoken_at (p_s s') in suff r (p_s s) /\ (length r < length (p_s s))%nat) -> fine text s' (k true s')) ->
  fine text s ((peek toks ≫= k) s).
Proof.
  intros St Kf Kt. unfold mbind, P_bind, peek. pose proof (gettoken_seen text (p_s s) toks St) as G.
  destruct (match skip (p_s s) with c :: _ => _ | [] => false end).
  - apply (fine_more _ _ (mk_pst (skip (p_s s)) (p_mallocs s))); [apply suff_skip|]. apply Kt; [apply suff_skip|by apply G].
  - apply (fine_more _ _ (mk_pst (skip (p_s s)) (p_mallocs s))); [apply suff_skip|]. apply Kf, suff_skip.
Qed.

Lemma fine_gettoken text s (k : Z * tok -> P cmd) : suff (p_s s) text ->
  (forall ret t s', suff (p_s s') (p_s s) -> p_s s' = (gettoken_at (p_s s)).2 -> (ret = 97 -> word_tok text t) ->
     (ret <> 0 -> (length (p_s s') < length (p_s s))%nat) -> fine text s' (k (ret, t) s')) ->
  fine text s ((gettoken ≫= k) s).
Proof.
  intros St K. unfold mbind, P_bind, gettoken. pose proof (gettoken_spec text (p_s s) St) as G.
  destruct (gettoken_at (p_s s)) as [[ret t] s'] eqn:E. destruct G as (G1 & G2 & G3).
  apply (fine_more _ _ (mk_pst s' (p_mallocs s))); [done|]. by apply K.
Qed.

(** After a token that peek() saw: the state is shorter than [s]. *)
Lemma fine_seen text s s' (k : P cmd) : suff (p_s s') text -> suff (p_s s') (p_s s) ->
  (let '(_, _, r) := gettoken_at (p_s s') in suff r (p_s s) /\ (length r < length (p_s s))%nat) ->
  (forall s2, suff (p_s s2) (p_s s) -> (length (p_s s2) < length (p_s s))%nat -> fine text s2 (k s2)) ->
  fine text s' ((gettoken ;; k) s').
Proof.
  intros St Ss G K. apply fine_gettoken; [done|]. intros ret t s2 S2 E2 _ _. rewrite E2 in *.
  destruct (gettoken_at (p_s s')) as [[r0 t0] r] eqn:Eg. cbn in *. destruct G as [G1 G2]. apply K; by rewrite E2.
Qed.

Lemma parseredirs_fine text : forall f c s, suff (p_s s) text -> (length (p_s s) <= f)%nat -> Forall (word_tok text) (toks c) ->
  fine text s (parseredirs f c s).
Proof.
  induction f as [|f IH]; intros c s St Hf Fc; cbn [parseredirs]; (apply fine_peek; [done| |]).
  1, 3: intros s' Ss; split; [apply suff_refl|done].
  - intros s' Ss. destruct (gettoken_at (p_s s')) as [[? ?] r]. intros [_ H]. lia.
  - intros s' Ss G. cbn [negb]. apply fine_gettoken; [eauto with sh|]. intros ret t s2 S2 E2 _ _.
    assert (length (p_s s2) < length (p_s s))%nat as L2.
    { rewrite E2. destruct (gettoken_at (p_s s')) as [[? ?] r]. apply G. }
    apply fine_gettoken; [eauto with sh|]. intros ret' q s3 S3 _ Hq _. destruct (Z.eqb_spec ret' 97) as [->|]; [|done]. cbn [negb].
    assert (suff (p_s s3) text) as St3 by eauto with sh. apply suff_length in S3. specialize (Hq eq_refl).
    apply fine_bind.
    + repeat case_if; try (apply fine_node; by constructor). split; [apply suff_refl|done].
    + intros c' s4 S4 F4. apply suff_length in S4 as L4. apply IH; [eauto with sh|lia|done].
Qed.

Lemma replace_exec_fine text c argv : Forall (word_tok text) (toks c) -> Forall (word_tok text) argv ->
  Forall (word_tok text) (toks (replace_exec c argv)).
Proof. intros F G. induction c; cbn in *; try done. apply Forall_cons_1 in F as [F1 F2]. constructor; auto. Qed.

Lemma parse_args_fine text : forall f argv ret s, suff (p_s s) text -> (length (p_s s) < f)%nat ->
  Forall (word_tok text) argv -> Forall (word_tok text) (toks ret) -> fine text s (parse_args f argv ret s).
Proof.
  induction f as [|f IH]; intros argv ret s St Hf Fa Fr; [lia|]. cbn [parse_args]. apply fine_peek; [done| |].
  2: intros s' Ss _; split; [apply suff_refl|by apply replace_exec_fine].
  intros s' Ss. apply fine_gettoken; [eauto with sh|]. intros t q s2 S2 E2 Hq Hl.
  destruct (Z.eqb_spec t 0) as [->|N0]; [split; [apply suff_refl|by apply replace_exec_fine]|].
  destruct (Z.eqb_spec t 97) as [->|]; [|done]. cbn [negb]. destruct (MAXARGS <=? _)%nat; [done|].
  specialize (Hq eq_refl). specialize (Hl N0). apply suff_length in Ss as L1. assert (suff (p_s s2) text) as St2 by eauto with sh.
  apply fine_bind; [apply parseredirs_fine; [done|lia|done]|]. intros c s3 S3 F3. apply suff_length in S3 as L3.
  apply IH; [eauto with sh|lia| |done]. apply Forall_app. split; [done|by constructor].
Qed.

Lemma parse_backs_fine text : forall f c s, suff (p_s s) text -> (length (p_s s) <= f)%nat -> Forall (word_tok text) (toks c) ->
  fine text s (parse_backs f c s).
Proof.
  induction f as [|f IH]; intros c s St Hf Fc; cbn [parse_backs]; (apply fine_peek; [done| |]).
  1, 3: intros s' Ss; split; [apply suff_refl|done].
  - intros s' Ss. destruct (gettoken_at (p_s s')) as [[? ?] r]. intros [_ H]. lia.
  - intros s' Ss G. cbn [negb]. apply (fine_seen text s s'); [eauto with sh|done|done|]. intros s2 S2 L2.
    apply fine_bind; [by apply fine_node|]. intros c' s3 S3 F3. apply suff_length in S3 as L3. apply IH; [eauto with sh|lia|done].
Qed.

(** The four mutually recursive functions; [4 n + k] fuel is enough for [n]
    characters. *)
Lemma parse_fine text : forall n s, suff (p_s s) text -> (length (p_s s) <= n)%nat ->
  (forall f, (4 * n + 4 <= f)%nat -> fine text s (parseline f s)) /\
  (forall f, (4 * n + 3 <= f)%nat -> fine text s (parsepipe f s)) /\
  (forall f, (4 * n + 2 <= f)%nat -> fine text s (parseexec f s)) /\
  (forall f, (4 * n + 1 <= f)%nat -> fine text s (parseblock f s)).
Proof.
  induction n as [n IH] using lt_wf_ind.
  assert (forall s2, suff (p_s s2) text -> (length (p_s s2) < n)%nat ->
    (forall f, (4 * n <= f)%nat -> fine text s2 (parseline f s2)) /\ (forall f, (4 * n <= f)%nat -> fine text s2 (parsepipe f s2))) as Rec.
  { intros s2 S2 L2. destruct (IH (n - 1)%nat ltac:(lia) s2 S2 ltac:(lia)) as (I1 & I2 & _).
    split; intros f Hf; [apply I1|apply I2]; lia. }
  assert (forall s s2, suff (p_s s) text -> (length (p_s s) <= n)%nat -> suff (p_s s2) (p_s s) -> suff (p_s s2) text /\ (length (p_s s2) <= n)%nat) as Sub.
  { intros s s2 St Hn S2. pose proof (suff_length _ _ S2). split; [eauto with sh|lia]. }
  assert (forall s, suff (p_s s) text -> (length (p_s s) <= n)%nat -> forall f, (4 * n + 1 <= f)%nat -> fine text s (parseblock f s)) as Hblock.
  { intros s St Hn [|f] Hf; [lia|]. cbn [parseblock]. apply fine_peek; [done|done|]. intros s' Ss G. cbn [negb]. destruct (Sub s s' St Hn Ss).
    apply (fine_seen text s s'); [done|done|done|]. intros s2 S2 L2. destruct (Sub s s2 St Hn S2).
    apply fine_bind; [apply Rec; [done|lia|lia]|]. intros c s3 S3 F3.
    apply fine_peek; [eauto with sh|done|]. intros s4 S4 G4. cbn [negb]. destruct (Sub s2 s3 ltac:(done) ltac:(done) S3). destruct (Sub s3 s4 ltac:(done) ltac:(done) S4).
    apply (fine_seen text s3 s4); [done|done|done|]. intros s5 S5 L5. destruct (Sub s3 s5) as [? ?]; [done|done|done|].
    apply parseredirs_fine; [done|lia|done]. }
  assert (forall s, suff (p_s s) text -> (length (p_s s) <= n)%nat -> forall f, (4 * n + 2 <= f)%nat -> fine text s (parseexec f s)) as Hexec.
  { intros s St Hn [|f] Hf; [lia|]. cbn [parseexec]. apply fine_peek; [done| |].
    - intros s' Ss. destruct (Sub s s' St Hn Ss). unfold execcmd, node, mbind at 1, P_bind at 1. destruct (p_mallocs s'); [done|].
      apply (fine_more _ _ (mk_pst (p_s s') n0)); [apply suff_refl|].
      apply fine_bind; [apply parseredirs_fine; [done|cbn; lia|constructor]|]. intros c s2 S2 F2.
      destruct (Sub s' s2) as [? ?]; [done|done|done|]. apply parse_args_fine; [done|lia|constructor|done].
    - intros s' Ss _. destruct (Sub s s' St Hn Ss). apply Hblock; [done|done|lia]. }
  assert (forall s, suff (p_s s) text -> (length (p_s s) <= n)%nat -> forall f, (4 * n + 3 <= f)%nat -> fine text s (parsepipe f s)) as Hpipe.
  { intros s St Hn [|f] Hf; [lia|]. cbn [parsepipe]. apply fine_bind; [apply Hexec; [done|done|lia]|]. intros c s1 S1 F1. destruct (Sub s s1 St Hn S1).
    apply fine_peek; [done|intros s2 _; split; [apply suff_refl|done]|]. intros s2 S2 G. destruct (Sub s1 s2 ltac:(done) ltac:(done) S2).
    apply (fine_seen text s1 s2); [done|done|done|]. intros s3 S3 L3. destruct (Sub s1 s3) as [? ?]; [done|done|done|].
    apply fine_bind; [apply Rec; [done|lia|lia]|]. intros r s4 S4 F4. apply fine_node. apply Forall_app. done. }
  intros s St Hn. split; [|split; [by apply Hpipe|split; [by apply Hexec|by apply Hblock]]].
  intros [|f] Hf; [lia|]. cbn [parseline]. apply fine_bind; [apply Hpipe; [done|done|lia]|]. intros c s1 S1 F1. destruct (Sub s s1 St Hn S1).
  apply fine_bind; [apply parse_backs_fine; [done|lia|done]|]. intros c' s2 S2 F2. destruct (Sub s1 s2) as [? ?]; [done|done|done|].
  apply fine_peek; [done|intros s3 _; split; [apply suff_refl|done]|]. intros s3 S3 G. destruct (Sub s2 s3 ltac:(done) ltac:(done) S3).
  apply (fine_seen text s2 s3); [done|done|done|]. intros s4 S4 L4. destruct (Sub s2 s4) as [? ?]; [done|done|done|].
  apply fine_bind; [apply Rec; [done|lia|lia]|]. intros r s5 S5 F5. apply fine_node. apply Forall_app. done.
Qed.

(** C31 The parser of the shell terminates on every command line, with
    any amount of memory: the loops and the recursion of parsecmd() never
    exhaust the fuel of the model, [4 n + 8] for a line of [n] characters, so
    that it returns a tree, reports a syntax error, or faults because a
    malloc() failed. *)
Theorem parsecmd_terminates text mallocs : parsecmd text (mk_pst text mallocs) <> PFuel.
Proof.
  unfold parsecmd, mbind, P_bind.
  destruct (parse_fine text (length text) (mk_pst text mallocs) (suff_refl _) ltac:(done)) as (H & _).
  specialize (H (parse_fuel text) ltac:(unfold parse_fuel; lia)). destruct (parseline _ _) as [c s| | | |]; try done.
  unfold peek, at_end. cbn. by destruct (skip (p_s s)).
Qed.

(** ** The strings of the tree *)

(** The characters of a token, and the line when only separators of it have
    been overwritten by NULs. *)
Definition word_text (text : list Z) (t : tok) : list Z := take (t.1 - t.2) (drop (length text - t.1) text).

Definition cut_buf (text buf : list Z) : Prop :=
  length buf = S (length text) /\
  forall i c, text !! i = Some c -> wordchar c = true -> buf !! i = Some c.

Lemma put_nul_cut text buf t : cut_buf text buf -> word_tok text t ->
  cut_buf text (put_nul (length text) buf t.2) /\ put_nul (length text) buf t.2 !! (length text - t.2)%nat = Some 0 /\
  forall i, buf !! i = Some 0 -> put_nul (length text) buf t.2 !! i = Some 0.
Proof.
  intros [L C] (p & w & e & -> & -> & Fw & He). unfold put_nul. cbn [snd].
  assert (length (p ++ w ++ e) - length e = length (p ++ w))%nat as -> by (rewrite !length_app; lia).
  assert (length (p ++ w) < length buf)%nat by (rewrite L, !length_app; lia).
  split; [split|split].
  - by rewrite length_insert.
  - intros i c Hi Hc. rewrite list_lookup_insert_ne; [by apply C|]. intros <-.
    rewrite app_assoc, lookup_app_r, Nat.sub_diag in Hi by lia. destruct e as [|c' e]; cbn in Hi; simplify_eq. congruence.
  - by apply list_lookup_insert_eq.
  - intros i Hi. destruct (decide (i = length (p ++ w))) as [->|N]; [by apply list_lookup_insert_eq|by rewrite list_lookup_insert_ne].
Qed.

(** The NULs that nulterminate() has stored for the tokens [l]. *)
Definition cut_at (text buf : list Z) (l : list tok) : Prop :=
  cut_buf text buf /\ forall t, t ∈ l -> buf !! (length text - t.2)%nat = Some 0.

Lemma cut_at_put text buf l t : cut_at text buf l -> word_tok text t -> cut_at text (put_nul (length text) buf t.2) (t :: l).
Proof.
  intros [C Z] Wt. destruct (put_nul_cut text buf t C Wt) as (C' & N & K). split; [done|]. intros t' Ht.
  apply elem_of_cons in Ht as [->|Ht]; [done|]. apply K. by apply Z.
Qed.

Lemma cut_at_perm text buf l l' : (forall t, t ∈ l' -> t ∈ l) -> cut_at text buf l -> cut_at text buf l'.
Proof. intros H [C Z]. split; [done|]. auto. Qed.

Lemma cut_at_exec text argv : forall buf l, cut_at text buf l -> Forall (word_tok text) argv ->
  cut_at text (fold_left (fun b t => put_nul (length text) b t.2) argv buf) (argv ++ l).
Proof.
  induction argv as [|t argv IH]; intros buf l C F; [done|]. apply Forall_cons_1 in F as [Ft F]. cbn [fold_left].
  eapply cut_at_perm; [|apply (IH _ (t :: l)); [by apply cut_at_put|done]].
  intros t'. cbn [app]. rewrite elem_of_cons, !elem_of_app, elem_of_cons. tauto.
Qed.

Lemma nulterminate_cut text c : forall buf l, cut_at text buf l -> Forall (word_tok text) (toks c) ->
  cut_at text (nulterminate (length text) c buf) (toks c ++ l).
Proof.
  induction c as [argv|c IH f m d|a IHa b IHb|a IHa b IHb|c IH]; intros buf l C F; cbn [nulterminate toks] in *.
  - by apply cut_at_exec.
  - apply Forall_cons_1 in F as [Ff F]. apply cut_at_put; [by apply IH|done].
  - apply Forall_app in F as [Fa Fb]. eapply cut_at_perm; [|apply (IHb _ (toks a ++ l)); [by apply IHa|done]].
    intros t. rewrite !elem_of_app. tauto.
  - apply Forall_app in F as [Fa Fb]. eapply cut_at_perm; [|apply (IHb _ (toks a ++ l)); [by apply IHa|done]].
    intros t. rewrite !elem_of_app. tauto.
  - by apply IH.
Qed.

(** A token of such a line reads as its word. *)
Lemma cut_word text buf l t : Forall (fun c => c <> 0) text -> cut_at text buf l -> t ∈ l -> word_tok text t ->
  tok_str (length text) buf t = word_text text t.
Proof.
  intros Nz [[L C] Z] Ht (p & w & e & -> & -> & Fw & He). specialize (Z _ Ht). unfold tok_str, word_text. cbn [fst snd] in *.
  assert (length (p ++ w ++ e) - length (w ++ e) = length p)%nat as -> by (rewrite !length_app; lia).
  assert (length (p ++ w ++ e) - length e = length p + length w)%nat as Ez by (rewrite !length_app; lia). rewrite Ez in Z.
  rewrite drop_app_length. replace (length (w ++ e) - length e)%nat with (length w) by (rewrite length_app; lia). rewrite take_app_length.
  assert (exists tl, drop (length p) buf = w ++ 0 :: tl) as [tl ->].
  { exists (drop (length p + length w + 1) buf). rewrite <- (take_drop (length w) (drop (length p) buf)). f_equal.
    - apply list_eq. intros i. destruct (decide (i < length w)%nat) as [Hi|Hi].
      + rewrite lookup_take_lt, lookup_drop by done. destruct (lookup_lt_is_Some_2 w i Hi) as [c Hc]. rewrite Hc.
        apply C; [rewrite lookup_app_r, Nat.add_comm, Nat.add_sub by lia; rewrite lookup_app_l by done; done|].
        rewrite Forall_forall in Fw. apply Fw. by eapply list_elem_of_lookup_2.
      + rewrite lookup_take_ge, lookup_ge_None_2 by lia. done.
    - rewrite drop_drop. by apply (drop_S buf 0 (length p + length w)) in Z as ->; rewrite Nat.add_1_r. }
  assert (Forall (fun c => c <> 0) w) as Nw by (apply Forall_app in Nz as [_ Nz]; by apply Forall_app in Nz as [Nz _]).
  unfold cstr. clear -Nw. induction Nw as [|c w Hc _ IH]; [done|]. cbn [app strlen]. destruct (Z.eqb_spec c 0); [done|]. cbn. f_equal. exact IH.
Qed.



(** ** Trees and their lines *)

(** A command tree with its strings. *)
Inductive tree :=
| TExec (argv : list (list Z))
| TRedir (t : tree) (file : list Z) (mode fd : Z)
| TPipe (l r : tree)
| TList (l r : tree)
| TBack (t : tree).

Fixpoint decode (text : list Z) (c : cmd) : tree :=
  match c with
  | EXEC argv => TExec (map (word_text text) argv)
  | REDIR c f m d => TRedir (decode text c) (word_text text f) m d
  | PIPE l r => TPipe (decode text l) (decode text r)
  | LIST l r => TList (decode text l) (decode text r)
  | BACK c => TBack (decode text c)
  end.

(** A word that can be written in a line; the symbol of a redirection. *)
Definition is_word (w : list Z) : Prop := w <> [] /\ Forall (fun c => wordchar c = true /\ c <> 0) w.
Definition redir_sym (mode fd : Z) : option (list Z) :=
  if ((mode =? O_RDONLY) && (fd =? 0))%bool then Some [60]
  else if ((mode =? Z.lor (Z.lor O_WRONLY O_CREATE) O_TRUNC) && (fd =? 1))%bool then Some [62]
  else if ((mode =? Z.lor O_WRONLY O_CREATE) && (fd =? 1))%bool then Some [62; 62]
  else None.

Fixpoint writable (t : tree) : Prop :=
  match t with
  | TExec argv => (length argv < MAXARGS)%nat /\ Forall is_word argv
  | TRedir t f m d => writable t /\ is_word f /\ redir_sym m d <> None
  | TPipe l r | TList l r => writable l /\ writable r
  | TBack t => writable t
  end.

(** The line of a tree.  The level says what may stand at the place: 0 a
    simple command, 1 a pipe, 2 background commands, 3 a list; anything else
    is put in parentheses. *)
Definition paren (lvl need : nat) (s : list Z) : list Z := if (lvl <? need)%nat then [40] ++ s ++ [41] else s.

Fixpoint line (lvl : nat) (t : tree) : list Z :=
  match t with
  | TExec argv => concat (map (fun w => 32 :: w) argv)
  | TRedir t f m d => line 0 t ++ 32 :: default [] (redir_sym m d) ++ f
  | TPipe l r => paren lvl 1 (line 0 l ++ [124] ++ line 1 r)
  | TBack t => paren lvl 2 (line 2 t ++ [38])
  | TList l r => paren lvl 3 (line 2 l ++ [59] ++ line 3 r)
  end.

(** The nodes of a tree. *)
Fixpoint nodes (t : tree) : nat :=
  match t with
  | TExec _ => 1
  | TRedir t _ _ _ | TBack t => S (nodes t)
  | TPipe l r | TList l r => S (nodes l + nodes r)
  end.

(** ** Reading the tokens of a line *)

Lemma wordchar_facts c : wordchar c = true -> in_set whitespace c = false /\ in_set symbols c = false.
Proof. unfold wordchar. rewrite andb_true_iff, !negb_true_iff. tauto. Qed.

Lemma in_set_false l c : Forall (fun x => x <> 0) l -> in_set l c = false <-> c ∉ l.
Proof. intros F. rewrite <- (in_set_elem l c F). by rewrite not_true_iff_false. Qed.

Lemma skip_stop c s : in_set whitespace c = false -> skip (c :: s) = c :: s.
Proof. intros H. cbn. by rewrite H. Qed.

Lemma skip_skip s : skip (skip s) = skip s.
Proof. pose proof (skip_head s) as H. destruct (skip s); [done|]. by apply skip_stop. Qed.

(** What follows a word: the end, a blank or a symbol. *)
Definition brk (s : list Z) : Prop := match s with [] => True | c :: _ => wordchar c = false end.

Lemma skip_word_app w more : Forall (fun c => wordchar c = true) w -> brk more -> skip_word (w ++ more) = more.
Proof.
  intros F B. induction F as [|c w Hc _ IH]; cbn [app skip_word]; [|by rewrite Hc].
  destruct more as [|c more]; [done|]. cbn in *. by rewrite B.
Qed.

Lemma is_word_split w : is_word w -> exists c w', w = c :: w' /\ wordchar c = true /\ c <> 0 /\ Forall (fun c => wordchar c = true) w.
Proof.
  intros [N F]. destruct w as [|c w']; [done|]. apply Forall_cons_1 in F as F'. destruct F' as [[H1 H2] F'].
  exists c, w'. split; [done|]. split; [done|]. split; [done|]. eapply Forall_impl; [exact F|]. intros x [Hx _]. done.
Qed.

Lemma skip_word_line w more : is_word w -> skip (w ++ more) = w ++ more.
Proof. intros H. destruct (is_word_split w H) as (c & w' & -> & Hc & _). cbn [app]. apply skip_stop. apply wordchar_facts in Hc. tauto. Qed.

Lemma gettoken_word s w more : skip s = w ++ more -> is_word w -> brk more ->
  gettoken_at s = (97, (length (w ++ more), length more), skip more).
Proof.
  intros E H B. unfold gettoken_at. rewrite E. destruct (is_word_split w H) as (c & w' & -> & Hc & N0 & F).
  pose proof (skip_word_app (c :: w') more F B) as Sw. cbn [app] in *. destruct (Z.eqb_spec c 0); [done|].
  apply wordchar_facts in Hc as [_ Hs]. rewrite in_set_false in Hs by (repeat constructor; done).
  change symbols with [60; 124; 62; 38; 59; 40; 41] in Hs. rewrite !elem_of_cons in Hs.
  rewrite bool_decide_eq_false_2 by (change (chars "|();&<") with [124; 40; 41; 59; 38; 60]; rewrite !elem_of_cons, elem_of_nil; tauto).
  destruct (Z.eqb_spec c 62); [tauto|]. by rewrite Sw.
Qed.

Lemma gettoken_sym s c more : skip s = c :: more -> c ∈ chars "|();&<" ->
  gettoken_at s = (c, (length (c :: more), length more), skip more).
Proof.
  intros E H. unfold gettoken_at. rewrite E. rewrite bool_decide_eq_true_2 by done.
  destruct (symbol_cases c (bool_decide_eq_true_2 _ H)) as (_ & N & _). by destruct (Z.eqb_spec c 0).
Qed.

Lemma gettoken_gt s c more : skip s = 62 :: c :: more -> c <> 62 ->
  gettoken_at s = (62, (length (62 :: c :: more), length (c :: more)), skip (c :: more)).
Proof.
  intros E N. unfold gettoken_at. rewrite E. change (bool_decide (62 ∈ chars "|();&<")) with false. cbn [Z.eqb].
  by destruct (Z.eqb_spec c 62).
Qed.

Lemma gettoken_gtgt s more : skip s = 62 :: 62 :: more -> gettoken_at s = (43, (length (62 :: 62 :: more), length more), skip more).
Proof. intros E. unfold gettoken_at. rewrite E. by change (bool_decide (62 ∈ chars "|();&<")) with false. Qed.

(** peek() on a known character. *)
Lemma peek_eq toks s : exists b, peek toks s = POk b (mk_pst (skip (p_s s)) (p_mallocs s)) /\
  b = match skip (p_s s) with c :: _ => (negb (c =? 0) && in_set toks c)%bool | [] => false end.
Proof. by eexists. Qed.

Lemma peek_yes toks s c more : skip (p_s s) = c :: more -> c <> 0 -> in_set toks c = true -> peek toks s = POk true (mk_pst (c :: more) (p_mallocs s)).
Proof. intros E N H. unfold peek. rewrite E, H. by destruct (Z.eqb_spec c 0). Qed.

Lemma peek_no toks s : match skip (p_s s) with c :: _ => in_set toks c = false | [] => True end ->
  peek toks s = POk false (mk_pst (skip (p_s s)) (p_mallocs s)).
Proof. intros H. unfold peek. destruct (skip (p_s s)) as [|c r]; [done|]. rewrite H. by rewrite andb_false_r. Qed.

Lemma bindE {A B} (m : P A) (k : A -> P B) s a s' : m s = POk a s' -> (m ≫= k) s = k a s'.
Proof. intros E. unfold mbind, P_bind. by rewrite E. Qed.

Lemma word_text_at text p w more : text = p ++ w ++ more -> word_text text (length (w ++ more), length more) = w.
Proof.
  intros ->. unfold word_text. cbn [fst snd].
  replace (length (p ++ w ++ more) - length (w ++ more))%nat with (length p) by (rewrite !length_app; lia).
  rewrite drop_app_length. replace (length (w ++ more) - length more)%nat with (length w) by (rewrite length_app; lia). apply take_app_length.
Qed.

(** ** Redirections *)

Definition rd : Type := list Z * Z * Z.
Definition rd_line (l : list rd) : list Z := concat (map (fun x => 32 :: default [] (redir_sym x.1.2 x.2) ++ x.1.1) l).
Definition rd_ok (x : rd) : Prop := is_word x.1.1 /\ redir_sym x.1.2 x.2 <> None.

(** Redirections put around a tree, the last one outermost. *)
Fixpoint wrap (t : tree) (l : list rd) : tree :=
  match l with
  | [] => t
  | x :: l' => wrap (TRedir t x.1.1 x.1.2 x.2) l'
  end.

Fixpoint redirs_on (c : cmd) (l : list (tok * Z * Z)) : cmd :=
  match l with
  | [] => c
  | x :: l' => redirs_on (REDIR c x.1.1 x.1.2 x.2) l'
  end.

Definition rd_of (text : list Z) (x : tok * Z * Z) : rd := (word_text text x.1.1, x.1.2, x.2).

Lemma decode_redirs text l : forall c, decode text (redirs_on c l) = wrap (decode text c) (map (rd_of text) l).
Proof. induction l as [|x l IH]; intros c; [done|]. cbn [redirs_on map wrap]. by rewrite IH. Qed.

Lemma redirs_on_app c l1 l2 : redirs_on c (l1 ++ l2) = redirs_on (redirs_on c l1) l2.
Proof. revert c. induction l1 as [|x l1 IH]; intros c; [done|]. cbn. apply IH. Qed.

Lemma replace_exec_redirs a argv l : replace_exec (redirs_on (EXEC a) l) argv = redirs_on (EXEC argv) l.
Proof.
  induction l as [|x l IH] using rev_ind; [done|]. rewrite !redirs_on_app. cbn. by rewrite IH.
Qed.

(** What can follow a simple command. *)
Definition stops (l rest : list Z) : Prop := match rest with [] => True | c :: _ => c ∈ l end.

Lemma stops_weaken l l' rest : stops l rest -> (forall c, c ∈ l -> c ∈ l') -> stops l' rest.
Proof. destruct rest; cbn; auto. Qed.

Lemma stops_facts rest : stops (chars "|)&;") rest -> skip rest = rest /\ brk rest /\
  match rest with [] => True | c :: _ => c <> 0 /\ in_set (chars "<>") c = false /\ in_set (chars "(") c = false /\ in_set (chars "|)&;") c = true end.
Proof.
  destruct rest as [|c rest]; [done|]. cbn [stops]. change (chars "|)&;") with [124; 41; 38; 59]. intros H.
  rewrite !elem_of_cons, elem_of_nil in H. destruct H as [->|[->|[->|[->|[]]]]]; done.
Qed.

Lemma parseredirs_none f c s : match skip (p_s s) with x :: _ => in_set (chars "<>") x = false | [] => True end ->
  parseredirs f c s = POk c (mk_pst (skip (p_s s)) (p_mallocs s)).
Proof. intros H. destruct f; cbn [parseredirs]; by rewrite (bindE _ _ _ _ _ (peek_no _ s H)). Qed.

Lemma suff_app_r p s : suff s (p ++ s).
Proof. by exists p. Qed.

(** The two tokens of a redirection. *)
Lemma redir_tokens s x more sym : skip (p_s s) = sym ++ x.1.1 ++ more -> redir_sym x.1.2 x.2 = Some sym -> is_word x.1.1 -> brk more ->
  exists t, gettoken s = POk (t, (length (sym ++ x.1.1 ++ more), length (x.1.1 ++ more))) (mk_pst (x.1.1 ++ more) (p_mallocs s)) /\
    forall c q, (if t =? 60 then redircmd c q O_RDONLY 0
       else if t =? 62 then redircmd c q (Z.lor (Z.lor O_WRONLY O_CREATE) O_TRUNC) 1
       else if t =? 43 then redircmd c q (Z.lor O_WRONLY O_CREATE) 1 else mret c) = redircmd c q x.1.2 x.2.
Proof.
  destruct x as [[w m] d]. cbn [fst snd]. intros E Hs Hw B. unfold redir_sym in Hs.
  destruct (is_word_split w Hw) as (c & w' & -> & Hc & N0 & _).
  assert (c <> 62) as N62.
  { apply wordchar_facts in Hc as [_ Hc]. intros ->. done. }
  pose proof (skip_word_line (c :: w') more Hw) as Sk. unfold gettoken.
  repeat case_if_in Hs; simplify_eq; cbn [app] in E, Sk |- *.
  - exists 60. split; [|done]. rewrite (gettoken_sym _ 60 _ E), Sk; [done|]. by apply (bool_decide_unpack _).
  - exists 62. split; [|done]. by rewrite (gettoken_gt _ _ _ E), Sk.
  - exists 43. split; [|done]. by rewrite (gettoken_gtgt _ _ E), Sk.
Qed.

Lemma brk_rd_line l rest : brk rest -> brk (rd_line l ++ rest).
Proof. by destruct l. Qed.

Lemma rd_line_cons x l : rd_line (x :: l) = 32 :: default [] (redir_sym x.1.2 x.2) ++ x.1.1 ++ rd_line l.
Proof. unfold rd_line. cbn [map concat]. cbn [app]. by rewrite app_assoc. Qed.

(** parseredirs() reads the redirections of a line. *)
Lemma parse_rd_line text rest : stops (chars "|)&;") rest -> forall l f c s m, skip (p_s s) = skip (rd_line l ++ rest) ->
  suff (p_s s) text -> (length (p_s s) <= f)%nat -> Forall rd_ok l -> p_mallocs s = (length l + m)%nat ->
  exists tl, parseredirs f c s = POk (redirs_on c tl) (mk_pst rest m) /\ map (rd_of text) tl = l.
Proof.
  intros St. destruct (stops_facts rest St) as (Sk & Bk & Hd). induction l as [|x l IH]; intros f c s m E Su Hf F M.
  - cbn [rd_line map concat app] in E. exists []. split; [|done]. rewrite parseredirs_none, E, M, Sk; [done|].
    rewrite E, Sk. destruct rest; [done|]. tauto.
  - apply Forall_cons_1 in F as [[Fw Fs] F]. destruct (redir_sym x.1.2 x.2) as [sym|] eqn:Es; [|done].
    rewrite rd_line_cons, Es in E. cbn [default] in E. set (more := rd_line l ++ rest) in *.
    assert (skip (p_s s) = skip (sym ++ x.1.1 ++ more)) as E0.
    { rewrite E. change (skip ((sym ++ x.1.1 ++ rd_line l) ++ rest) = skip (sym ++ x.1.1 ++ more)). unfold more. by rewrite <- !app_assoc. }
    clear E. rename E0 into E.
    assert (exists c0 r0, sym = c0 :: r0 /\ in_set whitespace c0 = false /\ c0 <> 0 /\ in_set (chars "<>") c0 = true) as (c0 & r0 & Ec & W0 & N0 & I0).
    { unfold redir_sym in Es. repeat case_if_in Es; simplify_eq; eexists _, _; done. }
    assert (skip (p_s s) = sym ++ x.1.1 ++ more) as E' by (rewrite E, Ec; by apply skip_stop).
    assert (brk more) as Bm by by apply brk_rd_line.
    set (s1 := mk_pst (sym ++ x.1.1 ++ more) (p_mallocs s)).
    assert (skip (p_s s1) = sym ++ x.1.1 ++ more) as E1 by (unfold s1; cbn [p_s]; rewrite Ec; by apply skip_stop).
    destruct (redir_tokens s1 x more sym E1 Es Fw Bm) as (t & T1 & T2).
    pose proof (gettoken_word (x.1.1 ++ more) x.1.1 more (skip_word_line _ _ Fw) Fw Bm) as T3.
    set (q := (length (x.1.1 ++ more), length more)) in *.
    assert (suff more text) as Sm.
    { apply (suff_trans _ (skip (p_s s))); [rewrite E', app_assoc; apply suff_app_r|]. eauto with sh. }
    assert (length sym <> 0)%nat as Ls by by rewrite Ec.
    pose proof (skip_length (p_s s)) as Lk. rewrite E' in Lk. rewrite !length_app in Lk. destruct f as [|f]; [lia|].
    destruct (IH f (REDIR c q x.1.2 x.2) (mk_pst (skip more) (length l + m)) m) as (tl & R & D); cbn [p_s p_mallocs]; try done.
    { apply skip_skip. } { eauto with sh. } { pose proof (skip_length more). lia. }
    exists ((q, x.1.2, x.2) :: tl). split.
    + cbn [parseredirs]. rewrite (bindE _ _ s true s1) by (unfold s1; rewrite Ec in E' |- *; by apply peek_yes).
      cbn [negb]. rewrite (bindE _ _ _ _ _ T1).
      rewrite (bindE gettoken _ _ (97, q) (mk_pst (skip more) (p_mallocs s))) by (unfold gettoken; cbn [p_s p_mallocs]; by rewrite T3).
      cbn [Z.eqb Pos.eqb negb]. rewrite T2. unfold redircmd.
      rewrite (bindE _ _ _ (REDIR c q x.1.2 x.2) (mk_pst (skip more) (length l + m))); [exact R|].
      unfold node, mbind, P_bind, mret, P_ret. cbn [p_mallocs p_s]. by rewrite M.
    + cbn [map]. unfold rd_of at 1. cbn [fst snd]. rewrite D. destruct Sm as [p0 Ep].
      destruct (suff_trans _ _ _ (suff_skip (p_s s)) Su) as [p Ep']. rewrite E' in Ep'.
      unfold q. rewrite (word_text_at text (p ++ sym)) by (by rewrite Ep', !app_assoc). by destruct x as [[? ?] ?].
Qed.

(** ** Simple commands *)

Definition words_line (args : list (list Z)) : list Z := concat (map (fun w => 32 :: w) args).

Lemma words_line_cons w args : words_line (w :: args) = 32 :: w ++ words_line args.
Proof. done. Qed.

Lemma parse_args_end f argv ret s rest : stops (chars "|)&;") rest -> skip (p_s s) = rest -> (0 < f)%nat ->
  parse_args f argv ret s = POk (replace_exec ret argv) (mk_pst rest (p_mallocs s)).
Proof.
  intros St E Hf. destruct (stops_facts rest St) as (Sk & Bk & Hd). destruct f as [|f]; [lia|]. cbn [parse_args].
  destruct rest as [|c rest].
  - rewrite (bindE _ _ _ _ _ (peek_no _ s ltac:(by rewrite E))). rewrite E. done.
  - destruct Hd as (N0 & _ & _ & I1). by rewrite (bindE _ _ _ _ _ (peek_yes _ s c rest E N0 I1)).
Qed.

(** A word character is none of the symbols. *)
Lemma word_not_sym c : wordchar c = true ->
  in_set (chars "|)&;") c = false /\ in_set (chars "<>") c = false /\ in_set (chars "(") c = false.
Proof.
  intros H. apply wordchar_facts in H as [_ H]. rewrite in_set_false in H by (repeat constructor; done).
  change symbols with [60; 124; 62; 38; 59; 40; 41] in H. rewrite !elem_of_cons in H.
  rewrite !in_set_false by (repeat constructor; done). change (chars "|)&;") with [124; 41; 38; 59]. change (chars "<>") with [60; 62]. change (chars "(") with [40].
  rewrite !elem_of_cons, !elem_of_nil. tauto.
Qed.

Lemma parse_args_line text rest l : stops (chars "|)&;") rest -> Forall rd_ok l -> forall args w f argv s m, Forall is_word (w :: args) ->
  skip (p_s s) = skip (words_line (w :: args) ++ rd_line l ++ rest) -> suff (p_s s) text -> (length (p_s s) < f)%nat ->
  (length argv + length (w :: args) < MAXARGS)%nat -> p_mallocs s = (length l + m)%nat ->
  exists ts tl, parse_args f argv (EXEC []) s = POk (redirs_on (EXEC (argv ++ ts)) tl) (mk_pst rest m) /\
    map (word_text text) ts = w :: args /\ map (rd_of text) tl = l.
Proof.
  intros St Fl. destruct (stops_facts rest St) as (Sk & Bk & Hd). induction args as [|w2 args IH]; intros w f argv s m Fw E Su Hf Ha M.
  all: apply Forall_cons_1 in Fw as [Fw Fws]; destruct f as [|f]; [lia|].
  all: match type of E with _ = skip (words_line (_ :: ?a) ++ _) => set (more := words_line a ++ rd_line l ++ rest) end.
  all: assert (skip (p_s s) = w ++ more) as E' by (rewrite E, words_line_cons; cbn [app]; change (skip (32 :: ?x)) with (skip x);
    rewrite <- app_assoc; by apply skip_word_line); clear E.
  all: assert (brk more) as Bm by (by apply (brk_rd_line l) in Bk || done).
  all: destruct (is_word_split w Fw) as (c & w' & Ew & Hc & N0 & _); destruct (word_not_sym c Hc) as (I1 & I2 & I3).
  all: pose proof (skip_length (p_s s)) as Lk; rewrite E', length_app in Lk; assert (0 < length w)%nat as Lw by (rewrite Ew; cbn; lia).
  all: pose proof (gettoken_word (w ++ more) w more (skip_word_line _ _ Fw) Fw Bm) as T; set (q := (length (w ++ more), length more)) in *.
  all: destruct (suff_trans _ _ _ (suff_skip (p_s s)) Su) as [p Ep]; rewrite E' in Ep.
  all: assert (word_text text q = w) as Wq by (by apply (word_text_at text p)).
  all: assert (suff (skip more) text) as Sm by (apply (suff_trans _ more); [apply suff_skip|]; rewrite Ep, app_assoc; apply suff_app_r).
  all: cbn [parse_args]; rewrite (bindE _ _ s false (mk_pst (w ++ more) (p_mallocs s))) by
    (rewrite <- E'; apply peek_no; rewrite E', Ew; exact I1).
  all: rewrite (bindE gettoken _ _ (97, q) (mk_pst (skip more) (p_mallocs s))) by (unfold gettoken; cbn [p_s p_mallocs]; by rewrite T).
  all: cbn [Z.eqb Pos.eqb negb]; rewrite length_app; cbn [length] in Ha |- *;
    destruct (Nat.leb_spec MAXARGS (length argv + 1)) as [|_]; [lia|]; pose proof (skip_length more) as Lm.
  - destruct (parse_rd_line text rest St l f (EXEC []) (mk_pst (skip more) (p_mallocs s)) m) as (tl & R & D); cbn [p_s]; try done; [apply skip_skip|lia|].
    exists [q], tl. rewrite (bindE _ _ _ _ _ R). rewrite (parse_args_end f _ _ _ rest) by (done || lia). rewrite replace_exec_redirs. split; [done|].
    cbn [map]. by rewrite Wq.
  - apply Forall_cons_1 in Fws as Fw2. destruct Fw2 as [Fw2 _]. destruct (is_word_split w2 Fw2) as (c2 & w2' & Ew2 & Hc2 & _).
    destruct (word_not_sym c2 Hc2) as (_ & J2 & _).
    assert (skip more = w2 ++ words_line args ++ rd_line l ++ rest) as Em.
    { unfold more. rewrite words_line_cons. cbn [app]. change (skip (32 :: ?x)) with (skip x). rewrite <- app_assoc. by apply skip_word_line. }
    destruct (IH w2 f (argv ++ [q]) (mk_pst (skip more) (p_mallocs s)) m) as (ts & tl & R & D1 & D2); try done.
    { apply skip_skip. } { cbn [p_s]. lia. } { rewrite length_app. cbn in *. lia. }
    exists (q :: ts), tl. rewrite (bindE _ _ _ (EXEC []) (mk_pst (skip more) (p_mallocs s))).
    + split; [|cbn [map]; by rewrite Wq, D1].
      etransitivity; [exact R|]. by rewrite <- app_assoc.
    + rewrite parseredirs_none; [cbn [p_s p_mallocs]; by rewrite skip_skip|]. cbn [p_s]. rewrite skip_skip, Em, Ew2. exact J2.
Qed.

(** ** The levels of the grammar *)

(** The parsing function [p] reads the line [ln] of the tree [t] up to one of
    the characters of [stop]. *)
Definition reads (p : nat -> P cmd) (k : nat) (stop ln : list Z) (t : tree) : Prop :=
  forall text rest s f m, stops stop rest -> skip (p_s s) = skip (ln ++ rest) -> suff (p_s s) text ->
    (4 * length (p_s s) + k <= f)%nat -> p_mallocs s = (nodes t + m)%nat ->
    exists c, p f s = POk c (mk_pst rest m) /\ decode text c = t.

Definition R0 (t : tree) : Prop := reads parseexec 2 (chars "|)&;") (line 0 t) t.
Definition R1 (t : tree) : Prop := reads parsepipe 3 (chars ")&;") (line 1 t) t.

(** Before the loop over the [&]s of parseline() is left. *)
Definition R2 (t : tree) : Prop :=
  forall text rest s f m, stops (chars ")&;") rest -> skip (p_s s) = skip (line 2 t ++ rest) -> suff (p_s s) text ->
    (4 * length (p_s s) + 3 <= f)%nat -> p_mallocs s = (nodes t + m)%nat ->
    exists c f', (parsepipe f ≫= parse_backs f) s = parse_backs f' c (mk_pst rest m) /\ decode text c = t /\ (length rest <= f')%nat.

Definition R3 (t : tree) : Prop := reads parseline 4 (chars ")") (line 3 t) t.

Lemma wrap_line t l : line 0 (wrap t l) = line 0 t ++ rd_line l.
Proof.
  revert t. induction l as [|x l IH]; intros t; cbn [wrap]; [by rewrite app_nil_r|]. rewrite IH. cbn [line]. rewrite rd_line_cons.
  rewrite <- app_assoc. cbn [app]. by rewrite <- app_assoc.
Qed.

Lemma wrap_nodes t l : nodes (wrap t l) = (nodes t + length l)%nat.
Proof. revert t. induction l as [|x l IH]; intros t; cbn; [lia|]. rewrite IH. cbn. lia. Qed.

(** The sets of stops of the levels, and what they exclude. *)
Lemma stops_pipe rest : stops (chars ")&;") rest -> stops (chars "|)&;") rest /\
  match rest with [] => True | c :: _ => in_set (chars "|") c = false end.
Proof.
  destruct rest as [|c rest]; [done|]. cbn [stops]. change (chars "|)&;") with [124; 41; 38; 59]. change (chars ")&;") with [41; 38; 59].
  rewrite !elem_of_cons, elem_of_nil. intros [->|[->|[->|[]]]]; (split; [tauto|done]).
Qed.

Lemma stops_list rest : stops (chars ")") rest -> stops (chars ")&;") rest /\
  match rest with [] => True | c :: _ => in_set (chars "&") c = false /\ in_set (chars ";") c = false end.
Proof.
  destruct rest as [|c rest]; [done|]. cbn [stops]. change (chars ")") with [41]. change (chars ")&;") with [41; 38; 59].
  rewrite !elem_of_cons, elem_of_nil. intros [->|[]]; (split; [tauto|done]).
Qed.

Lemma suff_skip_app a b : skip b = b -> suff b (skip (a ++ b)).
Proof.
  intros E. induction a as [|c a IH]; cbn [app]; [rewrite E; apply suff_refl|]. cbn [skip]. destruct (in_set _ _); [done|].
  apply (suff_app_r (c :: a)).
Qed.

(** After a part of the line has been read up to [b]. *)
Lemma suff_after s text a b : skip s = skip (a ++ b) -> skip b = b -> suff s text -> suff b text /\ (length b <= length s)%nat.
Proof.
  intros E Eb Su. assert (suff b s) as S1.
  { apply (suff_trans _ (skip s)); [rewrite E; by apply suff_skip_app|apply suff_skip]. }
  split; [by eapply suff_trans|by apply suff_length].
Qed.

Lemma bind_assocE {A B C} (m : P A) (k : A -> P B) (k' : B -> P C) s : (m ≫= fun a => k a ≫= k') s = ((m ≫= k) ≫= k') s.
Proof. unfold mbind, P_bind. by destruct (m s). Qed.

(** A symbol of one character that peek() has seen. *)
Lemma get_sym c more m : c ∈ chars "|();&<" ->
  gettoken (mk_pst (c :: more) m) = POk (c, (length (c :: more), length more)) (mk_pst (skip more) m).
Proof.
  intros Hc. unfold gettoken. cbn [p_s p_mallocs]. rewrite (gettoken_sym (c :: more) c more); [done| |done].
  apply skip_stop. change (chars "|();&<") with [124; 40; 41; 59; 38; 60] in Hc. rewrite !elem_of_cons, elem_of_nil in Hc.
  destruct Hc as [->|[->|[->|[->|[->|[->|[]]]]]]]; done.
Qed.

Ltac sym := try (unfold stops); by apply (bool_decide_unpack _).

(** A simple command: words and redirections. *)
Lemma read_exec args l : Forall is_word args -> (length args < MAXARGS)%nat -> Forall rd_ok l -> R0 (wrap (TExec args) l).
Proof.
  intros Fa La Fl text rest s f m St E Su Hf M. rewrite wrap_line, <- app_assoc in E. rewrite wrap_nodes in M. cbn [nodes] in M.
  change (line 0 (TExec args)) with (words_line args) in E. destruct (stops_facts rest St) as (Sk & Bk & Hd).
  destruct f as [|f]; [lia|]. pose proof (skip_length (p_s s)) as Lk. assert (suff (skip (p_s s)) text) as Su' by eauto with sh.
  assert (match skip (p_s s) with c :: _ => in_set (chars "(") c = false | [] => True end) as Np.
  { rewrite E. destruct args as [|w args].
    - destruct l as [|x l]; [cbn [words_line map concat app rd_line]; rewrite Sk; destruct rest; tauto|].
      apply Forall_cons_1 in Fl as [[Fx Fs] _]. cbn [words_line map concat app]. rewrite rd_line_cons. cbn [app]. change (skip (32 :: ?a)) with (skip a).
      unfold redir_sym in *. repeat case_if; try done.
    - apply Forall_cons_1 in Fa as [Fw _]. rewrite words_line_cons. cbn [app]. change (skip (32 :: ?a)) with (skip a). rewrite <- app_assoc, skip_word_line by done.
      destruct (is_word_split w Fw) as (c & w' & -> & Hc & _). apply word_not_sym in Hc. tauto. }
  cbn [parseexec]. rewrite (bindE _ _ _ _ _ (peek_no _ s Np)). unfold execcmd.
  rewrite (bindE node _ _ tt (mk_pst (skip (p_s s)) (length l + m))) by (unfold node; cbn [p_mallocs]; rewrite M; done).
  set (s1 := mk_pst (skip (p_s s)) (length l + m)). destruct args as [|w args].
  - destruct (parse_rd_line text rest St l f (EXEC []) s1 m) as (tl & R & D); try done; [cbn [p_s s1]; by rewrite skip_skip|cbn [p_s s1]; lia|].
    eexists. rewrite (bindE _ _ _ _ _ R), (parse_args_end f _ _ _ rest) by (done || lia). split; [done|].
    by rewrite replace_exec_redirs, decode_redirs, D.
  - rewrite (bindE _ _ s1 (EXEC []) s1).
    + destruct (parse_args_line text rest l St Fl args w f [] s1 m) as (ts & tl & R & D1 & D2); try done; cbn [p_s s1].
      { by rewrite skip_skip. } { lia. }
      eexists. split; [exact R|]. by rewrite decode_redirs, D2; cbn [decode app]; rewrite D1.
    + rewrite parseredirs_none; cbn [p_s s1 p_mallocs]; rewrite skip_skip; [done|]. rewrite E, words_line_cons. cbn [app].
      change (skip (32 :: ?a)) with (skip a). apply Forall_cons_1 in Fa as [Fw _]. rewrite <- app_assoc, skip_word_line by done.
      destruct (is_word_split w Fw) as (c & w' & -> & Hc & _). apply word_not_sym in Hc. tauto.
Qed.

(** Anything else in parentheses, and its redirections. *)
Lemma read_block t l : line 0 t = [40] ++ line 3 t ++ [41] -> R3 t -> Forall rd_ok l -> R0 (wrap t l).
Proof.
  intros El H Fl text rest s f m St E Su Hf M. rewrite wrap_line, El, <- !app_assoc in E. cbn [app] in E. rewrite wrap_nodes in M.
  change (skip (40 :: ?x)) with (40 :: x) in E. set (r2 := rd_line l ++ rest) in *. set (r1 := line 3 t ++ 41 :: r2) in *.
  pose proof (skip_length (p_s s)) as Lk. rewrite E in Lk. cbn [length] in Lk. destruct f as [|[|f]]; [lia|lia|].
  cbn [parseexec]. rewrite (bindE _ _ _ _ _ (peek_yes (chars "(") s 40 r1 E ltac:(done) ltac:(done))). cbn [parseblock].
  rewrite (bindE _ _ _ _ _ (peek_yes (chars "(") (mk_pst (40 :: r1) _) 40 r1 ltac:(done) ltac:(done) ltac:(done))). cbn [negb].
  rewrite (bindE _ _ _ _ _ (get_sym 40 r1 _ ltac:(sym))). pose proof (skip_length r1) as L1.
  assert (suff (skip r1) text) as S1.
  { apply (suff_trans _ r1); [apply suff_skip|]. apply (suff_trans _ (40 :: r1)); [apply suff_cons|]. rewrite <- E. eauto with sh. }
  destruct (H text (41 :: r2) (mk_pst (skip r1) (p_mallocs s)) f (length l + m)%nat) as (c & R & D); cbn [p_s p_mallocs]; try done.
  { sym. } { apply skip_skip. } { lia. } { lia. }
  rewrite (bindE _ _ _ _ _ R). rewrite (bindE _ _ _ _ _ (peek_yes (chars ")") (mk_pst (41 :: r2) _) 41 r2 ltac:(done) ltac:(done) ltac:(done))). cbn [negb].
  rewrite (bindE _ _ _ _ _ (get_sym 41 r2 _ ltac:(sym))).
  destruct (suff_after (skip r1) text (line 3 t) (41 :: r2)) as [S2 L2]; try done; [apply skip_skip|]. cbn [length] in L2.
  pose proof (skip_length r2) as L3.
  destruct (parse_rd_line text rest St l f c (mk_pst (skip r2) (length l + m)) m) as (tl & R' & D'); cbn [p_s p_mallocs]; try done.
  { apply skip_skip. } { apply (suff_trans _ r2); [apply suff_skip|]. eapply suff_trans; [apply suff_cons|exact S2]. } { lia. }
  eexists. split; [exact R'|]. by rewrite decode_redirs, D, D'.
Qed.

(** A pipe. *)
Lemma read_pipe l r : R0 l -> R1 r -> R1 (TPipe l r).
Proof.
  intros Hl Hr text rest s f m St E Su Hf M. cbn [line paren Nat.ltb Nat.leb] in E. rewrite <- app_assoc in E. cbn [app nodes] in E, M.
  set (r1 := line 1 r ++ rest) in *. destruct (suff_after _ text _ (124 :: r1) E ltac:(done) Su) as [S1 L1]. cbn [length] in L1.
  destruct f as [|f]; [lia|]. cbn [parsepipe].
  destruct (Hl text (124 :: r1) s f (S (nodes r + m))) as (c1 & R & D); try done; [sym|lia|lia|].
  rewrite (bindE _ _ _ _ _ R). rewrite (bindE _ _ _ _ _ (peek_yes (chars "|") (mk_pst (124 :: r1) _) 124 r1 ltac:(done) ltac:(done) ltac:(done))).
  rewrite (bindE _ _ _ _ _ (get_sym 124 r1 _ ltac:(sym))). pose proof (skip_length r1) as L2.
  destruct (Hr text rest (mk_pst (skip r1) (S (nodes r + m))) f (S m)) as (c2 & R' & D'); cbn [p_s p_mallocs]; try done.
  { apply skip_skip. } { apply (suff_trans _ r1); [apply suff_skip|]. eapply suff_trans; [apply suff_cons|exact S1]. } { lia. }
  exists (PIPE c1 c2). rewrite (bindE _ _ _ _ _ R'). split; [done|]. cbn [decode]. by rewrite D, D'.
Qed.

Lemma read_pipe_one t : line 1 t = line 0 t -> R0 t -> R1 t.
Proof.
  intros El H text rest s f m St E Su Hf M. rewrite El in E. destruct (stops_pipe rest St) as [St' Np]. destruct f as [|f]; [lia|].
  cbn [parsepipe]. destruct (H text rest s f m) as (c & R & D); try done; [lia|]. exists c. split; [|done].
  destruct (stops_facts rest St') as (Sk & _). rewrite (bindE _ _ _ _ _ R), (bindE _ _ _ _ _ (peek_no _ (mk_pst rest m) ltac:(cbn [p_s]; by rewrite Sk))).
  cbn [p_s p_mallocs]. by rewrite Sk.
Qed.

(** Background commands. *)
Lemma read_back_none t : line 2 t = line 1 t -> R1 t -> R2 t.
Proof.
  intros El H text rest s f m St E Su Hf M. rewrite El in E. destruct (H text rest s f m) as (c & R & D); try done.
  exists c, f. rewrite (bindE _ _ _ _ _ R). split; [done|]. split; [done|].
  destruct (stops_facts rest (proj1 (stops_pipe rest St))) as (Sk & _). destruct (suff_after _ text _ rest E Sk Su) as [_ L]. lia.
Qed.

Lemma read_back t : R2 t -> R2 (TBack t).
Proof.
  intros H text rest s f m St E Su Hf M. cbn [line paren Nat.ltb Nat.leb] in E. rewrite <- app_assoc in E. cbn [app nodes] in E, M.
  destruct (H text (38 :: rest) s f (S m)) as (c & f' & R & D & L); try done; [sym|lia|]. cbn [length] in L. destruct f' as [|f']; [lia|].
  exists (BACK c), f'. rewrite R. cbn [parse_backs decode]. rewrite D. split; [|split; [done|lia]].
  rewrite (bindE _ _ _ _ _ (peek_yes (chars "&") (mk_pst (38 :: rest) _) 38 rest ltac:(done) ltac:(done) ltac:(done))). cbn [negb].
  rewrite (bindE _ _ _ _ _ (get_sym 38 rest _ ltac:(sym))). destruct (stops_facts rest (proj1 (stops_pipe rest St))) as (Sk & _). by rewrite Sk.
Qed.

Lemma parse_backs_end f c rest m : skip rest = rest -> match rest with [] => True | x :: _ => in_set (chars "&") x = false end ->
  parse_backs f c (mk_pst rest m) = POk c (mk_pst rest m).
Proof.
  intros Sk Na. destruct f; cbn [parse_backs]; rewrite (bindE _ _ _ _ _ (peek_no _ (mk_pst rest m) ltac:(cbn [p_s]; by rewrite Sk)));
    cbn [p_s p_mallocs negb]; by rewrite Sk.
Qed.

(** A list. *)
Lemma read_list l r : R2 l -> R3 r -> R3 (TList l r).
Proof.
  intros Hl Hr text rest s f m St E Su Hf M. cbn [line paren Nat.ltb Nat.leb] in E. rewrite <- app_assoc in E. cbn [app nodes] in E, M.
  set (r1 := line 3 r ++ rest) in *. destruct (suff_after _ text _ (59 :: r1) E ltac:(done) Su) as [S1 L1]. cbn [length] in L1.
  destruct f as [|f]; [lia|]. cbn [parseline]. rewrite bind_assocE.
  destruct (Hl text (59 :: r1) s f (S (nodes r + m))) as (c1 & f' & R & D & L); try done; [sym|lia|lia|].
  rewrite (parse_backs_end f' c1 (59 :: r1)) in R by done.
  rewrite (bindE _ _ _ _ _ R). rewrite (bindE _ _ _ _ _ (peek_yes (chars ";") (mk_pst (59 :: r1) _) 59 r1 ltac:(done) ltac:(done) ltac:(done))).
  rewrite (bindE _ _ _ _ _ (get_sym 59 r1 _ ltac:(sym))). pose proof (skip_length r1) as L2.
  destruct (Hr text rest (mk_pst (skip r1) (S (nodes r + m))) f (S m)) as (c2 & R' & D'); cbn [p_s p_mallocs]; try done.
  { apply skip_skip. } { apply (suff_trans _ r1); [apply suff_skip|]. eapply suff_trans; [apply suff_cons|exact S1]. } { lia. }
  exists (LIST c1 c2). rewrite (bindE _ _ _ _ _ R'). split; [done|]. cbn [decode]. by rewrite D, D'.
Qed.

Lemma read_list_one t : line 3 t = line 2 t -> R2 t -> R3 t.
Proof.
  intros El H text rest s f m St E Su Hf M. rewrite El in E. destruct (stops_list rest St) as [St' Np]. destruct f as [|f]; [lia|].
  destruct (stops_facts rest (proj1 (stops_pipe rest St'))) as (Sk & _). cbn [parseline]. rewrite bind_assocE.
  destruct (H text rest s f m) as (c & f' & R & D & _); try done; [lia|]. exists c. split; [|done].
  rewrite (parse_backs_end f' c rest) in R by (done || by destruct rest; [|destruct Np]).
  rewrite (bindE _ _ _ _ _ R), (bindE _ _ _ _ _ (peek_no (chars ";") (mk_pst rest m) ltac:(cbn [p_s]; rewrite Sk; destruct rest; [done|tauto]))).
  cbn [p_s p_mallocs]. by rewrite Sk.
Qed.

(** Every tree is a tree that is no redirection, with redirections around it. *)
Lemma unwrap t : writable t -> exists t0 l, t = wrap t0 l /\ writable t0 /\ Forall rd_ok l /\ match t0 with TRedir _ _ _ _ => False | _ => True end.
Proof.
  induction t as [a|t IH f m d|l _ r _|l _ r _|t _]; intros W;
    try (match goal with |- exists t0 l, ?t = _ /\ _ => exists t, []; by split_and!; [|exact W|constructor|] end).
  destruct W as (W & Wf & Ws). destruct (IH W) as (t0 & l & -> & W0 & Fl & N). exists t0, (l ++ [(f, m, d)]). split_and!; [|done| |done].
  - clear. revert t0. induction l as [|x l IH]; intros t0; [done|]. cbn. apply IH.
  - apply Forall_app. by split; [|constructor].
Qed.

Lemma read_tree : forall n t, (nodes t <= n)%nat -> writable t -> R0 t /\ R1 t /\ R2 t /\ R3 t.
Proof.
  induction n as [|n IH]; intros t L W; [destruct t; cbn in L; lia|].
  assert (forall t0, (nodes t0 <= S n)%nat -> writable t0 -> match t0 with TRedir _ _ _ _ | TExec _ => False | _ => True end -> R3 t0 /\
    (match t0 with TPipe _ _ => R1 t0 | _ => True end) /\ (match t0 with TBack _ => R2 t0 | _ => True end)) as Big.
  { intros [a|t0 f m d|l r|l r|t0] L0 W0 N; try done; cbn [nodes] in L0; cbn [writable] in W0.
    - destruct (IH l ltac:(lia) (proj1 W0)) as (H0 & _). destruct (IH r ltac:(lia) (proj2 W0)) as (_ & H1 & _).
      assert (R1 (TPipe l r)) by by apply read_pipe. split; [|done]. by apply read_list_one, read_back_none.
    - destruct (IH l ltac:(lia) (proj1 W0)) as (_ & _ & H2 & _). destruct (IH r ltac:(lia) (proj2 W0)) as (_ & _ & _ & H3).
      split; [|done]. by apply read_list.
    - destruct (IH t0 ltac:(lia) W0) as (_ & _ & H2 & _). assert (R2 (TBack t0)) by by apply read_back. split; [|done]. by apply read_list_one. }
  assert (R0 t) as H0.
  { destruct (unwrap t W) as (t0 & l & -> & W0 & Fl & N). rewrite wrap_nodes in L. destruct t0 as [a|t0 f m d|l0 r0|l0 r0|t0]; try done.
    - destruct W0. by apply read_exec.
    - apply read_block; [done| |done]. apply (Big (TPipe l0 r0)); [lia|done..].
    - apply read_block; [done| |done]. apply (Big (TList l0 r0)); [lia|done..].
    - apply read_block; [done| |done]. apply (Big (TBack t0)); [lia|done..]. }
  destruct t as [a|t f m d|l r|l r|t].
  - assert (R1 (TExec a)) by by apply read_pipe_one. assert (R2 (TExec a)) by by apply read_back_none. split_and!; try done. by apply read_list_one.
  - assert (R1 (TRedir t f m d)) by by apply read_pipe_one. assert (R2 (TRedir t f m d)) by by apply read_back_none.
    split_and!; try done. by apply read_list_one.
  - destruct (Big _ L W I) as (H3 & H1 & _). split_and!; try done. by apply read_back_none.
  - destruct (Big _ L W I) as (H3 & _). assert (R1 (TList l r)) by by apply read_pipe_one. split_and!; try done. by apply read_back_none.
  - destruct (Big _ L W I) as (H3 & _ & H2). split_and!; try done. by apply read_pipe_one.
Qed.

(** C24 Parsing is the inverse of printing.  Every command tree whose
    words can be written - arguments, redirections, pipes, lists, background
    commands, nested in any way - is what parsecmd() makes of its line, in
    which parentheses stand where the grammar needs them: the precedence of
    the symbols, the association of pipes and lists to the right, the
    repeated [&] and the redirections of blocks are the ones of the printed
    tree. *)
Theorem parse_print t m : writable t ->
  exists c buf, parsecmd (line 3 t) (mk_pst (line 3 t) (nodes t + m)) = POk (c, buf) (mk_pst [] m) /\ decode (line 3 t) c = t.
Proof.
  intros W. destruct (read_tree (nodes t) t ltac:(lia) W) as (_ & _ & _ & H).
  destruct (H (line 3 t) [] (mk_pst (line 3 t) (nodes t + m)) (parse_fuel (line 3 t)) m) as (c & R & D); cbn [p_s]; try done.
  { by rewrite app_nil_r. } { unfold parse_fuel. lia. }
  eexists c, _. split; [|exact D]. unfold parsecmd. by rewrite (bindE _ _ _ _ _ R).
Qed.

Lemma parse_print_witness :
  let t := TList (TBack (TPipe (TExec [chars "cat"; chars "x"]) (TRedir (TList (TExec [chars "wc"]) (TExec [chars "ls"])) (chars "out") 1537 1))) (TExec []) in
  line 3 t = chars " cat x|( wc; ls) >out&;" /\
  exists c buf, parsecmd (line 3 t) (mk_pst (line 3 t) 10) = POk (c, buf) (mk_pst [] 1) /\ decode (line 3 t) c = t.
Proof.
  intros t. split; [reflexivity|]. apply (parse_print t 1). cbn. repeat split; try (unfold MAXARGS; lia); try discriminate; repeat constructor; discriminate.
Defined.
